(* ===== verification/_CoqProject ===== *)
-Q . S2P
Prelude.v
PyValue.v
Errors.v
StateMonad.v
PyTime.v
Freeze.v
Ident.v
Lifecycle.v
Domain.v
Contracts.v
VerificationModels.v
VerificationService.v
VerificationInvariant.v
VerificationTheorems.v
VerificationRecords.v
CompletionGate.v
GateTheorems.v
TransportModels.v
Transport.v
TransportInvariant.v
TransportSteps.v
TransportSafety.v
TransportHistory.v
TransportTheorems.v
TransportLiveness.v
Idempotency.v
EventStore.v
Programs.v
Projection.v
Effects.v
CommitSupport.v
KernelLifecycle.v
Planning.v
RunCommands.v
TaskCommands.v
Recovery.v
CoordinationModels.v
PlanGraph.v
CoordinationStore.v
CoordinationSteps.v
Coordinator.v
CoordinationCells.v
CoordinationSafety.v
CoordinationPool.v
CoordinationRules.v
CoordinationGather.v
CoordinationProofs.v
CoordinationFacade.v
CoordinationTheorems.v
CoordinationRounds.v
Leadership.v
Failover.v
FailoverProofs.v
FailoverBarrier.v
FailoverTheorems.v
Authorization.v
Approvals.v
ApprovalHistory.v
AuthorizationGate.v
AuthorizationProofs.v
AuthorizationTheorems.v
TaskMutations.v
Kernel.v
Machine.v
Stream.v
Interference.v
Refinement.v
CommandSafety.v
TaskSafety.v
Interleaving.v
KernelTheorems.v
Gating.v
KernelGate.v
Samples.v
VerificationSamples.v
KernelWitnesses.v
TransportSamples.v
CoordinationSamples.v
FailoverSamples.v
AuthorizationSamples.v
