(* ===== verification/Prelude.v ===== *)
(** * A verification of the AI Multi-Agent Platform

    The sources are under src/src/ai_multi_agent_platform/; paths below are relative to it. The
    development models six subsystems and the data they share, and proves what each promises, alone and
    where they meet.

    ** The program and how its parts interact

    - The kernel (kernel/) owns the canonical truth: every task has a stream of events in an event
      repository, and commands append batches to it under optimistic revision checks. Tasks and runs are
      read by folding the stream. Runs are handed to a lifecycle backend, plans come from an orchestrator.
    - The verification authority (verification/) collects reviews of a task's output and decides, as the
      kernel's completion authority, whether the task may succeed.
    - The coordinator (coordination/) drives the steps of a registered plan: it opens steps whose dependencies
      succeeded, asks the kernel for runs, observes their outcomes, retries, waits for signals and completes
      the task. Any number of coordinators share one repository of plans, records and claims.
    - The transport (messaging/) carries messages between services: at-least-once delivery per consumer
      group with retries, dead letters and idempotent consumers.
    - The leadership of the control plane (distributed/): several control planes may be deployed, of which one leads. A
      coordination provider elects it by lease and fencing token; the failover service of each process promotes
      it after a reconciliation, and grants authority while the provider confirms its token; workers check the
      token of each command that has effects.
    - Authorization (security/): a gate asks an authorization provider about the exact action that a caller proposes.
      Where the provider requires an approval, the approval service keeps one that is bound to the digest of the
      action, and the gate lets an actor decide about it whom the provider allows to. Everybody else asks the gate.

    ** Files

    Shared ground.
    - Prelude.v: results, option and list lemmas, tactics. PyValue.v: Python values. Errors.v:
      contracts/errors.py. PyTime.v: datetimes, timedeltas and floats. StateMonad.v: methods of mutable
      objects as state-passing functions with Hoare triples. Programs.v: coroutines as trees of awaited
      operations, [asyncio.gather], and runs that interleave coroutines at every await.
    - Freeze.v, Ident.v, Lifecycle.v, Domain.v: domain/models.py and domain/lifecycle.py (payload freezing,
      identifiers, status tables, the dataclasses with the checks of their constructors). Contracts.v:
      contracts/types.py.

    Kernel.
    - EventStore.v: kernel/repository.py, the contract [EventRepositoryLaws] and the in-memory implementation that
      keeps it. Projection.v: kernel/models.py and kernel/state.py. Effects.v: what a kernel coroutine awaits.
      CommitSupport.v: commit_support.py and queries.py. KernelLifecycle.v: lifecycle.py. Planning.v:
      [plan_task]. RunCommands.v, TaskCommands.v, Recovery.v, TaskMutations.v (with
      output_observer.py), Kernel.v: the files of the same names.
    - Machine.v: the abstract lifecycle machine of a task. Stream.v, Interference.v, Refinement.v,
      CommandSafety.v, TaskSafety.v, Interleaving.v: every interleaving of kernel calls refines it.
      KernelTheorems.v: what follows. Gating.v and KernelGate.v: no success without the authority.
      Samples.v, KernelWitnesses.v: executions in which the theorems are instantiated.

    Verification.
    - VerificationModels.v: verification/models.py and audit.py. VerificationService.v:
      verification_authority.py. CompletionGate.v: gate.py. VerificationInvariant.v,
      VerificationTheorems.v, VerificationRecords.v, GateTheorems.v, VerificationSamples.v: their theorems.

    Transport.
    - TransportModels.v: messaging/models.py. Transport.v: messaging/reference.py. Idempotency.v:
      messaging/helpers.py. TransportInvariant.v, TransportSteps.v, TransportSafety.v,
      TransportHistory.v, TransportTheorems.v, TransportLiveness.v, TransportSamples.v: their theorems.

    Coordination.
    - CoordinationModels.v: coordination/models.py. PlanGraph.v: [validate_graph] of registration.py.
      CoordinationStore.v: repository.py and the repository of retirement.py, what a coordinator awaits, and the
      world that answers. CoordinationSteps.v: progression.py,
      attempt_outcomes.py and the claims of plan_step_coordinator.py. Coordinator.v: the public methods, with
      waits.py, cancellation.py, aggregation.py, reconciliation.py, registration.py and the coordinator
      of retirement.py.
    - CoordinationCells.v: the state machine of a step ([move]), the invariant [store_ok] of the
      repository, and what each repository method does to them. CoordinationSafety.v: coroutines under
      interference, with their claims and what they have read. CoordinationPool.v: any interleaving.
      CoordinationRules.v, CoordinationGather.v: proof rules. CoordinationProofs.v,
      CoordinationFacade.v: every method keeps its obligations.
      CoordinationTheorems.v: the theorems. CoordinationRounds.v: [advance] terminates.
      CoordinationSamples.v: instances of both.

    Leadership.
    - Leadership.v: distributed/control_plane_ha.py and high_availability/reference.py; the class
      [CoordinationProvider] with its laws, and the reference provider as an instance. Failover.v:
      high_availability/service.py and worker_transport.py, as coroutines over any provider.
    - FailoverProofs.v: whoever acts on a token had it validated, in any interleaving. FailoverBarrier.v: the promotion
      barrier. FailoverTheorems.v: the theorems. FailoverSamples.v: two control planes and a worker at work.

    Authorization.
    - Authorization.v: contracts/authorization.py and security/authorization.py, with the local provider
      ([local_authorize]). Approvals.v: approvals.py and the adapter of async_persistence.py. AuthorizationGate.v:
      enforcement.py, as coroutines over any provider and any observers.
    - ApprovalHistory.v: what each method of the approval service may do to the records ([grows]).
      AuthorizationProofs.v: what a coroutine must know before it concludes or settles, and the log of every
      interleaving. AuthorizationTheorems.v: the theorems. AuthorizationSamples.v: an agent, an approver and an
      administrator at work.

    ** What the theorems show

    - Kernel: however public calls interleave, every stream is a trace of the lifecycle machine
      ([kernel_refines_machine]); hence at most one active run per subject, consecutive attempts, final statuses
      that stay final, streams that every reader can fold, runs dispatched only after they are durable, and
      success only after the authority accepted ([success_needs_acceptance]): where a verification requirement with
      stages had been set, on verified evidence ([completed_work_is_verified]).
    - Verification: an accepted assessment rests on enough independent, unexpired evidence per stage
      ([accepted_means_verified]); the gate accepts tasks without a requirement, policies without stages and verified
      subjects, nothing else ([gate_accepts_only_verified]), and never changes a policy; repairs are bounded; the
      evaluation equals a reference without unreachable branches. The service accepts a result under an identifier
      that was used before ([reused_result_id_overwrites]): the invariant of the service and what stays of its records
      ([verification_service_invariant], [evidence_is_final]) cover this and say what becomes of the earlier result, and
      the theorems on acceptance name the condition that no two requests share a recorded result
      ([results_unshared]), which is lost in no other way ([unshared_unless_reused]).
    - Transport: nothing is lost or settled twice, retention is exact and bounded, a running consumer drains
      its group, a poison message is dead-lettered after the attempts its policy allows, and a handler
      behind the idempotency store completes once per key.
    - Coordination: in any interleaving of any number of coordinators, with crashes and expired claims, a run of a
      step is requested only after all its dependencies succeeded ([dependencies_run_first]), a task is
      completed only with its steps ([task_completes_with_its_steps]), every step moves by the state machine
      ([coordinators_refine_machine]), the repository stays consistent, and a coordinator that lost its claim
      can never save again, whatever anybody calls ([lost_claim_cannot_save]). The graph check is exact ([validate_graph_exact]), and [advance] terminates
      ([advance_terminates]): every save of its loop makes the record of a step lighter.
    - Leadership: over any provider with the laws, in any interleaving of processes, workers and outages, authority
      and commands with effects need a validated token, and tokens are validated in the order of their epochs
      ([authority_is_fenced]); a process that is promoted by one coroutine at a time has no authority before its
      reconciliation completed ([promotion_precedes_authority]); a refusal of the provider closes the process
      ([authority_fails_closed]); a standby waits for the lease and takes over once it has expired
      ([standby_takes_over]); a worker handles a fenced command exactly when its token is current
      ([fenced_command_outcome]).
    - Authorization: in any interleaving of callers, a permission is the provider's or rests on an approval of exactly that
      action that a search found, stored and unexpired by a clock reading of this search, after an allowed approver
      had approved it ([allowed_actions_are_authorized]); approvals are settled by the
      entitled ([approvals_are_settled_by_the_entitled]) and once ([approvals_settle_once]); an approved action goes
      through ([approved_action_proceeds]). The local provider grants exactly what its policies say
      ([local_policy_is_exact]); with it, what a policy gates needs an approver, for administrators too
      ([gated_actions_need_an_approver]).
    - Data: constructors accept exactly the valid entities ([constructors_accept_exactly_valid]), identifiers are accepted
      exactly in canonical form, freezing is correct, tool arguments round-trip, lifecycles terminate.

    ** How the code is modelled

    - A coroutine is a tree of awaited operations; between two of them any other coroutine may run. Locks of
      asyncio that are never held at a suspension point make the guarded section one step; the per-task lock of
      the kernel only removes interleavings and is left out. A crash is a coroutine that is never scheduled again.
    - Third-party and environment code is a parameter: the clock, UUIDs, the orchestrator, the lifecycle
      backend, the authorization provider, the digest of an action, event sinks and observers, the schedule that
      asyncio picks for gathered children, the power of two floats, the failover reconciler and the work of a
      worker. The coordinator's theorems hold for any kernel that answers at all, since they constrain what it is
      asked. The event repository is any implementation of its laws.
    - In the failover service the code between two awaits is one operation on the attributes ([Update]). Reading the
      observation clock is an operation of its own, so the model has a few interleavings more than the code.
    - [asyncio.gather] raises the exception of the child that failed first, after the other children have run
      (asyncio raises it while they still run; what the others do is covered by the interleavings).
    - Integers are Python's unbounded integers; floats are binary64 values of SpecFloat; datetimes are
      microseconds with Python's range checks.

    ** Bounds and fuel

    - The retry loops of the code are bounded by its own limits: 8 attempts for a stale kernel revision
      ([STALE_REVISION_RETRY_LIMIT]) and 32 for a stale stream ([STALE_STREAM_RETRY_LIMIT]).
    - The search for cycles recurses at most once per step: its fuel is one more than the number of steps, and
      [validate_graph_exact] shows that it is never exhausted.
    - The loop of the coordinator's [advance] has a number of rounds as argument. The safety theorems hold for
      every number. A run that runs out of rounds raises an exception that the code has not; alone on a
      repository, more rounds than the repository weighs ([store_weight]) are always enough.
    - The theorems on authorization hold as long as no more identifiers are drawn than are distinct: [bound] is
      any number below which the generator does not repeat itself.
    - [sample_bound] bounds how many UUIDs the sample executions draw.

    ** Not modelled

    - SQL and network implementations of the repositories and of the transport, telemetry, the HTTP control plane, the
      command line and deployment: edges around the modelled core. [renew_claim] of the coordinator's repository is
      modelled but no coordinator method calls it. Cancellation of a caller of the authorization gate, which shields
      what it must complete. The interpreter's recursion limit.
    - The other packages of the platform, listed with their reasons in the manifest. Next in the plan: the planning
      service (planning/), the registry of worker leases (distributed/registry.py), automation and governance state machines,
      authentication and egress (security/), and the wire format of envelopes (messaging/models.py). *)


From Stdlib Require Export Ascii String ZArith Lia.
From stdpp Require Export base tactics strings pretty gmap list.

Open Scope string_scope.
Open Scope list_scope.

(** ** Results: a value or the exception that replaced it *)

Inductive result (E A : Type) : Type :=
| Ok (a : A)
| Err (e : E).
Arguments Ok {E A} a.
Arguments Err {E A} e.

#[export] Instance result_ret {E} : MRet (result E) := fun A a => Ok a.
#[export] Instance result_bind {E} : MBind (result E) := fun A B f m =>
  match m with Ok a => f a | Err e => Err e end.
#[export] Instance result_fmap {E} : FMap (result E) := fun A B f m =>
  match m with Ok a => Ok (f a) | Err e => Err e end.

Definition is_ok {E A} (r : result E A) : bool :=
  match r with Ok _ => true | Err _ => false end.

(** [require b e] continues when the guard holds and raises [e] otherwise. *)
Definition require {E} (b : bool) (e : E) : result E unit :=
  if b then Ok tt else Err e.

(** Left fold that stops at the first exception: a [for] loop whose body may raise. *)
Fixpoint fold_res {E A B} (f : B -> A -> result E B) (b : B) (l : list A) : result E B :=
  match l with
  | [] => Ok b
  | a :: l' => match f b a with Ok b' => fold_res f b' l' | Err e => Err e end
  end.

(** A comprehension whose element expression may raise. *)
Fixpoint map_res {E A B} (f : A -> result E B) (l : list A) : result E (list B) :=
  match l with
  | [] => Ok []
  | a :: l' =>
      match f a with
      | Ok b => match map_res f l' with Ok bs => Ok (b :: bs) | Err e => Err e end
      | Err e => Err e
      end
  end.

Section result_lemmas.
Context {E A B C : Type}.

Lemma bind_ok (m : result E A) (f : A -> result E B) b :
  (m ≫= f) = Ok b <-> exists a, m = Ok a /\ f a = Ok b.
Proof. destruct m; cbn; split; naive_solver. Qed.

Lemma require_ok (b : bool) (e : E) u : require b e = Ok u <-> b = true.
Proof. destruct b, u; cbn; naive_solver. Qed.

Lemma fold_res_app (f : B -> A -> result E B) b l1 l2 :
  fold_res f b (l1 ++ l2) =
  match fold_res f b l1 with Ok b' => fold_res f b' l2 | Err e => Err e end.
Proof. revert b. induction l1 as [|a l1 IH]; intros b; cbn; [done|]. by destruct (f b a). Qed.

Lemma fold_res_snoc (f : B -> A -> result E B) b l a :
  fold_res f b (l ++ [a]) =
  match fold_res f b l with Ok b' => f b' a | Err e => Err e end.
Proof. rewrite fold_res_app. destruct (fold_res f b l) as [b'|]; cbn; [by destruct (f b' a)|done]. Qed.

Lemma fold_res_prefix_ok (f : B -> A -> result E B) b l1 l2 b2 :
  fold_res f b (l1 ++ l2) = Ok b2 -> exists b1, fold_res f b l1 = Ok b1 /\ fold_res f b1 l2 = Ok b2.
Proof. rewrite fold_res_app. destruct (fold_res f b l1); naive_solver. Qed.

(** An invariant of the loop body is an invariant of the loop. *)
Lemma fold_res_ind (P : B -> Prop) (f : B -> A -> result E B) b l b' :
  P b -> (forall x a x', a ∈ l -> P x -> f x a = Ok x' -> P x') ->
  fold_res f b l = Ok b' -> P b'.
Proof.
  revert b. induction l as [|a l IH]; cbn; intros b Hb Hf Hl; [naive_solver|].
  destruct (f b a) as [x'|] eqn:Ha; [|done].
  eapply (IH x'); [eapply Hf; [left|exact Hb|exact Ha]| |exact Hl].
  intros; eapply Hf; [right|..]; eassumption.
Qed.

Lemma map_res_ok (f : A -> result E B) l bs :
  map_res f l = Ok bs <-> Forall2 (fun a b => f a = Ok b) l bs.
Proof.
  revert bs. induction l as [|a l IH]; cbn; intros bs.
  - split; [intros [= <-]; constructor|intros H; inversion H; done].
  - destruct (f a) as [b|] eqn:Ha.
    + destruct (map_res f l) as [bs'|] eqn:Hl.
      * split; [intros [= <-]; constructor; [done|by apply IH]|].
        intros H; inversion H as [|? b' ? bs'' ? Hr]; simplify_eq. apply IH in Hr. congruence.
      * split; [done|]. intros H; inversion H as [|? b' ? bs'' ? Hr]; simplify_eq.
        apply IH in Hr. done.
    + split; [done|]. intros H; inversion H; congruence.
Qed.

Lemma map_res_err (f : A -> result E B) l e : map_res f l = Err e -> exists a, a ∈ l /\ f a = Err e.
Proof.
  induction l as [|a l IH]; cbn; [done|]. destruct (f a) eqn:Ha.
  - destruct (map_res f l) as [|e'] eqn:Hl; [done|]. intros [= ->]. destruct IH as (a' & ? & ?); [done|].
    exists a'. split; [by right|done].
  - intros [= ->]. exists a. split; [by left|done].
Qed.
End result_lemmas.

(** ** Python strings

    A [str] is a sequence of code points; the model keeps the code points below 256, one
    [ascii] each, and follows CPython's classification of exactly those. *)

Definition chars : string -> list ascii := list_ascii_of_string.
Definition code (c : ascii) : nat := nat_of_ascii c.
Definition ch (n : nat) : ascii := ascii_of_nat n.

(** [str.isspace] on one character. *)
Definition is_space (c : ascii) : bool :=
  let n := code c in
  bool_decide (9 <= n <= 13) || bool_decide (28 <= n <= 32) ||
  bool_decide (n = 133) || bool_decide (n = 160).

(** [not s.strip()] *)
Definition blank (s : string) : bool := forallb is_space (chars s).

(** [str.lower] on one character: ASCII and Latin-1 capitals. *)
Definition lower_char (c : ascii) : ascii :=
  let n := code c in
  if bool_decide (65 <= n <= 90) || (bool_decide (192 <= n <= 222) && negb (bool_decide (n = 215)))
  then ch (n + 32) else c.
Definition lower (s : string) : string := string_of_list_ascii (map lower_char (chars s)).

Definition starts_with (s p : string) : bool := String.prefix p s.

(** [s[n:]] *)
Fixpoint drop_str (n : nat) (s : string) : string :=
  match n, s with
  | 0, _ => s
  | S n', String _ s' => drop_str n' s'
  | S _, EmptyString => EmptyString
  end.

(** [str.join] *)
Fixpoint join (sep : string) (l : list string) : string :=
  match l with
  | [] => ""
  | [s] => s
  | s :: l' => s +:+ sep +:+ join sep l'
  end.

(** [x or y] on an optional string: [None] and the empty string are false. *)
Definition or_else (o : option string) (d : string) : string :=
  match o with
  | Some s => if bool_decide (s = "") then d else s
  | None => d
  end.

(** Membership test of a string in a literal set or tuple. *)
Definition in_strs (s : string) (l : list string) : bool := existsb (String.eqb s) l.

(** [sorted(...)] of strings: insertion by code point order. *)
Fixpoint insert_sorted (s : string) (l : list string) : list string :=
  match l with
  | [] => [s]
  | t :: l' => if String.leb s t then s :: l else t :: insert_sorted s l'
  end.
Definition sort_strs (l : list string) : list string := foldr insert_sorted [] l.

(** [repr] of a string. *)
Definition hex_nibble (n : nat) : string :=
  String (ch (if bool_decide (n < 10) then 48 + n else 87 + n)) "".
Definition repr_char (quote c : ascii) : string :=
  let n := code c in
  if bool_decide (c = quote) || bool_decide (n = 92) then String "\" (String c "")
  else if bool_decide (n = 9) then "\t"
  else if bool_decide (n = 10) then "\n"
  else if bool_decide (n = 13) then "\r"
  else if bool_decide (n < 32) || bool_decide (127 <= n <= 160) || bool_decide (n = 173)
       then "\x" +:+ hex_nibble (n / 16) +:+ hex_nibble (n mod 16)
  else String c "".
Definition py_repr (s : string) : string :=
  let quote := if existsb (Ascii.eqb (ch 39)) (chars s) && negb (existsb (Ascii.eqb (ch 34)) (chars s))
               then ch 34 else ch 39 in
  String quote (join "" (map (repr_char quote) (chars s)) +:+ String quote "").
Definition repr_list (l : list string) : string := "[" +:+ join ", " (map py_repr l) +:+ "]".

Lemma in_strs_true s l : in_strs s l = true <-> s ∈ l.
Proof.
  unfold in_strs. rewrite existsb_exists. setoid_rewrite String.eqb_eq.
  rewrite list_elem_of_In. naive_solver.
Qed.

Lemma elem_of_insert_sorted x s l : x ∈ insert_sorted s l <-> x = s \/ x ∈ l.
Proof.
  induction l as [|t l IH]; cbn; [set_solver|].
  destruct (String.leb s t); rewrite !elem_of_cons, ?IH; naive_solver.
Qed.

Lemma elem_of_sort_strs x l : x ∈ sort_strs l <-> x ∈ l.
Proof.
  unfold sort_strs. induction l as [|s l IH]; cbn; [done|].
  by rewrite elem_of_insert_sorted, IH, elem_of_cons.
Qed.

Lemma sort_strs_perm l : sort_strs l ≡ₚ l.
Proof.
  assert (forall s k, insert_sorted s k ≡ₚ s :: k) as Hins.
  { intros s k. induction k as [|t k IH]; cbn; [done|]. destruct (String.leb s t); [done|]. by rewrite IH, Permutation_swap. }
  induction l as [|s l IH]; [done|]. cbn. by rewrite Hins, IH.
Qed.

Lemma chars_app s t : chars (s +:+ t) = chars s ++ chars t.
Proof.
  induction s as [|c s IH]; [done|].
  change (c :: chars (s +:+ t) = c :: (chars s ++ chars t)). by rewrite IH.
Qed.

Lemma chars_inj s t : chars s = chars t -> s = t.
Proof.
  intros H. rewrite <- (string_of_list_ascii_of_string s), <- (string_of_list_ascii_of_string t).
  by f_equal.
Qed.

Lemma prefix_app p s : String.prefix p (p +:+ s) = true.
Proof.
  induction p as [|c p IH]; [by destruct s|].
  change ((if ascii_dec c c then String.prefix p (p +:+ s) else false) = true).
  by destruct (ascii_dec c c).
Qed.

Lemma prefix_split p s :
  String.prefix p s = true -> s = p +:+ drop_str (String.length p) s.
Proof.
  revert s. induction p as [|c p IH]; intros s; [done|].
  destruct s as [|d s]; cbn; [done|]. destruct (ascii_dec c d) as [->|]; [|done].
  intros H. change (String d s = String d (p +:+ drop_str (String.length p) s)). by rewrite <- IH.
Qed.

Lemma drop_str_app p s : drop_str (String.length p) (p +:+ s) = s.
Proof. induction p; auto. Qed.

(** ** Automation *)

(** [res_inv] opens every hypothesis of the form "this computation returned". *)
Ltac res_inv :=
  repeat match goal with
  | H : (_ ≫= _) = Ok _ |- _ => apply bind_ok in H; destruct H as (? & ? & H)
  | H : require _ _ = Ok _ |- _ => apply require_ok in H
  | H : Ok _ = Ok _ |- _ => injection H as H
  | H : Err _ = Ok _ |- _ => discriminate H
  | H : mret _ = Ok _ |- _ => injection H as H
  | H : exists _, _ |- _ => destruct H
  | H : _ /\ _ |- _ => destruct H
  end; subst.

(** Case analysis on the innermost scrutinee of the goal. *)
Ltac case_goal :=
  match goal with
  | |- context [match ?x with _ => _ end] =>
      lazymatch x with
      | context [match _ with _ => _ end] => fail
      | _ => destruct x eqn:?
      end
  end.

(** Turn boolean tests in the hypotheses into propositions. *)
Ltac bool_props :=
  repeat match goal with
  | H : bool_decide _ = true |- _ => apply bool_decide_eq_true in H
  | H : bool_decide _ = false |- _ => apply bool_decide_eq_false in H
  | H : negb _ = true |- _ => apply negb_true_iff in H
  | H : negb _ = false |- _ => apply negb_false_iff in H
  | H : (_ && _)%bool = true |- _ => apply andb_true_iff in H; destruct H
  | H : (_ || _)%bool = false |- _ => apply orb_false_iff in H; destruct H
  | H : String.eqb _ _ = true |- _ => apply String.eqb_eq in H
  | H : String.eqb _ _ = false |- _ => apply String.eqb_neq in H
  end.

(** Evaluate the decisions on closed data that occur in the goal. *)
Ltac eval_decides :=
  repeat match goal with
  | |- context [@bool_decide ?P ?D] =>
      let b := eval vm_compute in (@bool_decide P D) in
      lazymatch b with
      | true => change (@bool_decide P D) with true
      | false => change (@bool_decide P D) with false
      end
  end.
