(* ===== verification/PyValue.v ===== *)
(** * Python values carried by canonical records: JSON data, freezing, comparison

    The values that payloads, metadata and outputs hold, with the dict and sequence flavours
    the code distinguishes, and the functions of contracts/types.py, domain/models.py and
    kernel/task_mutations.py that copy, freeze, thaw and compare them. *)

From Stdlib Require Import SpecFloat.
From S2P Require Import Prelude.

(** Sequences are [list] or [tuple]; mappings are [dict] or the read-only [MappingProxyType].
    [VEnum v] is an Enum member whose value is [v]; [VOther ty] an object of a type outside
    [IMMUTABLE_LEAF_TYPES] that is neither a container nor an Enum. *)
Inductive seq_kind := SList | STuple.
Inductive map_kind := MDict | MProxy.

#[warnings="-register-all"]
Inductive pyval :=
| VNone
| VBool (b : bool)
| VInt (z : Z)
| VFloat (f : spec_float)
| VStr (s : string)
| VSeq (k : seq_kind) (l : list pyval)
| VMap (k : map_kind) (l : list (string * pyval))
| VEnum (v : pyval)
| VOther (type_name : string).

(** A [dict[str, JsonValue]] as an association list in insertion order. *)
Abbreviation dict := (list (string * pyval)).

#[export] Instance seq_kind_eq_dec : EqDecision seq_kind.
Proof. solve_decision. Defined.
#[export] Instance map_kind_eq_dec : EqDecision map_kind.
Proof. solve_decision. Defined.
#[export] Instance spec_float_eq_dec : EqDecision spec_float.
Proof. solve_decision. Defined.

Section pyval_ind.
Context (P : pyval -> Prop).
Context (HNone : P VNone) (HBool : forall b, P (VBool b)) (HInt : forall z, P (VInt z))
  (HFloat : forall f, P (VFloat f)) (HStr : forall s, P (VStr s))
  (HSeq : forall k l, Forall P l -> P (VSeq k l))
  (HMap : forall k l, Forall (fun kv => P kv.2) l -> P (VMap k l))
  (HEnum : forall v, P v -> P (VEnum v)) (HOther : forall t, P (VOther t)).

(** Induction with the hypothesis on every element of a container. *)
Fixpoint pyval_nested_ind (v : pyval) : P v :=
  match v with
  | VNone => HNone
  | VBool b => HBool b
  | VInt z => HInt z
  | VFloat f => HFloat f
  | VStr s => HStr s
  | VSeq k l => HSeq k l
      ((fix go l : Forall P l :=
          match l with
          | [] => Forall_nil_2 P
          | x :: l' => Forall_cons_2 P x l' (pyval_nested_ind x) (go l')
          end) l)
  | VMap k l => HMap k l
      ((fix go l : Forall (fun kv => P kv.2) l :=
          match l with
          | [] => Forall_nil_2 _
          | kv :: l' => Forall_cons_2 _ kv l' (pyval_nested_ind kv.2) (go l')
          end) l)
  | VEnum v => HEnum v (pyval_nested_ind v)
  | VOther t => HOther t
  end.
End pyval_ind.

(** ** Dict operations *)

(** [d.get(k)] with [None] for a missing key at the [option] level. *)
Fixpoint dict_get {A} (k : string) (d : list (string * A)) : option A :=
  match d with
  | [] => None
  | (k', v) :: d' => if String.eqb k k' then Some v else dict_get k d'
  end.

(** [d[k] = v]: an existing key keeps its position. *)
Fixpoint dict_set {A} (k : string) (v : A) (d : list (string * A)) : list (string * A) :=
  match d with
  | [] => [(k, v)]
  | (k', v') :: d' => if String.eqb k k' then (k', v) :: d' else (k', v') :: dict_set k v d'
  end.

(** [d.update(e)], and [{**d, **e}]. *)
Definition dict_update {A} (d e : list (string * A)) : list (string * A) :=
  foldl (fun acc kv => dict_set kv.1 kv.2 acc) d e.

Definition dict_keys {A} (d : list (string * A)) : list string := map fst d.

(** [payload.get(key)]: a missing key reads as [None]. *)
Definition get (k : string) (d : dict) : pyval := default VNone (dict_get k d).

(** An optional string as a JSON value. *)
Definition optional_value (o : option string) : pyval := match o with Some s => VStr s | None => VNone end.

Section dict_lemmas.
Context {A : Type}.
Implicit Types d e : list (string * A).

Lemma dict_get_set k k' v d :
  dict_get k (dict_set k' v d) = if String.eqb k k' then Some v else dict_get k d.
Proof.
  induction d as [|[k1 v1] d IH]; cbn; [done|].
  destruct (String.eqb_spec k' k1) as [->|Hne]; cbn.
  - by destruct (String.eqb k k1).
  - destruct (String.eqb_spec k k1) as [->|]; [|exact IH].
    by destruct (String.eqb_spec k1 k') as [->|].
Qed.

(** In [d.update(e)] the last binding of a key in [e] wins, then [d]. *)
Lemma dict_get_update k d e :
  dict_get k (dict_update d e) =
  match dict_get k (rev e) with Some v => Some v | None => dict_get k d end.
Proof.
  unfold dict_update. revert d. induction e as [|[k1 v1] e IH]; intros d; cbn; [done|].
  rewrite IH, dict_get_set. clear IH.
  assert (Happ : dict_get k (rev e ++ [(k1, v1)]) =
    match dict_get k (rev e) with Some v => Some v
    | None => if String.eqb k k1 then Some v1 else None end).
  { induction (rev e) as [|[k2 v2] l IHl]; cbn; [done|]. by destruct (String.eqb k k2). }
  rewrite Happ. destruct (dict_get k (rev e)); [done|]. by destruct (String.eqb k k1).
Qed.

Lemma dict_get_None k d : dict_get k d = None <-> k ∉ dict_keys d.
Proof.
  induction d as [|[k1 v1] d IH]; cbn; [by split; [intros _; apply not_elem_of_nil|]|].
  rewrite not_elem_of_cons. destruct (String.eqb_spec k k1); naive_solver.
Qed.

Lemma dict_get_in k d v : dict_get k d = Some v -> (k, v) ∈ d.
Proof.
  induction d as [|[k1 v1] d IH]; cbn; [done|].
  destruct (String.eqb_spec k k1) as [->|]; [intros [= ->]; left|right; auto].
Qed.

Lemma dict_in_get k d v : NoDup (dict_keys d) -> (k, v) ∈ d -> dict_get k d = Some v.
Proof.
  unfold dict_keys. induction d as [|[k1 v1] d IH]; cbn; [by intros _ ?%elem_of_nil|].
  rewrite NoDup_cons. intros [Hk1 Hnd] [[= -> ->]|Hin]%elem_of_cons; [by rewrite String.eqb_refl|].
  destruct (String.eqb_spec k k1) as [->|]; [|auto].
  destruct Hk1. apply list_elem_of_fmap. by exists (k1, v).
Qed.

Lemma dict_set_forall (P : string * A -> Prop) k v d :
  P (k, v) -> Forall P d -> Forall P (dict_set k v d).
Proof.
  intros Hkv. induction 1 as [|[k1 v1] d H1 Hd IH]; cbn; [by repeat constructor|].
  destruct (String.eqb_spec k k1) as [->|]; constructor; auto.
Qed.

Lemma dict_update_forall (P : string * A -> Prop) d e :
  Forall P d -> Forall P e -> Forall P (dict_update d e).
Proof.
  unfold dict_update. intros Hd He. revert d Hd.
  induction He as [|[k v] e Hkv He IH]; intros d Hd; cbn; [done|].
  apply IH. by apply dict_set_forall.
Qed.
End dict_lemmas.
