(* ===== verification/Errors.v ===== *)
(** * Errors: contracts/errors.py and the builtin exceptions the kernel lets escape *)

From S2P Require Import Prelude PyValue.

Inductive ErrorCode :=
| INVALID_REQUEST | INVALID_CONFIGURATION | UNSUPPORTED_CAPABILITY | NOT_FOUND
| MODEL_UNAVAILABLE | NO_COMPATIBLE_ROUTE | INPUT_TOO_LARGE | INVALID_PROVIDER_RESPONSE
| CONFLICT | UNAVAILABLE | TIMEOUT | CANCELLED_ERROR | RATE_LIMITED | RESOURCE_EXHAUSTED
| UNAUTHORIZED | FORBIDDEN | TRANSIENT_FAILURE | PERMANENT_FAILURE | CONTRACT_VIOLATION
| BACKEND_ERROR.

#[export] Instance ErrorCode_eq_dec : EqDecision ErrorCode.
Proof. solve_decision. Defined.

(** The subclasses of [CoordinationError] of distributed/control_plane_ha.py. *)
Inductive coordination_error :=
| CoordinationUnavailable | LeadershipConflict | StaleFencingToken | NotLeaderError | PromotionReconciliationError.

#[export] Instance coordination_error_eq_dec : EqDecision coordination_error.
Proof. solve_decision. Defined.

(** [ContractError(code, message, retryable=..., details=...)]. The [provider_id] and [adapter_metadata] of an error are
    left out: no modelled code reads them. *)
Inductive exc :=
| ContractError (error_code : ErrorCode) (message : string) (retryable : bool) (details : dict)
| ValueError (message : string)
| TypeError (message : string)
| KeyError (key : string)
| RuntimeError (message : string)
| OverflowError (message : string)
| AssertionError (message : string)
| CoordinationError (class : coordination_error) (message : string).

Abbreviation res := (result exc).

(** [raise ContractError(code, message)] with the default keyword arguments. *)
Definition contract_error (c : ErrorCode) (message : string) : exc :=
  ContractError c message false [].

(** [except ContractError as exc: if exc.code is not code: raise] *)
Definition has_code (c : ErrorCode) (e : exc) : bool :=
  match e with
  | ContractError c' _ _ _ => bool_decide (c' = c)
  | _ => false
  end.

(** [except ValueError as exc: raise ContractError(code, message) from exc] *)
Definition value_error_as {A} (f : string -> exc) (r : res A) : res A :=
  match r with
  | Err (ValueError m) => Err (f m)
  | _ => r
  end.

Lemma value_error_as_ok {A} f (r : res A) a : value_error_as f r = Ok a <-> r = Ok a.
Proof. destruct r as [|[]]; cbn; naive_solver. Qed.
