(* ===== verification/StateMonad.v ===== *)
(** * Computations over a mutable object

    A method of a Python object as a function from the object's state to a result and a new state.
    An exception keeps the state reached so far, as it does in Python. [triple] is a pre- and
    postcondition on both exits; the lemmas give one rule per construct. *)

From S2P Require Import Prelude Errors.

Definition st (S A : Type) : Type := S -> res A * S.

#[export] Instance st_ret S : MRet (st S) := fun A a s => (Ok a, s).
#[export] Instance st_bind S : MBind (st S) := fun A B f m s =>
  match m s with
  | (Ok a, s') => f a s'
  | (Err e, s') => (Err e, s')
  end.

Definition raise {S A} (e : exc) : st S A := fun s => (Err e, s).
Definition of_res {S A} (r : res A) : st S A := fun s => (r, s).
Definition gets {S A} (f : S -> A) : st S A := fun s => (Ok (f s), s).
Definition modify {S} (f : S -> S) : st S unit := fun s => (Ok tt, f s).
(** [if not b: raise e] *)
Definition ensure {S} (b : bool) (e : exc) : st S unit := if b then mret tt else raise e.
(** Statements in a loop over a list. *)
Fixpoint each {S A} (f : A -> st S unit) (l : list A) : st S unit :=
  match l with
  | [] => mret tt
  | a :: l' => _ ← f a; each f l'
  end.

(** ** Pre- and postconditions *)

Definition triple {S A} (P : S -> Prop) (m : st S A) (Q : A -> S -> Prop) (X : exc -> S -> Prop) : Prop :=
  forall s, P s -> match m s with (Ok a, s') => Q a s' | (Err e, s') => X e s' end.

(** The computation keeps an invariant, whichever way it exits. *)
Definition keeps {S A} (I : S -> Prop) (m : st S A) : Prop := triple I m (fun _ => I) (fun _ => I).

(** The relation holds between the states before and after, whichever way it exits. *)
Definition steps {S A} (R : S -> S -> Prop) (m : st S A) : Prop := forall s, R s (m s).2.

Section rules.
Context {S : Type}.
Implicit Types (P I : S -> Prop) (X : exc -> S -> Prop).

Lemma triple_bind {A B} P (m : st S A) (f : A -> st S B) Q Q' X :
  triple P m Q X -> (forall a, triple (Q a) (f a) Q' X) -> triple P (m ≫= f) Q' X.
Proof.
  intros Hm Hf s Hs. specialize (Hm s Hs). unfold mbind, st_bind. destruct (m s) as [[a|e] s']; [|done].
  by apply Hf.
Qed.

Lemma triple_ret {A} P (a : A) (Q : A -> S -> Prop) X : (forall s, P s -> Q a s) -> triple P (mret a) Q X.
Proof. intros H s Hs. by apply H. Qed.

Lemma triple_raise {A} P e (Q : A -> S -> Prop) X : (forall s, P s -> X e s) -> triple P (raise e) Q X.
Proof. intros H s Hs. by apply H. Qed.

Lemma triple_modify P f (Q : unit -> S -> Prop) X : (forall s, P s -> Q tt (f s)) -> triple P (modify f) Q X.
Proof. intros H s Hs. by apply H. Qed.

Lemma triple_gets {A} P (f : S -> A) X : triple P (gets f) (fun a s => P s /\ a = f s) X.
Proof. intros s Hs. done. Qed.

Lemma triple_of_res {A} P (r : res A) X :
  (forall e s, P s -> X e s) -> triple P (of_res r) (fun a s => P s /\ r = Ok a) X.
Proof. intros HX s Hs. destruct r; cbn; auto. Qed.

Lemma triple_ensure P b e X : (forall e s, P s -> X e s) -> triple P (ensure b e) (fun _ s => P s /\ b = true) X.
Proof. intros HX s Hs. destruct b; cbn; auto. Qed.

(** A part that keeps a predicate, in the middle of a computation. *)
Lemma triple_keeps {A} P (m : st S A) X : keeps P m -> (forall e s, P s -> X e s) -> triple P m (fun _ => P) X.
Proof. intros Hm HX s Hs. specialize (Hm s Hs). destruct (m s) as [[a|e] s']; auto. Qed.

Lemma triple_weaken {A} P P' (m : st S A) (Q Q' : A -> S -> Prop) X X' :
  triple P' m Q' X' -> (forall s, P s -> P' s) -> (forall a s, Q' a s -> Q a s) ->
  (forall e s, X' e s -> X e s) -> triple P m Q X.
Proof.
  intros Hm HP HQ HX s Hs. specialize (Hm s (HP s Hs)). destruct (m s) as [[a|e] s']; auto.
Qed.

Lemma keeps_bind {A B} I (m : st S A) (f : A -> st S B) :
  keeps I m -> (forall a, keeps I (f a)) -> keeps I (m ≫= f).
Proof. intros Hm Hf. eapply triple_bind; [exact Hm|exact Hf]. Qed.

Lemma keeps_ret {A} I (a : A) : keeps I (mret a : st S A).
Proof. by apply triple_ret. Qed.
Lemma keeps_raise {A} I e : keeps I (raise e : st S A).
Proof. by apply triple_raise. Qed.
Lemma keeps_of_res {A} I (r : res A) : keeps I (of_res r : st S A).
Proof. intros s Hs. by destruct r. Qed.
Lemma keeps_gets {A} I (f : S -> A) : keeps I (gets f).
Proof. intros s Hs. done. Qed.
Lemma keeps_ensure I b e : keeps I (ensure b e : st S unit).
Proof. destruct b; [apply keeps_ret|apply keeps_raise]. Qed.
Lemma keeps_modify I f : (forall s, I s -> I (f s)) -> keeps I (modify f).
Proof. intros H s Hs. by apply H. Qed.
Lemma keeps_each {A} I (f : A -> st S unit) l : (forall a, keeps I (f a)) -> keeps I (each f l).
Proof. intros Hf. induction l as [|a l IH]; [apply keeps_ret|by apply keeps_bind]. Qed.

Lemma steps_bind {A B} (R : S -> S -> Prop) `{!Transitive R} (m : st S A) (f : A -> st S B) :
  steps R m -> (forall a, steps R (f a)) -> steps R (m ≫= f).
Proof.
  intros Hm Hf s. specialize (Hm s). unfold mbind, st_bind. destruct (m s) as [[a|e] s']; cbn in *; [|done].
  etransitivity; [exact Hm|apply Hf].
Qed.
Lemma steps_same {A} (R : S -> S -> Prop) `{!Reflexive R} (m : st S A) : (forall s, (m s).2 = s) -> steps R m.
Proof. intros H s. by rewrite H. Qed.
Lemma steps_ret {A} (R : S -> S -> Prop) `{!Reflexive R} (a : A) : steps R (mret a : st S A).
Proof. by intros s. Qed.
Lemma steps_raise {A} (R : S -> S -> Prop) `{!Reflexive R} e : steps R (raise e : st S A).
Proof. by intros s. Qed.
Lemma steps_of_res {A} (R : S -> S -> Prop) `{!Reflexive R} (r : res A) : steps R (of_res r : st S A).
Proof. by intros s. Qed.
Lemma steps_gets {A} (R : S -> S -> Prop) `{!Reflexive R} (f : S -> A) : steps R (gets f).
Proof. by intros s. Qed.
Lemma steps_ensure (R : S -> S -> Prop) `{!Reflexive R} b e : steps R (ensure b e : st S unit).
Proof. by destruct b; intros s. Qed.
End rules.

(** Open a hypothesis that a computation ended with a given result. *)
Lemma st_bind_ok {S A B} (m : st S A) (f : A -> st S B) s b s' :
  (m ≫= f) s = (Ok b, s') <-> exists a s1, m s = (Ok a, s1) /\ f a s1 = (Ok b, s').
Proof.
  unfold mbind, st_bind. destruct (m s) as [[a|e] s1].
  - split; [eauto|]. intros (a' & s2 & [= -> ->] & H). done.
  - split; [done|]. intros (a' & s2 & H & _). done.
Qed.
Lemma ensure_ok {S} b e (s : S) u s' : ensure b e s = (Ok u, s') <-> b = true /\ s' = s.
Proof. unfold ensure. destruct b; cbn; [|by split; [|intros [? _]]]. unfold mret, st_ret. destruct u. naive_solver. Qed.
Lemma of_res_ok {S A} (r : res A) (s : S) a s' : of_res r s = (Ok a, s') <-> r = Ok a /\ s' = s.
Proof. unfold of_res. naive_solver. Qed.

Ltac st_inv :=
  repeat match goal with
  | H : (_ ≫= _) _ = (Ok _, _) |- _ => apply st_bind_ok in H; destruct H as (? & ? & ? & H)
  | H : ensure _ _ _ = (Ok _, _) |- _ => apply ensure_ok in H; destruct H as [? ->]
  | H : of_res _ _ = (Ok _, _) |- _ => apply of_res_ok in H; destruct H as [? ->]
  | H : gets _ _ = (Ok _, _) |- _ => unfold gets in H; injection H as <- <-
  | H : modify _ _ = (Ok _, _) |- _ => unfold modify in H; injection H as <- <-
  | H : mret _ _ = (Ok _, _) |- _ => unfold mret, st_ret in H; injection H as <- <-
  | H : raise _ _ = (Ok _, _) |- _ => discriminate H
  end.

(** One step of a sequence of reads and checks under a precondition. *)
Ltac triple_step :=
  lazymatch goal with
  | |- triple _ (mbind _ (gets _)) _ _ => eapply triple_bind; [apply triple_gets|intros ?]
  | |- triple _ (mbind _ (of_res _)) _ _ => eapply triple_bind; [apply triple_of_res|intros ?]
  | |- triple _ (mbind _ (ensure _ _)) _ _ => eapply triple_bind; [apply triple_ensure|intros ?]
  end.

Create HintDb keeps.
#[export] Hint Resolve keeps_ret keeps_raise keeps_of_res keeps_gets keeps_ensure : keeps.
Create HintDb steps.
#[export] Hint Resolve steps_ret steps_raise steps_of_res steps_gets steps_ensure : steps.
