(* ===== verification/PyTime.v ===== *)
(** * Dates and durations of the standard library

    The parts of [datetime] that the platform computes with: aware instants in UTC as microseconds
    since 1970, naive datetimes (which the constructors reject), [timedelta(seconds=x)] for a
    [float], and addition with its range check. *)

From Stdlib Require Import SpecFloat.
From S2P Require Import Prelude PyValue Errors.

Inductive datetime := Aware (us : Z) | Naive (us : Z).

#[export] Instance datetime_eq_dec : EqDecision datetime.
Proof. solve_decision. Defined.

Definition instant (d : datetime) : Z := match d with Aware us | Naive us => us end.
Definition is_aware (d : datetime) : bool := match d with Aware _ => true | Naive _ => false end.

(** [value.tzinfo is None or value.utcoffset() is None: raise] *)
Definition require_aware (d : datetime) (field_name : string) : res datetime :=
  _ ← require (is_aware d) (ValueError (field_name +:+ " must be timezone-aware"));
  Ok d.

(** Comparison of two aware datetimes. *)
Definition dt_leb (a b : datetime) : bool := (instant a <=? instant b)%Z.
Definition dt_ltb (a b : datetime) : bool := (instant a <? instant b)%Z.

(** ** [timedelta(seconds=x)] *)

Definition binary64 (m e : Z) : spec_float := binary_normalize 53 1024 m e false.

(** [m * 2^e], rounded to the nearest integer, ties to even. *)
Definition round_half_even (m e : Z) : Z :=
  (if 0 <=? e then m * 2 ^ e
   else
     let d := 2 ^ (- e) in
     let q := m / d in
     let r := m mod d in
     if 2 * r <? d then q
     else if d <? 2 * r then q + 1
     else if Z.even q then q else q + 1)%Z.

(** The integral and the fractional part of a finite float: [math.modf]. *)
Definition modf_int (m e : Z) : Z := (if 0 <=? e then m * 2 ^ e else Z.quot m (2 ^ (- e)))%Z.
Definition modf_frac (m e : Z) : spec_float :=
  if (0 <=? e)%Z then S754_zero false else binary64 (Z.rem m (2 ^ (- e))%Z) e.

Definition signed (s : bool) (m : positive) : Z := if s then Z.neg m else Z.pos m.

(** The whole seconds count exactly; the fraction is multiplied by [1e6] in floating point and
    rounded half to even. *)
Definition timedelta_us (x : spec_float) : res Z :=
  match x with
  | S754_nan => Err (ValueError "cannot convert float NaN to integer")
  | S754_infinity _ => Err (OverflowError "cannot convert float infinity to integer")
  | S754_zero _ => Ok 0%Z
  | S754_finite s m e =>
      let whole := (modf_int (signed s m) e * 1000000)%Z in
      let us :=
        match SFmul 53 1024 (binary64 1000000 0) (modf_frac (signed s m) e) with
        | S754_finite s' m' e' =>
            if 0 <=? e' then whole + signed s' m' * 2 ^ e'
            else round_half_even (whole * 2 ^ (- e') + signed s' m') e'
        | _ => whole
        end%Z in
      if (Z.abs (us / 86400000000) <=? 999999999)%Z then Ok us
      else Err (OverflowError "timedelta days out of range")
  end.

(** [datetime + timedelta], for a datetime in UTC. *)
Definition MIN_INSTANT : Z := -62135596800000000.
Definition MAX_INSTANT : Z := 253402300799999999.

Definition dt_add (d : datetime) (us : Z) : res datetime :=
  let t := (instant d + us)%Z in
  if ((MIN_INSTANT <=? t) && (t <=? MAX_INSTANT))%Z
  then Ok (match d with Aware _ => Aware t | Naive _ => Naive t end)
  else Err (OverflowError "date value out of range").

(** [x <= 0] and [x > 0] on floats: a comparison with NaN is false. *)
Definition float_le0 (x : spec_float) : bool := SFleb x (S754_zero false).

Example half_second : timedelta_us (binary64 1 (-1)) = Ok 500000%Z.
Proof. by vm_compute. Qed.
(** 0.1 s, and a quarter of a microsecond, which rounds to nothing. *)
Example tenth_second : timedelta_us (binary64 3602879701896397 (-55)) = Ok 100000%Z.
Proof. by vm_compute. Qed.
Example tiny : timedelta_us (binary64 1 (-22)) = Ok 0%Z.
Proof. by vm_compute. Qed.
Example negative : timedelta_us (binary64 (-3) (-1)) = Ok (-1500000)%Z.
Proof. by vm_compute. Qed.
