(* ===== verification/Freeze.v ===== *)
(** * Freezing, thawing and comparing payload values

    [_deep_freeze] and [_freeze_mapping_field] of domain/models.py, [_freeze_json] and
    [_thaw_json] of contracts/types.py, [_json_equivalent] of kernel/task_mutations.py. *)

From Stdlib Require Import SpecFloat.
From S2P Require Import Prelude PyValue Errors.

(** ** Freezing *)

(** [_deep_freeze]. The domain of the model is the payload values of [pyval]; Python sets,
    datetimes, UUIDs and bytes do not occur in kernel payloads and are not represented. *)
Fixpoint deep_freeze (v : pyval) : res pyval :=
  match v with
  | VMap _ l =>
      l' ← map_res (fun kv => x ← deep_freeze kv.2; Ok (kv.1, x)) l;
      Ok (VMap MProxy l')
  | VSeq _ l =>
      l' ← map_res deep_freeze l;
      Ok (VSeq STuple l')
  | VEnum v => deep_freeze v
  | VOther ty => Err (TypeError ("unsupported mutable or noncanonical metadata value: " +:+ ty))
  | VNone | VBool _ | VInt _ | VFloat _ | VStr _ => Ok v
  end.

(** The same conversion on the entries of a mapping. *)
Definition freeze_entries : dict -> res dict :=
  map_res (fun kv => x ← deep_freeze kv.2; Ok (kv.1, x)).

(** [_freeze_mapping_field]: freeze [dict(mapping)]; a mapping freezes to a mapping. *)
Definition freeze_mapping_field (d : dict) : res dict := freeze_entries d.

(** [_freeze_json]: copies only [dict] and [list]. *)
Fixpoint freeze_json (v : pyval) : pyval :=
  match v with
  | VMap MDict l => VMap MProxy (map (fun kv => (kv.1, freeze_json kv.2)) l)
  | VSeq SList l => VSeq STuple (map freeze_json l)
  | _ => v
  end.

(** [_thaw_json]: any mapping becomes a [dict], any list or tuple a [list]. *)
Fixpoint thaw_json (v : pyval) : pyval :=
  match v with
  | VMap _ l => VMap MDict (map (fun kv => (kv.1, thaw_json kv.2)) l)
  | VSeq _ l => VSeq SList (map thaw_json l)
  | _ => v
  end.

(** ** Comparison *)

(** The exact value of a Python number: [m * 2^e], an infinity, or not a number. *)
Inductive number := Finite (m e : Z) | Infinite (negative : bool) | NotANumber.

Definition number_of (v : pyval) : option number :=
  match v with
  | VBool b => Some (Finite (if b then 1 else 0) 0)
  | VInt z => Some (Finite z 0)
  | VFloat (S754_zero _) => Some (Finite 0 0)
  | VFloat (S754_infinity s) => Some (Infinite s)
  | VFloat S754_nan => Some NotANumber
  | VFloat (S754_finite s m e) => Some (Finite (if s then Zneg m else Zpos m) e)
  | _ => None
  end.

Definition number_eqb (a b : number) : bool :=
  match a, b with
  | Finite m1 e1, Finite m2 e2 =>
      let e := Z.min e1 e2 in (m1 * 2 ^ (e1 - e) =? m2 * 2 ^ (e2 - e))%Z
  | Infinite s1, Infinite s2 => Bool.eqb s1 s2
  | _, _ => false
  end.

(** [left == right] where [left] is a JSON scalar: numbers compare by value across
    [bool], [int] and [float]; other types are equal only to themselves. *)
Definition scalar_eqb (a b : pyval) : bool :=
  match a, b with
  | VNone, VNone => true
  | VStr s, VStr t => String.eqb s t
  | _, _ =>
      match number_of a, number_of b with
      | Some x, Some y => number_eqb x y
      | _, _ => false
      end
  end.

(** [_json_equivalent]. *)
Fixpoint json_equivalent (left right : pyval) : bool :=
  match left with
  | VMap _ l =>
      match right with
      | VMap _ r =>
          Nat.eqb (length l) (length r) &&
          forallb (fun kv => match dict_get kv.1 r with
                             | Some x => json_equivalent kv.2 x
                             | None => false
                             end) l
      | _ => false
      end
  | VSeq _ l =>
      match right with
      | VSeq _ r =>
          (fix go (l r : list pyval) : bool :=
             match l, r with
             | [], [] => true
             | a :: l', b :: r' => json_equivalent a b && go l' r'
             | _, _ => false
             end) l r
      | _ => false
      end
  | _ => scalar_eqb left right
  end.

(** [left == right] on JSON values: mappings compare by content whatever their order and flavour, a
    list never equals a tuple. *)
Fixpoint py_eqb (left right : pyval) : bool :=
  match left with
  | VMap _ l =>
      match right with
      | VMap _ r =>
          Nat.eqb (length l) (length r) &&
          forallb (fun kv => match dict_get kv.1 r with
                             | Some x => py_eqb kv.2 x
                             | None => false
                             end) l
      | _ => false
      end
  | VSeq k l =>
      match right with
      | VSeq k' r =>
          bool_decide (k = k') &&
          (fix go (l r : list pyval) : bool :=
             match l, r with
             | [], [] => true
             | a :: l', b :: r' => py_eqb a b && go l' r'
             | _, _ => false
             end) l r
      | _ => false
      end
  | _ => scalar_eqb left right
  end.

(** [bool(value)]. *)
Definition truthy (v : pyval) : bool :=
  match v with
  | VNone => false
  | VBool b => b
  | VInt z => negb (z =? 0)%Z
  | VFloat (S754_zero _) => false
  | VFloat _ => true
  | VStr s => negb (String.eqb s "")
  | VSeq _ l => negb (bool_decide (length l = 0))
  | VMap _ l => negb (bool_decide (length l = 0))
  | VEnum _ | VOther _ => true
  end.

(** ** What freezing promises *)

(** Nothing mutable is left: no [list], no [dict], no Enum wrapper, no foreign object. *)
Fixpoint frozen (v : pyval) : bool :=
  match v with
  | VSeq STuple l => forallb frozen l
  | VMap MProxy l => forallb (fun kv => frozen kv.2) l
  | VSeq SList _ | VMap MDict _ | VEnum _ | VOther _ => false
  | _ => true
  end.

Definition frozen_dict (d : dict) : bool := forallb (fun kv => frozen kv.2) d.

(** A plain JSON value: [dict]s and [list]s all the way down. *)
Fixpoint plain_json (v : pyval) : bool :=
  match v with
  | VSeq SList l => forallb plain_json l
  | VMap MDict l => forallb (fun kv => plain_json kv.2) l
  | VSeq STuple _ | VMap MProxy _ | VEnum _ | VOther _ => false
  | _ => true
  end.

(** A JSON value in either flavour whose dicts have distinct keys and whose floats are numbers. *)
Fixpoint json_value (v : pyval) : bool :=
  match v with
  | VSeq _ l => forallb json_value l
  | VMap _ l => bool_decide (NoDup (dict_keys l)) && forallb (fun kv => json_value kv.2) l
  | VFloat S754_nan | VEnum _ | VOther _ => false
  | _ => true
  end.

Lemma freeze_entries_ok d d' :
  freeze_entries d = Ok d' <->
  Forall2 (fun kv kv' => kv'.1 = kv.1 /\ deep_freeze kv.2 = Ok kv'.2) d d'.
Proof.
  unfold freeze_entries. rewrite map_res_ok.
  split; intros H; (eapply Forall2_impl; [exact H|]); intros [k x] [k' x']; cbn; destruct (deep_freeze x); cbn; naive_solver.
Qed.

Lemma dict_keys_freeze d d' : freeze_entries d = Ok d' -> dict_keys d' = dict_keys d.
Proof.
  rewrite freeze_entries_ok. unfold dict_keys.
  induction 1 as [|[] [] ?? [] ? IH]; cbn in *; congruence.
Qed.

(** Looking a key up after freezing gives the frozen value of the original lookup. *)
Lemma dict_get_freeze d d' k :
  freeze_entries d = Ok d' ->
  match dict_get k d with
  | Some x => exists x', deep_freeze x = Ok x' /\ dict_get k d' = Some x'
  | None => dict_get k d' = None
  end.
Proof.
  rewrite freeze_entries_ok. induction 1 as [|[k1 x1] [k1' x1'] ?? [Hk Hx]]; cbn in *; [done|].
  subst. destruct (String.eqb k k1); [eauto|done].
Qed.

Lemma get_freeze_str d d' k s :
  freeze_entries d = Ok d' -> dict_get k d = Some (VStr s) -> get k d' = VStr s.
Proof.
  intros Hf Hg. pose proof (dict_get_freeze d d' k Hf) as H. rewrite Hg in H.
  destruct H as (x' & [= <-] & H). unfold get. by rewrite H.
Qed.

Lemma deep_freeze_frozen v v' : deep_freeze v = Ok v' -> frozen v' = true.
Proof.
  revert v'. induction v as [| | | | |k l IH|k l IH|v IH|t] using pyval_nested_ind;
    cbn [deep_freeze]; intros v' Hv; res_inv; cbn; try done.
  - match goal with H : map_res _ _ = Ok _ |- _ => apply map_res_ok in H; rename H into Hl end.
    apply forallb_forall. rewrite <- List.Forall_forall.
    induction Hl; inversion IH; subst; constructor; eauto.
  - match goal with H : map_res _ _ = Ok _ |- _ => apply freeze_entries_ok in H; rename H into Hl end.
    apply forallb_forall. rewrite <- List.Forall_forall.
    induction Hl as [|[] [] ?? []]; inversion IH; cbn in *; subst; constructor; eauto.
  - eauto.
Qed.

Lemma frozen_deep_freeze v : frozen v = true -> deep_freeze v = Ok v.
Proof.
  induction v as [| | | | |k l IH|k l IH|v IH|t] using pyval_nested_ind; cbn; try done.
  - destruct k; [done|]. rewrite forallb_forall, <- List.Forall_forall. intros Hl.
    assert (map_res deep_freeze l = Ok l) as ->; [|done].
    apply map_res_ok. induction Hl; inversion IH; constructor; auto.
  - destruct k; [done|]. rewrite forallb_forall, <- List.Forall_forall. intros Hl.
    assert (freeze_entries l = Ok l) as Heq; [|unfold freeze_entries in Heq; by rewrite Heq].
    apply freeze_entries_ok. induction Hl as [|[]]; inversion IH; constructor; auto.
Qed.

Lemma freeze_entries_frozen d d' : freeze_entries d = Ok d' -> frozen_dict d' = true.
Proof.
  intros Hd. apply (deep_freeze_frozen (VMap MDict d) (VMap MProxy d')). cbn.
  unfold freeze_entries in Hd. by rewrite Hd.
Qed.

Lemma frozen_freeze_entries d : frozen_dict d = true -> freeze_entries d = Ok d.
Proof.
  intros Hd. pose proof (frozen_deep_freeze (VMap MProxy d) Hd) as H. cbn in H.
  fold (freeze_entries d) in H. destruct (freeze_entries d); cbn in H; congruence.
Qed.

Lemma frozen_dict_update d e :
  frozen_dict d = true -> frozen_dict e = true -> frozen_dict (dict_update d e) = true.
Proof.
  unfold frozen_dict. rewrite !forallb_forall, <- !List.Forall_forall.
  apply dict_update_forall.
Qed.

Lemma number_eqb_refl a : a <> NotANumber -> number_eqb a a = true.
Proof. destruct a as [m e|[]|]; cbn; [intros _; apply Z.eqb_refl|done..]. Qed.

Lemma scalar_eqb_refl v :
  json_value v = true ->
  match v with VSeq _ _ | VMap _ _ => False | _ => True end -> scalar_eqb v v = true.
Proof.
  destruct v as [|b|z|[|[]| |[] m e]|s| | | |]; try done; intros _ _; unfold scalar_eqb;
    first [apply String.eqb_refl | by apply number_eqb_refl].
Qed.

Lemma thaw_freeze_json v : thaw_json (freeze_json v) = thaw_json v.
Proof.
  induction v as [| | | | |[] l IH|[] l IH|v IH|t] using pyval_nested_ind; cbn; try done;
    f_equal; rewrite map_map; apply map_ext_Forall;
    (eapply Forall_impl; [exact IH|]); intros; cbn; congruence.
Qed.

(** Freezing a value of the JSON fragment never fails, keeps every key, order and leaf, and the
    result is equivalent to the original for [_json_equivalent] in both directions. *)
Definition freezes_well (v : pyval) : Prop :=
  exists v', deep_freeze v = Ok v' /\ frozen v' = true /\ thaw_json v' = thaw_json v /\
             json_equivalent v v' = true /\ json_equivalent v' v = true.

Lemma freezes_well_seq k l : Forall freezes_well l -> freezes_well (VSeq k l).
Proof.
  intros Hl.
  enough (exists l', map_res deep_freeze l = Ok l' /\ forallb frozen l' = true /\
    map thaw_json l' = map thaw_json l /\
    json_equivalent (VSeq k l) (VSeq STuple l') = true /\
    json_equivalent (VSeq STuple l') (VSeq k l) = true) as (l' & H1 & H2 & H3 & H4 & H5).
  { exists (VSeq STuple l'). cbn [deep_freeze]. rewrite H1. cbn [frozen thaw_json]. by rewrite H3. }
  induction Hl as [|v l (v' & Hv & Hf & Ht & He1 & He2) _ (l' & IH1 & IH2 & IH3 & IH4 & IH5)];
    [by exists []|].
  exists (v' :: l'). cbn [map_res forallb map]. rewrite Hv, IH1, Hf, IH2, Ht, IH3.
  cbn in IH4, IH5 |- *. by rewrite He1, He2, IH4, IH5.
Qed.

Lemma freezes_well_map k d :
  NoDup (dict_keys d) -> Forall (fun kv => freezes_well kv.2) d -> freezes_well (VMap k d).
Proof.
  intros Hnd Hd.
  assert (exists d', freeze_entries d = Ok d' /\ Forall2 (fun kv kv' => kv'.1 = kv.1 /\
    deep_freeze kv.2 = Ok kv'.2 /\ thaw_json kv'.2 = thaw_json kv.2 /\
    json_equivalent kv.2 kv'.2 = true /\ json_equivalent kv'.2 kv.2 = true) d d')
    as (d' & Hfr & Hrel).
  { clear Hnd. induction Hd as [|[x v] d (v' & Hv & Hf & Ht & He1 & He2) _ (d' & IH & Hrel)]; cbn in *.
    - exists []. by split.
    - exists ((x, v') :: d'). unfold freeze_entries in *. cbn. rewrite Hv. cbn. rewrite IH.
      split; [done|]. by constructor. }
  exists (VMap MProxy d'). split; [|split; [|split]].
  - cbn [deep_freeze]. change (map_res _ d) with (freeze_entries d). by rewrite Hfr.
  - exact (freeze_entries_frozen _ _ Hfr).
  - cbn. f_equal. clear -Hrel. induction Hrel as [|[] [] ?? (? & ? & ? & ?)]; cbn in *; congruence.
  - pose proof (dict_keys_freeze _ _ Hfr) as Hkeys. cbn.
    rewrite (Forall2_length _ _ _ Hrel), Nat.eqb_refl. cbn.
    rewrite !forallb_forall. split; intros [x v] Hin%list_elem_of_In; cbn.
    + apply (list_elem_of_lookup_1) in Hin as [i Hi].
      destruct (Forall2_lookup_l _ _ _ _ _ Hrel Hi) as ([x' v'] & Hi' & Heq & _ & _ & He & _).
      cbn in *; subst. rewrite (dict_in_get x d' v'); [done|by rewrite Hkeys|].
      by eapply list_elem_of_lookup_2.
    + apply (list_elem_of_lookup_1) in Hin as [i Hi].
      destruct (Forall2_lookup_r _ _ _ _ _ Hrel Hi) as ([x' v'] & Hi' & Heq & _ & _ & _ & He).
      cbn in *; subst. rewrite (dict_in_get x' d v'); [done|done|].
      by eapply list_elem_of_lookup_2.
Qed.

(** Freezing a payload value. On every value of the JSON fragment [_deep_freeze] succeeds;
    the result holds no mutable container, thaws back to the same JSON data as the original, and
    is [_json_equivalent] to it both ways (the comparison that idempotent replays rely on). *)
Theorem deep_freeze_correct v :
  json_value v = true ->
  exists v', deep_freeze v = Ok v' /\ frozen v' = true /\ deep_freeze v' = Ok v' /\
    thaw_json v' = thaw_json v /\
    json_equivalent v v' = true /\ json_equivalent v' v = true.
Proof.
  intros Hv. enough (freezes_well v) as (v' & H1 & H2 & H3 & H4 & H5).
  { exists v'. split_and!; auto using frozen_deep_freeze. }
  revert Hv. induction v as [| | | | |k l IH|k l IH|v IH|t] using pyval_nested_ind;
    intros Hv; try discriminate Hv;
    try (eexists; split_and!; [reflexivity|done|done|by apply scalar_eqb_refl..]).
  - apply freezes_well_seq. cbn in Hv. rewrite forallb_forall, <- List.Forall_forall in Hv.
    induction Hv; inversion IH; constructor; auto.
  - cbn in Hv. apply andb_true_iff in Hv as [Hnd Hv]. apply bool_decide_eq_true in Hnd.
    apply freezes_well_map; [done|]. clear Hnd.
    rewrite forallb_forall, <- List.Forall_forall in Hv.
    induction Hv; inversion IH; constructor; auto.
Qed.

Lemma thaw_plain_json v : plain_json v = true -> thaw_json v = v.
Proof.
  induction v as [| | | | |[] l IH|[] l IH|v IH|t] using pyval_nested_ind; cbn; try done;
    rewrite forallb_forall, <- List.Forall_forall; intros Hl; f_equal;
    induction Hl as [|x l Hx Hl IHl]; inversion IH; subst; cbn; [done| |done|]; f_equal; auto.
  destruct x; cbn in *. f_equal. auto.
Qed.

#[global] Arguments freeze_mapping_field : simpl never.
#[global] Arguments deep_freeze : simpl never.
