(* ===== verification/Ident.v ===== *)
(** * Canonical identifiers

    [new_id], [validate_id], [validate_subject_id] and the subject prefixes of domain/models.py,
    with the parts of the standard library's [uuid.UUID] and [int(hex, 16)] they rely on. *)

From S2P Require Import Prelude PyValue Errors.

(** ** [uuid.UUID(text)] and [str(uuid)] *)

(** [text.replace(sub, "")]: left to right, without overlap; [skip] counts the characters of a
    match still to drop. *)
Fixpoint remove_all_from (sub : list ascii) (skip : nat) (l : list ascii) : list ascii :=
  match l with
  | [] => []
  | c :: l' =>
      match skip with
      | S k => remove_all_from sub k l'
      | 0 =>
          if bool_decide (take (length sub) l = sub) then remove_all_from sub (length sub - 1) l'
          else c :: remove_all_from sub 0 l'
      end
  end.
Definition remove_all (sub : string) (l : list ascii) : list ascii := remove_all_from (chars sub) 0 l.

(** [text.strip(set)] for a test of membership in the set. *)
Fixpoint strip_left (p : ascii -> bool) (l : list ascii) : list ascii :=
  match l with
  | [] => []
  | c :: l' => if p c then strip_left p l' else l
  end.
Definition strip_by (p : ascii -> bool) (l : list ascii) : list ascii :=
  rev (strip_left p (rev (strip_left p l))).

Definition is_brace (c : ascii) : bool := Ascii.eqb c "{" || Ascii.eqb c "}".
Definition is_dash (c : ascii) : bool := Ascii.eqb c "-".

(** The value of a hexadecimal digit in either case. *)
Definition hex_value (c : ascii) : option N :=
  let n := code c in
  if bool_decide (48 <= n <= 57) then Some (N.of_nat (n - 48))
  else if bool_decide (97 <= n <= 102) then Some (N.of_nat (n - 87))
  else if bool_decide (65 <= n <= 70) then Some (N.of_nat (n - 55))
  else None.

(** Digits with single underscores between them, as [int] accepts; [under] says that the previous
    character was an underscore, [acc] is the value so far. *)
Fixpoint hex_digits (under : bool) (acc : N) (l : list ascii) : option N :=
  match l with
  | [] => if under then None else Some acc
  | c :: l' =>
      if Ascii.eqb c "_" then if under then None else hex_digits true acc l'
      else match hex_value c with
           | Some d => hex_digits false (16 * acc + d) l'
           | None => None
           end
  end.

(** The digits after the sign: an optional [0x], after which one underscore may follow. *)
Definition hex_unsigned (l : list ascii) : option N :=
  match l with
  | "0"%char :: x :: l' =>
      if Ascii.eqb x "x" || Ascii.eqb x "X"
      then match l' with
           | [] => None
           | c :: l'' =>
               if Ascii.eqb c "_" then match l'' with [] => None | _ => hex_digits true 0 l'' end
               else hex_digits false 0 l'
           end
      else hex_digits false 0 l
  | [] => None
  | c :: _ => if Ascii.eqb c "_" then None else hex_digits false 0 l
  end.

(** [int(text, 16)]. *)
Definition int16 (l : list ascii) : option Z :=
  match strip_by is_space l with
  | "-"%char :: l' => Z.opp ∘ Z.of_N <$> hex_unsigned l'
  | "+"%char :: l' => Z.of_N <$> hex_unsigned l'
  | l' => Z.of_N <$> hex_unsigned l'
  end.

(** [UUID(text).int]: [None] where the constructor raises [ValueError]. *)
Definition uuid_parse (text : string) : option N :=
  let hex := List.filter (fun c => negb (is_dash c))
               (strip_by is_brace (remove_all "uuid:" (remove_all "urn:" (chars text)))) in
  if Nat.eqb (length hex) 32
  then match int16 hex with
       | Some z => if (0 <=? z)%Z && (z <? 2 ^ 128)%Z then Some (Z.to_N z) else None
       | None => None
       end
  else None.

Definition hex_digit (n : N) : ascii :=
  if (n <? 10)%N then ch (N.to_nat n + 48) else ch (N.to_nat n + 87).

(** ['%0kx' % n] for [n] below [16^k]. *)
Fixpoint hex_pad (k : nat) (n : N) : list ascii :=
  match k with
  | 0 => []
  | S k' => hex_pad k' (n / 16) ++ [hex_digit (n mod 16)]
  end.

(** Grouping 8-4-4-4-12. *)
Definition dashed (h : list ascii) : list ascii :=
  take 8 h ++ "-"%char :: take 4 (drop 8 h) ++ "-"%char :: take 4 (drop 12 h) ++
  "-"%char :: take 4 (drop 16 h) ++ "-"%char :: drop 20 h.

(** [str(uuid)]. *)
Definition uuid_str (n : N) : string := string_of_list_ascii (dashed (hex_pad 32 n)).

(** ** domain/models.py *)

(** [new_id(prefix)]; the argument [u] is the text of the [uuid4()] that was drawn. *)
Definition id_of_uuid (prefix u : string) : string := prefix +:+ "_" +:+ u.

Definition validate_id (value prefix : string) : res string :=
  let expected := prefix +:+ "_" in
  if starts_with value expected then
    let payload := drop_str (String.length expected) value in
    match uuid_parse payload with
    | None => Err (ValueError ("invalid canonical " +:+ prefix +:+ " id"))
    | Some parsed =>
        if String.eqb (uuid_str parsed) (lower payload) then Ok value
        else Err (ValueError ("invalid canonical " +:+ prefix +:+ " id"))
    end
  else Err (ValueError ("expected canonical " +:+ prefix +:+ " id")).

Definition CANONICAL_SUBJECT_PREFIXES : list (string * string) :=
  [("goal", "goal"); ("project", "project"); ("task", "task"); ("plan", "plan"); ("step", "step");
   ("run", "run"); ("agent", "agent"); ("agent_team", "team"); ("artifact", "artifact");
   ("result", "result"); ("event", "event"); ("approval", "approval"); ("node", "node");
   ("worker", "worker"); ("worker_job", "worker_job"); ("tool", "tool");
   ("tool_invocation", "tool_invocation"); ("capability", "cap");
   ("policy_scope", "policy_scope"); ("model_assignment", "model_assignment")].

Definition validate_subject_id (subject_type subject_id : string) : res string :=
  match dict_get subject_type CANONICAL_SUBJECT_PREFIXES with
  | None => Err (ValueError ("unsupported canonical subject type: " +:+ subject_type))
  | Some prefix => validate_id subject_id prefix
  end.

Definition validate_optional_id (value : option string) (prefix : string) : res unit :=
  match value with
  | Some v => _ ← validate_id v prefix; Ok tt
  | None => Ok tt
  end.

Definition validate_ids (values : list string) (prefix : string) : res unit :=
  _ ← map_res (fun v => validate_id v prefix) values; Ok tt.

(** ** Specification: what a canonical identifier looks like *)

Definition is_hex (c : ascii) : bool := bool_decide (is_Some (hex_value c)).

(** Hexadecimal digits in either case, grouped 8-4-4-4-12 by dashes. *)
Definition canonical_payload (payload : string) : Prop :=
  exists h, chars payload = dashed h /\ length h = 32 /\ forallb is_hex h = true.

(** ** The parser accepts exactly the canonical form *)

(** A boolean test that holds of the 256 characters holds of every character. *)
Lemma ascii_all (p : ascii -> bool) c : forallb (fun n => p (ascii_of_nat n)) (seq 0 256) = true -> p c = true.
Proof.
  rewrite forallb_forall. intros Hp. rewrite <- (ascii_nat_embedding c). apply Hp, in_seq.
  pose proof (nat_ascii_bounded c). lia.
Qed.

Lemma lower_char_hex c : is_hex (lower_char c) = is_hex c.
Proof. apply eqb_true_iff, (ascii_all (fun c => Bool.eqb (is_hex (lower_char c)) (is_hex c))). by vm_compute. Qed.

Lemma lower_char_dash c : lower_char c = "-"%char -> c = "-"%char.
Proof.
  intros H. apply Ascii.eqb_eq. apply Ascii.eqb_eq in H. revert H. apply implb_true_iff.
  apply (ascii_all (fun c => implb (Ascii.eqb (lower_char c) "-") (Ascii.eqb c "-"))). by vm_compute.
Qed.

(** What the character classes of the parser say about a hexadecimal digit. *)
Lemma hex_char_facts c :
  is_hex c = true ->
  (exists d, hex_value c = Some d /\ (d < 16)%N /\ hex_digit d = lower_char c) /\
  is_dash c = false /\ is_brace c = false /\ is_space c = false /\ Ascii.eqb c "_" = false /\
  c <> "+"%char /\ c <> ":"%char /\ Ascii.eqb c "x" = false /\ Ascii.eqb c "X" = false.
Proof.
  intros Hc. pose proof (ascii_all (fun c => implb (is_hex c)
    (match hex_value c with
     | Some d => (d <? 16)%N && Ascii.eqb (hex_digit d) (lower_char c) | None => false end &&
     negb (is_dash c) && negb (is_brace c) && negb (is_space c) && negb (Ascii.eqb c "_") &&
     negb (Ascii.eqb c "+") && negb (Ascii.eqb c ":") && negb (Ascii.eqb c "x") && negb (Ascii.eqb c "X"))) c) as H.
  cbv beta in H. rewrite Hc in H. specialize (H ltac:(by vm_compute)). cbn [implb] in H. bool_props.
  destruct (hex_value c) as [d|]; [|done]. bool_props.
  split; [exists d; split_and!; [done|by apply N.ltb_lt|by apply Ascii.eqb_eq]|].
  split_and!; try done; by apply Ascii.eqb_neq.
Qed.

Lemma hex_digit_is_hex d : (d < 16)%N -> is_hex (hex_digit d) = true.
Proof.
  destruct d as [|p]; [done|]. intros Hd.
  do 4 (destruct p as [p|p|]; try reflexivity); lia.
Qed.

Definition hex_step (acc : N) (c : ascii) : N := 16 * acc + default 0%N (hex_value c).

Lemma hex_step_eq acc c d : hex_value c = Some d -> hex_step acc c = (16 * acc + d)%N.
Proof. unfold hex_step. by intros ->. Qed.

Lemma hex_not_in h c :
  forallb is_hex h = true -> is_hex c = false -> c ∉ h.
Proof. rewrite forallb_forall. intros Hh Hc Hin%list_elem_of_In. apply Hh in Hin. congruence. Qed.

Lemma hex_forallb (p : ascii -> bool) h :
  (forall c, is_hex c = true -> p c = true) -> forallb is_hex h = true -> forallb p h = true.
Proof. rewrite !forallb_forall. auto. Qed.

Lemma hex_digits_fold h acc :
  forallb is_hex h = true -> hex_digits false acc h = Some (foldl hex_step acc h).
Proof.
  revert acc. induction h as [|c h IH]; intros acc Hh; [done|].
  cbn in Hh. apply andb_true_iff in Hh as [Hc Hh].
  destruct (hex_char_facts c Hc) as ((d & Hd & _) & _ & _ & _ & Hu & _).
  cbn [hex_digits foldl]. rewrite Hu, Hd, (IH _ Hh). by rewrite (hex_step_eq _ _ _ Hd).
Qed.

Lemma hex_pad_fold h acc :
  forallb is_hex h = true -> hex_pad (length h) (foldl hex_step acc h) = map lower_char h.
Proof.
  induction h as [|c h IH] using rev_ind; intros Hh; [done|].
  rewrite forallb_app in Hh. apply andb_true_iff in Hh as [Hh Hc].
  cbn in Hc. rewrite andb_true_r in Hc.
  destruct (hex_char_facts c Hc) as ((d & Hd & Hlt & Hdig) & _).
  rewrite length_app, Nat.add_comm, foldl_app, map_app. cbn [length Nat.add foldl hex_pad map].
  rewrite (hex_step_eq _ _ _ Hd).
  assert (((16 * foldl hex_step acc h + d) / 16 = foldl hex_step acc h)%N) as ->.
  { symmetry. apply (N.div_unique _ _ _ d); lia. }
  assert (((16 * foldl hex_step acc h + d) mod 16 = d)%N) as ->.
  { symmetry. apply (N.mod_unique _ _ (foldl hex_step acc h)); lia. }
  by rewrite (IH Hh), Hdig.
Qed.

Lemma hex_fold_bound h :
  forallb is_hex h = true -> (foldl hex_step 0 h < 16 ^ N.of_nat (length h))%N.
Proof.
  induction h as [|c h IH] using rev_ind; intros Hh; [cbn; lia|].
  rewrite forallb_app in Hh. apply andb_true_iff in Hh as [Hh Hc].
  cbn in Hc. rewrite andb_true_r in Hc.
  destruct (hex_char_facts c Hc) as ((d & Hd & Hlt & _) & _).
  rewrite length_app, foldl_app. cbn [length foldl]. rewrite (hex_step_eq _ _ _ Hd).
  rewrite Nat.add_1_r, Nat2N.inj_succ, N.pow_succ_r'. specialize (IH Hh). lia.
Qed.

Lemma hex_pad_hex k n : forallb is_hex (hex_pad k n) = true /\ length (hex_pad k n) = k.
Proof.
  revert n. induction k as [|k IH]; intros n; [done|]. cbn [hex_pad].
  rewrite forallb_app, length_app. destruct (IH (n / 16)%N) as [-> ->]. cbn.
  rewrite hex_digit_is_hex; [split; [done|lia]|]. by apply N.mod_lt.
Qed.

Lemma remove_all_absent sub c l : c ∈ chars sub -> c ∉ l -> remove_all sub l = l.
Proof.
  intros Hsub. unfold remove_all. induction l as [|x l IH]; intros Hl; [done|].
  cbn [remove_all_from]. rewrite bool_decide_eq_false_2.
  - rewrite IH; [done|]. intros ?; apply Hl; by right.
  - intros Heq. apply Hl. rewrite <- (take_drop (length (chars sub)) (x :: l)), Heq.
    apply elem_of_app. by left.
Qed.

Lemma strip_by_none p l : forallb (fun c => negb (p c)) l = true -> strip_by p l = l.
Proof.
  assert (forall l, forallb (fun c => negb (p c)) l = true -> strip_left p l = l) as Hleft.
  { intros [|c l']; cbn; [done|]. by destruct (p c). }
  intros Hl. unfold strip_by. rewrite (Hleft l Hl), Hleft; [apply rev_involutive|].
  rewrite forallb_forall in Hl |- *. intros c Hc. apply Hl. by apply in_rev.
Qed.

Section dashed.
Context (h : list ascii) (Hlen : length h = 32) (Hhex : forallb is_hex h = true).

Lemma dashed_hex_or_dash c : c ∈ dashed h -> is_hex c = true \/ c = "-"%char.
Proof.
  assert (Forall (fun c => is_hex c = true \/ c = "-"%char) h) as Hh.
  { apply List.Forall_forall. intros x Hx. left. rewrite forallb_forall in Hhex. auto. }
  enough (Forall (fun c => is_hex c = true \/ c = "-"%char) (dashed h)) as H.
  { rewrite Forall_forall in H. auto. }
  unfold dashed. repeat first [apply Forall_app; split | apply Forall_cons; split | by right];
    auto using Forall_take, Forall_drop.
Qed.

Lemma undash : List.filter (fun c => negb (is_dash c)) (dashed h) = h.
Proof.
  assert (forall l, forallb is_hex l = true -> List.filter (fun c => negb (is_dash c)) l = l) as Hid.
  { intros l. induction l as [|c l IH]; cbn; [done|]. intros [Hc Hl]%andb_true_iff.
    destruct (hex_char_facts c Hc) as (_ & -> & _). cbn. by rewrite IH. }
  assert (forall n l, forallb is_hex l = true -> forallb is_hex (take n l) = true /\
            forallb is_hex (drop n l) = true) as Hsub.
  { intros n l. rewrite <- (take_drop n l) at 1. rewrite forallb_app. apply andb_true_iff. }
  unfold dashed. repeat (rewrite List.filter_app; cbn [List.filter is_dash negb Ascii.eqb Bool.eqb]).
  rewrite !Hid by (repeat (apply Hsub); done).
  change (take 8 h ++ take 4 (drop 8 h) ++ take 4 (drop 12 h) ++ take 4 (drop 16 h) ++ drop 20 h = h).
  assert (forall n (l : list ascii), drop (n + 4) l = drop 4 (drop n l)) as Hdd by (intros; by rewrite drop_drop).
  rewrite (Hdd 16 h : drop 20 h = _), (take_drop 4), (Hdd 12 h : drop 16 h = _), (take_drop 4), (Hdd 8 h : drop 12 h = _), (take_drop 4).
  apply take_drop.
Qed.

Lemma int16_hex : int16 h = Some (Z.of_N (foldl hex_step 0%N h)).
Proof.
  unfold int16. rewrite strip_by_none.
  2: { revert Hhex. apply hex_forallb. intros c Hc. by destruct (hex_char_facts c Hc) as (_ & _ & _ & -> & _). }
  assert (hex_unsigned h = Some (foldl hex_step 0%N h)) as Hu.
  { destruct h as [|c0 [|c1 l]]; [done|done|].
    pose proof Hhex as Hh. cbn in Hh. apply andb_true_iff in Hh as [H0 [H1 _]%andb_true_iff].
    destruct (hex_char_facts c1 H1) as (_ & _ & _ & _ & _ & _ & _ & Hx & HX).
    destruct (hex_char_facts c0 H0) as (_ & _ & _ & _ & Hu & _).
    rewrite <- (hex_digits_fold _ _ Hhex). unfold hex_unsigned. rewrite Hx, HX, Hu. cbn [orb].
    by destruct c0 as [[] [] [] [] [] [] [] []]. }
  destruct h as [|c l]; [done|]. pose proof Hhex as Hh. cbn in Hh. apply andb_true_iff in Hh as [Hc _].
  transitivity (Z.of_N <$> hex_unsigned (c :: l)); [|by rewrite Hu].
  clear -Hc. destruct c as [[] [] [] [] [] [] [] []]; try reflexivity; discriminate Hc.
Qed.
End dashed.

Lemma uuid_parse_dashed text h :
  chars text = dashed h -> length h = 32 -> forallb is_hex h = true ->
  uuid_parse text = Some (foldl hex_step 0%N h).
Proof.
  intros Htext Hlen Hhex. unfold uuid_parse. rewrite Htext.
  assert (forall c, is_hex c = false -> c <> "-"%char -> c ∉ dashed h) as Hno.
  { intros c Hc Hd Hin. destruct (dashed_hex_or_dash h Hhex c Hin) as [Hx| ->]; congruence. }
  assert (forall sub, ":"%char ∈ chars sub -> remove_all sub (dashed h) = dashed h) as Hrem.
  { intros sub Hsub. eapply remove_all_absent; [exact Hsub|]. by apply Hno. }
  rewrite (Hrem "urn:"), (Hrem "uuid:") by (apply list_elem_of_In; cbn; tauto).
  rewrite strip_by_none.
  2: { apply forallb_forall. intros c Hc%list_elem_of_In. apply negb_true_iff, orb_false_iff.
       split; apply Ascii.eqb_neq; intros ->; revert Hc; by apply Hno. }
  rewrite undash, Hlen, int16_hex by done.
  pose proof (hex_fold_bound h Hhex) as Hb. rewrite Hlen in Hb.
  change (16 ^ N.of_nat 32)%N with (2 ^ 128)%N in Hb. cbn [Nat.eqb].
  assert ((0 <=? Z.of_N (foldl hex_step 0%N h))%Z && (Z.of_N (foldl hex_step 0%N h) <? 2 ^ 128)%Z = true)
    as ->; [|by rewrite N2Z.id].
  apply andb_true_iff. split; [apply Z.leb_le; lia|apply Z.ltb_lt].
  change (2 ^ 128)%Z with (Z.of_N (2 ^ 128)). lia.
Qed.

Lemma chars_of_list l : chars (string_of_list_ascii l) = l.
Proof. apply list_ascii_of_string_of_list_ascii. Qed.

Lemma map_take_drop {A B} (f : A -> B) n l : map f (take n l) = take n (map f l) /\
  map f (drop n l) = drop n (map f l).
Proof. split; [apply fmap_take|apply fmap_drop]. Qed.

Lemma map_dashed h : map lower_char (dashed h) = dashed (map lower_char h).
Proof.
  unfold dashed. repeat (rewrite map_app; cbn [map]).
  by rewrite !(proj1 (map_take_drop _ _ _)), !(proj2 (map_take_drop _ _ _)).
Qed.

(** A list that lowers to a dashed group of digits is itself a dashed group of digits. *)
Lemma lower_dashed_inv l d :
  map lower_char l = dashed d -> length d = 32 -> exists h, l = dashed h /\ map lower_char h = d.
Proof.
  unfold dashed. intros Hl Hd.
  repeat match goal with
  | H : map _ _ = _ ++ _ |- _ => apply map_eq_app in H as (? & ? & -> & ? & H)
  | H : map _ _ = _ :: _ |- _ => apply map_eq_cons in H as (? & ? & -> & ?%lower_char_dash & H); subst
  end.
  match goal with
  | H1 : map _ ?a = take 8 d, H2 : map _ ?b = take 4 (drop 8 d), H3 : map _ ?c = take 4 (drop 12 d),
    H4 : map _ ?e = take 4 (drop 16 d), H5 : map _ ?f = drop 20 d |- _ =>
      assert (length a = 8) by (by rewrite <- (length_map lower_char), H1, length_take, Hd);
      assert (length b = 4) by (by rewrite <- (length_map lower_char), H2, length_take, length_drop, Hd);
      assert (length c = 4) by (by rewrite <- (length_map lower_char), H3, length_take, length_drop, Hd);
      assert (length e = 4) by (by rewrite <- (length_map lower_char), H4, length_take, length_drop, Hd);
      exists (a ++ b ++ c ++ e ++ f); split;
      [do 4 (destruct a as [|? a]; [done|]) | rewrite !map_app, H1, H2, H3, H4, H5]
  end.
  - repeat match goal with
    | H : length ?x = S _ |- _ => destruct x; [discriminate H|cbn in H; injection H as H]
    | H : length ?x = 0 |- _ => apply length_zero_iff_nil in H; subst
    end. reflexivity.
  - do 32 (destruct d as [|? d]; [done|]). by destruct d.
Qed.

Lemma uuid_accepts payload :
  (exists n, uuid_parse payload = Some n /\ uuid_str n = lower payload) <-> canonical_payload payload.
Proof.
  split.
  - intros (n & _ & Heq). apply (f_equal chars) in Heq. unfold uuid_str, lower in Heq.
    rewrite !chars_of_list in Heq. destruct (hex_pad_hex 32 n) as [Hhex Hlen].
    destruct (lower_dashed_inv _ _ (eq_sym Heq) Hlen) as (h & Hh & Hmap).
    exists h. split_and!; [done| |].
    + by rewrite <- (length_map lower_char), Hmap.
    + rewrite <- Hmap, forallb_forall in Hhex. apply forallb_forall. intros c Hc.
      rewrite <- lower_char_hex. apply Hhex. by apply in_map.
  - intros (h & Hh & Hlen & Hhex). eexists. split; [by eapply uuid_parse_dashed|].
    unfold uuid_str, lower. f_equal. rewrite Hh, map_dashed. f_equal. rewrite <- Hlen at 1.
    by apply hex_pad_fold.
Qed.

Lemma validate_id_spec value prefix value' :
  validate_id value prefix = Ok value' <->
  value' = value /\ exists payload, value = prefix +:+ "_" +:+ payload /\ canonical_payload payload.
Proof.
  assert (forall payload, prefix +:+ "_" +:+ payload = (prefix +:+ "_") +:+ payload) as Hassoc.
  { intros p. apply chars_inj. by rewrite !chars_app, <- app_assoc. }
  unfold validate_id, starts_with. split.
  - destruct (String.prefix _ value) eqn:Hp; [|done]. apply prefix_split in Hp.
    set (payload := drop_str _ value) in *.
    destruct (uuid_parse payload) as [n|] eqn:Hn; [|done].
    destruct (String.eqb_spec (uuid_str n) (lower payload)); [|done].
    intros [= ->]. split; [done|]. exists payload. rewrite Hassoc. split; [done|].
    apply uuid_accepts. eauto.
  - intros (-> & payload & -> & Hc). rewrite Hassoc, prefix_app, drop_str_app.
    apply uuid_accepts in Hc as (n & -> & ->). by rewrite String.eqb_refl.
Qed.

Lemma canonical_payload_length payload : canonical_payload payload -> length (chars payload) = 36.
Proof.
  intros (h & -> & Hlen & _). unfold dashed.
  repeat (rewrite ?length_app, ?length_take, ?length_drop; cbn [length]). lia.
Qed.

(** A canonical identifier is the prefix, an underscore and a UUID in its 8-4-4-4-12 textual
    form (either case): [validate_id] accepts exactly these, returns the text unchanged, and
    otherwise raises [ValueError]. The braces, the [urn:] and [uuid:] prefixes, missing dashes,
    underscores and signs that [uuid.UUID] itself would read are all rejected. *)
Theorem validate_id_accepts_canonical value prefix :
  (validate_id value prefix = Ok value <->
     exists payload, value = prefix +:+ "_" +:+ payload /\ canonical_payload payload) /\
  (validate_id value prefix = Ok value \/ exists m, validate_id value prefix = Err (ValueError m)).
Proof.
  split.
  - rewrite validate_id_spec. split; [by intros [_ ?]|by intros ?].
  - unfold validate_id; cbv zeta. destruct (starts_with _ _); [|by eauto].
    destruct (uuid_parse _) as [n|]; [|by eauto]. destruct (String.eqb _ _); by eauto.
Qed.

Lemma canonical_prefix_unique value p q v1 v2 :
  validate_id value p = Ok v1 -> validate_id value q = Ok v2 -> p = q.
Proof.
  intros H1 H2.
  apply validate_id_spec in H1 as (-> & pay1 & Hv & Hc1%canonical_payload_length).
  apply validate_id_spec in H2 as (-> & pay2 & Hv' & Hc2%canonical_payload_length).
  rewrite Hv in Hv'. apply (f_equal chars) in Hv'. rewrite !chars_app in Hv'.
  apply chars_inj. apply app_inj_2 in Hv' as [-> _]; [done|].
  cbn [app]. rewrite !length_app. cbn. congruence.
Qed.

(** Identifier kinds do not overlap: a text that is a valid identifier for two prefixes has
    the same prefix twice, so a [worker_job_...] id is never taken for a [worker_...] id. *)
Theorem validate_id_prefix_unique value p q :
  is_ok (validate_id value p) = true -> is_ok (validate_id value q) = true -> p = q.
Proof.
  destruct (validate_id value p) as [v1|] eqn:H1; [|done].
  destruct (validate_id value q) as [v2|] eqn:H2; [|done].
  intros _ _. by eapply canonical_prefix_unique.
Qed.

Lemma validate_id_prefix_unique_witness :
  is_ok (validate_id "worker_job_123e4567-e89b-12d3-a456-426614174000" "worker_job") = true /\
  "worker_job" = "worker_job".
Proof.
  split; [reflexivity|].
  apply (validate_id_prefix_unique "worker_job_123e4567-e89b-12d3-a456-426614174000"); reflexivity.
Defined.

Lemma validate_id_ok_eq value prefix v : validate_id value prefix = Ok v -> v = value.
Proof. rewrite validate_id_spec. tauto. Qed.

(** A fresh id built from the text of a UUID is valid. *)
Lemma validate_new_id prefix u :
  canonical_payload u -> validate_id (id_of_uuid prefix u) prefix = Ok (id_of_uuid prefix u).
Proof. intros Hu. apply validate_id_spec. split; [done|]. by exists u. Qed.

Lemma id_of_uuid_inj prefix u v : id_of_uuid prefix u = id_of_uuid prefix v -> u = v.
Proof.
  unfold id_of_uuid. intros H. apply (f_equal chars) in H. rewrite !chars_app in H.
  apply chars_inj. apply app_inv_head in H. by apply app_inv_head in H.
Qed.

(** ** What the checks of the callers accept *)

Definition canonical_id (prefix value : string) : Prop :=
  exists payload, value = prefix +:+ "_" +:+ payload /\ canonical_payload payload.
Definition canonical_optional_id (prefix : string) (value : option string) : Prop :=
  forall v, value = Some v -> canonical_id prefix v.
Definition canonical_ids (prefix : string) (values : list string) : Prop := Forall (canonical_id prefix) values.
Definition canonical_subject_id (subject_type value : string) : Prop :=
  exists prefix, (subject_type, prefix) ∈ CANONICAL_SUBJECT_PREFIXES /\ canonical_id prefix value.

Lemma validate_id_ok value prefix v : validate_id value prefix = Ok v <-> v = value /\ canonical_id prefix value.
Proof. apply validate_id_spec. Qed.

Lemma validate_optional_id_ok value prefix u :
  validate_optional_id value prefix = Ok u <-> canonical_optional_id prefix value.
Proof.
  unfold validate_optional_id, canonical_optional_id. destruct u, value as [v|]; [|by split].
  split.
  - intros H. res_inv. intros v' [= ->]. by eapply validate_id_ok.
  - intros H. by rewrite (proj2 (validate_id_ok v prefix v) (conj eq_refl (H v eq_refl))).
Qed.

Lemma validate_ids_ok values prefix u : validate_ids values prefix = Ok u <-> canonical_ids prefix values.
Proof.
  unfold validate_ids, canonical_ids. destruct u. split.
  - intros H. res_inv. match goal with H : map_res _ _ = Ok _ |- _ => apply map_res_ok in H end.
    eapply Forall2_Forall_l; [eassumption|]. apply Forall_forall. intros y _ v Hv. by eapply validate_id_ok.
  - intros H. rewrite (proj2 (map_res_ok _ values values)); [done|]. apply Forall_Forall2_diag.
    eapply Forall_impl; [exact H|]. intros x Hx. by apply validate_id_ok.
Qed.

Lemma validate_subject_id_ok subject_type value v :
  validate_subject_id subject_type value = Ok v <-> v = value /\ canonical_subject_id subject_type value.
Proof.
  assert (forall p, dict_get subject_type CANONICAL_SUBJECT_PREFIXES = Some p <->
    (subject_type, p) ∈ CANONICAL_SUBJECT_PREFIXES) as Htable.
  { intros p. split; [apply dict_get_in|]. apply dict_in_get. apply (bool_decide_eq_true_1 _). by vm_compute. }
  unfold validate_subject_id, canonical_subject_id. destruct (dict_get subject_type _) as [p|].
  - rewrite validate_id_ok. split.
    + intros [-> Hc]. split; [done|]. exists p. split; [by apply Htable|done].
    + intros [-> (q & Hq%Htable & Hc)]. by injection Hq as ->.
  - split; [done|]. by intros [_ (q & Hq%Htable & _)].
Qed.

(** Proofs about the callers treat the checks as opaque tests. *)
#[global] Arguments validate_id : simpl never.
#[global] Arguments validate_subject_id : simpl never.
#[global] Arguments validate_optional_id : simpl never.
#[global] Arguments validate_ids : simpl never.
