(* ===== verification/Lifecycle.v ===== *)
(** * Canonical lifecycles: the status enums of domain/models.py and domain/lifecycle.py *)

From S2P Require Import Prelude PyValue Errors.

(** ** Status enums and their [.value] strings *)

Inductive TaskStatus :=
| T_DRAFT | T_READY | T_RUNNING | T_WAITING | T_SUCCEEDED | T_FAILED | T_CANCELLED.
Inductive StepStatus :=
| S_PENDING | S_READY | S_RUNNING | S_WAITING | S_SUCCEEDED | S_FAILED | S_SKIPPED | S_CANCELLED.
Inductive RunStatus :=
| R_QUEUED | R_STARTING | R_RUNNING | R_SUCCEEDED | R_FAILED | R_CANCELLED | R_TIMED_OUT.
Inductive ApprovalStatus :=
| A_PENDING | A_APPROVED | A_REJECTED | A_EXPIRED | A_CANCELLED.
Inductive WorkerJobStatus :=
| J_QUEUED | J_ASSIGNED | J_STARTING | J_RUNNING | J_WAITING | J_SUCCEEDED | J_FAILED
| J_CANCELLED | J_TIMED_OUT.

#[export] Instance TaskStatus_eq_dec : EqDecision TaskStatus.
Proof. solve_decision. Defined.
#[export] Instance StepStatus_eq_dec : EqDecision StepStatus.
Proof. solve_decision. Defined.
#[export] Instance RunStatus_eq_dec : EqDecision RunStatus.
Proof. solve_decision. Defined.
#[export] Instance ApprovalStatus_eq_dec : EqDecision ApprovalStatus.
Proof. solve_decision. Defined.
#[export] Instance WorkerJobStatus_eq_dec : EqDecision WorkerJobStatus.
Proof. solve_decision. Defined.

(** A [StrEnum] with a lifecycle: its members have a text value. *)
Class StrEnum (S : Type) `{EqDecision S} := enum_value : S -> string.

#[export] Instance TaskStatus_value : StrEnum TaskStatus := fun s =>
  match s with
  | T_DRAFT => "draft" | T_READY => "ready" | T_RUNNING => "running" | T_WAITING => "waiting"
  | T_SUCCEEDED => "succeeded" | T_FAILED => "failed" | T_CANCELLED => "cancelled"
  end.
#[export] Instance StepStatus_value : StrEnum StepStatus := fun s =>
  match s with
  | S_PENDING => "pending" | S_READY => "ready" | S_RUNNING => "running" | S_WAITING => "waiting"
  | S_SUCCEEDED => "succeeded" | S_FAILED => "failed" | S_SKIPPED => "skipped"
  | S_CANCELLED => "cancelled"
  end.
#[export] Instance RunStatus_value : StrEnum RunStatus := fun s =>
  match s with
  | R_QUEUED => "queued" | R_STARTING => "starting" | R_RUNNING => "running"
  | R_SUCCEEDED => "succeeded" | R_FAILED => "failed" | R_CANCELLED => "cancelled"
  | R_TIMED_OUT => "timed_out"
  end.
#[export] Instance ApprovalStatus_value : StrEnum ApprovalStatus := fun s =>
  match s with
  | A_PENDING => "pending" | A_APPROVED => "approved" | A_REJECTED => "rejected"
  | A_EXPIRED => "expired" | A_CANCELLED => "cancelled"
  end.
#[export] Instance WorkerJobStatus_value : StrEnum WorkerJobStatus := fun s =>
  match s with
  | J_QUEUED => "queued" | J_ASSIGNED => "assigned" | J_STARTING => "starting"
  | J_RUNNING => "running" | J_WAITING => "waiting" | J_SUCCEEDED => "succeeded"
  | J_FAILED => "failed" | J_CANCELLED => "cancelled" | J_TIMED_OUT => "timed_out"
  end.

(** ** Transition tables *)

Definition TASK_TRANSITIONS (s : TaskStatus) : list TaskStatus :=
  match s with
  | T_DRAFT => [T_READY; T_CANCELLED]
  | T_READY => [T_RUNNING; T_CANCELLED]
  | T_RUNNING => [T_WAITING; T_SUCCEEDED; T_FAILED; T_CANCELLED]
  | T_WAITING => [T_RUNNING; T_FAILED; T_CANCELLED]
  | T_SUCCEEDED => []
  | T_FAILED => [T_READY]
  | T_CANCELLED => []
  end.

Definition STEP_TRANSITIONS (s : StepStatus) : list StepStatus :=
  match s with
  | S_PENDING => [S_READY; S_SKIPPED; S_CANCELLED]
  | S_READY => [S_RUNNING; S_SKIPPED; S_CANCELLED]
  | S_RUNNING => [S_WAITING; S_SUCCEEDED; S_FAILED; S_CANCELLED]
  | S_WAITING => [S_RUNNING; S_FAILED; S_CANCELLED]
  | S_SUCCEEDED => []
  | S_FAILED => [S_READY]
  | S_SKIPPED => []
  | S_CANCELLED => []
  end.

Definition RUN_TRANSITIONS (s : RunStatus) : list RunStatus :=
  match s with
  | R_QUEUED => [R_STARTING; R_CANCELLED]
  | R_STARTING => [R_RUNNING; R_FAILED; R_CANCELLED]
  | R_RUNNING => [R_SUCCEEDED; R_FAILED; R_CANCELLED; R_TIMED_OUT]
  | R_SUCCEEDED | R_FAILED | R_CANCELLED | R_TIMED_OUT => []
  end.

Definition APPROVAL_TRANSITIONS (s : ApprovalStatus) : list ApprovalStatus :=
  match s with
  | A_PENDING => [A_APPROVED; A_REJECTED; A_EXPIRED; A_CANCELLED]
  | A_APPROVED | A_REJECTED | A_EXPIRED | A_CANCELLED => []
  end.

Definition WORKER_JOB_TRANSITIONS (s : WorkerJobStatus) : list WorkerJobStatus :=
  match s with
  | J_QUEUED => [J_ASSIGNED; J_CANCELLED]
  | J_ASSIGNED => [J_STARTING; J_CANCELLED]
  | J_STARTING => [J_RUNNING; J_FAILED; J_CANCELLED]
  | J_RUNNING => [J_WAITING; J_SUCCEEDED; J_FAILED; J_CANCELLED; J_TIMED_OUT]
  | J_WAITING => [J_RUNNING; J_FAILED; J_CANCELLED]
  | J_SUCCEEDED | J_FAILED | J_CANCELLED | J_TIMED_OUT => []
  end.

Section transitions.
Context {S : Type} `{StrEnum S}.

Definition can_transition (current target : S) (transitions : S -> list S) : bool :=
  bool_decide (target ∈ transitions current).

Definition require_transition (current target : S) (transitions : S -> list S) : res unit :=
  if can_transition current target transitions then Ok tt
  else Err (ValueError ("illegal lifecycle transition: " +:+ enum_value current +:+ " -> " +:+
                        enum_value target)).

Lemma require_transition_ok current target transitions u :
  require_transition current target transitions = Ok u <-> target ∈ transitions current.
Proof.
  unfold require_transition, can_transition. destruct u.
  case_bool_decide; split; (done || naive_solver).
Qed.
End transitions.

(** [TERMINAL_RUN_STATUSES] of kernel/models.py. *)
Definition TERMINAL_RUN_STATUSES : list RunStatus := [R_SUCCEEDED; R_FAILED; R_CANCELLED; R_TIMED_OUT].
Definition run_terminal (s : RunStatus) : bool := bool_decide (s ∈ TERMINAL_RUN_STATUSES).
Definition run_active (s : RunStatus) : bool := negb (run_terminal s).

(** ** Reachability along a table *)

Inductive reaches {S} (transitions : S -> list S) : S -> S -> Prop :=
| reaches_refl s : reaches transitions s s
| reaches_step s t u : t ∈ transitions s -> reaches transitions t u -> reaches transitions s u.

(** How far along its lifecycle a run is. *)
Definition run_rank (s : RunStatus) : nat :=
  match s with
  | R_QUEUED => 0 | R_STARTING => 1 | R_RUNNING => 2
  | R_SUCCEEDED | R_FAILED | R_CANCELLED | R_TIMED_OUT => 3
  end.

(** A path through the run table, first status first. *)
Fixpoint run_path (s : RunStatus) (l : list RunStatus) : bool :=
  match l with
  | [] => true
  | t :: l' => can_transition s t RUN_TRANSITIONS && run_path t l'
  end.

Lemma elem_of_cases {A} (x : A) (P : A -> Prop) (l : list A) : Forall P l -> x ∈ l -> P x.
Proof. rewrite Forall_forall. auto. Qed.

(** [table H] splits a membership in a transition table into its entries. *)
Ltac table H :=
  cbn in H;
  repeat match type of H with _ ∈ _ :: _ => apply elem_of_cons in H as [H|H] end;
  try (exfalso; apply elem_of_nil in H; exact H).

Lemma run_rank_step s t : t ∈ RUN_TRANSITIONS s -> run_rank s < run_rank t.
Proof. destruct s; intros Ht; table Ht; subst; cbn; lia. Qed.

(** Every run terminates: a run makes at most three legal transitions. *)
Lemma run_lifecycle_terminates s l :
  run_path s l = true -> length l + run_rank s <= 3.
Proof.
  revert s. induction l as [|t l IH]; intros s; cbn; [destruct s; cbn; lia|].
  intros [Ht Hl]%andb_true_iff. apply bool_decide_eq_true, run_rank_step in Ht.
  specialize (IH t Hl). lia.
Qed.

Lemma run_terminal_iff s : run_terminal s = true <-> RUN_TRANSITIONS s = [].
Proof. by destruct s. Qed.

(** Finality of the task, step, approval and worker-job tables: nothing leaves a succeeded,
    cancelled, skipped, decided or finished status, and the only exit of a failed task or step is
    back to ready (the retry). *)
Theorem terminal_statuses_final :
  (forall s t, s ∈ [T_SUCCEEDED; T_CANCELLED] -> reaches TASK_TRANSITIONS s t -> t = s) /\
  (forall s t, s ∈ [S_SUCCEEDED; S_SKIPPED; S_CANCELLED] -> reaches STEP_TRANSITIONS s t -> t = s) /\
  (forall s t, s ∈ TERMINAL_RUN_STATUSES -> reaches RUN_TRANSITIONS s t -> t = s) /\
  (forall s t, s <> A_PENDING -> reaches APPROVAL_TRANSITIONS s t -> t = s) /\
  (forall s t, s ∈ [J_SUCCEEDED; J_FAILED; J_CANCELLED; J_TIMED_OUT] ->
               reaches WORKER_JOB_TRANSITIONS s t -> t = s) /\
  (forall t, t ∈ TASK_TRANSITIONS T_FAILED -> t = T_READY) /\
  (forall t, t ∈ STEP_TRANSITIONS S_FAILED -> t = S_READY).
Proof.
  assert (forall {S} (tr : S -> list S) s t, tr s = [] -> reaches tr s t -> t = s) as Hfinal.
  { intros S tr s t Hs Hr. destruct Hr as [|s t u Ht _]; [done|].
    rewrite Hs in Ht. by apply elem_of_nil in Ht. }
  unfold TERMINAL_RUN_STATUSES.
  split_and!; try (intros s t Hs; apply Hfinal; destruct s; try done; table Hs; done).
  all: intros t Ht; by table Ht.
Qed.
