(* ===== verification/Domain.v ===== *)
(** * Canonical domain entities: the dataclasses of domain/models.py

    One record per dataclass, with the source's field order, and one [_post_init] function per
    [__post_init__], in the order in which the source checks. Datetimes are integers (microseconds
    since the epoch, UTC). Tuples are lists, so [_freeze_tuple_field] is the identity. The
    [dataclasses.replace] of the source builds a new instance and therefore runs [__post_init__]
    again: every [transition_to] below ends in the entity's [_post_init]. *)

From S2P Require Import Prelude PyValue Errors Freeze Ident Lifecycle.

Definition SCHEMA_VERSION : string := "1.0".

(** ** The entities *)

Record OwnerRef := Build_OwnerRef {
  OwnerRef_type : string;
  OwnerRef_id : string
}.

Record ExternalRef := Build_ExternalRef {
  ExternalRef_system : string;
  ExternalRef_kind : string;
  ExternalRef_value : string
}.

Record Provenance := Build_Provenance {
  Provenance_source : string;
  Provenance_actor_ref : option string;
  Provenance_details : dict
}.

Definition Provenance_post_init (r : Provenance) : res Provenance :=
  details ← freeze_mapping_field (Provenance_details r);
  Ok (Build_Provenance (Provenance_source r) (Provenance_actor_ref r) details).

Record Goal := Build_Goal {
  Goal_title : string;
  Goal_owner_ref : OwnerRef;
  Goal_id : string;
  Goal_project_id : option string;
  Goal_description : string;
  Goal_created_at : Z;
  Goal_updated_at : Z;
  Goal_schema_version : string;
  Goal_provenance : option Provenance;
  Goal_external_refs : list ExternalRef
}.

Definition Goal_post_init (r : Goal) : res Goal :=
  _ ← validate_id (Goal_id r) "goal";
  _ ← validate_optional_id (Goal_project_id r) "project";
  Ok r.

Record Project := Build_Project {
  Project_name : string;
  Project_owner_ref : OwnerRef;
  Project_id : string;
  Project_created_at : Z;
  Project_updated_at : Z;
  Project_schema_version : string;
  Project_provenance : option Provenance;
  Project_external_refs : list ExternalRef
}.

Definition Project_post_init (r : Project) : res Project :=
  _ ← validate_id (Project_id r) "project";
  Ok r.

Record Task := Build_Task {
  Task_title : string;
  Task_owner_ref : OwnerRef;
  Task_id : string;
  Task_status : TaskStatus;
  Task_goal_id : option string;
  Task_project_id : option string;
  Task_description : string;
  Task_correlation_id : option string;
  Task_causation_id : option string;
  Task_created_at : Z;
  Task_updated_at : Z;
  Task_schema_version : string;
  Task_provenance : option Provenance;
  Task_external_refs : list ExternalRef;
  Task_metadata : dict
}.

Definition Task_post_init (r : Task) : res Task :=
  _ ← validate_id (Task_id r) "task";
  _ ← validate_optional_id (Task_goal_id r) "goal";
  _ ← validate_optional_id (Task_project_id r) "project";
  metadata ← freeze_mapping_field (Task_metadata r);
  Ok (Build_Task (Task_title r) (Task_owner_ref r) (Task_id r) (Task_status r) (Task_goal_id r)
    (Task_project_id r) (Task_description r) (Task_correlation_id r) (Task_causation_id r)
    (Task_created_at r) (Task_updated_at r) (Task_schema_version r) (Task_provenance r)
    (Task_external_refs r) metadata).

Record Plan := Build_Plan {
  Plan_task_id : string;
  Plan_owner_ref : OwnerRef;
  Plan_id : string;
  Plan_revision : Z;
  Plan_active : bool;
  Plan_project_id : option string;
  Plan_created_at : Z;
  Plan_schema_version : string;
  Plan_provenance : option Provenance;
  Plan_external_refs : list ExternalRef
}.

Definition Plan_post_init (r : Plan) : res Plan :=
  _ ← validate_id (Plan_id r) "plan";
  _ ← validate_id (Plan_task_id r) "task";
  _ ← validate_optional_id (Plan_project_id r) "project";
  _ ← require (1 <=? Plan_revision r)%Z (ValueError "plan revision must be >= 1");
  Ok r.

Record Step := Build_Step {
  Step_plan_id : string;
  Step_title : string;
  Step_owner_ref : OwnerRef;
  Step_id : string;
  Step_status : StepStatus;
  Step_parent_step_id : option string;
  Step_depends_on : list string;
  Step_project_id : option string;
  Step_created_at : Z;
  Step_updated_at : Z;
  Step_schema_version : string;
  Step_provenance : option Provenance;
  Step_external_refs : list ExternalRef
}.

Definition Step_post_init (r : Step) : res Step :=
  _ ← validate_id (Step_id r) "step";
  _ ← validate_id (Step_plan_id r) "plan";
  _ ← validate_optional_id (Step_parent_step_id r) "step";
  _ ← validate_ids (Step_depends_on r) "step";
  _ ← validate_optional_id (Step_project_id r) "project";
  Ok r.

Record Run := Build_Run {
  Run_subject_type : string;
  Run_subject_id : string;
  Run_owner_ref : OwnerRef;
  Run_correlation_id : string;
  Run_id : string;
  Run_attempt : Z;
  Run_status : RunStatus;
  Run_project_id : option string;
  Run_causation_id : option string;
  Run_trace_id : option string;
  Run_worker_id : option string;
  Run_created_at : Z;
  Run_updated_at : Z;
  Run_started_at : option Z;
  Run_finished_at : option Z;
  Run_schema_version : string;
  Run_provenance : option Provenance;
  Run_external_refs : list ExternalRef;
  Run_metadata : dict
}.

Definition Run_post_init (r : Run) : res Run :=
  _ ← validate_id (Run_id r) "run";
  _ ← validate_subject_id (Run_subject_type r) (Run_subject_id r);
  _ ← validate_optional_id (Run_project_id r) "project";
  _ ← validate_optional_id (Run_worker_id r) "worker";
  metadata ← freeze_mapping_field (Run_metadata r);
  _ ← require (1 <=? Run_attempt r)%Z (ValueError "run attempt must be >= 1");
  Ok (Build_Run (Run_subject_type r) (Run_subject_id r) (Run_owner_ref r) (Run_correlation_id r)
    (Run_id r) (Run_attempt r) (Run_status r) (Run_project_id r) (Run_causation_id r) (Run_trace_id
    r) (Run_worker_id r) (Run_created_at r) (Run_updated_at r) (Run_started_at r) (Run_finished_at
    r) (Run_schema_version r) (Run_provenance r) (Run_external_refs r) metadata).

Record Agent := Build_Agent {
  Agent_name : string;
  Agent_owner_ref : OwnerRef;
  Agent_id : string;
  Agent_role : string;
  Agent_capability_ids : list string;
  Agent_project_id : option string;
  Agent_model_assignment_id : option string;
  Agent_policy_requirements : dict;
  Agent_created_at : Z;
  Agent_updated_at : Z;
  Agent_schema_version : string;
  Agent_provenance : option Provenance;
  Agent_external_refs : list ExternalRef
}.

Definition Agent_post_init (r : Agent) : res Agent :=
  policy_requirements ← freeze_mapping_field (Agent_policy_requirements r);
  _ ← validate_id (Agent_id r) "agent";
  _ ← validate_ids (Agent_capability_ids r) "cap";
  _ ← validate_optional_id (Agent_project_id r) "project";
  _ ← validate_optional_id (Agent_model_assignment_id r) "model_assignment";
  Ok (Build_Agent (Agent_name r) (Agent_owner_ref r) (Agent_id r) (Agent_role r)
    (Agent_capability_ids r) (Agent_project_id r) (Agent_model_assignment_id r) policy_requirements
    (Agent_created_at r) (Agent_updated_at r) (Agent_schema_version r) (Agent_provenance r)
    (Agent_external_refs r)).

Record AgentTeam := Build_AgentTeam {
  AgentTeam_name : string;
  AgentTeam_owner_ref : OwnerRef;
  AgentTeam_agent_ids : list string;
  AgentTeam_id : string;
  AgentTeam_coordination_metadata : dict;
  AgentTeam_project_id : option string;
  AgentTeam_created_at : Z;
  AgentTeam_updated_at : Z;
  AgentTeam_schema_version : string;
  AgentTeam_provenance : option Provenance;
  AgentTeam_external_refs : list ExternalRef
}.

Definition AgentTeam_post_init (r : AgentTeam) : res AgentTeam :=
  coordination_metadata ← freeze_mapping_field (AgentTeam_coordination_metadata r);
  _ ← validate_id (AgentTeam_id r) "team";
  _ ← validate_ids (AgentTeam_agent_ids r) "agent";
  _ ← validate_optional_id (AgentTeam_project_id r) "project";
  Ok (Build_AgentTeam (AgentTeam_name r) (AgentTeam_owner_ref r) (AgentTeam_agent_ids r)
    (AgentTeam_id r) coordination_metadata (AgentTeam_project_id r) (AgentTeam_created_at r)
    (AgentTeam_updated_at r) (AgentTeam_schema_version r) (AgentTeam_provenance r)
    (AgentTeam_external_refs r)).

Record Artifact := Build_Artifact {
  Artifact_name : string;
  Artifact_owner_ref : OwnerRef;
  Artifact_id : string;
  Artifact_media_type : string;
  Artifact_uri : option string;
  Artifact_version : option string;
  Artifact_project_id : option string;
  Artifact_created_at : Z;
  Artifact_schema_version : string;
  Artifact_provenance : option Provenance;
  Artifact_external_refs : list ExternalRef
}.

Definition Artifact_post_init (r : Artifact) : res Artifact :=
  _ ← validate_id (Artifact_id r) "artifact";
  _ ← validate_optional_id (Artifact_project_id r) "project";
  Ok r.

Record Result := Build_Result {
  Result_subject_type : string;
  Result_subject_id : string;
  Result_owner_ref : OwnerRef;
  Result_id : string;
  Result_outcome : string;
  Result_status_data : dict;
  Result_artifact_ids : list string;
  Result_project_id : option string;
  Result_created_at : Z;
  Result_schema_version : string;
  Result_provenance : option Provenance;
  Result_external_refs : list ExternalRef
}.

Definition Result_post_init (r : Result) : res Result :=
  status_data ← freeze_mapping_field (Result_status_data r);
  _ ← validate_id (Result_id r) "result";
  _ ← validate_subject_id (Result_subject_type r) (Result_subject_id r);
  _ ← validate_ids (Result_artifact_ids r) "artifact";
  _ ← validate_optional_id (Result_project_id r) "project";
  Ok (Build_Result (Result_subject_type r) (Result_subject_id r) (Result_owner_ref r) (Result_id
    r) (Result_outcome r) status_data (Result_artifact_ids r) (Result_project_id r)
    (Result_created_at r) (Result_schema_version r) (Result_provenance r) (Result_external_refs r)).

Record Event := Build_Event {
  Event_event_type : string;
  Event_subject_type : string;
  Event_subject_id : string;
  Event_correlation_id : string;
  Event_id : string;
  Event_owner_ref : option OwnerRef;
  Event_project_id : option string;
  Event_causation_id : option string;
  Event_trace_id : option string;
  Event_occurred_at : Z;
  Event_payload : dict;
  Event_schema_version : string;
  Event_provenance : option Provenance;
  Event_external_refs : list ExternalRef
}.

Definition Event_post_init (r : Event) : res Event :=
  _ ← validate_id (Event_id r) "event";
  _ ← validate_subject_id (Event_subject_type r) (Event_subject_id r);
  _ ← validate_optional_id (Event_project_id r) "project";
  payload ← freeze_mapping_field (Event_payload r);
  Ok (Build_Event (Event_event_type r) (Event_subject_type r) (Event_subject_id r)
    (Event_correlation_id r) (Event_id r) (Event_owner_ref r) (Event_project_id r)
    (Event_causation_id r) (Event_trace_id r) (Event_occurred_at r) payload (Event_schema_version
    r) (Event_provenance r) (Event_external_refs r)).

Record Approval := Build_Approval {
  Approval_subject_type : string;
  Approval_subject_id : string;
  Approval_owner_ref : OwnerRef;
  Approval_id : string;
  Approval_status : ApprovalStatus;
  Approval_reason : string;
  Approval_decision_by : option OwnerRef;
  Approval_project_id : option string;
  Approval_created_at : Z;
  Approval_updated_at : Z;
  Approval_schema_version : string;
  Approval_provenance : option Provenance;
  Approval_external_refs : list ExternalRef
}.

Definition Approval_post_init (r : Approval) : res Approval :=
  _ ← validate_id (Approval_id r) "approval";
  _ ← validate_subject_id (Approval_subject_type r) (Approval_subject_id r);
  _ ← validate_optional_id (Approval_project_id r) "project";
  Ok r.

Record Capability := Build_Capability {
  Capability_name : string;
  Capability_id : string;
  Capability_description : string;
  Capability_attributes : dict;
  Capability_owner_ref : option OwnerRef;
  Capability_project_id : option string;
  Capability_created_at : Z;
  Capability_updated_at : Z;
  Capability_schema_version : string;
  Capability_provenance : option Provenance;
  Capability_external_refs : list ExternalRef
}.

Definition Capability_post_init (r : Capability) : res Capability :=
  _ ← validate_id (Capability_id r) "cap";
  _ ← validate_optional_id (Capability_project_id r) "project";
  attributes ← freeze_mapping_field (Capability_attributes r);
  Ok (Build_Capability (Capability_name r) (Capability_id r) (Capability_description r)
    attributes (Capability_owner_ref r) (Capability_project_id r) (Capability_created_at r)
    (Capability_updated_at r) (Capability_schema_version r) (Capability_provenance r)
    (Capability_external_refs r)).

Record PolicyScope := Build_PolicyScope {
  PolicyScope_name : string;
  PolicyScope_owner_ref : OwnerRef;
  PolicyScope_id : string;
  PolicyScope_criteria : dict;
  PolicyScope_project_id : option string;
  PolicyScope_created_at : Z;
  PolicyScope_updated_at : Z;
  PolicyScope_schema_version : string;
  PolicyScope_provenance : option Provenance;
  PolicyScope_external_refs : list ExternalRef
}.

Definition PolicyScope_post_init (r : PolicyScope) : res PolicyScope :=
  _ ← validate_id (PolicyScope_id r) "policy_scope";
  _ ← validate_optional_id (PolicyScope_project_id r) "project";
  criteria ← freeze_mapping_field (PolicyScope_criteria r);
  Ok (Build_PolicyScope (PolicyScope_name r) (PolicyScope_owner_ref r) (PolicyScope_id r)
    criteria (PolicyScope_project_id r) (PolicyScope_created_at r) (PolicyScope_updated_at r)
    (PolicyScope_schema_version r) (PolicyScope_provenance r) (PolicyScope_external_refs r)).

Record Tool := Build_Tool {
  Tool_name : string;
  Tool_owner_ref : OwnerRef;
  Tool_id : string;
  Tool_capability_ids : list string;
  Tool_project_id : option string;
  Tool_created_at : Z;
  Tool_updated_at : Z;
  Tool_schema_version : string;
  Tool_provenance : option Provenance;
  Tool_external_refs : list ExternalRef
}.

Definition Tool_post_init (r : Tool) : res Tool :=
  _ ← validate_id (Tool_id r) "tool";
  _ ← validate_ids (Tool_capability_ids r) "cap";
  _ ← validate_optional_id (Tool_project_id r) "project";
  Ok r.

Record ToolInvocation := Build_ToolInvocation {
  ToolInvocation_tool_id : string;
  ToolInvocation_owner_ref : OwnerRef;
  ToolInvocation_id : string;
  ToolInvocation_project_id : option string;
  ToolInvocation_correlation_id : option string;
  ToolInvocation_causation_id : option string;
  ToolInvocation_trace_id : option string;
  ToolInvocation_created_at : Z;
  ToolInvocation_schema_version : string;
  ToolInvocation_provenance : option Provenance;
  ToolInvocation_external_refs : list ExternalRef
}.

Definition ToolInvocation_post_init (r : ToolInvocation) : res ToolInvocation :=
  _ ← validate_id (ToolInvocation_id r) "tool_invocation";
  _ ← validate_id (ToolInvocation_tool_id r) "tool";
  _ ← validate_optional_id (ToolInvocation_project_id r) "project";
  Ok r.

Record ModelAssignment := Build_ModelAssignment {
  ModelAssignment_subject_type : string;
  ModelAssignment_subject_id : string;
  ModelAssignment_owner_ref : OwnerRef;
  ModelAssignment_requirements : dict;
  ModelAssignment_id : string;
  ModelAssignment_provider_ref : option string;
  ModelAssignment_revision : Z;
  ModelAssignment_project_id : option string;
  ModelAssignment_created_at : Z;
  ModelAssignment_schema_version : string;
  ModelAssignment_provenance : option Provenance;
  ModelAssignment_external_refs : list ExternalRef
}.

Definition ModelAssignment_post_init (r : ModelAssignment) : res ModelAssignment :=
  _ ← validate_id (ModelAssignment_id r) "model_assignment";
  _ ← (if String.eqb (ModelAssignment_subject_type r) "policy"
       then validate_id (ModelAssignment_subject_id r) "policy_scope"
       else validate_subject_id (ModelAssignment_subject_type r) (ModelAssignment_subject_id r));
  _ ← validate_optional_id (ModelAssignment_project_id r) "project";
  requirements ← freeze_mapping_field (ModelAssignment_requirements r);
  _ ← require (1 <=? ModelAssignment_revision r)%Z (ValueError "model assignment revision must be >= 1");
  Ok (Build_ModelAssignment (ModelAssignment_subject_type r) (ModelAssignment_subject_id r)
    (ModelAssignment_owner_ref r) requirements (ModelAssignment_id r) (ModelAssignment_provider_ref
    r) (ModelAssignment_revision r) (ModelAssignment_project_id r) (ModelAssignment_created_at r)
    (ModelAssignment_schema_version r) (ModelAssignment_provenance r)
    (ModelAssignment_external_refs r)).

Record Node := Build_Node {
  Node_name : string;
  Node_owner_ref : OwnerRef;
  Node_id : string;
  Node_capability_ids : list string;
  Node_project_id : option string;
  Node_metadata : dict;
  Node_created_at : Z;
  Node_updated_at : Z;
  Node_schema_version : string;
  Node_provenance : option Provenance;
  Node_external_refs : list ExternalRef
}.

Definition Node_post_init (r : Node) : res Node :=
  metadata ← freeze_mapping_field (Node_metadata r);
  _ ← validate_id (Node_id r) "node";
  _ ← validate_ids (Node_capability_ids r) "cap";
  _ ← validate_optional_id (Node_project_id r) "project";
  Ok (Build_Node (Node_name r) (Node_owner_ref r) (Node_id r) (Node_capability_ids r)
    (Node_project_id r) metadata (Node_created_at r) (Node_updated_at r) (Node_schema_version r)
    (Node_provenance r) (Node_external_refs r)).

Record Worker := Build_Worker {
  Worker_node_id : string;
  Worker_name : string;
  Worker_owner_ref : OwnerRef;
  Worker_id : string;
  Worker_capability_ids : list string;
  Worker_available : bool;
  Worker_project_id : option string;
  Worker_created_at : Z;
  Worker_updated_at : Z;
  Worker_schema_version : string;
  Worker_provenance : option Provenance;
  Worker_external_refs : list ExternalRef
}.

Definition Worker_post_init (r : Worker) : res Worker :=
  _ ← validate_id (Worker_id r) "worker";
  _ ← validate_id (Worker_node_id r) "node";
  _ ← validate_ids (Worker_capability_ids r) "cap";
  _ ← validate_optional_id (Worker_project_id r) "project";
  Ok r.

Record WorkerJob := Build_WorkerJob {
  WorkerJob_run_id : string;
  WorkerJob_worker_id : string;
  WorkerJob_owner_ref : OwnerRef;
  WorkerJob_id : string;
  WorkerJob_status : WorkerJobStatus;
  WorkerJob_project_id : option string;
  WorkerJob_correlation_id : option string;
  WorkerJob_causation_id : option string;
  WorkerJob_trace_id : option string;
  WorkerJob_created_at : Z;
  WorkerJob_updated_at : Z;
  WorkerJob_started_at : option Z;
  WorkerJob_finished_at : option Z;
  WorkerJob_schema_version : string;
  WorkerJob_provenance : option Provenance;
  WorkerJob_external_refs : list ExternalRef
}.

Definition WorkerJob_post_init (r : WorkerJob) : res WorkerJob :=
  _ ← validate_id (WorkerJob_id r) "worker_job";
  _ ← validate_id (WorkerJob_run_id r) "run";
  _ ← validate_id (WorkerJob_worker_id r) "worker";
  _ ← validate_optional_id (WorkerJob_project_id r) "project";
  Ok r.

(** ** Functional update of single fields, for [replace(...)] *)

Definition Task_set_title (x : string) (r : Task) : Task :=
  Build_Task x (Task_owner_ref r) (Task_id r) (Task_status r) (Task_goal_id r) (Task_project_id
    r) (Task_description r) (Task_correlation_id r) (Task_causation_id r) (Task_created_at r)
    (Task_updated_at r) (Task_schema_version r) (Task_provenance r) (Task_external_refs r)
    (Task_metadata r).
Definition Task_set_status (x : TaskStatus) (r : Task) : Task :=
  Build_Task (Task_title r) (Task_owner_ref r) (Task_id r) x (Task_goal_id r) (Task_project_id r)
    (Task_description r) (Task_correlation_id r) (Task_causation_id r) (Task_created_at r)
    (Task_updated_at r) (Task_schema_version r) (Task_provenance r) (Task_external_refs r)
    (Task_metadata r).
Definition Task_set_project_id (x : option string) (r : Task) : Task :=
  Build_Task (Task_title r) (Task_owner_ref r) (Task_id r) (Task_status r) (Task_goal_id r) x
    (Task_description r) (Task_correlation_id r) (Task_causation_id r) (Task_created_at r)
    (Task_updated_at r) (Task_schema_version r) (Task_provenance r) (Task_external_refs r)
    (Task_metadata r).
Definition Task_set_description (x : string) (r : Task) : Task :=
  Build_Task (Task_title r) (Task_owner_ref r) (Task_id r) (Task_status r) (Task_goal_id r)
    (Task_project_id r) x (Task_correlation_id r) (Task_causation_id r) (Task_created_at r)
    (Task_updated_at r) (Task_schema_version r) (Task_provenance r) (Task_external_refs r)
    (Task_metadata r).
Definition Task_set_causation_id (x : option string) (r : Task) : Task :=
  Build_Task (Task_title r) (Task_owner_ref r) (Task_id r) (Task_status r) (Task_goal_id r)
    (Task_project_id r) (Task_description r) (Task_correlation_id r) x (Task_created_at r)
    (Task_updated_at r) (Task_schema_version r) (Task_provenance r) (Task_external_refs r)
    (Task_metadata r).
Definition Task_set_updated_at (x : Z) (r : Task) : Task :=
  Build_Task (Task_title r) (Task_owner_ref r) (Task_id r) (Task_status r) (Task_goal_id r)
    (Task_project_id r) (Task_description r) (Task_correlation_id r) (Task_causation_id r)
    (Task_created_at r) x (Task_schema_version r) (Task_provenance r) (Task_external_refs r)
    (Task_metadata r).
Definition Task_set_provenance (x : option Provenance) (r : Task) : Task :=
  Build_Task (Task_title r) (Task_owner_ref r) (Task_id r) (Task_status r) (Task_goal_id r)
    (Task_project_id r) (Task_description r) (Task_correlation_id r) (Task_causation_id r)
    (Task_created_at r) (Task_updated_at r) (Task_schema_version r) x (Task_external_refs r)
    (Task_metadata r).
Definition Task_set_metadata (x : dict) (r : Task) : Task :=
  Build_Task (Task_title r) (Task_owner_ref r) (Task_id r) (Task_status r) (Task_goal_id r)
    (Task_project_id r) (Task_description r) (Task_correlation_id r) (Task_causation_id r)
    (Task_created_at r) (Task_updated_at r) (Task_schema_version r) (Task_provenance r)
    (Task_external_refs r) x.
Definition Step_set_status (x : StepStatus) (r : Step) : Step :=
  Build_Step (Step_plan_id r) (Step_title r) (Step_owner_ref r) (Step_id r) x
    (Step_parent_step_id r) (Step_depends_on r) (Step_project_id r) (Step_created_at r)
    (Step_updated_at r) (Step_schema_version r) (Step_provenance r) (Step_external_refs r).
Definition Step_set_updated_at (x : Z) (r : Step) : Step :=
  Build_Step (Step_plan_id r) (Step_title r) (Step_owner_ref r) (Step_id r) (Step_status r)
    (Step_parent_step_id r) (Step_depends_on r) (Step_project_id r) (Step_created_at r) x
    (Step_schema_version r) (Step_provenance r) (Step_external_refs r).
Definition Run_set_status (x : RunStatus) (r : Run) : Run :=
  Build_Run (Run_subject_type r) (Run_subject_id r) (Run_owner_ref r) (Run_correlation_id r)
    (Run_id r) (Run_attempt r) x (Run_project_id r) (Run_causation_id r) (Run_trace_id r)
    (Run_worker_id r) (Run_created_at r) (Run_updated_at r) (Run_started_at r) (Run_finished_at r)
    (Run_schema_version r) (Run_provenance r) (Run_external_refs r) (Run_metadata r).
Definition Run_set_causation_id (x : option string) (r : Run) : Run :=
  Build_Run (Run_subject_type r) (Run_subject_id r) (Run_owner_ref r) (Run_correlation_id r)
    (Run_id r) (Run_attempt r) (Run_status r) (Run_project_id r) x (Run_trace_id r) (Run_worker_id
    r) (Run_created_at r) (Run_updated_at r) (Run_started_at r) (Run_finished_at r)
    (Run_schema_version r) (Run_provenance r) (Run_external_refs r) (Run_metadata r).
Definition Run_set_updated_at (x : Z) (r : Run) : Run :=
  Build_Run (Run_subject_type r) (Run_subject_id r) (Run_owner_ref r) (Run_correlation_id r)
    (Run_id r) (Run_attempt r) (Run_status r) (Run_project_id r) (Run_causation_id r) (Run_trace_id
    r) (Run_worker_id r) (Run_created_at r) x (Run_started_at r) (Run_finished_at r)
    (Run_schema_version r) (Run_provenance r) (Run_external_refs r) (Run_metadata r).
Definition Run_set_started_at (x : option Z) (r : Run) : Run :=
  Build_Run (Run_subject_type r) (Run_subject_id r) (Run_owner_ref r) (Run_correlation_id r)
    (Run_id r) (Run_attempt r) (Run_status r) (Run_project_id r) (Run_causation_id r) (Run_trace_id
    r) (Run_worker_id r) (Run_created_at r) (Run_updated_at r) x (Run_finished_at r)
    (Run_schema_version r) (Run_provenance r) (Run_external_refs r) (Run_metadata r).
Definition Run_set_finished_at (x : option Z) (r : Run) : Run :=
  Build_Run (Run_subject_type r) (Run_subject_id r) (Run_owner_ref r) (Run_correlation_id r)
    (Run_id r) (Run_attempt r) (Run_status r) (Run_project_id r) (Run_causation_id r) (Run_trace_id
    r) (Run_worker_id r) (Run_created_at r) (Run_updated_at r) (Run_started_at r) x
    (Run_schema_version r) (Run_provenance r) (Run_external_refs r) (Run_metadata r).
Definition Run_set_provenance (x : option Provenance) (r : Run) : Run :=
  Build_Run (Run_subject_type r) (Run_subject_id r) (Run_owner_ref r) (Run_correlation_id r)
    (Run_id r) (Run_attempt r) (Run_status r) (Run_project_id r) (Run_causation_id r) (Run_trace_id
    r) (Run_worker_id r) (Run_created_at r) (Run_updated_at r) (Run_started_at r) (Run_finished_at
    r) (Run_schema_version r) x (Run_external_refs r) (Run_metadata r).
Definition Approval_set_status (x : ApprovalStatus) (r : Approval) : Approval :=
  Build_Approval (Approval_subject_type r) (Approval_subject_id r) (Approval_owner_ref r)
    (Approval_id r) x (Approval_reason r) (Approval_decision_by r) (Approval_project_id r)
    (Approval_created_at r) (Approval_updated_at r) (Approval_schema_version r)
    (Approval_provenance r) (Approval_external_refs r).
Definition Approval_set_updated_at (x : Z) (r : Approval) : Approval :=
  Build_Approval (Approval_subject_type r) (Approval_subject_id r) (Approval_owner_ref r)
    (Approval_id r) (Approval_status r) (Approval_reason r) (Approval_decision_by r)
    (Approval_project_id r) (Approval_created_at r) x (Approval_schema_version r)
    (Approval_provenance r) (Approval_external_refs r).
Definition WorkerJob_set_status (x : WorkerJobStatus) (r : WorkerJob) : WorkerJob :=
  Build_WorkerJob (WorkerJob_run_id r) (WorkerJob_worker_id r) (WorkerJob_owner_ref r)
    (WorkerJob_id r) x (WorkerJob_project_id r) (WorkerJob_correlation_id r)
    (WorkerJob_causation_id r) (WorkerJob_trace_id r) (WorkerJob_created_at r)
    (WorkerJob_updated_at r) (WorkerJob_started_at r) (WorkerJob_finished_at r)
    (WorkerJob_schema_version r) (WorkerJob_provenance r) (WorkerJob_external_refs r).
Definition WorkerJob_set_updated_at (x : Z) (r : WorkerJob) : WorkerJob :=
  Build_WorkerJob (WorkerJob_run_id r) (WorkerJob_worker_id r) (WorkerJob_owner_ref r)
    (WorkerJob_id r) (WorkerJob_status r) (WorkerJob_project_id r) (WorkerJob_correlation_id r)
    (WorkerJob_causation_id r) (WorkerJob_trace_id r) (WorkerJob_created_at r) x
    (WorkerJob_started_at r) (WorkerJob_finished_at r) (WorkerJob_schema_version r)
    (WorkerJob_provenance r) (WorkerJob_external_refs r).
Definition WorkerJob_set_started_at (x : option Z) (r : WorkerJob) : WorkerJob :=
  Build_WorkerJob (WorkerJob_run_id r) (WorkerJob_worker_id r) (WorkerJob_owner_ref r)
    (WorkerJob_id r) (WorkerJob_status r) (WorkerJob_project_id r) (WorkerJob_correlation_id r)
    (WorkerJob_causation_id r) (WorkerJob_trace_id r) (WorkerJob_created_at r)
    (WorkerJob_updated_at r) x (WorkerJob_finished_at r) (WorkerJob_schema_version r)
    (WorkerJob_provenance r) (WorkerJob_external_refs r).
Definition WorkerJob_set_finished_at (x : option Z) (r : WorkerJob) : WorkerJob :=
  Build_WorkerJob (WorkerJob_run_id r) (WorkerJob_worker_id r) (WorkerJob_owner_ref r)
    (WorkerJob_id r) (WorkerJob_status r) (WorkerJob_project_id r) (WorkerJob_correlation_id r)
    (WorkerJob_causation_id r) (WorkerJob_trace_id r) (WorkerJob_created_at r)
    (WorkerJob_updated_at r) (WorkerJob_started_at r) x (WorkerJob_schema_version r)
    (WorkerJob_provenance r) (WorkerJob_external_refs r).

(** The entities with another mapping field, to say what their constructors return. *)
Definition Provenance_set_details (x : dict) (r : Provenance) : Provenance :=
  Build_Provenance (Provenance_source r) (Provenance_actor_ref r) x.
Definition Run_set_metadata (x : dict) (r : Run) : Run :=
  Build_Run (Run_subject_type r) (Run_subject_id r) (Run_owner_ref r) (Run_correlation_id r) (Run_id r)
    (Run_attempt r) (Run_status r) (Run_project_id r) (Run_causation_id r) (Run_trace_id r)
    (Run_worker_id r) (Run_created_at r) (Run_updated_at r) (Run_started_at r) (Run_finished_at r)
    (Run_schema_version r) (Run_provenance r) (Run_external_refs r) x.
Definition Agent_set_policy_requirements (x : dict) (r : Agent) : Agent :=
  Build_Agent (Agent_name r) (Agent_owner_ref r) (Agent_id r) (Agent_role r) (Agent_capability_ids r)
    (Agent_project_id r) (Agent_model_assignment_id r) x (Agent_created_at r) (Agent_updated_at r)
    (Agent_schema_version r) (Agent_provenance r) (Agent_external_refs r).
Definition AgentTeam_set_coordination_metadata (x : dict) (r : AgentTeam) : AgentTeam :=
  Build_AgentTeam (AgentTeam_name r) (AgentTeam_owner_ref r) (AgentTeam_agent_ids r) (AgentTeam_id r) x
    (AgentTeam_project_id r) (AgentTeam_created_at r) (AgentTeam_updated_at r) (AgentTeam_schema_version
    r) (AgentTeam_provenance r) (AgentTeam_external_refs r).
Definition Result_set_status_data (x : dict) (r : Result) : Result :=
  Build_Result (Result_subject_type r) (Result_subject_id r) (Result_owner_ref r) (Result_id r)
    (Result_outcome r) x (Result_artifact_ids r) (Result_project_id r) (Result_created_at r)
    (Result_schema_version r) (Result_provenance r) (Result_external_refs r).
Definition Event_set_payload (x : dict) (r : Event) : Event :=
  Build_Event (Event_event_type r) (Event_subject_type r) (Event_subject_id r) (Event_correlation_id r)
    (Event_id r) (Event_owner_ref r) (Event_project_id r) (Event_causation_id r) (Event_trace_id r)
    (Event_occurred_at r) x (Event_schema_version r) (Event_provenance r) (Event_external_refs r).
Definition Capability_set_attributes (x : dict) (r : Capability) : Capability :=
  Build_Capability (Capability_name r) (Capability_id r) (Capability_description r) x
    (Capability_owner_ref r) (Capability_project_id r) (Capability_created_at r) (Capability_updated_at
    r) (Capability_schema_version r) (Capability_provenance r) (Capability_external_refs r).
Definition PolicyScope_set_criteria (x : dict) (r : PolicyScope) : PolicyScope :=
  Build_PolicyScope (PolicyScope_name r) (PolicyScope_owner_ref r) (PolicyScope_id r) x
    (PolicyScope_project_id r) (PolicyScope_created_at r) (PolicyScope_updated_at r)
    (PolicyScope_schema_version r) (PolicyScope_provenance r) (PolicyScope_external_refs r).
Definition ModelAssignment_set_requirements (x : dict) (r : ModelAssignment) : ModelAssignment :=
  Build_ModelAssignment (ModelAssignment_subject_type r) (ModelAssignment_subject_id r)
    (ModelAssignment_owner_ref r) x (ModelAssignment_id r) (ModelAssignment_provider_ref r)
    (ModelAssignment_revision r) (ModelAssignment_project_id r) (ModelAssignment_created_at r)
    (ModelAssignment_schema_version r) (ModelAssignment_provenance r) (ModelAssignment_external_refs r).
Definition Node_set_metadata (x : dict) (r : Node) : Node :=
  Build_Node (Node_name r) (Node_owner_ref r) (Node_id r) (Node_capability_ids r) (Node_project_id r) x
    (Node_created_at r) (Node_updated_at r) (Node_schema_version r) (Node_provenance r)
    (Node_external_refs r).

(** ** Lifecycle methods; [now] is the result of the [utc_now()] call *)

Definition Task_transition_to (now : Z) (target : TaskStatus) (t : Task) : res Task :=
  _ ← require_transition (Task_status t) target TASK_TRANSITIONS;
  Task_post_init (Task_set_status target (Task_set_updated_at now t)).

Definition Step_transition_to (now : Z) (target : StepStatus) (s : Step) : res Step :=
  _ ← require_transition (Step_status s) target STEP_TRANSITIONS;
  Step_post_init (Step_set_status target (Step_set_updated_at now s)).

Definition Run_transition_to (now : Z) (target : RunStatus) (r : Run) : res Run :=
  _ ← require_transition (Run_status r) target RUN_TRANSITIONS;
  let r1 := Run_set_status target (Run_set_updated_at now r) in
  let r2 := if bool_decide (target = R_RUNNING) && bool_decide (Run_started_at r = None)
            then Run_set_started_at (Some now) r1 else r1 in
  let r3 := if bool_decide (target ∈ [R_SUCCEEDED; R_FAILED; R_CANCELLED; R_TIMED_OUT])
            then Run_set_finished_at (Some now) r2 else r2 in
  Run_post_init r3.

Definition Approval_transition_to (now : Z) (target : ApprovalStatus) (a : Approval) : res Approval :=
  _ ← require_transition (Approval_status a) target APPROVAL_TRANSITIONS;
  Approval_post_init (Approval_set_status target (Approval_set_updated_at now a)).

Definition WorkerJob_transition_to (now : Z) (target : WorkerJobStatus) (j : WorkerJob) : res WorkerJob :=
  _ ← require_transition (WorkerJob_status j) target WORKER_JOB_TRANSITIONS;
  let j1 := WorkerJob_set_status target (WorkerJob_set_updated_at now j) in
  let j2 := if bool_decide (target = J_RUNNING) && bool_decide (WorkerJob_started_at j = None)
            then WorkerJob_set_started_at (Some now) j1 else j1 in
  let j3 := if bool_decide (target ∈ [J_SUCCEEDED; J_FAILED; J_CANCELLED; J_TIMED_OUT])
            then WorkerJob_set_finished_at (Some now) j2 else j2 in
  WorkerJob_post_init j3.

(** ** Construction is validation *)

(** The subject that a model can be assigned to. *)
Definition model_subject_id (subject_type value : string) : Prop :=
  if String.eqb subject_type "policy" then canonical_id "policy_scope" value else canonical_subject_id subject_type value.

(** The constructors accept an entity exactly under the given conditions: in one direction the results of the
    checks become the conditions, in the other the conditions evaluate the checks. *)
Ltac accepted_checks :=
  repeat match goal with
  | H : validate_id _ _ = Ok _ |- _ => apply validate_id_ok in H as [-> H]
  | H : validate_subject_id _ _ = Ok _ |- _ => apply validate_subject_id_ok in H as [-> H]
  | H : validate_optional_id _ _ = Ok _ |- _ => apply validate_optional_id_ok in H
  | H : validate_ids _ _ = Ok _ |- _ => apply validate_ids_ok in H
  end.

Ltac passed_checks :=
  repeat match goal with
  | H : canonical_id _ _ |- _ => rewrite (proj2 (validate_id_ok _ _ _) (conj eq_refl H)); clear H
  | H : canonical_subject_id _ _ |- _ => rewrite (proj2 (validate_subject_id_ok _ _ _) (conj eq_refl H)); clear H
  | H : canonical_optional_id _ _ |- _ => rewrite (proj2 (validate_optional_id_ok _ _ tt) H); clear H
  | H : canonical_ids _ _ |- _ => rewrite (proj2 (validate_ids_ok _ _ tt) H); clear H
  | H : freeze_mapping_field _ = Ok _ |- _ => rewrite H; clear H
  | H : (1 <= _)%Z |- _ => rewrite (proj2 (Z.leb_le _ _) H); clear H
  end.

Ltac post_init_exact :=
  intros r r'; match goal with |- ?f _ = Ok _ <-> _ => unfold f end; unfold model_subject_id; split;
  [intros H; res_inv; bool_props; try case_match; accepted_checks; split_and?; eauto; lia
  |intros H; destruct_and?; try case_match;
   repeat match goal with H : exists _, _ |- _ => destruct H end; destruct_and?; subst; passed_checks; by destruct r].

(** C39. The constructors of domain/models.py accept exactly the valid entities and return them unchanged but for the
    mapping field, which is frozen. An entity is valid when each identifier that it carries is canonical (a prefix, an
    underscore and a UUID in its 8-4-4-4-12 form) with the prefix of what it names, subjects under the prefix of
    their declared type; when a plan's and a model assignment's revision and a run's attempt are at least 1; and when
    its mapping field can be frozen. *)
Theorem constructors_accept_exactly_valid :
  (forall r r', Provenance_post_init r = Ok r' <-> exists m, freeze_mapping_field (Provenance_details r) = Ok m /\
    r' = Provenance_set_details m r) /\
  (forall r r', Goal_post_init r = Ok r' <-> canonical_id "goal" (Goal_id r) /\
    canonical_optional_id "project" (Goal_project_id r) /\ r' = r) /\
  (forall r r', Project_post_init r = Ok r' <-> canonical_id "project" (Project_id r) /\ r' = r) /\
  (forall r r', Task_post_init r = Ok r' <-> canonical_id "task" (Task_id r) /\
    canonical_optional_id "goal" (Task_goal_id r) /\ canonical_optional_id "project" (Task_project_id r) /\
    exists m, freeze_mapping_field (Task_metadata r) = Ok m /\ r' = Task_set_metadata m r) /\
  (forall r r', Plan_post_init r = Ok r' <-> canonical_id "plan" (Plan_id r) /\
    canonical_id "task" (Plan_task_id r) /\ canonical_optional_id "project" (Plan_project_id r) /\
    (1 <= Plan_revision r)%Z /\ r' = r) /\
  (forall r r', Step_post_init r = Ok r' <-> canonical_id "step" (Step_id r) /\
    canonical_id "plan" (Step_plan_id r) /\ canonical_optional_id "step" (Step_parent_step_id r) /\
    canonical_ids "step" (Step_depends_on r) /\ canonical_optional_id "project" (Step_project_id r) /\ r' = r) /\
  (forall r r', Run_post_init r = Ok r' <-> canonical_id "run" (Run_id r) /\
    canonical_subject_id (Run_subject_type r) (Run_subject_id r) /\
    canonical_optional_id "project" (Run_project_id r) /\ canonical_optional_id "worker" (Run_worker_id r) /\
    (1 <= Run_attempt r)%Z /\ exists m, freeze_mapping_field (Run_metadata r) = Ok m /\ r' = Run_set_metadata m r) /\
  (forall r r', Agent_post_init r = Ok r' <-> canonical_id "agent" (Agent_id r) /\
    canonical_ids "cap" (Agent_capability_ids r) /\ canonical_optional_id "project" (Agent_project_id r) /\
    canonical_optional_id "model_assignment" (Agent_model_assignment_id r) /\
    exists m, freeze_mapping_field (Agent_policy_requirements r) = Ok m /\ r' = Agent_set_policy_requirements m r) /\
  (forall r r', AgentTeam_post_init r = Ok r' <-> canonical_id "team" (AgentTeam_id r) /\
    canonical_ids "agent" (AgentTeam_agent_ids r) /\ canonical_optional_id "project" (AgentTeam_project_id r) /\
    exists m, freeze_mapping_field (AgentTeam_coordination_metadata r) = Ok m /\
    r' = AgentTeam_set_coordination_metadata m r) /\
  (forall r r', Artifact_post_init r = Ok r' <-> canonical_id "artifact" (Artifact_id r) /\
    canonical_optional_id "project" (Artifact_project_id r) /\ r' = r) /\
  (forall r r', Result_post_init r = Ok r' <-> canonical_id "result" (Result_id r) /\
    canonical_subject_id (Result_subject_type r) (Result_subject_id r) /\
    canonical_ids "artifact" (Result_artifact_ids r) /\ canonical_optional_id "project" (Result_project_id r) /\
    exists m, freeze_mapping_field (Result_status_data r) = Ok m /\ r' = Result_set_status_data m r) /\
  (forall r r', Event_post_init r = Ok r' <-> canonical_id "event" (Event_id r) /\
    canonical_subject_id (Event_subject_type r) (Event_subject_id r) /\
    canonical_optional_id "project" (Event_project_id r) /\ exists m, freeze_mapping_field (Event_payload r) = Ok m /\
    r' = Event_set_payload m r) /\
  (forall r r', Approval_post_init r = Ok r' <-> canonical_id "approval" (Approval_id r) /\
    canonical_subject_id (Approval_subject_type r) (Approval_subject_id r) /\
    canonical_optional_id "project" (Approval_project_id r) /\ r' = r) /\
  (forall r r', Capability_post_init r = Ok r' <-> canonical_id "cap" (Capability_id r) /\
    canonical_optional_id "project" (Capability_project_id r) /\
    exists m, freeze_mapping_field (Capability_attributes r) = Ok m /\ r' = Capability_set_attributes m r) /\
  (forall r r', PolicyScope_post_init r = Ok r' <-> canonical_id "policy_scope" (PolicyScope_id r) /\
    canonical_optional_id "project" (PolicyScope_project_id r) /\
    exists m, freeze_mapping_field (PolicyScope_criteria r) = Ok m /\ r' = PolicyScope_set_criteria m r) /\
  (forall r r', Tool_post_init r = Ok r' <-> canonical_id "tool" (Tool_id r) /\
    canonical_ids "cap" (Tool_capability_ids r) /\ canonical_optional_id "project" (Tool_project_id r) /\ r' = r) /\
  (forall r r', ToolInvocation_post_init r = Ok r' <-> canonical_id "tool_invocation" (ToolInvocation_id r) /\
    canonical_id "tool" (ToolInvocation_tool_id r) /\ canonical_optional_id "project" (ToolInvocation_project_id r) /\
    r' = r) /\
  (forall r r', ModelAssignment_post_init r = Ok r' <-> canonical_id "model_assignment" (ModelAssignment_id r) /\
    model_subject_id (ModelAssignment_subject_type r) (ModelAssignment_subject_id r) /\
    canonical_optional_id "project" (ModelAssignment_project_id r) /\ (1 <= ModelAssignment_revision r)%Z /\
    exists m, freeze_mapping_field (ModelAssignment_requirements r) = Ok m /\
    r' = ModelAssignment_set_requirements m r) /\
  (forall r r', Node_post_init r = Ok r' <-> canonical_id "node" (Node_id r) /\
    canonical_ids "cap" (Node_capability_ids r) /\ canonical_optional_id "project" (Node_project_id r) /\
    exists m, freeze_mapping_field (Node_metadata r) = Ok m /\ r' = Node_set_metadata m r) /\
  (forall r r', Worker_post_init r = Ok r' <-> canonical_id "worker" (Worker_id r) /\
    canonical_id "node" (Worker_node_id r) /\ canonical_ids "cap" (Worker_capability_ids r) /\
    canonical_optional_id "project" (Worker_project_id r) /\ r' = r) /\
  (forall r r', WorkerJob_post_init r = Ok r' <-> canonical_id "worker_job" (WorkerJob_id r) /\
    canonical_id "run" (WorkerJob_run_id r) /\ canonical_id "worker" (WorkerJob_worker_id r) /\
    canonical_optional_id "project" (WorkerJob_project_id r) /\ r' = r).
Proof. split_and!; post_init_exact. Qed.

(** ** Replacing the non-identity fields of a valid entity stays valid *)

Lemma Task_post_init_ok t t' :
  Task_post_init t = Ok t' <->
  validate_id (Task_id t) "task" = Ok (Task_id t) /\
  validate_optional_id (Task_goal_id t) "goal" = Ok tt /\
  validate_optional_id (Task_project_id t) "project" = Ok tt /\
  exists m, freeze_mapping_field (Task_metadata t) = Ok m /\ t' = Task_set_metadata m t.
Proof.
  unfold Task_post_init. destruct t; cbn. split.
  - intros H. res_inv.
    repeat match goal with H : validate_id _ _ = Ok _ |- _ =>
      pose proof (validate_id_ok_eq _ _ _ H); subst; revert H end.
    repeat match goal with u : () |- _ => destruct u end. naive_solver.
  - intros (-> & -> & -> & m & -> & ->). done.
Qed.

Lemma Run_post_init_ok r r' :
  Run_post_init r = Ok r' <->
  validate_id (Run_id r) "run" = Ok (Run_id r) /\
  validate_subject_id (Run_subject_type r) (Run_subject_id r) = Ok (Run_subject_id r) /\
  validate_optional_id (Run_project_id r) "project" = Ok tt /\
  validate_optional_id (Run_worker_id r) "worker" = Ok tt /\
  (1 <= Run_attempt r)%Z /\
  exists m, freeze_mapping_field (Run_metadata r) = Ok m /\
    r' = Build_Run (Run_subject_type r) (Run_subject_id r) (Run_owner_ref r) (Run_correlation_id r)
      (Run_id r) (Run_attempt r) (Run_status r) (Run_project_id r) (Run_causation_id r)
      (Run_trace_id r) (Run_worker_id r) (Run_created_at r) (Run_updated_at r) (Run_started_at r)
      (Run_finished_at r) (Run_schema_version r) (Run_provenance r) (Run_external_refs r) m.
Proof.
  unfold Run_post_init. destruct r; cbn. split.
  - intros H. res_inv. bool_props.
    repeat match goal with u : () |- _ => destruct u end.
    assert (forall s i v, validate_subject_id s i = Ok v -> v = i) as Hsub.
    { intros s i v. unfold validate_subject_id. destruct (dict_get _ _); [apply validate_id_ok_eq|done]. }
    repeat match goal with
    | H : validate_id _ _ = Ok _ |- _ => pose proof (validate_id_ok_eq _ _ _ H); subst; revert H
    | H : validate_subject_id _ _ = Ok _ |- _ => pose proof (Hsub _ _ _ H); subst; revert H
    end.
    intros. split_and!; try done; [lia|]. eauto.
  - intros (-> & -> & -> & -> & Hatt & m & -> & ->). cbn.
    assert ((1 <=? Run_attempt0)%Z = true) as ->; [lia|done].
Qed.

(** [replace] of fields that the constructor does not check. *)
Lemma Run_replace_ok r r' :
  Run_post_init r = Ok r ->
  Run_id r' = Run_id r -> Run_subject_type r' = Run_subject_type r ->
  Run_subject_id r' = Run_subject_id r -> Run_project_id r' = Run_project_id r ->
  Run_worker_id r' = Run_worker_id r -> Run_attempt r' = Run_attempt r ->
  Run_metadata r' = Run_metadata r -> Run_post_init r' = Ok r'.
Proof.
  rewrite !Run_post_init_ok. intros (? & ? & ? & ? & ? & m & ? & Hr) Hi Hst Hsi Hp Hw Ha Hm.
  rewrite Hi, Hst, Hsi, Hp, Hw, Ha. split_and!; try done. exists m. rewrite Hm. split; [done|].
  apply (f_equal Run_metadata) in Hr. destruct r'; cbn in *; by subst.
Qed.

Lemma Task_replace_ok t t' :
  Task_post_init t = Ok t ->
  Task_id t' = Task_id t -> Task_goal_id t' = Task_goal_id t ->
  validate_optional_id (Task_project_id t') "project" = Ok tt ->
  frozen_dict (Task_metadata t') = true -> Task_post_init t' = Ok t'.
Proof.
  rewrite !Task_post_init_ok. intros (? & ? & _ & _) Hi Hg Hp Hm.
  rewrite Hi, Hg. split_and!; try done. exists (Task_metadata t').
  split; [by apply frozen_freeze_entries|by destruct t'].
Qed.

(** ** Run timestamps *)

(** The statuses a run can be in after it started, and without having started. *)
Definition may_have_started (s : RunStatus) : bool :=
  match s with R_QUEUED | R_STARTING => false | _ => true end.
Definition may_lack_start (s : RunStatus) : bool :=
  match s with R_RUNNING | R_SUCCEEDED | R_TIMED_OUT => false | _ => true end.

(** What the three timestamps of a run say about its status. *)
Definition run_times_ok (r : Run) : Prop :=
  (Run_created_at r <= Run_updated_at r)%Z /\
  match Run_started_at r with
  | Some s => (Run_created_at r <= s <= Run_updated_at r)%Z /\ may_have_started (Run_status r) = true
  | None => may_lack_start (Run_status r) = true
  end /\
  match Run_finished_at r with
  | Some f => run_terminal (Run_status r) = true /\ f = Run_updated_at r
  | None => run_terminal (Run_status r) = false
  end.

(** [Run.transition_to] on a valid run, on every branch: an illegal target raises
    [ValueError]; a legal one sets the status and [updated_at], stamps [started_at] only on the
    first entry to running and [finished_at] exactly on the terminal statuses, and touches no other
    field; with a clock that does not go back the timestamps keep telling the status. *)
Theorem Run_transition_to_spec now target r :
  Run_post_init r = Ok r ->
  (target ∉ RUN_TRANSITIONS (Run_status r) ->
     exists m, Run_transition_to now target r = Err (ValueError m)) /\
  (target ∈ RUN_TRANSITIONS (Run_status r) ->
     exists r', Run_transition_to now target r = Ok r' /\
       Run_status r' = target /\ Run_updated_at r' = now /\
       Run_started_at r' = (if bool_decide (target = R_RUNNING)
                            then Some (default now (Run_started_at r)) else Run_started_at r) /\
       Run_finished_at r' = (if run_terminal target then Some now else Run_finished_at r) /\
       r = Run_set_status (Run_status r) (Run_set_updated_at (Run_updated_at r)
             (Run_set_started_at (Run_started_at r) (Run_set_finished_at (Run_finished_at r) r'))) /\
       (run_times_ok r -> (Run_updated_at r <= now)%Z -> run_times_ok r')).
Proof.
  intros Hv. unfold Run_transition_to. split.
  - intros Hn. unfold require_transition, can_transition. rewrite (bool_decide_eq_false_2 _ Hn). eauto.
  - intros Ht. pose proof Ht as Hreq. apply (require_transition_ok _ _ _ tt) in Hreq. rewrite Hreq. clear Hreq.
    cbn [mbind result_bind].
    destruct r as [? ? ? ? ? ? status ? ? ? ? ? ? started fin]; cbn [Run_status] in *.
    destruct status; table Ht; subst; destruct started, fin; eval_decides; cbn [andb];
      (eexists; split; [eapply Run_replace_ok; [exact Hv|reflexivity..]|]);
      unfold run_times_ok, run_terminal; eval_decides; cbn;
      (split_and!; [reflexivity..|]);
      intros (? & Hs & Hf) Hnow; destruct_and?; split_and?; (done || lia).
Qed.

Definition example_run : Run :=
  Build_Run "task" "task_123e4567-e89b-12d3-a456-426614174000" (Build_OwnerRef "user" "u")
    "task_123e4567-e89b-12d3-a456-426614174000" "run_123e4567-e89b-12d3-a456-426614174001" 1
    R_STARTING None None None None 10 20 None None SCHEMA_VERSION None [] [].

Lemma Run_transition_to_spec_witness :
  Run_post_init example_run = Ok example_run /\
  exists r', Run_transition_to 30 R_RUNNING example_run = Ok r' /\ Run_started_at r' = Some 30%Z.
Proof.
  split; [reflexivity|].
  destruct (Run_transition_to_spec 30 R_RUNNING example_run eq_refl) as [_ H].
  destruct H as (r' & Hr & _ & _ & Hs & _); [by left|].
  exists r'. split; [exact Hr|]. exact Hs.
Defined.
