(* ===== verification/Contracts.v ===== *)
(** * Provider-neutral contract values: contracts/types.py and the completion decision

    The requests, handles and snapshots that the kernel exchanges with an orchestrator, a
    lifecycle backend and a completion authority, with the checks of their [__post_init__]. *)

From Stdlib Require Import SpecFloat.
From S2P Require Import Prelude PyValue Errors Freeze Ident Lifecycle Domain.

(** [ExecutionStatus = RunStatus] and [PlatformEvent = Event] are aliases in the source. *)
Abbreviation ExecutionStatus := RunStatus.
Abbreviation PlatformEvent := Event.

(** [RiskClassification] of security/authorization.py, which verification policies and approvals share. *)
Inductive RiskClassification := RISK_STANDARD | RISK_ELEVATED | RISK_HIGH | RISK_CRITICAL.
#[export] Instance RiskClassification_eq_dec : EqDecision RiskClassification.
Proof. solve_decision. Defined.

Inductive RetryMode := RETRY_NEVER | RETRY_SAFE | RETRY_IDEMPOTENT.

Record OperationControl := Build_OperationControl {
  OperationControl_timeout_seconds : option spec_float;
  OperationControl_idempotency_key : option string;
  OperationControl_retry_mode : RetryMode
}.

Definition OperationControl_post_init (r : OperationControl) : res OperationControl :=
  _ ← (match OperationControl_timeout_seconds r with
       | Some t => require (negb (SFleb t (S754_zero false)))
                     (ValueError "timeout_seconds must be greater than zero")
       | None => Ok tt
       end);
  _ ← (match OperationControl_idempotency_key r with
       | Some k => require (negb (blank k)) (ValueError "idempotency_key must not be blank")
       | None => Ok tt
       end);
  Ok r.

(** Backend-private diagnostics under a namespace. *)
Record AdapterMetadata := Build_AdapterMetadata {
  AdapterMetadata_namespace : string;
  AdapterMetadata_values : dict
}.

Definition AdapterMetadata_post_init (r : AdapterMetadata) : res AdapterMetadata :=
  _ ← require (negb (blank (AdapterMetadata_namespace r) ||
                     existsb is_space (chars (AdapterMetadata_namespace r))))
        (ValueError "adapter metadata namespace must be non-empty and contain no spaces");
  Ok r.

Record OperationContext := Build_OperationContext {
  OperationContext_correlation_id : string;
  OperationContext_causation_id : option string;
  OperationContext_owner_type : option string;
  OperationContext_owner_id : option string;
  OperationContext_project_id : option string;
  OperationContext_control : OperationControl
}.

Definition OperationContext_post_init (r : OperationContext) : res OperationContext :=
  _ ← require (negb (blank (OperationContext_correlation_id r)))
        (ValueError "correlation_id must not be blank");
  _ ← require (bool_decide (OperationContext_owner_type r = None <->
                            OperationContext_owner_id r = None))
        (ValueError "owner_type and owner_id must either both be set or both be omitted");
  _ ← validate_optional_id (OperationContext_project_id r) "project";
  Ok r.

(** ** Planning *)

Record PlanRequest := Build_PlanRequest {
  PlanRequest_task_id : string;
  PlanRequest_context : OperationContext;
  PlanRequest_objective : string
}.

Definition PlanRequest_post_init (r : PlanRequest) : res PlanRequest :=
  _ ← validate_id (PlanRequest_task_id r) "task";
  _ ← require (negb (blank (PlanRequest_objective r)))
        (ValueError "planning objective must not be blank");
  Ok r.

Record PlanStepProposal := Build_PlanStepProposal {
  PlanStepProposal_key : string;
  PlanStepProposal_title : string;
  PlanStepProposal_objective : string;
  PlanStepProposal_depends_on : list string;
  PlanStepProposal_metadata : dict
}.

Definition PlanStepProposal_post_init (r : PlanStepProposal) : res PlanStepProposal :=
  _ ← require (negb (blank (PlanStepProposal_key r)))
        (ValueError "plan step proposal key must not be blank");
  _ ← require (negb (blank (PlanStepProposal_title r)))
        (ValueError "plan step proposal title must not be blank");
  _ ← require (negb (in_strs (PlanStepProposal_key r) (PlanStepProposal_depends_on r)))
        (ValueError "plan step proposal cannot depend on itself");
  Ok r.

Record PlanResponse := Build_PlanResponse {
  PlanResponse_summary : string;
  PlanResponse_steps : list PlanStepProposal;
  PlanResponse_adapter_metadata : list AdapterMetadata
}.

Definition PlanResponse_post_init (r : PlanResponse) : res PlanResponse :=
  _ ← require (negb (blank (PlanResponse_summary r))) (ValueError "plan summary must not be blank");
  let keys := map PlanStepProposal_key (PlanResponse_steps r) in
  _ ← require (bool_decide (NoDup keys)) (ValueError "plan step proposal keys must be unique");
  _ ← map_res (fun step =>
        let unknown := remove_dups (List.filter (fun k => negb (in_strs k keys))
                                      (PlanStepProposal_depends_on step)) in
        require (bool_decide (length unknown = 0))
          (ValueError ("plan step proposal has unknown dependencies: " +:+
                       repr_list (sort_strs unknown)))) (PlanResponse_steps r);
  Ok r.

(** ** Execution *)

Record ExecutionRequest := Build_ExecutionRequest {
  ExecutionRequest_run_id : string;
  ExecutionRequest_subject_type : string;
  ExecutionRequest_subject_id : string;
  ExecutionRequest_context : OperationContext;
  ExecutionRequest_input : dict
}.

Definition ExecutionRequest_post_init (r : ExecutionRequest) : res ExecutionRequest :=
  _ ← validate_id (ExecutionRequest_run_id r) "run";
  _ ← validate_subject_id (ExecutionRequest_subject_type r) (ExecutionRequest_subject_id r);
  Ok r.

Record ExecutionHandle := Build_ExecutionHandle {
  ExecutionHandle_run_id : string;
  ExecutionHandle_backend_ref : option string;
  ExecutionHandle_adapter_metadata : list AdapterMetadata
}.

Definition ExecutionHandle_post_init (r : ExecutionHandle) : res ExecutionHandle :=
  _ ← validate_id (ExecutionHandle_run_id r) "run";
  Ok r.

Record ExecutionSnapshot := Build_ExecutionSnapshot {
  ExecutionSnapshot_run_id : string;
  ExecutionSnapshot_status : ExecutionStatus;
  ExecutionSnapshot_output : dict;
  ExecutionSnapshot_adapter_metadata : list AdapterMetadata
}.

Definition ExecutionSnapshot_post_init (r : ExecutionSnapshot) : res ExecutionSnapshot :=
  _ ← validate_id (ExecutionSnapshot_run_id r) "run";
  Ok r.

(** ** Completion decisions: verification/models.py and verification/gate.py *)

Inductive CompletionState :=
| C_ACCEPTED | C_WAITING | C_REPAIR_REQUIRED | C_REJECTED | C_ESCALATED.

#[export] Instance CompletionState_eq_dec : EqDecision CompletionState.
Proof. solve_decision. Defined.
#[export] Instance CompletionState_value : StrEnum CompletionState := fun s =>
  match s with
  | C_ACCEPTED => "accepted" | C_WAITING => "waiting" | C_REPAIR_REQUIRED => "repair_required"
  | C_REJECTED => "rejected" | C_ESCALATED => "escalated"
  end.

Record VerificationSubject := Build_VerificationSubject {
  VerificationSubject_subject_type : string;
  VerificationSubject_subject_id : string;
  VerificationSubject_revision : string;
  VerificationSubject_digest : string
}.

Record CompletionGateDecision := Build_CompletionGateDecision {
  CompletionGateDecision_task_id : string;
  CompletionGateDecision_state : CompletionState;
  CompletionGateDecision_reason : string;
  CompletionGateDecision_policy_id : option string;
  CompletionGateDecision_policy_version : option Z;
  CompletionGateDecision_subject : option VerificationSubject;
  CompletionGateDecision_blocking_verification_ids : list string;
  CompletionGateDecision_repair_attempts_remaining : Z
}.

Definition CompletionGateDecision_post_init (r : CompletionGateDecision) : res CompletionGateDecision :=
  _ ← validate_id (CompletionGateDecision_task_id r) "task";
  _ ← require (negb (blank (CompletionGateDecision_reason r)))
        (ValueError "completion gate decision reason must not be blank");
  _ ← (match CompletionGateDecision_policy_id r with
       | Some p =>
           _ ← validate_id p "verification_policy";
           require (match CompletionGateDecision_policy_version r with
                    | Some v => (1 <=? v)%Z | None => false end)
             (ValueError "completion gate policy requires version >= 1")
       | None =>
           require (bool_decide (CompletionGateDecision_policy_version r = None))
             (ValueError "completion gate policy_version requires policy_id")
       end);
  _ ← map_res (fun v => validate_id v "verification")
        (CompletionGateDecision_blocking_verification_ids r);
  _ ← require (0 <=? CompletionGateDecision_repair_attempts_remaining r)%Z
        (ValueError "repair_attempts_remaining must be >= 0");
  Ok r.

(** ** Tool invocations *)

Record ToolInvocationRequest := Build_ToolInvocationRequest {
  ToolInvocationRequest_invocation_id : string;
  ToolInvocationRequest_tool_ref : string;
  ToolInvocationRequest_arguments : dict;
  ToolInvocationRequest_context : OperationContext;
  ToolInvocationRequest_task_id : option string;
  ToolInvocationRequest_run_id : option string;
  ToolInvocationRequest_agent_id : option string
}.

(** [ToolInvocation.__post_init__] of contracts/types.py. *)
Definition ToolInvocationRequest_post_init (r : ToolInvocationRequest) : res ToolInvocationRequest :=
  _ ← require (negb (blank (ToolInvocationRequest_invocation_id r)))
        (ValueError "tool invocation_id must not be blank");
  _ ← require (negb (blank (ToolInvocationRequest_tool_ref r))) (ValueError "tool_ref must not be blank");
  _ ← validate_optional_id (ToolInvocationRequest_task_id r) "task";
  _ ← validate_optional_id (ToolInvocationRequest_run_id r) "run";
  _ ← validate_optional_id (ToolInvocationRequest_agent_id r) "agent";
  let frozen := map (fun kv => (kv.1, freeze_json kv.2)) (ToolInvocationRequest_arguments r) in
  Ok (Build_ToolInvocationRequest (ToolInvocationRequest_invocation_id r)
        (ToolInvocationRequest_tool_ref r) frozen (ToolInvocationRequest_context r)
        (ToolInvocationRequest_task_id r) (ToolInvocationRequest_run_id r)
        (ToolInvocationRequest_agent_id r)).

Definition arguments_json (r : ToolInvocationRequest) : dict :=
  map (fun kv => (kv.1, thaw_json kv.2)) (ToolInvocationRequest_arguments r).

(** The dependency graph of an accepted plan proposal is closed: in a [PlanResponse] that the
    constructor returned, step keys are unique and every dependency of every step is the key of
    some step of the same proposal. *)
Theorem PlanResponse_closed r r' :
  PlanResponse_post_init r = Ok r' ->
  r' = r /\ NoDup (map PlanStepProposal_key (PlanResponse_steps r)) /\
  forall step k, step ∈ PlanResponse_steps r -> k ∈ PlanStepProposal_depends_on step ->
    k ∈ map PlanStepProposal_key (PlanResponse_steps r).
Proof.
  unfold PlanResponse_post_init. intros H. res_inv. bool_props. split_and!; [done..|].
  intros step k Hstep Hk.
  match goal with H : map_res _ _ = Ok _ |- _ => apply map_res_ok in H; rename H into Hall end.
  apply list_elem_of_lookup_1 in Hstep as [i Hi].
  destruct (Forall2_lookup_l _ _ _ _ _ Hall Hi) as (u & _ & Hu).
  apply require_ok, bool_decide_eq_true, length_zero_iff_nil in Hu.
  apply in_strs_true. destruct (in_strs k _) eqn:Hin; [done|]. exfalso.
  apply (not_elem_of_nil k). rewrite <- Hu. apply elem_of_remove_dups, list_elem_of_In.
  apply filter_In. split; [by apply list_elem_of_In|]. by rewrite Hin.
Qed.

Definition example_response : PlanResponse :=
  Build_PlanResponse "two steps"
    [Build_PlanStepProposal "a" "first" "" [] []; Build_PlanStepProposal "b" "second" "" ["a"] []] [].

(** C40. Tool arguments survive the provider boundary: for plain JSON arguments, what
    [arguments_json] gives the provider is exactly what the caller passed in. *)
Theorem tool_arguments_roundtrip r r' :
  ToolInvocationRequest_post_init r = Ok r' ->
  forallb (fun kv => plain_json kv.2) (ToolInvocationRequest_arguments r) = true ->
  arguments_json r' = ToolInvocationRequest_arguments r.
Proof.
  unfold ToolInvocationRequest_post_init, arguments_json. intros H Hp. res_inv. cbn.
  rewrite map_map. cbn. rewrite forallb_forall, <- List.Forall_forall in Hp.
  induction Hp as [|[k v] l Hv Hl IH]; cbn in *; [done|].
  rewrite IH, thaw_freeze_json. f_equal. f_equal. by apply thaw_plain_json.
Qed.

Definition example_invocation : ToolInvocationRequest :=
  Build_ToolInvocationRequest "inv-1" "tool:search"
    [("query", VStr "rocq"); ("limits", VSeq SList [VInt 1; VInt 2])]
    (Build_OperationContext "task-1" None None None None (Build_OperationControl None None RETRY_NEVER))
    None None None.

Lemma tool_arguments_roundtrip_witness : exists r',
  ToolInvocationRequest_post_init example_invocation = Ok r' /\
  ToolInvocationRequest_arguments r' <> ToolInvocationRequest_arguments example_invocation /\
  arguments_json r' = ToolInvocationRequest_arguments example_invocation.
Proof.
  eexists. split; [reflexivity|]. split; [done|].
  exact (tool_arguments_roundtrip example_invocation _ eq_refl eq_refl).
Defined.
