(* ===== verification/VerificationModels.v ===== *)
(** * Runtime verification: the data of verification/models.py and verification/audit.py

    Policies, requests, results, assessments and audit events with the checks of their
    constructors. *)

From Stdlib Require Import SpecFloat.
From S2P Require Import Prelude PyValue Errors Freeze Ident Lifecycle Domain Contracts PyTime.

(** ** Shared validators *)

Definition require_nonblank (value field_name : string) : res unit :=
  require (negb (blank value)) (ValueError (field_name +:+ " must not be blank")).
Definition require_all_nonblank (values : list string) (field_name : string) : res unit :=
  _ ← map_res (fun v => require_nonblank v field_name) values; Ok tt.
Definition optional_nonblank (value : option string) (field_name : string) : res unit :=
  match value with Some v => require_nonblank v field_name | None => Ok tt end.
(** [len(set(xs)) != len(xs): raise ValueError(message)] *)
Definition require_unique {A} `{EqDecision A} (l : list A) (message : string) : res unit :=
  require (bool_decide (NoDup l)) (ValueError message).

(** ** Enums *)

Inductive VerifierKind := V_DETERMINISTIC | V_HUMAN | V_AGENT | V_PROVIDER.
Inductive VerificationOutcome := O_PASS | O_FAIL | O_NEEDS_CHANGES | O_INCONCLUSIVE.
Inductive VerificationRequestStatus := Q_PENDING | Q_COMPLETED | Q_EXPIRED | Q_CANCELLED.
Inductive VerificationFailurePolicy := FP_FAIL | FP_ESCALATE | FP_WAIT.
Inductive VerificationAuditEventType :=
| AE_POLICY_REGISTERED | AE_REQUESTED | AE_REVERIFICATION_REQUESTED | AE_REQUEST_EXPIRED
| AE_REQUEST_CANCELLED | AE_RESULT_RECORDED.

#[export] Instance VerifierKind_eq_dec : EqDecision VerifierKind.
Proof. solve_decision. Defined.
#[export] Instance VerificationOutcome_eq_dec : EqDecision VerificationOutcome.
Proof. solve_decision. Defined.
#[export] Instance VerificationRequestStatus_eq_dec : EqDecision VerificationRequestStatus.
Proof. solve_decision. Defined.
#[export] Instance VerificationFailurePolicy_eq_dec : EqDecision VerificationFailurePolicy.
Proof. solve_decision. Defined.
#[export] Instance VerificationSubject_eq_dec : EqDecision VerificationSubject.
Proof. solve_decision. Defined.

#[export] Instance VerificationRequestStatus_value : StrEnum VerificationRequestStatus := fun s =>
  match s with
  | Q_PENDING => "pending" | Q_COMPLETED => "completed" | Q_EXPIRED => "expired" | Q_CANCELLED => "cancelled"
  end.

(** ** Subjects, scopes, stages and policies *)

(** [VerificationSubject.__post_init__]; the record is the one of Contracts.v. *)
Definition VerificationSubject_post_init (s : VerificationSubject) : res VerificationSubject :=
  _ ← require (in_strs (VerificationSubject_subject_type s) ["result"; "artifact"])
        (ValueError "verification subject_type must be result or artifact");
  _ ← validate_id (VerificationSubject_subject_id s) (VerificationSubject_subject_type s);
  _ ← require_nonblank (VerificationSubject_revision s) "verification subject revision";
  _ ← require_nonblank (VerificationSubject_digest s) "verification subject digest";
  Ok s.

Record VerificationScope := Build_VerificationScope {
  VerificationScope_task_ids : list string;
  VerificationScope_project_ids : list string;
  VerificationScope_agent_ids : list string;
  VerificationScope_capability_ids : list string
}.

Definition VerificationScope_post_init (s : VerificationScope) : res VerificationScope :=
  _ ← validate_ids (VerificationScope_task_ids s) "task";
  _ ← validate_ids (VerificationScope_project_ids s) "project";
  _ ← validate_ids (VerificationScope_agent_ids s) "agent";
  _ ← require_all_nonblank (VerificationScope_capability_ids s) "verification policy capability ID";
  _ ← require_unique (VerificationScope_task_ids s) "verification policy task scopes must be unique";
  _ ← require_unique (VerificationScope_project_ids s) "verification policy project scopes must be unique";
  _ ← require_unique (VerificationScope_agent_ids s) "verification policy agent scopes must be unique";
  _ ← require_unique (VerificationScope_capability_ids s) "verification policy capability scopes must be unique";
  Ok s.

Record ReviewerIndependence := Build_ReviewerIndependence {
  producer_agent_must_differ : bool;
  model_must_differ : bool;
  provider_must_differ : bool;
  agent_reviewer_must_be_read_only : bool;
  human_reviewer_must_differ : bool;
  forbid_self_verification : bool;
  forbid_self_verification_risk_classes : list RiskClassification;
  require_distinct_verifiers : bool
}.

Definition ReviewerIndependence_post_init (r : ReviewerIndependence) : res ReviewerIndependence :=
  _ ← require_unique (forbid_self_verification_risk_classes r) "self-verification risk classes must be unique";
  Ok r.

Record VerificationStage := Build_VerificationStage {
  stage_stage_id : string;
  stage_verifier_kind : VerifierKind;
  stage_minimum_results : Z;
  stage_accepted_outcomes : list VerificationOutcome;
  stage_capability_ref : option string;
  stage_critical : bool
}.

Definition VerificationStage_post_init (s : VerificationStage) : res VerificationStage :=
  _ ← require_nonblank (stage_stage_id s) "verification stage_id";
  _ ← require (1 <=? stage_minimum_results s)%Z
        (ValueError "verification stage minimum_results must be >= 1");
  _ ← require (negb (bool_decide (stage_accepted_outcomes s = [])))
        (ValueError "verification stage requires at least one accepted outcome");
  _ ← require_unique (stage_accepted_outcomes s) "verification stage accepted outcomes must be unique";
  _ ← optional_nonblank (stage_capability_ref s) "verification capability_ref";
  Ok s.

Record VerificationPolicy := Build_VerificationPolicy {
  policy_name : string;
  policy_stages : list VerificationStage;
  policy_policy_id : string;
  policy_version : Z;
  policy_scope : VerificationScope;
  policy_independence : ReviewerIndependence;
  policy_risk_classification : RiskClassification;
  policy_max_repair_attempts : Z;
  policy_request_timeout_seconds : option spec_float;
  policy_result_expiry_seconds : option spec_float;
  policy_failure_policy : VerificationFailurePolicy;
  policy_timeout_failure_policy : VerificationFailurePolicy;
  policy_creator_ref : option string;
  policy_created_at : datetime;
  policy_provenance : option Provenance;
  policy_metadata : dict
}.

Definition positive_seconds (x : option spec_float) (message : string) : res unit :=
  match x with Some x => require (negb (float_le0 x)) (ValueError message) | None => Ok tt end.

Definition VerificationPolicy_post_init (p : VerificationPolicy) : res VerificationPolicy :=
  _ ← validate_id (policy_policy_id p) "verification_policy";
  _ ← require_nonblank (policy_name p) "verification policy name";
  _ ← require (1 <=? policy_version p)%Z (ValueError "verification policy version must be >= 1");
  _ ← require_unique (map stage_stage_id (policy_stages p)) "verification policy stage IDs must be unique";
  _ ← require (0 <=? policy_max_repair_attempts p)%Z (ValueError "max_repair_attempts must be >= 0");
  _ ← positive_seconds (policy_request_timeout_seconds p) "request_timeout_seconds must be > 0";
  _ ← positive_seconds (policy_result_expiry_seconds p) "result_expiry_seconds must be > 0";
  _ ← optional_nonblank (policy_creator_ref p) "verification policy creator_ref";
  _ ← require_aware (policy_created_at p) "verification policy created_at";
  Ok p.

(** [policy.stage(stage_id)] *)
Definition policy_stage (p : VerificationPolicy) (stage_id : string) : res VerificationStage :=
  match List.find (fun stage => String.eqb (stage_stage_id stage) stage_id) (policy_stages p) with
  | Some stage => Ok stage
  | None => Err (KeyError stage_id)
  end.

(** ** Identities *)

Record ProducerIdentity := Build_ProducerIdentity {
  producer_actor_ref : string;
  producer_agent_id : option string;
  producer_agent_revision : option Z;
  producer_model_config_id : option string;
  producer_provider_id : option string
}.

Definition ProducerIdentity_post_init (p : ProducerIdentity) : res ProducerIdentity :=
  _ ← require_nonblank (producer_actor_ref p) "producer actor_ref";
  _ ← (match producer_agent_id p with
       | Some agent_id =>
           _ ← validate_id agent_id "agent";
           require (match producer_agent_revision p with Some r => (1 <=? r)%Z | None => false end)
             (ValueError "producer agent identity requires agent_revision >= 1")
       | None => require (bool_decide (producer_agent_revision p = None))
                   (ValueError "producer agent_revision requires agent_id")
       end);
  _ ← optional_nonblank (producer_model_config_id p) "producer model_config_id";
  _ ← optional_nonblank (producer_provider_id p) "producer provider_id";
  Ok p.

Record VerifierIdentity := Build_VerifierIdentity {
  verifier_verifier_ref : string;
  verifier_kind : VerifierKind;
  verifier_agent_id : option string;
  verifier_agent_revision : option Z;
  verifier_model_config_id : option string;
  verifier_provider_id : option string;
  verifier_read_only : bool
}.

Definition VerifierIdentity_post_init (v : VerifierIdentity) : res VerifierIdentity :=
  _ ← require_nonblank (verifier_verifier_ref v) "verifier_ref";
  _ ← (if bool_decide (verifier_kind v = V_AGENT) then
         match verifier_agent_id v, verifier_agent_revision v with
         | Some agent_id, Some revision =>
             _ ← validate_id agent_id "agent";
             require (1 <=? revision)%Z (ValueError "agent verifier revision must be >= 1")
         | _, _ => Err (ValueError "agent verifier requires agent_id and agent_revision")
         end
       else require (bool_decide (verifier_agent_id v = None) && bool_decide (verifier_agent_revision v = None))
              (ValueError "only agent verifiers may carry agent revision identity"));
  _ ← optional_nonblank (verifier_model_config_id v) "verifier model_config_id";
  _ ← optional_nonblank (verifier_provider_id v) "verifier provider_id";
  Ok v.

(** ** Requests and results *)

Record VerificationRequest := Build_VerificationRequest {
  request_task_id : string;
  request_policy_id : string;
  request_policy_version : Z;
  request_stage_id : string;
  request_subject : VerificationSubject;
  request_requested_verifier_kind : VerifierKind;
  request_correlation_id : string;
  request_verification_id : string;
  request_run_id : option string;
  request_result_id : option string;
  request_artifact_ids : list string;
  request_project_id : option string;
  request_capability_ids : list string;
  request_requested_capability_ref : option string;
  request_producer : option ProducerIdentity;
  request_repair_attempt : Z;
  request_status : VerificationRequestStatus;
  request_created_at : datetime;
  request_expires_at : option datetime;
  request_causation_id : option string
}.

Definition VerificationRequest_post_init (r : VerificationRequest) : res VerificationRequest :=
  _ ← validate_id (request_verification_id r) "verification";
  _ ← validate_id (request_task_id r) "task";
  _ ← validate_id (request_policy_id r) "verification_policy";
  _ ← validate_optional_id (request_run_id r) "run";
  _ ← validate_optional_id (request_result_id r) "result";
  _ ← validate_optional_id (request_project_id r) "project";
  _ ← require_all_nonblank (request_capability_ids r) "verification capability ID";
  _ ← require_unique (request_capability_ids r) "verification capability references must be unique";
  _ ← validate_ids (request_artifact_ids r) "artifact";
  _ ← require_unique (request_artifact_ids r) "verification artifact references must be unique";
  _ ← require (1 <=? request_policy_version r)%Z (ValueError "verification policy_version must be >= 1");
  _ ← require_nonblank (request_stage_id r) "verification stage_id";
  _ ← require_nonblank (request_correlation_id r) "verification correlation_id";
  _ ← optional_nonblank (request_requested_capability_ref r) "requested_capability_ref";
  _ ← require (0 <=? request_repair_attempt r)%Z (ValueError "repair_attempt must be >= 0");
  _ ← require_aware (request_created_at r) "verification created_at";
  _ ← (match request_expires_at r with
       | Some expires_at =>
           _ ← require_aware expires_at "verification expires_at";
           require (negb (dt_leb expires_at (request_created_at r)))
             (ValueError "verification expires_at must follow created_at")
       | None => Ok tt
       end);
  let subject := request_subject r in
  _ ← require (negb (String.eqb (VerificationSubject_subject_type subject) "result" &&
                     negb (bool_decide (request_result_id r = Some (VerificationSubject_subject_id subject)))))
        (ValueError "result subject must match result_id");
  _ ← require (negb (String.eqb (VerificationSubject_subject_type subject) "artifact" &&
                     negb (in_strs (VerificationSubject_subject_id subject) (request_artifact_ids r))))
        (ValueError "artifact subject must be present in artifact_ids");
  Ok r.

(** [replace(request, status=...)]: the constructor's checks do not read the status, so they hold of
    the copy as they did of the stored request ([request_set_status_ok]). *)
Definition request_set_status (status : VerificationRequestStatus) (r : VerificationRequest) : VerificationRequest :=
  Build_VerificationRequest (request_task_id r) (request_policy_id r) (request_policy_version r)
    (request_stage_id r) (request_subject r) (request_requested_verifier_kind r)
    (request_correlation_id r) (request_verification_id r) (request_run_id r) (request_result_id r)
    (request_artifact_ids r) (request_project_id r) (request_capability_ids r)
    (request_requested_capability_ref r) (request_producer r) (request_repair_attempt r) status
    (request_created_at r) (request_expires_at r) (request_causation_id r).

Lemma request_set_status_ok status r :
  VerificationRequest_post_init r = Ok r ->
  VerificationRequest_post_init (request_set_status status r) = Ok (request_set_status status r).
Proof.
  intros H.
  assert (VerificationRequest_post_init (request_set_status status r) =
          (_ ← VerificationRequest_post_init r; Ok (request_set_status status r))) as ->; [|by rewrite H].
  unfold VerificationRequest_post_init. destruct r; cbn [request_set_status request_task_id request_policy_id
    request_policy_version request_stage_id request_subject request_correlation_id request_verification_id
    request_run_id request_result_id request_artifact_ids request_project_id request_capability_ids
    request_requested_capability_ref request_repair_attempt request_created_at request_expires_at].
  repeat match goal with |- (?m ≫= _) = _ => destruct m; cbn [mbind result_bind]; [|done] end. done.
Qed.

Record VerificationFinding := Build_VerificationFinding {
  finding_code : string;
  finding_message : string;
  finding_severity : string;
  finding_location_ref : option string
}.

Definition VerificationFinding_post_init (f : VerificationFinding) : res VerificationFinding :=
  _ ← require_nonblank (finding_code f) "verification finding code";
  _ ← require_nonblank (finding_message f) "verification finding message";
  _ ← require_nonblank (finding_severity f) "verification finding severity";
  _ ← optional_nonblank (finding_location_ref f) "verification finding location_ref";
  Ok f.

Record VerificationError := Build_VerificationError {
  verror_code : string;
  verror_message : string;
  verror_retryable : bool
}.

Definition VerificationError_post_init (e : VerificationError) : res VerificationError :=
  _ ← require_nonblank (verror_code e) "verification error code";
  _ ← require_nonblank (verror_message e) "verification error message";
  Ok e.

Record VerificationResult := Build_VerificationResult {
  result_verification_id : string;
  result_verifier : VerifierIdentity;
  result_outcome : VerificationOutcome;
  result_subject : VerificationSubject;
  result_verification_result_id : string;
  result_findings : list VerificationFinding;
  result_evidence_artifact_ids : list string;
  result_evidence_bindings : list VerificationSubject;
  result_checks_executed : list string;
  result_errors : list VerificationError;
  result_started_at : datetime;
  result_completed_at : datetime;
  result_metadata : dict
}.

Definition VerificationResult_post_init (r : VerificationResult) : res VerificationResult :=
  let evidence := result_evidence_artifact_ids r in
  let binding_ids := map VerificationSubject_subject_id (result_evidence_bindings r) in
  _ ← validate_id (result_verification_result_id r) "verification_result";
  _ ← validate_id (result_verification_id r) "verification";
  _ ← validate_ids evidence "artifact";
  _ ← require_unique evidence "verification evidence artifact IDs must be unique";
  _ ← map_res (fun binding =>
        _ ← require (String.eqb (VerificationSubject_subject_type binding) "artifact")
              (ValueError "verification evidence bindings must reference artifacts");
        require (in_strs (VerificationSubject_subject_id binding) evidence)
          (ValueError "verification evidence binding must reference an evidence artifact ID"))
        (result_evidence_bindings r);
  _ ← require_unique binding_ids "verification evidence bindings must be unique";
  _ ← require (bool_decide (binding_ids = []) || bool_decide (binding_ids = evidence))
        (ValueError "verification evidence bindings must cover evidence artifact IDs in order");
  _ ← require_all_nonblank (result_checks_executed r) "verification check name";
  _ ← require_unique (result_checks_executed r) "verification checks_executed must be unique";
  _ ← require_aware (result_started_at r) "verification started_at";
  _ ← require_aware (result_completed_at r) "verification completed_at";
  _ ← require (negb (dt_ltb (result_completed_at r) (result_started_at r)))
        (ValueError "verification completed_at cannot precede started_at");
  Ok r.

Definition evidence_bindings_complete (r : VerificationResult) : bool :=
  Nat.eqb (length (result_evidence_bindings r)) (length (result_evidence_artifact_ids r)) &&
  bool_decide (map VerificationSubject_subject_id (result_evidence_bindings r) = result_evidence_artifact_ids r).

(** ** Assessments *)

Record CompletionAssessment := Build_CompletionAssessment {
  assessment_task_id : string;
  assessment_subject : VerificationSubject;
  assessment_state : CompletionState;
  assessment_reason : string;
  assessment_policy_id : option string;
  assessment_policy_version : option Z;
  assessment_blocking_verification_ids : list string;
  assessment_repair_attempts_remaining : Z
}.

Definition CompletionAssessment_post_init (a : CompletionAssessment) : res CompletionAssessment :=
  _ ← validate_id (assessment_task_id a) "task";
  _ ← require_nonblank (assessment_reason a) "completion assessment reason";
  _ ← (match assessment_policy_id a with
       | Some policy_id =>
           _ ← validate_id policy_id "verification_policy";
           require (match assessment_policy_version a with Some v => (1 <=? v)%Z | None => false end)
             (ValueError "completion assessment policy requires version >= 1")
       | None => require (bool_decide (assessment_policy_version a = None))
                   (ValueError "policy_version requires policy_id")
       end);
  _ ← validate_ids (assessment_blocking_verification_ids a) "verification";
  _ ← require (0 <=? assessment_repair_attempts_remaining a)%Z
        (ValueError "repair_attempts_remaining must be >= 0");
  Ok a.

(** ** Audit events: verification/audit.py *)

Record VerificationAuditEvent := Build_VerificationAuditEvent {
  audit_event_type : VerificationAuditEventType;
  audit_event_id : string;
  audit_occurred_at : datetime;
  audit_task_id : option string;
  audit_verification_id : option string;
  audit_run_id : option string;
  audit_project_id : option string;
  audit_policy_id : option string;
  audit_policy_version : option Z;
  audit_stage_id : option string;
  audit_subject : option VerificationSubject;
  audit_requested_verifier_kind : option VerifierKind;
  audit_verifier : option VerifierIdentity;
  audit_outcome : option VerificationOutcome;
  audit_repair_attempt : Z;
  audit_correlation_id : option string;
  audit_causation_id : option string;
  audit_evidence_artifact_ids : list string;
  audit_checks_executed : list string;
  audit_metadata : dict
}.

(** [_optional_nonblank] of audit.py *)
Definition audit_optional_nonblank (value : option string) (field_name : string) : res unit :=
  match value with
  | Some v => require (negb (blank v)) (ValueError (field_name +:+ " must not be blank when provided"))
  | None => Ok tt
  end.

Definition VerificationAuditEvent_post_init (e : VerificationAuditEvent) : res VerificationAuditEvent :=
  _ ← validate_id (audit_event_id e) "verification_audit";
  _ ← require_aware (audit_occurred_at e) "verification audit occurred_at";
  _ ← validate_optional_id (audit_task_id e) "task";
  _ ← validate_optional_id (audit_verification_id e) "verification";
  _ ← validate_optional_id (audit_run_id e) "run";
  _ ← validate_optional_id (audit_project_id e) "project";
  _ ← (match audit_policy_id e with
       | Some policy_id =>
           _ ← validate_id policy_id "verification_policy";
           require (match audit_policy_version e with Some v => (1 <=? v)%Z | None => false end)
             (ValueError "verification audit policy requires version >= 1")
       | None => require (bool_decide (audit_policy_version e = None))
                   (ValueError "verification audit policy_version requires policy_id")
       end);
  _ ← audit_optional_nonblank (audit_stage_id e) "verification audit stage_id";
  _ ← audit_optional_nonblank (audit_correlation_id e) "verification audit correlation_id";
  _ ← audit_optional_nonblank (audit_causation_id e) "verification audit causation_id";
  _ ← require (0 <=? audit_repair_attempt e)%Z (ValueError "verification audit repair_attempt must be >= 0");
  _ ← validate_ids (audit_evidence_artifact_ids e) "artifact";
  _ ← require (forallb (fun check => negb (blank check)) (audit_checks_executed e))
        (ValueError "verification audit checks_executed must not contain blanks");
  Ok e.
