(* ===== verification/VerificationService.v ===== *)
(** * The verification authority: verification/verification_authority.py

    The class [VerificationService]: a record of its fields, one method per definition, over the
    state monad of StateMonad.v. The clock and the UUIDs are functions of the number of draws. *)

From Stdlib Require Import SpecFloat.
From stdpp Require Import sorting.
From S2P Require Import Prelude PyValue Errors StateMonad Freeze Ident Lifecycle Domain Contracts.
From S2P Require Import PyTime VerificationModels.

Record VerificationService := Build_VerificationService {
  svc_require_canonical_subjects : bool;
  svc_require_canonical_results : bool;
  svc_policies : gmap (string * Z) VerificationPolicy;
  svc_requests : list (string * VerificationRequest);     (* a dict: iterated in insertion order *)
  svc_results : gmap string VerificationResult;
  svc_result_by_verification : gmap string string;
  svc_audit_events : list VerificationAuditEvent;
  svc_draws : nat
}.

(** [VerificationService(...)] *)
Definition new_service (canonical_subjects canonical_results : bool) : VerificationService :=
  Build_VerificationService canonical_subjects canonical_results ∅ [] ∅ ∅ [] 0.

Definition svc_set_policies x s := Build_VerificationService (svc_require_canonical_subjects s)
  (svc_require_canonical_results s) x (svc_requests s) (svc_results s) (svc_result_by_verification s)
  (svc_audit_events s) (svc_draws s).
Definition svc_set_requests x s := Build_VerificationService (svc_require_canonical_subjects s)
  (svc_require_canonical_results s) (svc_policies s) x (svc_results s) (svc_result_by_verification s)
  (svc_audit_events s) (svc_draws s).
Definition svc_set_results x y s := Build_VerificationService (svc_require_canonical_subjects s)
  (svc_require_canonical_results s) (svc_policies s) (svc_requests s) x y (svc_audit_events s) (svc_draws s).
Definition svc_set_audit x s := Build_VerificationService (svc_require_canonical_subjects s)
  (svc_require_canonical_results s) (svc_policies s) (svc_requests s) (svc_results s)
  (svc_result_by_verification s) x (svc_draws s).
Definition svc_set_draws x s := Build_VerificationService (svc_require_canonical_subjects s)
  (svc_require_canonical_results s) (svc_policies s) (svc_requests s) (svc_results s)
  (svc_result_by_verification s) (svc_audit_events s) x.

(** ** Pure helpers *)

(** [existing != policy]: the fields of the two dataclasses, floats and JSON metadata by value. *)
Definition seconds_eqb (a b : option spec_float) : bool :=
  match a, b with Some x, Some y => SFeqb x y | None, None => true | _, _ => false end.
Definition provenance_eqb (a b : option Provenance) : bool :=
  match a, b with
  | Some x, Some y =>
      String.eqb (Provenance_source x) (Provenance_source y) &&
      bool_decide (Provenance_actor_ref x = Provenance_actor_ref y) &&
      py_eqb (VMap MProxy (Provenance_details x)) (VMap MProxy (Provenance_details y))
  | None, None => true
  | _, _ => false
  end.

#[export] Instance VerificationScope_eq_dec : EqDecision VerificationScope.
Proof. solve_decision. Defined.
#[export] Instance ReviewerIndependence_eq_dec : EqDecision ReviewerIndependence.
Proof. solve_decision. Defined.
#[export] Instance VerificationStage_eq_dec : EqDecision VerificationStage.
Proof. solve_decision. Defined.

Definition policy_eqb (p q : VerificationPolicy) : bool :=
  String.eqb (policy_name p) (policy_name q) &&
  bool_decide (policy_stages p = policy_stages q) &&
  String.eqb (policy_policy_id p) (policy_policy_id q) &&
  (policy_version p =? policy_version q)%Z &&
  bool_decide (policy_scope p = policy_scope q) &&
  bool_decide (policy_independence p = policy_independence q) &&
  bool_decide (policy_risk_classification p = policy_risk_classification q) &&
  (policy_max_repair_attempts p =? policy_max_repair_attempts q)%Z &&
  seconds_eqb (policy_request_timeout_seconds p) (policy_request_timeout_seconds q) &&
  seconds_eqb (policy_result_expiry_seconds p) (policy_result_expiry_seconds q) &&
  bool_decide (policy_failure_policy p = policy_failure_policy q) &&
  bool_decide (policy_timeout_failure_policy p = policy_timeout_failure_policy q) &&
  bool_decide (policy_creator_ref p = policy_creator_ref q) &&
  bool_decide (policy_created_at p = policy_created_at q) &&
  provenance_eqb (policy_provenance p) (policy_provenance q) &&
  py_eqb (VMap MProxy (policy_metadata p)) (VMap MProxy (policy_metadata q)).

(** [_require_policy_scope] *)
Definition require_policy_scope (policy : VerificationPolicy) (task_id : string) (project_id : option string)
    (capability_ids : list string) (producer : option ProducerIdentity) : res unit :=
  let scope := policy_scope policy in
  let applies (ids : list string) (b : bool) := bool_decide (ids = []) || b in
  let optional_in (o : option string) (ids : list string) :=
    match o with Some x => in_strs x ids | None => false end in
  _ ← require (applies (VerificationScope_task_ids scope) (in_strs task_id (VerificationScope_task_ids scope)))
        (contract_error FORBIDDEN "verification policy does not apply to this task");
  _ ← require (applies (VerificationScope_project_ids scope)
                 (optional_in project_id (VerificationScope_project_ids scope)))
        (contract_error FORBIDDEN "verification policy does not apply to this project");
  _ ← require (applies (VerificationScope_capability_ids scope)
                 (existsb (fun c => in_strs c (VerificationScope_capability_ids scope)) capability_ids))
        (contract_error FORBIDDEN "verification policy does not apply to these capabilities");
  require (applies (VerificationScope_agent_ids scope)
             (optional_in (producer ≫= producer_agent_id) (VerificationScope_agent_ids scope)))
    (contract_error FORBIDDEN "verification policy does not apply to this producer agent").

(** Two optional identities that are both known and differ; the first message is for an unknown one. *)
Definition require_distinct (reviewer producer : option string) (unproved same : string) : res unit :=
  match producer, reviewer with
  | Some p, Some v => require (negb (String.eqb v p)) (contract_error FORBIDDEN same)
  | _, _ => Err (contract_error FORBIDDEN unproved)
  end.

Definition when (b : bool) (r : res unit) : res unit := if b then r else Ok tt.

(** [_enforce_independence] *)
Definition risk_forbids_self (policy : VerificationPolicy) : bool :=
  bool_decide (policy_risk_classification policy ∈
               forbid_self_verification_risk_classes (policy_independence policy)).
Definition requires_producer (policy : VerificationPolicy) (verifier : VerifierIdentity) : bool :=
  let rules := policy_independence policy in
  (producer_agent_must_differ rules && bool_decide (verifier_kind verifier = V_AGENT)) ||
  model_must_differ rules || provider_must_differ rules ||
  (human_reviewer_must_differ rules && bool_decide (verifier_kind verifier = V_HUMAN)) ||
  forbid_self_verification rules || risk_forbids_self policy.

Definition enforce_independence (policy : VerificationPolicy) (request : VerificationRequest)
    (verifier : VerifierIdentity) : res unit :=
  let rules := policy_independence policy in
  let agent := bool_decide (verifier_kind verifier = V_AGENT) in
  let human := bool_decide (verifier_kind verifier = V_HUMAN) in
  _ ← when (agent && agent_reviewer_must_be_read_only rules)
        (require (verifier_read_only verifier)
           (contract_error FORBIDDEN "verification policy requires read-only reviewer-agent capabilities"));
  match request_producer request with
  | None => require (negb (requires_producer policy verifier))
              (contract_error FORBIDDEN "verification policy cannot prove required producer identity")
  | Some producer =>
      _ ← when (producer_agent_must_differ rules && agent)
            (require_distinct (verifier_agent_id verifier) (producer_agent_id producer)
               "verification policy cannot prove producer/reviewer agent independence"
               "verification policy requires reviewer agent to differ from producer");
      _ ← when (model_must_differ rules)
            (require_distinct (verifier_model_config_id verifier) (producer_model_config_id producer)
               "verification policy cannot prove reviewer model independence"
               "verification policy requires reviewer model to differ from producer model");
      _ ← when (provider_must_differ rules)
            (require_distinct (verifier_provider_id verifier) (producer_provider_id producer)
               "verification policy cannot prove reviewer provider independence"
               "verification policy requires reviewer provider to differ from producer provider");
      _ ← when (human_reviewer_must_differ rules && human)
            (require (negb (String.eqb (verifier_verifier_ref verifier) (producer_actor_ref producer)))
               (contract_error FORBIDDEN "verification policy requires a separate human reviewer"));
      when (forbid_self_verification rules || risk_forbids_self policy)
        (require (negb (String.eqb (verifier_verifier_ref verifier) (producer_actor_ref producer) ||
                        agent && match producer_agent_id producer with
                                 | Some a => bool_decide (verifier_agent_id verifier = Some a)
                                 | None => false
                                 end))
           (contract_error FORBIDDEN "verification policy forbids self-verification"))
  end.

(** [_distinct_verifier_key] *)
Definition distinct_verifier_key (v : VerifierIdentity) : res string :=
  match verifier_kind v with
  | V_AGENT => match verifier_agent_id v with
               | Some a => Ok ("agent:" +:+ a)
               | None => Err (AssertionError "")
               end
  | V_HUMAN => Ok ("human:" +:+ verifier_verifier_ref v)
  | V_PROVIDER => Ok ("provider:" +:+ or_else (verifier_provider_id v) "unknown-provider" +:+ ":" +:+
                      verifier_verifier_ref v)
  | V_DETERMINISTIC => Ok ("deterministic:" +:+ verifier_verifier_ref v)
  end.

(** [_failure_state_for] and [_failure_state] *)
Definition failure_state_for (p : VerificationFailurePolicy) : CompletionState :=
  match p with FP_WAIT => C_WAITING | FP_ESCALATE => C_ESCALATED | FP_FAIL => C_REJECTED end.
Definition failure_state (policy : VerificationPolicy) : CompletionState :=
  failure_state_for (policy_failure_policy policy).

(** ** Reading the stored evidence *)

(** [result_for] *)
Definition result_for (s : VerificationService) (verification_id : string) : res (option VerificationResult) :=
  match svc_result_by_verification s !! verification_id with
  | None => Ok None
  | Some result_id =>
      match svc_results s !! result_id with
      | Some r => Ok (Some r)
      | None => Err (KeyError result_id)
      end
  end.

(** The test for expiry, and the request as it is seen at [now]. *)
Definition overdue (now : datetime) (r : VerificationRequest) : bool :=
  bool_decide (request_status r = Q_PENDING) &&
  match request_expires_at r with Some e => dt_leb e now | None => false end.
Definition seen_at (now : datetime) (r : VerificationRequest) : VerificationRequest :=
  if overdue now r then request_set_status Q_EXPIRED r else r.

Definition request_matches (task_id : string) (subject : VerificationSubject) (policy : VerificationPolicy)
    (stage_id : string) (stored : VerificationRequest) : bool :=
  String.eqb (request_task_id stored) task_id &&
  String.eqb (request_policy_id stored) (policy_policy_id policy) &&
  (request_policy_version stored =? policy_version policy)%Z &&
  String.eqb (request_stage_id stored) stage_id &&
  bool_decide (request_subject stored = subject).

(** [_matching_stage_requests] *)
Definition matching_stage_requests (s : VerificationService) (task_id : string) (subject : VerificationSubject)
    (policy : VerificationPolicy) (stage_id : string) (now : datetime) : list VerificationRequest :=
  map (seen_at now) (List.filter (request_matches task_id subject policy stage_id) (map snd (svc_requests s))).

(** Has the result expired at [now]? *)
Definition result_expired (policy : VerificationPolicy) (now : datetime) (r : VerificationResult) : res bool :=
  match policy_result_expiry_seconds policy with
  | None => Ok false
  | Some seconds =>
      us ← timedelta_us seconds;
      expires_at ← dt_add (result_completed_at r) us;
      Ok (dt_leb expires_at now)
  end.

Fixpoint collect_results (s : VerificationService) (policy : VerificationPolicy) (now : datetime)
    (requests : list VerificationRequest) : res (list (VerificationRequest * VerificationResult)) :=
  match requests with
  | [] => Ok []
  | request :: requests' =>
      result ← result_for s (request_verification_id request);
      match result with
      | None => collect_results s policy now requests'
      | Some result =>
          expired ← result_expired policy now result;
          rest ← collect_results s policy now requests';
          Ok (if (expired : bool) then rest else (request, result) :: rest)
      end
  end.

(** [_matching_stage_results] *)
Definition matching_stage_results (s : VerificationService) (task_id : string) (subject : VerificationSubject)
    (policy : VerificationPolicy) (stage_id : string) (now : datetime) :
    res (list (VerificationRequest * VerificationResult)) :=
  collect_results s policy now (matching_stage_requests s task_id subject policy stage_id now).

Definition has_outcome (o : VerificationOutcome) (m : VerificationRequest * VerificationResult) : bool :=
  bool_decide (result_outcome m.2 = o).
Definition ids_with (o : VerificationOutcome) (matching : list (VerificationRequest * VerificationResult)) : list string :=
  map (fun m => request_verification_id m.1) (List.filter (has_outcome o) matching).
(** [max((request.repair_attempt for ...), default=0)] *)
Definition max_attempt (d : Z) (matching : list (VerificationRequest * VerificationResult)) : Z :=
  match matching with
  | [] => d
  | m :: l => foldl (fun acc m => Z.max acc (request_repair_attempt m.1)) (request_repair_attempt m.1) l
  end.

(** ** [assess_completion] *)

Section assess.
Context (s : VerificationService) (task_id : string) (subject : VerificationSubject).
Context (policy_id : string) (version : Z) (policy : VerificationPolicy) (current : datetime).

Definition assessment (state : CompletionState) (reason : string) (blocking : list string) (remaining : Z) :
    res CompletionAssessment :=
  CompletionAssessment_post_init
    (Build_CompletionAssessment task_id subject state reason (Some policy_id) (Some version)
       blocking remaining).

Definition remaining_after (attempt : Z) : Z := Z.max 0 (policy_max_repair_attempts policy - attempt).

Definition changes_requested (matching : list (VerificationRequest * VerificationResult)) (attempt : Z) :
    res CompletionAssessment :=
  let remaining := remaining_after attempt in
  assessment (if (0 <? remaining)%Z then C_REPAIR_REQUIRED else failure_state policy)
    (if (0 <? remaining)%Z then "verification requested changes" else "verification repair limit exhausted")
    (ids_with O_NEEDS_CHANGES matching) remaining.

Definition stage_results (stage : VerificationStage) : res (list (VerificationRequest * VerificationResult)) :=
  matching_stage_results s task_id subject policy (stage_stage_id stage) current.

(** The first stage in order that satisfies the test. *)
Definition first_stage (test : VerificationStage -> list (VerificationRequest * VerificationResult) -> bool)
    (stages : list (VerificationStage * list (VerificationRequest * VerificationResult))) :=
  List.find (fun sm => test sm.1 sm.2) stages.

Definition critical_failure (stage : VerificationStage) (matching : list (VerificationRequest * VerificationResult)) : bool :=
  stage_critical stage && existsb (has_outcome O_FAIL) matching.
Definition wants_changes (stage : VerificationStage) (matching : list (VerificationRequest * VerificationResult)) : bool :=
  existsb (has_outcome O_NEEDS_CHANGES) matching.

Definition accepted_results (stage : VerificationStage) (matching : list (VerificationRequest * VerificationResult)) :
    list (VerificationRequest * VerificationResult) :=
  List.filter (fun m => bool_decide (result_outcome m.2 ∈ stage_accepted_outcomes stage)) matching.

Definition accepted_count (stage : VerificationStage) (matching : list (VerificationRequest * VerificationResult)) : res Z :=
  let accepted := accepted_results stage matching in
  if require_distinct_verifiers (policy_independence policy) then
    keys ← map_res (fun m => distinct_verifier_key (result_verifier m.2)) accepted;
    Ok (Z.of_nat (length (remove_dups keys)))
  else Ok (Z.of_nat (length accepted)).

(** A stage with too few accepted results: timed out, or still incomplete. *)
Definition stage_incomplete (stage : VerificationStage) (attempt : Z) : res CompletionAssessment :=
  let stage_requests := matching_stage_requests s task_id subject policy (stage_stage_id stage) current in
  let expired := List.filter (fun r => bool_decide (request_status r = Q_EXPIRED)) stage_requests in
  if negb (bool_decide (length expired = 0)) then
    assessment (failure_state_for (policy_timeout_failure_policy policy))
      ("verification stage " +:+ py_repr (stage_stage_id stage) +:+ " timed out")
      (map request_verification_id expired) (remaining_after attempt)
  else
    assessment C_WAITING ("verification stage " +:+ py_repr (stage_stage_id stage) +:+ " is incomplete")
      (map request_verification_id stage_requests) (remaining_after attempt).

(** The last loop of [assess_completion], which evaluates the stages in order. *)
Fixpoint evaluate_stages (stages : list VerificationStage) (attempt : Z) : res CompletionAssessment :=
  match stages with
  | [] => assessment C_ACCEPTED "all required verification stages passed" [] (remaining_after attempt)
  | stage :: stages' =>
      matching ← stage_results stage;
      let attempt := match matching with [] => attempt | _ => Z.max attempt (max_attempt 0 matching) end in
      if wants_changes stage matching then changes_requested matching attempt
      else if critical_failure stage matching then
        assessment (failure_state policy) "critical verification stage failed" (ids_with O_FAIL matching) 0
      else
        count ← accepted_count stage matching;
        if (count <? stage_minimum_results stage)%Z then stage_incomplete stage attempt
        else evaluate_stages stages' attempt
  end.

Definition assess_stages : res CompletionAssessment :=
  stage_matches ← map_res (fun stage => m ← stage_results stage; Ok (stage, m)) (policy_stages policy);
  let observed := max_attempt 0 (concat (map snd stage_matches)) in
  match first_stage critical_failure stage_matches with
  | Some (_, matching) =>
      assessment (failure_state policy) "critical verification stage failed" (ids_with O_FAIL matching)
        (remaining_after observed)
  | None =>
      match first_stage wants_changes stage_matches with
      | Some (_, matching) => changes_requested matching observed
      | None => evaluate_stages (policy_stages policy) 0
      end
  end.
End assess.

Definition get_policy (s : VerificationService) (policy_id : string) (version : Z) : res VerificationPolicy :=
  match svc_policies s !! (policy_id, version) with
  | Some p => Ok p
  | None => Err (contract_error NOT_FOUND "verification policy was not found")
  end.

(** [assess_completion] at the time [current]; it changes nothing. *)
Definition assess_completion (s : VerificationService) (task_id : string) (subject : VerificationSubject)
    (policy_id : option string) (version : option Z) (current : datetime) : res CompletionAssessment :=
  match policy_id, version with
  | None, Some _ => Err (ValueError "policy_version requires policy_id")
  | None, None =>
      CompletionAssessment_post_init
        (Build_CompletionAssessment task_id subject C_ACCEPTED "no verification policy is required" None None [] 0)
  | Some _, None => Err (ValueError "policy_id requires policy_version")
  | Some policy_id, Some version =>
      policy ← get_policy s policy_id version;
      _ ← require (is_aware current) (ValueError "completion assessment time must be timezone-aware");
      match policy_stages policy with
      | [] =>
          CompletionAssessment_post_init
            (Build_CompletionAssessment task_id subject C_ACCEPTED
               "verification policy contains no required stages" (Some policy_id) (Some version) [] 0)
      | _ => assess_stages s task_id subject policy_id version policy current
      end
  end.

(** ** Methods that change the service *)

Section methods.
Context (utcnow : nat -> Z) (uuid : nat -> string).

Definition draw {A} (f : nat -> A) : st VerificationService A := fun s =>
  (Ok (f (svc_draws s)), svc_set_draws (S (svc_draws s)) s).
(** [new_id(prefix)] and [now or datetime.now(UTC)] *)
Definition fresh_id (prefix : string) : st VerificationService string := draw (fun n => id_of_uuid prefix (uuid n)).
Definition now_or (now : option datetime) : st VerificationService datetime :=
  match now with Some d => mret d | None => draw (fun n => Aware (utcnow n)) end.

(** [self._audit_events.append(VerificationAuditEvent(...))] *)
Definition append_audit (make : string -> VerificationAuditEvent) : st VerificationService unit :=
  event_id ← fresh_id "verification_audit";
  e ← of_res (VerificationAuditEvent_post_init (make event_id));
  modify (fun s => svc_set_audit (svc_audit_events s ++ [e]) s).

(** The audit event about a request; the fields that a call leaves out have their defaults. *)
Definition request_audit (event_type : VerificationAuditEventType) (occurred_at : datetime)
    (r : VerificationRequest) (causation_id : option string) (metadata : dict) (event_id : string) : VerificationAuditEvent :=
  Build_VerificationAuditEvent event_type event_id occurred_at (Some (request_task_id r))
    (Some (request_verification_id r)) (request_run_id r) (request_project_id r)
    (Some (request_policy_id r)) (Some (request_policy_version r)) (Some (request_stage_id r))
    (Some (request_subject r)) (Some (request_requested_verifier_kind r)) None None
    (request_repair_attempt r) (Some (request_correlation_id r)) causation_id [] [] metadata.

Definition store_request (r : VerificationRequest) : st VerificationService unit :=
  modify (fun s => svc_set_requests (dict_set (request_verification_id r) r (svc_requests s)) s).

Definition strs_value (l : list string) : pyval := VSeq SList (map VStr l).

(** [register_policy] *)
Definition register_policy (policy : VerificationPolicy) : st VerificationService VerificationPolicy :=
  let key := (policy_policy_id policy, policy_version policy) in
  existing ← gets (fun s => svc_policies s !! key);
  _ ← ensure (match existing with Some p => policy_eqb p policy | None => true end)
        (contract_error CONFLICT "verification policy version already exists with different content");
  _ ← modify (fun s => svc_set_policies (<[key := policy]> (svc_policies s)) s);
  _ ← (match existing with
       | Some _ => mret tt
       | None => append_audit (fun event_id =>
           Build_VerificationAuditEvent AE_POLICY_REGISTERED event_id (policy_created_at policy) None None None
             None (Some (policy_policy_id policy)) (Some (policy_version policy)) None None None None None 0
             None None [] []
             [("creator_ref", optional_value (policy_creator_ref policy));
              ("provenance_source", optional_value (Provenance_source <$> policy_provenance policy))])
       end);
  mret policy.

(** The keyword arguments of [request_verification] that describe the work under review. *)
Record RequestContext := Build_RequestContext {
  rc_correlation_id : string;
  rc_run_id : option string;
  rc_result_id : option string;
  rc_artifact_ids : list string;
  rc_project_id : option string;
  rc_capability_ids : list string;
  rc_producer : option ProducerIdentity;
  rc_causation_id : option string
}.

(** [expires_at] of a new request. *)
Definition request_expiry (policy : VerificationPolicy) (current : datetime) : res (option datetime) :=
  match policy_request_timeout_seconds policy with
  | None => Ok None
  | Some seconds => us ← timedelta_us seconds; t ← dt_add current us; Ok (Some t)
  end.

(** [request_verification]; [canonical] says whether the caller holds the subject token. *)
Definition request_verification (task_id policy_id : string) (version : Z) (stage_id : string)
    (subject : VerificationSubject) (rc : RequestContext) (repair_attempt : Z) (now : option datetime)
    (canonical : bool) : st VerificationService VerificationRequest :=
  s ← gets id;
  _ ← ensure (negb (svc_require_canonical_subjects s && negb canonical))
        (contract_error FORBIDDEN "raw verification subjects are disabled; use CanonicalVerificationRuntime");
  policy ← of_res (get_policy s policy_id version);
  stage ← of_res (match policy_stage policy stage_id with
                  | Ok stage => Ok stage
                  | Err _ => Err (contract_error INVALID_REQUEST "verification stage was not found")
                  end);
  current ← now_or now;
  _ ← ensure (is_aware current) (ValueError "verification request time must be timezone-aware");
  _ ← ensure (repair_attempt <=? policy_max_repair_attempts policy)%Z
        (contract_error CONFLICT "verification repair limit exhausted");
  _ ← of_res (require_policy_scope policy task_id (rc_project_id rc) (rc_capability_ids rc) (rc_producer rc));
  expires_at ← of_res (request_expiry policy current);
  verification_id ← fresh_id "verification";
  request ← of_res (VerificationRequest_post_init
    (Build_VerificationRequest task_id (policy_policy_id policy) (policy_version policy) (stage_stage_id stage)
       subject (stage_verifier_kind stage) (rc_correlation_id rc) verification_id (rc_run_id rc)
       (rc_result_id rc) (rc_artifact_ids rc) (rc_project_id rc) (rc_capability_ids rc)
       (stage_capability_ref stage) (rc_producer rc) repair_attempt Q_PENDING current expires_at
       (rc_causation_id rc)));
  _ ← store_request request;
  _ ← append_audit (request_audit
        (if (0 <? request_repair_attempt request)%Z then AE_REVERIFICATION_REQUESTED else AE_REQUESTED)
        (request_created_at request) request (request_causation_id request)
        [("result_id", optional_value (request_result_id request));
         ("artifact_ids", strs_value (request_artifact_ids request));
         ("capability_ids", strs_value (request_capability_ids request));
         ("requested_capability_ref", optional_value (request_requested_capability_ref request))]);
  mret request.

(** [get_request]: an overdue request is marked expired when it is looked at. *)
Definition get_request (verification_id : string) (now : option datetime) : st VerificationService VerificationRequest :=
  s ← gets id;
  request ← of_res (match dict_get verification_id (svc_requests s) with
                    | Some r => Ok r
                    | None => Err (contract_error NOT_FOUND "verification request was not found")
                    end);
  current ← now_or now;
  _ ← ensure (is_aware current) (ValueError "verification lookup time must be timezone-aware");
  if overdue current request then
    let request := request_set_status Q_EXPIRED request in
    _ ← modify (fun s => svc_set_requests (dict_set verification_id request (svc_requests s)) s);
    _ ← append_audit (request_audit AE_REQUEST_EXPIRED current request (request_causation_id request) []);
    mret request
  else mret request.

(** [cancel_request] *)
Definition cancel_request (verification_id : string) (now : option datetime) (causation_id : option string) :
    st VerificationService VerificationRequest :=
  current ← now_or now;
  _ ← ensure (is_aware current) (ValueError "verification cancellation time must be timezone-aware");
  request ← get_request verification_id (Some current);
  if bool_decide (request_status request = Q_CANCELLED) then mret request
  else
    _ ← ensure (bool_decide (request_status request = Q_PENDING))
          (contract_error CONFLICT ("verification request cannot be cancelled from " +:+
             enum_value (request_status request)));
    let cancelled := request_set_status Q_CANCELLED request in
    _ ← modify (fun s => svc_set_requests (dict_set verification_id cancelled (svc_requests s)) s);
    _ ← append_audit (request_audit AE_REQUEST_CANCELLED current cancelled
          (match causation_id with
           | Some c => if String.eqb c "" then request_causation_id cancelled else Some c
           | None => request_causation_id cancelled
           end) []);
    mret cancelled.

(** The checks shared by [validate_verifier] and [submit_result]. *)
Definition not_pending (request : VerificationRequest) : exc :=
  contract_error CONFLICT ("verification request is not pending: " +:+ enum_value (request_status request)).

(** [validate_verifier] *)
Definition validate_verifier (verification_id : string) (verifier : VerifierIdentity) :
    st VerificationService VerifierIdentity :=
  request ← get_request verification_id None;
  _ ← ensure (bool_decide (request_status request = Q_PENDING)) (not_pending request);
  _ ← ensure (bool_decide (verifier_kind verifier = request_requested_verifier_kind request))
        (contract_error CONTRACT_VIOLATION "verifier kind differs from the requested verification stage");
  s ← gets id;
  policy ← of_res (get_policy s (request_policy_id request) (request_policy_version request));
  _ ← of_res (enforce_independence policy request verifier);
  mret verifier.

(** [submit_result]; [canonical] says whether the caller holds the result token. *)
Definition submit_result (result : VerificationResult) (canonical : bool) : st VerificationService VerificationResult :=
  s ← gets id;
  _ ← ensure (negb (svc_require_canonical_results s && negb canonical))
        (contract_error FORBIDDEN "raw verification results are disabled; use CanonicalVerificationRuntime");
  _ ← ensure (negb (canonical && negb (evidence_bindings_complete result)))
        (contract_error CONTRACT_VIOLATION
           "canonical verification result requires exact auxiliary evidence bindings");
  request ← get_request (result_verification_id result) None;
  _ ← ensure (bool_decide (request_status request = Q_PENDING)) (not_pending request);
  _ ← ensure (bool_decide (result_subject result = request_subject request))
        (contract_error CONTRACT_VIOLATION
           "verification result does not match the exact requested subject revision/digest");
  _ ← ensure (bool_decide (verifier_kind (result_verifier result) = request_requested_verifier_kind request))
        (contract_error CONTRACT_VIOLATION
           "verification result uses a verifier kind different from the request");
  s ← gets id;
  policy ← of_res (get_policy s (request_policy_id request) (request_policy_version request));
  _ ← of_res (enforce_independence policy request (result_verifier result));
  _ ← modify (fun s => svc_set_results (<[result_verification_result_id result := result]> (svc_results s))
        (<[request_verification_id request := result_verification_result_id result]> (svc_result_by_verification s)) s);
  _ ← store_request (request_set_status Q_COMPLETED request);
  _ ← append_audit (fun event_id =>
        Build_VerificationAuditEvent AE_RESULT_RECORDED event_id (result_completed_at result)
          (Some (request_task_id request)) (Some (request_verification_id request)) (request_run_id request)
          (request_project_id request) (Some (request_policy_id request)) (Some (request_policy_version request))
          (Some (request_stage_id request)) (Some (result_subject result))
          (Some (request_requested_verifier_kind request)) (Some (result_verifier result))
          (Some (result_outcome result)) (request_repair_attempt request)
          (Some (request_correlation_id request)) (request_causation_id request)
          (result_evidence_artifact_ids result) (result_checks_executed result)
          [("finding_count", VInt (Z.of_nat (length (result_findings result))));
           ("error_codes", strs_value (map verror_code (result_errors result)))]);
  mret result.

(** [run_deterministic]; the verifier is an argument. *)
Definition run_deterministic (verification_id : string) (verify : VerificationRequest -> res VerificationResult) :
    st VerificationService VerificationResult :=
  request ← get_request verification_id None;
  _ ← ensure (bool_decide (request_requested_verifier_kind request = V_DETERMINISTIC))
        (contract_error CONTRACT_VIOLATION "verification request does not require deterministic verification");
  result ← of_res (verify request);
  submit_result result false.

(** A [VerificationResult] with default times: [started_at] and [completed_at] read the clock. *)
Definition make_result (verification_id : string) (verifier : VerifierIdentity) (outcome : VerificationOutcome)
    (subject : VerificationSubject) (findings : list VerificationFinding) (evidence_artifact_ids : list string)
    (checks_executed : list string) : st VerificationService VerificationResult :=
  result_id ← fresh_id "verification_result";
  started_at ← now_or None;
  completed_at ← now_or None;
  of_res (VerificationResult_post_init
    (Build_VerificationResult verification_id verifier outcome subject result_id findings
       evidence_artifact_ids [] checks_executed [] started_at completed_at [])).

(** [record_human_review] *)
Definition record_human_review (verification_id reviewer_ref : string) (outcome : VerificationOutcome)
    (comment : option string) (evidence_artifact_ids : list string) : st VerificationService VerificationResult :=
  request ← get_request verification_id None;
  findings ← (match comment with
              | None => mret []
              | Some comment =>
                  _ ← ensure (negb (blank comment)) (ValueError "human review comment must not be blank");
                  f ← of_res (VerificationFinding_post_init
                        (Build_VerificationFinding "human_review_comment" comment
                           (if bool_decide (outcome = O_PASS) then "info" else "warning") None));
                  mret [f]
              end);
  verifier ← of_res (VerifierIdentity_post_init
    (Build_VerifierIdentity reviewer_ref V_HUMAN None None None None true));
  result ← make_result verification_id verifier outcome (request_subject request) findings
             evidence_artifact_ids ["human_review"];
  submit_result result false.

(** [record_agent_review] *)
Definition record_agent_review (verification_id : string) (verifier : VerifierIdentity)
    (outcome : VerificationOutcome) (findings : list VerificationFinding)
    (evidence_artifact_ids checks_executed : list string) : st VerificationService VerificationResult :=
  _ ← ensure (bool_decide (verifier_kind verifier = V_AGENT))
        (ValueError "record_agent_review requires an agent verifier identity");
  request ← get_request verification_id None;
  result ← make_result verification_id verifier outcome (request_subject request) findings
             evidence_artifact_ids checks_executed;
  submit_result result false.

(** [request_reverification_after_repair]; with [replace] the caller's project, capabilities and
    producer are used, otherwise those of the reviewed request. *)
Definition request_reverification_after_repair (verification_id : string) (new_subject : VerificationSubject)
    (rc : RequestContext) (capability_ids : option (list string)) (replace canonical : bool) :
    st VerificationService VerificationRequest :=
  s ← gets id;
  _ ← ensure (negb (svc_require_canonical_subjects s && negb canonical))
        (contract_error FORBIDDEN
           "raw repaired verification subjects are disabled; use CanonicalVerificationRuntime");
  previous ← get_request verification_id None;
  s ← gets id;
  previous_result ← of_res (result_for s verification_id);
  _ ← ensure (match previous_result with
              | Some r => bool_decide (result_outcome r = O_NEEDS_CHANGES)
              | None => false
              end)
        (contract_error CONFLICT "reverification requires a completed needs_changes result");
  policy ← of_res (get_policy s (request_policy_id previous) (request_policy_version previous));
  let next_attempt := (request_repair_attempt previous + 1)%Z in
  _ ← ensure (next_attempt <=? policy_max_repair_attempts policy)%Z
        (contract_error CONFLICT "verification repair limit exhausted");
  _ ← ensure (negb (bool_decide (new_subject = request_subject previous)))
        (contract_error INVALID_REQUEST "repair must produce a new exact subject revision or digest");
  request_verification (request_task_id previous) (request_policy_id previous) (request_policy_version previous)
    (request_stage_id previous) new_subject
    (Build_RequestContext (rc_correlation_id rc) (rc_run_id rc) (rc_result_id rc) (rc_artifact_ids rc)
       (if replace then rc_project_id rc else request_project_id previous)
       (match capability_ids with
        | Some ids => if replace then ids else request_capability_ids previous
        | None => request_capability_ids previous
        end)
       (if replace then rc_producer rc else request_producer previous) (rc_causation_id rc))
    next_attempt None canonical.
End methods.

(** [audit_history] *)
Definition audit_history (s : VerificationService) (task_id verification_id : option string) : list VerificationAuditEvent :=
  List.filter (fun e =>
    (bool_decide (task_id = None) || bool_decide (audit_task_id e = task_id)) &&
    (bool_decide (verification_id = None) || bool_decide (audit_verification_id e = verification_id)))
    (svc_audit_events s).

(** The sort key of [history]: creation time, then identifier. *)
Definition history_item := (VerificationRequest * option VerificationResult)%type.
Definition history_leb (a b : history_item) : bool :=
  let ta := instant (request_created_at a.1) in
  let tb := instant (request_created_at b.1) in
  (ta <? tb)%Z || (ta =? tb)%Z && String.leb (request_verification_id a.1) (request_verification_id b.1).
Definition history_le (a b : history_item) : Prop := Is_true (history_leb a b).

(** [history]: the task's requests with their results, in order of creation. *)
Definition task_history (s : VerificationService) (task_id : string) : res (list history_item) :=
  items ← map_res (fun r => x ← result_for s (request_verification_id r); Ok (r, x))
            (List.filter (fun r => String.eqb (request_task_id r) task_id) (map snd (svc_requests s)));
  Ok (merge_sort history_le items).
