(* ===== verification/VerificationInvariant.v ===== *)
(** * What a verification service holds in every reachable state

    The invariant of [VerificationService], that every method keeps it on both exits, and the
    states that sequences of method calls reach. *)

From Stdlib Require Import SpecFloat.
From S2P Require Import Prelude PyValue Errors StateMonad Freeze Ident Lifecycle Domain Contracts.
From S2P Require Import PyTime VerificationModels VerificationService.

(** ** Policies of equal content *)

Lemma policy_eqb_fields p q : policy_eqb p q = true ->
  policy_stages p = policy_stages q /\ policy_policy_id p = policy_policy_id q /\
  policy_version p = policy_version q /\ policy_scope p = policy_scope q /\
  policy_independence p = policy_independence q /\
  policy_risk_classification p = policy_risk_classification q /\
  policy_max_repair_attempts p = policy_max_repair_attempts q.
Proof. unfold policy_eqb. intros H. bool_props. rewrite Z.eqb_eq in *. done. Qed.

(** What of a policy decides over requests, results and verdicts, apart from its durations. *)
Definition policy_rules (p : VerificationPolicy) :=
  (policy_stages p, policy_scope p, policy_independence p, policy_risk_classification p,
   policy_max_repair_attempts p, policy_failure_policy p, policy_timeout_failure_policy p).

Lemma policy_eqb_rules p q : policy_eqb p q = true -> policy_rules p = policy_rules q.
Proof.
  unfold policy_eqb, policy_rules. intros H. bool_props. rewrite Z.eqb_eq in *. congruence.
Qed.

(** Read the fields of an updated service. *)
Ltac svc_cbn :=
  cbn [svc_require_canonical_subjects svc_require_canonical_results svc_policies svc_requests svc_results
       svc_result_by_verification svc_audit_events svc_draws svc_set_policies svc_set_requests svc_set_results
       svc_set_audit svc_set_draws].

Section invariant.
Context (utcnow : nat -> Z) (uuid : nat -> string) (bound : nat).
Context (uuid_distinct : forall n m, n < bound -> m < bound -> uuid n = uuid m -> n = m).

Definition drawn_id (prefix : string) (n : nat) : string := id_of_uuid prefix (uuid n).

Definition policy_for (s : VerificationService) (r : VerificationRequest) : option VerificationPolicy :=
  svc_policies s !! (request_policy_id r, request_policy_version r).

(** A request is well formed, made for a stage of a registered policy that applies to its task, and
    within the policy's repair limit. *)
Definition request_ok (s : VerificationService) (r : VerificationRequest) : Prop :=
  VerificationRequest_post_init r = Ok r /\
  exists p stage, policy_for s r = Some p /\ policy_stage p (request_stage_id r) = Ok stage /\
    stage_verifier_kind stage = request_requested_verifier_kind r /\
    (request_repair_attempt r <= policy_max_repair_attempts p)%Z /\
    require_policy_scope p (request_task_id r) (request_project_id r) (request_capability_ids r)
      (request_producer r) = Ok tt.

(** The recorded result of a request reviews exactly its subject, by a verifier of the requested kind
    that satisfies the policy's independence rules; and the request is completed. *)
Definition evidence_ok (s : VerificationService) (v : string) (result_id : string) : Prop :=
  exists result r p, svc_results s !! result_id = Some result /\ dict_get v (svc_requests s) = Some r /\
    request_status r = Q_COMPLETED /\ result_verification_id result = v /\
    result_verification_result_id result = result_id /\ result_subject result = request_subject r /\
    verifier_kind (result_verifier result) = request_requested_verifier_kind r /\
    policy_for s r = Some p /\ enforce_independence p r (result_verifier result) = Ok tt.

(** The code accepts a result under an identifier that was used before. The stored result is then the evidence of
    the request that it names; the requests that had the identifier earlier share it. *)
Record svc_ok (s : VerificationService) : Prop := {
  ok_policies k p : svc_policies s !! k = Some p ->
    k = (policy_policy_id p, policy_version p) /\ VerificationPolicy_post_init p = Ok p;
  ok_keys : NoDup (dict_keys (svc_requests s));
  ok_requests v r : dict_get v (svc_requests s) = Some r -> request_verification_id r = v /\ request_ok s r;
  ok_drawn v : v ∈ dict_keys (svc_requests s) -> exists n, n < svc_draws s /\ v = drawn_id "verification" n;
  ok_recorded v result_id : svc_result_by_verification s !! v = Some result_id ->
    is_Some (svc_results s !! result_id) /\
    exists r, dict_get v (svc_requests s) = Some r /\ request_status r = Q_COMPLETED;
  ok_results result_id result : svc_results s !! result_id = Some result ->
    svc_result_by_verification s !! result_verification_id result = Some result_id /\
    evidence_ok s (result_verification_id result) result_id;
  ok_completed v r : dict_get v (svc_requests s) = Some r -> request_status r = Q_COMPLETED ->
    is_Some (svc_result_by_verification s !! v)
}.

(** No two requests share a recorded result. *)
Definition results_unshared (s : VerificationService) : Prop :=
  forall v1 v2 result_id, svc_result_by_verification s !! v1 = Some result_id ->
    svc_result_by_verification s !! v2 = Some result_id -> v1 = v2.

(** What a request has for evidence, unless the result is shared. *)
Lemma unshared_evidence s v result_id :
  svc_ok s -> results_unshared s -> svc_result_by_verification s !! v = Some result_id -> evidence_ok s v result_id.
Proof.
  intros Hok Hun Hv. destruct (ok_recorded _ Hok _ _ Hv) as [[result Hresult] _].
  destruct (ok_results _ Hok _ _ Hresult) as [Hnamed Hev]. by rewrite (Hun v _ result_id Hv Hnamed).
Qed.

Lemma svc_ok_new c1 c2 : svc_ok (new_service c1 c2).
Proof.
  split; cbn.
  - intros k p. by rewrite lookup_empty.
  - constructor.
  - done.
  - by intros v H%not_elem_of_nil.
  - intros v rid. by rewrite lookup_empty.
  - intros rid result. by rewrite lookup_empty.
  - done.
Qed.

(** ** Changes of the state *)

Lemma svc_ok_draws s n : svc_ok s -> svc_draws s <= n -> svc_ok (svc_set_draws n s).
Proof.
  intros [H1 H2 H3 H4 H5 H6 H7] Hn. split; try done.
  intros v Hv. destruct (H4 v Hv) as (m & ? & ?). exists m. split; [cbn; lia|done].
Qed.

Lemma svc_ok_audit s l : svc_ok s -> svc_ok (svc_set_audit l s).
Proof. by intros [H1 H2 H3 H4 H5 H6 H7]; split. Qed.

(** A request that the constructor returned is the one it was given. *)
Lemma VerificationRequest_post_init_eq r r' : VerificationRequest_post_init r = Ok r' -> r' = r.
Proof. unfold VerificationRequest_post_init. intros H. by res_inv. Qed.

Lemma policy_stage_id p i stage : policy_stage p i = Ok stage -> stage_stage_id stage = i.
Proof.
  unfold policy_stage. destruct (List.find _ _) as [x|] eqn:Hf; [|done]. intros [= ->].
  apply List.find_some in Hf as [_ Heq]. by apply String.eqb_eq in Heq.
Qed.

(** Adding a policy, or replacing one by a policy of equal content. *)
Lemma svc_ok_policy s p :
  svc_ok s -> VerificationPolicy_post_init p = Ok p ->
  (forall q, svc_policies s !! (policy_policy_id p, policy_version p) = Some q -> policy_eqb q p = true) ->
  svc_ok (svc_set_policies (<[(policy_policy_id p, policy_version p) := p]> (svc_policies s)) s).
Proof.
  intros Hs Hp Heq. set (s' := svc_set_policies _ s).
  assert (forall r q, policy_for s r = Some q -> exists q', policy_for s' r = Some q' /\
    policy_stages q = policy_stages q' /\ policy_scope q = policy_scope q' /\
    policy_independence q = policy_independence q' /\
    policy_risk_classification q = policy_risk_classification q' /\
    policy_max_repair_attempts q = policy_max_repair_attempts q') as Hfor.
  { intros r q Hq. unfold policy_for, s'. cbn.
    destruct (decide ((policy_policy_id p, policy_version p) = (request_policy_id r, request_policy_version r))) as [E|E].
    - rewrite E, lookup_insert_eq. exists p. split; [done|].
      unfold policy_for in Hq. rewrite <- E in Hq. destruct (policy_eqb_fields q p (Heq q Hq)) as (? & ? & ? & ? & ? & ? & ?).
      done.
    - rewrite lookup_insert_ne by done. by exists q. }
  destruct Hs as [H1 H2 H3 H4 H5 H6 H7]. split; try done.
  - intros k q. cbn. destruct (decide ((policy_policy_id p, policy_version p) = k)) as [<-|E].
    + rewrite lookup_insert_eq. by intros [= <-].
    + rewrite lookup_insert_ne by done. apply H1.
  - intros v r Hv. destruct (H3 v r Hv) as [? (Hpi & q & stage & Hq & Hst & ? & ? & Hsc)]. split; [done|].
    split; [done|]. destruct (Hfor r q Hq) as (q' & Hq' & E1 & E2 & E3 & E4 & E5). exists q', stage.
    unfold policy_stage, require_policy_scope in *. rewrite <- E1, <- E2, <- E5. done.
  - intros rid res0 Hres. destruct (H6 rid res0 Hres) as [? (res & r & q & ? & ? & ? & ? & ? & ? & ? & Hq & Hind)]. split; [done|].
    destruct (Hfor r q Hq) as (q' & Hq' & E1 & E2 & E3 & E4 & E5). exists res, r, q'.
    unfold enforce_independence, requires_producer, risk_forbids_self in *. rewrite <- E3, <- E4. done.
Qed.

Lemma dict_keys_set {A} k (v : A) d : k ∈ dict_keys d -> dict_keys (dict_set k v d) = dict_keys d.
Proof.
  unfold dict_keys. induction d as [|[k1 v1] d IH]; cbn; [by intros ?%not_elem_of_nil|].
  destruct (String.eqb_spec k k1) as [->|Hne]; [done|]. intros [->|Hin]%elem_of_cons; [done|].
  cbn. by rewrite IH.
Qed.

Lemma dict_keys_new {A} k (v : A) d : k ∉ dict_keys d -> dict_keys (dict_set k v d) = dict_keys d ++ [k].
Proof.
  unfold dict_keys. induction d as [|[k1 v1] d IH]; cbn; [done|]. rewrite not_elem_of_cons. intros [Hne Hin].
  apply String.eqb_neq in Hne as ->. cbn. by rewrite IH.
Qed.

Lemma dict_get_keys {A} k (v : A) d : dict_get k d = Some v -> k ∈ dict_keys d.
Proof. intros H. destruct (decide (k ∈ dict_keys d)) as [|Hn]; [done|]. apply dict_get_None in Hn. by rewrite Hn in H. Qed.

(** A new entry hides none of the old ones. *)
Lemma dict_get_new {A} k k' (v v' : A) d : k ∉ dict_keys d -> dict_get k' d = Some v' -> dict_get k' (dict_set k v d) = Some v'.
Proof. intros Hk Hv. rewrite dict_get_set. destruct (String.eqb_spec k' k) as [->|]; [|done]. by apply dict_get_keys in Hv. Qed.

(** A request that is not pending is not affected when a pending one changes. *)
Lemma dict_get_other s v w (r r' y : VerificationRequest) :
  dict_get v (svc_requests s) = Some r -> request_status r = Q_PENDING ->
  dict_get w (svc_requests s) = Some y -> request_status y = Q_COMPLETED -> dict_get w (dict_set v r' (svc_requests s)) = Some y.
Proof. intros Hr Hp Hy Hc. rewrite dict_get_set. destruct (String.eqb_spec w v) as [->|]; [congruence|done]. Qed.

(** A new request under a fresh identifier. *)
Lemma svc_ok_request s r :
  svc_ok s -> request_ok s r -> request_verification_id r ∉ dict_keys (svc_requests s) ->
  request_status r = Q_PENDING ->
  (exists n, n < svc_draws s /\ request_verification_id r = drawn_id "verification" n) ->
  svc_ok (svc_set_requests (dict_set (request_verification_id r) r (svc_requests s)) s).
Proof.
  intros [H1 H2 H3 H4 H5 H6 H7] Hr Hnew Hpend Hdrawn.
  assert (forall v, dict_get v (svc_requests s) = None \/ v <> request_verification_id r) as Hv.
  { intros v. destruct (decide (v = request_verification_id r)) as [->|]; [left; by apply dict_get_None|by right]. }
  split; svc_cbn.
  - apply H1.
  - rewrite dict_keys_new by done. apply NoDup_app. split; [done|]. split; [|apply NoDup_singleton].
    intros x Hx ->%list_elem_of_singleton. done.
  - intros v x. rewrite dict_get_set. destruct (String.eqb_spec v (request_verification_id r)) as [->|]; [by intros [= <-]|apply H3].
  - intros v. rewrite dict_keys_new by done. rewrite elem_of_app, list_elem_of_singleton. intros [Hin| ->]; auto.
  - intros v rid Hrid. destruct (H5 v rid Hrid) as [? (x & Hx & ?)]. split; [done|]. exists x. split; [by apply dict_get_new|done].
  - intros rid result Hresult. destruct (H6 rid result Hresult) as [? (res & x & p & ? & Hx & Hrest)]. split; [done|].
    exists res, x, p. split; [done|]. split; [|done]. svc_cbn. by apply dict_get_new.
  - intros v x. rewrite dict_get_set. destruct (String.eqb_spec v (request_verification_id r)) as [->|]; [|apply H7].
    intros [= <-]. by rewrite Hpend.
Qed.

Lemma request_ok_status s r x : request_ok s r -> request_ok s (request_set_status x r).
Proof.
  intros (Hp & p & stage & H). split; [by apply request_set_status_ok|]. exists p, stage. by destruct r.
Qed.

(** A pending request that expires or is cancelled. *)
Lemma svc_ok_close s v r x :
  svc_ok s -> dict_get v (svc_requests s) = Some r -> request_status r = Q_PENDING ->
  x <> Q_COMPLETED ->
  svc_ok (svc_set_requests (dict_set v (request_set_status x r) (svc_requests s)) s).
Proof.
  intros [H1 H2 H3 H4 H5 H6 H7] Hr Hpend Hx. pose proof (dict_get_keys _ _ _ Hr) as Hin. split; svc_cbn.
  - apply H1.
  - by rewrite dict_keys_set.
  - intros w y. rewrite dict_get_set. destruct (String.eqb_spec w v) as [->|]; [|apply H3].
    intros [= <-]. destruct (H3 v r Hr) as [? Hok]. split; [by destruct r|]. by apply request_ok_status.
  - intros w. rewrite dict_keys_set by done. apply H4.
  - intros w rid Hrid. destruct (H5 w rid Hrid) as [? (y & Hy & Hc)]. split; [done|]. exists y. split; [by apply (dict_get_other s v w r)|done].
  - intros rid result Hresult. destruct (H6 rid result Hresult) as [? (res & y & p & ? & Hy & Hc & Hrest)]. split; [done|].
    exists res, y, p. split; [done|]. split; [|done]. svc_cbn. by apply (dict_get_other s v _ r).
  - intros w y. rewrite dict_get_set. destruct (String.eqb_spec w v) as [->|]; [|apply H7].
    intros [= <-] Hc. by destruct r.
Qed.

(** A pending request that receives its result, under whatever identifier. *)
Lemma svc_ok_result s v r p result :
  svc_ok s -> dict_get v (svc_requests s) = Some r -> request_status r = Q_PENDING ->
  result_verification_id result = v -> result_subject result = request_subject r ->
  verifier_kind (result_verifier result) = request_requested_verifier_kind r ->
  policy_for s r = Some p -> enforce_independence p r (result_verifier result) = Ok tt ->
  svc_ok (svc_set_requests (dict_set (request_verification_id r) (request_set_status Q_COMPLETED r) (svc_requests s))
    (svc_set_results (<[result_verification_result_id result := result]> (svc_results s))
       (<[request_verification_id r := result_verification_result_id result]> (svc_result_by_verification s)) s)).
Proof.
  intros [H1 H2 H3 H4 H5 H6 H7] Hr Hpend Hv Hsub Hk Hp Hind.
  destruct (H3 v r Hr) as [Hid Hok]. rewrite Hid. pose proof (dict_get_keys _ _ _ Hr) as Hin. split; svc_cbn.
  - apply H1.
  - by rewrite dict_keys_set.
  - intros w y. rewrite dict_get_set. destruct (String.eqb_spec w v) as [->|]; [|apply H3].
    intros [= <-]. split; [by destruct r|]. by apply request_ok_status.
  - intros w. rewrite dict_keys_set by done. apply H4.
  - intros w rid. destruct (decide (v = w)) as [<-|Hne].
    + rewrite lookup_insert_eq. intros [= <-]. rewrite lookup_insert_eq. split; [done|].
      exists (request_set_status Q_COMPLETED r). rewrite dict_get_set, String.eqb_refl. split; [done|by destruct r].
    + rewrite lookup_insert_ne by done. intros Hrid. destruct (H5 w rid Hrid) as [? (y & Hy & Hc)]. split.
      * destruct (decide (result_verification_result_id result = rid)) as [<-|]; [by rewrite lookup_insert_eq|by rewrite lookup_insert_ne].
      * exists y. split; [by apply (dict_get_other s v w r)|done].
  - intros rid res. destruct (decide (result_verification_result_id result = rid)) as [<-|Hne].
    + rewrite lookup_insert_eq. intros [= <-]. rewrite Hv, lookup_insert_eq. split; [done|].
      exists result, (request_set_status Q_COMPLETED r), p. svc_cbn.
      rewrite lookup_insert_eq, dict_get_set, String.eqb_refl. split_and!; try done; by destruct r.
    + rewrite lookup_insert_ne by done. intros Hres. destruct (H6 rid res Hres) as [Hnamed (res' & y & q & Hres' & Hy & Hc & Hrest)].
      assert (v <> result_verification_id res) as Hvne
        by (intros E; rewrite <- E, Hr in Hy; injection Hy as <-; congruence).
      rewrite lookup_insert_ne by done. split; [done|]. exists res', y, q. svc_cbn. rewrite lookup_insert_ne by done.
      split; [done|]. split; [|done]. by apply (dict_get_other s v _ r).
  - intros w y. rewrite dict_get_set. destruct (String.eqb_spec w v) as [->|Hne].
    + intros _ _. rewrite lookup_insert_eq. eauto.
    + rewrite lookup_insert_ne by done. apply H7.
Qed.

(** ** The service as a transition system

    The changes that the methods are made of. *)
Inductive svc_step (s : VerificationService) : VerificationService -> Prop :=
| step_draw n : svc_draws s <= n -> svc_step s (svc_set_draws n s)
| step_audit e : svc_step s (svc_set_audit (svc_audit_events s ++ [e]) s)
| step_policy p :
    VerificationPolicy_post_init p = Ok p ->
    (forall q, svc_policies s !! (policy_policy_id p, policy_version p) = Some q -> policy_eqb q p = true) ->
    svc_step s (svc_set_policies (<[(policy_policy_id p, policy_version p) := p]> (svc_policies s)) s)
| step_request r :
    request_ok s r -> request_verification_id r ∉ dict_keys (svc_requests s) -> request_status r = Q_PENDING ->
    (exists n, n < svc_draws s /\ request_verification_id r = drawn_id "verification" n) ->
    svc_step s (svc_set_requests (dict_set (request_verification_id r) r (svc_requests s)) s)
| step_close v r x :
    dict_get v (svc_requests s) = Some r -> request_status r = Q_PENDING -> x <> Q_COMPLETED ->
    svc_step s (svc_set_requests (dict_set v (request_set_status x r) (svc_requests s)) s)
| step_result v r p result :
    dict_get v (svc_requests s) = Some r -> request_status r = Q_PENDING ->
    result_verification_id result = v -> result_subject result = request_subject r ->
    verifier_kind (result_verifier result) = request_requested_verifier_kind r ->
    policy_for s r = Some p -> enforce_independence p r (result_verifier result) = Ok tt ->
    svc_step s (svc_set_requests (dict_set (request_verification_id r) (request_set_status Q_COMPLETED r) (svc_requests s))
      (svc_set_results (<[result_verification_result_id result := result]> (svc_results s))
         (<[request_verification_id r := result_verification_result_id result]> (svc_result_by_verification s)) s)).

Lemma svc_ok_step s s' : svc_ok s -> svc_step s s' -> svc_ok s'.
Proof.
  destruct 2; [by apply svc_ok_draws|by apply svc_ok_audit|by apply svc_ok_policy|by apply svc_ok_request
    |by apply svc_ok_close|by eapply svc_ok_result].
Qed.

(** The step binds a request to an identifier under which a result is stored already. *)
Definition reuses_result (s s' : VerificationService) : Prop :=
  exists v result_id, svc_result_by_verification s !! v = None /\
    svc_result_by_verification s' !! v = Some result_id /\ is_Some (svc_results s !! result_id).

(** Results become shared in no other way. *)
Lemma unshared_unless_reused s s' :
  svc_ok s -> svc_step s s' -> results_unshared s -> results_unshared s' \/ reuses_result s s'.
Proof.
  intros Hok Hstep Hun. destruct Hstep as [n Hn|e|p Hp Hq|r Hr Hnew Hpend Hd|v r x Hr Hpend Hx|v r p result Hr Hpend _ _ _ _ _];
    try (left; exact Hun).
  destruct (ok_requests _ Hok _ _ Hr) as [Hid _].
  assert (svc_result_by_verification s !! v = None) as Hnone.
  { destruct (svc_result_by_verification s !! v) as [i|] eqn:Hi; [|done].
    destruct (ok_recorded _ Hok _ _ Hi) as [_ (r' & Hr' & Hc)]. congruence. }
  rewrite <- Hid in Hnone.
  destruct (svc_results s !! result_verification_result_id result) as [old|] eqn:Hold.
  - right. exists (request_verification_id r), (result_verification_result_id result). cbn.
    rewrite lookup_insert_eq, Hold. split; [exact Hnone|by split].
  - left. intros v1 v2 i. cbn.
    assert (forall w, svc_result_by_verification s !! w <> Some (result_verification_result_id result)) as Hfresh.
    { intros w Hw. destruct (ok_recorded _ Hok _ _ Hw) as [[y Hy] _]. congruence. }
    destruct (decide (request_verification_id r = v1)) as [<-|H1], (decide (request_verification_id r = v2)) as [<-|H2];
      rewrite ?lookup_insert_eq, ?lookup_insert_ne by done; [done| | |apply Hun].
    + intros [= <-] Hw. by destruct (Hfresh v2).
    + intros Hw [= <-]. by destruct (Hfresh v1).
Qed.

(** ** The methods keep the invariant and make only these steps *)

Context (s_init : VerificationService).

(** As long as the UUIDs drawn so far are distinct: the invariant, and a path from the initial state. *)
Definition Inv (s : VerificationService) : Prop := svc_draws s <= bound -> svc_ok s /\ rtc svc_step s_init s.

Lemma Inv_step s s' : svc_ok s /\ rtc svc_step s_init s -> svc_step s s' -> svc_ok s' /\ rtc svc_step s_init s'.
Proof. intros [Hs Hr] Hstep. split; [by eapply svc_ok_step|by eapply rtc_r]. Qed.

(** A predicate that neither a draw nor an audit event disturbs. *)
Definition stable (P : VerificationService -> Prop) : Prop :=
  (forall s n, svc_draws s <= n -> P s -> P (svc_set_draws n s)) /\
  (forall s e, P s -> P (svc_set_audit (svc_audit_events s ++ [e]) s)).

Lemma stable_Inv : stable Inv.
Proof.
  split.
  - intros s n Hn Hs Hb. apply (Inv_step s); [apply Hs; cbn in Hb; lia|by constructor].
  - intros s e Hs Hb. apply (Inv_step s); [by apply Hs|constructor].
Qed.

Lemma stable_and P Q : stable P -> stable Q -> stable (fun s => P s /\ Q s).
Proof. intros [H1 H2] [H3 H4]. split; intros s ?; naive_solver. Qed.

Lemma stable_request v r : stable (fun s => dict_get v (svc_requests s) = Some r).
Proof. done. Qed.

Lemma stable_result (F : gmap string VerificationResult -> Prop) : stable (fun s => F (svc_results s)).
Proof. done. Qed.

Lemma keeps_draw {A} P (f : nat -> A) : stable P -> keeps P (draw f).
Proof. intros [Hd _] s Hs. apply Hd; [lia|done]. Qed.

Lemma keeps_fresh_id P prefix : stable P -> keeps P (fresh_id uuid prefix).
Proof. apply keeps_draw. Qed.

Lemma keeps_now_or P now : stable P -> keeps P (now_or utcnow now).
Proof. intros HP. destruct now; [apply keeps_ret|by apply keeps_draw]. Qed.

Lemma keeps_append_audit P make : stable P -> keeps P (append_audit uuid make).
Proof.
  intros HP. apply keeps_bind; [by apply keeps_fresh_id|]. intros event_id.
  apply keeps_bind; [apply keeps_of_res|]. intros e. apply keeps_modify. intros s Hs. by apply HP.
Qed.

(** A fresh verification identifier is not a key of the stored requests. *)
Lemma triple_fresh_verification :
  triple Inv (fresh_id uuid "verification")
    (fun v s => Inv s /\ (svc_draws s <= bound -> (v ∉ dict_keys (svc_requests s)) /\
       exists n, n < svc_draws s /\ v = drawn_id "verification" n)) (fun _ => Inv).
Proof.
  intros s Hs. cbn. split; [apply stable_Inv; [lia|done]|]. svc_cbn. intros Hb. split; [|by exists (svc_draws s); split; [lia|]].
  intros Hin. destruct (ok_drawn _ (proj1 (Hs ltac:(lia))) _ Hin) as (n & Hn & E). unfold drawn_id, id_of_uuid in E.
  assert (uuid (svc_draws s) = uuid n) as E'.
  { apply (f_equal chars) in E. apply chars_inj. revert E. rewrite !chars_app. apply (app_inv_head (chars "verification" ++ chars "_")). }
  apply uuid_distinct in E'; lia.
Qed.

(** A read of the whole state, of which the policies will be used. *)
Lemma triple_state P X :
  triple P (gets id) (fun s0 s => P s /\ svc_policies s = svc_policies s0) X.
Proof. done. Qed.

Ltac split_hyps := repeat match goal with H : _ /\ _ |- _ => destruct H end.
Ltac conj_side := intros; split_hyps; assumption.
Ltac stable_side := repeat apply stable_and; first [apply stable_Inv|done].
(** One statement of a method: reads, checks, clock and audit. *)
Ltac method_step :=
  lazymatch goal with
  | |- triple _ (mbind _ (gets id)) _ _ => eapply triple_bind; [apply triple_state|intros ?; cbv beta]
  | |- triple _ (mbind _ (of_res _)) _ _ => eapply triple_bind; [apply triple_of_res; conj_side|intros ?; cbv beta]
  | |- triple _ (mbind _ (ensure _ _)) _ _ => eapply triple_bind; [apply triple_ensure; conj_side|intros ?; cbv beta]
  | |- triple _ (mbind _ (now_or _ _)) _ _ =>
      eapply triple_bind; [apply triple_keeps; [apply keeps_now_or; stable_side|conj_side]|intros ?; cbv beta]
  | |- triple _ (mbind _ (fresh_id _ _)) _ _ =>
      eapply triple_bind; [apply triple_keeps; [apply keeps_fresh_id; stable_side|conj_side]|intros ?; cbv beta]
  | |- triple _ (mbind _ (append_audit _ _)) _ _ =>
      eapply triple_bind; [apply triple_keeps; [apply keeps_append_audit; stable_side|conj_side]|intros ?; cbv beta]
  end.

Lemma keeps_register_policy p :
  VerificationPolicy_post_init p = Ok p -> keeps Inv (register_policy uuid p).
Proof.
  intros Hp. unfold keeps, register_policy. eapply triple_bind; [apply triple_gets|intros existing]. method_step.
  eapply triple_bind.
  - apply (triple_modify _ _ (fun _ => Inv)). intros s [[Hs He] Heq] Hb.
    apply (Inv_step s); [by apply Hs|]. constructor; [done|].
    intros q Hq. by rewrite He, Hq in Heq.
  - intros []. apply keeps_bind; [|intros []; apply keeps_ret].
    destruct existing; [apply keeps_ret|apply keeps_append_audit, stable_Inv].
Qed.

(** The fresh identifier of a new request, with whatever else is known. *)
Lemma triple_fresh_request P :
  stable P -> (forall s, P s -> Inv s) ->
  triple P (fresh_id uuid "verification")
    (fun v s => P s /\ (svc_draws s <= bound -> (v ∉ dict_keys (svc_requests s)) /\
       exists n, n < svc_draws s /\ v = drawn_id "verification" n)) (fun _ => Inv).
Proof.
  intros HP HI s Hs. pose proof (triple_fresh_verification s (HI s Hs)) as H. cbn in *.
  split; [apply HP; [lia|done]|apply H].
Qed.

Lemma keeps_request_verification task_id policy_id version stage_id subject rc attempt now canonical :
  keeps Inv (request_verification utcnow uuid task_id policy_id version stage_id subject rc attempt now canonical).
Proof.
  unfold keeps, request_verification. method_step. rename a into s0. do 8 method_step.
  eapply triple_bind; [apply triple_fresh_request; [stable_side|conj_side]|intros v].
  method_step. rename a0 into policy, a1 into stage, a7 into r.
  apply (triple_bind _ _ _ (fun _ => Inv)).
  2: { intros []. apply keeps_bind; [apply keeps_append_audit, stable_Inv|intros []; apply keeps_ret]. }
  apply triple_modify. intros s Hs. split_hyps. intros Hb.
  match goal with H : svc_draws s <= bound -> _ |- _ => destruct (H Hb) as [Hfresh Hdrawn] end.
  match goal with H : Inv s |- _ => pose proof (H Hb) as [Hok Hpath] end.
  match goal with H : VerificationRequest_post_init _ = Ok r |- _ => pose proof (VerificationRequest_post_init_eq _ _ H) as -> end.
  apply (Inv_step s); [done|]. apply step_request; [|done|done|done].
  match goal with H : svc_policies s = svc_policies s0 |- _ => rename H into Hpol end.
  match goal with H : get_policy _ _ _ = Ok _ |- _ => rename H into Hget end.
  unfold get_policy in Hget. rewrite <- Hpol in Hget.
  destruct (svc_policies s !! (policy_id, version)) as [q|] eqn:Hq; [|done]. injection Hget as ->.
  destruct (ok_policies _ Hok _ _ Hq) as [Hkey _]. injection Hkey as -> ->.
  match goal with H : match policy_stage _ _ with _ => _ end = Ok stage |- _ => rename H into Hstage end.
  destruct (policy_stage policy stage_id) as [st|] eqn:Hst; [|done]. injection Hstage as ->.
  match goal with H : VerificationRequest_post_init _ = Ok _ |- _ => split; [exact H|] end.
  exists policy, stage. cbn. split_and!; try done; [|by apply Z.leb_le|].
  - by rewrite (policy_stage_id _ _ _ Hst).
  - repeat match goal with u : unit |- _ => destruct u end. done.
Qed.

(** A predicate that only reads policies, results and the number of draws. *)
Definition frame (P : VerificationService -> Prop) : Prop :=
  stable P /\ forall s x, P s -> P (svc_set_requests x s).

Lemma triple_get_request P v now :
  frame P ->
  triple (fun s => Inv s /\ P s) (get_request utcnow uuid v now)
    (fun r s => Inv s /\ P s /\ dict_get v (svc_requests s) = Some r) (fun _ => Inv).
Proof.
  intros [HP HPr]. unfold get_request.
  eapply triple_bind; [apply (triple_gets _ id)|intros s0; cbv beta].
  apply (triple_weaken _ (fun s => (Inv s /\ P s) /\ svc_requests s = svc_requests s0) _ _
    (fun r s => Inv s /\ P s /\ dict_get v (svc_requests s) = Some r) (fun _ => Inv) (fun _ => Inv));
    [|by intros s [? ->]|done..].
  assert (stable (fun s => svc_requests s = svc_requests s0)) as Hreq by done.
  method_step. rename a into r.
  eapply triple_bind; [apply triple_keeps; [apply keeps_now_or; repeat apply stable_and; first [apply stable_Inv|done]|conj_side]|].
  intros current. cbv beta. method_step. destruct (overdue current r) eqn:Hover; [|apply triple_ret].
  2: { intros s Hs. split_hyps. split_and!; try done.
       destruct (dict_get v (svc_requests s0)) as [r'|] eqn:Hr'; simplify_eq. congruence. }
  apply (triple_bind _ _ _ (fun _ s => Inv s /\ P s /\
    dict_get v (svc_requests s) = Some (request_set_status Q_EXPIRED r))).
  - apply triple_modify. intros s Hs. split_hyps. split_and!; [|by apply HPr|].
    + intros Hb. apply (Inv_step s); [auto|]. apply step_close; [| |done].
      * destruct (dict_get v (svc_requests s0)) as [r'|] eqn:Hr'; simplify_eq. congruence.
      * unfold overdue in Hover. by bool_props.
    + svc_cbn. by rewrite dict_get_set, String.eqb_refl.
  - intros []. eapply triple_bind; [apply triple_keeps; [apply keeps_append_audit|conj_side]|].
    + repeat apply stable_and; first [apply stable_Inv|done].
    + intros []. by apply triple_ret.
Qed.

Lemma frame_True : frame (fun _ => True).
Proof. done. Qed.

Lemma keeps_get_request v now : keeps Inv (get_request utcnow uuid v now).
Proof.
  apply (triple_weaken _ _ _ _ _ _ _ (triple_get_request (fun _ => True) v now frame_True)); try done.
  by intros r s [? _].
Qed.

Lemma keeps_cancel_request v now causation_id : keeps Inv (cancel_request utcnow uuid v now causation_id).
Proof.
  unfold keeps, cancel_request. method_step. method_step.
  eapply triple_bind.
  { apply (triple_weaken _ _ _ _ _ _ _ (triple_get_request (fun _ => True) v (Some a) frame_True));
      [intros s [? _]; done|intros r s H; exact H|done]. }
  intros r. cbv beta. destruct (bool_decide (request_status r = Q_CANCELLED)); [apply triple_ret; by intros s [? _]|].
  method_step. apply (triple_bind _ _ _ (fun _ => Inv)).
  - apply triple_modify. intros s Hs. split_hyps. intros Hb. bool_props.
    apply (Inv_step s); [auto|]. by apply step_close.
  - intros []. apply keeps_bind; [apply keeps_append_audit, stable_Inv|intros []; apply keeps_ret].
Qed.

Lemma keeps_validate_verifier v verifier : keeps Inv (validate_verifier utcnow uuid v verifier).
Proof.
  apply keeps_bind; [apply keeps_get_request|]. intros r.
  repeat (apply keeps_bind; [eauto with keeps|intros ?]). apply keeps_ret.
Qed.

(** A result is recorded under whatever identifier it has. *)
Lemma keeps_submit_result result canonical : keeps Inv (submit_result utcnow uuid result canonical).
Proof.
  unfold keeps, submit_result. method_step. method_step. method_step.
  eapply triple_bind.
  { apply (triple_weaken _ _ _ _ _ _ _ (triple_get_request (fun _ => True) (result_verification_id result) None frame_True));
      [intros s Hs; by split_hyps|intros r s H; exact H|done]. }
  intros r. cbv beta. method_step. method_step. method_step. method_step. method_step. method_step.
  match goal with |- triple ?P _ _ _ => set (Pre := P) end.
  apply (triple_bind _ _ _ (fun _ s => exists s1, Pre s1 /\
    s = svc_set_results (<[result_verification_result_id result := result]> (svc_results s1))
      (<[request_verification_id r := result_verification_result_id result]> (svc_result_by_verification s1)) s1)).
  { apply triple_modify. by eauto. }
  intros []. apply (triple_bind _ _ _ (fun _ => Inv)).
  2: { intros []. apply keeps_bind; [apply keeps_append_audit, stable_Inv|intros []; apply keeps_ret]. }
  apply triple_modify. intros s (s1 & Hs & ->). unfold Pre in Hs. split_hyps. intros Hb. bool_props.
  match goal with H : Inv s1 |- _ => pose proof (H Hb) as Hok end.
  apply (Inv_step s1); [done|].
  match goal with H : svc_policies s1 = _ |- _ => rename H into Hpol end.
  match goal with H : get_policy _ _ _ = Ok ?q |- _ => rename H into Hget; rename q into policy end.
  apply (step_result s1 (result_verification_id result) r policy); try done.
  - unfold get_policy in Hget. rewrite <- Hpol in Hget. unfold policy_for.
    destruct (svc_policies s1 !! _) as [q|]; [|done]. by injection Hget as ->.
  - repeat match goal with u : unit |- _ => destruct u end. done.
Qed.

Lemma keeps_make_result v verifier outcome subject findings evidence checks :
  keeps Inv (make_result utcnow uuid v verifier outcome subject findings evidence checks).
Proof.
  apply keeps_bind; [apply keeps_fresh_id, stable_Inv|intros i]. unfold keeps. method_step. method_step. apply keeps_of_res.
Qed.

Lemma keeps_run_deterministic v verify : keeps Inv (run_deterministic utcnow uuid v verify).
Proof.
  apply keeps_bind; [apply keeps_get_request|intros r]. do 2 (apply keeps_bind; [eauto with keeps|intros ?]).
  apply keeps_submit_result.
Qed.

Lemma keeps_record_human_review v reviewer outcome comment evidence :
  keeps Inv (record_human_review utcnow uuid v reviewer outcome comment evidence).
Proof.
  apply keeps_bind; [apply keeps_get_request|intros r]. apply keeps_bind.
  - destruct comment; [|apply keeps_ret]. repeat (apply keeps_bind; [eauto with keeps|intros ?]). apply keeps_ret.
  - intros findings. apply keeps_bind; [eauto with keeps|intros ?]. apply keeps_bind; [apply keeps_make_result|intros result].
    apply keeps_submit_result.
Qed.

Lemma keeps_record_agent_review v verifier outcome findings evidence checks :
  keeps Inv (record_agent_review utcnow uuid v verifier outcome findings evidence checks).
Proof.
  apply keeps_bind; [eauto with keeps|intros ?]. apply keeps_bind; [apply keeps_get_request|intros r].
  apply keeps_bind; [apply keeps_make_result|intros result]. apply keeps_submit_result.
Qed.

Lemma keeps_reverification v subject rc capability_ids replace canonical :
  keeps Inv (request_reverification_after_repair utcnow uuid v subject rc capability_ids replace canonical).
Proof.
  unfold request_reverification_after_repair. cbv zeta.
  repeat first [apply keeps_request_verification
    |apply keeps_bind; [first [apply keeps_get_request|solve [eauto with keeps]]|intros ?]; cbv zeta].
Qed.

(** ** Sequences of calls *)

(** The calls a client can make, with any arguments; a policy is an object that its constructor returns. *)
Inductive svc_call :=
| CallRegister (policy : VerificationPolicy)
| CallRequest (task_id policy_id : string) (version : Z) (stage_id : string) (subject : VerificationSubject)
    (rc : RequestContext) (repair_attempt : Z) (now : option datetime) (canonical : bool)
| CallGet (verification_id : string) (now : option datetime)
| CallCancel (verification_id : string) (now : option datetime) (causation_id : option string)
| CallValidate (verification_id : string) (verifier : VerifierIdentity)
| CallSubmit (result : VerificationResult) (canonical : bool)
| CallDeterministic (verification_id : string) (verify : VerificationRequest -> res VerificationResult)
| CallHuman (verification_id reviewer_ref : string) (outcome : VerificationOutcome) (comment : option string)
    (evidence_artifact_ids : list string)
| CallAgent (verification_id : string) (verifier : VerifierIdentity) (outcome : VerificationOutcome)
    (findings : list VerificationFinding) (evidence_artifact_ids checks_executed : list string)
| CallReverify (verification_id : string) (subject : VerificationSubject) (rc : RequestContext)
    (capability_ids : option (list string)) (replace canonical : bool).

Definition discard {S A} (m : st S A) : st S unit := _ ← m; mret tt.

Definition run_call (c : svc_call) : st VerificationService unit :=
  match c with
  | CallRegister p => discard (policy ← of_res (VerificationPolicy_post_init p); register_policy uuid policy)
  | CallRequest t p v i sub rc a now canonical =>
      discard (request_verification utcnow uuid t p v i sub rc a now canonical)
  | CallGet v now => discard (get_request utcnow uuid v now)
  | CallCancel v now c => discard (cancel_request utcnow uuid v now c)
  | CallValidate v verifier => discard (validate_verifier utcnow uuid v verifier)
  | CallSubmit r canonical => discard (submit_result utcnow uuid r canonical)
  | CallDeterministic v verify => discard (run_deterministic utcnow uuid v verify)
  | CallHuman v r o c e => discard (record_human_review utcnow uuid v r o c e)
  | CallAgent v w o f e c => discard (record_agent_review utcnow uuid v w o f e c)
  | CallReverify v sub rc caps replace canonical =>
      discard (request_reverification_after_repair utcnow uuid v sub rc caps replace canonical)
  end.

Lemma keeps_discard_call {A} (m : st VerificationService A) : keeps Inv m -> keeps Inv (discard m).
Proof. intros Hm. apply keeps_bind; [done|intros ?; apply keeps_ret]. Qed.

Lemma VerificationPolicy_post_init_stable p q : VerificationPolicy_post_init p = Ok q -> VerificationPolicy_post_init q = Ok q.
Proof. intros Hp. assert (q = p) as ->; [|done]. unfold VerificationPolicy_post_init in Hp. by res_inv. Qed.

Lemma keeps_run_call c : keeps Inv (run_call c).
Proof.
  destruct c; apply keeps_discard_call; [|apply keeps_request_verification|apply keeps_get_request|apply keeps_cancel_request
    |apply keeps_validate_verifier|apply keeps_submit_result|apply keeps_run_deterministic|apply keeps_record_human_review
    |apply keeps_record_agent_review|apply keeps_reverification].
  intros s Hs. unfold mbind, st_bind, of_res. destruct (VerificationPolicy_post_init policy) as [q|] eqn:Hq; [|done].
  by apply (keeps_register_policy q (VerificationPolicy_post_init_stable _ _ Hq)).
Qed.

Lemma run_call_Inv s c : Inv s -> Inv (run_call c s).2.
Proof. intros Hs. pose proof (keeps_run_call c s Hs) as H. by destruct (run_call c s) as [[u|e] s']. Qed.

(** Any sequence of calls, failing ones included; in between, time passes and identifiers are drawn
    elsewhere. *)
Inductive svc_reach (s1 : VerificationService) : VerificationService -> Prop :=
| svc_reach_refl : svc_reach s1 s1
| svc_reach_tick s n : svc_reach s1 s -> svc_draws s <= n -> svc_reach s1 (svc_set_draws n s)
| svc_reach_call s c : svc_reach s1 s -> svc_reach s1 (run_call c s).2.

Lemma svc_reach_trans s1 s2 s3 : svc_reach s1 s2 -> svc_reach s2 s3 -> svc_reach s1 s3.
Proof. intros H12. induction 1; [done|by apply svc_reach_tick|by apply svc_reach_call]. Qed.

Lemma svc_reach_Inv s : (svc_draws s_init <= bound -> svc_ok s_init) -> svc_reach s_init s -> Inv s.
Proof.
  intros Hok. induction 1; [|by apply stable_Inv|by apply run_call_Inv].
  intros Hb. split; [auto|constructor].
Qed.

Lemma svc_steps_draws s s' : rtc svc_step s s' -> svc_draws s <= svc_draws s'.
Proof. induction 1 as [|s1 s2 s3 Hstep _ IH]; [lia|]. destruct Hstep; cbn in *; lia. Qed.
End invariant.
