(* ===== verification/VerificationTheorems.v ===== *)
(** * What verification guarantees

    The evaluation of a policy against an executable reference without the branches that cannot
    be reached, what an accepted assessment means, independence of the stage order, and what holds
    of every state that calls reach. *)

From Stdlib Require Import SpecFloat.
From S2P Require Import Prelude PyValue Errors StateMonad Freeze Ident Lifecycle Domain Contracts.
From S2P Require Import PyTime VerificationModels VerificationService VerificationInvariant.

Abbreviation evidence := (list (VerificationRequest * VerificationResult)).

(** ** The decision as a function of the stages' evidence *)

Lemma map_res_find {A B} (f : A -> res B) (test : B -> bool) l bs :
  map_res f l = Ok bs -> List.find test bs = None -> Forall2 (fun a b => f a = Ok b /\ test b = false) l bs.
Proof.
  rewrite map_res_ok. induction 1 as [|a b l bs Ha _ IH]; cbn; [constructor|].
  destruct (test b) eqn:Ht; [done|]. intros Hf. constructor; auto.
Qed.

Section evaluation.
Context (s : VerificationService) (task_id : string) (subject : VerificationSubject).
Context (policy_id : string) (version : Z) (policy : VerificationPolicy) (current : datetime).
Let results := stage_results s task_id subject policy current.
Let assess := assessment task_id subject policy_id version.

(** The last loop without its failure branches: the first stage without enough accepted results. *)
Fixpoint first_incomplete (stages : list VerificationStage) (attempt : Z) : res CompletionAssessment :=
  match stages with
  | [] => assess C_ACCEPTED "all required verification stages passed" [] (remaining_after policy attempt)
  | stage :: stages' =>
      matching ← results stage;
      let attempt := match matching with [] => attempt | _ => Z.max attempt (max_attempt 0 matching) end in
      count ← accepted_count policy stage matching;
      if (count <? stage_minimum_results stage)%Z
      then stage_incomplete s task_id subject policy_id version policy current stage attempt
      else first_incomplete stages' attempt
  end.

(** The reference decision: a critical failure, then requested changes, then incomplete stages. *)
Definition reference_assessment : res CompletionAssessment :=
  stage_matches ← map_res (fun stage => m ← results stage; Ok (stage, m)) (policy_stages policy);
  let observed := max_attempt 0 (concat (map snd stage_matches)) in
  match first_stage critical_failure stage_matches, first_stage wants_changes stage_matches with
  | Some (_, matching), _ =>
      assess (failure_state policy) "critical verification stage failed" (ids_with O_FAIL matching)
        (remaining_after policy observed)
  | None, Some (_, matching) => changes_requested task_id subject policy_id version policy matching observed
  | None, None => first_incomplete (policy_stages policy) 0
  end.

Lemma evaluate_first_incomplete stages attempt :
  (forall stage m, stage ∈ stages -> results stage = Ok m ->
     critical_failure stage m = false /\ wants_changes stage m = false) ->
  evaluate_stages s task_id subject policy_id version policy current stages attempt =
  first_incomplete stages attempt.
Proof.
  revert attempt. induction stages as [|stage stages IH]; intros attempt Hdead; [done|]. cbn.
  unfold results. destruct (stage_results _ _ _ _ _ _) as [m|e] eqn:Hm; [|done]. cbn.
  destruct (Hdead stage m) as [-> ->]; [by left|done|].
  destruct (accepted_count _ _ _) as [count|]; [|done]. cbn. destruct (_ <? _)%Z; [done|].
  apply IH. intros st m' Hst. apply Hdead. by right.
Qed.

Lemma no_stage test stage_matches stage m :
  map_res (fun stage => m ← results stage; Ok (stage, m)) (policy_stages policy) = Ok stage_matches ->
  first_stage test stage_matches = None ->
  stage ∈ policy_stages policy -> results stage = Ok m -> test stage m = false.
Proof.
  intros Hm Hf Hin Hr. pose proof (map_res_find _ _ _ _ Hm Hf) as Hall.
  apply list_elem_of_lookup_1 in Hin as [i Hi].
  destruct (Forall2_lookup_l _ _ _ _ _ Hall Hi) as ([st m'] & _ & Heq & Ht).
  rewrite Hr in Heq. cbn in Heq. injection Heq as <- <-. done.
Qed.

(** The failure branches of the last loop of [assess_completion] are never taken: the code decides
    as the reference does, which looks for a critical failure in any stage, then for requested changes
    in any stage, and only then for the first incomplete stage. *)
Theorem assessment_matches_reference :
  assess_stages s task_id subject policy_id version policy current = reference_assessment.
Proof.
  unfold assess_stages, reference_assessment. fold results.
  destruct (map_res _ _) as [stage_matches|e] eqn:Hm; [|done]. cbn [mbind result_bind].
  destruct (first_stage critical_failure stage_matches) as [[st1 m1]|] eqn:Hc; [done|].
  destruct (first_stage wants_changes stage_matches) as [[st2 m2]|] eqn:Hw; [done|].
  apply evaluate_first_incomplete. intros stage m Hin Hr. split; by eapply no_stage.
Qed.
End evaluation.

(** ** When the decision is to accept *)

Lemma assessment_state_eq a a' : CompletionAssessment_post_init a = Ok a' -> a' = a.
Proof. unfold CompletionAssessment_post_init. intros H. by res_inv. Qed.

Lemma failure_state_for_rejects p : failure_state_for p <> C_ACCEPTED.
Proof. by destruct p. Qed.

(** A stage that has what it needs, and nothing against it. *)
Definition stage_passes s task_id subject policy current (stage : VerificationStage) (m : evidence) : Prop :=
  stage_results s task_id subject policy current stage = Ok m /\
  critical_failure stage m = false /\ wants_changes stage m = false /\
  exists n, accepted_count policy stage m = Ok n /\ (stage_minimum_results stage <= n)%Z.

Section acceptance.
Context (s : VerificationService) (task_id : string) (subject : VerificationSubject).
Context (policy_id : string) (version : Z) (policy : VerificationPolicy) (current : datetime).

Lemma first_incomplete_accepts stages attempt a :
  first_incomplete s task_id subject policy_id version policy current stages attempt = Ok a ->
  assessment_state a = C_ACCEPTED <->
  forall stage, stage ∈ stages -> exists m n, stage_results s task_id subject policy current stage = Ok m /\
    accepted_count policy stage m = Ok n /\ (stage_minimum_results stage <= n)%Z.
Proof.
  revert attempt. induction stages as [|stage stages IH]; intros attempt; cbn.
  { intros H. apply assessment_state_eq in H as ->. split; [by intros _ st ?%elem_of_nil|done]. }
  intros H. res_inv. destruct (x0 <? stage_minimum_results stage)%Z eqn:Hn.
  - apply Z.ltb_lt in Hn. split.
    + intros Ha. exfalso. revert H Ha. unfold stage_incomplete. cbv zeta.
      destruct (negb _); intros H Ha; apply assessment_state_eq in H as ->; cbn in Ha;
        [by apply failure_state_for_rejects in Ha|done].
    + intros Hall. destruct (Hall stage) as (m & n & Hm & Hc & Hle); [by left|].
      assert (m = x) as -> by congruence. assert (n = x0) as -> by congruence. lia.
  - apply Z.ltb_ge in Hn. rewrite (IH _ H). split.
    + intros Hall st [->|Hst]%elem_of_cons; [by eauto 6|auto].
    + intros Hall st Hst. apply Hall. by right.
Qed.

Lemma first_stage_fails test stage_matches st m :
  map_res (fun stage => m ← stage_results s task_id subject policy current stage; Ok (stage, m))
    (policy_stages policy) = Ok stage_matches ->
  first_stage test stage_matches = Some (st, m) ->
  st ∈ policy_stages policy /\ stage_results s task_id subject policy current st = Ok m /\ test st m = true.
Proof.
  intros Hm Hf. apply List.find_some in Hf as [Hin Ht]. apply list_elem_of_In in Hin.
  apply map_res_ok in Hm. apply list_elem_of_lookup_1 in Hin as [i Hi].
  destruct (Forall2_lookup_r _ _ _ _ _ Hm Hi) as (stage & Hst & Heq). res_inv. simplify_eq.
  split_and!; [|done..]. by eapply list_elem_of_lookup_2.
Qed.

(** An assessment accepts exactly if every stage passes. *)
Lemma assess_stages_accepts a :
  assess_stages s task_id subject policy_id version policy current = Ok a ->
  assessment_state a = C_ACCEPTED <->
  forall stage, stage ∈ policy_stages policy -> exists m, stage_passes s task_id subject policy current stage m.
Proof.
  unfold assess_stages. intros H. res_inv. rename x into matches, H0 into Hm.
  destruct (first_stage critical_failure matches) as [[st m]|] eqn:Hc.
  { apply assessment_state_eq in H as ->. destruct (first_stage_fails _ _ _ _ Hm Hc) as (Hin & Hr & Ht). split.
    - intros Ha. by apply failure_state_for_rejects in Ha.
    - intros Hall. destruct (Hall st Hin) as (m' & Hr' & Hf & _). congruence. }
  destruct (first_stage wants_changes matches) as [[st m]|] eqn:Hw.
  { destruct (first_stage_fails _ _ _ _ Hm Hw) as (Hin & Hr & Ht).
    unfold changes_requested in H. apply assessment_state_eq in H as ->. cbn. split.
    - destruct (0 <? _)%Z; [done|]. intros Ha. by apply failure_state_for_rejects in Ha.
    - intros Hall. destruct (Hall st Hin) as (m' & Hr' & _ & Hf & _). congruence. }
  rewrite evaluate_first_incomplete in H.
  2: { intros stage m Hin Hr. split; by eapply no_stage. }
  rewrite (first_incomplete_accepts _ _ _ H). split.
  - intros Hall stage Hin. destruct (Hall stage Hin) as (m & n & Hr & Hn & Hle). exists m.
    split_and!; [done|by eapply no_stage..|eauto].
  - intros Hall stage Hin. destruct (Hall stage Hin) as (m & Hr & _ & _ & n & Hn & Hle). eauto.
Qed.
End acceptance.

(** An assessment is about the subject it was asked for. *)
Lemma first_incomplete_subject s task_id subject policy_id version policy current stages attempt a :
  first_incomplete s task_id subject policy_id version policy current stages attempt = Ok a ->
  assessment_subject a = subject.
Proof.
  revert attempt. induction stages as [|stage stages IH]; intros attempt; cbn; intros H.
  { by apply assessment_state_eq in H as ->. }
  res_inv. destruct (_ <? _)%Z; [|by eapply IH]. unfold stage_incomplete in H. cbv zeta in H.
  destruct (negb _); by apply assessment_state_eq in H as ->.
Qed.

Lemma assessed_subject s task_id subject policy_id version now a :
  assess_completion s task_id subject policy_id version now = Ok a -> assessment_subject a = subject.
Proof.
  unfold assess_completion. intros H. destruct policy_id as [policy_id|], version as [version|]; try done.
  2: { by apply assessment_state_eq in H as ->. }
  res_inv. destruct (policy_stages _) eqn:Hst; [by apply assessment_state_eq in H as ->|].
  rewrite assessment_matches_reference in H. unfold reference_assessment in H. cbv zeta in H. res_inv.
  destruct (first_stage critical_failure _) as [[]|]; [by apply assessment_state_eq in H as ->|].
  destruct (first_stage wants_changes _) as [[]|]; [by apply assessment_state_eq in H as ->|].
  by eapply first_incomplete_subject.
Qed.

(** ** The evidence that an assessment reads *)

Lemma collect_results_spec s policy now requests (m : evidence) :
  collect_results s policy now requests = Ok m ->
  map fst m `sublist_of` requests /\
  forall r result, (r, result) ∈ m <->
    r ∈ requests /\ result_for s (request_verification_id r) = Ok (Some result) /\
    result_expired policy now result = Ok false.
Proof.
  revert m. induction requests as [|r0 requests IH]; intros m; cbn.
  { intros [= <-]. split; [constructor|]. intros r result. split; [by intros ?%elem_of_nil|by intros [?%elem_of_nil _]]. }
  destruct (result_for s (request_verification_id r0)) as [[result0|]|] eqn:Hres; cbn; [| |done].
  - intros H. res_inv. destruct (IH _ H1) as [Hsub Hin]. destruct x.
    + split; [by constructor|]. intros r result. rewrite Hin, elem_of_cons. split; [naive_solver|].
      intros ([->|?] & Hr & He); [|done]. congruence.
    + split; [by constructor|]. intros r result. rewrite elem_of_cons, elem_of_cons, Hin.
      split; [naive_solver|]. intros ([->|?] & Hr & He); [|naive_solver]. left. congruence.
  - intros H. destruct (IH _ H) as [Hsub Hin]. split; [by constructor|]. intros r result.
    rewrite Hin, elem_of_cons. split; [naive_solver|]. intros ([->|?] & Hr & He); [congruence|done].
Qed.

Lemma seen_at_id now r : request_verification_id (seen_at now r) = request_verification_id r.
Proof. unfold seen_at. by destruct (overdue now r), r. Qed.

Lemma seen_at_completed now r : request_status r = Q_COMPLETED -> seen_at now r = r.
Proof. intros Hr. unfold seen_at, overdue. by rewrite Hr. Qed.

Lemma result_for_ok s v result : result_for s v = Ok (Some result) ->
  exists i, svc_result_by_verification s !! v = Some i /\ svc_results s !! i = Some result.
Proof.
  unfold result_for. destruct (svc_result_by_verification s !! v) as [i|] eqn:Hi; [|done].
  destruct (svc_results s !! i) as [x|] eqn:Hx; [|done]. intros [= ->]. eauto.
Qed.

Section reachable.
Context (utcnow : nat -> Z) (uuid : nat -> string) (bound : nat).
Context (uuid_distinct : forall n m, n < bound -> m < bound -> uuid n = uuid m -> n = m).

(** The states of a service that any sequence of calls reaches, while UUIDs do not repeat. *)
Definition reachable (s : VerificationService) : Prop :=
  svc_draws s <= bound /\
  exists canonical_subjects canonical_results,
    svc_reach utcnow uuid (new_service canonical_subjects canonical_results) s.

Lemma reachable_ok s : reachable s -> svc_ok uuid s.
Proof.
  intros (Hb & c1 & c2 & Hr). by apply (svc_reach_Inv utcnow uuid bound uuid_distinct _ s (fun _ => svc_ok_new uuid c1 c2) Hr).
Qed.

Lemma stored_request s r : svc_ok uuid s -> r ∈ map snd (svc_requests s) ->
  dict_get (request_verification_id r) (svc_requests s) = Some r.
Proof.
  intros Hok Hin. apply list_elem_of_fmap in Hin as ([k r'] & -> & Hin). cbn.
  pose proof (dict_in_get _ _ _ (ok_keys _ _ Hok) Hin) as Hg. by destruct (ok_requests _ _ Hok _ _ Hg) as [-> _].
Qed.

Lemma stored_ids_distinct s : svc_ok uuid s -> NoDup (map request_verification_id (map snd (svc_requests s))).
Proof.
  intros Hok. assert (map request_verification_id (map snd (svc_requests s)) = dict_keys (svc_requests s)) as ->; [|apply Hok].
  unfold dict_keys. rewrite map_map. apply map_ext_in. intros [k r] Hin%list_elem_of_In. cbn.
  pose proof (dict_in_get _ _ _ (ok_keys _ _ Hok) Hin) as Hg. by destruct (ok_requests _ _ Hok _ _ Hg) as [-> _].
Qed.

(** One piece of evidence for a stage: a completed request for exactly this subject, and a result about
    it by a verifier of the stage's kind that satisfies the policy's independence rules. *)
Definition proper_evidence s task_id subject policy (stage : VerificationStage) (r : VerificationRequest)
    (result : VerificationResult) : Prop :=
  dict_get (request_verification_id r) (svc_requests s) = Some r /\ request_status r = Q_COMPLETED /\
  request_task_id r = task_id /\ request_subject r = subject /\ result_subject result = subject /\
  request_stage_id r = stage_stage_id stage /\ result_verification_id result = request_verification_id r /\
  verifier_kind (result_verifier result) = stage_verifier_kind stage /\
  enforce_independence policy r (result_verifier result) = Ok tt.

Lemma policy_stages_distinct p : VerificationPolicy_post_init p = Ok p -> NoDup (map stage_stage_id (policy_stages p)).
Proof. unfold VerificationPolicy_post_init, require_unique. intros H. res_inv. by bool_props. Qed.

Lemma policy_stage_unique p stage stage' :
  VerificationPolicy_post_init p = Ok p -> stage ∈ policy_stages p ->
  policy_stage p (stage_stage_id stage) = Ok stage' -> stage' = stage.
Proof.
  intros Hnd%policy_stages_distinct Hin Hst.
  unfold policy_stage in Hst. destruct (List.find _ _) as [x|] eqn:Hf; [|done]. injection Hst as ->.
  apply List.find_some in Hf as [Hx Heq]. apply list_elem_of_In in Hx. apply String.eqb_eq in Heq.
  apply list_elem_of_lookup_1 in Hin as [i Hi]. apply list_elem_of_lookup_1 in Hx as [j Hj].
  assert (i = j) as ->; [|congruence]. apply (NoDup_lookup _ i j (stage_stage_id stage) Hnd);
    rewrite list_lookup_fmap; [by rewrite Hi|by rewrite Hj; cbn; rewrite Heq].
Qed.

Lemma sublist_List_filter {A} (p : A -> bool) l : List.filter p l `sublist_of` l.
Proof. induction l as [|a l IH]; cbn; [constructor|]. destruct (p a); by constructor. Qed.

(** The evidence that an assessment finds in a reachable state: distinct requests, each proper and current. *)
Lemma stage_results_distinct s task_id subject policy current stage m :
  svc_ok uuid s -> stage_results s task_id subject policy current stage = Ok m ->
  NoDup (map (fun x => request_verification_id (fst x)) m).
Proof.
  intros Hok Hm. unfold stage_results, matching_stage_results in Hm.
  destruct (collect_results_spec _ _ _ _ _ Hm) as [Hsub _].
  apply (fmap_sublist request_verification_id) in Hsub.
  apply (sublist_NoDup _ (map request_verification_id (map snd (svc_requests s)))); [by apply stored_ids_distinct|].
  rewrite <- (map_map fst). etransitivity; [exact Hsub|].
  unfold matching_stage_requests. unfold fmap, list_fmap.
  assert (forall l, map request_verification_id (map (seen_at current) l) = map request_verification_id l) as E.
  { intros l. rewrite map_map. apply map_ext. intros r. apply seen_at_id. }
  rewrite E. apply (fmap_sublist request_verification_id), sublist_List_filter.
Qed.

Lemma stage_results_proper s task_id subject policy current stage m r result :
  svc_ok uuid s -> results_unshared s -> svc_policies s !! (policy_policy_id policy, policy_version policy) = Some policy ->
  stage ∈ policy_stages policy ->
  stage_results s task_id subject policy current stage = Ok m -> (r, result) ∈ m ->
  proper_evidence s task_id subject policy stage r result /\ result_expired policy current result = Ok false.
Proof.
  intros Hok Hun Hpol Hstage Hm Hin. unfold stage_results, matching_stage_results in Hm.
  apply (collect_results_spec _ _ _ _ _ Hm) in Hin as (Hr & Hres & Hexp). split; [|done].
  unfold matching_stage_requests in Hr. apply list_elem_of_fmap in Hr as (r0 & -> & Hr0).
  apply list_elem_of_In, filter_In in Hr0 as [Hr0 Hmatch]. apply list_elem_of_In in Hr0.
  pose proof (stored_request s r0 Hok Hr0) as Hg. rewrite seen_at_id in Hres.
  destruct (result_for_ok _ _ _ Hres) as (i & Hi & Hx).
  destruct (unshared_evidence _ _ _ _ Hok Hun Hi) as (res & r1 & p & Hx' & Hg' & Hc & Hv & _ & Hsub & Hk & Hp & Hind).
  rewrite Hx in Hx'. injection Hx' as <-. rewrite Hg in Hg'. injection Hg' as <-.
  rewrite seen_at_completed by done. unfold request_matches in Hmatch. bool_props.
  repeat match goal with H : (_ =? _)%Z = true |- _ => apply Z.eqb_eq in H end.
  assert (p = policy) as -> by (unfold policy_for in Hp; congruence).
  destruct (ok_requests _ _ Hok _ _ Hg) as [_ (_ & q & st & Hq & Hst & Hkind & _)].
  assert (q = policy) as -> by (unfold policy_for in *; congruence).
  destruct (ok_policies _ _ Hok _ _ Hpol) as [_ Hpi].
  match goal with H : request_stage_id r0 = _ |- _ => rewrite H in Hst end.
  apply (policy_stage_unique _ _ _ Hpi Hstage) in Hst as ->.
  unfold proper_evidence. split_and!; congruence.
Qed.

Lemma accepted_count_length policy stage m n :
  accepted_count policy stage m = Ok n -> (n <= Z.of_nat (length (accepted_results stage m)))%Z.
Proof.
  unfold accepted_count. destruct (require_distinct_verifiers _); [|by intros [= <-]].
  intros H. res_inv. apply map_res_ok, Forall2_length in H0. rewrite H0. apply inj_le.
  apply submseteq_length, NoDup_submseteq; [apply NoDup_remove_dups|]. intros k. by rewrite elem_of_remove_dups.
Qed.

Lemma passes_no_objection s task_id subject policy current stage m r result :
  svc_ok uuid s -> stage_passes s task_id subject policy current stage m ->
  r ∈ map snd (svc_requests s) -> request_matches task_id subject policy (stage_stage_id stage) r = true ->
  result_for s (request_verification_id r) = Ok (Some result) -> result_expired policy current result = Ok false ->
  result_outcome result <> O_NEEDS_CHANGES /\ (stage_critical stage = true -> result_outcome result <> O_FAIL).
Proof.
  intros Hok (Hm & Hc & Hw & _) Hr Hmatch Hres Hexp.
  unfold stage_results, matching_stage_results in Hm.
  assert ((seen_at current r, result) ∈ m) as Hin.
  { apply (collect_results_spec _ _ _ _ _ Hm). rewrite seen_at_id. split_and!; [|done..].
    apply list_elem_of_fmap. exists r. split; [done|]. apply list_elem_of_In, filter_In.
    split; [by apply list_elem_of_In|done]. }
  assert (forall o, existsb (has_outcome o) m = false -> result_outcome result <> o) as Hno.
  { intros o Ho Heq. assert (existsb (has_outcome o) m = true); [|congruence].
    apply existsb_exists. exists (seen_at current r, result). split; [by apply list_elem_of_In|].
    by apply bool_decide_eq_true. }
  split; [by apply Hno|]. intros Hcrit. apply Hno. unfold critical_failure in Hc. by rewrite Hcrit in Hc.
Qed.

(** What it takes to accept a subject at a moment: for every stage enough distinct proofs that the
    stage accepts, from enough distinct verifiers where that is required, and no objection. *)
Definition verified s task_id subject policy now : Prop :=
  forall stage, stage ∈ policy_stages policy ->
  (exists proofs : evidence,
     NoDup (map (fun x => request_verification_id (fst x)) proofs) /\
     (forall r result, (r, result) ∈ proofs ->
        proper_evidence s task_id subject policy stage r result /\
        result_expired policy now result = Ok false /\ result_outcome result ∈ stage_accepted_outcomes stage) /\
     (stage_minimum_results stage <= Z.of_nat (length proofs))%Z /\
     (require_distinct_verifiers (policy_independence policy) = true ->
        exists keys, map_res (fun x => distinct_verifier_key (result_verifier (snd x))) proofs = Ok keys /\
          (stage_minimum_results stage <= Z.of_nat (length (remove_dups keys)))%Z)) /\
  (forall r result, r ∈ map snd (svc_requests s) ->
     request_matches task_id subject policy (stage_stage_id stage) r = true ->
     result_for s (request_verification_id r) = Ok (Some result) -> result_expired policy now result = Ok false ->
     result_outcome result <> O_NEEDS_CHANGES /\ (stage_critical stage = true -> result_outcome result <> O_FAIL)).

Lemma accepted_verified s task_id subject policy_id version now a :
  svc_ok uuid s -> results_unshared s ->
  assess_completion s task_id subject (Some policy_id) (Some version) now = Ok a ->
  assessment_state a = C_ACCEPTED ->
  exists policy, svc_policies s !! (policy_id, version) = Some policy /\
    verified s task_id subject policy now.
Proof.
  intros Hok Hun Ha Hacc. cbn in Ha. res_inv. unfold get_policy in *.
  destruct (svc_policies s !! (policy_id, version)) as [policy|] eqn:Hpol; [|done].
  match goal with H : Ok policy = Ok _ |- _ => injection H as <- end.
  exists policy. split; [done|]. intros stage Hstage.
  destruct (ok_policies _ _ Hok _ _ Hpol) as [Hkey _]. injection Hkey as -> ->.
  assert (assess_stages s task_id subject (policy_policy_id policy) (policy_version policy) policy now = Ok a) as Hassess.
  { destruct (policy_stages policy); [by apply not_elem_of_nil in Hstage|done]. }
  destruct (proj1 (assess_stages_accepts _ _ _ _ _ _ _ _ Hassess) Hacc stage Hstage) as (m & Hpass).
  split; [|intros r result; by apply (passes_no_objection s task_id subject policy now stage m)].
  destruct Hpass as (Hm & _ & _ & n & Hn & Hle). exists (accepted_results stage m). split_and!.
  - apply (sublist_NoDup _ (map (fun x => request_verification_id (fst x)) m)).
    + by eapply stage_results_distinct.
    + apply (fmap_sublist (fun x : VerificationRequest * VerificationResult => request_verification_id (fst x))), sublist_List_filter.
  - intros r result Hin. apply list_elem_of_In, filter_In in Hin as [Hin Ho]. apply list_elem_of_In in Hin.
    destruct (stage_results_proper _ _ _ _ _ _ _ _ _ Hok Hun Hpol Hstage Hm Hin) as [Hp He].
    split_and!; [done|done|]. by apply bool_decide_eq_true in Ho.
  - apply accepted_count_length in Hn. lia.
  - intros Hd. unfold accepted_count in Hn. rewrite Hd in Hn. res_inv. eauto.
Qed.

(** C9. Acceptance needs evidence. In every state that any sequence of calls reaches and in which no two requests share
    a recorded result (which is all that a reused result identifier can do), an assessment accepts a subject only if
    every stage of the policy has enough distinct completed requests for exactly that subject, each with an unexpired
    result that the stage accepts, by a verifier of the stage's kind that the policy's independence rules allow, from
    enough distinct verifiers where the policy asks for them; and no unexpired result for the subject asks for changes
    or fails a critical stage. *)
Theorem accepted_means_verified s task_id subject policy_id version now a :
  reachable s -> results_unshared s ->
  assess_completion s task_id subject (Some policy_id) (Some version) now = Ok a ->
  assessment_state a = C_ACCEPTED ->
  exists policy, svc_policies s !! (policy_id, version) = Some policy /\
    verified s task_id subject policy now.
Proof. intros Hok%reachable_ok. by apply accepted_verified. Qed.
End reachable.

(** ** The order of the stages *)

Definition with_stages (stages : list VerificationStage) (p : VerificationPolicy) : VerificationPolicy :=
  Build_VerificationPolicy (policy_name p) stages (policy_policy_id p) (policy_version p) (policy_scope p)
    (policy_independence p) (policy_risk_classification p) (policy_max_repair_attempts p)
    (policy_request_timeout_seconds p) (policy_result_expiry_seconds p) (policy_failure_policy p)
    (policy_timeout_failure_policy p) (policy_creator_ref p) (policy_created_at p) (policy_provenance p)
    (policy_metadata p).

(** The evidence for a stage depends on the policy's identity and expiry, not on its list of stages. *)
Lemma stage_results_with_stages s task_id subject policy stages current stage :
  stage_results s task_id subject (with_stages stages policy) current stage =
  stage_results s task_id subject policy current stage.
Proof.
  unfold stage_results, matching_stage_results.
  assert (forall l, collect_results s (with_stages stages policy) current l = collect_results s policy current l) as ->; [|done].
  induction l as [|r l IH]; [done|]. cbn. rewrite IH. done.
Qed.

Lemma stage_passes_with_stages s task_id subject policy stages current stage m :
  stage_passes s task_id subject (with_stages stages policy) current stage m <->
  stage_passes s task_id subject policy current stage m.
Proof. unfold stage_passes. by rewrite stage_results_with_stages. Qed.

Lemma max_attempt_max d (m : evidence) x :
  x ∈ m -> (request_repair_attempt x.1 <= max_attempt d m)%Z /\
  exists y, y ∈ m /\ max_attempt d m = request_repair_attempt y.1.
Proof.
  destruct m as [|z m]; [by intros ?%elem_of_nil|]. cbn. revert x.
  assert (forall (l : evidence) acc, let v := foldl (fun acc m => Z.max acc (request_repair_attempt m.1)) acc l in
    (acc <= v)%Z /\ (forall x, x ∈ l -> (request_repair_attempt x.1 <= v)%Z) /\
    (v = acc \/ exists y, y ∈ l /\ v = request_repair_attempt y.1)) as Hfold.
  { induction l as [|w l IH]; intros acc; cbn.
    { split; [lia|]. split; [by intros x ?%elem_of_nil|by left]. }
    destruct (IH (Z.max acc (request_repair_attempt w.1))) as (H1 & H2 & H3). split; [lia|]. split.
    - intros x [->|Hx]%elem_of_cons; [lia|auto].
    - destruct H3 as [->|(y & Hy & ->)]; [|right; exists y; split; [by right|done]].
      destruct (Z.max_spec acc (request_repair_attempt w.1)) as [[_ ->]|[_ ->]]; [right; exists w; split; [by left|done]|by left]. }
  destruct (Hfold m (request_repair_attempt z.1)) as (H1 & H2 & H3). intros x Hx. split.
  - apply elem_of_cons in Hx as [->|Hx]; [lia|auto].
  - destruct H3 as [->|(y & Hy & ->)]; [exists z; split; [by left|done]|exists y; split; [by right|done]].
Qed.

Lemma max_attempt_perm d (m m' : evidence) : m ≡ₚ m' -> max_attempt d m = max_attempt d m'.
Proof.
  intros Hp. destruct m as [|x m]; [by apply Permutation_nil_l in Hp as ->|].
  assert (x ∈ m') as Hx by (rewrite <- Hp; by left).
  destruct (max_attempt_max d (x :: m) x) as [_ (y & Hy & E)]; [by left|].
  destruct (max_attempt_max d m' x Hx) as [_ (y' & Hy' & E')].
  apply Z.le_antisymm.
  - rewrite E. apply (max_attempt_max d m' y). by rewrite <- Hp.
  - rewrite E'. apply (max_attempt_max d (x :: m) y'). by rewrite Hp.
Qed.

Lemma map_res_ext {A B} (f g : A -> res B) l : (forall a, f a = g a) -> map_res f l = map_res g l.
Proof. intros H. induction l as [|a l IH]; [done|]. cbn. by rewrite H, IH. Qed.

Lemma map_res_perm {A B} (f : A -> res B) l l' bs :
  l ≡ₚ l' -> map_res f l = Ok bs -> exists bs', map_res f l' = Ok bs' /\ bs ≡ₚ bs'.
Proof.
  rewrite map_res_ok. intros Hp Hall. destruct (Stdlib.Sorting.Permutation.Permutation_Forall2 Hp Hall) as (bs' & Hbs & Hall').
  exists bs'. split; [by apply map_res_ok|done].
Qed.

Lemma first_stage_none test stages stage_matches :
  stages ≡ₚ stage_matches -> first_stage test stages = None -> first_stage test stage_matches = None.
Proof.
  unfold first_stage. intros Hp Hn. destruct (List.find _ stage_matches) as [x|] eqn:Hf; [|done].
  apply List.find_some in Hf as [Hin Ht]. apply list_elem_of_In in Hin. rewrite <- Hp in Hin.
  apply list_elem_of_In in Hin. pose proof (List.find_none _ _ Hn _ Hin) as Hx. cbn in Hx. congruence.
Qed.

(** Either both orders have such a stage, or neither has. *)
Lemma first_stage_perm test stages stage_matches :
  stages ≡ₚ stage_matches ->
  match first_stage test stages, first_stage test stage_matches with
  | Some _, Some _ | None, None => True
  | _, _ => False
  end.
Proof.
  intros Hp. pose proof (first_stage_none test _ _ Hp) as H1.
  pose proof (first_stage_none test _ _ (symmetry Hp)) as H2.
  destruct (first_stage test stages), (first_stage test stage_matches); try done; [by specialize (H2 eq_refl)|by specialize (H1 eq_refl)].
Qed.

Lemma first_incomplete_state s task_id subject policy_id version policy current stages attempt a :
  first_incomplete s task_id subject policy_id version policy current stages attempt = Ok a ->
  assessment_state a ∈ [C_ACCEPTED; C_WAITING; failure_state_for (policy_timeout_failure_policy policy)].
Proof.
  revert attempt. induction stages as [|stage stages IH]; intros attempt; cbn; intros H.
  { apply assessment_state_eq in H as ->. cbn. by left. }
  res_inv. destruct (_ <? _)%Z; [|by eapply IH]. unfold stage_incomplete in H. cbv zeta in H.
  destruct (negb _); apply assessment_state_eq in H as ->; cbn; [by right; right; left|by right; left].
Qed.

(** The order of a policy's stages is presentation only: with the stages in another order, the
    subject is accepted exactly if it was, and the state is the same, except that between incomplete
    stages the first one decides whether the verdict is to wait or that of a timeout. *)
Theorem stage_order_is_irrelevant s task_id subject policy_id version policy stages current a a' :
  policy_stages policy ≡ₚ stages ->
  assess_stages s task_id subject policy_id version policy current = Ok a ->
  assess_stages s task_id subject policy_id version (with_stages stages policy) current = Ok a' ->
  (assessment_state a = C_ACCEPTED <-> assessment_state a' = C_ACCEPTED) /\
  (assessment_state a = assessment_state a' \/
   let incomplete := [C_WAITING; failure_state_for (policy_timeout_failure_policy policy)] in
   assessment_state a ∈ incomplete /\ assessment_state a' ∈ incomplete).
Proof.
  intros Hp Ha Ha'.
  assert (assessment_state a = C_ACCEPTED <-> assessment_state a' = C_ACCEPTED) as Hacc.
  { rewrite (assess_stages_accepts _ _ _ _ _ _ _ _ Ha), (assess_stages_accepts _ _ _ _ _ _ _ _ Ha').
    cbn [policy_stages with_stages]. setoid_rewrite stage_passes_with_stages. by setoid_rewrite Hp. }
  split; [done|]. revert Hacc.
  rewrite assessment_matches_reference in Ha, Ha'. unfold reference_assessment in Ha, Ha'.
  cbn [policy_stages with_stages] in Ha'.
  destruct (map_res _ (policy_stages policy)) as [sm|] eqn:Hsm; [|done].
  destruct (map_res_perm _ _ _ _ Hp Hsm) as (sm' & Hsm' & Hpsm).
  rewrite (map_res_ext _ (fun stage => m ← stage_results s task_id subject policy current stage; Ok (stage, m))) in Ha'
    by (intros st; by rewrite stage_results_with_stages).
  rewrite Hsm' in Ha'. cbn [mbind result_bind] in Ha, Ha'. cbv zeta in Ha, Ha'.
  pose proof (first_stage_perm critical_failure _ _ Hpsm) as Hc.
  pose proof (first_stage_perm wants_changes _ _ Hpsm) as Hw.
  assert (max_attempt 0 (concat (map snd sm)) = max_attempt 0 (concat (map snd sm'))) as Hatt.
  { apply max_attempt_perm. by rewrite Hpsm. }
  rewrite <- Hatt in Ha'. set (observed := max_attempt 0 (concat (map snd sm))) in *.
  destruct (first_stage critical_failure sm) as [[]|], (first_stage critical_failure sm') as [[]|]; try done;
    [|destruct (first_stage wants_changes sm) as [[]|], (first_stage wants_changes sm') as [[]|]; try done].
  - apply assessment_state_eq in Ha as ->. apply assessment_state_eq in Ha' as ->. by left.
  - unfold changes_requested in Ha, Ha'.
    apply assessment_state_eq in Ha as ->. apply assessment_state_eq in Ha' as ->. by left.
  - apply first_incomplete_state in Ha, Ha'. cbn [policy_timeout_failure_policy with_stages] in Ha'.
    intros [Hac Hac']. rewrite elem_of_cons in Ha, Ha'.
    destruct Ha as [Ha|Ha]; [left; by rewrite Ha, Hac|].
    destruct Ha' as [Ha'|Ha']; [left; by rewrite Ha', Hac'|]. by right.
Qed.

(** ** What calls never undo *)

Definition shared_result (s : VerificationService) (result_id : string) : Prop :=
  exists v1 v2, v1 <> v2 /\ svc_result_by_verification s !! v1 = Some result_id /\ svc_result_by_verification s !! v2 = Some result_id.

Record extends (s s' : VerificationService) : Prop := {
  ext_audit : exists events, svc_audit_events s' = svc_audit_events s ++ events;
  ext_results result_id result : svc_results s !! result_id = Some result ->
    svc_results s' !! result_id = Some result \/ shared_result s' result_id;
  ext_evidence : svc_result_by_verification s ⊆ svc_result_by_verification s';
  ext_requests v r : dict_get v (svc_requests s) = Some r ->
    exists status, dict_get v (svc_requests s') = Some (request_set_status status r) /\
      (request_status r <> Q_PENDING -> status = request_status r);
  ext_policies k p : svc_policies s !! k = Some p ->
    exists q, svc_policies s' !! k = Some q /\ policy_rules q = policy_rules p;
  ext_draws : svc_draws s <= svc_draws s'
}.

Lemma request_same_status r : request_set_status (request_status r) r = r.
Proof. by destruct r. Qed.

Lemma ext_same_requests (s s' : VerificationService) v r :
  svc_requests s' = svc_requests s -> dict_get v (svc_requests s) = Some r ->
  exists status, dict_get v (svc_requests s') = Some (request_set_status status r) /\
    (request_status r <> Q_PENDING -> status = request_status r).
Proof. intros -> Hr. exists (request_status r). by rewrite request_same_status. Qed.

(** One request changes its status from pending. *)
Lemma ext_changed_request (s : VerificationService) v0 r0 x v r :
  dict_get v0 (svc_requests s) = Some r0 -> request_status r0 = Q_PENDING ->
  dict_get v (svc_requests s) = Some r ->
  exists status, dict_get v (dict_set v0 (request_set_status x r0) (svc_requests s)) = Some (request_set_status status r) /\
    (request_status r <> Q_PENDING -> status = request_status r).
Proof.
  intros H0 Hp Hr. rewrite dict_get_set. destruct (String.eqb_spec v v0) as [->|].
  - assert (r = r0) as -> by congruence. exists x. by rewrite Hp.
  - exists (request_status r). by rewrite request_same_status.
Qed.

#[export] Instance extends_refl : Reflexive extends.
Proof.
  intros s. split; try done; [exists []; by rewrite app_nil_r|by left|by intros v r; apply ext_same_requests|by eauto].
Qed.

#[export] Instance extends_trans : Transitive extends.
Proof.
  intros s1 s2 s3 [(l1 & A1) R1 E1 Q1 P1 D1] [(l2 & A2) R2 E2 Q2 P2 D2]. split.
  - exists (l1 ++ l2). by rewrite A2, A1, app_assoc.
  - intros i result Hi. destruct (R1 i result Hi) as [H2|(v1 & v2 & ? & ? & ?)]; [by apply R2|].
    right. exists v1, v2. split_and!; [done|by eapply lookup_weaken..].
  - by etransitivity.
  - intros v r Hr. destruct (Q1 v r Hr) as (x & Hx & Hsame). destruct (Q2 _ _ Hx) as (y & Hy & Hsame').
    exists y. split; [by rewrite Hy; destruct r|]. intros Hp. specialize (Hsame Hp) as ->.
    apply Hsame'. by destruct r.
  - intros k p Hk. destruct (P1 k p Hk) as (q & Hq & E). destruct (P2 k q Hq) as (q' & Hq' & E').
    exists q'. split; [done|congruence].
  - lia.
Qed.

Lemma svc_step_extends uuid s s' : svc_ok uuid s -> svc_step uuid s s' -> extends s s'.
Proof.
  intros Hok. destruct 1 as [n Hn|e|p Hp Heq|r Hr Hnew Hpend _|v r x Hr Hpend Hx|v r p result Hr Hpend Hv _ _ _ _];
    split; svc_cbn; try done; try (by left); try (by eauto); try (exists []; by rewrite app_nil_r); try (by intros; eapply ext_same_requests).
  - intros k q Hk. destruct (decide ((policy_policy_id p, policy_version p) = k)) as [<-|Hne].
    + exists p. rewrite lookup_insert_eq. split; [done|]. by rewrite (policy_eqb_rules _ _ (Heq q Hk)).
    + exists q. by rewrite lookup_insert_ne.
  - intros v' r' Hr'. exists (request_status r'). rewrite request_same_status, dict_get_set.
    destruct (String.eqb_spec v' (request_verification_id r)) as [->|]; [|done].
    apply dict_get_keys in Hr'. done.
  - intros v' r' Hr'. by apply ext_changed_request.
  - intros i result' Hi. destruct (decide (result_verification_result_id result = i)) as [<-|Hne]; [|left; by rewrite lookup_insert_ne].
    destruct (ok_requests _ _ Hok _ _ Hr) as [Hid _]. destruct (ok_results _ _ Hok _ _ Hi) as [Hnamed _].
    destruct (ok_recorded _ _ Hok _ _ Hnamed) as [_ (r' & Hr' & Hc)].
    assert (v <> result_verification_id result') as Hvne by (intros E; rewrite <- E, Hr in Hr'; congruence).
    right. exists v, (result_verification_id result'). svc_cbn. rewrite Hid, lookup_insert_eq, lookup_insert_ne by done. done.
  - apply insert_subseteq. destruct (svc_result_by_verification s !! _) as [i|] eqn:Hi; [|done].
    destruct (ok_requests _ _ Hok _ _ Hr) as [Hid _]. rewrite Hid in Hi.
    destruct (ok_recorded _ _ Hok _ _ Hi) as [_ (r' & Hr' & Hc)]. congruence.
  - intros v' r' Hr'. destruct (ok_requests _ _ Hok _ _ Hr) as [Hid _]. rewrite Hid. by apply ext_changed_request.
Qed.

Lemma svc_steps_extend uuid s s' : svc_ok uuid s -> rtc (svc_step uuid) s s' -> extends s s'.
Proof.
  intros Hok Hr. induction Hr as [|s s1 s2 Hstep _ IH]; [done|].
  transitivity s1; [by eapply svc_step_extends|]. apply IH. by eapply svc_ok_step.
Qed.

(** C30. What was recorded stays, whatever sequence of calls follows, failing ones included: audit events are only
    appended; a request keeps its content, a completed, expired or cancelled one also its status and, once it is
    completed, the identifier of its result; a registered policy keeps its rules; and a recorded result is never
    altered, unless a result for another request was recorded under its identifier, which the code accepts: then both
    requests are bound to this identifier from there on. *)
Theorem evidence_is_final utcnow uuid bound s s' :
  (forall n m, n < bound -> m < bound -> uuid n = uuid m -> n = m) ->
  reachable utcnow uuid bound s -> svc_reach utcnow uuid s s' -> svc_draws s' <= bound ->
  extends s s'.
Proof.
  intros Hd Hs Hr Hb. pose proof (reachable_ok utcnow uuid bound Hd s Hs) as Hok.
  destruct (svc_reach_Inv utcnow uuid bound Hd s s' (fun _ => Hok) Hr Hb) as [_ Hsteps]. by eapply svc_steps_extend.
Qed.
