(* ===== verification/VerificationRecords.v ===== *)
(** * Repair attempts, reviewers and records of the verification service

    The repair loop is bounded, the independence check is what the policy's rules say, and what the
    mutating calls record when they succeed or hit the limit. *)

From Stdlib Require Import SpecFloat.
From stdpp Require Import sorting.
From S2P Require Import Prelude PyValue Errors StateMonad Freeze Ident Lifecycle Domain Contracts.
From S2P Require Import PyTime VerificationModels VerificationService VerificationInvariant.
From S2P Require Import VerificationTheorems.

(** ** The repair loop is bounded *)

Section repair.
Context (utcnow : nat -> Z) (uuid : nat -> string) (bound : nat).
Context (uuid_distinct : forall n m, n < bound -> m < bound -> uuid n = uuid m -> n = m).

Lemma request_attempt_nonneg r : VerificationRequest_post_init r = Ok r -> (0 <= request_repair_attempt r)%Z.
Proof. unfold VerificationRequest_post_init. intros H. res_inv. lia. Qed.

Lemma seen_at_attempt now r : request_repair_attempt (seen_at now r) = request_repair_attempt r.
Proof. unfold seen_at. by destruct (overdue now r), r. Qed.

(** The evidence of a stage comes from stored requests. *)
Lemma stage_results_attempts s task_id subject policy current stage m x :
  svc_ok uuid s -> stage_results s task_id subject policy current stage = Ok m -> x ∈ m ->
  (0 <= request_repair_attempt x.1)%Z.
Proof.
  intros Hok Hm Hx. unfold stage_results, matching_stage_results in Hm. destruct x as [r result].
  apply (collect_results_spec _ _ _ _ _ Hm) in Hx as (Hr & _). unfold matching_stage_requests in Hr.
  apply list_elem_of_fmap in Hr as (r0 & -> & Hr0). apply list_elem_of_In, filter_In in Hr0 as [Hr0 _].
  apply list_elem_of_In in Hr0. cbn. rewrite seen_at_attempt. apply request_attempt_nonneg.
  by apply (ok_requests _ _ Hok _ _ (stored_request _ _ _ Hok Hr0)).
Qed.

Lemma max_attempt_nonneg (m : evidence) : (forall x, x ∈ m -> 0 <= request_repair_attempt x.1)%Z -> (0 <= max_attempt 0 m)%Z.
Proof.
  intros H. destruct m as [|x m]; [done|]. destruct (max_attempt_max 0 (x :: m) x) as [Hle _]; [by left|].
  specialize (H x ltac:(by left)). lia.
Qed.

Lemma first_incomplete_remaining s task_id subject policy_id version policy current stages attempt a :
  first_incomplete s task_id subject policy_id version policy current stages attempt = Ok a -> (0 <= attempt)%Z ->
  exists n, (0 <= n)%Z /\ assessment_repair_attempts_remaining a = remaining_after policy n.
Proof.
  revert attempt. induction stages as [|stage stages IH]; intros attempt; cbn; intros H Hatt.
  { apply assessment_state_eq in H as ->. by exists attempt. }
  res_inv. set (attempt' := match _ with [] => attempt | _ => _ end) in H.
  assert (0 <= attempt')%Z as Hatt' by (unfold attempt'; destruct x; lia).
  destruct (_ <? _)%Z; [|by eapply IH]. exists attempt'. split; [done|].
  unfold stage_incomplete in H. cbv zeta in H. destruct (negb _); by apply assessment_state_eq in H as ->.
Qed.

Lemma stages_attempts s task_id subject policy current stages stage_matches :
  svc_ok uuid s ->
  map_res (fun stage => m ← stage_results s task_id subject policy current stage; Ok (stage, m)) stages = Ok stage_matches ->
  (0 <= max_attempt 0 (concat (map snd stage_matches)))%Z.
Proof.
  intros Hok Hm. apply max_attempt_nonneg. intros x Hx.
  apply list_elem_of_In, in_concat in Hx as (m & Hm' & Hx). apply in_map_iff in Hm' as ([st m0] & <- & Hin).
  apply list_elem_of_In in Hin, Hx. apply map_res_ok in Hm. apply list_elem_of_lookup_1 in Hin as [i Hi].
  destruct (Forall2_lookup_r _ _ _ _ _ Hm Hi) as (stage & _ & Heq). res_inv. simplify_eq.
  by eapply stage_results_attempts.
Qed.

(** The repair loop is bounded. In every state that calls reach, each stored request belongs to a
    registered policy and its repair attempt lies between 0 and the policy's limit; and an assessment
    reports between 0 and the limit as the attempts that remain. *)
Theorem repair_attempts_bounded s :
  reachable utcnow uuid bound s ->
  (forall r, r ∈ map snd (svc_requests s) ->
     exists p, svc_policies s !! (request_policy_id r, request_policy_version r) = Some p /\
       (0 <= request_repair_attempt r <= policy_max_repair_attempts p)%Z) /\
  (forall task_id subject policy_id version now p a,
     assess_completion s task_id subject (Some policy_id) (Some version) now = Ok a ->
     svc_policies s !! (policy_id, version) = Some p ->
     (0 <= assessment_repair_attempts_remaining a <= policy_max_repair_attempts p)%Z).
Proof.
  intros Hok%(reachable_ok utcnow uuid bound uuid_distinct). split.
  - intros r Hr. destruct (ok_requests _ _ Hok _ _ (stored_request _ _ _ Hok Hr)) as (_ & Hpi & p & stage & Hp & _ & _ & Hle & _).
    exists p. split; [done|]. split; [|done]. by apply request_attempt_nonneg.
  - intros task_id subject policy_id version now p a Ha Hp. destruct (ok_policies _ _ Hok _ _ Hp) as [_ Hpol].
    assert (0 <= policy_max_repair_attempts p)%Z as Hmax by (unfold VerificationPolicy_post_init in Hpol; res_inv; lia).
    cbn in Ha. unfold get_policy in Ha. rewrite Hp in Ha. cbn [mbind result_bind] in Ha. res_inv.
    destruct (policy_stages p) as [|st0 sts] eqn:Hst; [by apply assessment_state_eq in Ha as ->|].
    rewrite assessment_matches_reference in Ha. unfold reference_assessment in Ha. cbv zeta in Ha. res_inv.
    match goal with H : map_res _ _ = Ok ?sm |- _ => pose proof (stages_attempts _ _ _ _ _ _ _ Hok H) as Hobs; rename sm into x0 end.
    set (observed := max_attempt 0 (concat (map snd x0))) in *.
    assert (exists n, (0 <= n)%Z /\ assessment_repair_attempts_remaining a = remaining_after p n) as (n & Hn & ->).
    { destruct (first_stage critical_failure x0) as [[]|]; [apply assessment_state_eq in Ha as ->; by exists observed|].
      destruct (first_stage wants_changes x0) as [[]|]; [apply assessment_state_eq in Ha as ->; by exists observed|].
      by eapply first_incomplete_remaining. }
    unfold remaining_after. lia.
Qed.
End repair.

(** ** Who may review *)

(** Two identities are known and differ. *)
Definition known_distinct (a b : option string) : Prop := exists x y, a = Some x /\ b = Some y /\ x <> y.

Lemma require_distinct_known v p m1 m2 : require_distinct v p m1 m2 = Ok tt -> known_distinct v p.
Proof.
  unfold require_distinct. destruct p as [p|], v as [v|]; try done. intros H. res_inv.
  exists v, p. split_and!; [done..|]. intros ->. by rewrite String.eqb_refl in *.
Qed.

Lemma when_ok b r : when b r = Ok tt -> b = true -> r = Ok tt.
Proof. by intros H ->. Qed.

(** What an independent reviewer of a request is. *)
Record independent (policy : VerificationPolicy) (request : VerificationRequest) (verifier : VerifierIdentity) : Prop := {
  ind_read_only : verifier_kind verifier = V_AGENT ->
    agent_reviewer_must_be_read_only (policy_independence policy) = true -> verifier_read_only verifier = true;
  ind_agent : verifier_kind verifier = V_AGENT -> producer_agent_must_differ (policy_independence policy) = true ->
    known_distinct (verifier_agent_id verifier) (request_producer request ≫= producer_agent_id);
  ind_model : model_must_differ (policy_independence policy) = true ->
    known_distinct (verifier_model_config_id verifier) (request_producer request ≫= producer_model_config_id);
  ind_provider : provider_must_differ (policy_independence policy) = true ->
    known_distinct (verifier_provider_id verifier) (request_producer request ≫= producer_provider_id);
  ind_human : verifier_kind verifier = V_HUMAN -> human_reviewer_must_differ (policy_independence policy) = true ->
    known_distinct (Some (verifier_verifier_ref verifier)) (producer_actor_ref <$> request_producer request);
  ind_self : (forbid_self_verification (policy_independence policy) = true \/
      policy_risk_classification policy ∈ forbid_self_verification_risk_classes (policy_independence policy)) ->
    known_distinct (Some (verifier_verifier_ref verifier)) (producer_actor_ref <$> request_producer request) /\
    (verifier_kind verifier = V_AGENT -> forall x, verifier_agent_id verifier = Some x ->
       request_producer request ≫= producer_agent_id <> Some x)
}.

Lemma enforced_independent policy request verifier :
  enforce_independence policy request verifier = Ok tt -> independent policy request verifier.
Proof.
  unfold enforce_independence. cbv zeta. set (rules := policy_independence policy). intros H. res_inv.
  assert (forall k, verifier_kind verifier = k -> bool_decide (verifier_kind verifier = k) = true) as Hk
    by (intros k ->; by apply bool_decide_eq_true_2).
  assert (verifier_kind verifier = V_AGENT -> agent_reviewer_must_be_read_only rules = true ->
    verifier_read_only verifier = true) as Hro.
  { intros Ha Hr. match goal with H : when _ (require (verifier_read_only _) _) = _ |- _ => rename H into Hw end.
    rewrite (Hk _ Ha), Hr in Hw. cbn in Hw. by res_inv. }
  destruct (request_producer request) as [producer|] eqn:Hprod.
  2: { unfold requires_producer, risk_forbids_self in H. fold rules in H. res_inv.
       repeat match goal with H : negb _ = true |- _ => apply negb_true_iff in H
         | H : (_ || _) = false |- _ => apply orb_false_iff in H as [??]
         | H : bool_decide _ = false |- _ => apply bool_decide_eq_false in H end.
       split; fold rules; [done|intros Ha Hr|intros Hr|intros Hr|intros Ha Hr|intros [Hr|Hr]]; try congruence; try done;
         rewrite Hr, (Hk _ Ha) in *; done. }
  res_inv.
  repeat match goal with u : unit |- _ => destruct u end.
  split; fold rules; rewrite ?Hprod; cbn; [done| | | | |].
  - intros Ha Hr. eapply require_distinct_known, when_ok; [eassumption|]. by rewrite Hr, (Hk _ Ha).
  - intros Hr. by eapply require_distinct_known, when_ok; [eassumption|].
  - intros Hr. by eapply require_distinct_known, when_ok; [eassumption|].
  - intros Ha Hr. match goal with H : when (human_reviewer_must_differ _ && _) _ = _ |- _ =>
      apply when_ok in H; [|by rewrite Hr, (Hk _ Ha)] end. res_inv.
    eexists _, _. split_and!; [done..|]. by intros E%String.eqb_eq; rewrite E in *.
  - intros Hf. apply when_ok in H.
    2: { unfold risk_forbids_self. fold rules. destruct Hf as [->|Hf]; [done|]. apply orb_true_iff. right.
         by apply bool_decide_eq_true. }
    res_inv. match goal with H : negb (_ || _) = true |- _ => apply negb_true_iff, orb_false_iff in H as [Href Hag] end.
    split.
    + eexists _, _. split_and!; [done..|]. by apply String.eqb_neq.
    + intros Ha x Hx Hp. rewrite Hp, Hx, (Hk _ Ha) in Hag. by rewrite bool_decide_eq_true_2 in Hag.
Qed.

Lemma known_distinct_required a b m1 m2 : known_distinct a b -> require_distinct a b m1 m2 = Ok tt.
Proof. intros (x & y & -> & -> & Hne). cbn. by rewrite (proj2 (String.eqb_neq x y) Hne). Qed.

Lemma when_holds b e : (b = true -> e = Ok tt) -> when b e = Ok tt.
Proof. destruct b; cbn; auto. Qed.

Lemma when_then {A} b e (f : unit -> res A) r : (b = true -> e = Ok tt) -> f tt = r -> (when b e ≫= f) = r.
Proof. intros H. by rewrite (when_holds b e H). Qed.

Lemma independent_enforced policy request verifier :
  independent policy request verifier -> enforce_independence policy request verifier = Ok tt.
Proof.
  intros [Hro Hag Hmo Hpr Hhu Hse]. unfold enforce_independence. cbv zeta.
  set (rules := policy_independence policy) in *.
  assert (forall k (b : bool), bool_decide (verifier_kind verifier = k) && b = true -> verifier_kind verifier = k /\ b = true)
    as Hk by (intros k b H; by bool_props).
  apply when_then; [intros [Ha Hr]%Hk; by rewrite Hro|].
  destruct (request_producer request) as [producer|]; cbn in *.
  - apply when_then; [rewrite andb_comm; intros [Ha Hr]%Hk; by apply known_distinct_required, Hag|].
    apply when_then; [intros Hr; by apply known_distinct_required, Hmo|].
    apply when_then; [intros Hr; by apply known_distinct_required, Hpr|].
    apply when_then.
    { rewrite andb_comm. intros [Ha Hr]%Hk. destruct (Hhu Ha Hr) as (x & y & [= <-] & [= <-] & Hne).
      by rewrite (proj2 (String.eqb_neq _ _) Hne). }
    apply when_holds. intros Hf.
    destruct Hse as [(x & y & [= <-] & [= <-] & Hne) Hself].
    { apply orb_true_iff in Hf as [Hf|Hf]; [by left|right]. by apply bool_decide_eq_true in Hf. }
    rewrite (proj2 (String.eqb_neq _ _) Hne). cbn.
    destruct (bool_decide_reflect (verifier_kind verifier = V_AGENT)) as [Ha|]; [|done]. cbn.
    destruct (producer_agent_id producer) as [p|] eqn:Hp; [|done]. rewrite bool_decide_eq_false_2; [done|].
    intros E. by apply (Hself Ha p E).
  - assert (requires_producer policy verifier = false) as ->; [|done].
    assert (forall a, ~ known_distinct a None) as Hno by (intros a (x & y & _ & [=] & _)).
    unfold requires_producer, risk_forbids_self. fold rules.
    destruct (producer_agent_must_differ rules) eqn:E1, (bool_decide_reflect (verifier_kind verifier = V_AGENT)) as [Ha|];
      try (by destruct (Hno _ (Hag Ha eq_refl))); cbn;
    (destruct (model_must_differ rules) eqn:E2; [by destruct (Hno _ (Hmo eq_refl))|]); cbn;
    (destruct (provider_must_differ rules) eqn:E3; [by destruct (Hno _ (Hpr eq_refl))|]); cbn;
    (destruct (human_reviewer_must_differ rules) eqn:E4, (bool_decide_reflect (verifier_kind verifier = V_HUMAN)) as [Hh|];
      try (by destruct (Hno _ (Hhu Hh eq_refl)))); cbn;
    (destruct (forbid_self_verification rules) eqn:E5; [by destruct (Hno _ (proj1 (Hse (or_introl eq_refl))))|]); cbn;
    (apply bool_decide_eq_false_2; intros Hr; by destruct (Hno _ (proj1 (Hse (or_intror Hr))))).
Qed.

(** C36. The independence rules. The check of a verifier against a request succeeds exactly if the
    verifier is independent as the policy defines it: read-only agents, identities that are known on
    both sides and differ, and no self-verification where the policy or the risk class forbids it. An
    unknown producer satisfies no rule that compares with it. *)
Theorem independence_enforced policy request verifier :
  enforce_independence policy request verifier = Ok tt <-> independent policy request verifier.
Proof. split; [apply enforced_independent|apply independent_enforced]. Qed.

(** ** What the calls record *)

Section recording.
Context (utcnow : nat -> Z) (uuid : nat -> string) (bound : nat).
Context (uuid_distinct : forall n m, n < bound -> m < bound -> uuid n = uuid m -> n = m).

(** Reading the clock only counts a draw; an audit event is appended as it was made. *)
Lemma now_or_ok now s d s' : now_or utcnow now s = (Ok d, s') -> exists n, svc_set_draws n s = s'.
Proof. destruct now; cbn; intros [= <- <-]; [exists (svc_draws s); by destruct s|by eexists]. Qed.

Lemma append_audit_ok make s u s' : append_audit uuid make s = (Ok u, s') ->
  svc_set_audit (svc_audit_events s ++ [make (drawn_id uuid "verification_audit" (svc_draws s))])
    (svc_set_draws (S (svc_draws s)) s) = s'.
Proof.
  unfold append_audit. intros H. st_inv. unfold fresh_id, draw in *. simplify_eq.
  assert (forall e e', VerificationAuditEvent_post_init e = Ok e' -> e' = e) as Hpi.
  { intros e e' He. unfold VerificationAuditEvent_post_init in He. by res_inv. }
  match goal with H : VerificationAuditEvent_post_init _ = _ |- _ => by rewrite (Hpi _ _ H) end.
Qed.

(** A successful lookup returns what is stored then; it touches neither results nor policies. *)
Lemma get_request_stored v now s r s' : get_request utcnow uuid v now s = (Ok r, s') ->
  dict_get v (svc_requests s') = Some r /\ svc_results s' = svc_results s /\
  svc_result_by_verification s' = svc_result_by_verification s /\ svc_policies s' = svc_policies s /\
  exists r0 status, dict_get v (svc_requests s) = Some r0 /\ r = request_set_status status r0.
Proof.
  unfold get_request. intros H. st_inv. destruct (dict_get v (svc_requests s)) as [r0|] eqn:Hr; [|done].
  match goal with H : Ok _ = Ok _ |- _ => injection H as -> end.
  match goal with H : now_or _ _ _ = _ |- _ => apply now_or_ok in H as [n <-] end.
  destruct (overdue _ _); st_inv; svc_cbn.
  - match goal with H : append_audit _ _ _ = _ |- _ => apply append_audit_ok in H as <- end. svc_cbn.
    rewrite dict_get_set, String.eqb_refl. split_and!; eauto.
  - split_and!; [done..|]. eexists _, _. split; [done|]. by rewrite request_same_status.
Qed.

(** A result that was accepted is the recorded evidence. After a successful [submit_result], the
    result is the one that lookups return for its request, the request is completed and reviews exactly
    the result's subject by a verifier that was independent, and the last audit event says so. *)
Theorem submitted_result_is_recorded result canonical s result' s' :
  reachable utcnow uuid bound s ->
  submit_result utcnow uuid result canonical s = (Ok result', s') ->
  result' = result /\ result_for s' (result_verification_id result) = Ok (Some result) /\
  exists request policy event, dict_get (result_verification_id result) (svc_requests s') = Some request /\
    request_status request = Q_COMPLETED /\ request_subject request = result_subject result /\
    request_requested_verifier_kind request = verifier_kind (result_verifier result) /\
    svc_policies s' !! (request_policy_id request, request_policy_version request) = Some policy /\
    independent policy request (result_verifier result) /\
    last (svc_audit_events s') = Some event /\ audit_event_type event = AE_RESULT_RECORDED /\
    audit_outcome event = Some (result_outcome result) /\ audit_subject event = Some (request_subject request).
Proof.
  intros Hok%(reachable_ok utcnow uuid bound uuid_distinct). unfold submit_result. intros H. st_inv. split; [done|].
  match goal with H : get_request _ _ _ _ _ = (Ok ?r, ?s1) |- _ =>
    apply get_request_stored in H as (Hr & _ & _ & Hpol & r0 & status & Hr0 & ->) end.
  match goal with H : append_audit _ _ _ = _ |- _ => apply append_audit_ok in H as <- end.
  destruct (ok_requests _ _ Hok _ _ Hr0) as [Hid _]. set (request := request_set_status status r0) in *.
  assert (request_verification_id request = result_verification_id result) as E by done.
  unfold store_request in *. st_inv. unfold result_for. svc_cbn.
  rewrite ?E, ?Hid, lookup_insert_eq, lookup_insert_eq.
  split; [done|]. exists (request_set_status Q_COMPLETED request). bool_props.
  match goal with H : get_policy _ _ _ = Ok ?q |- _ => exists q; rename H into Hget; rename q into policy end.
  eexists. rewrite dict_get_set, String.eqb_refl, last_snoc. split_and!; try first [done|by symmetry].
  - unfold get_policy in Hget. cbn. by destruct (svc_policies _ !! _) as [q|]; [injection Hget as ->|].
  - apply enforced_independent. match goal with u : unit, H : enforce_independence _ _ _ = Ok ?u |- _ => by destruct u end.
  - cbn [audit_subject]. f_equal. by match goal with H : result_subject result = _ |- _ => rewrite H end.
Qed.

(** A new request is stored as it is returned. *)
Lemma request_verification_stored task_id policy_id version stage_id subject rc attempt now canonical s r s' :
  request_verification utcnow uuid task_id policy_id version stage_id subject rc attempt now canonical s = (Ok r, s') ->
  dict_get (request_verification_id r) (svc_requests s') = Some r /\ request_status r = Q_PENDING /\
  request_subject r = subject /\ request_repair_attempt r = attempt /\ request_task_id r = task_id /\
  svc_policies s' = svc_policies s /\
  exists p, svc_policies s !! (policy_id, version) = Some p /\ request_policy_id r = policy_policy_id p /\
    request_policy_version r = policy_version p /\ request_stage_id r = stage_id /\
    (attempt <= policy_max_repair_attempts p)%Z.
Proof.
  unfold request_verification. intros H. st_inv.
  match goal with H : append_audit _ _ _ = _ |- _ => apply append_audit_ok in H as <- end.
  match goal with H : now_or _ _ _ = _ |- _ => apply now_or_ok in H as [n <-] end.
  unfold store_request, fresh_id, draw in *. st_inv. simplify_eq.
  match goal with H : VerificationRequest_post_init _ = _ |- _ => apply VerificationRequest_post_init_eq in H as -> end.
  svc_cbn. rewrite dict_get_set, String.eqb_refl. split_and!; try done.
  match goal with H : get_policy _ _ _ = Ok ?p |- _ => exists p; rename H into Hget end.
  unfold get_policy, id in Hget. destruct (svc_policies s !! _) as [q|]; [injection Hget as ->|done].
  match goal with H : match policy_stage _ _ with _ => _ end = Ok _ |- _ => rename H into Hst end.
  destruct (policy_stage _ _) as [st|] eqn:Hstage; [injection Hst as ->|done].
  cbn. split_and!; [done..| |lia]. by apply policy_stage_id in Hstage.
Qed.

(** Each repair is a new attempt. A successful request for reverification refers to a recorded result
    that asks for changes, is for a subject other than the reviewed one, at the same stage of the same
    policy version, with the attempt counted up by one and still within the limit; the new request is
    pending and stored. *)
Theorem reverification_is_next_attempt v subject rc capability_ids replace canonical s r s' :
  reachable utcnow uuid bound s ->
  request_reverification_after_repair utcnow uuid v subject rc capability_ids replace canonical s = (Ok r, s') ->
  exists previous result policy, dict_get v (svc_requests s) = Some previous /\
    result_for s v = Ok (Some result) /\ result_outcome result = O_NEEDS_CHANGES /\
    request_subject r = subject /\ subject <> request_subject previous /\
    request_task_id r = request_task_id previous /\ request_stage_id r = request_stage_id previous /\
    request_policy_id r = request_policy_id previous /\ request_policy_version r = request_policy_version previous /\
    svc_policies s !! (request_policy_id r, request_policy_version r) = Some policy /\
    request_repair_attempt r = (request_repair_attempt previous + 1)%Z /\
    (request_repair_attempt r <= policy_max_repair_attempts policy)%Z /\
    request_status r = Q_PENDING /\ dict_get (request_verification_id r) (svc_requests s') = Some r.
Proof.
  intros Hok%(reachable_ok utcnow uuid bound uuid_distinct). unfold request_reverification_after_repair.
  cbv zeta. intros H. st_inv.
  match goal with H : get_request _ _ _ _ _ = _ |- _ =>
    apply get_request_stored in H as (_ & Hres & Hbind & Hpol & previous & status & Hprev & ->) end.
  match goal with H : result_for _ _ = Ok ?o |- _ => rename H into Hresult; destruct o as [result|]; [|done] end.
  apply request_verification_stored in H as (Hg & Hs & Hsub & Hatt & Htask & _ & p & Hp & Epid & Ever & Estage & Hle).
  rewrite Hpol in Hp. destruct (ok_policies _ _ Hok _ _ Hp) as [Hkey _]. injection Hkey as Epid' Ever'. bool_props.
  exists previous, result, p. unfold id, result_for in *. rewrite Hbind, Hres in Hresult.
  cbn [request_set_status request_subject request_task_id request_stage_id request_policy_id request_policy_version
    request_repair_attempt] in *.
  rewrite Epid, Ever, <- Epid', <- Ever'. subst. rewrite <- Hatt in *. split_and!; try done; lia.
Qed.

(** Looking at a settled request only reads the clock. *)
Lemma get_request_settled v s r :
  dict_get v (svc_requests s) = Some r -> request_status r <> Q_PENDING ->
  get_request utcnow uuid v None s = (Ok r, svc_set_draws (S (svc_draws s)) s).
Proof.
  intros Hr Hs. unfold get_request, mbind, st_bind, gets, of_res, id. rewrite Hr. cbn.
  assert (overdue (Aware (utcnow (svc_draws s))) r = false) as ->; [|done].
  unfold overdue. by rewrite bool_decide_eq_false_2.
Qed.

(** The repair limit. When the request that was told to change is the policy's last allowed attempt,
    asking for another review fails with CONFLICT and leaves the service as it was; only the clock was read. *)
Theorem repair_limit_is_final v subject rc capability_ids replace canonical s r result p :
  reachable utcnow uuid bound s ->
  negb (svc_require_canonical_subjects s && negb canonical) = true ->
  dict_get v (svc_requests s) = Some r -> result_for s v = Ok (Some result) ->
  result_outcome result = O_NEEDS_CHANGES ->
  svc_policies s !! (request_policy_id r, request_policy_version r) = Some p ->
  request_repair_attempt r = policy_max_repair_attempts p ->
  request_reverification_after_repair utcnow uuid v subject rc capability_ids replace canonical s =
  (Err (contract_error CONFLICT "verification repair limit exhausted"), svc_set_draws (S (svc_draws s)) s).
Proof.
  intros Hok%(reachable_ok utcnow uuid bound uuid_distinct) Hcan Hr Hresult Hout Hp Hatt.
  assert (request_status r <> Q_PENDING) as Hset.
  { destruct (result_for_ok _ _ _ Hresult) as (i & Hi & _).
    destruct (ok_recorded _ _ Hok _ _ Hi) as [_ (r' & Hr' & Hc)]. congruence. }
  pose proof (get_request_settled v s r Hr Hset) as Hget.
  unfold request_reverification_after_repair. cbv zeta. unfold mbind, st_bind, gets, of_res, ensure, id.
  rewrite Hcan. unfold mret, st_ret at 1. cbv beta iota. rewrite Hget. cbv beta iota.
  change (result_for (svc_set_draws (S (svc_draws s)) s) v) with (result_for s v).
  rewrite Hresult. cbv beta iota. rewrite bool_decide_eq_true_2 by done. cbv beta iota.
  change (get_policy (svc_set_draws (S (svc_draws s)) s)) with (get_policy s).
  unfold get_policy at 1. rewrite Hp. cbv beta iota.
  assert ((request_repair_attempt r + 1 <=? policy_max_repair_attempts p)%Z = false) as -> by lia. done.
Qed.

(** C16. The invariant of the service, in every state that any sequence of calls reaches: registered
    policies are well formed and filed under their own identifier and version; requests are well formed,
    filed once under their own identifier, for a stage of a registered policy that applies to their task;
    each stored result is bound to the completed request that it names, reviews exactly the subject of this request, by
    a verifier of the requested kind that the independence rules allow; and exactly the completed requests are bound
    to a stored result. A result submitted under a used identifier is accepted and leaves two requests bound to it, of
    which it names the later one; where no two requests share a result, each has the evidence described. *)
Theorem verification_service_invariant s :
  reachable utcnow uuid bound s ->
  svc_ok uuid s /\
  (results_unshared s -> forall v r, dict_get v (svc_requests s) = Some r -> request_status r = Q_COMPLETED ->
     exists result_id, svc_result_by_verification s !! v = Some result_id /\ evidence_ok s v result_id).
Proof.
  intros Hok%(reachable_ok utcnow uuid bound uuid_distinct). split; [done|]. intros Hun v r Hr Hc.
  destruct (ok_completed _ _ Hok v r Hr Hc) as [result_id Hv]. exists result_id. split; [done|]. by eapply unshared_evidence.
Qed.

#[export] Instance history_le_total : Total history_le.
Proof.
  intros a b. unfold history_le, history_leb.
  destruct (Z.lt_trichotomy (instant (request_created_at a.1)) (instant (request_created_at b.1))) as [H|[H|H]].
  - left. apply Z.ltb_lt in H. by rewrite H.
  - destruct (leb_total (request_verification_id a.1) (request_verification_id b.1)) as [Hi|Hi];
      [left|right]; by rewrite H, Z.eqb_refl, Hi, orb_true_r.
  - right. apply Z.ltb_lt in H. by rewrite H.
Qed.

(** The history of a task is complete and in order. In every state that calls reach, [history]
    succeeds and returns exactly the task's requests, each with its recorded result, sorted by creation
    time and then by identifier. *)
Theorem history_complete s task_id :
  reachable utcnow uuid bound s ->
  exists items, task_history s task_id = Ok items /\ Sorted history_le items /\
    NoDup (map (fun x : history_item => request_verification_id x.1) items) /\
    forall r o, (r, o) ∈ items <->
      r ∈ map snd (svc_requests s) /\ request_task_id r = task_id /\ result_for s (request_verification_id r) = Ok o.
Proof.
  intros Hok%(reachable_ok utcnow uuid bound uuid_distinct).
  assert (forall l, exists items, map_res (fun r => x ← result_for s (request_verification_id r); Ok (r, x)) l = Ok items /\
    map fst items = l /\ forall r o, (r, o) ∈ items <-> r ∈ l /\ result_for s (request_verification_id r) = Ok o) as Hmap.
  { induction l as [|r l (items & Hi & Hf & IH)].
    - exists []. split_and!; [done..|]. intros r o. rewrite !elem_of_nil. naive_solver.
    - assert (exists o, result_for s (request_verification_id r) = Ok o) as [o Ho].
      { unfold result_for. destruct (svc_result_by_verification s !! _) as [i|] eqn:Hb; [|eauto].
        destruct (ok_recorded _ _ Hok _ _ Hb) as [[x ->] _]. eauto. }
      exists ((r, o) :: items). cbn. rewrite Ho, Hi, Hf. split_and!; [done..|]. intros r' o'.
      rewrite !elem_of_cons, IH. split; [naive_solver|]. intros [[->|Hin] Ho']; [left; congruence|by right]. }
  unfold task_history. destruct (Hmap (List.filter (fun r => String.eqb (request_task_id r) task_id) (map snd (svc_requests s))))
    as (items & -> & Hf & Hin).
  eexists. split; [done|]. split; [apply Sorted_merge_sort, history_le_total|]. split.
  - rewrite (merge_sort_Permutation history_le items). 
    assert (map (fun x : history_item => request_verification_id x.1) items = map request_verification_id (map fst items)) as ->
      by (symmetry; apply map_map).
    rewrite Hf.
    apply (sublist_NoDup _ (map request_verification_id (map snd (svc_requests s)))); [by apply (stored_ids_distinct uuid)|].
    apply (fmap_sublist request_verification_id), sublist_List_filter.
  - intros r o. rewrite (merge_sort_Permutation history_le items), Hin, list_elem_of_In, filter_In, <- list_elem_of_In.
    rewrite String.eqb_eq. naive_solver.
Qed.
End recording.
