(* ===== verification/CompletionGate.v ===== *)
(** * The completion gate: verification/gate.py

    [VerificationCompletionAuthority] binds each task to one policy version and to the subject under
    review, and turns the service's assessment into the decision that the kernel asks for before a
    task succeeds. Its methods run in the same state monad, over the pair of the service and the
    requirements. *)

From Stdlib Require Import SpecFloat.
From S2P Require Import Prelude PyValue Errors StateMonad Freeze Ident Lifecycle Domain Contracts.
From S2P Require Import PyTime VerificationModels VerificationService.

Record TaskVerificationRequirement := Build_TaskVerificationRequirement {
  requirement_task_id : string;
  requirement_policy_id : string;
  requirement_policy_version : Z;
  requirement_subject : option VerificationSubject;
  requirement_created_at : datetime;
  requirement_updated_at : datetime
}.

Definition TaskVerificationRequirement_post_init (r : TaskVerificationRequirement) : res TaskVerificationRequirement :=
  _ ← validate_id (requirement_task_id r) "task";
  _ ← validate_id (requirement_policy_id r) "verification_policy";
  _ ← require (1 <=? requirement_policy_version r)%Z
        (ValueError "verification requirement policy_version must be >= 1");
  _ ← require_aware (requirement_created_at r) "verification requirement created_at";
  _ ← require_aware (requirement_updated_at r) "verification requirement updated_at";
  _ ← require (negb (dt_ltb (requirement_updated_at r) (requirement_created_at r)))
        (ValueError "verification requirement updated_at cannot precede created_at");
  Ok r.

Record VerificationCompletionAuthority := Build_VerificationCompletionAuthority {
  authority_verification : VerificationService;
  authority_requirements : gmap string TaskVerificationRequirement
}.

(** [VerificationCompletionAuthority(verification)] *)
Definition new_authority (s : VerificationService) : VerificationCompletionAuthority :=
  Build_VerificationCompletionAuthority s ∅.

(** [replace(requirement, subject=..., updated_at=...)] *)
Definition rebind (r : TaskVerificationRequirement) (subject : option VerificationSubject) (updated_at : datetime) :
    res TaskVerificationRequirement :=
  TaskVerificationRequirement_post_init
    (Build_TaskVerificationRequirement (requirement_task_id r) (requirement_policy_id r)
       (requirement_policy_version r) subject (requirement_created_at r) updated_at).

Section authority.
Context (utcnow : nat -> Z) (uuid : nat -> string).

(** A call of the authority's service. *)
Definition on_service {A} (m : st VerificationService A) : st VerificationCompletionAuthority A := fun a =>
  let (r, s) := m (authority_verification a) in
  (r, Build_VerificationCompletionAuthority s (authority_requirements a)).

(** [self._requirements[task_id] = requirement] *)
Definition set_requirement (task_id : string) (r : TaskVerificationRequirement) :
    st VerificationCompletionAuthority unit :=
  modify (fun a => Build_VerificationCompletionAuthority (authority_verification a)
    (<[task_id := r]> (authority_requirements a))).

Definition current_time (now : option datetime) (field_name : string) : st VerificationCompletionAuthority datetime :=
  current ← on_service (now_or utcnow now);
  of_res (require_aware current field_name).

Definition require_task (task_id policy_id : string) (version : Z) (now : option datetime) :
    st VerificationCompletionAuthority TaskVerificationRequirement :=
  _ ← of_res (validate_id task_id "task");
  a ← gets id;
  _ ← of_res (get_policy (authority_verification a) policy_id version);
  current ← current_time now "verification requirement time";
  match authority_requirements a !! task_id with
  | Some existing =>
      _ ← ensure (String.eqb (requirement_policy_id existing) policy_id &&
                  (requirement_policy_version existing =? version)%Z)
            (contract_error CONFLICT "task already has a different canonical verification requirement");
      mret existing
  | None =>
      requirement ← of_res (TaskVerificationRequirement_post_init
        (Build_TaskVerificationRequirement task_id policy_id version None current current));
      _ ← set_requirement task_id requirement;
      mret requirement
  end.

Definition requirement_for (task_id : string) : st VerificationCompletionAuthority (option TaskVerificationRequirement) :=
  _ ← of_res (validate_id task_id "task");
  gets (fun a => authority_requirements a !! task_id).

Definition invalidate_task_subject (task_id : string) (now : option datetime) :
    st VerificationCompletionAuthority (option TaskVerificationRequirement) :=
  _ ← of_res (validate_id task_id "task");
  existing ← gets (fun a => authority_requirements a !! task_id);
  match existing with
  | None => mret None
  | Some requirement =>
      match requirement_subject requirement with
      | None => mret (Some requirement)
      | Some _ =>
          current ← current_time now "verification invalidation time";
          updated ← of_res (rebind requirement None current);
          _ ← set_requirement task_id updated;
          mret (Some updated)
      end
  end.

Definition bind_subject (task_id : string) (subject : VerificationSubject) (now : option datetime) :
    st VerificationCompletionAuthority TaskVerificationRequirement :=
  _ ← of_res (validate_id task_id "task");
  existing ← gets (fun a => authority_requirements a !! task_id);
  requirement ← of_res (match existing with
                        | Some r => Ok r
                        | None => Err (contract_error CONFLICT "task has no canonical verification requirement")
                        end);
  current ← current_time now "verification subject binding time";
  if bool_decide (requirement_subject requirement = Some subject) then mret requirement
  else
    updated ← of_res (rebind requirement (Some subject) current);
    _ ← set_requirement task_id updated;
    mret updated.

(** After a successful request, the task is bound to its policy version and subject. *)
Definition bind_request (task_id policy_id : string) (version : Z) (subject : VerificationSubject)
    (now : option datetime) (request : VerificationRequest) : st VerificationCompletionAuthority VerificationRequest :=
  _ ← require_task task_id policy_id version now;
  _ ← bind_subject task_id subject now;
  mret request.

(** [request_verification], and with [canonical] [request_canonical_verification]. *)
Definition authority_request_verification (task_id policy_id : string) (version : Z) (stage_id : string)
    (subject : VerificationSubject) (rc : RequestContext) (repair_attempt : Z) (now : option datetime)
    (canonical : bool) : st VerificationCompletionAuthority VerificationRequest :=
  request ← on_service (request_verification utcnow uuid task_id policy_id version stage_id subject rc
              repair_attempt now canonical);
  bind_request task_id policy_id version subject now request.

(** [request_reverification_after_repair], and with [canonical] its canonical variant, which takes the
    project, capabilities and producer of the repaired work. *)
Definition authority_request_reverification (verification_id : string) (new_subject : VerificationSubject)
    (rc : RequestContext) (canonical : bool) : st VerificationCompletionAuthority VerificationRequest :=
  request ← on_service (request_reverification_after_repair utcnow uuid verification_id new_subject rc
              (if canonical then Some (rc_capability_ids rc) else None) canonical canonical);
  bind_request (request_task_id request) (request_policy_id request) (request_policy_version request)
    (request_subject request) None request.

(** [CompletionGateDecision(...)] from an assessment. *)
Definition decision_of (task_id : string) (a : CompletionAssessment) : res CompletionGateDecision :=
  CompletionGateDecision_post_init
    (Build_CompletionGateDecision task_id (assessment_state a) (assessment_reason a) (assessment_policy_id a)
       (assessment_policy_version a) (Some (assessment_subject a)) (assessment_blocking_verification_ids a)
       (assessment_repair_attempts_remaining a)).

Definition assess_task_completion (task_id : string) : st VerificationCompletionAuthority CompletionGateDecision :=
  _ ← of_res (validate_id task_id "task");
  a ← gets id;
  match authority_requirements a !! task_id with
  | None =>
      of_res (CompletionGateDecision_post_init
        (Build_CompletionGateDecision task_id C_ACCEPTED "no verification requirement is registered for task"
           None None None [] 0))
  | Some requirement =>
      let policy_id := requirement_policy_id requirement in
      let version := requirement_policy_version requirement in
      policy ← of_res (get_policy (authority_verification a) policy_id version);
      match policy_stages policy, requirement_subject requirement with
      | [], subject =>
          of_res (CompletionGateDecision_post_init
            (Build_CompletionGateDecision task_id C_ACCEPTED "verification policy contains no required stages"
               (Some policy_id) (Some version) subject [] 0))
      | _, None =>
          of_res (CompletionGateDecision_post_init
            (Build_CompletionGateDecision task_id C_WAITING "required verification subject has not been bound yet"
               (Some policy_id) (Some version) None [] 0))
      | _, Some subject =>
          current ← on_service (now_or utcnow None);
          assessment ← of_res (assess_completion (authority_verification a) task_id subject (Some policy_id)
                                 (Some version) current);
          of_res (decision_of task_id assessment)
      end
  end.
End authority.
