(* ===== verification/GateTheorems.v ===== *)
(** * What the completion gate guarantees

    The invariant of [VerificationCompletionAuthority] over any sequence of its calls and of calls of
    the service it shares, that a task's policy never changes, that an accepted decision carries
    verified evidence for the bound subject, and that changed output waits for a new review. *)

From Stdlib Require Import SpecFloat.
From S2P Require Import Prelude PyValue Errors StateMonad Freeze Ident Lifecycle Domain Contracts.
From S2P Require Import PyTime VerificationModels VerificationService VerificationInvariant.
From S2P Require Import VerificationTheorems CompletionGate.

Section gate.
Context (utcnow : nat -> Z) (uuid : nat -> string) (bound : nat).
Context (uuid_distinct : forall n m, n < bound -> m < bound -> uuid n = uuid m -> n = m).
Context (s_init : VerificationService) (init_ok : svc_draws s_init <= bound -> svc_ok uuid s_init).

Implicit Types (a : VerificationCompletionAuthority) (r : TaskVerificationRequirement).

(** A requirement is well formed, filed under its task, for a registered policy version. *)
Definition requirement_ok a task_id r : Prop :=
  requirement_task_id r = task_id /\ TaskVerificationRequirement_post_init r = Ok r /\
  is_Some (svc_policies (authority_verification a) !! (requirement_policy_id r, requirement_policy_version r)).

(** What no call changes of a requirement. *)
Definition same_binding r r' : Prop :=
  requirement_task_id r' = requirement_task_id r /\ requirement_policy_id r' = requirement_policy_id r /\
  requirement_policy_version r' = requirement_policy_version r /\ requirement_created_at r' = requirement_created_at r.

(** The authority's state relative to an earlier one. *)
Record auth_inv (a0 a : VerificationCompletionAuthority) : Prop := {
  inv_service : svc_reach utcnow uuid s_init (authority_verification a);
  inv_requirements task_id r : svc_draws (authority_verification a) <= bound ->
    authority_requirements a !! task_id = Some r -> requirement_ok a task_id r;
  inv_bindings task_id r : authority_requirements a0 !! task_id = Some r ->
    exists r', authority_requirements a !! task_id = Some r' /\ same_binding r r'
}.

Lemma service_ok a0 a : auth_inv a0 a -> svc_draws (authority_verification a) <= bound ->
  svc_ok uuid (authority_verification a).
Proof. intros [Hr _ _] Hb. by apply (svc_reach_Inv utcnow uuid bound uuid_distinct _ _ init_ok Hr Hb). Qed.

(** A computation of the service that its calls could have made. *)
Definition service_call {A} (m : st VerificationService A) : Prop :=
  forall s, svc_reach utcnow uuid s (m s).2.

Lemma service_call_now now : service_call (now_or utcnow now).
Proof. intros s. destruct now; cbn; [constructor|]. apply svc_reach_tick; [constructor|lia]. Qed.

Lemma service_call_request task_id policy_id version stage_id subject rc attempt now canonical :
  service_call (request_verification utcnow uuid task_id policy_id version stage_id subject rc attempt now canonical).
Proof.
  intros s. pose proof (svc_reach_call utcnow uuid s s
    (CallRequest task_id policy_id version stage_id subject rc attempt now canonical) (svc_reach_refl _ _ s)) as H.
  cbn [run_call] in H. unfold discard, mbind, st_bind in H.
  by destruct (request_verification _ _ _ _ _ _ _ _ _ _ _ _) as [[x|e] s'].
Qed.

Lemma service_call_reverify v subject rc capability_ids replace canonical :
  service_call (request_reverification_after_repair utcnow uuid v subject rc capability_ids replace canonical).
Proof.
  intros s. pose proof (svc_reach_call utcnow uuid s s
    (CallReverify v subject rc capability_ids replace canonical) (svc_reach_refl _ _ s)) as H.
  cbn [run_call] in H. unfold discard, mbind, st_bind in H.
  by destruct (request_reverification_after_repair _ _ _ _ _ _ _ _ _) as [[x|e] s'].
Qed.

(** The service moves on; requirements stay. *)
Lemma auth_inv_service a0 a s' :
  auth_inv a0 a -> svc_reach utcnow uuid (authority_verification a) s' ->
  auth_inv a0 (Build_VerificationCompletionAuthority s' (authority_requirements a)).
Proof.
  intros Ha Hr. pose proof Ha as [H1 H2 H3]. split; cbn; [by eapply svc_reach_trans| |done].
  intros task_id r Hb Hreq.
  assert (Hok0 : svc_draws (authority_verification a) <= bound -> svc_ok uuid (authority_verification a))
    by (intros ?; by eapply service_ok).
  destruct (svc_reach_Inv utcnow uuid bound uuid_distinct _ _ Hok0 Hr Hb) as [_ Hsteps].
  pose proof (svc_steps_draws _ _ _ Hsteps) as Hdraws.
  assert (svc_draws (authority_verification a) <= bound) as Hb' by lia.
  destruct (H2 task_id r Hb' Hreq) as (? & ? & p & Hp). split_and!; [done..|].
  destruct (ext_policies _ _ (svc_steps_extend _ _ _ (Hok0 Hb') Hsteps) _ _ Hp) as (q & Hq & _). by exists q.
Qed.

Lemma keeps_on_service {A} a0 (m : st VerificationService A) : service_call m -> keeps (auth_inv a0) (on_service m).
Proof.
  intros Hm a Ha. unfold on_service. specialize (Hm (authority_verification a)).
  destruct (m (authority_verification a)) as [[x|e] s']; cbn in *; by apply auth_inv_service.
Qed.

(** The clock is read. *)
Definition ticked n a : VerificationCompletionAuthority :=
  Build_VerificationCompletionAuthority (svc_set_draws n (authority_verification a)) (authority_requirements a).

Lemma auth_inv_ticked a0 a n : svc_draws (authority_verification a) <= n -> auth_inv a0 a -> auth_inv a0 (ticked n a).
Proof. intros Hn Ha. apply auth_inv_service; [done|]. apply svc_reach_tick; [constructor|done]. Qed.

Lemma keeps_now (P : VerificationCompletionAuthority -> Prop) now :
  (forall a n, svc_draws (authority_verification a) <= n -> P a -> P (ticked n a)) ->
  keeps P (on_service (now_or utcnow now)).
Proof.
  intros HP a Ha. unfold on_service, now_or. destruct now; cbn.
  - by destruct a.
  - apply HP; [lia|done].
Qed.

Lemma keeps_current_time (P : VerificationCompletionAuthority -> Prop) now field :
  (forall a n, svc_draws (authority_verification a) <= n -> P a -> P (ticked n a)) ->
  keeps P (current_time utcnow now field).
Proof. intros HP. apply keeps_bind; [by apply keeps_now|]. intros d. apply keeps_of_res. Qed.

Lemma post_init_requirement r r' : TaskVerificationRequirement_post_init r = Ok r' -> r' = r.
Proof. unfold TaskVerificationRequirement_post_init. intros H. by res_inv. Qed.

Lemma same_binding_refl r : same_binding r r.
Proof. done. Qed.

Lemma auth_inv_set a0 a task_id r :
  auth_inv a0 a -> (svc_draws (authority_verification a) <= bound -> requirement_ok a task_id r) ->
  (forall r0, authority_requirements a !! task_id = Some r0 -> same_binding r0 r) ->
  auth_inv a0 (Build_VerificationCompletionAuthority (authority_verification a)
    (<[task_id := r]> (authority_requirements a))).
Proof.
  intros [H1 H2 H3] Hr Hsame. split; cbn; [done| |].
  - intros t r0 Hb. destruct (decide (task_id = t)) as [<-|Hne].
    + rewrite lookup_insert_eq. intros [= <-]. by apply Hr.
    + rewrite lookup_insert_ne by done. by apply H2.
  - intros t r0 Hr0. destruct (H3 t r0 Hr0) as (r1 & Hr1 & Hs1). destruct (decide (task_id = t)) as [<-|Hne].
    + exists r. rewrite lookup_insert_eq. split; [done|]. unfold same_binding in *.
      destruct (Hsame r1 Hr1) as (-> & -> & -> & ->). done.
    + exists r1. by rewrite lookup_insert_ne.
Qed.

(** A requirement that is moved to another subject. *)
Lemma rebind_ok a0 a task_id r subject t r' :
  auth_inv a0 a -> authority_requirements a !! task_id = Some r -> rebind r subject t = Ok r' ->
  auth_inv a0 (Build_VerificationCompletionAuthority (authority_verification a)
    (<[task_id := r']> (authority_requirements a))).
Proof.
  intros Ha Hr Hreb. unfold rebind in Hreb. pose proof (post_init_requirement _ _ Hreb) as ->.
  apply auth_inv_set; [done| |intros r0 Hr0; assert (r0 = r) as -> by congruence; done].
  intros Hb. destruct (inv_requirements _ _ Ha _ _ Hb Hr) as (? & ? & Hp). split_and!; [done|exact Hreb|exact Hp].
Qed.

Lemma keeps_require_task a0 task_id policy_id version now :
  keeps (auth_inv a0) (require_task utcnow task_id policy_id version now).
Proof.
  unfold keeps, require_task. eapply triple_bind; [apply triple_of_res; done|intros valid].
  eapply triple_bind; [apply (triple_gets _ id)|intros a1]. eapply triple_bind; [apply triple_of_res; naive_solver|intros policy].
  apply (triple_bind _ _ _ (fun _ a => auth_inv a0 a /\ authority_requirements a = authority_requirements a1 /\
    is_Some (svc_policies (authority_verification a) !! (policy_id, version)))).
  { apply (triple_weaken _ (fun a => auth_inv a0 a /\ authority_requirements a = authority_requirements a1 /\
      is_Some (svc_policies (authority_verification a) !! (policy_id, version)))
      _ _ (fun _ a => auth_inv a0 a /\ authority_requirements a = authority_requirements a1 /\
      is_Some (svc_policies (authority_verification a) !! (policy_id, version))) (fun _ => auth_inv a0) (fun _ => auth_inv a0)); try done.
    - apply triple_keeps; [|naive_solver]. apply keeps_current_time. intros a n Hn (H1 & H2 & H3).
      split_and!; [by apply auth_inv_ticked|done..].
    - intros a [[[Ha _] ->] Hp]. split; [done|]. split; [done|]. unfold get_policy, id in Hp.
      by destruct (svc_policies _ !! _) as [q|]; [eexists|]. }
  intros current. destruct (authority_requirements a1 !! task_id) as [existing|] eqn:He.
  - eapply triple_bind; [apply triple_ensure; naive_solver|intros same]. apply triple_ret. naive_solver.
  - eapply triple_bind; [apply triple_of_res; naive_solver|intros r].
    apply (triple_bind _ _ _ (fun _ => auth_inv a0)); [|intros []; apply keeps_ret].
    apply triple_modify. intros a [(Ha & Hreq & Hp) Hr]. pose proof (post_init_requirement _ _ Hr) as ->.
    apply auth_inv_set; [done|done|]. intros r0. by rewrite Hreq, He.
Qed.

(** The rest of a method that rebinds the requirement found in [a1]. *)
Lemma keeps_rebinding {A} a0 a1 task_id r subject now field (f : TaskVerificationRequirement -> A) :
  authority_requirements a1 !! task_id = Some r ->
  triple (fun a => auth_inv a0 a /\ authority_requirements a = authority_requirements a1)
    (current ← current_time utcnow now field;
     updated ← of_res (rebind r subject current);
     _ ← set_requirement task_id updated;
     mret (f updated)) (fun _ => auth_inv a0) (fun _ => auth_inv a0).
Proof.
  intros Hr. apply (triple_bind _ _ _ (fun _ a => auth_inv a0 a /\ authority_requirements a = authority_requirements a1)).
  { apply triple_keeps; [|naive_solver]. apply keeps_current_time. intros a n Hn [Ha Hreq]. by split; [apply auth_inv_ticked|]. }
  intros current. eapply triple_bind; [apply triple_of_res; naive_solver|intros r'].
  apply (triple_bind _ _ _ (fun _ => auth_inv a0)); [|intros []; apply keeps_ret].
  apply triple_modify. intros a [[Ha Hreq] Hreb]. eapply rebind_ok; [done|by rewrite Hreq|done].
Qed.

Lemma keeps_invalidate a0 task_id now : keeps (auth_inv a0) (invalidate_task_subject utcnow task_id now).
Proof.
  unfold invalidate_task_subject. intros a Ha. unfold mbind, st_bind, of_res, gets.
  destruct (validate_id task_id "task"); [|done]. cbv beta iota.
  destruct (authority_requirements a !! task_id) as [r|] eqn:Hr; [|done].
  destruct (requirement_subject r); [|done].
  exact (keeps_rebinding a0 a task_id r None now _ Some Hr a (conj Ha eq_refl)).
Qed.

Lemma keeps_bind_subject a0 task_id subject now : keeps (auth_inv a0) (bind_subject utcnow task_id subject now).
Proof.
  unfold bind_subject. intros a Ha. unfold mbind at 1 2 3, st_bind, of_res, gets.
  destruct (validate_id task_id "task"); [|done]. cbv beta iota.
  destruct (authority_requirements a !! task_id) as [r|] eqn:Hr; [|done]. cbv beta iota.
  assert (keeps (auth_inv a0) (current_time utcnow now "verification subject binding time" ≫= fun current =>
    if bool_decide (requirement_subject r = Some subject) then mret r
    else mret r)) as Hsame.
  { apply keeps_bind; [apply keeps_current_time; intros; by apply auth_inv_ticked|].
    intros d. case_bool_decide; apply keeps_ret. }
  destruct (bool_decide (requirement_subject r = Some subject)); [exact (Hsame a Ha)|].
  exact (keeps_rebinding a0 a task_id r (Some subject) now _ id Hr a (conj Ha eq_refl)).
Qed.

Lemma keeps_bind_request a0 task_id policy_id version subject now request :
  keeps (auth_inv a0) (bind_request utcnow task_id policy_id version subject now request).
Proof.
  apply keeps_bind; [apply keeps_require_task|intros ?]. apply keeps_bind; [apply keeps_bind_subject|intros ?].
  apply keeps_ret.
Qed.

Lemma keeps_authority_request a0 task_id policy_id version stage_id subject rc attempt now canonical :
  keeps (auth_inv a0) (authority_request_verification utcnow uuid task_id policy_id version stage_id subject rc attempt now canonical).
Proof.
  apply keeps_bind; [apply keeps_on_service, service_call_request|intros request]. apply keeps_bind_request.
Qed.

Lemma keeps_authority_reverification a0 v subject rc canonical :
  keeps (auth_inv a0) (authority_request_reverification utcnow uuid v subject rc canonical).
Proof.
  apply keeps_bind; [apply keeps_on_service, service_call_reverify|intros request]. apply keeps_bind_request.
Qed.

Lemma keeps_assess a0 task_id : keeps (auth_inv a0) (assess_task_completion utcnow task_id).
Proof.
  apply keeps_bind; [apply keeps_of_res|intros valid]. apply keeps_bind; [apply keeps_gets|intros a].
  destruct (authority_requirements a !! task_id); [|apply keeps_of_res].
  apply keeps_bind; [apply keeps_of_res|intros policy].
  destruct (policy_stages policy), (requirement_subject t); try apply keeps_of_res.
  apply keeps_bind; [apply keeps_on_service, service_call_now|intros d].
  apply keeps_bind; [apply keeps_of_res|intros ?]. apply keeps_of_res.
Qed.

(** ** Sequences of calls *)

Inductive gate_call :=
| GateRequire (task_id policy_id : string) (version : Z) (now : option datetime)
| GateInvalidate (task_id : string) (now : option datetime)
| GateBind (task_id : string) (subject : VerificationSubject) (now : option datetime)
| GateRequest (task_id policy_id : string) (version : Z) (stage_id : string) (subject : VerificationSubject)
    (rc : RequestContext) (repair_attempt : Z) (now : option datetime) (canonical : bool)
| GateReverify (verification_id : string) (subject : VerificationSubject) (rc : RequestContext) (canonical : bool)
| GateAssess (task_id : string).

Definition run_gate (c : gate_call) : st VerificationCompletionAuthority unit :=
  match c with
  | GateRequire t p v now => discard (require_task utcnow t p v now)
  | GateInvalidate t now => discard (invalidate_task_subject utcnow t now)
  | GateBind t subject now => discard (bind_subject utcnow t subject now)
  | GateRequest t p v i subject rc attempt now canonical =>
      discard (authority_request_verification utcnow uuid t p v i subject rc attempt now canonical)
  | GateReverify v subject rc canonical => discard (authority_request_reverification utcnow uuid v subject rc canonical)
  | GateAssess t => discard (assess_task_completion utcnow t)
  end.

Lemma keeps_discard {A} a0 (m : st VerificationCompletionAuthority A) : keeps (auth_inv a0) m -> keeps (auth_inv a0) (discard m).
Proof. intros Hm. apply keeps_bind; [done|intros ?; apply keeps_ret]. Qed.

Lemma keeps_run_gate a0 c : keeps (auth_inv a0) (run_gate c).
Proof.
  destruct c; apply keeps_discard; [apply keeps_require_task|apply keeps_invalidate|apply keeps_bind_subject
    |apply keeps_authority_request|apply keeps_authority_reverification|apply keeps_assess].
Qed.

(** Calls of the gate, failing ones included, between anything else that happens to the service. *)
Inductive gate_reach (a0 : VerificationCompletionAuthority) : VerificationCompletionAuthority -> Prop :=
| gate_reach_refl : gate_reach a0 a0
| gate_reach_service a s' : gate_reach a0 a -> svc_reach utcnow uuid (authority_verification a) s' ->
    gate_reach a0 (Build_VerificationCompletionAuthority s' (authority_requirements a))
| gate_reach_call a c : gate_reach a0 a -> gate_reach a0 (run_gate c a).2.

Lemma gate_reach_trans a0 a1 a2 : gate_reach a0 a1 -> gate_reach a1 a2 -> gate_reach a0 a2.
Proof. intros H1. induction 1; [done|by apply gate_reach_service|by apply gate_reach_call]. Qed.

Lemma gate_reach_inv a0 a : auth_inv a0 a0 -> gate_reach a0 a -> auth_inv a0 a.
Proof.
  intros H0. induction 1 as [|a s' _ IH Hr|a c _ IH]; [done|by apply auth_inv_service|].
  pose proof (keeps_run_gate a0 c a IH) as H. by destruct (run_gate c a) as [[u|e] a'].
Qed.
End gate.

(** ** The guarantees *)

Section guarantees.
Context (utcnow : nat -> Z) (uuid : nat -> string) (bound : nat).
Context (uuid_distinct : forall n m, n < bound -> m < bound -> uuid n = uuid m -> n = m).

(** What any calls of a new authority and of its service reach, while UUIDs do not repeat. *)
Definition gate_reachable (a : VerificationCompletionAuthority) : Prop :=
  svc_draws (authority_verification a) <= bound /\
  exists canonical_subjects canonical_results,
    gate_reach utcnow uuid (new_authority (new_service canonical_subjects canonical_results)) a.

Lemma gate_reachable_inv a : gate_reachable a -> exists c1 c2,
  auth_inv utcnow uuid bound (new_service c1 c2) a a /\
  svc_ok uuid (authority_verification a).
Proof.
  intros (Hb & c1 & c2 & Hr). exists c1, c2.
  assert (svc_draws (new_service c1 c2) <= bound -> svc_ok uuid (new_service c1 c2)) as Hinit by (intros _; apply svc_ok_new).
  assert (auth_inv utcnow uuid bound (new_service c1 c2) (new_authority (new_service c1 c2)) a) as Ha.
  { apply gate_reach_inv; [done|done| |done]. split; cbn; [constructor| |]; intros t r; by rewrite lookup_empty. }
  split; [|by eapply service_ok]. destruct Ha as [H1 H2 H3]. split; [done..|].
  intros t r Hr0. exists r. split; [done|]. apply same_binding_refl.
Qed.

Lemma decision_state r d : CompletionGateDecision_post_init r = Ok d -> d = r.
Proof. unfold CompletionGateDecision_post_init. intros H. by res_inv. Qed.

(** What an accepted decision rests on: no requirement for the task, a policy without stages, or
    verified evidence for the subject that is bound now. *)
Definition acceptance_basis (a : VerificationCompletionAuthority) (task_id : string) (d : CompletionGateDecision) : Prop :=
  match authority_requirements a !! task_id with
  | None => CompletionGateDecision_policy_id d = None
  | Some r =>
      exists policy, svc_policies (authority_verification a) !! (requirement_policy_id r, requirement_policy_version r) = Some policy /\
      (policy_stages policy = [] \/
       exists subject, requirement_subject r = Some subject /\ CompletionGateDecision_subject d = Some subject /\
         verified (authority_verification a) task_id subject policy
           (Aware (utcnow (svc_draws (authority_verification a)))))
  end.

Lemma gate_accepts a task_id d a' :
  gate_reachable a -> results_unshared (authority_verification a) ->
  assess_task_completion utcnow task_id a = (Ok d, a') ->
  CompletionGateDecision_state d = C_ACCEPTED -> acceptance_basis a task_id d.
Proof.
  intros Hr Hun. destruct (gate_reachable_inv a Hr) as (c1 & c2 & Ha & Hok). unfold assess_task_completion, acceptance_basis.
  intros H Hacc. st_inv. unfold id in *.
  destruct (authority_requirements a !! task_id) as [r|] eqn:Hreq; st_inv.
  2: { match goal with H : CompletionGateDecision_post_init _ = _ |- _ => apply decision_state in H as -> end. done. }
  match goal with H : get_policy _ _ _ = Ok ?p |- _ => rename H into Hget; exists p; rename p into policy end.
  assert (svc_policies (authority_verification a) !! (requirement_policy_id r, requirement_policy_version r) = Some policy) as Hpol.
  { unfold get_policy in Hget. by destruct (svc_policies _ !! _) as [q|]; [injection Hget as ->|]. }
  split; [done|]. destruct (policy_stages policy) as [|st sts] eqn:Hst; [by left|right].
  destruct (requirement_subject r) as [subject|]; st_inv.
  2: { match goal with H : CompletionGateDecision_post_init _ = _ |- _ => apply decision_state in H as -> end. done. }
  exists subject. split; [done|].
  match goal with H : on_service _ _ = _ |- _ => cbn in H; injection H as <- <- end.
  match goal with H : assess_completion _ _ _ _ _ _ = Ok ?x |- _ => rename H into Hassess, x into asm end.
  match goal with H : decision_of _ _ = _ |- _ => apply decision_state in H as -> end.
  cbn [CompletionGateDecision_state CompletionGateDecision_subject] in *.
  destruct (accepted_verified uuid _ _ _ _ _ _ _ Hok Hun Hassess Hacc) as (policy' & Hpol' & Hver).
  assert (policy' = policy) as -> by congruence. split; [|done].
  by rewrite (assessed_subject _ _ _ _ _ _ _ Hassess).
Qed.

(** C24. The gate only opens for work that its policy lets through. In every state that any calls of the authority
    and of its service reach and in which no two requests share a recorded result (which only a reused result
    identifier brings about), an accepted decision about a task has one of three bases: the task has no
    verification requirement, its policy has no stages, or the subject bound to the task has the evidence which every
    stage of its policy asks for, without objection, at the time of the decision. *)
Theorem gate_accepts_only_verified a task_id d a' :
  gate_reachable a -> results_unshared (authority_verification a) -> assess_task_completion utcnow task_id a = (Ok d, a') ->
  CompletionGateDecision_state d = C_ACCEPTED -> acceptance_basis a task_id d.
Proof. apply gate_accepts. Qed.

(** A task's verification requirement is permanent. Once a task is bound to a policy version, no
    sequence of calls, failing ones included, removes the requirement or moves it to another policy. *)
Theorem task_policy_is_permanent a a' task_id r :
  gate_reachable a -> gate_reach utcnow uuid a a' ->
  authority_requirements a !! task_id = Some r ->
  exists r', authority_requirements a' !! task_id = Some r' /\ same_binding r r'.
Proof.
  intros Ha Hr Hreq. destruct (gate_reachable_inv a Ha) as (c1 & c2 & Hinv & _).
  refine (inv_bindings _ _ _ _ _ _ (gate_reach_inv utcnow uuid bound uuid_distinct (new_service c1 c2) _ a a' Hinv Hr) task_id r Hreq).
  intros _. apply svc_ok_new.
Qed.

Lemma requirement_decision r task_id subject reason :
  TaskVerificationRequirement_post_init r = Ok r -> requirement_task_id r = task_id -> negb (blank reason) = true ->
  forall state, exists d, CompletionGateDecision_post_init
    (Build_CompletionGateDecision task_id state reason (Some (requirement_policy_id r))
       (Some (requirement_policy_version r)) subject [] 0) = Ok d.
Proof.
  intros Hpi <- Hreason state. unfold TaskVerificationRequirement_post_init in Hpi. res_inv.
  unfold CompletionGateDecision_post_init. cbn -[validate_id blank].
  match goal with H : validate_id (requirement_task_id r) _ = _ |- _ => rewrite H end.
  match goal with H : validate_id (requirement_policy_id r) _ = _ |- _ => rewrite H end.
  match goal with H : (1 <=? _)%Z = true |- _ => rewrite H end. rewrite Hreason. by eexists.
Qed.

(** New output waits for a new review. After the kernel has told the authority that the output of a
    task changed, the authority answers that completion has to wait, if the task's policy has stages,
    whatever evidence was recorded before. *)
Theorem changed_output_waits a task_id now r policy x a' :
  gate_reachable a -> authority_requirements a !! task_id = Some r ->
  svc_policies (authority_verification a) !! (requirement_policy_id r, requirement_policy_version r) = Some policy ->
  policy_stages policy <> [] ->
  invalidate_task_subject utcnow task_id now a = (Ok x, a') ->
  exists d, assess_task_completion utcnow task_id a' = (Ok d, a') /\ CompletionGateDecision_state d = C_WAITING.
Proof.
  intros Ha Hreq Hpol Hst H. destruct (gate_reachable_inv a Ha) as (c1 & c2 & Hinv & _).
  destruct Ha as [Hb _]. destruct (inv_requirements _ _ _ _ _ _ Hinv _ _ Hb Hreq) as (Htask & Hpi & _).
  assert (exists r', authority_requirements a' !! task_id = Some r' /\ requirement_subject r' = None /\
    requirement_policy_id r' = requirement_policy_id r /\ requirement_policy_version r' = requirement_policy_version r /\
    svc_policies (authority_verification a') = svc_policies (authority_verification a) /\
    is_ok (validate_id task_id "task") = true) as (r' & Hr' & Hnone & Epid & Ever & Hpols & Hid).
  { unfold invalidate_task_subject in H. st_inv. rewrite Hreq in H.
    match goal with H : validate_id _ _ = Ok _ |- _ => rewrite H end.
    destruct (requirement_subject r) eqn:Hsub; st_inv; [|by exists r].
    unfold current_time, set_requirement, rebind in *. st_inv.
    match goal with H : TaskVerificationRequirement_post_init _ = _ |- _ => apply post_init_requirement in H as -> end.
    cbn [authority_requirements authority_verification]. rewrite lookup_insert_eq. eexists. split; [done|].
    match goal with H : on_service _ _ = _ |- _ => unfold on_service, now_or in H; destruct now; cbn in H; by injection H as _ <- end. }
  destruct (requirement_decision r task_id None "required verification subject has not been bound yet" Hpi Htask eq_refl C_WAITING)
    as (d & Hd).
  exists d. split; [|by apply decision_state in Hd as ->].
  unfold assess_task_completion, mbind, st_bind, of_res, gets, id.
  destruct (validate_id task_id "task"); [|done]. rewrite Hr'. unfold get_policy. rewrite Hpols, Epid, Ever, Hpol, Hnone.
  destruct (policy_stages policy); [done|]. cbv beta iota. by rewrite Hd.
Qed.
End guarantees.
