(* ===== verification/TransportModels.v ===== *)
(** * Messages of the transport: messaging/models.py

    Envelopes, retry policies, subscriptions, deliveries and dead letters, each with the checks its
    constructor makes, and the constructor of envelopes for domain events in messaging/helpers.py.
    Floats are binary64 values; the power of two floats is computed by the C library, whose rounding
    the language leaves open, and is a parameter of [delay_for_retry]. *)

From Stdlib Require Import SpecFloat.
From S2P Require Import Prelude PyValue Errors Freeze Ident Lifecycle Domain Contracts PyTime.

Definition ENVELOPE_VERSION : string := "1.0".

(** [_freeze_json]: any mapping, list or tuple is copied into its immutable form. *)
Fixpoint freeze_message_json (v : pyval) : pyval :=
  match v with
  | VMap _ l => VMap MProxy (map (fun kv => (kv.1, freeze_message_json kv.2)) l)
  | VSeq _ l => VSeq STuple (map freeze_message_json l)
  | _ => v
  end.

(** [_freeze_mapping] *)
Definition freeze_message_mapping (values : dict) : dict :=
  map (fun kv => (kv.1, freeze_message_json kv.2)) values.

Inductive MessageKind := M_DOMAIN_EVENT | M_COMMAND | M_NOTIFICATION | M_SIGNAL.

Definition MessageKind_value (k : MessageKind) : string :=
  match k with
  | M_DOMAIN_EVENT => "domain_event" | M_COMMAND => "command"
  | M_NOTIFICATION => "notification" | M_SIGNAL => "signal"
  end.

#[export] Instance MessageKind_eq_dec : EqDecision MessageKind.
Proof. solve_decision. Defined.

Record TraceContext := Build_TraceContext {
  trace_trace_id : option string;
  trace_span_id : option string;
  trace_trace_flags : option string;
  trace_tracestate : option string;
  trace_baggage : list (string * string)
}.

Definition empty_trace : TraceContext := Build_TraceContext None None None None [].

Record TransportEnvelope := Build_TransportEnvelope {
  envelope_message_type : string;
  envelope_kind : MessageKind;
  envelope_payload_schema_version : string;
  envelope_source_component : string;
  envelope_correlation_id : string;
  envelope_payload : option pyval;
  envelope_payload_ref : option string;
  envelope_message_id : string;
  envelope_envelope_version : string;
  envelope_timestamp : datetime;
  envelope_causation_id : option string;
  envelope_project_id : option string;
  envelope_task_id : option string;
  envelope_run_id : option string;
  envelope_idempotency_key : option string;
  envelope_trace_context : TraceContext;
  envelope_attributes : dict
}.

Definition TransportEnvelope_post_init (e : TransportEnvelope) : res TransportEnvelope :=
  _ ← map_res (fun '(name, value) => require (negb (blank value)) (ValueError (name +:+ " must not be blank")))
        [("message_id", envelope_message_id e); ("message_type", envelope_message_type e);
         ("payload_schema_version", envelope_payload_schema_version e);
         ("source_component", envelope_source_component e);
         ("correlation_id", envelope_correlation_id e);
         ("envelope_version", envelope_envelope_version e)];
  _ ← require (bool_decide (envelope_envelope_version e = ENVELOPE_VERSION))
        (ValueError ("unsupported envelope_version " +:+ py_repr (envelope_envelope_version e) +:+ "; want " +:+
                     py_repr ENVELOPE_VERSION));
  _ ← require (negb (Bool.eqb (bool_decide (envelope_payload e = None)) (bool_decide (envelope_payload_ref e = None))))
        (ValueError "exactly one of payload or payload_ref must be set");
  _ ← (match envelope_payload_ref e with
       | Some r => require (negb (blank r)) (ValueError "payload_ref must not be blank")
       | None => Ok tt
       end);
  _ ← (match envelope_idempotency_key e with
       | Some k => require (negb (blank k)) (ValueError "idempotency_key must not be blank")
       | None => Ok tt
       end);
  _ ← validate_optional_id (envelope_project_id e) "project";
  _ ← validate_optional_id (envelope_task_id e) "task";
  _ ← validate_optional_id (envelope_run_id e) "run";
  Ok (Build_TransportEnvelope (envelope_message_type e) (envelope_kind e) (envelope_payload_schema_version e)
    (envelope_source_component e) (envelope_correlation_id e) (freeze_message_json <$> envelope_payload e)
    (envelope_payload_ref e) (envelope_message_id e) (envelope_envelope_version e) (envelope_timestamp e)
    (envelope_causation_id e) (envelope_project_id e) (envelope_task_id e) (envelope_run_id e)
    (envelope_idempotency_key e) (envelope_trace_context e) (freeze_message_mapping (envelope_attributes e))).

(** [envelope_for_domain_event], with the message identifier and the time its defaults draw. *)
Definition envelope_for_domain_event (event : Event) (source_component : string) (payload_ref : option string)
  (message_id : string) (now : Z) : res TransportEnvelope :=
  let task_id := if bool_decide (Event_subject_type event = "task") then Some (Event_subject_id event) else None in
  let run_id := if bool_decide (Event_subject_type event = "run") then Some (Event_subject_id event) else None in
  TransportEnvelope_post_init
    (Build_TransportEnvelope (Event_event_type event) M_DOMAIN_EVENT (Event_schema_version event) source_component
      (Event_correlation_id event) None (Some (or_else payload_ref ("canonical-event:" +:+ Event_id event)))
      message_id ENVELOPE_VERSION (Aware now) (Event_causation_id event) (Event_project_id event) task_id run_id
      (Some (Event_id event)) (Build_TraceContext (Event_trace_id event) None None None []) []).

(** ** Retry policies *)

Record RetryPolicy := Build_RetryPolicy {
  policy_max_attempts : Z;
  policy_initial_backoff_seconds : spec_float;
  policy_backoff_multiplier : spec_float;
  policy_max_backoff_seconds : spec_float
}.

Definition float_zero : spec_float := S754_zero false.
Definition float_one : spec_float := binary64 1 0.
Definition float_add (x y : spec_float) : spec_float := SFadd 53 1024 x y.
Definition float_sub (x y : spec_float) : spec_float := SFsub 53 1024 x y.
Definition float_mul (x y : spec_float) : spec_float := SFmul 53 1024 x y.

Definition default_retry_policy : RetryPolicy :=
  Build_RetryPolicy 3 float_zero (binary64 2 0) (binary64 30 0).

Definition RetryPolicy_post_init (p : RetryPolicy) : res RetryPolicy :=
  _ ← require (1 <=? policy_max_attempts p)%Z (ValueError "max_attempts must be >= 1");
  _ ← require (negb (SFltb (policy_initial_backoff_seconds p) float_zero))
        (ValueError "initial_backoff_seconds must be >= 0");
  _ ← require (negb (SFltb (policy_backoff_multiplier p) float_one)) (ValueError "backoff_multiplier must be >= 1");
  _ ← require (negb (SFltb (policy_max_backoff_seconds p) float_zero)) (ValueError "max_backoff_seconds must be >= 0");
  Ok p.

(** [min(a, b)]: the first argument, unless the second is smaller. *)
Definition float_min (a b : spec_float) : spec_float := if SFltb b a then b else a.

(** [float_pow x n] is [x ** n], which raises [OverflowError] when the result is too large. *)
Definition delay_for_retry (float_pow : spec_float -> Z -> res spec_float) (p : RetryPolicy) (completed_attempt : Z) :
  res spec_float :=
  _ ← require (1 <=? completed_attempt)%Z (ValueError "completed_attempt must be >= 1");
  power ← float_pow (policy_backoff_multiplier p) (completed_attempt - 1)%Z;
  Ok (float_min (float_mul (policy_initial_backoff_seconds p) power) (policy_max_backoff_seconds p)).

(** ** Subscriptions, deliveries, receipts and dead letters *)

Record Subscription := Build_Subscription {
  subscription_topic : string;
  subscription_consumer_id : string;
  subscription_consumer_group : string;
  subscription_retry_policy : RetryPolicy
}.

Definition Subscription_post_init (s : Subscription) : res Subscription :=
  _ ← require (negb (blank (subscription_topic s))) (ValueError "topic must not be blank");
  _ ← require (negb (blank (subscription_consumer_id s))) (ValueError "consumer_id must not be blank");
  _ ← require (negb (blank (subscription_consumer_group s))) (ValueError "consumer_group must not be blank");
  Ok s.

Record DeliveryMetadata := Build_DeliveryMetadata {
  delivery_id : string;
  delivery_topic : string;
  delivery_consumer_id : string;
  delivery_consumer_group : string;
  delivery_attempt : Z;
  delivery_redelivered : bool;
  delivery_delivered_at : Z
}.

Record MessageDelivery := Build_MessageDelivery {
  delivery_envelope : TransportEnvelope;
  delivery_metadata : DeliveryMetadata
}.

Record PublishReceipt := Build_PublishReceipt {
  receipt_message_id : string;
  receipt_topic : string;
  receipt_accepted_at : Z
}.

Record DeadLetter := Build_DeadLetter {
  letter_envelope : TransportEnvelope;
  letter_topic : string;
  letter_consumer_group : string;
  letter_attempts : Z;
  letter_reason : string;
  letter_failed_at : Z
}.
