(* ===== verification/Transport.v ===== *)
(** * The in-process message transport: messaging/reference.py

    [InProcessMessageTransport] with every method, over the state monad of StateMonad.v. A method
    reads the event loop's clock, the wall clock and fresh UUIDs from its [Ambient] argument.

    The lock of a topic's condition is never held at a suspension point (its sections only suspend in
    [condition.wait], which releases it), so acquiring it never suspends: each method runs without
    interruption, and a subscription between two suspension points. The sections of the subscription's
    generator are [iterate_start] (up to the [try]), [iterate_poll] (one turn of its loop) and
    [iterate_finish] (its [finally]); a consumer, a topic or a group is the same object for as long as
    its key stays in the dict, and no key is ever removed. [provider_id] only labels errors and is not
    represented. *)

From Stdlib Require Import SpecFloat.
From S2P Require Import Prelude PyValue Errors StateMonad Contracts TransportModels.

Record Inflight := Build_Inflight {
  inflight_sequence : Z;
  inflight_delivery_id : string;
  inflight_consumer_id : string;
  inflight_attempt : Z
}.

Record GroupState := Build_GroupState {
  group_cursor : Z;
  group_retry_policy : RetryPolicy;
  group_active_consumer : option string;
  group_inflight : option Inflight;
  group_attempts : gmap Z Z;
  group_retry_not_before : gmap Z spec_float
}.

Record TopicState := Build_TopicState {
  topic_messages : list TransportEnvelope;
  topic_base_sequence : Z;
  topic_next_sequence : Z;
  topic_groups : gmap string GroupState;
  topic_dead_letters : gmap string (list DeadLetter)
}.

Definition new_group (cursor : Z) (policy : RetryPolicy) : GroupState := Build_GroupState cursor policy None None ∅ ∅.
Definition new_topic : TopicState := Build_TopicState [] 0 0 ∅ ∅.

Record Transport := Build_Transport {
  transport_max_queue_size : Z;
  transport_topics : gmap string TopicState;
  transport_accepting : bool;
  transport_closing : bool;
  transport_closed : bool;
  transport_available : bool
}.

(** [InProcessMessageTransport(max_queue_size=...)] *)
Definition new_transport (max_queue_size : Z) : res Transport :=
  _ ← require (1 <=? max_queue_size)%Z (ValueError "max_queue_size must be >= 1");
  Ok (Build_Transport max_queue_size ∅ true false false true).

(** What a method reads from outside: [loop.time()], [datetime.now(UTC)], [uuid4()]. *)
Record Ambient := Build_Ambient {
  ambient_loop_time : spec_float;
  ambient_now : Z;
  ambient_uuid : string
}.

(** ** Assignments to fields *)

Definition group_set_cursor (x : Z) (g : GroupState) : GroupState :=
  Build_GroupState x (group_retry_policy g) (group_active_consumer g) (group_inflight g) (group_attempts g)
    (group_retry_not_before g).
Definition group_set_retry_policy (x : RetryPolicy) (g : GroupState) : GroupState :=
  Build_GroupState (group_cursor g) x (group_active_consumer g) (group_inflight g) (group_attempts g)
    (group_retry_not_before g).
Definition group_set_active_consumer (x : option string) (g : GroupState) : GroupState :=
  Build_GroupState (group_cursor g) (group_retry_policy g) x (group_inflight g) (group_attempts g)
    (group_retry_not_before g).
Definition group_set_inflight (x : option Inflight) (g : GroupState) : GroupState :=
  Build_GroupState (group_cursor g) (group_retry_policy g) (group_active_consumer g) x (group_attempts g)
    (group_retry_not_before g).
Definition group_set_attempts (x : gmap Z Z) (g : GroupState) : GroupState :=
  Build_GroupState (group_cursor g) (group_retry_policy g) (group_active_consumer g) (group_inflight g) x
    (group_retry_not_before g).
Definition group_set_retry_not_before (x : gmap Z spec_float) (g : GroupState) : GroupState :=
  Build_GroupState (group_cursor g) (group_retry_policy g) (group_active_consumer g) (group_inflight g)
    (group_attempts g) x.

Definition topic_set_groups (x : gmap string GroupState) (s : TopicState) : TopicState :=
  Build_TopicState (topic_messages s) (topic_base_sequence s) (topic_next_sequence s) x (topic_dead_letters s).
Definition topic_set_dead_letters (x : gmap string (list DeadLetter)) (s : TopicState) : TopicState :=
  Build_TopicState (topic_messages s) (topic_base_sequence s) (topic_next_sequence s) (topic_groups s) x.

Definition transport_set_topics (x : gmap string TopicState) (tr : Transport) : Transport :=
  Build_Transport (transport_max_queue_size tr) x (transport_accepting tr) (transport_closing tr)
    (transport_closed tr) (transport_available tr).
Definition transport_set_closed (x : bool) (tr : Transport) : Transport :=
  Build_Transport (transport_max_queue_size tr) (transport_topics tr) (transport_accepting tr)
    (transport_closing tr) x (transport_available tr).
Definition transport_set_available (x : bool) (tr : Transport) : Transport :=
  Build_Transport (transport_max_queue_size tr) (transport_topics tr) (transport_accepting tr)
    (transport_closing tr) (transport_closed tr) x.
(** [self._accepting = False; self._closing = True] *)
Definition transport_stop_accepting (tr : Transport) : Transport :=
  Build_Transport (transport_max_queue_size tr) (transport_topics tr) false true (transport_closed tr)
    (transport_available tr).

(** The topic and group objects behind their keys. *)
Definition topic_of (topic : string) (tr : Transport) : TopicState := default new_topic (transport_topics tr !! topic).
Definition group_of (group : string) (s : TopicState) : GroupState :=
  default (new_group 0 default_retry_policy) (topic_groups s !! group).

Definition update_topic (topic : string) (f : TopicState -> TopicState) : st Transport unit :=
  modify (fun tr => transport_set_topics (alter f topic (transport_topics tr)) tr).
Definition update_group (topic group : string) (f : GroupState -> GroupState) : st Transport unit :=
  update_topic topic (fun s => topic_set_groups (alter f group (topic_groups s)) s).

(** ** Internal helpers *)

Definition unavailable : exc := ContractError UNAVAILABLE "message transport is unavailable" true [].

Definition require_available : st Transport unit :=
  available ← gets transport_available;
  ensure available unavailable.

(** [_topic]: [setdefault] of a new topic. *)
Definition open_topic (topic : string) : st Transport TopicState :=
  _ ← modify (fun tr => transport_set_topics (<[topic := topic_of topic tr]> (transport_topics tr)) tr);
  gets (topic_of topic).

Definition delivery_state (d : MessageDelivery) : st Transport (TopicState * GroupState) :=
  topics ← gets transport_topics;
  match topics !! delivery_topic (delivery_metadata d) with
  | None => raise (contract_error NOT_FOUND "delivery topic is not known")
  | Some state =>
      match topic_groups state !! delivery_consumer_group (delivery_metadata d) with
      | None => raise (contract_error NOT_FOUND "delivery consumer group is not known")
      | Some group => mret (state, group)
      end
  end.

Definition not_inflight : exc := contract_error CONFLICT "delivery is not the current in-flight message".

Definition require_matching_inflight (group : GroupState) (d : MessageDelivery) : st Transport Inflight :=
  match group_inflight group with
  | Some inflight =>
      if bool_decide (inflight_delivery_id inflight = delivery_id (delivery_metadata d)) then mret inflight
      else raise not_inflight
  | None => raise not_inflight
  end.

(** [state.messages[sequence - state.base_sequence]], unless that is out of range. *)
Definition retained (s : TopicState) (sequence : Z) : option TransportEnvelope :=
  let index := (sequence - topic_base_sequence s)%Z in
  if (index <? 0)%Z then None else topic_messages s !! Z.to_nat index.

(** [min(group.cursor for group in groups.values())]; [None] without groups. *)
Definition minimum_cursor (groups : gmap string GroupState) : option Z :=
  match map (fun kv => group_cursor kv.2) (map_to_list groups) with
  | [] => None
  | c :: cursors => Some (foldr Z.min c cursors)
  end.

(** [while state.messages and state.base_sequence < minimum_cursor] *)
Fixpoint prune_to (minimum base : Z) (messages : list TransportEnvelope) : list TransportEnvelope * Z :=
  match messages with
  | [] => ([], base)
  | _ :: rest => if (base <? minimum)%Z then prune_to minimum (base + 1) rest else (messages, base)
  end.

Definition prune (s : TopicState) : TopicState :=
  match minimum_cursor (topic_groups s) with
  | None => s
  | Some minimum =>
      let '(messages, base) := prune_to minimum (topic_base_sequence s) (topic_messages s) in
      Build_TopicState messages base (topic_next_sequence s) (topic_groups s) (topic_dead_letters s)
  end.

(** Nothing is retained and nothing is in flight. *)
Definition topic_drained (s : TopicState) : Prop :=
  topic_messages s = [] /\ map_Forall (fun _ group => group_inflight group = None) (topic_groups s).

#[export] Instance TransportEnvelope_list_nil_dec (l : list TransportEnvelope) : Decision (l = []).
Proof. destruct l; [by left|by right]. Defined.
#[export] Instance inflight_none_dec (group : GroupState) : Decision (group_inflight group = None).
Proof. destruct (group_inflight group); [by right|by left]. Defined.
#[export] Instance topic_drained_dec s : Decision (topic_drained s).
Proof. unfold topic_drained. apply _. Defined.

Definition all_drained (tr : Transport) : bool :=
  bool_decide (map_Forall (fun _ s => topic_drained s) (transport_topics tr)).

Definition finish_close_if_drained : st Transport unit :=
  closing ← gets transport_closing;
  if (closing : bool) then
    drained ← gets all_drained;
    if (drained : bool) then modify (transport_set_closed true) else mret tt
  else mret tt.

(** ** Publishing *)

Definition closing_error : exc := ContractError UNAVAILABLE "transport is closing" true [].
Definition queue_full (topic : string) (max_queue_size : Z) : exc :=
  ContractError RESOURCE_EXHAUSTED "transport queue is full" true
    [("topic", VStr topic); ("max_queue_size", VInt max_queue_size)].

(** [state.messages.append(envelope); state.next_sequence += 1] *)
Definition append_message (envelope : TransportEnvelope) (s : TopicState) : TopicState :=
  Build_TopicState (topic_messages s ++ [envelope]) (topic_base_sequence s) (topic_next_sequence s + 1)
    (topic_groups s) (topic_dead_letters s).

Definition publish_once (topic : string) (envelope : TransportEnvelope) (env : Ambient) : st Transport PublishReceipt :=
  _ ← require_available;
  accepting ← gets transport_accepting;
  _ ← ensure accepting closing_error;
  state ← open_topic topic;
  max_queue_size ← gets transport_max_queue_size;
  _ ← ensure (Z.of_nat (length (topic_messages state)) <? max_queue_size)%Z (queue_full topic max_queue_size);
  _ ← update_topic topic (append_message envelope);
  mret (Build_PublishReceipt (envelope_message_id envelope) topic (ambient_now env)).

(** The publication never suspends, so that [asyncio.wait_for] with a timeout returns its result. *)
Definition publish (topic : string) (envelope : TransportEnvelope) (control : option OperationControl) (env : Ambient) :
  st Transport PublishReceipt :=
  _ ← ensure (negb (blank topic)) (contract_error INVALID_REQUEST "topic must not be blank");
  _ ← (match control ≫= OperationControl_idempotency_key with
       | Some key =>
           ensure (bool_decide (envelope_idempotency_key envelope = Some key))
             (contract_error INVALID_REQUEST "operation idempotency_key must match envelope idempotency_key")
       | None => mret tt
       end);
  publish_once topic envelope env.

(** ** The generator behind a subscription *)

(** Until the [try]: everything that happens before the consumer owns the group. *)
Definition iterate_start (sub : Subscription) : st Transport unit :=
  let topic := subscription_topic sub in
  let name := subscription_consumer_group sub in
  _ ← require_available;
  closed ← gets transport_closed;
  _ ← ensure (negb closed) (contract_error UNAVAILABLE "transport is closed");
  state ← open_topic topic;
  let joined := default (new_group (topic_base_sequence state) (subscription_retry_policy sub)) (topic_groups state !! name) in
  _ ← update_topic topic (fun s => topic_set_groups (<[name := joined]> (topic_groups s)) s);
  _ ← (if bool_decide (group_active_consumer joined = None)
       then update_group topic name (group_set_retry_policy (subscription_retry_policy sub))
       else mret tt);
  _ ← ensure (bool_decide (group_active_consumer joined = None))
        (ContractError CONFLICT "consumer group already has an active consumer in reference transport" false
          [("topic", VStr topic); ("consumer_group", VStr name)]);
  update_group topic name (group_set_active_consumer (Some (subscription_consumer_id sub))).

(** One turn of the loop ends in a delivery, in a suspension (with a timeout while a retry is not due
    yet), or in the [break]. *)
Inductive polled :=
| Delivered (d : MessageDelivery)
| Waiting (timeout : option spec_float)
| Stopped.

Definition delivery_for (sub : Subscription) (envelope : TransportEnvelope) (attempt : Z) (env : Ambient) : MessageDelivery :=
  Build_MessageDelivery envelope
    (Build_DeliveryMetadata ("delivery_" +:+ ambient_uuid env) (subscription_topic sub) (subscription_consumer_id sub)
      (subscription_consumer_group sub) attempt (1 <? attempt)%Z (ambient_now env)).

(** The group after handing out the message at [sequence] for the [attempt]-th time. *)
Definition group_deliver (d : MessageDelivery) (sequence : Z) (group : GroupState) : GroupState :=
  let m := delivery_metadata d in
  Build_GroupState (group_cursor group) (group_retry_policy group) (group_active_consumer group)
    (Some (Build_Inflight sequence (delivery_id m) (delivery_consumer_id m) (delivery_attempt m)))
    (<[sequence := delivery_attempt m]> (group_attempts group))
    (delete sequence (group_retry_not_before group)).

Definition iterate_poll (sub : Subscription) (env : Ambient) : st Transport polled :=
  let topic := subscription_topic sub in
  let name := subscription_consumer_group sub in
  _ ← require_available;
  state ← gets (topic_of topic);
  let group := group_of name state in
  _ ← ensure (bool_decide (group_inflight group = None))
        (contract_error CONTRACT_VIOLATION "previous delivery must be acked or nacked before requesting another");
  if (group_cursor group <? topic_next_sequence state)%Z then
    let sequence := group_cursor group in
    match retained state sequence with
    | None => raise (contract_error CONTRACT_VIOLATION "consumer cursor is outside retained transport range")
    | Some envelope =>
        let not_due := match group_retry_not_before group !! sequence with
                       | Some retry_at => if SFltb (ambient_loop_time env) retry_at then Some retry_at else None
                       | None => None
                       end in
        match not_due with
        | Some retry_at => mret (Waiting (Some (float_sub retry_at (ambient_loop_time env))))
        | None =>
            let attempt := (default 0 (group_attempts group !! sequence) + 1)%Z in
            let delivery := delivery_for sub envelope attempt env in
            _ ← update_group topic name (group_deliver delivery sequence);
            mret (Delivered delivery)
        end
    end
  else
    closing ← gets transport_closing;
    mret (if (closing : bool) then Stopped else Waiting None).

(** The [finally] clause. *)
Definition group_release (consumer : string) (group : GroupState) : GroupState :=
  let group := if bool_decide (inflight_consumer_id <$> group_inflight group = Some consumer)
               then group_set_inflight None group else group in
  if bool_decide (group_active_consumer group = Some consumer)
  then group_set_active_consumer None group else group.

Definition iterate_finish (sub : Subscription) : st Transport unit :=
  update_group (subscription_topic sub) (subscription_consumer_group sub) (group_release (subscription_consumer_id sub)).

(** The body of the [try]: an exception and the [break] both run the [finally]. *)
Definition iterate_turn (sub : Subscription) (env : Ambient) : st Transport polled := fun tr =>
  match iterate_poll sub env tr with
  | (Ok Stopped, tr') => (_ ← iterate_finish sub; mret Stopped) tr'
  | (Err e, tr') => (_ ← iterate_finish sub; raise e) tr'
  | r => r
  end.

(** [__anext__] up to the next suspension: a generator that has not started runs from its beginning. *)
Definition iterate_next (started : bool) (sub : Subscription) (env : Ambient) : st Transport polled :=
  _ ← (if started then mret tt else iterate_start sub);
  iterate_turn sub env.

(** [aclose], also run when the consumer is cancelled: nothing happens before the first [__anext__]. *)
Definition iterate_close (started : bool) (sub : Subscription) : st Transport unit :=
  if started then iterate_finish sub else mret tt.

(** ** Settling a delivery *)

(** [group.cursor = sequence + 1] and [pop] of the bookkeeping of the message. *)
Definition group_settle (sequence : Z) (group : GroupState) : GroupState :=
  Build_GroupState (sequence + 1) (group_retry_policy group) (group_active_consumer group) None
    (delete sequence (group_attempts group)) (delete sequence (group_retry_not_before group)).

Definition ack (d : MessageDelivery) : st Transport unit :=
  let topic := delivery_topic (delivery_metadata d) in
  let name := delivery_consumer_group (delivery_metadata d) in
  _ ← require_available;
  '(state, group) ← delivery_state d;
  inflight ← require_matching_inflight group d;
  _ ← update_group topic name (group_settle (inflight_sequence inflight));
  _ ← update_topic topic prune;
  finish_close_if_drained.

Definition dead_letter_reason (reason : option string) (retry : bool) : string :=
  or_else reason (if retry then "retry_exhausted" else "rejected").

(** [state.dead_letters.setdefault(group, []).append(letter)] *)
Definition add_dead_letter (group : string) (letter : DeadLetter) (s : TopicState) : TopicState :=
  topic_set_dead_letters (<[group := default [] (topic_dead_letters s !! group) ++ [letter]]> (topic_dead_letters s)) s.

Section nack.
Context (float_pow : spec_float -> Z -> res spec_float).

Definition nack (d : MessageDelivery) (retry : bool) (reason : option string) (env : Ambient) : st Transport unit :=
  let topic := delivery_topic (delivery_metadata d) in
  let name := delivery_consumer_group (delivery_metadata d) in
  let subscription_attempts := delivery_attempt (delivery_metadata d) in
  _ ← require_available;
  '(_, group) ← delivery_state d;
  inflight ← require_matching_inflight group d;
  let sequence := inflight_sequence inflight in
  let should_retry := retry && (subscription_attempts <? policy_max_attempts (group_retry_policy group))%Z in
  _ ← update_group topic name (group_set_inflight None);
  if should_retry then
    delay ← of_res (delay_for_retry float_pow (group_retry_policy group) subscription_attempts);
    let retry_at := float_add (ambient_loop_time env) delay in
    update_group topic name (fun g => group_set_retry_not_before (<[sequence := retry_at]> (group_retry_not_before g)) g)
  else
    state ← gets (topic_of topic);
    match retained state sequence with
    | None => raise (contract_error CONTRACT_VIOLATION "dead-letter source is unavailable")
    | Some envelope =>
        let letter := Build_DeadLetter envelope topic name subscription_attempts (dead_letter_reason reason retry)
                        (ambient_now env) in
        _ ← update_topic topic (add_dead_letter name letter);
        _ ← update_group topic name (group_settle sequence);
        _ ← update_topic topic prune;
        finish_close_if_drained
    end.
End nack.

Definition dead_letters (topic consumer_group : string) : st Transport (list DeadLetter) :=
  _ ← require_available;
  topics ← gets transport_topics;
  mret (match topics !! topic with
        | None => []
        | Some state => default [] (topic_dead_letters state !! consumer_group)
        end).

(** ** Closing *)

Definition group_abandon (next_sequence : Z) (group : GroupState) : GroupState :=
  Build_GroupState next_sequence (group_retry_policy group) (group_active_consumer group) None ∅ ∅.

Definition topic_abandon (s : TopicState) : TopicState :=
  Build_TopicState [] (topic_next_sequence s) (topic_next_sequence s)
    (group_abandon (topic_next_sequence s) <$> topic_groups s) (topic_dead_letters s).

Definition close (graceful : bool) : st Transport unit :=
  _ ← modify transport_stop_accepting;
  if graceful then finish_close_if_drained
  else
    _ ← modify (fun tr => transport_set_topics (topic_abandon <$> transport_topics tr) tr);
    modify (transport_set_closed true).

Definition set_available (available : bool) : st Transport unit := modify (transport_set_available available).

(** The health that [descriptor] reports. *)
Inductive HealthStatus := H_UNKNOWN | H_HEALTHY | H_DEGRADED | H_UNAVAILABLE.

Definition descriptor_health (tr : Transport) : HealthStatus :=
  if negb (transport_available tr) || transport_closed tr then H_UNAVAILABLE
  else if transport_closing tr then H_DEGRADED else H_HEALTHY.
Definition descriptor_available (tr : Transport) : bool := transport_available tr && negb (transport_closed tr).
