(* ===== verification/TransportInvariant.v ===== *)
(** * What a message transport holds in every reachable state

    The invariant of one topic with respect to everything that was ever published to it and every
    delivery handed out, preserved by each change that the methods of Transport.v make to a topic. *)

From Stdlib Require Import SpecFloat.
From S2P Require Import Prelude PyValue Errors StateMonad Contracts TransportModels Transport.

(** Read the fields of an updated record. *)
Ltac tr_cbn :=
  cbn [group_cursor group_retry_policy group_active_consumer group_inflight group_attempts group_retry_not_before
       group_set_cursor group_set_retry_policy group_set_active_consumer group_set_inflight group_set_attempts
       group_set_retry_not_before group_settle group_deliver group_abandon
       topic_messages topic_base_sequence topic_next_sequence topic_groups topic_dead_letters topic_set_groups
       topic_set_dead_letters append_message topic_abandon add_dead_letter new_group new_topic
       transport_max_queue_size transport_topics transport_accepting transport_closing transport_closed
       transport_available transport_set_topics transport_set_closed transport_set_available
       transport_stop_accepting
       inflight_sequence inflight_delivery_id inflight_consumer_id inflight_attempt] in *.

(** ** Pruning *)

Lemma minimum_cursor_spec groups :
  match minimum_cursor groups with
  | None => groups = ∅
  | Some m => (forall name g, groups !! name = Some g -> (m <= group_cursor g)%Z) /\
              exists name g, groups !! name = Some g /\ group_cursor g = m
  end.
Proof.
  unfold minimum_cursor.
  assert (forall name g, groups !! name = Some g <-> (name, g) ∈ map_to_list groups) as Hin
    by (intros; symmetry; apply elem_of_map_to_list).
  destruct (map_to_list groups) as [|[n0 g0] l] eqn:Hl; [by apply map_to_list_empty_iff|]. cbn [map].
  set (m := foldr Z.min _ _).
  assert ((forall kv, kv ∈ (n0, g0) :: l -> (m <= group_cursor kv.2)%Z) /\
          exists kv, kv ∈ (n0, g0) :: l /\ group_cursor kv.2 = m) as [Hle Hex].
  { subst m. clear. induction l as [|kv l [IH (kv' & Hkv' & E)]]; cbn.
    - split; [intros kv ->%list_elem_of_singleton; cbn; lia|]. by exists (n0, g0); split; [left|].
    - split.
      + intros x [->|[->|Hx]%elem_of_cons]%elem_of_cons; [|lia|].
        * specialize (IH (n0, g0) ltac:(left)). cbn in *. lia.
        * specialize (IH x ltac:(by right)). cbn in *. lia.
      + destruct (Z.min_spec (group_cursor kv.2) (foldr Z.min (group_cursor g0) (map (fun kv => group_cursor kv.2) l)))
          as [[_ ->]|[_ ->]]; [exists kv; split; [right; left|done]|].
        exists kv'. split; [|done]. apply elem_of_cons in Hkv' as [->|]; [left|by right; right]. }
  split; [intros name g H; apply Hin in H; exact (Hle _ H)|].
  destruct Hex as ([name g] & H & E). exists name, g. by rewrite Hin.
Qed.

(** The loop drops exactly what every group has passed. *)
Lemma prune_to_spec minimum base messages :
  (base <= minimum <= base + Z.of_nat (length messages))%Z ->
  prune_to minimum base messages = (drop (Z.to_nat (minimum - base)) messages, minimum).
Proof.
  revert base. induction messages as [|m messages IH]; cbn [prune_to length]; intros base H.
  - rewrite drop_nil. f_equal. lia.
  - destruct (Z.ltb_spec base minimum).
    + rewrite IH by lia. replace (Z.to_nat (minimum - base)) with (S (Z.to_nat (minimum - (base + 1)))) by lia. done.
    + replace (minimum - base)%Z with 0%Z by lia. cbn. f_equal. lia.
Qed.

(** ** The invariant *)

Section invariant.
Context (issued : list MessageDelivery).
Implicit Types (log : list TransportEnvelope) (settled : list MessageDelivery) (g : GroupState) (s : TopicState).

(** [d] is the delivery that the group holds in flight as [f]. *)
Definition in_flight (topic name : string) log (f : Inflight) (d : MessageDelivery) : Prop :=
  d ∈ issued /\ delivery_id (delivery_metadata d) = inflight_delivery_id f /\
  delivery_topic (delivery_metadata d) = topic /\ delivery_consumer_group (delivery_metadata d) = name /\
  delivery_attempt (delivery_metadata d) = inflight_attempt f /\
  log !! Z.to_nat (inflight_sequence f) = Some (delivery_envelope d).

(** A group of the topic: its position is within the retained range, bookkeeping exists only for the
    message at its position, and the messages settled for it follow the log without a gap. *)
Record group_ok (topic name : string) log (base : Z) settled (forced : bool) g : Prop := {
  go_cursor : (base <= group_cursor g <= Z.of_nat (length log))%Z;
  go_attempts : forall q n, group_attempts g !! q = Some n -> q = group_cursor g /\ (1 <= n)%Z;
  go_retry : forall q x, group_retry_not_before g !! q = Some x -> q = group_cursor g;
  go_inflight : forall f, group_inflight g = Some f ->
    inflight_sequence f = group_cursor g /\ (group_cursor g < Z.of_nat (length log))%Z /\
    group_attempts g !! group_cursor g = Some (inflight_attempt f) /\
    group_active_consumer g = Some (inflight_consumer_id f) /\ exists d, in_flight topic name log f d;
  go_settled : exists start, start <= length log /\
    map delivery_envelope settled `prefix_of` drop start log /\
    (forced = false -> Z.of_nat (start + length settled) = group_cursor g)
}.

(** A topic: what it retains is the log from its base on, within the bound, and its base is the
    position of its slowest group. *)
Record topic_ok (max : Z) (topic : string) log (history : string -> list MessageDelivery) (forced : bool) s : Prop := {
  to_next : topic_next_sequence s = Z.of_nat (length log);
  to_base : (0 <= topic_base_sequence s <= topic_next_sequence s)%Z;
  to_messages : topic_messages s = drop (Z.to_nat (topic_base_sequence s)) log;
  to_bound : (Z.of_nat (length (topic_messages s)) <= max)%Z;
  to_minimum : topic_groups s <> ∅ -> exists name g, topic_groups s !! name = Some g /\ group_cursor g = topic_base_sequence s;
  to_groups : forall name g, topic_groups s !! name = Some g ->
    group_ok topic name log (topic_base_sequence s) (history name) forced g;
  to_joined : forall name, topic_groups s !! name = None -> history name = [];
  to_forced : forced = true -> topic_base_sequence s = topic_next_sequence s;
  to_letters : forall name, map letter_envelope (default [] (topic_dead_letters s !! name))
    `sublist_of` map delivery_envelope (history name)
}.

Lemma to_length max topic log history forced s : topic_ok max topic log history forced s ->
  Z.of_nat (length (topic_messages s)) = (topic_next_sequence s - topic_base_sequence s)%Z.
Proof. intros H. rewrite (to_messages _ _ _ _ _ _ H), length_drop. pose proof (to_base _ _ _ _ _ _ H). pose proof (to_next _ _ _ _ _ _ H). lia. Qed.

(** The message at a position within the range. *)
Lemma retained_log max topic log history forced s q : topic_ok max topic log history forced s ->
  (topic_base_sequence s <= q)%Z -> retained s q = log !! Z.to_nat q.
Proof.
  intros H Hq. unfold retained. destruct (Z.ltb_spec (q - topic_base_sequence s) 0); [lia|].
  rewrite (to_messages _ _ _ _ _ _ H), lookup_drop. f_equal. destruct (to_base _ _ _ _ _ _ H). lia.
Qed.

(** ** Changes to one group *)

Lemma group_ok_log topic name log e base settled forced g :
  group_ok topic name log base settled forced g -> group_ok topic name (log ++ [e]) base settled forced g.
Proof.
  intros [Hc Ha Hr Hf (start & Hs & Hp & Hl)]. split; rewrite ?length_app; cbn; [lia|done|done| |].
  - intros f (H1 & H2 & H3 & H4 & d & Hd & H5 & H6 & H7 & H8 & H9)%Hf.
    split_and!; [done|lia|done|done|]. exists d. repeat split; auto. by apply lookup_app_l_Some.
  - exists start. split_and!; [lia| |done].
    rewrite drop_app_le by done. by apply prefix_app_r.
Qed.

Lemma group_ok_base topic name log base base' settled forced g :
  group_ok topic name log base settled forced g -> (base' <= group_cursor g)%Z ->
  group_ok topic name log base' settled forced g.
Proof. intros [Hc Ha Hr Hf Hs] H. split; [lia|done..]. Qed.

Lemma group_ok_new topic name log base policy forced :
  (0 <= base <= Z.of_nat (length log))%Z -> group_ok topic name log base [] forced (new_group base policy).
Proof.
  intros H. split; tr_cbn; [lia|done..|]. exists (Z.to_nat base). split_and!; [lia|apply prefix_nil|cbn; lia].
Qed.

Lemma group_ok_policy topic name log base settled forced g policy :
  group_ok topic name log base settled forced g ->
  group_ok topic name log base settled forced (group_set_retry_policy policy g).
Proof. intros [Hc Ha Hr Hf Hs]. by split. Qed.

Lemma group_ok_active topic name log base settled forced g active :
  group_ok topic name log base settled forced g -> group_inflight g = None ->
  group_ok topic name log base settled forced (group_set_active_consumer active g).
Proof. intros [Hc Ha Hr Hf Hs] H. split; tr_cbn; [done..| |done]. intros f Hff. congruence. Qed.

Lemma group_ok_drop_inflight topic name log base settled forced g :
  group_ok topic name log base settled forced g ->
  group_ok topic name log base settled forced (group_set_inflight None g).
Proof. intros [Hc Ha Hr Hf Hs]. by split. Qed.

Lemma group_ok_retry topic name log base settled forced g x :
  group_ok topic name log base settled forced g ->
  group_ok topic name log base settled forced
    (group_set_retry_not_before (<[group_cursor g := x]> (group_retry_not_before g)) g).
Proof.
  intros [Hc Ha Hr Hf Hs]. split; tr_cbn; [done..| |done|done].
  intros q y [[<- _]|[_ H]]%lookup_insert_Some; [done|eauto].
Qed.

(** The [finally] clause frees the group: without an active consumer nothing is in flight. *)
Lemma group_ok_release topic name log base settled forced g c :
  group_ok topic name log base settled forced g ->
  group_ok topic name log base settled forced (group_release c g).
Proof.
  intros Hok. unfold group_release.
  set (g1 := if bool_decide _ then _ else g).
  assert (group_ok topic name log base settled forced g1) as H1
    by (subst g1; case_bool_decide; [by apply group_ok_drop_inflight|done]).
  case_bool_decide as Hact; [|done]. apply group_ok_active; [done|].
  destruct (group_inflight g1) as [f|] eqn:Hf; [|done]. exfalso.
  destruct (go_inflight _ _ _ _ _ _ _ H1 f Hf) as (_ & _ & _ & Hc & _).
  subst g1. case_bool_decide as Hd; [done|]. apply Hd. rewrite Hf. cbn. congruence.
Qed.

(** Handing out the message at the cursor. *)
Lemma group_ok_deliver topic name log base settled forced g d :
  (0 <= base)%Z ->
  group_ok topic name log base settled forced g ->
  d ∈ issued ->
  delivery_topic (delivery_metadata d) = topic -> delivery_consumer_group (delivery_metadata d) = name ->
  group_active_consumer g = Some (delivery_consumer_id (delivery_metadata d)) ->
  delivery_attempt (delivery_metadata d) = (default 0 (group_attempts g !! group_cursor g) + 1)%Z ->
  log !! Z.to_nat (group_cursor g) = Some (delivery_envelope d) ->
  group_ok topic name log base settled forced (group_deliver d (group_cursor g) g).
Proof.
  intros Hb [Hc Ha Hr Hf Hs] Hd Ht Hn Hact Hatt Hlog. split; tr_cbn; [done| | | |done].
  - intros q n [[<- <-]|[_ H]]%lookup_insert_Some; [|eauto]. split; [done|]. rewrite Hatt.
    destruct (group_attempts g !! group_cursor g) as [n|] eqn:E; cbn; [|lia]. destruct (Ha _ _ E). lia.
  - intros q x [_ H]%lookup_delete_Some. eauto.
  - intros f [= <-]. tr_cbn. split_and!; [done| |by rewrite lookup_insert_eq|done|].
    + apply lookup_lt_Some in Hlog. lia.
    + exists d. repeat split; done.
Qed.

(** Settling the message at the cursor: the settled deliveries grow by the one in flight. *)
Lemma group_ok_settle topic name log base settled forced g d :
  group_ok topic name log base settled forced g -> (0 <= base)%Z ->
  log !! Z.to_nat (group_cursor g) = Some (delivery_envelope d) -> forced = false ->
  group_ok topic name log base (settled ++ [d]) forced (group_settle (group_cursor g) g).
Proof.
  intros [Hc Ha Hr Hf (start & Hs & Hp & Hl)] Hb Hlog Hforced. split; tr_cbn.
  - apply lookup_lt_Some in Hlog. lia.
  - intros q n [Hne H]%lookup_delete_Some. by destruct (Ha _ _ H).
  - intros q x [Hne H]%lookup_delete_Some. by destruct (Hr _ _ H).
  - done.
  - specialize (Hl Hforced). exists start. rewrite length_app. cbn. split_and!; [done| |lia].
    rewrite map_app. destruct Hp as [rest Hp]. rewrite Hp.
    replace (Z.to_nat (group_cursor g)) with (start + length settled) in Hlog by lia.
    rewrite <- lookup_drop, Hp, lookup_app_r in Hlog by (rewrite length_map; lia).
    rewrite length_map, Nat.sub_diag in Hlog. destruct rest as [|e rest]; [done|]. injection Hlog as ->.
    exists rest. by rewrite <- app_assoc.
Qed.

Lemma group_ok_abandon topic name log base settled forced g :
  group_ok topic name log base settled forced g ->
  group_ok topic name log (Z.of_nat (length log)) settled true (group_abandon (Z.of_nat (length log)) g).
Proof.
  intros [Hc Ha Hr Hf (start & Hs & Hp & Hl)]. split; tr_cbn; [lia|done..|]. by exists start.
Qed.

(** ** Changes to a topic *)

Definition settle_history (name : string) (d : MessageDelivery) (history : string -> list MessageDelivery) :
  string -> list MessageDelivery :=
  fun n => if bool_decide (n = name) then history n ++ [d] else history n.

Lemma topic_ok_new max topic : (0 <= max)%Z -> topic_ok max topic [] (fun _ => []) false new_topic.
Proof. intros H. by split. Qed.

Lemma topic_ok_append max topic log history s e :
  topic_ok max topic log history false s -> (Z.of_nat (length (topic_messages s)) < max)%Z ->
  topic_ok max topic (log ++ [e]) history false (append_message e s).
Proof.
  intros [Hn Hb Hm Hbound Hmin Hg Hj Hf Hl] Hlt. split; tr_cbn; rewrite ?length_app; cbn; [lia|lia| |lia|done| |done|done|done].
  - rewrite drop_app_le by lia. by rewrite Hm.
  - intros name g H. apply group_ok_log. auto.
Qed.

Lemma topic_ok_join max topic log history forced s name policy :
  topic_ok max topic log history forced s -> topic_groups s !! name = None ->
  topic_ok max topic log history forced
    (topic_set_groups (<[name := new_group (topic_base_sequence s) policy]> (topic_groups s)) s).
Proof.
  intros [Hn Hb Hm Hbound Hmin Hg Hj Hf Hl] Hnone. split; tr_cbn; try done.
  - intros _. exists name, (new_group (topic_base_sequence s) policy). by rewrite lookup_insert_eq.
  - intros n g [[<- <-]|[_ H]]%lookup_insert_Some; [|auto]. rewrite Hj by done. apply group_ok_new. lia.
  - intros n [H _]%lookup_insert_None. auto.
Qed.

Lemma topic_ok_group max topic log history forced s name g f :
  topic_ok max topic log history forced s -> topic_groups s !! name = Some g ->
  group_cursor (f g) = group_cursor g ->
  (group_ok topic name log (topic_base_sequence s) (history name) forced g ->
   group_ok topic name log (topic_base_sequence s) (history name) forced (f g)) ->
  topic_ok max topic log history forced (topic_set_groups (alter f name (topic_groups s)) s).
Proof.
  intros [Hn Hb Hm Hbound Hmin Hg Hj Hf Hl] Hname Hcur Hok. split; tr_cbn; try done.
  - intros _. destruct (Hmin ltac:(intros E; rewrite E, lookup_empty in Hname; done)) as (n & g' & H & E).
    destruct (decide (n = name)) as [->|Hne].
    + exists name, (f g). rewrite lookup_alter_eq, Hname. split; [done|congruence].
    + exists n, g'. by rewrite lookup_alter_ne.
  - intros n g' [(<- & g0 & H & ->)|[Hne H]]%lookup_alter_Some; [|auto]. simplify_eq. auto.
  - intros n H%lookup_alter_None. auto.
Qed.

Lemma prune_spec max topic log history s groups letters :
  topic_ok max topic log history false s -> groups <> ∅ ->
  (forall name g, groups !! name = Some g -> (topic_base_sequence s <= group_cursor g <= topic_next_sequence s)%Z) ->
  exists m, prune (topic_set_groups groups (topic_set_dead_letters letters s)) =
      Build_TopicState (drop (Z.to_nat m) log) m (topic_next_sequence s) groups letters /\
    (topic_base_sequence s <= m <= topic_next_sequence s)%Z /\
    (forall name g, groups !! name = Some g -> (m <= group_cursor g)%Z) /\
    exists name g, groups !! name = Some g /\ group_cursor g = m.
Proof.
  intros Hs Hne Hrange. unfold prune. tr_cbn. pose proof (minimum_cursor_spec groups) as Hmin.
  destruct (minimum_cursor groups) as [m|]; [|done]. destruct Hmin as [Hle (n & g & Hn & E)].
  pose proof (Hrange _ _ Hn) as Hr. pose proof (to_length _ _ _ _ _ _ Hs) as Hlen.
  rewrite prune_to_spec by lia. exists m. split; [|split; [lia|eauto]].
  rewrite (to_messages _ _ _ _ _ _ Hs), drop_drop. do 2 f_equal. pose proof (to_base _ _ _ _ _ _ Hs). lia.
Qed.

Lemma topic_ok_settle max topic log history s name g d letters :
  topic_ok max topic log history false s -> topic_groups s !! name = Some g ->
  log !! Z.to_nat (group_cursor g) = Some (delivery_envelope d) ->
  (forall n, map letter_envelope (default [] (letters !! n)) `sublist_of`
     map delivery_envelope (settle_history name d history n)) ->
  topic_ok max topic log (settle_history name d history) false
    (prune (topic_set_groups (alter (group_settle (group_cursor g)) name (topic_groups s))
      (topic_set_dead_letters letters s))).
Proof.
  intros Hs Hname Hlog Hletters. pose proof (to_groups _ _ _ _ _ _ Hs) as Hg.
  pose proof (to_base _ _ _ _ _ _ Hs) as Hb. pose proof (to_next _ _ _ _ _ _ Hs) as Hn.
  pose proof (go_cursor _ _ _ _ _ _ _ (Hg _ _ Hname)) as Hcur.
  pose proof (lookup_lt_Some _ _ _ Hlog) as Hlt.
  assert (group_ok topic name log (topic_base_sequence s) (history name ++ [d]) false (group_settle (group_cursor g) g)) as Hset
    by (apply group_ok_settle; [by apply Hg|lia|done|done]).
  destruct (prune_spec max topic log history s (alter (group_settle (group_cursor g)) name (topic_groups s)) letters Hs)
    as (m & -> & Hm & Hle & Hex).
  - intros E. assert (alter (group_settle (group_cursor g)) name (topic_groups s) !! name = None) as H
      by (by rewrite E, lookup_empty). rewrite lookup_alter_eq, Hname in H. done.
  - intros n g' [(<- & g0 & H & ->)|[Hne H]]%lookup_alter_Some.
    + simplify_eq. tr_cbn. lia.
    + pose proof (go_cursor _ _ _ _ _ _ _ (Hg _ _ H)). lia.
  - split; tr_cbn; try done; [lia| | |].
    + rewrite length_drop. pose proof (to_bound _ _ _ _ _ _ Hs). pose proof (to_length _ _ _ _ _ _ Hs). lia.
    + intros n g' H. pose proof (Hle _ _ H) as Hm'. apply lookup_alter_Some in H as [(<- & g0 & H & ->)|[Hne H]].
      * simplify_eq. unfold settle_history. rewrite bool_decide_true by done. by eapply group_ok_base.
      * unfold settle_history. rewrite bool_decide_false by done. eapply group_ok_base; eauto.
    + intros n H%lookup_alter_None. unfold settle_history. rewrite bool_decide_false by congruence.
      by apply (to_joined _ _ _ _ _ _ Hs).
Qed.

Lemma topic_ok_abandon max topic log history forced s :
  (0 <= max)%Z -> topic_ok max topic log history forced s ->
  topic_ok max topic log history true (topic_abandon s).
Proof.
  intros Hmax Hs. pose proof (to_next _ _ _ _ _ _ Hs) as Hn. pose proof (to_base _ _ _ _ _ _ Hs) as Hbase.
  pose proof (to_bound _ _ _ _ _ _ Hs) as Hb. split; tr_cbn; try done; [lia| | | | |].
  - by rewrite Hn, Nat2Z.id, drop_all.
  - intros Hne. destruct (map_choose (group_abandon (topic_next_sequence s) <$> topic_groups s)) as (n & g & H); [done|].
    exists n, g. split; [done|]. apply lookup_fmap_Some in H as (g' & <- & _). done.
  - intros n g (g' & <- & H)%lookup_fmap_Some. rewrite Hn. eapply group_ok_abandon, (to_groups _ _ _ _ _ _ Hs), H.
  - intros n. rewrite lookup_fmap, fmap_None. by apply (to_joined _ _ _ _ _ _ Hs).
  - apply (to_letters _ _ _ _ _ _ Hs).
Qed.
End invariant.
