(* ===== verification/TransportSteps.v ===== *)
(** * The methods of the transport in closed form, and the transport among its users

    Each method as a decision table: which guard fails first with which error, and otherwise the one
    change it makes to its topic. Then everything that can happen to an [InProcessMessageTransport]: publications,
    generators that are created, resumed and closed in any order, deliveries that are acked and nacked late, twice or
    never, outages and closing. The world also remembers what happened: the envelopes accepted for each topic, the
    deliveries handed out, and for each group the deliveries that moved its cursor. *)

From Stdlib Require Import SpecFloat.
From S2P Require Import Prelude PyValue Errors StateMonad Contracts TransportModels Transport TransportInvariant.

(** The change of one topic object. *)
Definition touch (topic : string) (f : TopicState -> TopicState) (tr : Transport) : Transport :=
  transport_set_topics (alter f topic (transport_topics tr)) tr.

(** The topic object exists from now on. *)
Definition opened (topic : string) (tr : Transport) : Transport :=
  transport_set_topics (<[topic := topic_of topic tr]> (transport_topics tr)) tr.

(** [self._closed = True] when the transport is closing and drained. *)
Definition finished (tr : Transport) : Transport :=
  if transport_closing tr && all_drained tr then transport_set_closed true tr else tr.

Definition on_group (name : string) (f : GroupState -> GroupState) (s : TopicState) : TopicState :=
  topic_set_groups (alter f name (topic_groups s)) s.

Lemma transport_eta tr : transport_set_topics (transport_topics tr) tr = tr.
Proof. by destruct tr. Qed.
Lemma topic_groups_eta s : topic_set_groups (topic_groups s) s = s.
Proof. by destruct s. Qed.

Lemma touch_touch topic f f' tr : touch topic f' (touch topic f tr) = touch topic (fun s => f' (f s)) tr.
Proof. unfold touch. tr_cbn. by rewrite alter_alter_eq. Qed.

Lemma opened_known topic tr s : transport_topics tr !! topic = Some s -> opened topic tr = tr.
Proof. intros H. unfold opened, topic_of. rewrite H. cbn. rewrite insert_id by done. apply transport_eta. Qed.

Lemma opened_lookup topic tr : transport_topics (opened topic tr) !! topic = Some (topic_of topic tr).
Proof. unfold opened. tr_cbn. apply lookup_insert_eq. Qed.

Lemma topic_of_known topic tr s : transport_topics tr !! topic = Some s -> topic_of topic tr = s.
Proof. unfold topic_of. by intros ->. Qed.

(** Read the methods as functions of the transport. *)
Ltac run_method :=
  unfold require_available, update_group, update_topic;
  unfold mbind, st_bind, gets, ensure, raise, modify, of_res, mret, st_ret; cbv beta iota.

(** Two transports that differ only in their topics. *)
Ltac same_topics tr :=
  lazymatch goal with
  | |- transport_set_topics ?a _ = transport_set_topics ?b _ =>
      change (transport_set_topics a tr = transport_set_topics b tr);
      apply (f_equal (fun topics => transport_set_topics topics tr))
  end.

Lemma finish_close_if_drained_run tr : finish_close_if_drained tr = (Ok tt, finished tr).
Proof.
  unfold finish_close_if_drained, finished. run_method. destruct (transport_closing tr); cbn; [|done].
  by destruct (all_drained tr).
Qed.

(** ** Publishing *)

Definition bound_key (envelope : TransportEnvelope) (control : option OperationControl) : bool :=
  match control ≫= OperationControl_idempotency_key with
  | Some key => bool_decide (envelope_idempotency_key envelope = Some key)
  | None => true
  end.

Lemma publish_run topic e control env tr :
  publish topic e control env tr =
  if blank topic then (Err (contract_error INVALID_REQUEST "topic must not be blank"), tr)
  else if negb (bound_key e control)
  then (Err (contract_error INVALID_REQUEST "operation idempotency_key must match envelope idempotency_key"), tr)
  else if negb (transport_available tr) then (Err unavailable, tr)
  else if negb (transport_accepting tr) then (Err closing_error, tr)
  else if (transport_max_queue_size tr <=? Z.of_nat (length (topic_messages (topic_of topic tr))))%Z
  then (Err (queue_full topic (transport_max_queue_size tr)), opened topic tr)
  else (Ok (Build_PublishReceipt (envelope_message_id e) topic (ambient_now env)),
        touch topic (append_message e) (opened topic tr)).
Proof.
  unfold publish, bound_key, publish_once, open_topic.
  generalize (control ≫= OperationControl_idempotency_key). intros key. run_method.
  destruct (blank topic); cbn [negb]; [done|].
  destruct key as [key|]; [destruct (bool_decide (envelope_idempotency_key e = Some key)); cbn [negb]; [|done]|];
    (destruct (transport_available tr); cbn [negb]; [|done]);
    (destruct (transport_accepting tr); cbn [negb]; [|done]); fold (opened topic tr);
    rewrite (topic_of_known _ _ _ (opened_lookup topic tr)), Z.leb_antisym;
    unfold opened; tr_cbn; by destruct (Z.of_nat _ <? _)%Z.
Qed.

(** ** Joining a group *)

Definition joined_group (sub : Subscription) (s : TopicState) : GroupState :=
  default (new_group (topic_base_sequence s) (subscription_retry_policy sub))
    (topic_groups s !! subscription_consumer_group sub).

(** The group of a consumer that has just become its owner. *)
Definition own (sub : Subscription) (g : GroupState) : GroupState :=
  group_set_active_consumer (Some (subscription_consumer_id sub))
    (group_set_retry_policy (subscription_retry_policy sub) g).

Definition own_group (sub : Subscription) (s : TopicState) : TopicState :=
  topic_set_groups (<[subscription_consumer_group sub := own sub (joined_group sub s)]> (topic_groups s)) s.

Definition group_taken (sub : Subscription) : exc :=
  ContractError CONFLICT "consumer group already has an active consumer in reference transport" false
    [("topic", VStr (subscription_topic sub)); ("consumer_group", VStr (subscription_consumer_group sub))].

Lemma iterate_start_run sub tr :
  iterate_start sub tr =
  if negb (transport_available tr) then (Err unavailable, tr)
  else if transport_closed tr then (Err (contract_error UNAVAILABLE "transport is closed"), tr)
  else if bool_decide (group_active_consumer (joined_group sub (topic_of (subscription_topic sub) tr)) = None)
  then (Ok tt, touch (subscription_topic sub) (own_group sub) (opened (subscription_topic sub) tr))
  else (Err (group_taken sub), tr).
Proof.
  unfold iterate_start, open_topic. run_method. destruct (transport_available tr); cbn [negb]; [|done].
  destruct (transport_closed tr); cbn [negb]; [done|]. fold (opened (subscription_topic sub) tr).
  rewrite (topic_of_known _ _ _ (opened_lookup _ tr)).
  set (s := topic_of _ tr). fold (joined_group sub s). case_bool_decide as Hfree.
  - apply (f_equal (pair (Ok tt))). unfold touch. same_topics tr. tr_cbn.
    rewrite !alter_alter_eq. apply alter_ext. intros s' Hs'. rewrite opened_lookup in Hs'. injection Hs' as <-.
    unfold compose, own_group. tr_cbn. apply (f_equal (fun m => topic_set_groups m s)). fold s.
    by rewrite !alter_insert_eq.
  - apply (f_equal (pair (Err (group_taken sub)))). destruct (topic_groups s !! subscription_consumer_group sub) as [g|] eqn:Hg;
      [|unfold joined_group in Hfree; rewrite Hg in Hfree; done].
    assert (transport_topics tr !! subscription_topic sub = Some s) as Hs.
    { subst s. unfold topic_of in *. destruct (transport_topics tr !! subscription_topic sub); [done|].
      cbn in Hg. by rewrite lookup_empty in Hg. }
    rewrite (opened_known _ _ _ Hs). unfold joined_group. rewrite Hg. cbn.
    etransitivity; [|apply transport_eta]. apply (f_equal (fun topics => transport_set_topics topics tr)).
    apply alter_id. intros s' Hs'. rewrite Hs in Hs'. injection Hs' as <-.
    rewrite insert_id by done. apply topic_groups_eta.
Qed.

(** ** Polling *)

(** The retry of the message at the cursor is not due before this time. *)
Definition not_due (env : Ambient) (g : GroupState) : option spec_float :=
  match group_retry_not_before g !! group_cursor g with
  | Some retry_at => if SFltb (ambient_loop_time env) retry_at then Some retry_at else None
  | None => None
  end.

Definition upcoming_attempt (g : GroupState) : Z := (default 0 (group_attempts g !! group_cursor g) + 1)%Z.

Definition pending_delivery : exc :=
  contract_error CONTRACT_VIOLATION "previous delivery must be acked or nacked before requesting another".
Definition out_of_range : exc := contract_error CONTRACT_VIOLATION "consumer cursor is outside retained transport range".

Lemma iterate_poll_run sub env tr s g :
  topic_of (subscription_topic sub) tr = s -> group_of (subscription_consumer_group sub) s = g ->
  iterate_poll sub env tr =
  if negb (transport_available tr) then (Err unavailable, tr)
  else if bool_decide (group_inflight g = None) then
    if (group_cursor g <? topic_next_sequence s)%Z then
      match retained s (group_cursor g) with
      | None => (Err out_of_range, tr)
      | Some e =>
          match not_due env g with
          | Some retry_at => (Ok (Waiting (Some (float_sub retry_at (ambient_loop_time env)))), tr)
          | None =>
              let d := delivery_for sub e (upcoming_attempt g) env in
              (Ok (Delivered d),
               touch (subscription_topic sub)
                 (on_group (subscription_consumer_group sub) (group_deliver d (group_cursor g))) tr)
          end
      end
    else (Ok (if transport_closing tr then Stopped else Waiting None), tr)
  else (Err pending_delivery, tr).
Proof.
  intros <- <-. unfold iterate_poll, not_due, upcoming_attempt. run_method.
  destruct (transport_available tr); cbn [negb]; [|done].
  set (s := topic_of _ tr). set (g := group_of _ s).
  case_bool_decide; cbn [negb]; [|done].
  destruct (_ <? _)%Z; [|done]. destruct (retained s (group_cursor g)); [|done].
  destruct (group_retry_not_before g !! group_cursor g) as [x|]; [|done]. by destruct (SFltb _ _).
Qed.

Lemma iterate_finish_run sub tr :
  iterate_finish sub tr =
  (Ok tt, touch (subscription_topic sub)
            (on_group (subscription_consumer_group sub) (group_release (subscription_consumer_id sub))) tr).
Proof. done. Qed.

Definition released (sub : Subscription) (tr : Transport) : Transport :=
  touch (subscription_topic sub)
    (on_group (subscription_consumer_group sub) (group_release (subscription_consumer_id sub))) tr.

Lemma iterate_turn_run sub env tr :
  iterate_turn sub env tr =
  match iterate_poll sub env tr with
  | (Ok (Delivered d), tr') => (Ok (Delivered d), tr')
  | (Ok (Waiting t), tr') => (Ok (Waiting t), tr')
  | (Ok Stopped, tr') => (Ok Stopped, released sub tr')
  | (Err e, tr') => (Err e, released sub tr')
  end.
Proof. unfold iterate_turn. by destruct (iterate_poll sub env tr) as [[[]|] ?]. Qed.

(** ** Settling *)

(** The in-flight record that the delivery refers to, or the error of the call. *)
Definition current (d : MessageDelivery) (tr : Transport) : res (GroupState * Inflight) :=
  let m := delivery_metadata d in
  match transport_topics tr !! delivery_topic m with
  | None => Err (contract_error NOT_FOUND "delivery topic is not known")
  | Some s =>
      match topic_groups s !! delivery_consumer_group m with
      | None => Err (contract_error NOT_FOUND "delivery consumer group is not known")
      | Some g =>
          match group_inflight g with
          | Some f => if bool_decide (inflight_delivery_id f = delivery_id m) then Ok (g, f) else Err not_inflight
          | None => Err not_inflight
          end
      end
  end.

Definition settle_topic (name : string) (sequence : Z) (s : TopicState) : TopicState :=
  prune (on_group name (group_settle sequence) s).

Lemma ack_run d tr :
  ack d tr =
  if negb (transport_available tr) then (Err unavailable, tr)
  else match current d tr with
       | Err e => (Err e, tr)
       | Ok (_, f) =>
           (Ok tt, finished (touch (delivery_topic (delivery_metadata d))
              (settle_topic (delivery_consumer_group (delivery_metadata d)) (inflight_sequence f)) tr))
       end.
Proof.
  unfold ack, current, delivery_state, require_matching_inflight. run_method.
  destruct (transport_available tr); cbn [negb]; [|done].
  destruct (transport_topics tr !! _) as [s|]; [|done]. destruct (topic_groups s !! _) as [g|]; [|done].
  destruct (group_inflight g) as [f|]; [|done]. destruct (bool_decide _); [|done].
  rewrite finish_close_if_drained_run. do 2 f_equal. unfold touch. same_topics tr. tr_cbn. by rewrite alter_alter_eq.
Qed.

(** A nack retries the message, or moves it to the dead letters. *)
Definition retries (d : MessageDelivery) (retry : bool) (g : GroupState) : bool :=
  retry && (delivery_attempt (delivery_metadata d) <? policy_max_attempts (group_retry_policy g))%Z.

Definition dead_letter_for (d : MessageDelivery) (e : TransportEnvelope) (retry : bool) (reason : option string)
  (env : Ambient) : DeadLetter :=
  let m := delivery_metadata d in
  Build_DeadLetter e (delivery_topic m) (delivery_consumer_group m) (delivery_attempt m)
    (dead_letter_reason reason retry) (ambient_now env).

Definition bury_topic (name : string) (sequence : Z) (letter : DeadLetter) (s : TopicState) : TopicState :=
  settle_topic name sequence (add_dead_letter name letter (on_group name (group_set_inflight None) s)).

Definition source_unavailable : exc := contract_error CONTRACT_VIOLATION "dead-letter source is unavailable".

Lemma nack_run float_pow d retry reason env tr :
  nack float_pow d retry reason env tr =
  let t := delivery_topic (delivery_metadata d) in
  let n := delivery_consumer_group (delivery_metadata d) in
  let dropped := touch t (on_group n (group_set_inflight None)) tr in
  if negb (transport_available tr) then (Err unavailable, tr)
  else match current d tr with
       | Err e => (Err e, tr)
       | Ok (g, f) =>
           if retries d retry g then
             match delay_for_retry float_pow (group_retry_policy g) (delivery_attempt (delivery_metadata d)) with
             | Err e => (Err e, dropped)
             | Ok delay =>
                 (Ok tt, touch t (on_group n (fun g => group_set_retry_not_before
                    (<[inflight_sequence f := float_add (ambient_loop_time env) delay]> (group_retry_not_before g)) g)) dropped)
             end
           else
             match retained (topic_of t tr) (inflight_sequence f) with
             | None => (Err source_unavailable, dropped)
             | Some e =>
                 (Ok tt, finished (touch t (bury_topic n (inflight_sequence f) (dead_letter_for d e retry reason env)) tr))
             end
       end.
Proof.
  unfold nack, current, delivery_state, require_matching_inflight, retries. run_method.
  destruct (transport_available tr); cbn [negb]; [|done].
  set (t := delivery_topic _). set (n := delivery_consumer_group _).
  destruct (transport_topics tr !! t) as [s|] eqn:Hs; [|done]. destruct (topic_groups s !! n) as [g|]; [|done].
  destruct (group_inflight g) as [f|]; [|done]. destruct (bool_decide _); [|done].
  destruct (retry && _).
  - destruct (delay_for_retry _ _ _) as [delay|e]; done.
  - assert (topic_of t (touch t (on_group n (group_set_inflight None)) tr) = on_group n (group_set_inflight None) (topic_of t tr)) as E.
    { unfold topic_of, touch. tr_cbn. rewrite lookup_alter_eq, Hs. done. }
    change (transport_set_topics _ tr) with (touch t (on_group n (group_set_inflight None)) tr).
    rewrite E. change (retained (on_group n (group_set_inflight None) (topic_of t tr))) with (retained (topic_of t tr)).
    destruct (retained (topic_of t tr) (inflight_sequence f)) as [e|]; [|done].
    rewrite finish_close_if_drained_run. do 2 f_equal. unfold touch. same_topics tr. tr_cbn. by rewrite !alter_alter_eq.
Qed.

(** ** A transport among its publishers and consumers *)

(** A generator that was not resumed yet, one that owns its group, and one that is over. *)
Inductive phase := Created | Running | Ended.

#[export] Instance phase_eq_dec : EqDecision phase.
Proof. solve_decision. Defined.

Record world := World {
  w_transport : Transport;
  w_subs : list (Subscription * phase);
  w_issued : list MessageDelivery;
  w_log : gmap string (list TransportEnvelope);
  w_settled : gmap (string * string) (list MessageDelivery);
  w_forced : bool
}.

Definition log_of (w : world) (topic : string) : list TransportEnvelope := default [] (w_log w !! topic).
Definition settled_of (w : world) (topic name : string) : list MessageDelivery := default [] (w_settled w !! (topic, name)).
Definition set_transport (tr : Transport) (w : world) : world :=
  World tr (w_subs w) (w_issued w) (w_log w) (w_settled w) (w_forced w).
Definition set_phase (i : nat) (sub : Subscription) (p : phase) (w : world) : world :=
  World (w_transport w) (<[i := (sub, p)]> (w_subs w)) (w_issued w) (w_log w) (w_settled w) (w_forced w).
Definition issue (d : MessageDelivery) (w : world) : world :=
  World (w_transport w) (w_subs w) (w_issued w ++ [d]) (w_log w) (w_settled w) (w_forced w).
Definition record_log (topic : string) (e : TransportEnvelope) (w : world) : world :=
  World (w_transport w) (w_subs w) (w_issued w) (<[topic := log_of w topic ++ [e]]> (w_log w)) (w_settled w) (w_forced w).

Definition group_at (tr : Transport) (topic name : string) : option GroupState :=
  transport_topics tr !! topic ≫= fun s => topic_groups s !! name.

(** A call that moved the cursor of its group has settled the delivery it was given. *)
Definition record_settled (d : MessageDelivery) (before : Transport) (w : world) : world :=
  let t := delivery_topic (delivery_metadata d) in
  let n := delivery_consumer_group (delivery_metadata d) in
  if bool_decide (group_cursor <$> group_at before t n = group_cursor <$> group_at (w_transport w) t n) then w
  else World (w_transport w) (w_subs w) (w_issued w) (w_log w) (<[(t, n) := settled_of w t n ++ [d]]> (w_settled w)) (w_forced w).

Inductive action :=
| Publish (topic : string) (envelope : TransportEnvelope) (control : option OperationControl) (env : Ambient)
| Subscribe (sub : Subscription)
| Resume (i : nat) (env : Ambient)
| Leave (i : nat)
| Ack (d : MessageDelivery)
| Nack (d : MessageDelivery) (retry : bool) (reason : option string) (env : Ambient)
| Shut (graceful : bool)
| Outage (available : bool).

Section world.
Context (float_pow : spec_float -> Z -> res spec_float).

Definition resumed (i : nat) (sub : Subscription) (r : res polled) (w : world) : world :=
  match r with
  | Ok (Delivered d) => issue d (set_phase i sub Running w)
  | Ok (Waiting _) => set_phase i sub Running w
  | Ok Stopped | Err _ => set_phase i sub Ended w
  end.

Definition act (a : action) (w : world) : world :=
  let tr := w_transport w in
  match a with
  | Publish topic envelope control env =>
      let '(r, tr') := publish topic envelope control env tr in
      if is_ok r then record_log topic envelope (set_transport tr' w) else set_transport tr' w
  | Subscribe sub => World tr (w_subs w ++ [(sub, Created)]) (w_issued w) (w_log w) (w_settled w) (w_forced w)
  | Resume i env =>
      match w_subs w !! i with
      | None | Some (_, Ended) => w
      | Some (sub, p) =>
          let '(r, tr') := iterate_next (bool_decide (p = Running)) sub env tr in
          resumed i sub r (set_transport tr' w)
      end
  | Leave i =>
      match w_subs w !! i with
      | None | Some (_, Ended) => w
      | Some (sub, p) => set_phase i sub Ended (set_transport (iterate_close (bool_decide (p = Running)) sub tr).2 w)
      end
  | Ack d => record_settled d tr (set_transport (ack d tr).2 w)
  | Nack d retry reason env => record_settled d tr (set_transport (nack float_pow d retry reason env tr).2 w)
  | Shut graceful =>
      World (close graceful tr).2 (w_subs w) (w_issued w) (w_log w) (w_settled w) (w_forced w || negb graceful)
  | Outage available => set_transport (set_available available tr).2 w
  end.

(** Consumers hand back deliveries they were given, in any order and number; UUIDs are fresh. *)
Definition allowed (a : action) (w : world) : Prop :=
  match a with
  | Resume _ env => "delivery_" +:+ ambient_uuid env ∉ map (fun d => delivery_id (delivery_metadata d)) (w_issued w)
  | Ack d | Nack d _ _ _ => d ∈ w_issued w
  | _ => True
  end.

Definition initial (tr : Transport) : world := World tr [] [] ∅ ∅ false.

Inductive reach (max : Z) : world -> Prop :=
| reach_init tr : new_transport max = Ok tr -> reach max (initial tr)
| reach_act w a : reach max w -> allowed a w -> reach max (act a w).
End world.
