(* ===== verification/TransportSafety.v ===== *)
(** * Every reachable world satisfies the transport's invariant

    The invariant of all topics together with the ownership of groups by running generators and the
    closing flags, and its preservation by every action of TransportSteps.v. *)

From Stdlib Require Import SpecFloat.
From S2P Require Import Prelude PyValue Errors StateMonad Contracts TransportModels Transport TransportInvariant.
From S2P Require Import TransportSteps.

Definition all_empty (tr : Transport) : bool :=
  bool_decide (map_Forall (fun _ s => topic_messages s = []) (transport_topics tr)).

(** The generators that own the group, and the consumer that the group records as its owner. *)
Definition runs (topic name : string) (x : Subscription * phase) : Prop :=
  x.2 = Running /\ subscription_topic x.1 = topic /\ subscription_consumer_group x.1 = name.
#[export] Instance runs_dec topic name x : Decision (runs topic name x).
Proof. unfold runs. apply _. Defined.

Definition runners (subs : list (Subscription * phase)) (topic name : string) : list string :=
  map (fun x => subscription_consumer_id x.1) (filter (runs topic name) subs).
Definition owner (tr : Transport) (topic name : string) : list string :=
  match group_at tr topic name ≫= group_active_consumer with Some c => [c] | None => [] end.

#[global] Arguments runners : simpl never.
#[global] Arguments owner : simpl never.
#[global] Arguments all_empty : simpl never.
#[global] Arguments touch : simpl never.
#[global] Arguments opened : simpl never.
#[global] Arguments finished : simpl never.
#[global] Arguments released : simpl never.

Section topics.
Context (max : Z).
Implicit Types (issued : list MessageDelivery) (log : string -> list TransportEnvelope)
  (settled : string -> string -> list MessageDelivery) (forced : bool) (topics : gmap string TopicState).

Definition topics_ok issued topics log settled forced : Prop := forall topic,
  match topics !! topic with
  | Some s => topic_ok issued max topic (log topic) (settled topic) forced s
  | None => log topic = [] /\ forall name, settled topic name = []
  end.

Lemma topic_ok_ext issued topic l history history' forced s :
  topic_ok issued max topic l history forced s -> (forall n, history' n = history n) ->
  topic_ok issued max topic l history' forced s.
Proof.
  intros [Hn Hb Hm Hbound Hmin Hg Hj Hf Hl] E. split; try done; intros *; rewrite ?E; auto.
Qed.

Lemma topic_ok_issued issued issued' topic l history forced s :
  topic_ok issued max topic l history forced s -> issued ⊆ issued' ->
  topic_ok issued' max topic l history forced s.
Proof.
  intros [Hn Hb Hm Hbound Hmin Hg Hj Hf Hl] Hsub. split; try done.
  intros name g H. destruct (Hg name g H) as [Hc Ha Hr Hi Hs]. split; try done.
  intros f H1. destruct (Hi f H1) as (H2 & H3 & H4 & H5 & d & Hd & H6).
  split_and!; [done..|]. exists d. split; [by apply Hsub|done].
Qed.

Lemma topics_ok_issued issued issued' topics log settled forced :
  topics_ok issued topics log settled forced -> issued ⊆ issued' -> topics_ok issued' topics log settled forced.
Proof.
  intros H Hsub topic. specialize (H topic). destruct (topics !! topic); [|done]. by eapply topic_ok_issued.
Qed.

Lemma topics_ok_touch issued topics log log' settled settled' forced topic F s :
  topics_ok issued topics log settled forced -> topics !! topic = Some s ->
  topic_ok issued max topic (log' topic) (settled' topic) forced (F s) ->
  (forall t, t <> topic -> log' t = log t /\ forall n, settled' t n = settled t n) ->
  topics_ok issued (alter F topic topics) log' settled' forced.
Proof.
  intros H Hs Hok Hother t. destruct (decide (t = topic)) as [->|Hne].
  - by rewrite lookup_alter_eq, Hs.
  - destruct (Hother t Hne) as [-> E]. rewrite lookup_alter_ne by done. specialize (H t).
    destruct (topics !! t); [by eapply topic_ok_ext|]. destruct H as [-> H]. split; [done|]. intros n. by rewrite E.
Qed.

Lemma topics_ok_opened issued tr log settled topic :
  (0 <= max)%Z -> topics_ok issued (transport_topics tr) log settled false ->
  topics_ok issued (transport_topics (opened topic tr)) log settled false.
Proof.
  intros Hmax H t. unfold opened. tr_cbn. destruct (decide (t = topic)) as [->|Hne].
  - rewrite lookup_insert_eq. specialize (H topic). unfold topic_of. destruct (transport_topics tr !! topic); [done|].
    destruct H as [-> H]. cbn. eapply topic_ok_ext; [by apply topic_ok_new|]. done.
  - rewrite lookup_insert_ne by done. apply H.
Qed.

(** A topic that retains nothing has nothing in flight. *)
Lemma all_drained_empty issued tr log settled forced :
  topics_ok issued (transport_topics tr) log settled forced -> all_drained tr = all_empty tr.
Proof.
  intros H. unfold all_drained, all_empty. apply bool_decide_ext. unfold map_Forall.
  assert (forall t s, transport_topics tr !! t = Some s -> topic_messages s = [] -> topic_drained s) as Hd.
  { intros t s Hs Hm. split; [done|]. intros name g Hg. destruct (group_inflight g) as [f|] eqn:Hf; [|done]. exfalso.
    pose proof (H t) as Ht. rewrite Hs in Ht. pose proof (to_groups _ _ _ _ _ _ _ Ht _ _ Hg) as Hok.
    destruct (go_inflight _ _ _ _ _ _ _ _ Hok f Hf) as (_ & Hlt & _).
    pose proof (go_cursor _ _ _ _ _ _ _ _ Hok). pose proof (to_length _ _ _ _ _ _ _ Ht) as Hlen.
    pose proof (to_next _ _ _ _ _ _ _ Ht). rewrite Hm in Hlen. cbn in Hlen. lia. }
  split; intros Hall t s Hs; [by destruct (Hall t s Hs)|]. apply (Hd t s Hs), (Hall t s Hs).
Qed.
End topics.

(** ** Groups and messages after a change *)

Lemma group_at_touch topic F tr t n :
  group_at (touch topic F tr) t n =
  if bool_decide (t = topic) then transport_topics tr !! topic ≫= (fun s => topic_groups (F s) !! n) else group_at tr t n.
Proof.
  unfold group_at, touch. tr_cbn. case_bool_decide as E.
  - subst t. rewrite lookup_alter_eq. by destruct (transport_topics tr !! topic).
  - by rewrite lookup_alter_ne.
Qed.

Lemma group_at_on_group topic name f tr t n :
  group_at (touch topic (on_group name f) tr) t n =
  if bool_decide (t = topic /\ n = name) then f <$> group_at tr t n else group_at tr t n.
Proof.
  rewrite group_at_touch. unfold group_at, on_group. case_bool_decide as E.
  - subst t. destruct (transport_topics tr !! topic) as [s|]; cbn; [|by case_bool_decide].
    case_bool_decide as E; [destruct E as [_ ->]; by rewrite lookup_alter_eq|].
    rewrite lookup_alter_ne; [done|]. intros ->. by apply E.
  - rewrite bool_decide_false; [done|]. by intros [? _].
Qed.

Lemma group_at_opened topic tr t n : group_at (opened topic tr) t n = group_at tr t n.
Proof.
  unfold group_at, opened, topic_of. tr_cbn. destruct (decide (t = topic)) as [->|Hne].
  - rewrite lookup_insert_eq. by destruct (transport_topics tr !! topic).
  - by rewrite lookup_insert_ne.
Qed.

Lemma owner_on_group topic name f tr t n :
  (forall g, group_at tr topic name = Some g -> group_active_consumer (f g) = group_active_consumer g) ->
  owner (touch topic (on_group name f) tr) t n = owner tr t n.
Proof.
  intros H. unfold owner. rewrite group_at_on_group. case_bool_decide as E; [|done]. destruct E as [-> ->].
  destruct (group_at tr topic name) as [g|]; cbn; [|done]. by rewrite H.
Qed.

Lemma all_empty_touch topic F tr :
  (forall s, transport_topics tr !! topic = Some s -> topic_messages (F s) = topic_messages s) ->
  all_empty (touch topic F tr) = all_empty tr.
Proof.
  intros HF. unfold all_empty, touch. tr_cbn. apply bool_decide_ext. unfold map_Forall. split.
  - intros H t s Hs. destruct (decide (t = topic)) as [->|Hne].
    + rewrite <- HF by done. eapply (H topic). by rewrite lookup_alter_eq, Hs.
    + eapply (H t). by rewrite lookup_alter_ne.
  - intros H t s' [(<- & s & Hs & ->)|[_ Hs]]%lookup_alter_Some; [rewrite HF by done|]; by eapply H.
Qed.

Lemma all_empty_opened topic tr : all_empty (opened topic tr) = all_empty tr.
Proof.
  unfold all_empty, opened, topic_of. tr_cbn. apply bool_decide_ext. unfold map_Forall.
  destruct (transport_topics tr !! topic) as [s|] eqn:Hs; cbn; [by rewrite insert_id|]. split.
  - intros H t s Ht. eapply (H t). rewrite lookup_insert_ne; [done|congruence].
  - intros H t s [[<- <-]|[_ Ht]]%lookup_insert_Some; [done|by eapply H].
Qed.

Lemma runners_app subs subs' topic name : runners (subs ++ subs') topic name = runners subs topic name ++ runners subs' topic name.
Proof. unfold runners. by rewrite filter_app, map_app. Qed.

Lemma runners_insert subs i x y topic name : subs !! i = Some x ->
  exists before after, runners subs topic name = before ++ runners [x] topic name ++ after /\
    runners (<[i := y]> subs) topic name = before ++ runners [y] topic name ++ after.
Proof.
  intros Hi. exists (runners (take i subs) topic name), (runners (drop (S i) subs) topic name).
  rewrite <- !runners_app. split; f_equal; cbn.
  - symmetry. by apply take_drop_middle.
  - apply insert_take_drop. by eapply lookup_lt_Some.
Qed.

Lemma runners_single sub p topic name :
  runners [(sub, p)] topic name =
  if bool_decide (p = Running /\ topic = subscription_topic sub /\ name = subscription_consumer_group sub)
  then [subscription_consumer_id sub] else [].
Proof.
  unfold runners. rewrite filter_cons. case_decide as H; case_bool_decide as H'; try done.
  - destruct H' . by destruct H as (? & <- & <-).
  - destruct H. by destruct H' as (-> & -> & ->).
Qed.

(** Replacing a generator by one that owns the same group. *)
Lemma runners_same subs i sub p p' topic name : subs !! i = Some (sub, p) -> (p = Running <-> p' = Running) ->
  runners (<[i := (sub, p')]> subs) topic name = runners subs topic name.
Proof.
  intros Hi Hp. destruct (runners_insert subs i (sub, p) (sub, p') topic name Hi) as (b & a & -> & ->).
  rewrite !runners_single. do 2 f_equal.
  rewrite (bool_decide_ext (p' = Running /\ topic = subscription_topic sub /\ name = subscription_consumer_group sub)
    (p = Running /\ topic = subscription_topic sub /\ name = subscription_consumer_group sub)) by tauto.
  done.
Qed.

(** ** The invariant of the world *)

Record world_ok (max : Z) (w : world) : Prop := {
  wo_max : transport_max_queue_size (w_transport w) = max;
  wo_positive : (1 <= max)%Z;
  wo_ids : NoDup (map (fun d => delivery_id (delivery_metadata d)) (w_issued w));
  wo_topics : topics_ok max (w_issued w) (transport_topics (w_transport w)) (log_of w) (settled_of w) (w_forced w);
  wo_owners : forall topic name, runners (w_subs w) topic name = owner (w_transport w) topic name;
  wo_accepting : transport_accepting (w_transport w) = negb (transport_closing (w_transport w));
  wo_closed : transport_closed (w_transport w) = transport_closing (w_transport w) && all_empty (w_transport w);
  wo_forced : w_forced w = true -> transport_closed (w_transport w) = true
}.

Lemma world_ok_init max tr : new_transport max = Ok tr -> world_ok max (initial tr).
Proof.
  unfold new_transport. intros H. res_inv. apply Z.leb_le in H0. split; cbn; try done. apply NoDup_nil_2.
Qed.

(** A change of one topic object that neither moves messages nor owners. *)
Lemma world_ok_touch max w topic F s :
  world_ok max w -> transport_topics (w_transport w) !! topic = Some s ->
  topic_ok (w_issued w) max topic (log_of w topic) (settled_of w topic) (w_forced w) (F s) ->
  topic_messages (F s) = topic_messages s ->
  (forall t n, owner (touch topic F (w_transport w)) t n = owner (w_transport w) t n) ->
  world_ok max (set_transport (touch topic F (w_transport w)) w).
Proof.
  intros [Hmax Hpos Hids Htop Hown Hacc Hcl Hf] Hs Hok Hm Ho. split; cbn; try done.
  - eapply topics_ok_touch; eauto.
  - intros t n. by rewrite Hown, Ho.
  - change (transport_closed (w_transport w) = transport_closing (w_transport w) && all_empty (touch topic F (w_transport w))).
    rewrite all_empty_touch; [done|]. intros s' Hs'. congruence.
Qed.

Lemma topic_at max w topic s : world_ok max w -> transport_topics (w_transport w) !! topic = Some s ->
  topic_ok (w_issued w) max topic (log_of w topic) (settled_of w topic) (w_forced w) s.
Proof. intros Hw Hs. pose proof (wo_topics _ _ Hw topic) as H. by rewrite Hs in H. Qed.

(** Once closed by force, nothing is accepted or handed out any more. *)
Lemma not_forced max w : world_ok max w -> transport_closed (w_transport w) = false -> w_forced w = false.
Proof. intros Hw Hc. destruct (w_forced w) eqn:E; [|done]. rewrite (wo_forced _ _ Hw E) in Hc. done. Qed.

Lemma not_closing max w : world_ok max w -> transport_accepting (w_transport w) = true ->
  transport_closing (w_transport w) = false /\ w_forced w = false.
Proof.
  intros Hw Ha. rewrite (wo_accepting _ _ Hw) in Ha. apply negb_true_iff in Ha. split; [done|].
  apply (not_forced max); [done|]. by rewrite (wo_closed _ _ Hw), Ha.
Qed.

Lemma world_ok_opened max w topic : world_ok max w -> w_forced w = false ->
  world_ok max (set_transport (opened topic (w_transport w)) w).
Proof.
  intros Hw Hf. pose proof Hw as [Hmax Hpos Hids Htop Hown Hacc Hcl Hfo]. split; cbn; try done.
  - rewrite Hf in *. apply topics_ok_opened; [lia|done].
  - intros t n. rewrite Hown. unfold owner. by rewrite group_at_opened.
  - by rewrite all_empty_opened.
Qed.

Lemma world_ok_publish float_pow max w topic e control env :
  world_ok max w -> world_ok max (act float_pow (Publish topic e control env) w).
Proof.
  intros Hw. cbn [act]. rewrite publish_run.
  destruct (blank topic); [by destruct w|]. destruct (negb (bound_key e control)); [by destruct w|].
  destruct (transport_available (w_transport w)); [|by destruct w]. cbn [negb].
  destruct (transport_accepting (w_transport w)) eqn:Hacc; [|by destruct w]. cbn [negb].
  destruct (not_closing _ _ Hw Hacc) as [Hclosing Hforced].
  pose proof (world_ok_opened _ _ topic Hw Hforced) as Ho. pose proof (wo_max _ _ Hw) as Hmax.
  destruct (Z.leb_spec (transport_max_queue_size (w_transport w)) (Z.of_nat (length (topic_messages (topic_of topic (w_transport w))))));
    cbn [is_ok]; [done|].
  set (w1 := set_transport (opened topic (w_transport w)) w) in *.
  pose proof (topic_at _ _ _ _ Ho (opened_lookup _ _)) as Hs. cbn in Hs. rewrite Hforced in Hs.
  pose proof Ho as [Hmax' Hpos Hids Htop Hown Hac Hcl Hfo].
  split; cbn; try done; [| |].
  - eapply (topics_ok_touch max _ _ _ _ _ _ _ topic _ _ Htop (opened_lookup _ _)).
    + unfold log_of, record_log. cbn. rewrite lookup_insert_eq, Hforced. cbn. apply topic_ok_append; [exact Hs|]. cbn. lia.
    + intros t Hne. unfold log_of, record_log. cbn. by rewrite lookup_insert_ne.
  - intros t n. etransitivity; [apply Hown|]. unfold owner. rewrite group_at_touch. case_bool_decide as E; [|done]. subst t.
    unfold group_at. change (w_transport w1) with (opened topic (w_transport w)). by rewrite opened_lookup.
  - change (transport_closing (touch topic _ _)) with (transport_closing (w_transport w)).
    change (transport_closed (touch topic _ _)) with (transport_closed (w_transport w)).
    rewrite Hclosing. rewrite (wo_closed _ _ Hw), Hclosing. done.
Qed.

(** ** Generators *)

(** The group that a generator joins, as an object of its topic. *)
Lemma topic_ok_own issued max topic log history forced s sub :
  topic_ok issued max topic log history forced s ->
  group_active_consumer (joined_group sub s) = None ->
  topic_ok issued max topic log history forced (own_group sub s).
Proof.
  intros Hs Hfree. set (n := subscription_consumer_group sub). set (j := joined_group sub s).
  set (s1 := topic_set_groups (<[n := j]> (topic_groups s)) s).
  assert (topic_ok issued max topic log history forced s1) as H1.
  { subst s1 j. unfold joined_group. fold n. destruct (topic_groups s !! n) as [g|] eqn:Hg; cbn.
    - rewrite insert_id by done. by rewrite topic_groups_eta.
    - by apply topic_ok_join. }
  replace (own_group sub s) with (topic_set_groups (alter (own sub) n (topic_groups s1)) s1).
  - eapply topic_ok_group; [done|apply lookup_insert_eq|done|]. intros Hg.
    apply group_ok_active; [by apply group_ok_policy|]. cbn.
    destruct (group_inflight j) as [f|] eqn:Hf; [|done]. exfalso.
    destruct (go_inflight _ _ _ _ _ _ _ _ Hg f Hf) as (_ & _ & _ & Hact & _). subst j. tr_cbn. congruence.
  - subst s1. unfold own_group. fold n j. tr_cbn. by rewrite alter_insert_eq.
Qed.

Lemma owner_own sub tr t n :
  group_active_consumer (joined_group sub (topic_of (subscription_topic sub) tr)) = None ->
  owner (touch (subscription_topic sub) (own_group sub) (opened (subscription_topic sub) tr)) t n =
    if bool_decide (t = subscription_topic sub /\ n = subscription_consumer_group sub)
    then [subscription_consumer_id sub] else owner tr t n.
Proof.
  intros Hfree. unfold owner. rewrite group_at_touch, opened_lookup. cbn. case_bool_decide as Ht.
  - subst t. unfold own_group. tr_cbn. case_bool_decide as Hn.
    + destruct Hn as [_ ->]. by rewrite lookup_insert_eq.
    + rewrite lookup_insert_ne by (intros <-; by apply Hn). unfold group_at, topic_of.
      by destruct (transport_topics tr !! subscription_topic sub).
  - rewrite group_at_opened. case_bool_decide as Hn; [by destruct Hn|done].
Qed.

Lemma owner_free sub tr :
  group_active_consumer (joined_group sub (topic_of (subscription_topic sub) tr)) = None ->
  owner tr (subscription_topic sub) (subscription_consumer_group sub) = [].
Proof.
  unfold owner, joined_group, group_at, topic_of. destruct (transport_topics tr !! _) as [s|]; cbn; [|done].
  destruct (topic_groups s !! _) as [g|]; cbn; [|done]. by intros ->.
Qed.

Lemma all_empty_own sub tr :
  all_empty (touch (subscription_topic sub) (own_group sub) (opened (subscription_topic sub) tr)) = all_empty tr.
Proof. rewrite all_empty_touch by done. apply all_empty_opened. Qed.

Lemma world_ok_start max w i sub r tr' :
  world_ok max w -> w_subs w !! i = Some (sub, Created) ->
  iterate_start sub (w_transport w) = (r, tr') ->
  match r with
  | Ok _ => world_ok max (set_phase i sub Running (set_transport tr' w))
  | Err _ => tr' = w_transport w
  end.
Proof.
  intros Hw Hi. rewrite iterate_start_run.
  destruct (negb _); [by intros [= <- <-]|]. destruct (transport_closed (w_transport w)) eqn:Hc; [by intros [= <- <-]|].
  case_bool_decide as Hfree; [|by intros [= <- <-]]. intros [= <- <-].
  pose proof (not_forced _ _ Hw Hc) as Hforced. pose proof (world_ok_opened _ _ (subscription_topic sub) Hw Hforced) as Ho.
  pose proof (topic_at _ _ _ _ Ho (opened_lookup _ _)) as Hs.
  pose proof Ho as [Hmax Hpos Hids Htop Hown Hac Hcl Hfo]. pose proof (wo_owners _ _ Hw) as Hown'.
  split; cbn; try done; [| |].
  - eapply topics_ok_touch; [exact Htop|apply opened_lookup|by apply topic_ok_own|done].
  - intros t n. rewrite owner_own by done.
    destruct (runners_insert (w_subs w) i (sub, Created) (sub, Running) t n Hi) as (b & a & Hb & ->).
    rewrite runners_single in Hb |- *. rewrite Hown' in Hb.
    rewrite (bool_decide_false (Created = Running /\ _)) in Hb by (by intros [? _]).
    case_bool_decide as Hm; case_bool_decide as Hm'; try (exfalso; tauto).
    + destruct Hm as (_ & -> & ->). rewrite owner_free in Hb by done.
      symmetry in Hb. apply app_nil in Hb as [-> Hb]. cbn in Hb. by rewrite Hb.
    + cbn in *. done.
  - change (transport_closed (w_transport w) = transport_closing (w_transport w) &&
      all_empty (touch (subscription_topic sub) (own_group sub) (opened (subscription_topic sub) (w_transport w)))).
    rewrite all_empty_own. apply (wo_closed _ _ Hw).
Qed.

(** The group object behind a running generator. *)
Lemma running_group max w i sub : world_ok max w -> w_subs w !! i = Some (sub, Running) ->
  exists s g, transport_topics (w_transport w) !! subscription_topic sub = Some s /\
    topic_groups s !! subscription_consumer_group sub = Some g /\
    group_active_consumer g = Some (subscription_consumer_id sub) /\
    topic_of (subscription_topic sub) (w_transport w) = s /\ group_of (subscription_consumer_group sub) s = g.
Proof.
  intros Hw Hi. pose proof (wo_owners _ _ Hw (subscription_topic sub) (subscription_consumer_group sub)) as Ho.
  destruct (runners_insert (w_subs w) i (sub, Running) (sub, Running) (subscription_topic sub)
    (subscription_consumer_group sub) Hi) as (b & a & Hb & _).
  rewrite runners_single, bool_decide_true in Hb by done. rewrite Hb in Ho. unfold owner, group_at in Ho.
  destruct (transport_topics (w_transport w) !! subscription_topic sub) as [s|] eqn:Hs; cbn in Ho;
    [|by destruct b]. destruct (topic_groups s !! subscription_consumer_group sub) as [g|] eqn:Hg; cbn in Ho; [|by destruct b].
  exists s, g. unfold topic_of, group_of. rewrite Hs, Hg. repeat split; try done.
  destruct (group_active_consumer g) as [c|]; [|by destruct b].
  destruct b as [|? []]; [|done|done]. cbn in Ho. by injection Ho as ->.
Qed.

Lemma world_ok_release max w i sub :
  world_ok max w -> w_subs w !! i = Some (sub, Running) ->
  world_ok max (set_phase i sub Ended (set_transport (released sub (w_transport w)) w)).
Proof.
  intros Hw Hi. destruct (running_group _ _ _ _ Hw Hi) as (s & g & Hs & Hg & Hact & _ & _).
  pose proof (topic_at _ _ _ _ Hw Hs) as Hok.
  pose proof Hw as [Hmax Hpos Hids Htop Hown Hac Hcl Hfo].
  set (f := group_release (subscription_consumer_id sub)).
  assert (group_active_consumer (f g) = None) as Hfg.
  { subst f. unfold group_release. destruct (bool_decide (_ <$> _ = _)); tr_cbn; by rewrite bool_decide_true. }
  split; cbn; try done; [| |].
  - eapply topics_ok_touch; [done|exact Hs| |done].
    eapply topic_ok_group; [done|exact Hg| |by apply group_ok_release].
    unfold group_release. destruct (bool_decide (_ <$> _ = _)); by destruct (bool_decide _).
  - intros t n. destruct (runners_insert (w_subs w) i (sub, Running) (sub, Ended) t n Hi) as (b & a & Hb & ->).
    rewrite runners_single in Hb |- *. rewrite Hown in Hb.
    rewrite (bool_decide_false (Ended = Running /\ _)) by (by intros [? _]). unfold released, owner in *.
    rewrite group_at_on_group. case_bool_decide as Hm; case_bool_decide as Hm'; try (exfalso; tauto); [|done].
    destruct Hm as (_ & -> & ->). unfold group_at in *. rewrite Hs in *. cbn in *. rewrite Hg in *. cbn in *. fold f.
    rewrite Hfg. rewrite Hact in Hb. destruct b as [|? []]; [|done|done]. by injection Hb as <-.
  - change (transport_closed (w_transport w) = transport_closing (w_transport w) && all_empty (released sub (w_transport w))).
    unfold released. by rewrite all_empty_touch.
Qed.

(** ** Polling *)

(** The message handed out is the one of the log at the cursor of the group. *)
Lemma poll_delivered max w i sub env d tr' :
  world_ok max w -> w_subs w !! i = Some (sub, Running) ->
  iterate_poll sub env (w_transport w) = (Ok (Delivered d), tr') ->
  exists s g e, transport_topics (w_transport w) !! subscription_topic sub = Some s /\
    topic_groups s !! subscription_consumer_group sub = Some g /\ group_inflight g = None /\
    log_of w (subscription_topic sub) !! Z.to_nat (group_cursor g) = Some e /\
    group_active_consumer g = Some (subscription_consumer_id sub) /\
    d = delivery_for sub e (upcoming_attempt g) env /\
    tr' = touch (subscription_topic sub) (on_group (subscription_consumer_group sub) (group_deliver d (group_cursor g)))
            (w_transport w).
Proof.
  intros Hw Hi. destruct (running_group _ _ _ _ Hw Hi) as (s & g & Hs & Hg & Hact & Es & Eg).
  rewrite (iterate_poll_run _ _ _ s g) by done. destruct (negb _); [done|].
  case_bool_decide as Hf; [|done]. destruct (_ <? _)%Z; [|by destruct (transport_closing _)].
  destruct (retained s (group_cursor g)) as [e|] eqn:He; [|done]. destruct (not_due env g); [done|].
  intros [= <- <-]. exists s, g, e. repeat split; try done.
  pose proof (topic_at _ _ _ _ Hw Hs) as Hok.
  erewrite <- retained_log; [exact He|done|]. apply (go_cursor _ _ _ _ _ _ _ _ (to_groups _ _ _ _ _ _ _ Hok _ _ Hg)).
Qed.

(** The error for a position outside the retained range cannot occur. *)
Lemma poll_range max w i sub env tr' :
  world_ok max w -> w_subs w !! i = Some (sub, Running) ->
  iterate_poll sub env (w_transport w) <> (Err out_of_range, tr').
Proof.
  intros Hw Hi. destruct (running_group _ _ _ _ Hw Hi) as (s & g & Hs & Hg & Hact & Es & Eg).
  rewrite (iterate_poll_run _ _ _ s g) by done. destruct (negb _); [done|].
  case_bool_decide as Hf; [|done]. destruct (Z.ltb_spec (group_cursor g) (topic_next_sequence s)) as [Hlt|]; [|done].
  pose proof (topic_at _ _ _ _ Hw Hs) as Hok.
  pose proof (go_cursor _ _ _ _ _ _ _ _ (to_groups _ _ _ _ _ _ _ Hok _ _ Hg)) as Hc.
  pose proof (to_next _ _ _ _ _ _ _ Hok). pose proof (to_base _ _ _ _ _ _ _ Hok).
  rewrite (retained_log _ _ _ _ _ _ _ _ Hok) by lia.
  destruct (lookup_lt_is_Some_2 (log_of w (subscription_topic sub)) (Z.to_nat (group_cursor g))) as [e ->]; [lia|].
  by destruct (not_due env g).
Qed.

Lemma world_ok_phase max w i sub p p' : world_ok max w -> w_subs w !! i = Some (sub, p) ->
  (p = Running <-> p' = Running) -> world_ok max (set_phase i sub p' w).
Proof.
  intros [Hmax Hpos Hids Htop Hown Hac Hcl Hfo] Hi Hp. split; cbn; try done.
  intros t n. rewrite (runners_same _ _ _ _ _ _ _ Hi Hp). apply Hown.
Qed.

Lemma world_ok_deliver max w i sub env d tr' :
  world_ok max w -> w_subs w !! i = Some (sub, Running) ->
  "delivery_" +:+ ambient_uuid env ∉ map (fun d => delivery_id (delivery_metadata d)) (w_issued w) ->
  iterate_poll sub env (w_transport w) = (Ok (Delivered d), tr') ->
  world_ok max (issue d (set_transport tr' w)).
Proof.
  intros Hw Hi Hfresh Hpoll.
  destruct (poll_delivered _ _ _ _ _ _ _ Hw Hi Hpoll) as (s & g & e & Hs & Hg & Hf & Hlog & Hact & Hd & ->).
  pose proof Hw as [Hmax Hpos Hids Htop Hown Hac Hcl Hfo]. pose proof (topic_at _ _ _ _ Hw Hs) as Hok.
  split; cbn; try done; [| | |].
  - rewrite map_app. apply NoDup_app. split; [done|]. split; [|apply NoDup_singleton].
    intros x Hx ->%list_elem_of_singleton. rewrite Hd in Hx. done.
  - assert (w_issued w ⊆ w_issued w ++ [d]) as Hsub by set_solver.
    eapply topics_ok_touch; [by eapply topics_ok_issued|exact Hs| |done].
    eapply topic_ok_group; [by eapply topic_ok_issued|exact Hg|done|]. intros Hgok.
    apply group_ok_deliver; try (by rewrite Hd); [apply (to_base _ _ _ _ _ _ _ Hok)|done|set_solver].
  - intros t n. rewrite owner_on_group; [apply Hown|done].
  - change (transport_closed (w_transport w) = transport_closing (w_transport w) &&
      all_empty (touch (subscription_topic sub)
        (on_group (subscription_consumer_group sub) (group_deliver d (group_cursor g))) (w_transport w))).
    by rewrite all_empty_touch.
Qed.

(** A poll that hands out nothing changes nothing. *)
Lemma poll_other sub env tr r tr' : iterate_poll sub env tr = (r, tr') ->
  (forall d, r <> Ok (Delivered d)) -> tr' = tr.
Proof.
  rewrite (iterate_poll_run sub env tr _ _ eq_refl eq_refl).
  repeat case_goal; intros [= <- <-] H; try done. by destruct (H _ eq_refl).
Qed.

Lemma world_ok_turn max w i sub env :
  world_ok max w -> w_subs w !! i = Some (sub, Running) ->
  "delivery_" +:+ ambient_uuid env ∉ map (fun d => delivery_id (delivery_metadata d)) (w_issued w) ->
  let '(r, tr') := iterate_turn sub env (w_transport w) in world_ok max (resumed i sub r (set_transport tr' w)).
Proof.
  intros Hw Hi Hfresh. rewrite iterate_turn_run.
  destruct (iterate_poll sub env (w_transport w)) as [r tr'] eqn:Hpoll. destruct r as [[d|t|]|e].
  - pose proof (world_ok_deliver _ _ _ _ _ _ _ Hw Hi Hfresh Hpoll) as H.
    apply (world_ok_phase _ _ i sub Running Running H) in Hi as H'; done.
  - apply poll_other in Hpoll as ->; [|done]. eapply world_ok_phase; [by destruct w|exact Hi|done].
  - apply poll_other in Hpoll as ->; [|done]. by apply world_ok_release.
  - apply poll_other in Hpoll as ->; [|done]. by apply world_ok_release.
Qed.

(** ** Settling *)

Lemma NoDup_map_inj {A B} (f : A -> B) l x y : NoDup (map f l) -> x ∈ l -> y ∈ l -> f x = f y -> x = y.
Proof.
  induction l as [|z l IH]; cbn; [by intros _ ?%elem_of_nil|]. rewrite NoDup_cons. intros [Hz Hnd].
  rewrite !elem_of_cons. intros [->|Hx] [->|Hy] E; [done| | |auto]; destruct Hz.
  - rewrite E. apply list_elem_of_fmap. eauto.
  - rewrite <- E. apply list_elem_of_fmap. eauto.
Qed.

(** The delivery that an accepted ack or nack is about. *)
Lemma current_ok max w d g f :
  world_ok max w -> d ∈ w_issued w -> current d (w_transport w) = Ok (g, f) ->
  let t := delivery_topic (delivery_metadata d) in
  let n := delivery_consumer_group (delivery_metadata d) in
  exists s, transport_topics (w_transport w) !! t = Some s /\ topic_groups s !! n = Some g /\
    group_inflight g = Some f /\ inflight_sequence f = group_cursor g /\
    delivery_attempt (delivery_metadata d) = inflight_attempt f /\
    log_of w t !! Z.to_nat (group_cursor g) = Some (delivery_envelope d) /\
    group_attempts g !! group_cursor g = Some (delivery_attempt (delivery_metadata d)) /\
    transport_closed (w_transport w) = false /\ w_forced w = false.
Proof.
  intros Hw Hd. unfold current. cbv zeta.
  destruct (transport_topics (w_transport w) !! delivery_topic (delivery_metadata d)) as [s|] eqn:Hs; [|done].
  destruct (topic_groups s !! delivery_consumer_group (delivery_metadata d)) as [g'|] eqn:Hg; [|done].
  destruct (group_inflight g') as [f'|] eqn:Hf; [|done]. case_bool_decide as Hid; [|done]. intros [= -> ->].
  pose proof (topic_at _ _ _ _ Hw Hs) as Hok. pose proof (to_groups _ _ _ _ _ _ _ Hok _ _ Hg) as Hgok.
  destruct (go_inflight _ _ _ _ _ _ _ _ Hgok f Hf) as (Hseq & Hlt & Hatt & Hact & d' & Hd' & Hid' & Ht' & Hn' & Ha' & Hlog').
  assert (d' = d) as -> by (eapply NoDup_map_inj; [apply (wo_ids _ _ Hw)|done|done|cbn; congruence]).
  assert (transport_closed (w_transport w) = false) as Hc.
  { rewrite (wo_closed _ _ Hw). apply andb_false_iff. right. apply bool_decide_eq_false_2. intros Hall.
    pose proof (Hall _ _ Hs) as Hm. cbv beta in Hm. pose proof (to_length _ _ _ _ _ _ _ Hok) as Hlen.
    pose proof (go_cursor _ _ _ _ _ _ _ _ Hgok). pose proof (to_next _ _ _ _ _ _ _ Hok).
    rewrite Hm in Hlen. cbn in Hlen. lia. }
  exists s. rewrite Hseq in Hlog'. repeat split; try done; [congruence|by eapply not_forced].
Qed.

Lemma group_at_finished tr t n : group_at (finished tr) t n = group_at tr t n.
Proof. unfold finished. by destruct (_ && _). Qed.

Lemma groups_prune s : topic_groups (prune s) = topic_groups s.
Proof. unfold prune. destruct (minimum_cursor _); [|done]. by destruct (prune_to _ _ _). Qed.

(** A topic after the message at the cursor of a group was settled. *)
Definition settled_topic (name : string) (cursor : Z) (letters : gmap string (list DeadLetter)) (s : TopicState) : TopicState :=
  prune (topic_set_groups (alter (group_settle cursor) name (topic_groups s)) (topic_set_dead_letters letters s)).

Lemma settle_topic_eq name cursor s : settle_topic name cursor s = settled_topic name cursor (topic_dead_letters s) s.
Proof. unfold settle_topic, settled_topic, on_group. by destruct s. Qed.

Definition letters_with (name : string) (letter : DeadLetter) (s : TopicState) : gmap string (list DeadLetter) :=
  <[name := default [] (topic_dead_letters s !! name) ++ [letter]]> (topic_dead_letters s).

Lemma bury_topic_eq name cursor letter s :
  bury_topic name cursor letter s = settled_topic name cursor (letters_with name letter s) s.
Proof.
  unfold bury_topic, settle_topic, settled_topic, on_group, add_dead_letter, letters_with. tr_cbn.
  rewrite alter_alter_eq. apply (f_equal (fun groups => prune (topic_set_groups groups (topic_set_dead_letters _ s)))).
  by apply alter_ext.
Qed.

Lemma group_at_settled w t n cursor letters s g : transport_topics (w_transport w) !! t = Some s ->
  topic_groups s !! n = Some g -> forall n' t',
  group_at (touch t (settled_topic n cursor letters) (w_transport w)) t' n' =
  if bool_decide (t' = t /\ n' = n) then Some (group_settle cursor g) else group_at (w_transport w) t' n'.
Proof.
  intros Hs Hg n' t'. rewrite group_at_touch, Hs. cbn. unfold settled_topic. rewrite groups_prune. tr_cbn.
  unfold group_at. case_bool_decide as E.
  - subst t'. rewrite Hs. cbn. case_bool_decide as E.
    + destruct E as [_ ->]. by rewrite lookup_alter_eq, Hg.
    + rewrite lookup_alter_ne; [done|]. intros ->. by apply E.
  - rewrite bool_decide_false; [done|]. by intros [? _].
Qed.

Lemma world_ok_settle max w d g f s letters :
  let t := delivery_topic (delivery_metadata d) in
  let n := delivery_consumer_group (delivery_metadata d) in
  world_ok max w -> d ∈ w_issued w -> current d (w_transport w) = Ok (g, f) ->
  transport_topics (w_transport w) !! t = Some s ->
  (letters = topic_dead_letters s \/
   exists letter, letters = letters_with n letter s /\ letter_envelope letter = delivery_envelope d) ->
  world_ok max (record_settled d (w_transport w)
    (set_transport (finished (touch t (settled_topic n (group_cursor g) letters) (w_transport w))) w)).
Proof.
  intros t n Hw Hd Hcur Hs Hletters.
  destruct (current_ok _ _ _ _ _ Hw Hd Hcur) as (s' & Hs' & Hg & Hf & Hseq & Hatt & Hlog & Hattempts & Hclosed & Hforced).
  fold t in Hs', Hlog. fold n in Hg. assert (s' = s) as -> by congruence.
  pose proof Hw as [Hmax Hpos Hids Htop Hown Hac Hcl Hfo]. pose proof (topic_at _ _ _ _ Hw Hs) as Hok.
  set (tr := touch t (settled_topic n (group_cursor g) letters) (w_transport w)).
  pose proof (group_at_settled w t n (group_cursor g) letters s g Hs Hg) as Hat. fold tr in Hat.
  unfold record_settled. fold t n. rewrite bool_decide_eq_false_2.
  2:{ cbn. rewrite group_at_finished, Hat, bool_decide_true by done. unfold group_at. rewrite Hs. cbn. rewrite Hg. cbn.
      intros [= E]. lia. }
  rewrite Hforced in Hok.
  set (settled' := fun t' n' => default [] (<[(t, n) := settled_of w t n ++ [d]]> (w_settled w) !! (t', n'))).
  assert (topics_ok max (w_issued w) (transport_topics tr) (log_of w) settled' false) as Htop'.
  { rewrite Hforced in Htop. eapply topics_ok_touch; [exact Htop|exact Hs| |].
    - eapply topic_ok_ext; [eapply topic_ok_settle; [exact Hok|exact Hg|exact Hlog|]|].
      + intros n'. unfold settle_history. pose proof (to_letters _ _ _ _ _ _ _ Hok n') as Hl.
        destruct Hletters as [->|(letter & -> & He)]; [case_bool_decide; [|done]; rewrite map_app; by apply sublist_inserts_r|].
        unfold letters_with. case_bool_decide as E.
        * subst n'. rewrite lookup_insert_eq. cbn. rewrite !map_app. cbn. rewrite He. by apply sublist_app.
        * by rewrite lookup_insert_ne by done.
      + intros n'. unfold settled', settle_history. case_bool_decide as E.
        * subst n'. by rewrite lookup_insert_eq.
        * rewrite lookup_insert_ne by congruence. done.
    - intros t' Hne. split; [done|]. intros n'. unfold settled'. by rewrite lookup_insert_ne by congruence. }
  split; cbn; try done; rewrite ?Hforced.
  - by destruct (transport_closing tr && all_drained tr) eqn:E; unfold finished; rewrite E.
  - unfold finished. by destruct (transport_closing tr && all_drained tr).
  - intros t' n'. rewrite Hown. unfold owner. rewrite group_at_finished, Hat. case_bool_decide as E; [|done].
    destruct E as [-> ->]. unfold group_at. rewrite Hs. cbn. by rewrite Hg.
  - unfold finished. by destruct (transport_closing tr && all_drained tr).
  - unfold finished. rewrite (all_drained_empty _ _ _ _ _ _ Htop').
    destruct (transport_closing tr) eqn:Hc; cbn; [|by rewrite Hc; cbn; apply Hclosed].
    destruct (all_empty tr) eqn:He; cbn; [by rewrite Hc; change (all_empty (transport_set_closed true tr)) with (all_empty tr); rewrite He|].
    rewrite Hc, He. apply Hclosed.
  - done.
Qed.

(** A call that leaves the cursor of the group alone settles nothing. *)
Lemma record_settled_same d tr w :
  group_cursor <$> group_at (w_transport w) (delivery_topic (delivery_metadata d)) (delivery_consumer_group (delivery_metadata d)) =
  group_cursor <$> group_at tr (delivery_topic (delivery_metadata d)) (delivery_consumer_group (delivery_metadata d)) ->
  record_settled d tr w = w.
Proof. intros H. unfold record_settled. by rewrite bool_decide_true. Qed.

Lemma touch_ext topic F F' tr s : transport_topics tr !! topic = Some s -> F s = F' s -> touch topic F tr = touch topic F' tr.
Proof.
  intros Hs HF. unfold touch. apply (f_equal (fun topics => transport_set_topics topics tr)), alter_ext.
  intros s' Hs'. congruence.
Qed.

Lemma world_ok_ack max w d : world_ok max w -> d ∈ w_issued w ->
  world_ok max (record_settled d (w_transport w) (set_transport (ack d (w_transport w)).2 w)).
Proof.
  intros Hw Hd. rewrite ack_run. destruct (negb _); [by rewrite record_settled_same; [destruct w|]|].
  destruct (current d (w_transport w)) as [[g f]|e] eqn:Hcur; [|by rewrite record_settled_same; [destruct w|]].
  destruct (current_ok _ _ _ _ _ Hw Hd Hcur) as (s & Hs & Hg & Hf & Hseq & _). rewrite Hseq. cbn [snd].
  erewrite touch_ext by (try exact Hs; apply settle_topic_eq).
  eapply world_ok_settle; eauto.
Qed.

(** Changes of a group that keep its position and its owner. *)
Lemma world_ok_group max w topic name f g s : world_ok max w ->
  transport_topics (w_transport w) !! topic = Some s -> topic_groups s !! name = Some g ->
  group_cursor (f g) = group_cursor g -> group_active_consumer (f g) = group_active_consumer g ->
  (forall settled base, group_ok (w_issued w) topic name (log_of w topic) base settled (w_forced w) g ->
    group_ok (w_issued w) topic name (log_of w topic) base settled (w_forced w) (f g)) ->
  world_ok max (set_transport (touch topic (on_group name f) (w_transport w)) w).
Proof.
  intros Hw Hs Hg Hc Hact Hok. eapply world_ok_touch; [done|exact Hs| |done|].
  - eapply topic_ok_group; [by eapply topic_at|exact Hg|done|auto].
  - intros t n. apply owner_on_group. intros g' Hg'. unfold group_at in Hg'. rewrite Hs in Hg'. cbn in Hg'. congruence.
Qed.

Lemma cursor_on_group topic name f tr t n : (forall g, group_cursor (f g) = group_cursor g) ->
  group_cursor <$> group_at (touch topic (on_group name f) tr) t n = group_cursor <$> group_at tr t n.
Proof.
  intros H. rewrite group_at_on_group. case_bool_decide; [|done]. destruct (group_at tr t n); cbn; [by rewrite H|done].
Qed.

Lemma world_ok_nack float_pow max w d retry reason env : world_ok max w -> d ∈ w_issued w ->
  world_ok max (record_settled d (w_transport w) (set_transport (nack float_pow d retry reason env (w_transport w)).2 w)).
Proof.
  intros Hw Hd. rewrite nack_run. cbv zeta. destruct (negb _); [by rewrite record_settled_same; [destruct w|]|].
  destruct (current d (w_transport w)) as [[g f]|e] eqn:Hcur; [|by rewrite record_settled_same; [destruct w|]].
  destruct (current_ok _ _ _ _ _ Hw Hd Hcur) as (s & Hs & Hg & Hf & Hseq & _ & Hlog & _).
  set (t := delivery_topic _) in *. set (n := delivery_consumer_group _) in *.
  assert (world_ok max (set_transport (touch t (on_group n (group_set_inflight None)) (w_transport w)) w)) as Hdrop.
  { eapply world_ok_group; [done|exact Hs|exact Hg|done|done|]. intros. by apply group_ok_drop_inflight. }
  destruct (retries d retry g).
  - destruct (delay_for_retry _ _ _) as [delay|e]; cbn [snd].
    2:{ rewrite record_settled_same; [done|]. cbn. by apply cursor_on_group. }
    rewrite record_settled_same.
    2:{ cbn. rewrite cursor_on_group by done. by apply cursor_on_group. }
    rewrite touch_touch. erewrite (touch_ext t _ (on_group n _)) by (try exact Hs;
      unfold on_group; tr_cbn; rewrite alter_alter_eq; reflexivity).
    eapply world_ok_group; [done|exact Hs|exact Hg|done|done|]. intros settled base Hok. rewrite Hseq.
    apply (group_ok_retry (w_issued w) t n (log_of w t) base settled (w_forced w) (group_set_inflight None g)).
    by apply group_ok_drop_inflight.
  - rewrite (topic_of_known _ _ _ Hs). pose proof (topic_at _ _ _ _ Hw Hs) as Hok.
    rewrite (retained_log _ _ _ _ _ _ _ _ Hok)
      by (rewrite Hseq; apply (go_cursor _ _ _ _ _ _ _ _ (to_groups _ _ _ _ _ _ _ Hok _ _ Hg))).
    rewrite Hseq, Hlog. cbn [snd]. erewrite touch_ext by (try exact Hs; apply bury_topic_eq).
    eapply world_ok_settle; eauto.
Qed.

(** ** Closing *)

Lemma group_at_abandon topics t n :
  (topic_abandon <$> topics : gmap string TopicState) !! t ≫= (fun s => topic_groups s !! n) =
  topics !! t ≫= (fun s => group_abandon (topic_next_sequence s) <$> topic_groups s !! n).
Proof. rewrite lookup_fmap. destruct (topics !! t) as [s|]; cbn; [by rewrite lookup_fmap|done]. Qed.

Lemma all_empty_abandon topics (tr : Transport) :
  transport_topics tr = topic_abandon <$> topics -> all_empty tr = true.
Proof.
  intros E. apply bool_decide_eq_true_2. intros t s. rewrite E. by intros (s' & <- & _)%lookup_fmap_Some.
Qed.

Lemma world_ok_shut float_pow max w graceful : world_ok max w -> world_ok max (act float_pow (Shut graceful) w).
Proof.
  intros Hw. pose proof Hw as [Hmax Hpos Hids Htop Hown Hac Hcl Hfo]. cbn [act]. unfold close. run_method.
  destruct graceful; cbn [snd negb].
  - rewrite finish_close_if_drained_run. cbn [snd]. rewrite orb_false_r.
    assert (finished (transport_stop_accepting (w_transport w)) =
      transport_set_closed (all_empty (w_transport w)) (transport_stop_accepting (w_transport w))) as ->.
    { unfold finished. change (all_drained (transport_stop_accepting (w_transport w))) with (all_drained (w_transport w)).
      rewrite (all_drained_empty _ _ _ _ _ _ Htop). cbn [transport_closing transport_stop_accepting andb].
      unfold transport_stop_accepting. tr_cbn. rewrite Hcl. destruct (all_empty (w_transport w)); [done|].
      unfold transport_set_closed. tr_cbn. by rewrite andb_false_r. }
    split; cbn; try done. intros Hf%Hfo. rewrite Hcl in Hf. by apply andb_true_iff in Hf as [_ ?].
  - rewrite orb_true_r. split; cbn; try done.
    + intros t. unfold transport_set_topics. tr_cbn. rewrite lookup_fmap. specialize (Htop t).
      destruct (transport_topics (w_transport w) !! t) as [s|]; cbn; [|done].
      apply (topic_ok_abandon (w_issued w) max t (log_of w t) (settled_of w t) (w_forced w)); [lia|done].
    + intros t n. rewrite Hown. unfold owner, group_at. tr_cbn. rewrite group_at_abandon.
      destruct (transport_topics (w_transport w) !! t) as [s|]; cbn; [|done]. by destruct (topic_groups s !! n).
    + symmetry. by apply (all_empty_abandon (transport_topics (w_transport w))).
Qed.

(** ** Every action *)

Lemma world_ok_act float_pow max w a : world_ok max w -> allowed a w -> world_ok max (act float_pow a w).
Proof.
  intros Hw Ha. destruct a as [topic e control env|sub|i env|i|d|d retry reason env|graceful|available].
  - by apply world_ok_publish.
  - pose proof Hw as [Hmax Hpos Hids Htop Hown Hac Hcl Hfo]. split; cbn; try done.
    intros t n. rewrite runners_app, runners_single, bool_decide_false, app_nil_r by (by intros [? _]). apply Hown.
  - cbn [act allowed] in *. destruct (w_subs w !! i) as [[sub p]|] eqn:Hi; [|done]. destruct p; [| |done].
    + rewrite bool_decide_false by done. unfold iterate_next. run_method.
      destruct (iterate_start sub (w_transport w)) as [[[]|e] tr'] eqn:Hstart;
        pose proof (world_ok_start _ _ _ _ _ _ Hw Hi Hstart) as Hnext; cbn in Hnext.
      * pose proof (world_ok_turn _ _ i sub env Hnext) as Hturn. cbn in Hturn.
        specialize (Hturn (list_lookup_insert_eq _ _ _ (lookup_lt_Some _ _ _ Hi)) Ha).
        destruct (iterate_turn sub env tr') as [r tr2]. unfold resumed, set_phase, issue, set_transport in *. cbn in *.
        destruct r as [[d|t|]|e]; by rewrite list_insert_insert_eq in Hturn.
      * subst tr'. cbn. eapply world_ok_phase; [by destruct w|exact Hi|done].
    + rewrite bool_decide_true by done. unfold iterate_next. run_method.
      pose proof (world_ok_turn _ _ i sub env Hw Hi Ha) as Hturn. by destruct (iterate_turn sub env (w_transport w)).
  - cbn [act]. destruct (w_subs w !! i) as [[sub p]|] eqn:Hi; [|done]. destruct p; [| |done].
    + cbn. eapply world_ok_phase; [by destruct w|exact Hi|done].
    + by apply world_ok_release.
  - by apply world_ok_ack.
  - by apply world_ok_nack.
  - by apply world_ok_shut.
  - destruct Hw as [Hmax Hpos Hids Htop Hown Hac Hcl Hfo]. by split.
Qed.

Lemma reach_ok float_pow max w : reach float_pow max w -> world_ok max w.
Proof. induction 1; [by apply world_ok_init|by apply world_ok_act]. Qed.
