(* ===== verification/TransportHistory.v ===== *)
(** * What one action does to the history of a group

    Every action of TransportSteps.v only extends the logs and the deliveries handed out; a group keeps
    its position and what was settled for it, or the delivery it holds in flight is settled and its
    position advances by one. *)

From Stdlib Require Import SpecFloat.
From S2P Require Import Prelude PyValue Errors StateMonad Contracts TransportModels Transport TransportInvariant.
From S2P Require Import TransportSteps TransportSafety.

Definition issued_ids (w : world) : list string := map (fun d => delivery_id (delivery_metadata d)) (w_issued w).

(** Where a delivery in flight comes from: it was in flight before, or is new. *)
Definition inflight_from (w w' : world) (t n : string) : Prop :=
  forall g' f, group_at (w_transport w') t n = Some g' -> group_inflight g' = Some f ->
    (exists g, group_at (w_transport w) t n = Some g /\ group_inflight g = Some f) \/
    inflight_delivery_id f ∉ issued_ids w.

Inductive group_step (w w' : world) (t n : string) : Prop :=
| group_kept :
    settled_of w' t n = settled_of w t n ->
    (forall g, group_at (w_transport w) t n = Some g -> exists g', group_at (w_transport w') t n = Some g' /\
       (w_forced w' = false -> group_cursor g' = group_cursor g)) ->
    inflight_from w w' t n -> group_step w w' t n
| group_settled g g' d f :
    settled_of w' t n = settled_of w t n ++ [d] -> d ∈ w_issued w ->
    delivery_topic (delivery_metadata d) = t -> delivery_consumer_group (delivery_metadata d) = n ->
    group_at (w_transport w) t n = Some g -> group_inflight g = Some f ->
    inflight_delivery_id f = delivery_id (delivery_metadata d) ->
    group_at (w_transport w') t n = Some g' -> group_cursor g' = (group_cursor g + 1)%Z -> group_inflight g' = None ->
    group_step w w' t n.

Record extends (w w' : world) : Prop := {
  ex_log : forall t, log_of w t `prefix_of` log_of w' t;
  ex_issued : w_issued w `prefix_of` w_issued w';
  ex_forced : w_forced w' = false -> w_forced w = false;
  ex_group : forall t n, group_step w w' t n
}.

(** An action that settles nothing. *)
Lemma extends_kept w w' :
  (forall t, log_of w t `prefix_of` log_of w' t) -> w_issued w `prefix_of` w_issued w' ->
  (w_forced w' = false -> w_forced w = false) -> w_settled w' = w_settled w ->
  (forall t n g, group_at (w_transport w) t n = Some g -> exists g', group_at (w_transport w') t n = Some g' /\
     (w_forced w' = false -> group_cursor g' = group_cursor g)) ->
  (forall t n, inflight_from w w' t n) -> extends w w'.
Proof.
  intros Hl Hi Hf Hs Hg Hin. split; [done..|]. intros t n. apply group_kept; [unfold settled_of; by rewrite Hs|auto|auto].
Qed.

(** Groups keep their position, and nothing new is in flight. *)
Definition groups_le (tr tr' : Transport) : Prop := forall t n,
  (forall g, group_at tr t n = Some g -> exists g', group_at tr' t n = Some g' /\ group_cursor g' = group_cursor g) /\
  (forall g' f, group_at tr' t n = Some g' -> group_inflight g' = Some f ->
     exists g, group_at tr t n = Some g /\ group_inflight g = Some f).

#[export] Instance groups_le_preorder : PreOrder groups_le.
Proof.
  split.
  - intros tr topic name. split; eauto.
  - intros tr1 tr2 tr3 H12 H23 topic name. destruct (H12 topic name) as [Ha Hb], (H23 topic name) as [Hc Hd]. split.
    + intros g Hg. destruct (Ha g Hg) as (g' & Hg' & E). destruct (Hc g' Hg') as (g'' & Hg'' & E').
      exists g''. split; [done|congruence].
    + intros g' f Hg' Hf. destruct (Hd g' f Hg' Hf) as (g & Hg & Hf'). eauto.
Qed.

Lemma groups_le_on_group topic name f tr :
  (forall g, group_cursor (f g) = group_cursor g) ->
  (forall g i, group_inflight (f g) = Some i -> group_inflight g = Some i) ->
  groups_le tr (touch topic (on_group name f) tr).
Proof.
  intros Hc Hi t n. rewrite group_at_on_group. case_bool_decide; [|split; eauto]. destruct (group_at tr t n) as [g|]; cbn; [|by split].
  split; [intros ? [= <-]; eauto|]. intros g' i [= <-] Hf. eauto.
Qed.

Lemma groups_le_opened topic tr : groups_le tr (opened topic tr).
Proof. intros t n. rewrite group_at_opened. split; eauto. Qed.

Lemma groups_le_append topic e tr : groups_le tr (touch topic (append_message e) tr).
Proof.
  intros t n. rewrite group_at_touch. case_bool_decide as E; [|split; eauto]. subst t. unfold group_at.
  destruct (transport_topics tr !! topic) as [s|]; cbn; [split; eauto|by split].
Qed.

Lemma groups_le_own sub tr :
  groups_le tr (touch (subscription_topic sub) (own_group sub) (opened (subscription_topic sub) tr)).
Proof.
  intros t n. rewrite group_at_touch. case_bool_decide as E; [|rewrite group_at_opened; split; eauto]. subst t.
  rewrite opened_lookup. cbn. unfold own_group. tr_cbn. set (s := topic_of _ tr).
  assert (forall n, group_at tr (subscription_topic sub) n = topic_groups s !! n) as Hat.
  { intros n'. subst s. unfold group_at, topic_of. by destruct (transport_topics tr !! subscription_topic sub). }
  rewrite Hat. destruct (decide (n = subscription_consumer_group sub)) as [->|Hne].
  - rewrite lookup_insert_eq. unfold joined_group. destruct (topic_groups s !! subscription_consumer_group sub) as [g|]; cbn.
    + split; [intros ? [= <-]; eauto|intros g' f [= <-] Hf; eauto].
    + split; [done|intros g' f [= <-] Hf; done].
  - rewrite lookup_insert_ne by done. split; eauto.
Qed.

Lemma extends_groups_le w w' :
  (forall t, log_of w t `prefix_of` log_of w' t) -> w_issued w `prefix_of` w_issued w' ->
  (w_forced w' = false -> w_forced w = false) -> w_settled w' = w_settled w ->
  groups_le (w_transport w) (w_transport w') -> extends w w'.
Proof.
  intros Hl Hi Hf Hs Hg. apply extends_kept; [done..| |].
  - intros t n g H. destruct (proj1 (Hg t n) g H) as (g' & H' & E). eauto.
  - intros t n g' f H' H. left. by apply (Hg t n) with g'.
Qed.

Lemma groups_le_release sub tr : groups_le tr (released sub tr).
Proof.
  apply groups_le_on_group; intros g; unfold group_release;
    destruct (bool_decide (_ <$> _ = _)); destruct (bool_decide _); tr_cbn; done.
Qed.

Lemma iterate_start_le sub tr r tr' : iterate_start sub tr = (r, tr') -> groups_le tr tr'.
Proof.
  rewrite iterate_start_run. repeat case_goal; intros [= <- <-]; try reflexivity. apply groups_le_own.
Qed.

(** A new delivery: the message at the cursor is in flight, under a fresh identifier. *)
Lemma extends_deliver w tr1 topic name i sub d cursor :
  groups_le (w_transport w) tr1 -> delivery_id (delivery_metadata d) ∉ issued_ids w ->
  extends w (issue d (set_phase i sub Running
    (set_transport (touch topic (on_group name (group_deliver d cursor)) tr1) w))).
Proof.
  intros Hle Hfresh. apply extends_kept; cbn; try done; [by eexists| |].
  - intros t n g Hg. destruct (proj1 (Hle t n) g Hg) as (g1 & Hg1 & E). rewrite group_at_on_group, Hg1.
    case_bool_decide; eauto.
  - intros t n g' f. cbn. rewrite group_at_on_group. case_bool_decide as E.
    + destruct (group_at tr1 t n) as [g1|]; cbn; [|done]. intros [= <-] [= <-]. right. done.
    + intros Hg' Hf. left. by apply (proj2 (Hle t n)) with g'.
Qed.

Lemma extends_turn w tr1 i sub env :
  groups_le (w_transport w) tr1 -> "delivery_" +:+ ambient_uuid env ∉ issued_ids w ->
  extends w (let '(r, tr') := iterate_turn sub env tr1 in resumed i sub r (set_transport tr' w)).
Proof.
  intros Hle Hfresh. rewrite iterate_turn_run. destruct (iterate_poll sub env tr1) as [r tr'] eqn:Hpoll.
  destruct r as [[d|t|]|e].
  - rewrite (iterate_poll_run sub env tr1 _ _ eq_refl eq_refl) in Hpoll.
    cbn. revert Hpoll. repeat case_goal; intros [= <- <-]; try done. by apply extends_deliver.
  - apply poll_other in Hpoll as ->; [|done]. by apply extends_groups_le.
  - apply poll_other in Hpoll as ->; [|done]. apply extends_groups_le; try done. cbn.
    etransitivity; [exact Hle|apply groups_le_release].
  - apply poll_other in Hpoll as ->; [|done]. apply extends_groups_le; try done. cbn.
    etransitivity; [exact Hle|apply groups_le_release].
Qed.

Lemma extends_settle max w d g f s letters :
  let t := delivery_topic (delivery_metadata d) in
  let n := delivery_consumer_group (delivery_metadata d) in
  world_ok max w -> d ∈ w_issued w -> current d (w_transport w) = Ok (g, f) ->
  transport_topics (w_transport w) !! t = Some s ->
  extends w (record_settled d (w_transport w)
    (set_transport (finished (touch t (settled_topic n (group_cursor g) letters) (w_transport w))) w)).
Proof.
  intros t n Hw Hd Hcur Hs.
  destruct (current_ok _ _ _ _ _ Hw Hd Hcur) as (s' & Hs' & Hg & Hf & Hseq & Hatt & Hlog & Hattempts & Hclosed & Hforced).
  fold t in Hs'. fold n in Hg. assert (s' = s) as -> by congruence.
  pose proof (group_at_settled w t n (group_cursor g) letters s g Hs Hg) as Hat.
  assert (group_at (w_transport w) t n = Some g) as Hg0 by (unfold group_at; rewrite Hs; done).
  unfold record_settled. fold t n. rewrite bool_decide_eq_false_2.
  2:{ cbn. rewrite group_at_finished, Hat, bool_decide_true by done. rewrite Hg0. cbn. intros [= E]. lia. }
  split; cbn; try done. intros t' n'. destruct (decide (t' = t /\ n' = n)) as [[-> ->]|Hne].
  - eapply (group_settled _ _ _ _ g (group_settle (group_cursor g) g) d f); try done.
    + unfold settled_of. cbn. by rewrite lookup_insert_eq.
    + revert Hcur. unfold current. fold t n. rewrite Hs, Hg, Hf. by case_bool_decide.
    + cbn. by rewrite group_at_finished, Hat, bool_decide_true.
  - apply group_kept.
    + unfold settled_of. cbn. rewrite lookup_insert_ne; [done|]. intros [= <- <-]. by apply Hne.
    + cbn. rewrite group_at_finished, Hat, bool_decide_false by done. eauto.
    + intros g' f'. cbn. rewrite group_at_finished, Hat, bool_decide_false by done. eauto.
Qed.

Lemma extends_ack max w d : world_ok max w -> d ∈ w_issued w ->
  extends w (record_settled d (w_transport w) (set_transport (ack d (w_transport w)).2 w)).
Proof.
  intros Hw Hd. rewrite ack_run. destruct (negb _); [by rewrite record_settled_same; [apply extends_groups_le|]|].
  destruct (current d (w_transport w)) as [[g f]|e] eqn:Hcur; [|by rewrite record_settled_same; [apply extends_groups_le|]].
  destruct (current_ok _ _ _ _ _ Hw Hd Hcur) as (s & Hs & Hg & Hf & Hseq & _). rewrite Hseq. cbn [snd].
  erewrite touch_ext by (try exact Hs; apply settle_topic_eq). by eapply extends_settle.
Qed.

Lemma extends_nack float_pow max w d retry reason env : world_ok max w -> d ∈ w_issued w ->
  extends w (record_settled d (w_transport w) (set_transport (nack float_pow d retry reason env (w_transport w)).2 w)).
Proof.
  intros Hw Hd. rewrite nack_run. cbv zeta. destruct (negb _); [by rewrite record_settled_same; [apply extends_groups_le|]|].
  destruct (current d (w_transport w)) as [[g f]|e] eqn:Hcur; [|by rewrite record_settled_same; [apply extends_groups_le|]].
  destruct (current_ok _ _ _ _ _ Hw Hd Hcur) as (s & Hs & Hg & Hf & Hseq & _ & Hlog & _).
  set (t := delivery_topic _) in *. set (n := delivery_consumer_group _) in *.
  assert (groups_le (w_transport w) (touch t (on_group n (group_set_inflight None)) (w_transport w))) as Hdrop
    by (by apply groups_le_on_group).
  destruct (retries d retry g).
  - destruct (delay_for_retry _ _ _) as [delay|e]; cbn [snd].
    2:{ rewrite record_settled_same by (cbn; by apply cursor_on_group). by apply extends_groups_le. }
    rewrite record_settled_same by (cbn; rewrite cursor_on_group by done; by apply cursor_on_group).
    apply extends_groups_le; try done. cbn. etransitivity; [exact Hdrop|]. by apply groups_le_on_group.
  - rewrite (topic_of_known _ _ _ Hs). pose proof (topic_at _ _ _ _ Hw Hs) as Hok.
    rewrite (retained_log _ _ _ _ _ _ _ _ Hok)
      by (rewrite Hseq; apply (go_cursor _ _ _ _ _ _ _ _ (to_groups _ _ _ _ _ _ _ Hok _ _ Hg))).
    rewrite Hseq, Hlog. cbn [snd]. erewrite touch_ext by (try exact Hs; apply bury_topic_eq). by eapply extends_settle.
Qed.

Lemma extends_shut float_pow w graceful : extends w (act float_pow (Shut graceful) w).
Proof.
  cbn [act]. unfold close. run_method. destruct graceful.
  - rewrite finish_close_if_drained_run. apply extends_groups_le; cbn; try done.
    { by rewrite orb_false_r. }
    intros t n. rewrite group_at_finished. change (group_at (transport_stop_accepting _) t n) with (group_at (w_transport w) t n).
    split; eauto.
  - apply extends_kept; cbn; try done.
    + by rewrite orb_true_r.
    + intros t n g Hg. unfold group_at in *. tr_cbn. rewrite group_at_abandon.
      destruct (transport_topics (w_transport w) !! t) as [s|]; cbn in *; [|done]. rewrite Hg. cbn.
      eexists. split; [done|]. by rewrite orb_true_r.
    + intros t n g' f. unfold group_at in *. cbn. tr_cbn. rewrite group_at_abandon.
      destruct (transport_topics (w_transport w) !! t) as [s|]; cbn in *; [|done].
      destruct (topic_groups s !! n); cbn; [|done]. by intros [= <-].
Qed.

Lemma act_extends float_pow max w a : world_ok max w -> allowed a w -> extends w (act float_pow a w).
Proof.
  intros Hw Ha. destruct a as [topic e control env|sub|i env|i|d|d retry reason env|graceful|available].
  - cbn [act]. rewrite publish_run. repeat case_goal; cbn [is_ok]; try (by apply extends_groups_le).
    + apply extends_groups_le; try done. apply groups_le_opened.
    + apply extends_groups_le; try done; cbn.
      * intros t. unfold log_of, record_log. cbn. destruct (decide (t = topic)) as [->|Hne].
        -- rewrite lookup_insert_eq. by eexists.
        -- by rewrite lookup_insert_ne.
      * etransitivity; [apply groups_le_opened|apply groups_le_append].
  - by apply extends_groups_le.
  - cbn [act allowed] in *. destruct (w_subs w !! i) as [[sub p]|] eqn:Hi; [|by apply extends_groups_le].
    destruct p; [| |by apply extends_groups_le]; unfold iterate_next; run_method.
    + rewrite bool_decide_false by done. destruct (iterate_start sub (w_transport w)) as [[[]|e] tr'] eqn:Hstart;
        apply iterate_start_le in Hstart.
      * by apply extends_turn.
      * by apply extends_groups_le.
    + rewrite bool_decide_true by done. by apply extends_turn.
  - cbn [act]. destruct (w_subs w !! i) as [[sub p]|] eqn:Hi; [|by apply extends_groups_le].
    destruct p; [by apply extends_groups_le| |by apply extends_groups_le].
    apply extends_groups_le; try done. apply groups_le_release.
  - by eapply extends_ack.
  - by eapply extends_nack.
  - apply extends_shut.
  - apply extends_groups_le; try done. intros t n. change (group_at (w_transport (act float_pow (Outage available) w)) t n)
      with (group_at (w_transport w) t n). split; eauto.
Qed.

(** ** Histories of many actions *)

Section history.
Context (float_pow : spec_float -> Z -> res spec_float) (max : Z).

Inductive later (w : world) : world -> Prop :=
| later_refl : later w w
| later_act w' a : later w w' -> allowed a w' -> later w (act float_pow a w').

Lemma later_reach w w' : reach float_pow max w -> later w w' -> reach float_pow max w'.
Proof. intros Hw. induction 1; [done|by apply reach_act]. Qed.

(** What a group went through between two worlds. *)
Record group_later (w w' : world) (t n : string) (g : GroupState) : Prop := {
  gl_log : log_of w t `prefix_of` log_of w' t;
  gl_forced : w_forced w' = false -> w_forced w = false;
  gl_group : exists g' new, group_at (w_transport w') t n = Some g' /\
    settled_of w' t n = settled_of w t n ++ new /\
    (w_forced w' = false -> group_cursor g' = (group_cursor g + Z.of_nat (length new))%Z)
}.

Lemma later_group w w' t n g : reach float_pow max w -> later w w' ->
  group_at (w_transport w) t n = Some g -> group_later w w' t n g.
Proof.
  intros Hw Hlater Hg. induction Hlater as [|w' a Hlater IH Ha].
  - split; [done|done|]. exists g, []. rewrite app_nil_r. split_and!; [done|done|cbn; lia].
  - destruct IH as [Hl Hf (g' & new & Hg' & Hs & Hc)].
    pose proof (act_extends float_pow max w' a (reach_ok _ _ _ (later_reach _ _ Hw Hlater)) Ha) as [El Ei Ef Eg].
    split; [by etransitivity|auto|].
    destruct (Eg t n) as [Es Ek _|g1 g2 d f Es Hd Ht Hn Hg1 Hf1 Hid Hg2 Hc2 _].
    + destruct (Ek g' Hg') as (g'' & Hg'' & E). exists g'', new. rewrite Es. split_and!; [done|done|].
      intros H. rewrite E by done. auto.
    + exists g2, (new ++ [d]). rewrite Es, Hs, app_assoc. split_and!; [done|done|]. intros H.
      assert (g1 = g') as -> by congruence. rewrite Hc2, Hc, length_app by auto. cbn. lia.
Qed.

(** A settled delivery was handed out to this group, and is not in flight any more. *)
Definition settled_ok (w : world) : Prop := forall t n, NoDup (settled_of w t n) /\
  forall d, d ∈ settled_of w t n -> d ∈ w_issued w /\ delivery_topic (delivery_metadata d) = t /\
    delivery_consumer_group (delivery_metadata d) = n /\
    forall g f, group_at (w_transport w) t n = Some g -> group_inflight g = Some f ->
      inflight_delivery_id f <> delivery_id (delivery_metadata d).

Lemma settled_ok_act w a : world_ok max w -> allowed a w -> settled_ok w -> settled_ok (act float_pow a w).
Proof.
  intros Hw Ha Hok t n. pose proof (act_extends float_pow max w a Hw Ha) as [_ Ei _ Eg].
  assert (forall d, d ∈ w_issued w -> d ∈ w_issued (act float_pow a w)) as Hsub
    by (intros d Hd; destruct Ei as [k ->]; apply elem_of_app; by left).
  destruct (Hok t n) as [Hnd Hset]. destruct (Eg t n) as [Es _ Ein|g g' d f Es Hd Ht Hn Hg Hf Hid Hg' _ Hnone].
  - rewrite Es. split; [done|]. intros d Hd. destruct (Hset d Hd) as (Hi & Ht & Hn & Hfl). split_and!; auto.
    intros g' f Hg' Hf. destruct (Ein g' f Hg' Hf) as [(g & Hg & Hf')|Hfresh]; [by eapply Hfl|].
    intros E. apply Hfresh. unfold issued_ids. apply list_elem_of_fmap. eauto.
  - rewrite Es. split.
    + apply NoDup_app. split; [done|]. split; [|apply NoDup_singleton]. intros x Hx ->%list_elem_of_singleton.
      destruct (Hset d Hx) as (_ & _ & _ & Hfl). by apply (Hfl g f).
    + intros x [Hx|Hx]%elem_of_app.
      * destruct (Hset x Hx) as (Hi & Hxt & Hxn & _). split_and!; auto. intros g2 f2 Hg2 Hf2. congruence.
      * apply list_elem_of_singleton in Hx as ->. split_and!; auto. intros g2 f2 Hg2 Hf2. congruence.
Qed.

Lemma reach_settled w : reach float_pow max w -> settled_ok w.
Proof.
  induction 1 as [tr Htr|w a Hw IH Ha]; [|by eapply settled_ok_act; [eapply reach_ok|..]].
  intros t n. split; [apply NoDup_nil_2|]. intros d Hd. by apply elem_of_nil in Hd.
Qed.
End history.
