(* ===== verification/TransportTheorems.v ===== *)
(** * What the transport guarantees

    At-least-once, in order, bounded and live: for every interleaving of publishers, consumers, outages
    and closing that TransportSteps.v allows. *)

From Stdlib Require Import SpecFloat.
From S2P Require Import Prelude PyValue Errors StateMonad Contracts TransportModels Transport TransportInvariant.
From S2P Require Import TransportSteps TransportSafety TransportHistory.

(** The messages retained for a group from its position on. *)
Definition undelivered (s : TopicState) (g : GroupState) : list TransportEnvelope :=
  drop (Z.to_nat (group_cursor g - topic_base_sequence s)) (topic_messages s).

Lemma undelivered_log issued max topic log history forced s name g :
  topic_ok issued max topic log history forced s -> topic_groups s !! name = Some g ->
  undelivered s g = drop (Z.to_nat (group_cursor g)) log.
Proof.
  intros Hs Hg. unfold undelivered. rewrite (to_messages _ _ _ _ _ _ _ Hs), drop_drop. f_equal.
  pose proof (to_base _ _ _ _ _ _ _ Hs). pose proof (go_cursor _ _ _ _ _ _ _ _ (to_groups _ _ _ _ _ _ _ Hs _ _ Hg)). lia.
Qed.

Lemma group_at_Some tr t n g : group_at tr t n = Some g <->
  exists s, transport_topics tr !! t = Some s /\ topic_groups s !! n = Some g.
Proof. unfold group_at. destruct (transport_topics tr !! t); cbn; naive_solver. Qed.

Section theorems.
Context (float_pow : spec_float -> Z -> res spec_float) (max : Z).

(** C12. Between any two moments, however calls are interleaved and consumers come and go: what was
    retained for a group, followed by what was published since, is exactly what was settled for the
    group since, in this order, followed by what is retained for it now. No message is lost, skipped,
    duplicated or reordered, unless the transport is closed by force. *)
Theorem no_message_is_lost (w w' : world) (topic name : string) (s : TopicState) (g : GroupState) :
  reach float_pow max w -> later float_pow w w' -> w_forced w' = false ->
  transport_topics (w_transport w) !! topic = Some s -> topic_groups s !! name = Some g ->
  exists s' g' published settled,
    transport_topics (w_transport w') !! topic = Some s' /\ topic_groups s' !! name = Some g' /\
    log_of w' topic = log_of w topic ++ published /\
    settled_of w' topic name = settled_of w topic name ++ settled /\
    undelivered s g ++ published = map delivery_envelope settled ++ undelivered s' g'.
Proof.
  intros Hw Hlater Hforced Hs Hg. pose proof (later_reach _ _ _ _ Hw Hlater) as Hw'.
  assert (group_at (w_transport w) topic name = Some g) as Hat by (apply group_at_Some; eauto).
  destruct (later_group _ _ _ _ _ _ _ Hw Hlater Hat) as [[published Hlog] Hf (g' & settled & Hat' & Hset & Hcur)].
  specialize (Hcur Hforced). apply group_at_Some in Hat' as (s' & Hs' & Hg').
  exists s', g', published, settled. do 4 (split; [done|]).
  pose proof (topic_at _ _ _ _ (reach_ok _ _ _ Hw) Hs) as Hok. pose proof (topic_at _ _ _ _ (reach_ok _ _ _ Hw') Hs') as Hok'.
  rewrite (undelivered_log _ _ _ _ _ _ _ _ _ Hok Hg), (undelivered_log _ _ _ _ _ _ _ _ _ Hok' Hg').
  pose proof (to_groups _ _ _ _ _ _ _ Hok _ _ Hg) as Hgok. pose proof (to_groups _ _ _ _ _ _ _ Hok' _ _ Hg') as Hgok'.
  pose proof (go_cursor _ _ _ _ _ _ _ _ Hgok) as Hc. pose proof (to_base _ _ _ _ _ _ _ Hok) as Hb.
  destruct (go_settled _ _ _ _ _ _ _ _ Hgok') as (start & Hstart & [rest Hrest] & Hl). specialize (Hl Hforced).
  rewrite Hset, map_app in Hrest. rewrite Hset, length_app in Hl.
  rewrite <- drop_app_le, <- Hlog by lia.
  assert (drop (start + length (settled_of w topic name)) (log_of w' topic) = map delivery_envelope settled ++ rest) as E.
  { rewrite <- drop_drop, Hrest, <- app_assoc. rewrite drop_app_ge by (rewrite length_map; lia).
    by rewrite length_map, Nat.sub_diag. }
  replace (Z.to_nat (group_cursor g)) with (start + length (settled_of w topic name)) by lia.
  rewrite E. f_equal.
  replace (Z.to_nat (group_cursor g')) with ((start + length (settled_of w topic name)) + length settled) by lia.
  rewrite <- drop_drop, E, drop_app_ge by (rewrite length_map; lia). by rewrite length_map, Nat.sub_diag.
Qed.

(** C37. In every reachable state a topic retains at most [max_queue_size] messages, exactly those that its
    slowest group still needs. Every group is within the retained range and the message at its position, in
    particular the one it holds in flight, is retained: polling and dead letters never find it gone. *)
Theorem retention_is_exact (w : world) (topic : string) (s : TopicState) :
  reach float_pow max w -> transport_topics (w_transport w) !! topic = Some s ->
  (Z.of_nat (length (topic_messages s)) <= max)%Z /\
  topic_next_sequence s = Z.of_nat (length (log_of w topic)) /\
  topic_messages s = drop (Z.to_nat (topic_base_sequence s)) (log_of w topic) /\
  (topic_groups s <> ∅ -> minimum_cursor (topic_groups s) = Some (topic_base_sequence s)) /\
  forall name g, topic_groups s !! name = Some g ->
    (0 <= topic_base_sequence s <= group_cursor g)%Z /\ (group_cursor g <= topic_next_sequence s)%Z /\
    ((group_cursor g < topic_next_sequence s)%Z -> is_Some (retained s (group_cursor g))) /\
    forall f, group_inflight g = Some f ->
      inflight_sequence f = group_cursor g /\ (group_cursor g < topic_next_sequence s)%Z.
Proof.
  intros Hw Hs. pose proof (topic_at _ _ _ _ (reach_ok _ _ _ Hw) Hs) as Hok.
  pose proof (to_base _ _ _ _ _ _ _ Hok) as Hb. pose proof (to_next _ _ _ _ _ _ _ Hok) as Hn.
  split_and!; [apply (to_bound _ _ _ _ _ _ _ Hok)|done|apply (to_messages _ _ _ _ _ _ _ Hok)| |].
  - intros Hne. destruct (to_minimum _ _ _ _ _ _ _ Hok Hne) as (name & g & Hg & E).
    pose proof (minimum_cursor_spec (topic_groups s)) as Hmin. destruct (minimum_cursor (topic_groups s)) as [m|]; [|done].
    destruct Hmin as [Hle (n & g' & Hg' & E')]. specialize (Hle _ _ Hg).
    pose proof (go_cursor _ _ _ _ _ _ _ _ (to_groups _ _ _ _ _ _ _ Hok _ _ Hg')). f_equal. lia.
  - intros name g Hg. pose proof (to_groups _ _ _ _ _ _ _ Hok _ _ Hg) as Hgok.
    pose proof (go_cursor _ _ _ _ _ _ _ _ Hgok) as Hc. split_and!; [lia..| |].
    + intros Hlt. rewrite (retained_log _ _ _ _ _ _ _ _ Hok) by lia. apply lookup_lt_is_Some. lia.
    + intros f Hf. destruct (go_inflight _ _ _ _ _ _ _ _ Hgok f Hf) as (Hseq & Hlt & _). rewrite Hn. done.
Qed.

(** A delivery settles its message at most once: after it moved the cursor of its group, acking or
    nacking it again fails and changes nothing, in every later state. *)
Theorem delivery_settles_once (w : world) (topic name : string) (d : MessageDelivery) (retry : bool)
  (reason : option string) (env : Ambient) :
  reach float_pow max w -> d ∈ settled_of w topic name ->
  NoDup (settled_of w topic name) /\
  exists e, (e = unavailable \/ e = not_inflight) /\ ack d (w_transport w) = (Err e, w_transport w) /\
    nack float_pow d retry reason env (w_transport w) = (Err e, w_transport w).
Proof.
  intros Hw Hd. destruct (reach_settled _ _ _ Hw topic name) as [Hnd Hset]. split; [done|].
  destruct (Hset d Hd) as (Hi & Ht & Hn & Hfl). rewrite ack_run, nack_run. cbv zeta.
  destruct (transport_available (w_transport w)); cbn [negb]; [|exists unavailable; auto].
  assert (is_Some (group_at (w_transport w) topic name)) as [g Hg].
  { pose proof (wo_topics _ _ (reach_ok _ _ _ Hw) topic) as Htop. unfold group_at.
    destruct (transport_topics (w_transport w) !! topic) as [s|]; cbn.
    - destruct (topic_groups s !! name) eqn:E; [done|]. rewrite (to_joined _ _ _ _ _ _ _ Htop _ E) in Hd.
      by apply elem_of_nil in Hd.
    - destruct Htop as [_ Htop]. rewrite Htop in Hd. by apply elem_of_nil in Hd. }
  assert (current d (w_transport w) = Err not_inflight) as ->; [|exists not_inflight; auto].
  pose proof Hg as Hat. apply group_at_Some in Hg as (s & Hs & Hg). unfold current. rewrite Ht, Hn, Hs, Hg.
  destruct (group_inflight g) as [f|] eqn:Hf; [|done]. rewrite bool_decide_false; [done|]. by apply (Hfl g f).
Qed.

(** The transport is closed exactly when it is closing and retains nothing: a graceful close waits
    for the last message to be settled and never longer, and nothing is published any more. *)
Theorem closed_means_drained (w : world) :
  reach float_pow max w ->
  (transport_closed (w_transport w) = true <->
   transport_closing (w_transport w) = true /\
   forall topic s, transport_topics (w_transport w) !! topic = Some s -> topic_messages s = []) /\
  (transport_closing (w_transport w) = true -> forall topic envelope control env,
     is_ok (publish topic envelope control env (w_transport w)).1 = false /\
     (publish topic envelope control env (w_transport w)).2 = w_transport w).
Proof.
  intros Hw%reach_ok. split.
  - rewrite (wo_closed _ _ Hw), andb_true_iff. unfold all_empty. by rewrite bool_decide_eq_true.
  - intros Hc topic e control env. rewrite publish_run, (wo_accepting _ _ Hw), Hc. by repeat case_goal.
Qed.
End theorems.
