(* ===== verification/TransportLiveness.v ===== *)
(** * What a consumer of the transport achieves

    A running consumer of an available transport receives everything retained for its group, and a
    message that is always rejected leaves the group after the attempts its retry policy allows. *)

From Stdlib Require Import SpecFloat.
From S2P Require Import Prelude PyValue Errors StateMonad Contracts TransportModels Transport TransportInvariant.
From S2P Require Import TransportSteps TransportSafety TransportHistory TransportTheorems.

(** Poll, ack, and again: the consumer's loop for as many messages as there are inputs. *)
Fixpoint drain (sub : Subscription) (envs : list Ambient) (tr : Transport) : option (list TransportEnvelope * Transport) :=
  match envs with
  | [] => Some ([], tr)
  | env :: envs =>
      match iterate_next true sub env tr with
      | (Ok (Delivered d), tr1) =>
          match ack d tr1 with
          | (Ok _, tr2) => '(l, tr3) ← drain sub envs tr2; Some (delivery_envelope d :: l, tr3)
          | _ => None
          end
      | _ => None
      end
  end.

Section liveness.
Context (float_pow : spec_float -> Z -> res spec_float) (max : Z).

(** Poll, nack, and again, with the inputs of both calls. *)
Fixpoint reject (sub : Subscription) (rounds : list (Ambient * Ambient)) (tr : Transport) : option Transport :=
  match rounds with
  | [] => Some tr
  | (polling, nacking) :: rounds =>
      match iterate_next true sub polling tr with
      | (Ok (Delivered d), tr1) =>
          match nack float_pow d true None nacking tr1 with
          | (Ok _, tr2) => reject sub rounds tr2
          | _ => None
          end
      | _ => None
      end
  end.

(** Each poll comes when the retry that the nack before it scheduled is due. *)
Fixpoint on_time (policy : RetryPolicy) (attempt : Z) (retry_at : option spec_float) (rounds : list (Ambient * Ambient)) : Prop :=
  match rounds with
  | [] => True
  | (polling, nacking) :: rounds =>
      match retry_at with Some t => SFltb (ambient_loop_time polling) t = false | None => True end /\
      match delay_for_retry float_pow policy attempt with
      | Ok delay => on_time policy (attempt + 1) (Some (float_add (ambient_loop_time nacking) delay)) rounds
      | Err _ => rounds = []
      end
  end.

(** A running consumer between two deliveries. *)
Record ready (w : world) (i : nat) (sub : Subscription) (s : TopicState) (g : GroupState) : Prop := {
  rd_reach : reach float_pow max w;
  rd_running : w_subs w !! i = Some (sub, Running);
  rd_available : transport_available (w_transport w) = true;
  rd_topic : transport_topics (w_transport w) !! subscription_topic sub = Some s;
  rd_group : topic_groups s !! subscription_consumer_group sub = Some g;
  rd_idle : group_inflight g = None
}.

Definition fresh (env : Ambient) (w : world) : Prop := "delivery_" +:+ ambient_uuid env ∉ issued_ids w.

(** What the next poll hands out, and the world after it. *)
Definition handed (sub : Subscription) (g : GroupState) (e : TransportEnvelope) (env : Ambient) : MessageDelivery :=
  delivery_for sub e (upcoming_attempt g) env.
Definition after_poll (w : world) (i : nat) (sub : Subscription) (g : GroupState) (e : TransportEnvelope) (env : Ambient) : world :=
  issue (handed sub g e env) (set_phase i sub Running (set_transport
    (touch (subscription_topic sub)
      (on_group (subscription_consumer_group sub) (group_deliver (handed sub g e env) (group_cursor g)))
      (w_transport w)) w)).

Lemma poll_ready w i sub s g e u env :
  ready w i sub s g -> undelivered s g = e :: u -> not_due env g = None ->
  iterate_next true sub env (w_transport w) =
    (Ok (Delivered (handed sub g e env)), w_transport (after_poll w i sub g e env)).
Proof.
  intros [Hw Hi Hav Hs Hg Hidle] Hu Hdue. unfold iterate_next. run_method. rewrite iterate_turn_run.
  rewrite (iterate_poll_run _ _ _ s g) by (unfold topic_of, group_of; by rewrite ?Hs, ?Hg).
  rewrite Hav, bool_decide_true by done. cbn [negb].
  pose proof (topic_at _ _ _ _ (reach_ok _ _ _ Hw) Hs) as Hok.
  rewrite (undelivered_log _ _ _ _ _ _ _ _ _ Hok Hg) in Hu.
  assert (log_of w (subscription_topic sub) !! Z.to_nat (group_cursor g) = Some e) as Hlog
    by (by rewrite <- (Nat.add_0_r (Z.to_nat _)), <- lookup_drop, Hu).
  pose proof (go_cursor _ _ _ _ _ _ _ _ (to_groups _ _ _ _ _ _ _ Hok _ _ Hg)) as Hc.
  pose proof (lookup_lt_Some _ _ _ Hlog). pose proof (to_next _ _ _ _ _ _ _ Hok). pose proof (to_base _ _ _ _ _ _ _ Hok).
  destruct (Z.ltb_spec (group_cursor g) (topic_next_sequence s)); [|lia].
  rewrite (retained_log _ _ _ _ _ _ _ _ Hok), Hlog by lia. by rewrite Hdue.
Qed.

Lemma reach_poll w i sub s g e u env :
  ready w i sub s g -> undelivered s g = e :: u -> not_due env g = None -> fresh env w ->
  reach float_pow max (after_poll w i sub g e env).
Proof.
  intros Hr Hu Hdue Hfresh. pose proof (reach_act float_pow max w (Resume i env) (rd_reach _ _ _ _ _ Hr) Hfresh) as H.
  cbn [act] in H. rewrite (rd_running _ _ _ _ _ Hr), bool_decide_true in H by done.
  rewrite (poll_ready _ _ _ _ _ _ _ _ Hr Hu Hdue) in H. exact H.
Qed.

(** The state of the topic after the poll. *)
Definition polled_topic (sub : Subscription) (s : TopicState) (g : GroupState) (d : MessageDelivery) : TopicState :=
  on_group (subscription_consumer_group sub) (group_deliver d (group_cursor g)) s.

Lemma after_poll_topic w i sub s g e env : ready w i sub s g ->
  let d := handed sub g e env in
  transport_topics (w_transport (after_poll w i sub g e env)) !! subscription_topic sub = Some (polled_topic sub s g d) /\
  topic_groups (polled_topic sub s g d) !! subscription_consumer_group sub = Some (group_deliver d (group_cursor g) g) /\
  d ∈ w_issued (after_poll w i sub g e env) /\
  current d (w_transport (after_poll w i sub g e env)) =
    Ok (group_deliver d (group_cursor g) g,
        Build_Inflight (group_cursor g) (delivery_id (delivery_metadata d)) (subscription_consumer_id sub) (upcoming_attempt g)).
Proof.
  intros Hr. cbv zeta. set (d := handed sub g e env).
  assert (transport_topics (w_transport (after_poll w i sub g e env)) !! subscription_topic sub = Some (polled_topic sub s g d)) as Hs.
  { unfold after_poll, touch. cbn. tr_cbn. by rewrite lookup_alter_eq, (rd_topic _ _ _ _ _ Hr). }
  assert (topic_groups (polled_topic sub s g d) !! subscription_consumer_group sub = Some (group_deliver d (group_cursor g) g)) as Hg.
  { unfold polled_topic, on_group. tr_cbn. by rewrite lookup_alter_eq, (rd_group _ _ _ _ _ Hr). }
  split_and!; [done|done|apply elem_of_app; right; by apply list_elem_of_singleton|].
  unfold current. change (delivery_topic (delivery_metadata d)) with (subscription_topic sub).
  change (delivery_consumer_group (delivery_metadata d)) with (subscription_consumer_group sub).
  rewrite Hs, Hg. tr_cbn. by rewrite bool_decide_true.
Qed.

(** The world in which the consumer, having settled its message, is ready for the next one. *)
Lemma ready_settled w i sub s g e u env (a : action) letters :
  let d := handed sub g e env in
  let w1 := after_poll w i sub g e env in
  ready w i sub s g -> undelivered s g = e :: u -> not_due env g = None -> fresh env w ->
  (a = Ack d \/ exists retry reason env', a = Nack d retry reason env') ->
  w_transport (act float_pow a w1) =
    finished (touch (subscription_topic sub) (settled_topic (subscription_consumer_group sub) (group_cursor g) letters) (w_transport w1)) ->
  exists s2, ready (act float_pow a w1) i sub s2 (group_settle (group_cursor g) (group_deliver d (group_cursor g) g)) /\
    undelivered s2 (group_settle (group_cursor g) (group_deliver d (group_cursor g) g)) = u /\
    topic_dead_letters s2 = letters.
Proof.
  intros d w1 Hr Hu Hdue Hfresh Ha Htr. pose proof (reach_poll _ _ _ _ _ _ _ _ Hr Hu Hdue Hfresh) as Hw1. fold w1 in Hw1.
  destruct (after_poll_topic _ _ _ _ _ e env Hr) as (Hs1 & Hg1 & Hd & Hcur). fold d w1 in Hs1, Hg1, Hd, Hcur.
  assert (reach float_pow max (act float_pow a w1)) as Hw2
    by (apply reach_act; [done|]; destruct Ha as [->|(? & ? & ? & ->)]; exact Hd).
  set (g2 := group_settle _ _). set (s1 := polled_topic sub s g d) in *.
  set (s2 := settled_topic (subscription_consumer_group sub) (group_cursor g) letters s1).
  assert (transport_topics (w_transport (act float_pow a w1)) !! subscription_topic sub = Some s2) as Hs2.
  { rewrite Htr. unfold finished, touch. destruct (_ && _); tr_cbn; by rewrite lookup_alter_eq, Hs1. }
  assert (topic_groups s2 !! subscription_consumer_group sub = Some g2) as Hg2.
  { subst s2. unfold settled_topic. rewrite groups_prune. tr_cbn. by rewrite lookup_alter_eq, Hg1. }
  assert (w_subs (act float_pow a w1) = w_subs w1 /\ w_log (act float_pow a w1) = w_log w) as [Hsubs Hlog].
  { destruct Ha as [->|(? & ? & ? & ->)]; cbn [act]; unfold record_settled; by case_bool_decide. }
  exists s2. split_and!.
  - split; [done| | |done|done|done].
    + rewrite Hsubs. apply list_lookup_insert_eq. eapply lookup_lt_Some, (rd_running _ _ _ _ _ Hr).
    + rewrite Htr. unfold finished. by destruct (_ && _); apply (rd_available _ _ _ _ _ Hr).
  - rewrite (undelivered_log _ _ _ _ _ _ _ _ _ (topic_at _ _ _ _ (reach_ok _ _ _ Hw2) Hs2) Hg2).
    pose proof (topic_at _ _ _ _ (reach_ok _ _ _ (rd_reach _ _ _ _ _ Hr)) (rd_topic _ _ _ _ _ Hr)) as Hok.
    pose proof (rd_group _ _ _ _ _ Hr) as Hg.
    rewrite (undelivered_log _ _ _ _ _ _ _ _ _ Hok Hg) in Hu.
    pose proof (go_cursor _ _ _ _ _ _ _ _ (to_groups _ _ _ _ _ _ _ Hok _ _ Hg)). pose proof (to_base _ _ _ _ _ _ _ Hok).
    unfold log_of in *. rewrite Hlog. subst g2. tr_cbn.
    replace (Z.to_nat (group_cursor g + 1)) with (Z.to_nat (group_cursor g) + 1) by lia. by rewrite <- drop_drop, Hu.
  - subst s2. unfold settled_topic, prune. tr_cbn. destruct (minimum_cursor _); [|done]. by destruct (prune_to _ _ _).
Qed.

Lemma transport_record_settled d before w : w_transport (record_settled d before w) = w_transport w.
Proof. unfold record_settled. by case_bool_decide. Qed.
Lemma issued_record_settled d before w : w_issued (record_settled d before w) = w_issued w.
Proof. unfold record_settled. by case_bool_decide. Qed.

Lemma issued_after_poll w i sub g e env :
  issued_ids (after_poll w i sub g e env) = issued_ids w ++ ["delivery_" +:+ ambient_uuid env].
Proof. unfold issued_ids, after_poll. cbn. by rewrite map_app. Qed.

(** No retry is scheduled for a message that was never handed out. *)
Lemma settled_due w i sub s g d env : ready w i sub s g ->
  not_due env (group_settle (group_cursor g) (group_deliver d (group_cursor g) g)) = None.
Proof.
  intros Hr. unfold not_due. tr_cbn.
  pose proof (topic_at _ _ _ _ (reach_ok _ _ _ (rd_reach _ _ _ _ _ Hr)) (rd_topic _ _ _ _ _ Hr)) as Hok.
  pose proof (to_groups _ _ _ _ _ _ _ Hok _ _ (rd_group _ _ _ _ _ Hr)) as Hg.
  destruct (delete (group_cursor g) (delete (group_cursor g) (group_retry_not_before g)) !! (group_cursor g + 1)%Z) as [x|] eqn:E; [|done].
  exfalso. apply lookup_delete_Some in E as [_ E]. apply lookup_delete_Some in E as [_ E].
  apply (go_retry _ _ _ _ _ _ _ _ Hg) in E. lia.
Qed.

Lemma ready_ack w i sub s g e u env :
  let d := handed sub g e env in
  let w1 := after_poll w i sub g e env in
  let w2 := act float_pow (Ack d) w1 in
  let g2 := group_settle (group_cursor g) (group_deliver d (group_cursor g) g) in
  ready w i sub s g -> undelivered s g = e :: u -> not_due env g = None -> fresh env w ->
  ack d (w_transport w1) = (Ok tt, w_transport w2) /\
  issued_ids w2 = issued_ids w ++ ["delivery_" +:+ ambient_uuid env] /\
  exists s2, ready w2 i sub s2 g2 /\ undelivered s2 g2 = u.
Proof.
  intros d w1 w2 g2 Hr Hu Hdue Hfresh. destruct (after_poll_topic _ _ _ _ _ e env Hr) as (Hs1 & Hg1 & Hd & Hcur).
  assert (ack d (w_transport w1) = (Ok tt, w_transport w2)) as Hack.
  { subst w2. cbn [act]. rewrite transport_record_settled, ack_run. fold d w1 in Hcur. rewrite Hcur.
    change (transport_available (w_transport w1)) with (transport_available (w_transport w)).
    by rewrite (rd_available _ _ _ _ _ Hr). }
  split; [done|]. split.
  { subst w2. cbn [act]. unfold issued_ids. rewrite issued_record_settled. apply issued_after_poll. }
  destruct (ready_settled w i sub s g e u env (Ack d) (topic_dead_letters (polled_topic sub s g d)) Hr Hu Hdue Hfresh) as (s2 & H2 & Hu2 & _);
    [by left| |eauto].
  fold d w1 w2. replace (w_transport w2) with (ack d (w_transport w1)).2 by (by rewrite Hack). rewrite ack_run.
  fold d w1 in Hcur. rewrite Hcur.
  change (transport_available (w_transport w1)) with (transport_available (w_transport w)).
  rewrite (rd_available _ _ _ _ _ Hr). cbn [negb snd]. f_equal. eapply touch_ext; [exact Hs1|]. apply settle_topic_eq.
Qed.

Lemma fresh_rest env envs ids id : "delivery_" +:+ ambient_uuid env ∉ ids ->
  NoDup (id :: map ambient_uuid envs) -> env ∈ envs -> "delivery_" +:+ ambient_uuid env ∉ ids ++ ["delivery_" +:+ id].
Proof.
  intros Hf Hnd Hin [H|H%list_elem_of_singleton]%elem_of_app; [done|].
  apply (inj (String.append "delivery_")) in H. apply NoDup_cons in Hnd as [Hn _]. apply Hn. rewrite <- H.
  apply list_elem_of_fmap. eauto.
Qed.

(** C26. A running consumer of an available transport, with nothing in flight and no retry waiting, that
    polls and acks as often as messages are retained for its group receives every one of them, in order,
    and leaves its group with nothing undelivered; no call fails or waits. *)
Theorem running_consumer_drains (w : world) (i : nat) (sub : Subscription) (s : TopicState) (g : GroupState) (envs : list Ambient) :
  ready w i sub s g -> length envs = length (undelivered s g) ->
  (forall env, head envs = Some env -> not_due env g = None) ->
  NoDup (map ambient_uuid envs) -> (forall env, env ∈ envs -> fresh env w) ->
  exists tr' s' g', drain sub envs (w_transport w) = Some (undelivered s g, tr') /\
    transport_topics tr' !! subscription_topic sub = Some s' /\
    topic_groups s' !! subscription_consumer_group sub = Some g' /\ undelivered s' g' = [] /\ group_inflight g' = None.
Proof.
  intros Hr Hlen Hdue Hnd Hfresh. remember (undelivered s g) as u eqn:Hu. symmetry in Hu.
  revert w s g envs Hr Hu Hlen Hdue Hnd Hfresh. induction u as [|e u IH]; intros w s g [|env envs] Hr Hu Hlen Hdue Hnd Hfresh; try done.
  - exists (w_transport w), s, g. split; [done|]. destruct Hr. done.
  - assert (not_due env g = None) as Hd by (by apply Hdue). assert (fresh env w) as Hf by (apply Hfresh; left).
    destruct (ready_ack w i sub s g e u env Hr Hu Hd Hf) as (Hack & Hids & s2 & Hr2 & Hu2).
    cbn [drain]. rewrite (poll_ready _ _ _ _ _ _ _ _ Hr Hu Hd), Hack.
    destruct (IH _ _ _ envs Hr2 Hu2) as (tr' & s' & g' & Hdrain & Hs' & Hg' & Hu' & Hin').
    + by injection Hlen.
    + intros env' _. by eapply settled_due.
    + by apply NoDup_cons in Hnd as [_ ?].
    + intros env' Hin. unfold fresh. rewrite Hids. eapply fresh_rest; [apply Hfresh; by right|exact Hnd|done].
    + exists tr', s', g'. rewrite Hdrain. done.
Qed.

(** ** Rejected messages *)

(** The group after a nack that schedules a retry. *)
Definition retrying (retry_at : spec_float) (d : MessageDelivery) (g : GroupState) : GroupState :=
  let g1 := group_set_inflight None (group_deliver d (group_cursor g) g) in
  group_set_retry_not_before (<[group_cursor g := retry_at]> (group_retry_not_before g1)) g1.

Lemma nack_current w1 d reason env g f : transport_available (w_transport w1) = true -> current d (w_transport w1) = Ok (g, f) ->
  nack float_pow d true reason env (w_transport w1) =
  let t := delivery_topic (delivery_metadata d) in
  let n := delivery_consumer_group (delivery_metadata d) in
  let dropped := touch t (on_group n (group_set_inflight None)) (w_transport w1) in
  if retries d true g then
    match delay_for_retry float_pow (group_retry_policy g) (delivery_attempt (delivery_metadata d)) with
    | Err e => (Err e, dropped)
    | Ok delay =>
        (Ok tt, touch t (on_group n (fun g => group_set_retry_not_before
           (<[inflight_sequence f := float_add (ambient_loop_time env) delay]> (group_retry_not_before g)) g)) dropped)
    end
  else
    match retained (topic_of t (w_transport w1)) (inflight_sequence f) with
    | None => (Err source_unavailable, dropped)
    | Some e =>
        (Ok tt, finished (touch t (bury_topic n (inflight_sequence f) (dead_letter_for d e true reason env)) (w_transport w1)))
    end.
Proof. intros Hav Hcur. rewrite nack_run. cbv zeta. by rewrite Hav, Hcur. Qed.

Lemma ready_retry w i sub s g e u polling nacking delay :
  let d := handed sub g e polling in
  let w1 := after_poll w i sub g e polling in
  let w2 := act float_pow (Nack d true None nacking) w1 in
  let g2 := retrying (float_add (ambient_loop_time nacking) delay) d g in
  ready w i sub s g -> undelivered s g = e :: u -> not_due polling g = None -> fresh polling w ->
  (upcoming_attempt g < policy_max_attempts (group_retry_policy g))%Z ->
  delay_for_retry float_pow (group_retry_policy g) (upcoming_attempt g) = Ok delay ->
  nack float_pow d true None nacking (w_transport w1) = (Ok tt, w_transport w2) /\
  issued_ids w2 = issued_ids w ++ ["delivery_" +:+ ambient_uuid polling] /\
  exists s2, ready w2 i sub s2 g2 /\ undelivered s2 g2 = e :: u /\ topic_dead_letters s2 = topic_dead_letters s.
Proof.
  intros d w1 w2 g2 Hr Hu Hdue Hfresh Hlt Hdelay. destruct (after_poll_topic _ _ _ _ _ e polling Hr) as (Hs1 & Hg1 & Hd & Hcur).
  fold d w1 in Hs1, Hg1, Hd, Hcur. set (t := subscription_topic sub) in *. set (n := subscription_consumer_group sub) in *.
  assert (reach float_pow max w2) as Hw2 by (apply reach_act; [by eapply reach_poll|exact Hd]).
  set (s2 := on_group n (fun g => group_set_retry_not_before
    (<[group_cursor g := float_add (ambient_loop_time nacking) delay]> (group_retry_not_before g)) g)
    (on_group n (group_set_inflight None) (polled_topic sub s g d))).
  assert (nack float_pow d true None nacking (w_transport w1) = (Ok tt, w_transport w2)) as Hnack.
  { subst w2. cbn [act]. rewrite transport_record_settled. cbn [w_transport set_transport].
    rewrite (nack_current w1 d None nacking _ _ (rd_available _ _ _ _ _ Hr) Hcur). cbv zeta. unfold retries.
    change (delivery_attempt (delivery_metadata d)) with (upcoming_attempt g). tr_cbn.
    destruct (Z.ltb_spec (upcoming_attempt g) (policy_max_attempts (group_retry_policy g))); [|lia]. cbn [andb]. by rewrite Hdelay. }
  split; [done|]. split.
  { subst w2. cbn [act]. unfold issued_ids. rewrite issued_record_settled. apply issued_after_poll. }
  assert (w_transport w2 = touch t (on_group n (fun g => group_set_retry_not_before
    (<[group_cursor g := float_add (ambient_loop_time nacking) delay]> (group_retry_not_before g)) g))
    (touch t (on_group n (group_set_inflight None)) (w_transport w1))) as Htr.
  { replace (w_transport w2) with (nack float_pow d true None nacking (w_transport w1)).2 by (by rewrite Hnack).
    rewrite (nack_current w1 d None nacking _ _ (rd_available _ _ _ _ _ Hr) Hcur). cbv zeta. unfold retries.
    change (delivery_attempt (delivery_metadata d)) with (upcoming_attempt g). tr_cbn.
    destruct (Z.ltb_spec (upcoming_attempt g) (policy_max_attempts (group_retry_policy g))); [|lia]. cbn [andb].
    rewrite Hdelay. cbn [snd]. rewrite !touch_touch. eapply touch_ext; [exact Hs1|].
    change (delivery_consumer_group (delivery_metadata d)) with n. unfold on_group. tr_cbn.
    rewrite !alter_alter_eq. f_equal. apply alter_ext. intros g' Hg'. rewrite Hg1 in Hg'. by injection Hg' as <-. }
  assert (transport_topics (w_transport w2) !! t = Some s2) as Hs2.
  { rewrite Htr. unfold touch. tr_cbn. by rewrite !lookup_alter_eq, Hs1. }
  assert (topic_groups s2 !! n = Some g2) as Hg2.
  { subst s2. unfold on_group. tr_cbn. by rewrite !lookup_alter_eq, Hg1. }
  exists s2. split; [split; try done|].
  - subst w2. cbn [act]. unfold record_settled.
    case_bool_decide; apply list_lookup_insert_eq; eapply lookup_lt_Some, (rd_running _ _ _ _ _ Hr).
  - rewrite Htr. apply (rd_available _ _ _ _ _ Hr).
  - done.
Qed.

Lemma ready_bury w i sub s g e u polling nacking :
  let d := handed sub g e polling in
  let w1 := after_poll w i sub g e polling in
  let w2 := act float_pow (Nack d true None nacking) w1 in
  let g2 := group_settle (group_cursor g) (group_deliver d (group_cursor g) g) in
  let letter := dead_letter_for d e true None nacking in
  ready w i sub s g -> undelivered s g = e :: u -> not_due polling g = None -> fresh polling w ->
  (policy_max_attempts (group_retry_policy g) <= upcoming_attempt g)%Z ->
  nack float_pow d true None nacking (w_transport w1) = (Ok tt, w_transport w2) /\
  exists s2, ready w2 i sub s2 g2 /\ undelivered s2 g2 = u /\
    topic_dead_letters s2 = letters_with (subscription_consumer_group sub) letter s.
Proof.
  intros d w1 w2 g2 letter Hr Hu Hdue Hfresh Hlt. destruct (after_poll_topic _ _ _ _ _ e polling Hr) as (Hs1 & Hg1 & Hd & Hcur).
  fold d w1 in Hs1, Hg1, Hd, Hcur.
  pose proof (reach_ok _ _ _ (reach_poll _ _ _ _ _ _ _ _ Hr Hu Hdue Hfresh)) as Hok1. fold w1 in Hok1.
  assert (nack float_pow d true None nacking (w_transport w1) =
    (Ok tt, finished (touch (subscription_topic sub)
       (bury_topic (subscription_consumer_group sub) (group_cursor g) letter) (w_transport w1)))) as Hnack.
  { rewrite (nack_current w1 d None nacking _ _ (rd_available _ _ _ _ _ Hr) Hcur). cbv zeta. unfold retries.
    change (delivery_attempt (delivery_metadata d)) with (upcoming_attempt g). tr_cbn.
    destruct (Z.ltb_spec (upcoming_attempt g) (policy_max_attempts (group_retry_policy g))); [lia|]. cbn [andb].
    change (delivery_topic (delivery_metadata d)) with (subscription_topic sub).
    rewrite (topic_of_known _ _ _ Hs1).
    destruct (current_ok _ _ _ _ _ Hok1 Hd Hcur) as (s0 & Hs0 & Hg0 & _ & _ & _ & Hlog & _).
    change (delivery_topic (delivery_metadata d)) with (subscription_topic sub) in Hs0, Hlog.
    rewrite Hs1 in Hs0. injection Hs0 as <-. pose proof (topic_at _ _ _ _ Hok1 Hs1) as Hok.
    pose proof (go_cursor _ _ _ _ _ _ _ _ (to_groups _ _ _ _ _ _ _ Hok _ _ Hg1)) as Hc. tr_cbn.
    rewrite (retained_log _ _ _ _ _ _ _ _ Hok) by lia. by rewrite Hlog. }
  assert (w_transport w2 = (nack float_pow d true None nacking (w_transport w1)).2) as Htr
    by (subst w2; cbn [act]; by rewrite transport_record_settled).
  split; [by rewrite Htr, Hnack|].
  destruct (ready_settled w i sub s g e u polling (Nack d true None nacking)
    (letters_with (subscription_consumer_group sub) letter (polled_topic sub s g d)) Hr Hu Hdue Hfresh) as (s2 & H2 & Hu2 & Hl2);
    [right; eauto| |eauto].
  fold d w1 w2. rewrite Htr, Hnack. cbn [snd]. f_equal. eapply touch_ext; [exact Hs1|]. apply bury_topic_eq.
Qed.

(** C38. A message that is always rejected does not block its group: if each poll comes when the retry is
    due, the group's consumer receives it exactly as often as the retry policy still allows, and then it
    is the last dead letter of the group, with [max_attempts] attempts, and the next message is up. *)
Theorem poison_message_is_buried (w : world) (i : nat) (sub : Subscription) (s : TopicState) (g : GroupState)
  (e : TransportEnvelope) (u : list TransportEnvelope) (rounds : list (Ambient * Ambient)) :
  ready w i sub s g -> undelivered s g = e :: u ->
  (upcoming_attempt g <= policy_max_attempts (group_retry_policy g))%Z ->
  Z.of_nat (length rounds) = (policy_max_attempts (group_retry_policy g) - upcoming_attempt g + 1)%Z ->
  on_time (group_retry_policy g) (upcoming_attempt g) (group_retry_not_before g !! group_cursor g) rounds ->
  NoDup (map (fun r => ambient_uuid r.1) rounds) -> (forall r, r ∈ rounds -> fresh r.1 w) ->
  exists tr' s' g' letter, reject sub rounds (w_transport w) = Some tr' /\
    transport_topics tr' !! subscription_topic sub = Some s' /\
    topic_groups s' !! subscription_consumer_group sub = Some g' /\ undelivered s' g' = u /\
    topic_dead_letters s' !! subscription_consumer_group sub =
      Some (default [] (topic_dead_letters s !! subscription_consumer_group sub) ++ [letter]) /\
    letter_envelope letter = e /\ letter_attempts letter = policy_max_attempts (group_retry_policy g) /\
    letter_reason letter = "retry_exhausted".
Proof.
  revert w s g. induction rounds as [|[polling nacking] rounds IH]; intros w s g Hr Hu Hle Hlen Htime Hnd Hfresh; cbn in Hlen; [lia|].
  cbn [on_time] in Htime. destruct Htime as [Hnow Htime].
  assert (not_due polling g = None) as Hdue.
  { unfold not_due. destruct (_ !! _) as [t|]; [|done]. by rewrite Hnow. }
  assert (fresh polling w) as Hf by (apply (Hfresh (polling, nacking)); left).
  cbn [reject]. rewrite (poll_ready _ _ _ _ _ _ _ _ Hr Hu Hdue).
  destruct (Z.eq_dec (upcoming_attempt g) (policy_max_attempts (group_retry_policy g))) as [Hlast|Hmore].
  - destruct rounds; [|cbn in Hlen; lia].
    destruct (ready_bury w i sub s g e u polling nacking Hr Hu Hdue Hf) as (-> & s2 & Hr2 & Hu2 & Hl2); [lia|].
    cbn [reject]. do 2 eexists. exists (group_settle (group_cursor g) (group_deliver (handed sub g e polling) (group_cursor g) g)).
    eexists. split; [done|]. split; [apply (rd_topic _ _ _ _ _ Hr2)|]. split; [apply (rd_group _ _ _ _ _ Hr2)|].
    split; [done|]. split; [rewrite Hl2; unfold letters_with; apply lookup_insert_eq|]. done.
  - destruct (delay_for_retry float_pow (group_retry_policy g) (upcoming_attempt g)) as [delay|] eqn:Hdelay;
      [|subst rounds; cbn in Hlen; lia].
    destruct (ready_retry w i sub s g e u polling nacking delay Hr Hu Hdue Hf) as (-> & Hids & s2 & Hr2 & Hu2 & Hl2); [lia|done|].
    set (g2 := retrying _ _ _) in *.
    assert (upcoming_attempt g2 = (upcoming_attempt g + 1)%Z) as Hatt
      by (unfold upcoming_attempt at 1; subst g2; unfold retrying; tr_cbn; by rewrite lookup_insert_eq).
    destruct (IH _ _ _ Hr2 Hu2) as (tr' & s' & g' & letter & H); [rewrite Hatt; cbn; lia|rewrite Hatt; cbn; lia| | | |].
    + rewrite Hatt. change (group_retry_policy g2) with (group_retry_policy g).
      subst g2. unfold retrying. tr_cbn. by rewrite lookup_insert_eq.
    + by apply NoDup_cons in Hnd as [_ ?].
    + intros [p n] Hin. unfold fresh. rewrite Hids. cbn.
      intros [H|H%list_elem_of_singleton]%elem_of_app; [by apply (Hfresh (p, n)); [right|]|].
      apply (inj (String.append "delivery_")) in H. apply NoDup_cons in Hnd as [Hn _]. apply Hn. cbn. rewrite <- H.
      apply list_elem_of_fmap. by exists (p, n).
    + exists tr', s', g', letter. rewrite Hl2 in H. exact H.
Qed.
End liveness.
