(* ===== verification/Idempotency.v ===== *)
(** * Idempotent consumers: messaging/helpers.py

    [InMemoryIdempotencyStore] and [IdempotentConsumer] over any message transport, for any number of
    coroutines interleaved at their suspension points. The store's lock guards sections that never
    suspend, so each of its methods is one step; [acquire] suspends only while it waits for the event of
    the current owner. What a handler does is left open: it returns, raises or is cancelled. *)

From Stdlib Require Import SpecFloat.
From S2P Require Import Prelude PyValue Errors StateMonad TransportModels Transport.

(** ** The store *)

(** [asyncio.Event] objects live in a heap of their own; the value tells whether the event is set. *)
Record IdempotencyStore := Build_IdempotencyStore {
  store_completed : gset string;
  store_inflight : gmap string nat;
  store_events : list bool
}.

Definition new_store : IdempotencyStore := Build_IdempotencyStore ∅ ∅ [].

(** One turn of the loop of [acquire]: completed already, ownership acquired, or an event to wait for. *)
Inductive acquired := AlreadyCompleted | Acquired | WaitFor (event : nat).

Definition acquire_turn (key : string) (s : IdempotencyStore) : acquired * IdempotencyStore :=
  if bool_decide (key ∈ store_completed s) then (AlreadyCompleted, s)
  else
    match store_inflight s !! key with
    | None =>
        (Acquired, Build_IdempotencyStore (store_completed s) (<[key := length (store_events s)]> (store_inflight s))
                     (store_events s ++ [false]))
    | Some event => (WaitFor event, s)
    end.

Definition contains (key : string) (s : IdempotencyStore) : bool := bool_decide (key ∈ store_completed s).

(** [waiters = self._inflight.pop(key, None)], and [waiters.set()] *)
Definition release (key : string) (s : IdempotencyStore) : IdempotencyStore :=
  match store_inflight s !! key with
  | None => s
  | Some event =>
      Build_IdempotencyStore (store_completed s) (delete key (store_inflight s)) (<[event := true]> (store_events s))
  end.

Definition mark_completed (key : string) (s : IdempotencyStore) : IdempotencyStore :=
  release key (Build_IdempotencyStore ({[key]} ∪ store_completed s) (store_inflight s) (store_events s)).

(** ** The consumer *)

(** What [MessageTransport] offers to a consumer of deliveries. *)
Class MessageTransport (T : Type) := {
  transport_ack : MessageDelivery -> Ambient -> st T unit;
  transport_nack : MessageDelivery -> bool -> option string -> Ambient -> st T unit
}.

(** The in-process transport is one. *)
#[export] Instance InProcessMessageTransport (float_pow : spec_float -> Z -> res spec_float) : MessageTransport Transport := {|
  transport_ack d _ := ack d;
  transport_nack d retry reason env := nack float_pow d retry reason env
|}.

(** [key = delivery.envelope.idempotency_key or delivery.envelope.message_id] *)
Definition delivery_key (d : MessageDelivery) : string :=
  or_else (envelope_idempotency_key (delivery_envelope d)) (envelope_message_id (delivery_envelope d)).

(** How the handler's coroutine ends. *)
Inductive handler_outcome := HandlerReturned | HandlerRaised (type_name : string) | HandlerCancelled.

#[export] Instance handler_outcome_eq_dec : EqDecision handler_outcome.
Proof. solve_decision. Defined.

(** How [handle] ends: it returns, lets the handler's exception through, or an error of the transport. *)
Inductive handled := Returned (fresh : bool) | Reraised | Failed (e : exc).

Section consumer.
Context {T : Type} `{!MessageTransport T}.

(** The coroutine until its next suspension: it ends, its handler starts, or it waits. *)
Inductive handle_progress := HandleDone (r : handled) | HandleRunning | HandleWaiting (event : nat).

Definition settled_with (r : res unit) (ok : handled) : handled :=
  match r with Ok _ => ok | Err e => Failed e end.

(** [handle] from its start, or from the wake-up of [acquire], to the next suspension. *)
Definition handle_acquire (d : MessageDelivery) (env : Ambient) (s : IdempotencyStore) (tr : T) :
  handle_progress * IdempotencyStore * T :=
  match acquire_turn (delivery_key d) s with
  | (AlreadyCompleted, s') =>
      let '(r, tr') := transport_ack d env tr in (HandleDone (settled_with r (Returned false)), s', tr')
  | (Acquired, s') => (HandleRunning, s', tr)
  | (WaitFor event, s') => (HandleWaiting event, s', tr)
  end.

(** [handle] after the handler's coroutine has ended. *)
Definition handle_finish (d : MessageDelivery) (outcome : handler_outcome) (env : Ambient) (s : IdempotencyStore) (tr : T) :
  handled * IdempotencyStore * T :=
  let key := delivery_key d in
  match outcome with
  | HandlerReturned =>
      let s' := mark_completed key s in
      let '(r, tr') := transport_ack d env tr in (settled_with r (Returned true), s', tr')
  | HandlerRaised type_name =>
      let s' := release key s in
      let '(r, tr') := transport_nack d true (Some type_name) env tr in (settled_with r Reraised, s', tr')
  | HandlerCancelled =>
      let s' := release key s in
      let '(r, tr') := transport_nack d true (Some "CancelledError") env tr in (settled_with r Reraised, s', tr')
  end.

(** ** Coroutines *)

Inductive task_phase := Starting | WaitingOn (event : nat) | Handling | Finished (r : handled).

(** The store, the transport, the coroutines, and the keys whose handler has returned. *)
Record pool := Pool {
  pool_store : IdempotencyStore;
  pool_transport : T;
  pool_tasks : list (MessageDelivery * task_phase);
  pool_completions : list string
}.

Definition set_task (i : nat) (d : MessageDelivery) (p : task_phase) (tasks : list (MessageDelivery * task_phase)) :=
  <[i := (d, p)]> tasks.

Definition progress_phase (r : handle_progress) : task_phase :=
  match r with HandleDone r => Finished r | HandleRunning => Handling | HandleWaiting event => WaitingOn event end.

(** A coroutine may be waiting to acquire: at its start, or after the event it waits for was set. *)
Definition may_acquire (s : IdempotencyStore) (p : task_phase) : bool :=
  match p with
  | Starting => true
  | WaitingOn event => bool_decide (store_events s !! event = Some true)
  | _ => false
  end.

Inductive pool_step (p : pool) : pool -> Prop :=
| step_handle d :
    pool_step p (Pool (pool_store p) (pool_transport p) (pool_tasks p ++ [(d, Starting)]) (pool_completions p))
| step_acquire i d ph env r s' tr' :
    pool_tasks p !! i = Some (d, ph) -> may_acquire (pool_store p) ph = true ->
    handle_acquire d env (pool_store p) (pool_transport p) = (r, s', tr') ->
    pool_step p (Pool s' tr' (set_task i d (progress_phase r) (pool_tasks p)) (pool_completions p))
| step_cancel i d event :
    pool_tasks p !! i = Some (d, WaitingOn event) ->
    pool_step p (Pool (pool_store p) (pool_transport p) (set_task i d (Finished Reraised) (pool_tasks p)) (pool_completions p))
| step_finish i d outcome env r s' tr' :
    pool_tasks p !! i = Some (d, Handling) ->
    handle_finish d outcome env (pool_store p) (pool_transport p) = (r, s', tr') ->
    pool_step p (Pool s' tr' (set_task i d (Finished r) (pool_tasks p))
      (if bool_decide (outcome = HandlerReturned) then delivery_key d :: pool_completions p else pool_completions p))
| step_transport tr' :
    pool_step p (Pool (pool_store p) tr' (pool_tasks p) (pool_completions p)).

Definition new_pool (tr : T) : pool := Pool new_store tr [] [].
End consumer.
Arguments pool : clear implicits.

(** ** Every reachable pool *)

Section invariant.
Context {T : Type} `{!MessageTransport T}.

(** The coroutines whose handler runs for the key. *)
Definition handles (key : string) (x : MessageDelivery * task_phase) : Prop := x.2 = Handling /\ delivery_key x.1 = key.
#[export] Instance handles_dec key x : Decision (handles key x).
Proof.
  unfold handles. destruct x as [d []]; cbn;
    try (right; by intros [? _]); destruct (decide (delivery_key d = key)); [by left|by right; intros [_ ?]].
Defined.
Definition handlers (key : string) (tasks : list (MessageDelivery * task_phase)) : nat := length (filter (handles key) tasks).

#[local] Arguments handlers : simpl never.

(** The owner of a key is the one coroutine that handles it, its event is not set yet, and every waiting
    coroutine waits for the event of the owner, or for one that was set. *)
Record pool_ok (p : pool T) : Prop := {
  po_inflight : forall key, handlers key (pool_tasks p) =
    match store_inflight (pool_store p) !! key with Some _ => 1 | None => 0 end;
  po_events : forall key event, store_inflight (pool_store p) !! key = Some event ->
    store_events (pool_store p) !! event = Some false;
  po_distinct : forall key key' event, store_inflight (pool_store p) !! key = Some event ->
    store_inflight (pool_store p) !! key' = Some event -> key = key';
  po_completed : forall key, key ∈ store_completed (pool_store p) ->
    store_inflight (pool_store p) !! key = None;
  po_waiting : forall d event, (d, WaitingOn event) ∈ pool_tasks p ->
    store_events (pool_store p) !! event = Some true \/
    store_inflight (pool_store p) !! delivery_key d = Some event;
  po_completions : NoDup (pool_completions p) /\
    forall key, key ∈ pool_completions p <-> key ∈ store_completed (pool_store p)
}.

Definition counts (key : string) (d : MessageDelivery) (ph : task_phase) : nat :=
  if bool_decide (handles key (d, ph)) then 1 else 0.

Lemma handlers_set key tasks i d ph ph' : tasks !! i = Some (d, ph) ->
  handlers key (set_task i d ph' tasks) + counts key d ph = handlers key tasks + counts key d ph'.
Proof.
  intros Hi. unfold handlers, set_task, counts. rewrite insert_take_drop by (by eapply lookup_lt_Some).
  rewrite <- (take_drop_middle tasks i _ Hi) at 3. rewrite !filter_app, !length_app, !filter_cons.
  repeat case_decide; repeat case_bool_decide; try done; cbn; lia.
Qed.

Lemma counts_other key d ph : ph <> Handling -> counts key d ph = 0.
Proof. intros H. unfold counts. rewrite bool_decide_false; [done|]. by intros [? _]. Qed.
Lemma counts_handling key d : counts key d Handling = if bool_decide (delivery_key d = key) then 1 else 0.
Proof. unfold counts, handles. cbn. repeat case_bool_decide; naive_solver. Qed.

Lemma waiting_set tasks i d ph d' event : (d', WaitingOn event) ∈ set_task i d ph tasks ->
  (d', WaitingOn event) ∈ tasks \/ d' = d /\ ph = WaitingOn event.
Proof.
  intros [j Hj]%list_elem_of_lookup. unfold set_task in Hj. apply list_lookup_insert_Some in Hj as [(_ & [= -> ->] & _)|[_ Hj]].
  - by right.
  - left. by eapply list_elem_of_lookup_2.
Qed.

Lemma handlers_pos key tasks i d : tasks !! i = Some (d, Handling) -> delivery_key d = key -> 1 <= handlers key tasks.
Proof.
  intros Hi Hk. unfold handlers. destruct (filter (handles key) tasks) eqn:E; [|cbn; lia]. exfalso.
  assert ((d, Handling) ∈ filter (handles key) tasks) as H by (apply list_elem_of_filter; split; [done|by eapply list_elem_of_lookup_2]).
  rewrite E in H. by apply elem_of_nil in H.
Qed.

(** A handler ends: the key has no owner any more and its waiters are woken. *)
Lemma pool_ok_release p i d r s' tr' completed completions :
  pool_ok p -> pool_tasks p !! i = Some (d, Handling) ->
  s' = release (delivery_key d) (Build_IdempotencyStore completed (store_inflight (pool_store p)) (store_events (pool_store p))) ->
  (completed = store_completed (pool_store p) /\ completions = pool_completions p \/
   completed = {[delivery_key d]} ∪ store_completed (pool_store p) /\ completions = delivery_key d :: pool_completions p) ->
  pool_ok (Pool s' tr' (set_task i d (Finished r) (pool_tasks p)) completions).
Proof.
  intros [Hin Hev Hdi Hco Hwa [Hnd Hcs]] Hi -> Hcomp. set (key := delivery_key d).
  pose proof (handlers_pos key _ _ _ Hi eq_refl) as Hpos. rewrite Hin in Hpos.
  destruct (store_inflight (pool_store p) !! key) as [event|] eqn:Hkey; [|lia]. unfold release. cbn.
  fold key. rewrite Hkey. cbn. split; cbn.
  - intros k. pose proof (handlers_set k _ _ _ _ (Finished r) Hi) as H. rewrite (Hin k), counts_handling, counts_other in H by done.
    fold key in H. case_bool_decide as E.
    + subst k. rewrite lookup_delete_eq. rewrite Hkey in H. lia.
    + rewrite lookup_delete_ne by done. lia.
  - intros k e [Hne H]%lookup_delete_Some. rewrite list_lookup_insert_ne; [by eapply Hev|]. intros <-. apply Hne. by eapply Hdi.
  - intros k k' e [_ H]%lookup_delete_Some [_ H']%lookup_delete_Some. by eapply Hdi.
  - intros k Hk. destruct (decide (k = key)) as [->|Hne]; [apply lookup_delete_eq|]. rewrite lookup_delete_ne by done.
    apply Hco. destruct Hcomp as [[-> _]|[-> _]]; [done|]. apply elem_of_union in Hk as [Hk|Hk]; [|done].
    apply elem_of_singleton in Hk. done.
  - intros d' e [H|[_ H]]%waiting_set; [|done]. destruct (decide (e = event)) as [->|Hne].
    + left. apply list_lookup_insert_eq. eapply lookup_lt_Some, Hev, Hkey.
    + rewrite list_lookup_insert_ne by done. destruct (Hwa d' e H) as [?|H']; [by left|]. right.
      rewrite lookup_delete_ne; [done|]. intros E. rewrite <- E, Hkey in H'. congruence.
  - destruct Hcomp as [[-> ->]|[-> ->]]; [done|]. split.
    + apply NoDup_cons. split; [|done]. intros Hin'. apply Hcs, Hco in Hin'. fold key in Hin'. congruence.
    + intros k. rewrite elem_of_cons, elem_of_union, elem_of_singleton, Hcs. done.
Qed.

Lemma pool_ok_step p p' : pool_ok p -> pool_step p p' -> pool_ok p'.
Proof.
  intros Hp Hstep. pose proof Hp as [Hin Hev Hdi Hco Hwa Hcs].
  destruct Hstep as [d|i d ph env r s' tr' Hi Hmay H|i d event Hi|i d outcome env r s' tr' Hi H|tr'].
  - split; cbn; try done.
    + intros key. unfold handlers. rewrite filter_app, length_app, filter_cons. rewrite decide_False by (by intros [? _]).
      cbn. rewrite Nat.add_0_r. apply Hin.
    + intros d' e [?|He%list_elem_of_singleton]%elem_of_app; [auto|done].
  - assert (ph <> Handling) as Hph by (by destruct ph). unfold handle_acquire, acquire_turn in H.
    assert (forall d' e ph', ph' <> WaitingOn e -> (d', WaitingOn e) ∈ set_task i d ph' (pool_tasks p) ->
      store_events (pool_store p) !! e = Some true \/ store_inflight (pool_store p) !! delivery_key d' = Some e) as Hwa'
      by (intros d' e ph' Hne [?|[_ ?]]%waiting_set; [auto|done]).
    case_bool_decide as Hc; [|destruct (store_inflight (pool_store p) !! delivery_key d) as [event|] eqn:Hkey].
    + destruct (transport_ack d env (pool_transport p)) as [r0 tr0]. injection H as <- <- <-.
      split; cbn; try done; [|intros d' e; by apply Hwa'].
      intros key. pose proof (handlers_set key _ _ _ _ (Finished (settled_with r0 (Returned false))) Hi) as H.
      rewrite !counts_other in H by done. rewrite <- Hin. lia.
    + injection H as <- <- <-. split; cbn; try done.
      * intros key. pose proof (handlers_set key _ _ _ _ (WaitingOn event) Hi) as H.
        rewrite !counts_other in H by done. rewrite <- Hin. lia.
      * intros d' e [?|[-> [= <-]]]%waiting_set; auto.
    + injection H as <- <- <-. split; cbn; try done.
      * intros key. pose proof (handlers_set key _ _ _ _ Handling Hi) as H.
        rewrite counts_handling, (counts_other _ _ ph), (Hin key) in H by done. case_bool_decide as E.
        -- subst key. rewrite lookup_insert_eq, Hkey in *. lia.
        -- rewrite lookup_insert_ne by done. lia.
      * intros key e [[<- <-]|[_ H]]%lookup_insert_Some; [by apply list_lookup_middle|].
        apply lookup_app_l_Some. by eapply Hev.
      * intros k k' e [[<- <-]|[Hk H]]%lookup_insert_Some [[<- He]|[Hk' H']]%lookup_insert_Some; try done.
        -- apply Hev, lookup_lt_Some in H'. lia.
        -- subst e. apply Hev, lookup_lt_Some in H. lia.
        -- by eapply Hdi.
      * intros key Hk. rewrite lookup_insert_ne; [auto|]. by intros <-.
      * intros d' e H. destruct (Hwa' d' e Handling) as [H'|H']; [done|done| |].
        -- left. by apply lookup_app_l_Some.
        -- right. rewrite lookup_insert_ne; [done|]. intros E. congruence.
  - split; cbn; try done.
    + intros key. pose proof (handlers_set key _ _ _ _ (Finished Reraised) Hi) as H.
      rewrite !counts_other in H by done. rewrite <- Hin. lia.
    + intros d' e [?|[_ ?]]%waiting_set; [auto|done].
  - unfold handle_finish, mark_completed in H. destruct outcome.
    + destruct (transport_ack _ _ _) as [r0 tr0]. injection H as <- <- <-. rewrite bool_decide_true by done.
      eapply pool_ok_release; eauto.
    + destruct (transport_nack _ _ _ _ _) as [r0 tr0]. injection H as <- <- <-. rewrite bool_decide_false by done.
      eapply pool_ok_release; eauto. by destruct (pool_store p).
    + destruct (transport_nack _ _ _ _ _) as [r0 tr0]. injection H as <- <- <-. rewrite bool_decide_false by done.
      eapply pool_ok_release; eauto. by destruct (pool_store p).
  - by split.
Qed.

Lemma pool_ok_new tr : pool_ok (new_pool tr).
Proof.
  split; cbn; try done; try (by intros ? ? ?%elem_of_nil). split; [apply NoDup_nil_2|]. intros k. set_solver.
Qed.

Lemma reach_pool_ok tr p : rtc pool_step (new_pool tr) p -> pool_ok p.
Proof.
  intros H. assert (pool_ok (new_pool tr)) as Hok by apply pool_ok_new. revert Hok.
  induction H as [|p1 p2 p3 Hstep _ IH]; [done|]. intros Hok. apply IH. by eapply pool_ok_step.
Qed.

(** C25. However many coroutines handle deliveries at once, over any transport: the handler returns at most
    once per key; two handlers of one key never run at the same time, and none runs for a completed key;
    a delivery of a completed key is acked without running the handler; and a waiting coroutine waits for
    a handler that is running, or can go on. *)
Theorem handler_completes_once (tr : T) (p : pool T) (key : string) :
  rtc pool_step (new_pool tr) p ->
  NoDup (pool_completions p) /\ handlers key (pool_tasks p) <= 1 /\
  (key ∈ pool_completions p -> handlers key (pool_tasks p) = 0) /\
  (forall d env, delivery_key d ∈ pool_completions p ->
     handle_acquire d env (pool_store p) (pool_transport p) =
     (HandleDone (settled_with (transport_ack d env (pool_transport p)).1 (Returned false)), pool_store p,
      (transport_ack d env (pool_transport p)).2)) /\
  (forall d event, (d, WaitingOn event) ∈ pool_tasks p ->
     may_acquire (pool_store p) (WaitingOn event) = true \/ handlers (delivery_key d) (pool_tasks p) = 1).
Proof.
  intros [Hin Hev Hdi Hco Hwa [Hnd Hcs]]%reach_pool_ok. split_and!; [done| | | |].
  - rewrite Hin. destruct (store_inflight _ !! _); lia.
  - intros Hk. by rewrite Hin, (Hco key (proj1 (Hcs key) Hk)).
  - intros d env Hk. unfold handle_acquire, acquire_turn. rewrite bool_decide_true by (by apply Hcs).
    by destruct (transport_ack d env (pool_transport p)).
  - intros d event H. cbn. destruct (Hwa d event H) as [He|He]; [left; by rewrite bool_decide_true|]. right. by rewrite Hin, He.
Qed.
End invariant.
