(* ===== verification/EventStore.v ===== *)
(** * Canonical event storage: kernel/repository.py

    The command record, the interface every event repository offers, its contract as laws, and
    the in-memory implementation with the proof that it keeps the contract. *)

From S2P Require Import Prelude PyValue Errors Freeze Ident Lifecycle Domain Contracts.

Record CommandRecord := Build_CommandRecord {
  CommandRecord_scope : string;
  CommandRecord_idempotency_key : string;
  CommandRecord_operation : string;
  CommandRecord_stream_id : string;
  CommandRecord_result_id : string;
  CommandRecord_event_id : string
}.

#[export] Instance CommandRecord_eq_dec : EqDecision CommandRecord.
Proof. solve_decision. Defined.

Record CommitResult := Build_CommitResult {
  CommitResult_applied : bool;
  CommitResult_revision : Z;
  CommitResult_command : option CommandRecord
}.

(** ** The interface: the [EventRepository] protocol *)

Class EventRepository (R : Type) := {
  read_events : R -> string -> list Event;
  find_command : R -> string -> string -> option CommandRecord;
  list_stream_ids : R -> list string;
  commit : R -> string -> Z -> list Event -> option CommandRecord -> res CommitResult * R
}.

(** The revision of a stream is its length. *)
Definition revision {R} `{EventRepository R} (r : R) (stream_id : string) : Z :=
  Z.of_nat (length (read_events r stream_id)).

Definition stale_details (expected actual : Z) : dict :=
  [("reason", VStr "stale_stream_revision"); ("expected_revision", VInt expected);
   ("actual_revision", VInt actual)].

(** The contract the kernel relies on. *)
Class EventRepositoryLaws (R : Type) `{EventRepository R} := {
  (** An applied commit appends the batch to its stream and nothing else, and it can only apply
      at the revision the writer saw, with unused event ids, under an unused command key. *)
  commit_applied r sid rev evs cmd res r' :
    commit r sid rev evs cmd = (Ok res, r') -> CommitResult_applied res = true ->
    revision r sid = rev /\ evs <> [] /\
    (forall s, read_events r' s = if String.eqb s sid then read_events r sid ++ evs else read_events r s) /\
    (forall e, e ∈ evs -> Event_correlation_id e = sid /\
       forall s e', e' ∈ read_events r s -> Event_id e' <> Event_id e) /\
    NoDup (map Event_id evs) /\
    (forall c, cmd = Some c -> find_command r (CommandRecord_scope c) (CommandRecord_idempotency_key c) = None) /\
    (forall sc k, find_command r' sc k =
       match cmd with
       | Some c => if String.eqb sc (CommandRecord_scope c) && String.eqb k (CommandRecord_idempotency_key c)
                   then Some c else find_command r sc k
       | None => find_command r sc k
       end) /\
    CommitResult_revision res = revision r' sid /\ CommitResult_command res = cmd;
  (** A commit that finds its command key taken returns the recorded command. *)
  commit_duplicate r sid rev evs cmd res r' :
    commit r sid rev evs cmd = (Ok res, r') -> CommitResult_applied res = false ->
    r' = r /\ exists c c', cmd = Some c /\ CommitResult_command res = Some c' /\
      find_command r (CommandRecord_scope c) (CommandRecord_idempotency_key c) = Some c' /\
      CommitResult_revision res = revision r (CommandRecord_stream_id c');
  (** A rejected commit leaves every stream and every command as they were. *)
  commit_rejected r sid rev evs cmd e r' :
    commit r sid rev evs cmd = (Err e, r') ->
    (forall s, read_events r' s = read_events r s) /\
    (forall sc k, find_command r' sc k = find_command r sc k);
  (** The optimistic check: a writer whose revision is out of date is told so, retryably. *)
  commit_stale r sid rev evs cmd :
    (0 <= rev)%Z -> evs <> [] ->
    (forall c, cmd = Some c -> find_command r (CommandRecord_scope c) (CommandRecord_idempotency_key c) = None) ->
    revision r sid <> rev ->
    exists m r', commit r sid rev evs cmd =
      (Err (ContractError CONFLICT m true (stale_details rev (revision r sid))), r');
  (** Progress: a well-formed batch at the current revision is accepted. *)
  commit_accepts r sid evs cmd :
    evs <> [] ->
    (forall c, cmd = Some c -> find_command r (CommandRecord_scope c) (CommandRecord_idempotency_key c) = None) ->
    (forall e, e ∈ evs -> Event_correlation_id e = sid /\
       forall s e', e' ∈ read_events r s -> Event_id e' <> Event_id e) ->
    NoDup (map Event_id evs) ->
    exists res r', commit r sid (revision r sid) evs cmd = (Ok res, r') /\ CommitResult_applied res = true;
  (** Every stream with an event is listed. *)
  list_streams_complete r sid : read_events r sid <> [] -> sid ∈ list_stream_ids r
}.

(** ** [InMemoryKernelRepository] *)

Record InMemoryKernelRepository := Build_InMemoryKernelRepository {
  mem_streams : gmap string (list Event);
  mem_commands : gmap (string * string) CommandRecord
}.

Definition mem_empty : InMemoryKernelRepository := Build_InMemoryKernelRepository ∅ ∅.

Section in_memory.
Implicit Types m : InMemoryKernelRepository.

Definition mem_read_events m (stream_id : string) : list Event := default [] (mem_streams m !! stream_id).

Definition mem_find_command m (scope idempotency_key : string) : option CommandRecord :=
  mem_commands m !! (scope, idempotency_key).

Definition mem_list_stream_ids m : list string := sort_strs (map fst (map_to_list (mem_streams m))).

(** [{event.id for item in self._streams.values() for event in item}] *)
Definition mem_event_ids m : gset string :=
  list_to_set (map Event_id (concat (map snd (map_to_list (mem_streams m))))).

(** One iteration of the loop over the batch: the set of event ids seen so far. *)
Definition check_event (stream_id : string) (seen : gset string) (event : Event) : res (gset string) :=
  if negb (String.eqb (Event_correlation_id event) stream_id) then
    Err (contract_error CONTRACT_VIOLATION "event correlation_id must equal canonical stream id")
  else if bool_decide (Event_id event ∈ seen) then
    Err (contract_error CONFLICT ("duplicate event id: " +:+ Event_id event))
  else Ok ({[Event_id event]} ∪ seen).

(** [commit], under the repository lock. [setdefault] registers the stream before the checks. *)
Definition mem_commit m (stream_id : string) (expected_revision : Z) (events : list Event)
    (command : option CommandRecord) : res CommitResult * InMemoryKernelRepository :=
  if (expected_revision <? 0)%Z then (Err (ValueError "expected_revision must be >= 0"), m)
  else if bool_decide (length events = 0)
  then (Err (ValueError "kernel commits must contain at least one event"), m)
  else
    let existing := match command with
      | Some c => mem_find_command m (CommandRecord_scope c) (CommandRecord_idempotency_key c)
      | None => None
      end in
    match existing with
    | Some record =>
        (Ok (Build_CommitResult false
               (Z.of_nat (length (mem_read_events m (CommandRecord_stream_id record)))) (Some record)), m)
    | None =>
        let stream := mem_read_events m stream_id in
        let m1 := Build_InMemoryKernelRepository (<[stream_id := stream]> (mem_streams m)) (mem_commands m) in
        let actual_revision := Z.of_nat (length stream) in
        if negb (actual_revision =? expected_revision)%Z then
          (Err (ContractError CONFLICT
                  ("stale stream revision for " +:+ stream_id +:+ ": expected " +:+
                   pretty expected_revision +:+ ", actual " +:+ pretty actual_revision)
                  true (stale_details expected_revision actual_revision)), m1)
        else
          match fold_res (check_event stream_id) (mem_event_ids m1) events with
          | Err e => (Err e, m1)
          | Ok _ =>
              let commands := match command with
                | Some c => <[(CommandRecord_scope c, CommandRecord_idempotency_key c) := c]> (mem_commands m)
                | None => mem_commands m
                end in
              (Ok (Build_CommitResult true (Z.of_nat (length (stream ++ events))) command),
               Build_InMemoryKernelRepository (<[stream_id := stream ++ events]> (mem_streams m)) commands)
          end
    end.
End in_memory.

#[export] Instance mem_repository : EventRepository InMemoryKernelRepository := {|
  read_events := mem_read_events;
  find_command := mem_find_command;
  list_stream_ids := mem_list_stream_ids;
  commit := mem_commit
|}.

(** ** The in-memory repository keeps the contract *)

Lemma mem_read_insert m sid evs cmds s :
  mem_read_events (Build_InMemoryKernelRepository (<[sid := evs]> (mem_streams m)) cmds) s =
  if String.eqb s sid then evs else mem_read_events m s.
Proof.
  unfold mem_read_events; cbn. destruct (String.eqb_spec s sid) as [->|Hne].
  - by rewrite lookup_insert_eq.
  - by rewrite lookup_insert_ne by congruence.
Qed.

(** Registering a stream that was not there yet changes no reader's view. *)
Lemma mem_read_setdefault m sid s :
  mem_read_events (Build_InMemoryKernelRepository
    (<[sid := mem_read_events m sid]> (mem_streams m)) (mem_commands m)) s = mem_read_events m s.
Proof. rewrite mem_read_insert. by destruct (String.eqb_spec s sid) as [->|]. Qed.

Lemma elem_of_mem_event_ids m i :
  i ∈ mem_event_ids m <-> exists s e, e ∈ mem_read_events m s /\ Event_id e = i.
Proof.
  unfold mem_event_ids, mem_read_events. rewrite elem_of_list_to_set, list_elem_of_fmap. split.
  - intros (e & -> & He). apply list_elem_of_In, in_concat in He as (l & Hl & He).
    apply in_map_iff in Hl as ([s l'] & <- & Hs%list_elem_of_In%elem_of_map_to_list).
    exists s, e. cbn in *. rewrite Hs. split; [by apply list_elem_of_In|done].
  - intros (s & e & He & <-). exists e. split; [done|].
    destruct (mem_streams m !! s) as [l|] eqn:Hs; [|by apply not_elem_of_nil in He].
    apply list_elem_of_In, in_concat. exists l. split; [|by apply list_elem_of_In].
    apply in_map_iff. exists (s, l). split; [done|]. by apply list_elem_of_In, elem_of_map_to_list.
Qed.

(** The batch check accepts exactly the batches with the right stream and new, distinct ids. *)
Lemma check_events_ok sid seen evs :
  is_ok (fold_res (check_event sid) seen evs) = true <->
  (forall e, e ∈ evs -> Event_correlation_id e = sid /\ Event_id e ∉ seen) /\ NoDup (map Event_id evs).
Proof.
  revert seen. induction evs as [|e evs IH]; intros seen; cbn.
  - split; [intros _; split; [by intros e ?%elem_of_nil|constructor]|done].
  - unfold check_event at 1. destruct (String.eqb_spec (Event_correlation_id e) sid) as [Hc|Hc]; cbn.
    + case_bool_decide as Hin; cbn.
      * split; [done|]. intros [H _]. destruct (H e) as [_ Hn]; [by left|]. done.
      * rewrite IH, NoDup_cons, list_elem_of_fmap. split.
        -- intros [H Hnd]. split; [|split; [|done]].
           ++ intros e' [->|He']%elem_of_cons; [done|]. destruct (H e' He'). split; [done|set_solver].
           ++ intros (e' & Heq & He'). destruct (H e' He'). set_solver.
        -- intros (H & Hn & Hnd). split; [|done]. intros e' He'.
           destruct (H e') as [Hc' Hs]; [by right|]. split; [done|].
           rewrite elem_of_union, elem_of_singleton. intros [Heq|]; [|done]. apply Hn. by exists e'.
    + split; [done|]. intros [H _]. destruct (H e); [by left|]. done.
Qed.

(** The three outcomes of a commit that passed its argument checks. *)
Lemma mem_commit_cases m sid rev evs cmd :
  (0 <= rev)%Z -> evs <> [] ->
  let existing := match cmd with
    | Some c => mem_find_command m (CommandRecord_scope c) (CommandRecord_idempotency_key c)
    | None => None end in
  let m1 := Build_InMemoryKernelRepository (<[sid := mem_read_events m sid]> (mem_streams m)) (mem_commands m) in
  mem_commit m sid rev evs cmd =
  match existing with
  | Some record =>
      (Ok (Build_CommitResult false
             (Z.of_nat (length (mem_read_events m (CommandRecord_stream_id record)))) (Some record)), m)
  | None =>
      if bool_decide (Z.of_nat (length (mem_read_events m sid)) = rev) then
        match fold_res (check_event sid) (mem_event_ids m1) evs with
        | Err e => (Err e, m1)
        | Ok _ =>
            (Ok (Build_CommitResult true (Z.of_nat (length (mem_read_events m sid ++ evs))) cmd),
             Build_InMemoryKernelRepository (<[sid := mem_read_events m sid ++ evs]> (mem_streams m))
               (match cmd with
                | Some c => <[(CommandRecord_scope c, CommandRecord_idempotency_key c) := c]> (mem_commands m)
                | None => mem_commands m end))
        end
      else
        (Err (ContractError CONFLICT
                ("stale stream revision for " +:+ sid +:+ ": expected " +:+
                 pretty rev +:+ ", actual " +:+ pretty (Z.of_nat (length (mem_read_events m sid))))
                true (stale_details rev (Z.of_nat (length (mem_read_events m sid))))), m1)
  end.
Proof.
  intros Hrev Hevs. cbv zeta. unfold mem_commit.
  destruct (Z.ltb_spec rev 0); [lia|].
  rewrite bool_decide_eq_false_2 by (by rewrite length_zero_iff_nil).
  cbv zeta. case_match; [done|].
  case_bool_decide as Hd; [rewrite (proj2 (Z.eqb_eq _ _) Hd)|rewrite (proj2 (Z.eqb_neq _ _) Hd)]; done.
Qed.

Lemma mem_commit_args m sid rev evs cmd res m' :
  mem_commit m sid rev evs cmd = (Ok res, m') -> (0 <= rev)%Z /\ evs <> [].
Proof.
  unfold mem_commit. destruct (Z.ltb_spec rev 0); [done|].
  case_bool_decide as Hl; [done|]. intros _. split; [done|]. intros ->. done.
Qed.

Section laws.
Implicit Types m : InMemoryKernelRepository.

Lemma mem_commit_applied m sid rev evs cmd res m' :
  mem_commit m sid rev evs cmd = (Ok res, m') -> CommitResult_applied res = true ->
  revision m sid = rev /\ evs <> [] /\
  (forall s, mem_read_events m' s =
     if String.eqb s sid then mem_read_events m sid ++ evs else mem_read_events m s) /\
  (forall e, e ∈ evs -> Event_correlation_id e = sid /\
     forall s e', e' ∈ mem_read_events m s -> Event_id e' <> Event_id e) /\
  NoDup (map Event_id evs) /\
  (forall c, cmd = Some c ->
     mem_find_command m (CommandRecord_scope c) (CommandRecord_idempotency_key c) = None) /\
  (forall sc k, mem_find_command m' sc k =
     match cmd with
     | Some c => if String.eqb sc (CommandRecord_scope c) && String.eqb k (CommandRecord_idempotency_key c)
                 then Some c else mem_find_command m sc k
     | None => mem_find_command m sc k
     end) /\
  CommitResult_revision res = revision m' sid /\ CommitResult_command res = cmd.
Proof.
  intros Hc Happ. destruct (mem_commit_args _ _ _ _ _ _ _ Hc) as [Hrev Hevs].
  rewrite mem_commit_cases in Hc by done. cbv zeta in Hc.
  case_match eqn:Hex; [simplify_eq; done|].
  case_bool_decide as Hr; [|done].
  destruct (fold_res _ _ _) as [seen|] eqn:Hf; [|done]. simplify_eq.
  assert (is_ok (fold_res (check_event sid) (mem_event_ids (Build_InMemoryKernelRepository
    (<[sid:=mem_read_events m sid]> (mem_streams m)) (mem_commands m))) evs) = true) as Hok
    by (by rewrite Hf).
  apply check_events_ok in Hok as [Hfresh Hnd].
  split_and!; try done.
  - intros s. apply mem_read_insert.
  - intros e He. destruct (Hfresh e He) as [Hcorr Hid]. split; [done|]. intros s e' He' Heq.
    apply Hid, elem_of_mem_event_ids. exists s, e'. by rewrite mem_read_setdefault.
  - intros c ->. done.
  - intros sc k. unfold mem_find_command; cbn. destruct cmd as [c|]; [|done].
    destruct (String.eqb_spec sc (CommandRecord_scope c)) as [->|]; cbn;
      [destruct (String.eqb_spec k (CommandRecord_idempotency_key c)) as [->|]|].
    + by rewrite lookup_insert_eq.
    + by rewrite lookup_insert_ne by congruence.
    + by rewrite lookup_insert_ne by congruence.
  - unfold revision; cbn. by rewrite mem_read_insert, String.eqb_refl.
Qed.

Lemma mem_commit_duplicate m sid rev evs cmd res m' :
  mem_commit m sid rev evs cmd = (Ok res, m') -> CommitResult_applied res = false ->
  m' = m /\ exists c c', cmd = Some c /\ CommitResult_command res = Some c' /\
    mem_find_command m (CommandRecord_scope c) (CommandRecord_idempotency_key c) = Some c' /\
    CommitResult_revision res = revision m (CommandRecord_stream_id c').
Proof.
  intros Hc Happ. destruct (mem_commit_args _ _ _ _ _ _ _ Hc) as [Hrev Hevs].
  rewrite mem_commit_cases in Hc by done. cbv zeta in Hc.
  case_match eqn:Hex; simplify_eq; cbn in *.
  - split; [done|]. destruct cmd as [cm|]; [|done]. by eexists cm, _.
  - case_bool_decide; [|done]. case_match; by simplify_eq.
Qed.

Lemma mem_commit_rejected m sid rev evs cmd e m' :
  mem_commit m sid rev evs cmd = (Err e, m') ->
  (forall s, mem_read_events m' s = mem_read_events m s) /\
  (forall sc k, mem_find_command m' sc k = mem_find_command m sc k).
Proof.
  unfold mem_commit. intros Hc.
  repeat case_match; simplify_eq; try done; (split; [intros s; apply mem_read_setdefault|done]).
Qed.

Lemma mem_commit_stale m sid rev evs cmd :
  (0 <= rev)%Z -> evs <> [] ->
  (forall c, cmd = Some c ->
     mem_find_command m (CommandRecord_scope c) (CommandRecord_idempotency_key c) = None) ->
  revision m sid <> rev ->
  exists msg m', mem_commit m sid rev evs cmd =
    (Err (ContractError CONFLICT msg true (stale_details rev (revision m sid))), m').
Proof.
  intros Hrev Hevs Hcmd Hne. rewrite mem_commit_cases by done. cbv zeta.
  assert ((match cmd with Some c => mem_find_command m (CommandRecord_scope c)
    (CommandRecord_idempotency_key c) | None => None end) = None) as ->.
  { destruct cmd; [by apply Hcmd|done]. }
  rewrite bool_decide_eq_false_2 by exact Hne. eauto.
Qed.

Lemma mem_commit_accepts m sid evs cmd :
  evs <> [] ->
  (forall c, cmd = Some c ->
     mem_find_command m (CommandRecord_scope c) (CommandRecord_idempotency_key c) = None) ->
  (forall e, e ∈ evs -> Event_correlation_id e = sid /\
     forall s e', e' ∈ mem_read_events m s -> Event_id e' <> Event_id e) ->
  NoDup (map Event_id evs) ->
  exists res m', mem_commit m sid (revision m sid) evs cmd = (Ok res, m') /\ CommitResult_applied res = true.
Proof.
  intros Hevs Hcmd Hnew Hnd. rewrite mem_commit_cases by (done || unfold revision; lia). cbv zeta.
  assert ((match cmd with Some c => mem_find_command m (CommandRecord_scope c)
    (CommandRecord_idempotency_key c) | None => None end) = None) as ->.
  { destruct cmd; [by apply Hcmd|done]. }
  rewrite bool_decide_eq_true_2 by done.
  match goal with |- context [fold_res (check_event sid) ?s evs] =>
    assert (is_ok (fold_res (check_event sid) s evs) = true) as Hok end.
  { apply check_events_ok. split; [|done]. intros e He. destruct (Hnew e He) as [? Hid]. split; [done|].
    intros (s & e' & He' & Heq)%elem_of_mem_event_ids. rewrite mem_read_setdefault in He'.
    by apply (Hid s e'). }
  destruct (fold_res _ _ _); [|done]. eauto.
Qed.

Lemma mem_list_complete m sid : mem_read_events m sid <> [] -> sid ∈ mem_list_stream_ids m.
Proof.
  unfold mem_read_events, mem_list_stream_ids. rewrite elem_of_sort_strs.
  destruct (mem_streams m !! sid) as [l|] eqn:Hs; [|done]. intros _.
  apply list_elem_of_fmap. exists (sid, l). split; [done|]. by apply elem_of_map_to_list.
Qed.
End laws.

#[export] Instance mem_repository_laws : EventRepositoryLaws InMemoryKernelRepository := {|
  commit_applied := mem_commit_applied;
  commit_duplicate := mem_commit_duplicate;
  commit_rejected := mem_commit_rejected;
  commit_stale := mem_commit_stale;
  commit_accepts := mem_commit_accepts;
  list_streams_complete := mem_list_complete
|}.
