(* ===== verification/Programs.v ===== *)
(** * Coroutines as trees of awaited operations

    A coroutine interacts with the world at the points where it awaits. [prog R A] is a coroutine
    with result [A] that awaits operations [O], the operation [o] being answered by a value of [R o]
    or by an exception: a tree with the code's continuation after each reply. *)

From S2P Require Import Prelude Errors.

Inductive prog {O : Type} (R : O -> Type) (A : Type) : Type :=
| Ret (a : A)
| Raise (e : exc)
| Vis (o : O) (k : res (R o) -> prog R A).
Arguments Ret {O R A} a.
Arguments Raise {O R A} e.
Arguments Vis {O R A} o k.

#[export] Instance prog_ret {O} {R : O -> Type} : MRet (prog R) := fun A a => Ret a.
#[export] Instance prog_bind {O} {R : O -> Type} : MBind (prog R) := fun A B f =>
  fix go (p : prog R A) : prog R B :=
    match p with
    | Ret a => f a
    | Raise e => Raise e
    | Vis o k => Vis o (fun r => go (k r))
    end.

Section programs.
Context {O : Type} {R : O -> Type}.

(** [try: p except e: h e]. *)
Fixpoint catch {A} (p : prog R A) (h : exc -> prog R A) : prog R A :=
  match p with
  | Ret a => Ret a
  | Raise e => h e
  | Vis o k => Vis o (fun r => catch (k r) h)
  end.

(** [try: p except e: Err e else: Ok v], for a handler that resumes differently on success. *)
Fixpoint attempt {A} (p : prog R A) : prog R (res A) :=
  match p with
  | Ret a => Ret (Ok a)
  | Raise e => Ret (Err e)
  | Vis o k => Vis o (fun r => attempt (k r))
  end.

Definition lift {A} (r : res A) : prog R A := match r with Ok a => Ret a | Err e => Raise e end.

(** Await an operation. *)
Definition call (o : O) : prog R (R o) := Vis o lift.

(** [if not b: raise e]. *)
Definition guard (b : bool) (e : exc) : prog R unit := if b then Ret tt else Raise e.

(** Sequential loops over a list. *)
Fixpoint for_each {A B} (f : A -> prog R B) (l : list A) : prog R (list B) :=
  match l with
  | [] => Ret []
  | a :: l' => b ← f a; bs ← for_each f l'; Ret (b :: bs)
  end.
End programs.

(** ** Compound statements *)

(** [try: p finally: f]. *)
Definition finally {O} {R : O -> Type} {A} (p : prog R A) (f : prog R unit) : prog R A :=
  r ← attempt p; _ ← f; lift r.

(** [asyncio.gather]: the children advance in the order of the schedule, each one operation at a time,
    and what the schedule leaves is run in order. All children run to their end; if any failed, the
    exception of the one that failed first is raised (asyncio raises it while the others still run). *)
Section gather.
Context {O : Type} {R : O -> Type} {A : Type}.

Definition note_failure (failed : option exc) (child : prog R A) : option exc :=
  match failed, child with None, Raise e => Some e | _, _ => failed end.

Fixpoint interleave (schedule : list nat) (children : list (prog R A)) (failed : option exc) :
  prog R (list (res A) * option exc) :=
  match schedule with
  | [] => results ← for_each attempt children; Ret (results, failed)
  | i :: schedule' =>
      match children !! i with
      | Some (Vis o k) => Vis o (fun r => interleave schedule' (<[i := k r]> children) (note_failure failed (k r)))
      | _ => interleave schedule' children failed
      end
  end.

Definition gather (schedule : list nat) (children : list (prog R A)) : prog R (list A) :=
  outcome ← interleave schedule children None;
  match outcome.2 with
  | Some e => Raise e
  | None => lift (map_res id outcome.1)
  end.
End gather.

(** ** Executions

    One program alone, and any number of programs interleaved at their operations, over a world that
    answers the operations. *)
Section executions.
Context {O : Type} {R : O -> Type} {W : Type}.
Context (perform : forall o : O, W -> res (R o) * W).

Fixpoint execute {A} (p : prog R A) (w : W) : res A * W :=
  match p with
  | Ret a => (Ok a, w)
  | Raise e => (Err e, w)
  | Vis o k => let '(r, w') := perform o w in execute (k r) w'
  end.

(** The [i]-th program performs its next operation. *)
Definition advance_thread (i : nat) (c : list (prog R unit) * W) : list (prog R unit) * W :=
  match c.1 !! i with
  | Some (Vis o k) => let '(r, w') := perform o c.2 in (<[i := k r]> c.1, w')
  | _ => c
  end.

(** A run of the pool: which program moves at each turn. *)
Definition run_threads (turns : list nat) (c : list (prog R unit) * W) : list (prog R unit) * W :=
  foldl (fun c i => advance_thread i c) c turns.

Lemma run_threads_app turns more c : run_threads (turns ++ more) c = run_threads more (run_threads turns c).
Proof. apply foldl_app. Qed.

Lemma execute_bind {A B} (p : prog R A) (f : A -> prog R B) w :
  execute (p ≫= f) w = match execute p w with (Ok a, w') => execute (f a) w' | (Err e, w') => (Err e, w') end.
Proof.
  revert w. induction p as [a|e|o k IH]; intros w; [done..|]. cbn [mbind prog_bind execute].
  destruct (perform o w) as [r w']. apply IH.
Qed.

Lemma execute_call o w : execute (call o) w = perform o w.
Proof. cbn. by destruct (perform o w) as [[a|e] w']. Qed.

(** A property that every operation of every program keeps holds after any run. *)
Lemma run_threads_ind (I : list (prog R unit) * W -> Prop) turns c :
  I c -> (forall i o k c, c.1 !! i = Some (Vis o k) -> I c -> I (<[i := k (perform o c.2).1]> c.1, (perform o c.2).2)) ->
  I (run_threads turns c).
Proof.
  intros Hc Hstep. revert c Hc. induction turns as [|i turns IH]; intros c Hc; [done|]. cbn. apply IH.
  unfold advance_thread. destruct (c.1 !! i) as [[a|e|o k]|] eqn:Hi; [done..| |done].
  specialize (Hstep i o k c Hi Hc). by destruct (perform o c.2).
Qed.
End executions.
