(* ===== verification/Projection.v ===== *)
(** * Read models: kernel/models.py and the reducers of kernel/state.py

    A task's stream is folded, event by event, into a [TaskState] and, per run, a [RunState].
    The loop bodies [reduce_task_step] and [reduce_run_step] are the source's loop bodies on a
    record of its local variables; a [continue] is the end of a branch. *)

From S2P Require Import Prelude PyValue Errors Freeze Ident Lifecycle Domain Contracts EventStore.

(** ** kernel/models.py *)

Record TaskState := Build_TaskState {
  TaskState_task : Task;
  TaskState_revision : Z;
  TaskState_plan_ref : option string;
  TaskState_step_ids : list string;
  TaskState_run_ids : list string;
  TaskState_artifact_ids : list string;
  TaskState_result_ids : list string;
  TaskState_wait_reason : option string;
  TaskState_blocked : bool
}.
Definition TaskState_task_id (s : TaskState) : string := Task_id (TaskState_task s).
Definition TaskState_status (s : TaskState) : TaskStatus := Task_status (TaskState_task s).

Record RunState := Build_RunState {
  RunState_run : Run;
  RunState_revision : Z;
  RunState_backend_ref : option string;
  RunState_output : dict;
  RunState_artifact_ids : list string;
  RunState_result_ids : list string;
  RunState_dispatch_attempts : Z;
  RunState_recovery_required : bool;
  RunState_recovery_reason : option string
}.
Definition RunState_run_id (s : RunState) : string := Run_id (RunState_run s).
Definition RunState_attempt (s : RunState) : Z := Run_attempt (RunState_run s).
Definition RunState_status (s : RunState) : RunStatus := Run_status (RunState_run s).

(** ** Tables *)

Definition TASK_EVENT_STATUS : list (string * TaskStatus) :=
  [("task.ready", T_READY); ("task.running", T_RUNNING); ("task.waiting", T_WAITING);
   ("task.resumed", T_RUNNING); ("task.succeeded", T_SUCCEEDED); ("task.failed", T_FAILED);
   ("task.cancelled", T_CANCELLED)].

Definition RUN_EVENT_STATUS : list (string * RunStatus) :=
  [("run.starting", R_STARTING); ("run.running", R_RUNNING); ("run.succeeded", R_SUCCEEDED);
   ("run.failed", R_FAILED); ("run.cancelled", R_CANCELLED); ("run.timed_out", R_TIMED_OUT)].

(** ** Payload access *)

Definition string_field (event : Event) (key : string) : res string :=
  match get key (Event_payload event) with
  | VStr s =>
      if String.eqb s ""
      then Err (contract_error CONTRACT_VIOLATION
                  ("event " +:+ Event_event_type event +:+ " missing non-empty " +:+ key))
      else Ok s
  | _ => Err (contract_error CONTRACT_VIOLATION
                ("event " +:+ Event_event_type event +:+ " missing non-empty " +:+ key))
  end.

Definition optional_string (event : Event) (key : string) : res (option string) :=
  match get key (Event_payload event) with
  | VNone => Ok None
  | VStr s => Ok (Some s)
  | _ => Err (contract_error CONTRACT_VIOLATION
                ("event " +:+ Event_event_type event +:+ " has invalid " +:+ key))
  end.

Definition integer_field (event : Event) (key : string) : res Z :=
  match get key (Event_payload event) with
  | VInt z => Ok z
  | _ => Err (contract_error CONTRACT_VIOLATION
                ("event " +:+ Event_event_type event +:+ " missing integer " +:+ key))
  end.

(** [event.provenance or Provenance(source="platform-kernel")]; an empty details mapping freezes
    to itself, so the constructor cannot fail. *)
Definition event_provenance (event : Event) : Provenance :=
  match Event_provenance event with
  | Some p => p
  | None => Build_Provenance "platform-kernel" None []
  end.

(** ** Projected transitions *)

Definition transition_task (task : Task) (target : TaskStatus) (event : Event) : res Task :=
  if bool_decide (Task_status task = target) then Ok task
  else
    _ ← value_error_as (contract_error CONFLICT)
          (require_transition (Task_status task) target TASK_TRANSITIONS);
    Task_post_init
      (Task_set_status target (Task_set_updated_at (Event_occurred_at event)
        (Task_set_causation_id (Event_causation_id event)
          (Task_set_provenance (Some (event_provenance event)) task)))).

Definition transition_run (run : Run) (target : RunStatus) (event : Event) : res Run :=
  if bool_decide (Run_status run = target) then Ok run
  else
    _ ← value_error_as (contract_error CONFLICT)
          (require_transition (Run_status run) target RUN_TRANSITIONS);
    let occurred := Event_occurred_at event in
    let started_at :=
      if bool_decide (target = R_RUNNING) && bool_decide (Run_started_at run = None)
      then Some occurred else Run_started_at run in
    let finished_at :=
      if bool_decide (target ∈ [R_SUCCEEDED; R_FAILED; R_CANCELLED; R_TIMED_OUT])
      then Some occurred else Run_finished_at run in
    Run_post_init
      (Run_set_status target (Run_set_updated_at occurred
        (Run_set_causation_id (Event_causation_id event)
          (Run_set_provenance (Some (event_provenance event))
            (Run_set_started_at started_at (Run_set_finished_at finished_at run)))))).

(** ** [reduce_task] *)

(** The local variables of the loop. *)
Record TaskAcc := Build_TaskAcc {
  ta_task : option Task;
  ta_plan_ref : option string;
  ta_step_ids : list string;
  ta_run_ids : list string;
  ta_artifact_ids : list string;
  ta_result_ids : list string;
  ta_wait_reason : option string;
  ta_blocked : bool
}.
Definition task_acc0 : TaskAcc := Build_TaskAcc None None [] [] [] [] None false.

Definition ta_set_task (t : Task) (a : TaskAcc) : TaskAcc :=
  Build_TaskAcc (Some t) (ta_plan_ref a) (ta_step_ids a) (ta_run_ids a) (ta_artifact_ids a)
    (ta_result_ids a) (ta_wait_reason a) (ta_blocked a).
Definition ta_set_plan (p : string) (steps : list string) (a : TaskAcc) : TaskAcc :=
  Build_TaskAcc (ta_task a) (Some p) steps (ta_run_ids a) (ta_artifact_ids a) (ta_result_ids a)
    (ta_wait_reason a) (ta_blocked a).
Definition ta_set_runs (l : list string) (a : TaskAcc) : TaskAcc :=
  Build_TaskAcc (ta_task a) (ta_plan_ref a) (ta_step_ids a) l (ta_artifact_ids a) (ta_result_ids a)
    (ta_wait_reason a) (ta_blocked a).
Definition ta_set_artifacts (l : list string) (a : TaskAcc) : TaskAcc :=
  Build_TaskAcc (ta_task a) (ta_plan_ref a) (ta_step_ids a) (ta_run_ids a) l (ta_result_ids a)
    (ta_wait_reason a) (ta_blocked a).
Definition ta_set_results (l : list string) (a : TaskAcc) : TaskAcc :=
  Build_TaskAcc (ta_task a) (ta_plan_ref a) (ta_step_ids a) (ta_run_ids a) (ta_artifact_ids a) l
    (ta_wait_reason a) (ta_blocked a).
Definition ta_set_wait (r : option string) (b : bool) (a : TaskAcc) : TaskAcc :=
  Build_TaskAcc (ta_task a) (ta_plan_ref a) (ta_step_ids a) (ta_run_ids a) (ta_artifact_ids a)
    (ta_result_ids a) r b.

(** [if x not in xs: xs.append(x)] *)
Definition append_new (x : string) (l : list string) : list string := if in_strs x l then l else l ++ [x].

(** The branches of the loop body, for a task that exists, in the source's order. *)
Definition task_created (task_id : string) (event : Event) (a : TaskAcc) : res TaskAcc :=
  match ta_task a with
  | Some _ => Err (contract_error CONFLICT ("duplicate task creation: " +:+ task_id))
  | None =>
      owner_type ← string_field event "owner_type";
      owner_id ← string_field event "owner_id";
      title ← string_field event "title";
      objective ← string_field event "objective";
      let occurred := Event_occurred_at event in
      t ← Task_post_init
            (Build_Task title (Build_OwnerRef owner_type owner_id) task_id T_DRAFT None
               (Event_project_id event) objective (Some (Event_correlation_id event))
               (Event_causation_id event) occurred occurred SCHEMA_VERSION
               (Some (event_provenance event)) [] []);
      Ok (ta_set_task t a)
  end.

(** [{**task.metadata, **metadata_patch}], when there is a patch. *)
Definition updated_metadata (event : Event) (task : Task) : res dict :=
  match get "metadata" (Event_payload event) with
  | VNone => Ok (Task_metadata task)
  | VMap _ patch => Ok (dict_update (Task_metadata task) patch)
  | _ => Err (contract_error CONTRACT_VIOLATION "invalid task.updated metadata payload")
  end.

Definition updated_task (title objective : string) (metadata : dict) (event : Event) (task : Task) : Task :=
  Task_set_title title (Task_set_description objective (Task_set_metadata metadata
    (Task_set_updated_at (Event_occurred_at event)
      (Task_set_causation_id (Event_causation_id event)
        (Task_set_provenance (Some (event_provenance event)) task))))).

Definition task_updated (event : Event) (task : Task) (a : TaskAcc) : res TaskAcc :=
  let title := default (VStr (Task_title task)) (dict_get "title" (Event_payload event)) in
  let objective := default (VStr (Task_description task)) (dict_get "objective" (Event_payload event)) in
  match title, objective with
  | VStr title, VStr objective =>
      metadata ← updated_metadata event task;
      t ← Task_post_init (updated_task title objective metadata event task);
      Ok (ta_set_task t a)
  | _, _ => Err (contract_error CONTRACT_VIOLATION "invalid task.updated payload")
  end.

Definition task_project_reassigned (event : Event) (task : Task) (a : TaskAcc) : res TaskAcc :=
  source_project_id ← optional_string event "source_project_id";
  destination_project_id ← optional_string event "destination_project_id";
  _ ← require (bool_decide (source_project_id = Task_project_id task))
        (contract_error CONTRACT_VIOLATION
           "task.project_reassigned source does not match projected Task scope");
  _ ← require (bool_decide (Event_project_id event = source_project_id))
        (contract_error CONTRACT_VIOLATION
           "task.project_reassigned event must remain attributed to its source Project");
  _ ← value_error_as (fun _ => contract_error CONTRACT_VIOLATION
         "task.project_reassigned contains an invalid destination Project ID")
        (validate_optional_id destination_project_id "project");
  t ← Task_post_init
        (Task_set_project_id destination_project_id (Task_set_updated_at (Event_occurred_at event)
          (Task_set_causation_id (Event_causation_id event)
            (Task_set_provenance (Some (event_provenance event)) task))));
  Ok (ta_set_task t a).

Definition task_transitioned (event : Event) (target : TaskStatus) (task : Task) (a : TaskAcc) : res TaskAcc :=
  t ← transition_task task target event;
  if bool_decide (target = T_WAITING) then
    reason ← optional_string event "reason";
    Ok (ta_set_wait reason
          (truthy (default (VBool false) (dict_get "blocked" (Event_payload event)))) (ta_set_task t a))
  else Ok (ta_set_wait None false (ta_set_task t a)).

Definition plan_created (event : Event) (a : TaskAcc) : res TaskAcc :=
  plan_ref ← string_field event "plan_ref";
  match default (VSeq STuple []) (dict_get "step_refs" (Event_payload event)) with
  | VSeq _ raw_step_refs =>
      steps ← map_res (fun v =>
        match v with
        | VStr step_id =>
            value_error_as (fun _ => contract_error CONTRACT_VIOLATION
              "plan.created contains an invalid canonical Step ID") (validate_id step_id "step")
        | _ => Err (contract_error CONTRACT_VIOLATION
                      "plan.created step_refs must contain canonical Step IDs")
        end) raw_step_refs;
      Ok (ta_set_plan plan_ref steps a)
  | _ => Err (contract_error CONTRACT_VIOLATION "plan.created step_refs must be a sequence")
  end.

(** The tail of the body: run creation and attachments. *)
Definition task_attachments (task_id : string) (event : Event) (a : TaskAcc) : res TaskAcc :=
  created_here ← (if String.eqb (Event_event_type event) "run.created"
                  then s ← string_field event "task_id"; Ok (String.eqb s task_id)
                  else Ok false);
  if (created_here : bool) then Ok (ta_set_runs (append_new (Event_subject_id event) (ta_run_ids a)) a)
  else
    let belongs := String.eqb (Event_subject_id event) task_id ||
      (match get "task_id" (Event_payload event) with VStr s => String.eqb s task_id | _ => false end) in
    if String.eqb (Event_event_type event) "artifact.attached" && belongs then
      artifact_id ← string_field event "artifact_id";
      Ok (ta_set_artifacts (append_new artifact_id (ta_artifact_ids a)) a)
    else if String.eqb (Event_event_type event) "result.attached" && belongs then
      result_id ← string_field event "result_id";
      Ok (ta_set_results (append_new result_id (ta_result_ids a)) a)
    else Ok a.

Definition reduce_task_step (task_id : string) (a : TaskAcc) (event : Event) : res TaskAcc :=
  if negb (String.eqb (Event_correlation_id event) task_id) then
    Err (contract_error CONTRACT_VIOLATION
           ("event " +:+ Event_id event +:+ " is in the wrong task stream"))
  else
    let own := String.eqb (Event_subject_id event) task_id in
    if String.eqb (Event_event_type event) "task.created" && own then task_created task_id event a
    else
      match ta_task a with
      | None => Ok a
      | Some task =>
          if String.eqb (Event_event_type event) "task.updated" && own then task_updated event task a
          else if String.eqb (Event_event_type event) "task.project_reassigned" && own
          then task_project_reassigned event task a
          else
            match dict_get (Event_event_type event) TASK_EVENT_STATUS, own with
            | Some target, true => task_transitioned event target task a
            | _, _ =>
                if String.eqb (Event_event_type event) "plan.created" && own then plan_created event a
                else task_attachments task_id event a
            end
      end.

Definition reduce_task_acc (task_id : string) (events : list Event) : res TaskAcc :=
  fold_res (reduce_task_step task_id) task_acc0 events.

Definition reduce_task (events : list Event) (task_id : string) : res TaskState :=
  a ← reduce_task_acc task_id events;
  match ta_task a with
  | None => Err (contract_error NOT_FOUND ("task not found: " +:+ task_id))
  | Some task =>
      Ok (Build_TaskState task (Z.of_nat (length events)) (ta_plan_ref a) (ta_step_ids a) (ta_run_ids a)
            (ta_artifact_ids a) (ta_result_ids a) (ta_wait_reason a) (ta_blocked a))
  end.

(** ** [reduce_run] *)

Record RunAcc := Build_RunAcc {
  ra_run : option Run;
  ra_backend_ref : option string;
  ra_output : dict;
  ra_artifact_ids : list string;
  ra_result_ids : list string;
  ra_dispatch_attempts : Z;
  ra_recovery_required : bool;
  ra_recovery_reason : option string
}.
Definition run_acc0 : RunAcc := Build_RunAcc None None [] [] [] 0 false None.

Definition ra_set_run (r : Run) (a : RunAcc) : RunAcc :=
  Build_RunAcc (Some r) (ra_backend_ref a) (ra_output a) (ra_artifact_ids a) (ra_result_ids a)
    (ra_dispatch_attempts a) (ra_recovery_required a) (ra_recovery_reason a).
Definition ra_set_backend_ref (b : option string) (a : RunAcc) : RunAcc :=
  Build_RunAcc (ra_run a) b (ra_output a) (ra_artifact_ids a) (ra_result_ids a)
    (ra_dispatch_attempts a) (ra_recovery_required a) (ra_recovery_reason a).
Definition ra_set_output (o : dict) (a : RunAcc) : RunAcc :=
  Build_RunAcc (ra_run a) (ra_backend_ref a) o (ra_artifact_ids a) (ra_result_ids a)
    (ra_dispatch_attempts a) (ra_recovery_required a) (ra_recovery_reason a).
Definition ra_set_artifacts (l : list string) (a : RunAcc) : RunAcc :=
  Build_RunAcc (ra_run a) (ra_backend_ref a) (ra_output a) l (ra_result_ids a)
    (ra_dispatch_attempts a) (ra_recovery_required a) (ra_recovery_reason a).
Definition ra_set_results (l : list string) (a : RunAcc) : RunAcc :=
  Build_RunAcc (ra_run a) (ra_backend_ref a) (ra_output a) (ra_artifact_ids a) l
    (ra_dispatch_attempts a) (ra_recovery_required a) (ra_recovery_reason a).
Definition ra_set_dispatch (n : Z) (a : RunAcc) : RunAcc :=
  Build_RunAcc (ra_run a) (ra_backend_ref a) (ra_output a) (ra_artifact_ids a) (ra_result_ids a)
    n (ra_recovery_required a) (ra_recovery_reason a).
Definition ra_set_recovery (b : bool) (reason : option string) (a : RunAcc) : RunAcc :=
  Build_RunAcc (ra_run a) (ra_backend_ref a) (ra_output a) (ra_artifact_ids a) (ra_result_ids a)
    (ra_dispatch_attempts a) b reason.

Definition run_created (run_id : string) (event : Event) (a : RunAcc) : res RunAcc :=
  match ra_run a with
  | Some _ => Err (contract_error CONFLICT ("duplicate run creation: " +:+ run_id))
  | None =>
      owner_type ← string_field event "owner_type";
      owner_id ← string_field event "owner_id";
      let occurred := Event_occurred_at event in
      subject_type ← string_field event "subject_type";
      _ ← require (in_strs subject_type ["task"; "step"])
            (contract_error CONTRACT_VIOLATION "invalid run subject_type");
      subject_id ← string_field event "subject_id";
      attempt ← integer_field event "attempt";
      r ← Run_post_init
            (Build_Run subject_type subject_id (Build_OwnerRef owner_type owner_id)
               (Event_correlation_id event) run_id attempt R_QUEUED (Event_project_id event)
               (Event_causation_id event) None None occurred occurred None None SCHEMA_VERSION
               (Some (event_provenance event)) [] []);
      Ok (ra_set_run r a)
  end.

Definition run_transitioned (event : Event) (target : RunStatus) (run : Run) (a : RunAcc) : res RunAcc :=
  r ← transition_run run target event;
  let a1 := ra_set_run r a in
  a2 ← (if String.eqb (Event_event_type event) "run.running" then
          b ← optional_string event "backend_ref";
          let b' := match b with
                    | Some s => if String.eqb s "" then ra_backend_ref a1 else Some s
                    | None => ra_backend_ref a1 end in
          Ok (ra_set_backend_ref b' a1)
        else Ok a1);
  let a3 := match get "output" (Event_payload event) with
            | VMap _ o => ra_set_output o a2
            | _ => a2 end in
  Ok (if run_terminal target then ra_set_recovery false None a3 else a3).

Definition reduce_run_step (run_id : string) (a : RunAcc) (event : Event) : res RunAcc :=
  if negb (String.eqb (Event_subject_type event) "run") || negb (String.eqb (Event_subject_id event) run_id)
  then Ok a
  else if String.eqb (Event_event_type event) "run.created" then run_created run_id event a
  else
    match ra_run a with
    | None => Ok a
    | Some run =>
        if String.eqb (Event_event_type event) "run.dispatch_attempted"
        then Ok (ra_set_dispatch (ra_dispatch_attempts a + 1) a)
        else if String.eqb (Event_event_type event) "run.recovery_required" then
          reason ← optional_string event "reason"; Ok (ra_set_recovery true reason a)
        else if String.eqb (Event_event_type event) "run.recovery_cleared"
        then Ok (ra_set_recovery false None a)
        else
          match dict_get (Event_event_type event) RUN_EVENT_STATUS with
          | Some target => run_transitioned event target run a
          | None =>
              if String.eqb (Event_event_type event) "artifact.attached" then
                artifact_id ← string_field event "artifact_id";
                Ok (ra_set_artifacts (append_new artifact_id (ra_artifact_ids a)) a)
              else if String.eqb (Event_event_type event) "result.attached" then
                result_id ← string_field event "result_id";
                Ok (ra_set_results (append_new result_id (ra_result_ids a)) a)
              else Ok a
          end
    end.

Definition reduce_run_acc (run_id : string) (events : list Event) : res RunAcc :=
  fold_res (reduce_run_step run_id) run_acc0 events.

Definition reduce_run (events : list Event) (run_id : string) : res RunState :=
  a ← reduce_run_acc run_id events;
  match ra_run a with
  | None => Err (contract_error NOT_FOUND ("run not found: " +:+ run_id))
  | Some run =>
      Ok (Build_RunState run (Z.of_nat (length events)) (ra_backend_ref a) (ra_output a)
            (ra_artifact_ids a) (ra_result_ids a) (ra_dispatch_attempts a) (ra_recovery_required a)
            (ra_recovery_reason a))
  end.

(** ** The steps of a projected plan are canonical *)

Definition valid_step (step_id : string) : Prop := validate_id step_id "step" = Ok step_id.

Lemma reduce_task_step_ids task_id a e a' :
  Forall valid_step (ta_step_ids a) -> reduce_task_step task_id a e = Ok a' -> Forall valid_step (ta_step_ids a').
Proof.
  intros Ha. unfold reduce_task_step. destruct (negb _); [done|].
  destruct (_ && _).
  { unfold task_created. destruct (ta_task a); [done|]. intros H. by res_inv. }
  destruct (ta_task a) as [t|]; [|by intros [= <-]].
  destruct (_ && _).
  { unfold task_updated. destruct (default (VStr (Task_title t)) (dict_get "title" (Event_payload e))),
      (default (VStr (Task_description t)) (dict_get "objective" (Event_payload e))); try done.
    intros H. by res_inv. }
  destruct (_ && _); [unfold task_project_reassigned; intros H; by res_inv|].
  assert (forall a', task_attachments task_id e a = Ok a' -> Forall valid_step (ta_step_ids a')) as Hatt.
  { intros a1. unfold task_attachments. intros H. res_inv. destruct x; [by res_inv|].
    destruct (_ && _); [by res_inv|]. destruct (_ && _); by res_inv. }
  assert (forall a', plan_created e a = Ok a' -> Forall valid_step (ta_step_ids a')) as Hplan.
  { intros a1. unfold plan_created. intros H. res_inv. destruct (default (VSeq STuple []) (dict_get "step_refs" (Event_payload e))) as [| | | | |? raw| | |]; try done.
    res_inv. cbn. rewrite map_res_ok in *.
    match goal with Hr : Forall2 _ raw _ |- _ => induction Hr as [|v i raw ids Hv _ IH]; [constructor|constructor; [|exact IH]] end.
    destruct v as [| | | |v| | | |]; try done. apply value_error_as_ok in Hv. unfold valid_step.
    by rewrite (validate_id_ok_eq _ _ _ Hv) at 1. }
  destruct (dict_get _ _) as [target|]; [|destruct (_ && _); auto].
  destruct (String.eqb _ task_id); [|cbn; rewrite andb_false_r; auto].
  unfold task_transitioned. intros H. res_inv. destruct (bool_decide _); by res_inv.
Qed.

Lemma reduce_task_steps events task_id task :
  reduce_task events task_id = Ok task -> Forall valid_step (TaskState_step_ids task).
Proof.
  unfold reduce_task. intros H. res_inv. destruct (ta_task _) as [t|]; [|done]. injection H as <-. cbn.
  apply (fold_res_ind (fun a => Forall valid_step (ta_step_ids a)) (reduce_task_step task_id) task_acc0 events x);
    [constructor| |done]. intros a e a' _. apply reduce_task_step_ids.
Qed.
