(* ===== verification/Effects.v ===== *)
(** * Effects of the kernel

    The kernel's coroutines interact with the world at the points where they await the event
    repository, the orchestrator, the lifecycle backend, the completion authority, the event sink
    or the observer, read the clock, or draw a UUID. A coroutine is a [prog] over these operations. Two semantics are given: [exec] runs
    one coroutine alone, and [pool_step] interleaves any number of them at their operations. *)

From S2P Require Import Prelude PyValue Errors Freeze Ident Lifecycle Domain Contracts EventStore.
From S2P Require Export Programs.

Inductive op :=
| OpNow                                                  (* utc_now() *)
| OpUuid                                                 (* uuid4() *)
| OpRead (stream_id : string)                            (* EventRepository.read_events *)
| OpFind (scope key : string)                            (* EventRepository.find_command *)
| OpCommit (stream_id : string) (expected_revision : Z) (events : list Event)
    (command : option CommandRecord)                     (* EventRepository.commit *)
| OpListStreams                                          (* EventRepository.list_stream_ids *)
| OpPlan (request : PlanRequest)                         (* Orchestrator.plan *)
| OpStart (request : ExecutionRequest)                   (* LifecycleBackend.start *)
| OpGet (run_id : string) (context : OperationContext)   (* LifecycleBackend.get *)
| OpCancel (run_id : string) (context : OperationContext) (* LifecycleBackend.cancel *)
| OpAssess (task_id : string)                            (* CompletionAuthority.assess_task_completion *)
| OpInvalidate (task_id : string)                        (* ...invalidate_task_subject *)
| OpPublish (event : Event)                              (* EventProvider.publish *)
| OpObserve (event : Event).                             (* OutputAttachmentObserver.output_attached *)

Definition reply (o : op) : Type :=
  match o with
  | OpNow => Z
  | OpUuid => string
  | OpRead _ => list Event
  | OpFind _ _ => option CommandRecord
  | OpCommit _ _ _ _ => CommitResult
  | OpListStreams => list string
  | OpPlan _ => PlanResponse
  | OpStart _ => ExecutionHandle
  | OpGet _ _ | OpCancel _ _ => ExecutionSnapshot
  | OpAssess _ => CompletionGateDecision
  | OpInvalidate _ | OpPublish _ | OpObserve _ => unit
  end.

(** The coroutines of the kernel. *)
Abbreviation prog := (Programs.prog reply).
Abbreviation call := (Programs.call (R := reply)).

Definition utc_now : prog Z := call OpNow.
Definition new_id (prefix : string) : prog string := u ← call OpUuid; Ret (id_of_uuid prefix u).

(** ** The environment

    Everything outside the kernel and its repository, as functions of the moment of the call:
    arbitrary clocks, planners, backends, authorities, sinks and observers. *)
Record env := Build_env {
  env_now : nat -> Z;
  env_uuid : nat -> string;
  env_plan : nat -> PlanRequest -> res PlanResponse;
  env_start : nat -> ExecutionRequest -> res ExecutionHandle;
  env_get : nat -> string -> OperationContext -> res ExecutionSnapshot;
  env_cancel : nat -> string -> OperationContext -> res ExecutionSnapshot;
  env_assess : nat -> string -> res CompletionGateDecision;
  env_invalidate : nat -> string -> res unit;
  env_publish : nat -> Event -> res unit;
  env_observe : nat -> Event -> res unit
}.

(** What [uuid4] documents: canonical text, and no value twice among the first [bound] draws. *)
Record uuid_source_ok (E : env) (bound : nat) : Prop := {
  uuid_canonical n : canonical_payload (env_uuid E n);
  uuid_distinct n m : n < bound -> m < bound -> env_uuid E n = env_uuid E m -> n = m
}.

(** The world: the repository, the number of operations performed, and the operations that went
    outside the platform, latest first. *)
Record world (R : Type) := Build_world { repo : R; clock : nat; calls : list op }.
Arguments Build_world {R}.
Arguments repo {R}.
Arguments clock {R}.
Arguments calls {R}.

Section semantics.
Context {R : Type} `{EventRepository R}.
Context (E : env).

Definition hist (w : world R) (stream_id : string) : list Event := read_events (repo w) stream_id.

(** The reply values are constructed by the participants through the contract dataclasses, so
    they have passed the constructors' checks. *)
Definition do_op (o : op) (w : world R) : res (reply o) * world R :=
  let n := clock w in
  let quiet := Build_world (repo w) (S n) (calls w) in
  let logged := Build_world (repo w) (S n) (o :: calls w) in
  match o return res (reply o) * world R with
  | OpNow => (Ok (env_now E n), quiet)
  | OpUuid => (Ok (env_uuid E n), quiet)
  | OpRead s => (Ok (read_events (repo w) s), quiet)
  | OpFind sc k => (Ok (find_command (repo w) sc k), quiet)
  | OpCommit s rev evs cmd =>
      let '(r, repo') := commit (repo w) s rev evs cmd in (r, Build_world repo' (S n) (calls w))
  | OpListStreams => (Ok (list_stream_ids (repo w)), quiet)
  | OpPlan req =>
      (resp ← env_plan E n req;
       _ ← map_res PlanStepProposal_post_init (PlanResponse_steps resp);
       PlanResponse_post_init resp, logged)
  | OpStart req => (env_start E n req ≫= ExecutionHandle_post_init, logged)
  | OpGet rid ctx => (env_get E n rid ctx ≫= ExecutionSnapshot_post_init, logged)
  | OpCancel rid ctx => (env_cancel E n rid ctx ≫= ExecutionSnapshot_post_init, logged)
  | OpAssess t => (env_assess E n t ≫= CompletionGateDecision_post_init, logged)
  | OpInvalidate t => (env_invalidate E n t, logged)
  | OpPublish e => (env_publish E n e, logged)
  | OpObserve e => (env_observe E n e, logged)
  end.

(** One coroutine, run alone to its end: programs are finite trees, so it always ends. *)
Fixpoint exec {A} (p : prog A) (w : world R) : res A * world R :=
  match p with
  | Ret a => (Ok a, w)
  | Raise e => (Err e, w)
  | Vis o k => let '(r, w') := do_op o w in exec (k r) w'
  end.

(** Any number of coroutines over one world: a step performs the next operation of one of them. *)
Inductive pool_step : list (prog unit) * world R -> list (prog unit) * world R -> Prop :=
| pool_step_op i pool o k w :
    pool !! i = Some (Vis o k) ->
    pool_step (pool, w) (<[i := k (do_op o w).1]> pool, (do_op o w).2).

Inductive pool_reach (c0 : list (prog unit) * world R) : list (prog unit) * world R -> Prop :=
| pool_reach_refl : pool_reach c0 c0
| pool_reach_step c c' : pool_reach c0 c -> pool_step c c' -> pool_reach c0 c'.
End semantics.

Lemma exec_bind {R} `{EventRepository R} E {A B} (p : prog A) (f : A -> prog B) (w : world R) :
  exec E (p ≫= f) w =
  match exec E p w with (Ok a, w') => exec E (f a) w' | (Err e, w') => (Err e, w') end.
Proof.
  revert w. induction p as [a|e|o k IH]; intros w; [done..|]. cbn [mbind prog_bind exec].
  destruct (do_op E o w) as [r w']. apply IH.
Qed.

Lemma exec_catch {R} `{EventRepository R} E {A} (p : prog A) h (w : world R) :
  exec E (catch p h) w =
  match exec E p w with (Err e, w') => exec E (h e) w' | r => r end.
Proof.
  revert w. induction p as [a|e|o k IH]; intros w; [done| |].
  { by cbn; destruct (exec E (h e) w). }
  cbn [catch exec]. destruct (do_op E o w) as [r w']. apply IH.
Qed.

(** Running one coroutine of a pool to its end is an interleaving. *)
Lemma pool_reach_trans {R} `{EventRepository R} E (c0 c1 c2 : list (prog unit) * world R) :
  pool_reach E c0 c1 -> pool_reach E c1 c2 -> pool_reach E c0 c2.
Proof. intros H1. induction 1; [done|]. econstructor; eauto. Qed.

Lemma pool_reach_exec {R} `{EventRepository R} E i (pool : list (prog unit)) p (w : world R) :
  pool !! i = Some p -> exists pool', length pool' = length pool /\
    (forall j, j <> i -> pool' !! j = pool !! j) /\ pool_reach E (pool, w) (pool', (exec E p w).2).
Proof.
  revert pool w. induction p as [a|e|o k IH]; intros pool w Hi; cbn; [by exists pool; split_and!; [..|constructor]..|].
  destruct (do_op E o w) as [r w'] eqn:Ed.
  destruct (IH r (<[i := k r]> pool) w') as (pool' & Hlen & Hrest & Hr).
  { apply list_lookup_insert_eq. by eapply lookup_lt_Some. }
  exists pool'. split_and!.
  - by rewrite Hlen, length_insert.
  - intros j Hj. rewrite Hrest by done. by apply list_lookup_insert_ne.
  - eapply pool_reach_trans; [|exact Hr]. eapply pool_reach_step; [constructor|].
    pose proof (pool_step_op E i pool o k w Hi) as Hs. by rewrite Ed in Hs.
Qed.
