(* ===== verification/CommitSupport.v ===== *)
(** * Shared kernel mechanics: kernel/commit_support.py and kernel/queries.py

    Idempotency lookup, event construction, optimistic commits, mirroring, operation contexts, and
    the read-only queries over tasks and runs. *)

From S2P Require Import Prelude PyValue Errors Freeze Ident Lifecycle Domain Contracts EventStore.
From S2P Require Import Projection Effects.

(** Which optional collaborators the kernel was built with. *)
Record KernelConfig := Build_KernelConfig {
  has_event_sink : bool;
  has_completion_authority : bool;
  authority_output_aware : bool;     (* isinstance(authority, OutputChangeAware...) *)
  has_async_authority : bool
}.

Definition KERNEL_SOURCE : string := "platform-kernel".

(** [EventSpec]: event type, subject type, subject id, payload, adapter metadata. *)
Record EventSpec := Build_EventSpec {
  spec_event_type : string;
  spec_subject_type : string;
  spec_subject_id : string;
  spec_payload : dict;
  spec_adapter_metadata : list AdapterMetadata
}.

(** [f"{owner.type}:{owner.id}"] *)
Definition owner_text (o : OwnerRef) : string := OwnerRef_type o +:+ ":" +:+ OwnerRef_id o.

(** [cond or ...] tests on a task status set. *)
Definition status_in {S} `{EqDecision S} (s : S) (l : list S) : bool := bool_decide (s ∈ l).

Section commit_support.
Context (cfg : KernelConfig).

Definition require_key (key : string) : prog unit :=
  guard (negb (blank key)) (contract_error INVALID_REQUEST "idempotency key must not be blank").

Definition require_same_command (record : option CommandRecord) (operation key : string) : prog CommandRecord :=
  match record with
  | None => Raise (contract_error CONFLICT ("idempotency race lost for " +:+ key))
  | Some r =>
      if String.eqb (CommandRecord_operation r) operation then Ret r
      else Raise (contract_error CONFLICT
                    ("idempotency key " +:+ py_repr key +:+ " already belongs to " +:+
                     CommandRecord_operation r))
  end.

Definition existing_command (scope key operation : string) : prog (option CommandRecord) :=
  record ← call (OpFind scope key);
  match record with
  | None => Ret None
  | Some _ => r ← require_same_command record operation key; Ret (Some r)
  end.

Definition task_command (task_id key operation : string) : prog (option CommandRecord) :=
  _ ← require_key key;
  existing_command task_id key operation.

(** The payload enrichment of [event]. *)
Definition enrich (payload : dict) (actor_ref source : string) (revision : Z)
    (adapter_metadata : list AdapterMetadata) : res dict :=
  let enriched := dict_update payload
    [("actor_ref", VStr actor_ref); ("source", VStr source);
     ("canonical_payload_version", VStr "1.0"); ("stream_revision", VInt revision)] in
  match adapter_metadata with
  | [] => Ok enriched
  | _ =>
      let namespaces := map AdapterMetadata_namespace adapter_metadata in
      if bool_decide (NoDup namespaces) then
        Ok (dict_set "adapter_metadata"
              (VMap MDict (map (fun item => (AdapterMetadata_namespace item,
                                             VMap MDict (AdapterMetadata_values item))) adapter_metadata))
              enriched)
      else Err (contract_error CONTRACT_VIOLATION "adapter metadata namespaces must be unique")
  end.

Definition event (stream_id event_type subject_type subject_id causation_id owner_type owner_id : string)
    (project_id : option string) (actor_ref source : string) (revision : Z) (payload : dict)
    (adapter_metadata : list AdapterMetadata) : prog Event :=
  enriched ← lift (enrich payload actor_ref source revision adapter_metadata);
  provenance ← lift (Provenance_post_init (Build_Provenance source (Some actor_ref) []));
  id ← new_id "event";
  occurred_at ← utc_now;
  lift (Event_post_init
    (Build_Event event_type subject_type subject_id stream_id id
       (Some (Build_OwnerRef owner_type owner_id)) project_id (Some causation_id) None occurred_at
       enriched SCHEMA_VERSION (Some provenance) [])).

(** One element of the generator of [build_events]. *)
Definition build_event (task : TaskState) (causation_id : string) (actor_ref : option string)
    (source : string) (offset : Z) (spec : EventSpec) : prog Event :=
  let t := TaskState_task task in
  event (TaskState_task_id task) (spec_event_type spec) (spec_subject_type spec) (spec_subject_id spec)
    causation_id (OwnerRef_type (Task_owner_ref t)) (OwnerRef_id (Task_owner_ref t)) (Task_project_id t)
    (or_else actor_ref (owner_text (Task_owner_ref t))) source (TaskState_revision task + offset)
    (spec_payload spec) (spec_adapter_metadata spec).

(** [enumerate(event_specs, start=offset)] *)
Fixpoint build_events_from (task : TaskState) (causation_id : string) (actor_ref : option string)
    (source : string) (offset : Z) (specs : list EventSpec) : prog (list Event) :=
  match specs with
  | [] => Ret []
  | spec :: specs' =>
      e ← build_event task causation_id actor_ref source offset spec;
      es ← build_events_from task causation_id actor_ref source (offset + 1) specs';
      Ret (e :: es)
  end.

Definition build_events (task : TaskState) (causation_id : string) (actor_ref : option string)
    (source : string) (event_specs : list EventSpec) : prog (list Event) :=
  build_events_from task causation_id actor_ref source 1 event_specs.

Definition command (scope key operation stream_id result_id : string) (e : Event) : CommandRecord :=
  Build_CommandRecord scope key operation stream_id result_id (Event_id e).

Definition mirror (events : list Event) : prog unit :=
  if has_event_sink cfg
  then _ ← for_each (fun e => call (OpPublish e)) events; Ret tt
  else Ret tt.

(** [events[0]]. *)
Definition first_event (events : list Event) : prog Event :=
  match events with e :: _ => Ret e | [] => Raise (RuntimeError "tuple index out of range") end.

Definition commit_task_command (task : TaskState) (key operation : string) (event_specs : list EventSpec)
    (result_id : string) (actor_ref : option string) (source : string) : prog CommandRecord :=
  _ ← require_key key;
  existing ← existing_command (TaskState_task_id task) key operation;
  match existing with
  | Some record => Ret record
  | None =>
      events ← build_events task key actor_ref source event_specs;
      first ← first_event events;
      let cmd := command (TaskState_task_id task) key operation (TaskState_task_id task) result_id first in
      result ← call (OpCommit (TaskState_task_id task) (TaskState_revision task) events (Some cmd));
      if CommitResult_applied result
      then _ ← mirror events; Ret cmd
      else require_same_command (CommitResult_command result) operation key
  end.

Definition append_system_events (task : TaskState) (causation_id : string) (actor_ref : option string)
    (source : string) (event_specs : list EventSpec) : prog unit :=
  events ← build_events task causation_id actor_ref source event_specs;
  _ ← call (OpCommit (TaskState_task_id task) (TaskState_revision task) events None);
  mirror events.

Definition context (task : TaskState) (causation_id : string) : prog OperationContext :=
  let t := TaskState_task task in
  control ← lift (OperationControl_post_init
                    (Build_OperationControl None (Some causation_id) RETRY_IDEMPOTENT));
  lift (OperationContext_post_init
    (Build_OperationContext (TaskState_task_id task) (Some causation_id)
       (Some (OwnerRef_type (Task_owner_ref t))) (Some (OwnerRef_id (Task_owner_ref t)))
       (Task_project_id t) control)).
End commit_support.

(** ** kernel/queries.py *)

Definition get_task (task_id : string) : prog TaskState :=
  _ ← lift (validate_id task_id "task");
  events ← call (OpRead task_id);
  lift (reduce_task events task_id).

Definition get_run (task_id run_id : string) : prog RunState :=
  _ ← lift (validate_id task_id "task");
  _ ← lift (validate_id run_id "run");
  events ← call (OpRead task_id);
  run ← lift (reduce_run events run_id);
  if String.eqb (Run_correlation_id (RunState_run run)) task_id then Ret run
  else Raise (contract_error NOT_FOUND ("run " +:+ run_id +:+ " does not belong to task " +:+ task_id)).

Definition history (task_id : string) : prog (list Event) :=
  _ ← lift (validate_id task_id "task");
  call (OpRead task_id).

Definition validate_run_subject (task : TaskState) (subject_type subject_id : string) : prog unit :=
  if String.eqb subject_type "task" then
    guard (String.eqb subject_id (TaskState_task_id task))
      (contract_error CONFLICT ("task run subject " +:+ subject_id +:+
         " does not match owning task " +:+ TaskState_task_id task))
  else
    match TaskState_plan_ref task with
    | None => Raise (contract_error CONFLICT ("task " +:+ TaskState_task_id task +:+
                       " has no canonical plan for step run " +:+ subject_id))
    | Some plan_ref =>
        guard (in_strs subject_id (TaskState_step_ids task))
          (contract_error CONFLICT ("step " +:+ subject_id +:+ " does not belong to current plan " +:+
             plan_ref +:+ " for task " +:+ TaskState_task_id task))
    end.

(** [for run_id in task.run_ids: run = await get_run(...)], keeping the runs that pass the test. *)
Fixpoint collect_runs (task_id : string) (keep : RunState -> bool) (run_ids : list string) : prog (list RunState) :=
  match run_ids with
  | [] => Ret []
  | run_id :: run_ids' =>
      run ← get_run task_id run_id;
      rest ← collect_runs task_id keep run_ids';
      Ret (if keep run then run :: rest else rest)
  end.

Definition run_is_active (run : RunState) : bool := negb (run_terminal (RunState_status run)).
Definition run_for_subject (subject_type subject_id : string) (run : RunState) : bool :=
  String.eqb (Run_subject_type (RunState_run run)) subject_type &&
  String.eqb (Run_subject_id (RunState_run run)) subject_id.

Definition active_runs (task : TaskState) : prog (list RunState) :=
  collect_runs (TaskState_task_id task) run_is_active (TaskState_run_ids task).

(** The first run, in the given order, that passes the test; later runs are not read. *)
Fixpoint find_run (task_id : string) (want : RunState -> bool) (run_ids : list string) : prog (option RunState) :=
  match run_ids with
  | [] => Ret None
  | run_id :: run_ids' =>
      run ← get_run task_id run_id;
      if want run then Ret (Some run) else find_run task_id want run_ids'
  end.

Definition active_run_for_subject (task : TaskState) (subject_type subject_id : string) : prog (option RunState) :=
  find_run (TaskState_task_id task)
    (fun run => run_for_subject subject_type subject_id run && run_is_active run)
    (rev (TaskState_run_ids task)).

Definition next_attempt (task : TaskState) (subject_type subject_id : string) : prog Z :=
  runs ← collect_runs (TaskState_task_id task) (run_for_subject subject_type subject_id)
           (TaskState_run_ids task);
  Ret (foldl (fun latest run => Z.max latest (RunState_attempt run)) 0%Z runs + 1)%Z.

Definition latest_active_run (task : TaskState) : prog (option RunState) :=
  find_run (TaskState_task_id task) run_is_active (rev (TaskState_run_ids task)).
