(* ===== verification/KernelLifecycle.v ===== *)
(** * Lifecycle reconciliation: kernel/lifecycle.py

    Backend dispatch, snapshot reconciliation, construction of terminal transitions and recovery
    markers of the class [KernelLifecycleReconciler]. *)

From S2P Require Import Prelude PyValue Errors Freeze Ident Lifecycle Domain Contracts EventStore.
From S2P Require Import Projection Effects CommitSupport.

(** [_TERMINAL_EXECUTION_TO_RUN[status]]: a missing key raises [KeyError]. *)
Definition TERMINAL_EXECUTION_TO_RUN (status : ExecutionStatus) : res RunStatus :=
  match status with
  | R_SUCCEEDED => Ok R_SUCCEEDED
  | R_FAILED => Ok R_FAILED
  | R_CANCELLED => Ok R_CANCELLED
  | R_TIMED_OUT => Ok R_TIMED_OUT
  | R_QUEUED | R_STARTING | R_RUNNING => Err (KeyError (enum_value status))
  end.

Definition SERVICE_ACTOR : string := "service:platform-kernel".

(** Event specifications with an empty adapter metadata tuple. *)
Definition run_spec (event_type run_id : string) (payload : dict) : EventSpec :=
  Build_EventSpec event_type "run" run_id payload [].
Definition task_spec (event_type task_id : string) (payload : dict) : EventSpec :=
  Build_EventSpec event_type "task" task_id payload [].

Definition wrong_run (snapshot : ExecutionSnapshot) (run_id : string) : prog unit :=
  guard (String.eqb (ExecutionSnapshot_run_id snapshot) run_id)
    (contract_error BACKEND_ERROR "backend snapshot has wrong run id").

Section reconciler.
Context (cfg : KernelConfig).

Definition dispatch_started_run (task_id run_id causation_id : string) (actor_ref : option string)
    (source : string) : prog unit :=
  task ← get_task task_id;
  run ← get_run task_id run_id;
  if negb (bool_decide (RunState_status run = R_STARTING)) then Ret tt
  else
    _ ← append_system_events cfg task causation_id actor_ref source
          [run_spec "run.dispatch_attempted" run_id
             [("dispatch_attempt", VInt (RunState_dispatch_attempts run + 1))]];
    task ← get_task task_id;
    run ← get_run task_id run_id;
    ctx ← context task causation_id;
    request ← lift (ExecutionRequest_post_init
      (Build_ExecutionRequest run_id (Run_subject_type (RunState_run run))
         (Run_subject_id (RunState_run run)) ctx
         (match TaskState_plan_ref task with Some p => [("plan_ref", VStr p)] | None => [] end)));
    handle ← call (OpStart request);
    _ ← guard (String.eqb (ExecutionHandle_run_id handle) run_id)
          (contract_error BACKEND_ERROR
             ("lifecycle backend returned handle for wrong run: " +:+ ExecutionHandle_run_id handle));
    task ← get_task task_id;
    run ← get_run task_id run_id;
    if negb (bool_decide (RunState_status run = R_STARTING)) then Ret tt
    else
      append_system_events cfg task causation_id actor_ref source
        (Build_EventSpec "run.running" "run" run_id
           (match ExecutionHandle_backend_ref handle with
            | Some b => [("backend_ref", VStr b)] | None => [] end)
           (ExecutionHandle_adapter_metadata handle) ::
         (if RunState_recovery_required run then [run_spec "run.recovery_cleared" run_id []] else []) ++
         (if bool_decide (TaskState_status task = T_READY) then [task_spec "task.running" task_id []] else [])).

Definition mark_recovery_required (task_id run_id reason causation_id : string) : prog unit :=
  task ← get_task task_id;
  run ← get_run task_id run_id;
  if RunState_recovery_required run then Ret tt
  else append_system_events cfg task causation_id (Some SERVICE_ACTOR) "recovery"
         [run_spec "run.recovery_required" run_id [("reason", VStr reason)]].

Definition clear_recovery_if_needed (task_id run_id causation_id source : string) : prog unit :=
  task ← get_task task_id;
  run ← get_run task_id run_id;
  if negb (RunState_recovery_required run) then Ret tt
  else append_system_events cfg task causation_id (Some SERVICE_ACTOR) source
         [run_spec "run.recovery_cleared" run_id []].

Definition running_specs (task : TaskState) (run : RunState) (snapshot : ExecutionSnapshot) : prog (list EventSpec) :=
  if bool_decide (RunState_status run = R_RUNNING) then Ret []
  else if negb (bool_decide (RunState_status run = R_STARTING)) then
    Raise (contract_error CONFLICT ("backend reports running while canonical run is " +:+
                                    enum_value (RunState_status run)))
  else
    Ret (Build_EventSpec "run.running" "run" (RunState_run_id run) []
           (ExecutionSnapshot_adapter_metadata snapshot) ::
         (if bool_decide (TaskState_status task = T_READY)
          then [task_spec "task.running" (TaskState_task_id task) [("reconciled", VBool true)]] else [])).

Definition verification_subject_value (s : VerificationSubject) : pyval :=
  VMap MDict [("type", VStr (VerificationSubject_subject_type s));
              ("id", VStr (VerificationSubject_subject_id s));
              ("revision", VStr (VerificationSubject_revision s));
              ("digest", VStr (VerificationSubject_digest s))].

(** The payload of the [task.waiting] specification of a decision that does not accept. *)
Definition completion_payload (decision : CompletionGateDecision) : dict :=
  let state := enum_value (CompletionGateDecision_state decision) in
  [("reason", VStr ("verification:" +:+ state)); ("blocked", VBool true);
   ("verification_state", VStr state);
   ("verification_reason", VStr (CompletionGateDecision_reason decision));
   ("repair_attempts_remaining", VInt (CompletionGateDecision_repair_attempts_remaining decision))] ++
  (match CompletionGateDecision_policy_id decision with
   | Some p => [("verification_policy_id", VStr p)] | None => [] end) ++
  (match CompletionGateDecision_policy_version decision with
   | Some v => [("verification_policy_version", VInt v)] | None => [] end) ++
  (match CompletionGateDecision_blocking_verification_ids decision with
   | [] => [] | l => [("blocking_verification_ids", VSeq SList (map VStr l))] end) ++
  (match CompletionGateDecision_subject decision with
   | Some s => [("verification_subject", verification_subject_value s)] | None => [] end).

Definition completion_task_spec (task_id : string) : prog EventSpec :=
  if negb (has_completion_authority cfg) then Ret (task_spec "task.succeeded" task_id [])
  else
    decision ← call (OpAssess task_id);
    if bool_decide (CompletionGateDecision_state decision = C_ACCEPTED)
    then Ret (task_spec "task.succeeded" task_id [])
    else Ret (task_spec "task.waiting" task_id (completion_payload decision)).

Definition task_event_for_terminal (status : RunStatus) : option string :=
  match status with
  | R_SUCCEEDED => Some "task.succeeded"
  | R_FAILED | R_TIMED_OUT => Some "task.failed"
  | R_CANCELLED => Some "task.cancelled"
  | _ => None
  end.

(** The specifications that [terminal_specs] collects before the run's own terminal event. *)
Definition terminal_prelude (task : TaskState) (run : RunState) (target : RunStatus)
    (allow_queued_cancel : bool) : prog (list EventSpec) :=
  match RunState_status run with
  | R_QUEUED =>
      if negb (bool_decide (target = R_CANCELLED)) || negb allow_queued_cancel then
        Raise (contract_error CONFLICT ("queued run " +:+ RunState_run_id run +:+
                 " can only be cancelled before dispatch"))
      else Ret []
  | R_STARTING =>
      if status_in target [R_SUCCEEDED; R_TIMED_OUT] then
        Ret (run_spec "run.running" (RunState_run_id run) [("inferred", VBool true)] ::
             (if bool_decide (TaskState_status task = T_READY)
              then [task_spec "task.running" (TaskState_task_id task) [("inferred", VBool true)]] else []))
      else if status_in target [R_FAILED; R_CANCELLED] then Ret []
      else Raise (contract_error CONFLICT ("run " +:+ RunState_run_id run +:+ " cannot become " +:+
                    enum_value target +:+ " from " +:+ enum_value (RunState_status run)))
  | R_RUNNING => Ret []
  | s => Raise (contract_error CONFLICT ("run " +:+ RunState_run_id run +:+ " cannot become " +:+
                  enum_value target +:+ " from " +:+ enum_value s))
  end.

(** The task's own events when its task-level run ends, given the projected [task_status]. *)
Definition terminal_task_events (task_id : string) (task_status : TaskStatus) (target : RunStatus) : list EventSpec :=
  if bool_decide (target = R_CANCELLED) && bool_decide (task_status = T_READY)
  then [task_spec "task.cancelled" task_id []]
  else
    match task_event_for_terminal target with
    | None => []
    | Some task_event =>
        let '(resumed, task_status) :=
          if bool_decide (task_status = T_WAITING) && bool_decide (target = R_SUCCEEDED)
          then ([task_spec "task.resumed" task_id [("inferred", VBool true)]], T_RUNNING)
          else ([], task_status) in
        let '(running, task_status) :=
          if bool_decide (task_status = T_READY) && status_in target [R_FAILED; R_TIMED_OUT]
          then ([task_spec "task.running" task_id [("inferred", VBool true)]], T_RUNNING)
          else ([], task_status) in
        resumed ++ running ++
        (if status_in task_status [T_RUNNING; T_WAITING] then [task_spec task_event task_id []] else [])
    end.

Definition terminal_specs (task : TaskState) (run : RunState) (target : RunStatus) (output : dict)
    (adapter_metadata : list AdapterMetadata) (allow_queued_cancel : bool) : prog (list EventSpec) :=
  prelude ← terminal_prelude task run target allow_queued_cancel;
  let specs := prelude ++
    [Build_EventSpec ("run." +:+ enum_value target) "run" (RunState_run_id run)
       [("output", VMap MDict output)] adapter_metadata] in
  if String.eqb (Run_subject_type (RunState_run run)) "step" then Ret specs
  else
    let task_status :=
      if existsb (fun spec => String.eqb (spec_event_type spec) "task.running") specs
      then T_RUNNING else TaskState_status task in
    let rest := terminal_task_events (TaskState_task_id task) task_status target in
    if bool_decide (target = R_SUCCEEDED) then
      completion_spec ← completion_task_spec (TaskState_task_id task);
      if String.eqb (spec_event_type completion_spec) "task.waiting" then
        Ret (specs ++ (if status_in task_status [T_RUNNING; T_WAITING] then [completion_spec] else []))
      else Ret (specs ++ rest)
    else Ret (specs ++ rest).

Definition apply_terminal_command (task : TaskState) (run : RunState) (target : RunStatus) (output : dict)
    (key operation : string) (actor_ref : option string) (source : string)
    (adapter_metadata : list AdapterMetadata) (allow_queued_cancel : bool) : prog unit :=
  specs ← terminal_specs task run target output adapter_metadata allow_queued_cancel;
  _ ← commit_task_command cfg task key operation specs (RunState_run_id run) actor_ref source;
  Ret tt.

Definition apply_terminal_system (task : TaskState) (run : RunState) (target : RunStatus) (output : dict)
    (causation_id source : string) (adapter_metadata : list AdapterMetadata) : prog unit :=
  if run_terminal (RunState_status run) then
    guard (bool_decide (RunState_status run = target))
      (contract_error CONFLICT ("terminal run " +:+ RunState_run_id run +:+ " cannot change " +:+
         enum_value (RunState_status run) +:+ " -> " +:+ enum_value target))
  else
    specs ← terminal_specs task run target output adapter_metadata false;
    append_system_events cfg task causation_id (Some SERVICE_ACTOR) source specs.

Definition apply_snapshot_command (task_id run_id : string) (snapshot : ExecutionSnapshot)
    (key operation : string) (actor_ref : option string) (source : string) : prog unit :=
  _ ← wrong_run snapshot run_id;
  task ← get_task task_id;
  run ← get_run task_id run_id;
  if bool_decide (ExecutionSnapshot_status snapshot = R_QUEUED) then
    _ ← commit_task_command cfg task key operation
          [Build_EventSpec "run.refresh_observed_queued" "run" run_id []
             (ExecutionSnapshot_adapter_metadata snapshot)] run_id actor_ref source;
    Ret tt
  else if bool_decide (ExecutionSnapshot_status snapshot = R_RUNNING) then
    specs ← running_specs task run snapshot;
    let specs := match specs with
      | [] => [Build_EventSpec "run.refresh_observed_no_change" "run" run_id []
                 (ExecutionSnapshot_adapter_metadata snapshot)]
      | _ => specs end in
    _ ← commit_task_command cfg task key operation specs run_id actor_ref source;
    Ret tt
  else
    target ← lift (TERMINAL_EXECUTION_TO_RUN (ExecutionSnapshot_status snapshot));
    apply_terminal_command task run target (ExecutionSnapshot_output snapshot) key operation actor_ref
      source (ExecutionSnapshot_adapter_metadata snapshot) false.

Definition apply_snapshot_system (task_id run_id : string) (snapshot : ExecutionSnapshot)
    (causation_id source : string) : prog unit :=
  _ ← wrong_run snapshot run_id;
  task ← get_task task_id;
  run ← get_run task_id run_id;
  if bool_decide (ExecutionSnapshot_status snapshot = R_QUEUED) then Ret tt
  else if bool_decide (ExecutionSnapshot_status snapshot = R_RUNNING) then
    specs ← running_specs task run snapshot;
    _ ← (match specs with
         | [] => Ret tt
         | _ => append_system_events cfg task causation_id (Some SERVICE_ACTOR) source specs end);
    clear_recovery_if_needed task_id run_id causation_id source
  else
    target ← lift (TERMINAL_EXECUTION_TO_RUN (ExecutionSnapshot_status snapshot));
    apply_terminal_system task run target (ExecutionSnapshot_output snapshot) causation_id source
      (ExecutionSnapshot_adapter_metadata snapshot).

(** [try: snapshot = await lifecycle.get(...) except ContractError: only NOT_FOUND is handled]:
    [None] is a backend that does not know the run. *)
Definition backend_snapshot (run_id : string) (ctx : OperationContext) : prog (option ExecutionSnapshot) :=
  r ← attempt (call (OpGet run_id ctx));
  match r with
  | Ok snapshot => Ret (Some snapshot)
  | Err e => if has_code NOT_FOUND e then Ret None else Raise e
  end.

Definition reconcile_started_run (task_id run_id causation_id : string) : prog unit :=
  task ← get_task task_id;
  run ← get_run task_id run_id;
  if negb (status_in (RunState_status run) [R_STARTING; R_RUNNING]) then Ret tt
  else
    ctx ← context task causation_id;
    found ← backend_snapshot run_id ctx;
    match found with
    | None =>
        if bool_decide (RunState_status run = R_STARTING)
        then dispatch_started_run task_id run_id causation_id (Some SERVICE_ACTOR) "retry-recovery"
        else mark_recovery_required task_id run_id "canonical_running_backend_not_found" causation_id
    | Some snapshot => apply_snapshot_system task_id run_id snapshot causation_id "retry-recovery"
    end.

Definition finish_cancel (task_id run_id causation_id : string) : prog unit :=
  task ← get_task task_id;
  run ← get_run task_id run_id;
  if run_terminal (RunState_status run) then Ret tt
  else
    ctx ← context task causation_id;
    snapshot ← call (OpCancel run_id ctx);
    apply_snapshot_system task_id run_id snapshot causation_id "cancellation".
End reconciler.
