(* ===== verification/Planning.v ===== *)
(** * Planning a task: [PlatformKernel.plan_task] of kernel/kernel.py

    Turns an orchestrator's proposal, whose steps refer to each other by key, into a canonical plan
    whose steps refer to each other by freshly drawn ids. *)

From S2P Require Import Prelude PyValue Errors Freeze Ident Lifecycle Domain Contracts EventStore.
From S2P Require Import Projection Effects CommitSupport KernelLifecycle.

(** [step_ids[key]] *)
Fixpoint assoc (key : string) (l : list (string * string)) : res string :=
  match l with
  | [] => Err (KeyError (py_repr key))
  | (k, v) :: l' => if String.eqb k key then Ok v else assoc key l'
  end.

(** [{step.key: new_id("step") for step in proposal.steps}]; the keys of an accepted proposal are
    unique, so insertion never overwrites. *)
Definition draw_step_ids (steps : list PlanStepProposal) : prog (list (string * string)) :=
  for_each (fun step => id ← new_id "step"; Ret (PlanStepProposal_key step, id)) steps.

Definition canonical_plan (task : TaskState) (provenance : Provenance) : prog Plan :=
  id ← new_id "plan";
  created_at ← utc_now;
  lift (Plan_post_init
    (Build_Plan (TaskState_task_id task) (Task_owner_ref (TaskState_task task)) id 1 true
       (Task_project_id (TaskState_task task)) created_at SCHEMA_VERSION (Some provenance) [])).

Definition canonical_step (task : TaskState) (plan_id : string) (provenance : Provenance)
    (step_ids : list (string * string)) (step : PlanStepProposal) : prog Step :=
  id ← lift (assoc (PlanStepProposal_key step) step_ids);
  depends_on ← lift (map_res (fun key => assoc key step_ids) (PlanStepProposal_depends_on step));
  created_at ← utc_now;
  updated_at ← utc_now;
  lift (Step_post_init
    (Build_Step plan_id (PlanStepProposal_title step) (Task_owner_ref (TaskState_task task)) id
       S_PENDING None depends_on (Task_project_id (TaskState_task task)) created_at updated_at
       SCHEMA_VERSION (Some provenance) [])).

Definition step_payload (proposed : PlanStepProposal) (step : Step) : pyval :=
  VMap MDict [("id", VStr (Step_id step)); ("proposal_key", VStr (PlanStepProposal_key proposed));
    ("title", VStr (PlanStepProposal_title proposed));
    ("objective", VStr (PlanStepProposal_objective proposed));
    ("depends_on", VSeq SList (map VStr (Step_depends_on step)));
    ("metadata", VMap MDict (PlanStepProposal_metadata proposed))].

Definition plan_payload (plan : Plan) (proposal : PlanResponse) (steps : list Step) : dict :=
  [("plan_ref", VStr (Plan_id plan)); ("summary", VStr (PlanResponse_summary proposal));
   ("step_refs", VSeq SList (map (fun s => VStr (Step_id s)) steps));
   ("steps", VSeq SList (zip_with step_payload (PlanResponse_steps proposal) steps))].

Section planning.
Context (cfg : KernelConfig).

Definition plan_task (idempotency_key task_id : string) (actor_ref : option string) (source : string) : prog TaskState :=
  task ← get_task task_id;
  duplicate ← task_command task_id idempotency_key "plan_task";
  match duplicate with
  | Some _ => get_task task_id
  | None =>
      _ ← guard (negb (status_in (TaskState_status task) [T_SUCCEEDED; T_CANCELLED]))
            (contract_error CONFLICT ("task " +:+ task_id +:+ " is terminal"));
      active ← latest_active_run task;
      _ ← (match active with
           | Some run => Raise (contract_error CONFLICT
               ("task " +:+ task_id +:+ " cannot be replanned while run " +:+ RunState_run_id run +:+
                " is " +:+ enum_value (RunState_status run)))
           | None => Ret tt
           end);
      ctx ← context task idempotency_key;
      request ← lift (PlanRequest_post_init
                        (Build_PlanRequest task_id ctx (Task_description (TaskState_task task))));
      proposal ← call (OpPlan request);
      provenance ← lift (Provenance_post_init (Build_Provenance source
        (Some (or_else actor_ref (owner_text (Task_owner_ref (TaskState_task task))))) []));
      plan ← canonical_plan task provenance;
      step_ids ← draw_step_ids (PlanResponse_steps proposal);
      steps ← for_each (canonical_step task (Plan_id plan) provenance step_ids)
                (PlanResponse_steps proposal);
      _ ← commit_task_command cfg task idempotency_key "plan_task"
            [Build_EventSpec "plan.created" "task" task_id (plan_payload plan proposal steps)
               (PlanResponse_adapter_metadata proposal)] task_id actor_ref source;
      get_task task_id
  end.
End planning.
