(* ===== verification/RunCommands.v ===== *)
(** * Run commands: kernel/run_commands.py

    The class [KernelRunCommands] and [PlatformKernel._invalidate_completion_subject]. The per-task
    [asyncio.Lock] of [record_run_outcome] only removes interleavings, so it is left out: what
    holds of every interleaving holds of the locked ones. [_await_started_effect] shields the
    attachment from task cancellation and is otherwise the identity. *)

From S2P Require Import Prelude PyValue Errors Freeze Ident Lifecycle Domain Contracts EventStore.
From S2P Require Import Projection Effects CommitSupport KernelLifecycle Planning.

Definition STALE_REVISION_RETRY_LIMIT : nat := 8.

Definition is_stale_revision_conflict (e : exc) : bool :=
  match e with
  | ContractError CONFLICT _ retryable details =>
      retryable && (match dict_get "reason" details with
                    | Some (VStr s) => String.eqb s "stale_stream_revision"
                    | _ => false end)
  | _ => false
  end.

(** The statuses of the task from which a run of the given kind may be created or started. *)
Definition allowed_task_statuses (subject_type : string) : list TaskStatus :=
  if String.eqb subject_type "task" then [T_READY] else [T_READY; T_RUNNING].

Definition run_created_payload (task : TaskState) (subject_type subject_id : string) (attempt : Z) : dict :=
  let t := TaskState_task task in
  [("task_id", VStr (TaskState_task_id task)); ("subject_type", VStr subject_type);
   ("subject_id", VStr subject_id); ("attempt", VInt attempt);
   ("owner_type", VStr (OwnerRef_type (Task_owner_ref t)));
   ("owner_id", VStr (OwnerRef_id (Task_owner_ref t)))] ++
  (match TaskState_plan_ref task with Some p => [("plan_ref", VStr p)] | None => [] end).

Definition cannot (task_id what from : string) : exc :=
  contract_error CONFLICT ("task " +:+ task_id +:+ " cannot " +:+ what +:+ " from " +:+ from).
Definition mixed_modes : exc :=
  contract_error CONFLICT "task-level and step-level runs cannot be active at the same time".

Section run_commands.
Context (cfg : KernelConfig).

Definition create_run (idempotency_key task_id subject_type : string) (subject_id actor_ref : option string)
    (source : string) : prog RunState :=
  task ← get_task task_id;
  duplicate ← task_command task_id idempotency_key "create_run";
  match duplicate with
  | Some record => get_run task_id (CommandRecord_result_id record)
  | None =>
      let canonical_subject_id := or_else subject_id task_id in
      _ ← lift (validate_subject_id subject_type canonical_subject_id);
      _ ← validate_run_subject task subject_type canonical_subject_id;
      _ ← guard (status_in (TaskState_status task) (allowed_task_statuses subject_type))
            (cannot task_id ("create a " +:+ subject_type +:+ " run") (enum_value (TaskState_status task)));
      active ← active_runs task;
      let active_modes := map (fun run => Run_subject_type (RunState_run run)) active in
      _ ← guard (negb (negb (bool_decide (active_modes = [])) && negb (in_strs subject_type active_modes)))
            mixed_modes;
      active_subject_run ← active_run_for_subject task subject_type canonical_subject_id;
      _ ← (match active_subject_run with
           | Some run => Raise (contract_error CONFLICT
               ("subject " +:+ canonical_subject_id +:+ " already has active run " +:+ RunState_run_id run))
           | None => Ret tt
           end);
      run_id ← new_id "run";
      attempt ← next_attempt task subject_type canonical_subject_id;
      created_at ← utc_now;
      updated_at ← utc_now;
      _ ← lift (Run_post_init
            (Build_Run subject_type canonical_subject_id (Task_owner_ref (TaskState_task task)) task_id
               run_id attempt R_QUEUED (Task_project_id (TaskState_task task)) (Some idempotency_key)
               None None created_at updated_at None None SCHEMA_VERSION None [] []));
      _ ← commit_task_command cfg task idempotency_key "create_run"
            [run_spec "run.created" run_id (run_created_payload task subject_type canonical_subject_id attempt)]
            run_id actor_ref source;
      get_run task_id run_id
  end.

Definition retry_task (idempotency_key task_id : string) (actor_ref : option string) (source : string) : prog RunState :=
  task ← get_task task_id;
  duplicate ← task_command task_id idempotency_key "retry_task";
  match duplicate with
  | Some record => get_run task_id (CommandRecord_result_id record)
  | None =>
      _ ← guard (bool_decide (TaskState_status task = T_FAILED))
            (cannot task_id "retry" (enum_value (TaskState_status task)));
      active ← latest_active_run task;
      _ ← (match active with
           | Some run => Raise (contract_error CONFLICT
               ("task " +:+ task_id +:+ " cannot retry while run " +:+ RunState_run_id run +:+
                " is " +:+ enum_value (RunState_status run)))
           | None => Ret tt
           end);
      run_id ← new_id "run";
      attempt ← next_attempt task "task" task_id;
      _ ← commit_task_command cfg task idempotency_key "retry_task"
            [task_spec "task.ready" task_id [("retry", VBool true)];
             run_spec "run.created" run_id (run_created_payload task "task" task_id attempt)]
            run_id actor_ref source;
      get_run task_id run_id
  end.

Definition start_run (idempotency_key task_id run_id : string) (actor_ref : option string)
    (source : string) : prog RunState :=
  task ← get_task task_id;
  run ← get_run task_id run_id;
  duplicate ← task_command task_id idempotency_key "start_run";
  match duplicate with
  | Some record =>
      _ ← guard (String.eqb (CommandRecord_result_id record) run_id)
            (contract_error CONFLICT "start command belongs to another run");
      _ ← (if status_in (RunState_status run) [R_STARTING; R_RUNNING]
           then reconcile_started_run cfg task_id run_id ("retry:" +:+ idempotency_key)
           else Ret tt);
      get_run task_id run_id
  | None =>
      let subject_type := Run_subject_type (RunState_run run) in
      _ ← guard (status_in (TaskState_status task) (allowed_task_statuses subject_type))
            (cannot task_id ("start a " +:+ subject_type +:+ " run") (enum_value (TaskState_status task)));
      active ← active_runs task;
      let other_active_runs := List.filter (fun a => negb (String.eqb (RunState_run_id a) run_id)) active in
      _ ← guard (negb (existsb (fun a => negb (String.eqb (Run_subject_type (RunState_run a)) subject_type))
                         other_active_runs)) mixed_modes;
      _ ← guard (bool_decide (RunState_status run = R_QUEUED))
            (contract_error CONFLICT ("run " +:+ run_id +:+ " cannot start from " +:+
               enum_value (RunState_status run)));
      _ ← commit_task_command cfg task idempotency_key "start_run" [run_spec "run.starting" run_id []]
            run_id actor_ref source;
      _ ← dispatch_started_run cfg task_id run_id idempotency_key actor_ref source;
      get_run task_id run_id
  end.

Definition start_task (idempotency_key task_id : string) (actor_ref : option string) (source : string) : prog RunState :=
  task ← get_task task_id;
  existing ← existing_command task_id (idempotency_key +:+ ":create-run") "create_run";
  match existing with
  | Some record =>
      start_run (idempotency_key +:+ ":start-run") task_id (CommandRecord_result_id record) actor_ref source
  | None =>
      _ ← guard (bool_decide (TaskState_status task = T_READY))
            (cannot task_id "start" (enum_value (TaskState_status task)));
      _ ← (match TaskState_plan_ref task with
           | None => _ ← plan_task cfg (idempotency_key +:+ ":plan") task_id actor_ref source; Ret tt
           | Some _ => Ret tt
           end);
      run ← create_run (idempotency_key +:+ ":create-run") task_id "task" None actor_ref source;
      start_run (idempotency_key +:+ ":start-run") task_id (RunState_run_id run) actor_ref source
  end.

Definition refresh_run (idempotency_key task_id run_id : string) (actor_ref : option string)
    (source : string) : prog RunState :=
  task ← get_task task_id;
  run ← get_run task_id run_id;
  duplicate ← task_command task_id idempotency_key "refresh_run";
  match duplicate with
  | Some _ => get_run task_id run_id
  | None =>
      if run_terminal (RunState_status run) then
        _ ← commit_task_command cfg task idempotency_key "refresh_run"
              [run_spec "run.refresh_ignored_terminal" run_id []] run_id actor_ref source;
        get_run task_id run_id
      else
        ctx ← context task idempotency_key;
        found ← backend_snapshot run_id ctx;
        match found with
        | None =>
            _ ← mark_recovery_required cfg task_id run_id "backend_not_found_during_refresh" idempotency_key;
            refreshed_task ← get_task task_id;
            _ ← commit_task_command cfg refreshed_task idempotency_key "refresh_run"
                  [run_spec "run.refresh_not_found" run_id []] run_id actor_ref source;
            get_run task_id run_id
        | Some snapshot =>
            _ ← apply_snapshot_command cfg task_id run_id snapshot idempotency_key "refresh_run" actor_ref source;
            get_run task_id run_id
        end
  end.

Definition record_run_outcome_once (idempotency_key task_id run_id : string) (status : RunStatus)
    (output : option dict) (actor_ref : option string) (source : string)
    (adapter_metadata : list AdapterMetadata) : prog RunState :=
  task ← get_task task_id;
  run ← get_run task_id run_id;
  duplicate ← task_command task_id idempotency_key "record_run_outcome";
  match duplicate with
  | Some _ => get_run task_id run_id
  | None =>
      if run_terminal (RunState_status run) then
        _ ← guard (bool_decide (RunState_status run = status))
              (contract_error CONFLICT ("run " +:+ run_id +:+ " is already " +:+
                 enum_value (RunState_status run) +:+ "; cannot overwrite with " +:+ enum_value status));
        _ ← commit_task_command cfg task idempotency_key "record_run_outcome"
              [Build_EventSpec "run.terminal_duplicate_ignored" "run" run_id
                 [("status", VStr (enum_value status))] adapter_metadata] run_id actor_ref source;
        get_run task_id run_id
      else
        _ ← guard (status_in (RunState_status run) [R_STARTING; R_RUNNING])
              (contract_error CONFLICT ("run " +:+ run_id +:+
                 " cannot receive a terminal callback from " +:+ enum_value (RunState_status run)));
        _ ← apply_terminal_command cfg task run status (default [] output) idempotency_key
              "record_run_outcome" actor_ref source adapter_metadata false;
        get_run task_id run_id
  end.

(** [for _ in range(n): try: return await once except ContractError: ...]. Only a [ContractError]
    is caught, and [is_stale_revision_conflict] holds of nothing else. *)
Fixpoint retry_stale {A} (n : nat) (last : option exc) (once : prog A) : prog A :=
  match n with
  | 0 => Raise (default (RuntimeError "stale-revision retry loop exited without a conflict") last)
  | S n' =>
      catch once (fun e => if is_stale_revision_conflict e then retry_stale n' (Some e) once else Raise e)
  end.

Definition record_run_outcome (idempotency_key task_id run_id : string) (status : RunStatus)
    (output : option dict) (actor_ref : option string) (source : string)
    (adapter_metadata : list AdapterMetadata) : prog RunState :=
  _ ← guard (run_terminal status)
        (contract_error INVALID_REQUEST "record_run_outcome requires terminal status");
  retry_stale STALE_REVISION_RETRY_LIMIT None
    (record_run_outcome_once idempotency_key task_id run_id status output actor_ref source adapter_metadata).

Definition cancel_run (idempotency_key task_id run_id : string) (actor_ref : option string)
    (source : string) : prog RunState :=
  task ← get_task task_id;
  run ← get_run task_id run_id;
  duplicate ← task_command task_id idempotency_key "cancel_run";
  match duplicate with
  | Some _ =>
      _ ← (if negb (run_terminal (RunState_status run))
           then finish_cancel cfg task_id run_id ("retry:" +:+ idempotency_key) else Ret tt);
      get_run task_id run_id
  | None =>
      if run_terminal (RunState_status run) then
        _ ← commit_task_command cfg task idempotency_key "cancel_run"
              [run_spec "run.cancel_ignored_terminal" run_id
                 [("status", VStr (enum_value (RunState_status run)))]] run_id actor_ref source;
        get_run task_id run_id
      else if bool_decide (RunState_status run = R_QUEUED) then
        _ ← apply_terminal_command cfg task run R_CANCELLED [] idempotency_key "cancel_run" actor_ref
              source [] true;
        get_run task_id run_id
      else
        _ ← guard (status_in (RunState_status run) [R_STARTING; R_RUNNING])
              (contract_error CONFLICT ("run " +:+ run_id +:+ " cannot be cancelled"));
        _ ← commit_task_command cfg task idempotency_key "cancel_run"
              [run_spec "run.cancel_requested" run_id []] run_id actor_ref source;
        _ ← finish_cancel cfg task_id run_id idempotency_key;
        get_run task_id run_id
  end.

(** [PlatformKernel._invalidate_completion_subject]: the asynchronous authority comes first. *)
Definition invalidate_completion_subject (task_id : string) : prog unit :=
  if has_async_authority cfg then call (OpInvalidate task_id)
  else if has_completion_authority cfg && authority_output_aware cfg then call (OpInvalidate task_id)
  else Ret tt.

(** The subject of an attachment: the run, when one is given and belongs to the task. *)
Definition attachment_subject (task_id : string) (run_id : option string) : prog (string * string) :=
  match run_id with
  | None => Ret ("task", task_id)
  | Some run_id => _ ← get_run task_id run_id; Ret ("run", run_id)
  end.

Definition attach_artifact (idempotency_key task_id artifact_id : string) (run_id actor_ref : option string)
    (source : string) : prog TaskState :=
  _ ← lift (validate_id artifact_id "artifact");
  task ← get_task task_id;
  duplicate ← task_command task_id idempotency_key "attach_artifact";
  match duplicate with
  | Some _ => get_task task_id
  | None =>
      subject ← attachment_subject task_id run_id;
      _ ← invalidate_completion_subject task_id;
      _ ← commit_task_command cfg task idempotency_key "attach_artifact"
            [Build_EventSpec "artifact.attached" subject.1 subject.2
               [("task_id", VStr task_id); ("artifact_id", VStr artifact_id)] []]
            subject.2 actor_ref source;
      get_task task_id
  end.

Definition attach_result (idempotency_key task_id result_id : string) (run_id actor_ref : option string)
    (source : string) : prog TaskState :=
  _ ← lift (validate_id result_id "result");
  task ← get_task task_id;
  duplicate ← task_command task_id idempotency_key "attach_result";
  match duplicate with
  | Some _ => get_task task_id
  | None =>
      subject ← attachment_subject task_id run_id;
      _ ← invalidate_completion_subject task_id;
      _ ← commit_task_command cfg task idempotency_key "attach_result"
            [Build_EventSpec "result.attached" subject.1 subject.2
               [("task_id", VStr task_id); ("result_id", VStr result_id)] []]
            subject.2 actor_ref source;
      get_task task_id
  end.
End run_commands.
