(* ===== verification/TaskCommands.v ===== *)
(** * Task commands: kernel/task_commands.py

    The class [KernelTaskCommands]: creation of a task and the commands that move it along its
    lifecycle. *)

From S2P Require Import Prelude PyValue Errors Freeze Ident Lifecycle Domain Contracts EventStore.
From S2P Require Import Projection Effects CommitSupport KernelLifecycle Planning RunCommands.

Definition TASK_CREATE_SCOPE : string := "task:create".

Definition conflict (message : string) : exc := contract_error CONFLICT message.
Definition invalid (message : string) : exc := contract_error INVALID_REQUEST message.

(** [x is not None and not x.strip()] *)
Definition given_blank (o : option string) : bool := match o with Some s => blank s | None => false end.

(** [task_id or new_id("task")] *)
Definition or_new_id (task_id : option string) (prefix : string) : prog string :=
  match task_id with
  | Some s => if String.eqb s "" then new_id prefix else Ret s
  | None => new_id prefix
  end.

Section task_commands.
Context (cfg : KernelConfig).

Definition create_task (idempotency_key title objective owner_type owner_id : string)
    (project_id task_id actor_ref : option string) (source : string) : prog TaskState :=
  _ ← require_key idempotency_key;
  existing ← existing_command TASK_CREATE_SCOPE idempotency_key "create_task";
  match existing with
  | Some record => get_task (CommandRecord_result_id record)
  | None =>
      _ ← guard (negb (blank title || blank objective || blank owner_id))
            (invalid "task title/objective/owner must not be blank");
      _ ← guard (in_strs owner_type ["user"; "organization"; "team"; "service"])
            (invalid ("unsupported owner type: " +:+ owner_type));
      canonical_task_id ← or_new_id task_id "task";
      _ ← lift (validate_id canonical_task_id "task");
      created_at ← utc_now;
      updated_at ← utc_now;
      _ ← lift (Task_post_init
            (Build_Task title (Build_OwnerRef owner_type owner_id) canonical_task_id T_DRAFT None project_id
               objective (Some canonical_task_id) (Some idempotency_key) created_at updated_at
               SCHEMA_VERSION None [] []));
      e ← event canonical_task_id "task.created" "task" canonical_task_id idempotency_key owner_type
            owner_id project_id (or_else actor_ref (owner_type +:+ ":" +:+ owner_id)) source 1
            [("title", VStr title); ("objective", VStr objective); ("owner_type", VStr owner_type);
             ("owner_id", VStr owner_id)] [];
      let cmd := command TASK_CREATE_SCOPE idempotency_key "create_task" canonical_task_id canonical_task_id e in
      result ← call (OpCommit canonical_task_id 0 [e] (Some cmd));
      if CommitResult_applied result then
        _ ← mirror cfg [e];
        get_task canonical_task_id
      else
        duplicate ← require_same_command (CommitResult_command result) "create_task" idempotency_key;
        get_task (CommandRecord_result_id duplicate)
  end.

(** The commands that follow one pattern: read the task, return it on a replay, check, commit a
    batch for the task, and read it again. *)
Definition task_batch (task : TaskState) (idempotency_key operation : string) (specs : list EventSpec)
    (task_id : string) (actor_ref : option string) (source : string) : prog TaskState :=
  _ ← commit_task_command cfg task idempotency_key operation specs task_id actor_ref source;
  get_task task_id.

Definition update_task (idempotency_key task_id : string) (title objective : option string)
    (metadata : option dict) (actor_ref : option string) (source : string) : prog TaskState :=
  task ← get_task task_id;
  duplicate ← task_command task_id idempotency_key "update_task";
  match duplicate with
  | Some _ => get_task task_id
  | None =>
      _ ← guard (negb (status_in (TaskState_status task) [T_SUCCEEDED; T_CANCELLED]))
            (conflict ("task " +:+ task_id +:+ " is terminal"));
      _ ← guard (negb (bool_decide (title = None) && bool_decide (objective = None) &&
                       match metadata with None => true | Some _ => false end))
            (invalid "task update contains no changes");
      _ ← guard (negb (given_blank title)) (invalid "task title must not be blank");
      _ ← guard (negb (given_blank objective)) (invalid "task objective must not be blank");
      let payload :=
        (match title with Some t => [("title", VStr t)] | None => [] end) ++
        (match objective with Some o => [("objective", VStr o)] | None => [] end) ++
        (match metadata with Some m => [("metadata", VMap MDict m)] | None => [] end) in
      task_batch task idempotency_key "update_task" [task_spec "task.updated" task_id payload] task_id
        actor_ref source
  end.

Definition ready_task (idempotency_key task_id : string) (actor_ref : option string) (source : string) : prog TaskState :=
  task ← get_task task_id;
  duplicate ← task_command task_id idempotency_key "ready_task";
  match duplicate with
  | Some _ => get_task task_id
  | None =>
      _ ← guard (status_in (TaskState_status task) [T_DRAFT; T_FAILED])
            (cannot task_id "become ready" (enum_value (TaskState_status task)));
      task_batch task idempotency_key "ready_task" [task_spec "task.ready" task_id []] task_id actor_ref source
  end.

Definition wait_task (idempotency_key task_id reason : string) (blocked : bool) (actor_ref : option string)
    (source : string) : prog TaskState :=
  task ← get_task task_id;
  duplicate ← task_command task_id idempotency_key "wait_task";
  match duplicate with
  | Some _ => get_task task_id
  | None =>
      _ ← guard (bool_decide (TaskState_status task = T_RUNNING))
            (cannot task_id "wait" (enum_value (TaskState_status task)));
      _ ← guard (negb (blank reason)) (invalid "waiting reason must not be blank");
      task_batch task idempotency_key "wait_task"
        [task_spec "task.waiting" task_id [("reason", VStr reason); ("blocked", VBool blocked)]]
        task_id actor_ref source
  end.

Definition resume_task (idempotency_key task_id : string) (actor_ref : option string) (source : string) : prog TaskState :=
  task ← get_task task_id;
  duplicate ← task_command task_id idempotency_key "resume_task";
  match duplicate with
  | Some _ => get_task task_id
  | None =>
      _ ← guard (bool_decide (TaskState_status task = T_WAITING))
            (cannot task_id "resume" (enum_value (TaskState_status task)));
      task_batch task idempotency_key "resume_task" [task_spec "task.resumed" task_id []] task_id actor_ref source
  end.

(** [self._host._completion_authority is not None and task.status is WAITING and
    task.wait_reason is not None and task.wait_reason.startswith("verification:")] *)
Definition verification_wait (task : TaskState) : bool :=
  has_completion_authority cfg && bool_decide (TaskState_status task = T_WAITING) &&
  match TaskState_wait_reason task with Some r => starts_with r "verification:" | None => false end.

(** [task {task_id} cannot {verb} while run {run.run_id} is {status}] *)
Definition no_active_run (task_id verb : string) (active : option RunState) : prog unit :=
  match active with
  | Some run => Raise (conflict ("task " +:+ task_id +:+ " cannot " +:+ verb +:+ " while run " +:+
                  RunState_run_id run +:+ " is " +:+ enum_value (RunState_status run)))
  | None => Ret tt
  end.

Definition complete_task (idempotency_key task_id : string) (actor_ref : option string) (source : string) : prog TaskState :=
  task ← get_task task_id;
  duplicate ← task_command task_id idempotency_key "complete_task";
  match duplicate with
  | Some _ => get_task task_id
  | None =>
      _ ← guard (bool_decide (TaskState_status task = T_RUNNING) || verification_wait task)
            (cannot task_id "succeed" (enum_value (TaskState_status task)));
      active ← latest_active_run task;
      _ ← no_active_run task_id "succeed" active;
      completion_spec ← completion_task_spec cfg task_id;
      let resumed :=
        if bool_decide (TaskState_status task = T_WAITING) &&
           String.eqb (spec_event_type completion_spec) "task.succeeded"
        then [task_spec "task.resumed" task_id [("verification_completed", VBool true)]] else [] in
      task_batch task idempotency_key "complete_task" (resumed ++ [completion_spec]) task_id actor_ref source
  end.

Definition fail_task (idempotency_key task_id : string) (reason actor_ref : option string) (source : string) : prog TaskState :=
  task ← get_task task_id;
  duplicate ← task_command task_id idempotency_key "fail_task";
  match duplicate with
  | Some _ => get_task task_id
  | None =>
      _ ← guard (status_in (TaskState_status task) [T_RUNNING; T_WAITING])
            (cannot task_id "fail" (enum_value (TaskState_status task)));
      active ← latest_active_run task;
      _ ← no_active_run task_id "fail" active;
      let payload := match reason with Some r => [("reason", VStr r)] | None => [] end in
      task_batch task idempotency_key "fail_task" [task_spec "task.failed" task_id payload] task_id
        actor_ref source
  end.

Definition cancel_task (idempotency_key task_id : string) (actor_ref : option string) (source : string) : prog TaskState :=
  task ← get_task task_id;
  duplicate ← task_command task_id idempotency_key "cancel_task";
  match duplicate with
  | Some _ => get_task task_id
  | None =>
      _ ← guard (negb (bool_decide (TaskState_status task = T_SUCCEEDED)))
            (conflict ("task " +:+ task_id +:+ " already succeeded"));
      _ ← guard (negb (bool_decide (TaskState_status task = T_FAILED)))
            (conflict "canonical lifecycle requires failed tasks to be retried to ready rather than cancelled");
      _ ← guard (status_in (TaskState_status task) [T_DRAFT; T_READY; T_RUNNING; T_WAITING; T_CANCELLED])
            (conflict ("task " +:+ task_id +:+ " cannot be cancelled"));
      active ← active_runs task;
      let of_kind kind := List.filter (fun run => String.eqb (Run_subject_type (RunState_run run)) kind) active in
      _ ← for_each (fun run =>
            cancel_run cfg (idempotency_key +:+ ":run:" +:+ RunState_run_id run) task_id
              (RunState_run_id run) actor_ref source) (of_kind "step" ++ of_kind "task");
      refreshed ← get_task task_id;
      remaining ← active_runs refreshed;
      _ ← guard (match remaining with [] => true | _ => false end)
            (conflict ("task " +:+ task_id +:+ " cancellation is incomplete; active runs: " +:+
                       join ", " (map RunState_run_id remaining)));
      if status_in (TaskState_status refreshed) [T_SUCCEEDED; T_FAILED] then
        task_batch refreshed idempotency_key "cancel_task"
          [task_spec "task.cancel_lost_race" task_id
             [("status", VStr (enum_value (TaskState_status refreshed)))]] task_id actor_ref source
      else
        let event_type := if bool_decide (TaskState_status refreshed = T_CANCELLED)
                          then "task.cancel_acknowledged" else "task.cancelled" in
        task_batch refreshed idempotency_key "cancel_task" [task_spec event_type task_id []] task_id
          actor_ref source
  end.
End task_commands.
