(* ===== verification/Recovery.v ===== *)
(** * Recovery after a restart: kernel/recovery.py *)

From S2P Require Import Prelude PyValue Errors Freeze Ident Lifecycle Domain Contracts EventStore.
From S2P Require Import Projection Effects CommitSupport KernelLifecycle.

Inductive RecoveryDisposition :=
| QUEUED_PENDING | REDISPATCHED | RECONCILED | TERMINAL_UNCHANGED | ORPHANED_RECONCILIATION_REQUIRED.

#[export] Instance RecoveryDisposition_eq_dec : EqDecision RecoveryDisposition.
Proof. solve_decision. Defined.

Record RecoveryEntry := Build_RecoveryEntry {
  RecoveryEntry_run_id : string;
  RecoveryEntry_before : RunStatus;
  RecoveryEntry_after : RunStatus;
  RecoveryEntry_disposition : RecoveryDisposition
}.

Record RecoveryReport := Build_RecoveryReport {
  RecoveryReport_task_id : string;
  RecoveryReport_entries : list RecoveryEntry
}.

Section recovery.
Context (cfg : KernelConfig).

Definition recovery_cause (run_id : string) : string := "recovery:" +:+ run_id.

(** The branches of the loop body of [recover_task]. *)
Definition recover_run (task : TaskState) (task_id run_id : string) (run : RunState) : prog RecoveryDisposition :=
  match RunState_status run with
  | R_QUEUED => Ret QUEUED_PENDING
  | R_STARTING =>
      ctx ← context task (recovery_cause run_id);
      found ← backend_snapshot run_id ctx;
      match found with
      | None =>
          _ ← dispatch_started_run cfg task_id run_id (recovery_cause run_id) (Some SERVICE_ACTOR) "recovery";
          Ret REDISPATCHED
      | Some snapshot =>
          _ ← apply_snapshot_system cfg task_id run_id snapshot (recovery_cause run_id) "recovery";
          Ret RECONCILED
      end
  | R_RUNNING =>
      ctx ← context task (recovery_cause run_id);
      found ← backend_snapshot run_id ctx;
      match found with
      | None =>
          _ ← mark_recovery_required cfg task_id run_id "canonical_running_backend_not_found"
                (recovery_cause run_id);
          Ret ORPHANED_RECONCILIATION_REQUIRED
      | Some snapshot =>
          _ ← apply_snapshot_system cfg task_id run_id snapshot (recovery_cause run_id) "recovery";
          Ret RECONCILED
      end
  | _ => Ret TERMINAL_UNCHANGED
  end.

Definition recover_entry (task : TaskState) (task_id run_id : string) : prog RecoveryEntry :=
  run ← get_run task_id run_id;
  disposition ← recover_run task task_id run_id run;
  after ← get_run task_id run_id;
  Ret (Build_RecoveryEntry run_id (RunState_status run) (RunState_status after) disposition).

Definition recover_task (task_id : string) : prog RecoveryReport :=
  task ← get_task task_id;
  entries ← for_each (recover_entry task task_id) (TaskState_run_ids task);
  Ret (Build_RecoveryReport task_id entries).

Definition recover_all : prog (list RecoveryReport) :=
  stream_ids ← call OpListStreams;
  for_each recover_task (List.filter (fun s => starts_with s "task_") stream_ids).
End recovery.
