(* ===== verification/CoordinationModels.v ===== *)
(** * Plans and steps under coordination: coordination/models.py

    The runtime coordination state of a plan and its steps: retry policies, durable waits, the record
    kept per step, claims, and the snapshot of a plan, each with the checks of its constructor. The
    power of two floats is a parameter of [delay_for_attempt], as in TransportModels.v. *)

From Stdlib Require Import SpecFloat.
From S2P Require Import Prelude PyValue Errors Freeze Ident Lifecycle Domain PyTime TransportModels.

(** ** Enumerations *)

Inductive CoordinationPhase :=
| PH_BLOCKED | PH_READY | PH_ATTEMPT_ACTIVE | PH_WAITING | PH_RETRY_SCHEDULED | PH_TERMINAL | PH_INCONSISTENT.
Inductive WaitType := W_DEADLINE | W_APPROVAL | W_EVENT | W_EXTERNAL_JOB.
Inductive WaitResolution := WR_SATISFIED | WR_REJECTED | WR_EXPIRED | WR_CANCELLED.
Inductive RetryState := RS_NONE | RS_SCHEDULED | RS_ACTIVE | RS_COMPLETED | RS_EXHAUSTED | RS_NOT_RETRYABLE | RS_CANCELLED.
Inductive PredecessorFailurePolicy := FAIL_FAST | CANCEL_DEPENDENT.
Inductive ReconciliationDisposition :=
| RD_CONSISTENT | RD_RUN_RECONCILED | RD_WAIT_RESUMED | RD_RETRY_RESUMED | RD_CANONICAL_TERMINAL
| RD_MISSING_CANONICAL_RUN | RD_INCONSISTENT.

#[export] Instance CoordinationPhase_eq_dec : EqDecision CoordinationPhase.
Proof. solve_decision. Defined.
#[export] Instance WaitType_eq_dec : EqDecision WaitType.
Proof. solve_decision. Defined.
#[export] Instance WaitResolution_eq_dec : EqDecision WaitResolution.
Proof. solve_decision. Defined.
#[export] Instance RetryState_eq_dec : EqDecision RetryState.
Proof. solve_decision. Defined.
#[export] Instance PredecessorFailurePolicy_eq_dec : EqDecision PredecessorFailurePolicy.
Proof. solve_decision. Defined.

(** [len(values) != len(set(values))] *)
Definition all_distinct (l : list string) : bool := bool_decide (NoDup l).

(** [set(left) == set(right)] and [set(left).issubset(right)] *)
Definition same_set (l k : list string) : bool := forallb (fun x => in_strs x k) l && forallb (fun x => in_strs x l) k.
Definition subset_of (l k : list string) : bool := forallb (fun x => in_strs x k) l.

(** ** Retry policies *)

Record StepRetryPolicy := Build_StepRetryPolicy {
  retry_max_attempts : Z;
  retry_initial_delay_seconds : spec_float;
  retry_multiplier : spec_float;
  retry_max_delay_seconds : spec_float;
  retry_retryable_categories : list string;
  retry_version : Z
}.

Definition default_step_retry_policy : StepRetryPolicy :=
  Build_StepRetryPolicy 1 float_one (binary64 2 0) (binary64 300 0) [] 1.

Definition StepRetryPolicy_post_init (p : StepRetryPolicy) : res StepRetryPolicy :=
  _ ← require (1 <=? retry_max_attempts p)%Z (ValueError "max_attempts must be >= 1");
  _ ← require (negb (SFltb (retry_initial_delay_seconds p) float_zero)) (ValueError "initial_delay_seconds must be >= 0");
  _ ← require (negb (SFltb (retry_multiplier p) float_one)) (ValueError "multiplier must be >= 1");
  _ ← require (negb (SFltb (retry_max_delay_seconds p) float_zero)) (ValueError "max_delay_seconds must be >= 0");
  _ ← require (1 <=? retry_version p)%Z (ValueError "retry policy version must be >= 1");
  _ ← require (all_distinct (retry_retryable_categories p)) (ValueError "retryable failure categories must be unique");
  _ ← require (forallb (fun item => negb (blank item)) (retry_retryable_categories p))
        (ValueError "retryable failure categories must not be blank");
  Ok p.

(** In microseconds. *)
Definition delay_for_attempt (float_pow : spec_float -> Z -> res spec_float) (p : StepRetryPolicy) (next_attempt : Z) : res Z :=
  _ ← require (2 <=? next_attempt)%Z (ValueError "next_attempt must be >= 2");
  power ← float_pow (retry_multiplier p) (next_attempt - 2)%Z;
  timedelta_us (float_min (retry_max_delay_seconds p) (float_mul (retry_initial_delay_seconds p) power)).

Definition permits (p : StepRetryPolicy) (category : option string) (next_attempt : Z) : bool :=
  match category with
  | None => false
  | Some c => if (retry_max_attempts p <? next_attempt)%Z then false else in_strs c (retry_retryable_categories p)
  end.

(** ** Durable waits *)

Record StepWait := Build_StepWait {
  wait_wait_key : string;
  wait_wait_type : WaitType;
  wait_task_id : string;
  wait_plan_id : string;
  wait_step_id : string;
  wait_owner_ref : OwnerRef;
  wait_project_id : option string;
  wait_deadline_at : option datetime;
  wait_approval_id : option string;
  wait_approval_subject_type : option string;
  wait_approval_subject_id : option string;
  wait_approval_action : option string;
  wait_event_type : option string;
  wait_correlation_key : option string;
  wait_external_job_ref : option string;
  wait_created_at : datetime;
  wait_resolved_at : option datetime;
  wait_resolution : option WaitResolution;
  wait_resolution_key : option string
}.

(** [item is None or not item.strip()] *)
Definition missing_text (o : option string) : bool := match o with Some s => blank s | None => true end.

Definition aware_or_none (d : option datetime) : bool := match d with Some t => is_aware t | None => true end.

Definition StepWait_post_init (w : StepWait) : res StepWait :=
  _ ← require (negb (blank (wait_wait_key w))) (ValueError "wait_key must not be blank");
  _ ← validate_id (wait_task_id w) "task";
  _ ← validate_id (wait_plan_id w) "plan";
  _ ← validate_id (wait_step_id w) "step";
  _ ← validate_optional_id (wait_project_id w) "project";
  _ ← require (aware_or_none (wait_deadline_at w)) (ValueError "deadline_at must be timezone-aware");
  _ ← (match wait_wait_type w with
       | W_DEADLINE => require (bool_decide (is_Some (wait_deadline_at w))) (ValueError "deadline wait requires deadline_at")
       | W_APPROVAL =>
           require (negb (existsb missing_text [wait_approval_id w; wait_approval_subject_type w;
                                                wait_approval_subject_id w; wait_approval_action w]))
             (ValueError "approval wait requires approval identity, subject and action")
       | W_EVENT =>
           _ ← require (negb (missing_text (wait_event_type w))) (ValueError "event wait requires event_type");
           require (negb (missing_text (wait_correlation_key w))) (ValueError "event wait requires correlation_key")
       | W_EXTERNAL_JOB =>
           require (negb (missing_text (wait_external_job_ref w)))
             (ValueError "external job wait requires canonical adapter reference")
       end);
  Ok w.

Definition wait_resolved (w : StepWait) : bool := bool_decide (is_Some (wait_resolved_at w)).

(** [replace(wait, resolved_at=..., resolution=..., resolution_key=...)], without the checks. *)
Definition wait_set_resolved (now : datetime) (resolution : WaitResolution) (key : string) (w : StepWait) : StepWait :=
  Build_StepWait (wait_wait_key w) (wait_wait_type w) (wait_task_id w) (wait_plan_id w) (wait_step_id w)
    (wait_owner_ref w) (wait_project_id w) (wait_deadline_at w) (wait_approval_id w) (wait_approval_subject_type w)
    (wait_approval_subject_id w) (wait_approval_action w) (wait_event_type w) (wait_correlation_key w)
    (wait_external_job_ref w) (wait_created_at w) (Some now) (Some resolution) (Some key).

(** ** The record of a step *)

Record StepCoordinationRecord := Build_StepCoordinationRecord {
  record_task_id : string;
  record_plan_id : string;
  record_plan_revision : Z;
  record_step_id : string;
  record_phase : CoordinationPhase;
  record_dependency_ids : list string;
  record_satisfied_dependency_ids : list string;
  record_latest_run_id : option string;
  record_current_attempt : Z;
  record_retry_policy : StepRetryPolicy;
  record_retry_due_at : option datetime;
  record_retry_state : RetryState;
  record_wait : option StepWait;
  record_predecessor_failure_policy : PredecessorFailurePolicy;
  record_processed_keys : list string;
  record_reconciliation : ReconciliationDisposition;
  record_reconciliation_detail : option string;
  record_correlation_id : option string;
  record_causation_id : option string;
  record_provenance_source : string;
  record_revision : Z;
  record_created_at : datetime;
  record_updated_at : datetime
}.

Definition StepCoordinationRecord_post_init (r : StepCoordinationRecord) : res StepCoordinationRecord :=
  _ ← validate_id (record_task_id r) "task";
  _ ← validate_id (record_plan_id r) "plan";
  _ ← validate_id (record_step_id r) "step";
  _ ← validate_ids (record_dependency_ids r) "step";
  _ ← validate_ids (record_satisfied_dependency_ids r) "step";
  _ ← validate_optional_id (record_latest_run_id r) "run";
  _ ← require (negb ((record_plan_revision r <? 1) || (record_revision r <? 1))%Z)
        (ValueError "plan/coordination revisions must be >= 1");
  _ ← require (0 <=? record_current_attempt r)%Z (ValueError "current_attempt must be >= 0");
  _ ← require (aware_or_none (record_retry_due_at r)) (ValueError "retry_due_at must be timezone-aware");
  _ ← require (negb (bool_decide (record_retry_state r = RS_SCHEDULED) && bool_decide (record_retry_due_at r = None)))
        (ValueError "scheduled retry requires retry_due_at");
  _ ← require (negb (negb (bool_decide (record_retry_state r = RS_SCHEDULED)) && bool_decide (is_Some (record_retry_due_at r))))
        (ValueError "retry_due_at is valid only for a scheduled retry");
  _ ← require (all_distinct (record_dependency_ids r)) (ValueError "dependency IDs must be unique");
  _ ← require (all_distinct (record_satisfied_dependency_ids r)) (ValueError "satisfied dependency IDs must be unique");
  _ ← require (subset_of (record_satisfied_dependency_ids r) (record_dependency_ids r))
        (ValueError "satisfied dependencies must be declared dependencies");
  _ ← require (all_distinct (record_processed_keys r)) (ValueError "processed coordination keys must be unique");
  Ok r.

(** *** [replace(record, field=...)], without the checks that the constructor repeats *)

Definition set_phase (x : CoordinationPhase) (r : StepCoordinationRecord) : StepCoordinationRecord :=
  Build_StepCoordinationRecord (record_task_id r) (record_plan_id r) (record_plan_revision r) (record_step_id r) x
    (record_dependency_ids r) (record_satisfied_dependency_ids r) (record_latest_run_id r) (record_current_attempt
    r) (record_retry_policy r) (record_retry_due_at r) (record_retry_state r) (record_wait r)
    (record_predecessor_failure_policy r) (record_processed_keys r) (record_reconciliation r)
    (record_reconciliation_detail r) (record_correlation_id r) (record_causation_id r) (record_provenance_source r)
    (record_revision r) (record_created_at r) (record_updated_at r).
Definition set_satisfied_dependency_ids (x : list string) (r : StepCoordinationRecord) : StepCoordinationRecord :=
  Build_StepCoordinationRecord (record_task_id r) (record_plan_id r) (record_plan_revision r) (record_step_id r)
    (record_phase r) (record_dependency_ids r) x (record_latest_run_id r) (record_current_attempt r)
    (record_retry_policy r) (record_retry_due_at r) (record_retry_state r) (record_wait r)
    (record_predecessor_failure_policy r) (record_processed_keys r) (record_reconciliation r)
    (record_reconciliation_detail r) (record_correlation_id r) (record_causation_id r) (record_provenance_source r)
    (record_revision r) (record_created_at r) (record_updated_at r).
Definition set_latest_run_id (x : option string) (r : StepCoordinationRecord) : StepCoordinationRecord :=
  Build_StepCoordinationRecord (record_task_id r) (record_plan_id r) (record_plan_revision r) (record_step_id r)
    (record_phase r) (record_dependency_ids r) (record_satisfied_dependency_ids r) x (record_current_attempt r)
    (record_retry_policy r) (record_retry_due_at r) (record_retry_state r) (record_wait r)
    (record_predecessor_failure_policy r) (record_processed_keys r) (record_reconciliation r)
    (record_reconciliation_detail r) (record_correlation_id r) (record_causation_id r) (record_provenance_source r)
    (record_revision r) (record_created_at r) (record_updated_at r).
Definition set_current_attempt (x : Z) (r : StepCoordinationRecord) : StepCoordinationRecord :=
  Build_StepCoordinationRecord (record_task_id r) (record_plan_id r) (record_plan_revision r) (record_step_id r)
    (record_phase r) (record_dependency_ids r) (record_satisfied_dependency_ids r) (record_latest_run_id r) x
    (record_retry_policy r) (record_retry_due_at r) (record_retry_state r) (record_wait r)
    (record_predecessor_failure_policy r) (record_processed_keys r) (record_reconciliation r)
    (record_reconciliation_detail r) (record_correlation_id r) (record_causation_id r) (record_provenance_source r)
    (record_revision r) (record_created_at r) (record_updated_at r).
Definition set_retry_due_at (x : option datetime) (r : StepCoordinationRecord) : StepCoordinationRecord :=
  Build_StepCoordinationRecord (record_task_id r) (record_plan_id r) (record_plan_revision r) (record_step_id r)
    (record_phase r) (record_dependency_ids r) (record_satisfied_dependency_ids r) (record_latest_run_id r)
    (record_current_attempt r) (record_retry_policy r) x (record_retry_state r) (record_wait r)
    (record_predecessor_failure_policy r) (record_processed_keys r) (record_reconciliation r)
    (record_reconciliation_detail r) (record_correlation_id r) (record_causation_id r) (record_provenance_source r)
    (record_revision r) (record_created_at r) (record_updated_at r).
Definition set_retry_state (x : RetryState) (r : StepCoordinationRecord) : StepCoordinationRecord :=
  Build_StepCoordinationRecord (record_task_id r) (record_plan_id r) (record_plan_revision r) (record_step_id r)
    (record_phase r) (record_dependency_ids r) (record_satisfied_dependency_ids r) (record_latest_run_id r)
    (record_current_attempt r) (record_retry_policy r) (record_retry_due_at r) x (record_wait r)
    (record_predecessor_failure_policy r) (record_processed_keys r) (record_reconciliation r)
    (record_reconciliation_detail r) (record_correlation_id r) (record_causation_id r) (record_provenance_source r)
    (record_revision r) (record_created_at r) (record_updated_at r).
Definition set_wait (x : option StepWait) (r : StepCoordinationRecord) : StepCoordinationRecord :=
  Build_StepCoordinationRecord (record_task_id r) (record_plan_id r) (record_plan_revision r) (record_step_id r)
    (record_phase r) (record_dependency_ids r) (record_satisfied_dependency_ids r) (record_latest_run_id r)
    (record_current_attempt r) (record_retry_policy r) (record_retry_due_at r) (record_retry_state r) x
    (record_predecessor_failure_policy r) (record_processed_keys r) (record_reconciliation r)
    (record_reconciliation_detail r) (record_correlation_id r) (record_causation_id r) (record_provenance_source r)
    (record_revision r) (record_created_at r) (record_updated_at r).
Definition set_processed_keys (x : list string) (r : StepCoordinationRecord) : StepCoordinationRecord :=
  Build_StepCoordinationRecord (record_task_id r) (record_plan_id r) (record_plan_revision r) (record_step_id r)
    (record_phase r) (record_dependency_ids r) (record_satisfied_dependency_ids r) (record_latest_run_id r)
    (record_current_attempt r) (record_retry_policy r) (record_retry_due_at r) (record_retry_state r) (record_wait
    r) (record_predecessor_failure_policy r) x (record_reconciliation r) (record_reconciliation_detail r)
    (record_correlation_id r) (record_causation_id r) (record_provenance_source r) (record_revision r)
    (record_created_at r) (record_updated_at r).
Definition set_reconciliation (x : ReconciliationDisposition) (r : StepCoordinationRecord) : StepCoordinationRecord :=
  Build_StepCoordinationRecord (record_task_id r) (record_plan_id r) (record_plan_revision r) (record_step_id r)
    (record_phase r) (record_dependency_ids r) (record_satisfied_dependency_ids r) (record_latest_run_id r)
    (record_current_attempt r) (record_retry_policy r) (record_retry_due_at r) (record_retry_state r) (record_wait
    r) (record_predecessor_failure_policy r) (record_processed_keys r) x (record_reconciliation_detail r)
    (record_correlation_id r) (record_causation_id r) (record_provenance_source r) (record_revision r)
    (record_created_at r) (record_updated_at r).
Definition set_reconciliation_detail (x : option string) (r : StepCoordinationRecord) : StepCoordinationRecord :=
  Build_StepCoordinationRecord (record_task_id r) (record_plan_id r) (record_plan_revision r) (record_step_id r)
    (record_phase r) (record_dependency_ids r) (record_satisfied_dependency_ids r) (record_latest_run_id r)
    (record_current_attempt r) (record_retry_policy r) (record_retry_due_at r) (record_retry_state r) (record_wait
    r) (record_predecessor_failure_policy r) (record_processed_keys r) (record_reconciliation r) x
    (record_correlation_id r) (record_causation_id r) (record_provenance_source r) (record_revision r)
    (record_created_at r) (record_updated_at r).
Definition set_revision (x : Z) (r : StepCoordinationRecord) : StepCoordinationRecord :=
  Build_StepCoordinationRecord (record_task_id r) (record_plan_id r) (record_plan_revision r) (record_step_id r)
    (record_phase r) (record_dependency_ids r) (record_satisfied_dependency_ids r) (record_latest_run_id r)
    (record_current_attempt r) (record_retry_policy r) (record_retry_due_at r) (record_retry_state r) (record_wait
    r) (record_predecessor_failure_policy r) (record_processed_keys r) (record_reconciliation r)
    (record_reconciliation_detail r) (record_correlation_id r) (record_causation_id r) (record_provenance_source r)
    x (record_created_at r) (record_updated_at r).
Definition set_updated_at (x : datetime) (r : StepCoordinationRecord) : StepCoordinationRecord :=
  Build_StepCoordinationRecord (record_task_id r) (record_plan_id r) (record_plan_revision r) (record_step_id r)
    (record_phase r) (record_dependency_ids r) (record_satisfied_dependency_ids r) (record_latest_run_id r)
    (record_current_attempt r) (record_retry_policy r) (record_retry_due_at r) (record_retry_state r) (record_wait
    r) (record_predecessor_failure_policy r) (record_processed_keys r) (record_reconciliation r)
    (record_reconciliation_detail r) (record_correlation_id r) (record_causation_id r) (record_provenance_source r)
    (record_revision r) (record_created_at r) x.

(** ** The snapshot of a plan, and claims *)

Record PlanRuntimeState := Build_PlanRuntimeState {
  state_plan : Plan;
  state_steps : list Step;
  state_store_revision : Z
}.

Definition PlanRuntimeState_post_init (s : PlanRuntimeState) : res PlanRuntimeState :=
  _ ← require (1 <=? state_store_revision s)%Z (ValueError "store_revision must be >= 1");
  _ ← require (Plan_active (state_plan s)) (ValueError "coordinator accepts only the active canonical Plan");
  _ ← require (all_distinct (map Step_id (state_steps s))) (ValueError "step IDs must be unique");
  _ ← require (forallb (fun step => String.eqb (Step_plan_id step) (Plan_id (state_plan s))) (state_steps s))
        (ValueError "every Step must belong to the active Plan");
  Ok s.

(** [PlanRuntimeState.step] *)
Definition find_step (step_id : string) (steps : list Step) : option Step :=
  List.find (fun step => String.eqb (Step_id step) step_id) steps.
Definition state_step (s : PlanRuntimeState) (step_id : string) : res Step :=
  match find_step step_id (state_steps s) with Some step => Ok step | None => Err (KeyError step_id) end.

Record CoordinatorClaim := Build_CoordinatorClaim {
  claim_step_id : string;
  claim_claim_id : string;
  claim_owner_id : string;
  claim_fence : Z;
  claim_expires_at : datetime
}.

#[export] Instance CoordinatorClaim_eq_dec : EqDecision CoordinatorClaim.
Proof. solve_decision. Defined.

Definition CoordinatorClaim_post_init (c : CoordinatorClaim) : res CoordinatorClaim :=
  _ ← validate_id (claim_step_id c) "step";
  _ ← require (negb (blank (claim_claim_id c) || blank (claim_owner_id c)))
        (ValueError "claim identity and owner must not be blank");
  _ ← require (1 <=? claim_fence c)%Z (ValueError "claim fence must be >= 1");
  _ ← require (is_aware (claim_expires_at c)) (ValueError "claim expiry must be timezone-aware");
  Ok c.

(** ** Projections *)

Record StepCoordinationProjection := Build_StepCoordinationProjection {
  projection_step_id : string;
  projection_status : StepStatus;
  projection_phase : CoordinationPhase;
  projection_dependency_ids : list string;
  projection_satisfied_dependency_ids : list string;
  projection_latest_run_id : option string;
  projection_current_attempt : Z;
  projection_retry_due_at : option datetime;
  projection_wait_type : option WaitType;
  projection_wait_deadline_at : option datetime;
  projection_reconciliation : ReconciliationDisposition
}.

Record PlanCoordinationProjection := Build_PlanCoordinationProjection {
  projection_task_id : string;
  projection_plan_id : string;
  projection_plan_revision : Z;
  projection_steps : list StepCoordinationProjection
}.

Inductive ApprovalOutcome := O_APPROVED | O_REJECTED | O_EXPIRED | O_CANCELLED.

(** ** Equality of plans and steps: the [__eq__] that [dataclass] generates *)

#[export] Instance OwnerRef_eq_dec : EqDecision OwnerRef.
Proof. solve_decision. Defined.
#[export] Instance ExternalRef_eq_dec : EqDecision ExternalRef.
Proof. solve_decision. Defined.

Definition Provenance_eqb (a b : Provenance) : bool :=
  String.eqb (Provenance_source a) (Provenance_source b) &&
  bool_decide (Provenance_actor_ref a = Provenance_actor_ref b) &&
  py_eqb (VMap MProxy (Provenance_details a)) (VMap MProxy (Provenance_details b)).

Definition option_eqb {A} (eqb : A -> A -> bool) (a b : option A) : bool :=
  match a, b with Some x, Some y => eqb x y | None, None => true | _, _ => false end.

Fixpoint list_eqb {A} (eqb : A -> A -> bool) (l k : list A) : bool :=
  match l, k with
  | [], [] => true
  | x :: l', y :: k' => eqb x y && list_eqb eqb l' k'
  | _, _ => false
  end.

Definition Plan_eqb (a b : Plan) : bool :=
  String.eqb (Plan_task_id a) (Plan_task_id b) && bool_decide (Plan_owner_ref a = Plan_owner_ref b) &&
  String.eqb (Plan_id a) (Plan_id b) && (Plan_revision a =? Plan_revision b)%Z &&
  Bool.eqb (Plan_active a) (Plan_active b) && bool_decide (Plan_project_id a = Plan_project_id b) &&
  (Plan_created_at a =? Plan_created_at b)%Z && String.eqb (Plan_schema_version a) (Plan_schema_version b) &&
  option_eqb Provenance_eqb (Plan_provenance a) (Plan_provenance b) &&
  bool_decide (Plan_external_refs a = Plan_external_refs b).

Definition Step_eqb (a b : Step) : bool :=
  String.eqb (Step_plan_id a) (Step_plan_id b) && String.eqb (Step_title a) (Step_title b) &&
  bool_decide (Step_owner_ref a = Step_owner_ref b) && String.eqb (Step_id a) (Step_id b) &&
  bool_decide (Step_status a = Step_status b) && bool_decide (Step_parent_step_id a = Step_parent_step_id b) &&
  bool_decide (Step_depends_on a = Step_depends_on b) && bool_decide (Step_project_id a = Step_project_id b) &&
  (Step_created_at a =? Step_created_at b)%Z && (Step_updated_at a =? Step_updated_at b)%Z &&
  String.eqb (Step_schema_version a) (Step_schema_version b) &&
  option_eqb Provenance_eqb (Step_provenance a) (Step_provenance b) &&
  bool_decide (Step_external_refs a = Step_external_refs b).

(** ** Facts about the sets *)

Lemma subset_of_spec l k : subset_of l k = true <-> l ⊆ k.
Proof.
  unfold subset_of. rewrite forallb_forall. split.
  - intros H x Hx. apply in_strs_true, H. by apply list_elem_of_In.
  - intros H x Hx. apply in_strs_true, H. by apply list_elem_of_In.
Qed.

Lemma same_set_spec l k : same_set l k = true <-> (forall x, x ∈ l <-> x ∈ k).
Proof.
  unfold same_set. rewrite andb_true_iff. change (forallb _ l) with (subset_of l k). change (forallb _ k) with (subset_of k l).
  rewrite !subset_of_spec. set_solver.
Qed.

Lemma find_step_some step_id steps step : find_step step_id steps = Some step -> step ∈ steps /\ Step_id step = step_id.
Proof. intros [H1 H2%String.eqb_eq]%List.find_some. split; [by apply list_elem_of_In|done]. Qed.

Lemma find_step_in steps step :
  NoDup (map Step_id steps) -> step ∈ steps -> find_step (Step_id step) steps = Some step.
Proof.
  induction steps as [|s steps IH]; intros Hnd Hin; [by apply not_elem_of_nil in Hin|].
  cbn. apply NoDup_cons in Hnd as [Hs Hnd]. apply elem_of_cons in Hin as [->|Hin].
  - by rewrite String.eqb_refl.
  - destruct (String.eqb_spec (Step_id s) (Step_id step)) as [He|]; [|by apply IH].
    exfalso. apply Hs. rewrite He. apply list_elem_of_fmap. by exists step.
Qed.
