(* ===== verification/PlanGraph.v ===== *)
(** * The step graph of a plan: [validate_graph] of coordination/registration.py

    The checks that a plan passes before anything is written, with the depth-first search for cycles.
    Python iterates over the set of step identifiers in an order of its own: that order is an argument.
    The nested function [visit] recurses once per step on its path, so the number of steps bounds its
    depth; the theorem below shows that this much fuel is always enough. *)

From S2P Require Import Prelude PyValue Errors Freeze Ident Lifecycle Domain PyTime TransportModels CoordinationModels.

(** [graph = {step.id: step.depends_on for step in steps}] *)
Definition step_graph (steps : list Step) : gmap string (list string) :=
  list_to_map (map (fun step => (Step_id step, Step_depends_on step)) steps).

(** The sets [visiting] and [visited] that [visit] changes. *)
Definition visit_sets : Type := gset string * gset string.

Definition cycle_error : exc := contract_error INVALID_REQUEST "Plan Step graph contains a cycle".

(** [RecursionError] is a [RuntimeError]. *)
Definition recursion_error : exc := RuntimeError "maximum recursion depth exceeded".

Fixpoint visit (fuel : nat) (graph : gmap string (list string)) (step_id : string) (sets : visit_sets) : res visit_sets :=
  match fuel with
  | 0 => Err recursion_error
  | S fuel' =>
      if bool_decide (step_id ∈ sets.1) then Err cycle_error
      else if bool_decide (step_id ∈ sets.2) then Ok sets
      else
        match graph !! step_id with
        | None => Err (KeyError step_id)
        | Some predecessors =>
            after ← fold_res (fun acc predecessor => visit fuel' graph predecessor acc) ({[step_id]} ∪ sets.1, sets.2) predecessors;
            Ok (after.1 ∖ {[step_id]}, {[step_id]} ∪ after.2)
        end
  end.

Definition check_step (plan : Plan) (ids : list string) (step : Step) : res unit :=
  _ ← require (String.eqb (Step_plan_id step) (Plan_id plan)) (contract_error INVALID_REQUEST "Step belongs to a different Plan");
  _ ← require (bool_decide (Step_status step = S_PENDING))
        (contract_error INVALID_REQUEST "newly registered Steps must be pending");
  let missing := List.filter (fun d => negb (in_strs d ids)) (remove_dups (Step_depends_on step)) in
  _ ← require (bool_decide (missing = []))
        (ContractError INVALID_REQUEST "Step dependency references an unknown Step" false
           [("step_id", VStr (Step_id step)); ("dependencies", VSeq SList (map VStr (sort_strs missing)))]);
  require (match Step_parent_step_id step with Some parent => in_strs parent ids | None => true end)
    (contract_error INVALID_REQUEST "parent Step must belong to the same Plan").

Definition validate_graph (order : list string) (plan : Plan) (steps : list Step) : res unit :=
  _ ← require (bool_decide (steps <> [])) (contract_error INVALID_REQUEST "Plan must contain at least one Step");
  let ids := map Step_id steps in
  _ ← require (all_distinct ids) (contract_error INVALID_REQUEST "Plan Step IDs must be unique");
  _ ← map_res (check_step plan ids) steps;
  _ ← fold_res (fun sets step_id => visit (S (length steps)) (step_graph steps) step_id sets) (∅, ∅) order;
  Ok tt.

(** ** What the search decides *)

(** The graph has no cycle: its steps can be ranked so that every dependency ranks below its step. *)
Definition ranked (graph : gmap string (list string)) (rank : string -> nat) : Prop :=
  forall s ps p, graph !! s = Some ps -> p ∈ ps -> rank p < rank s.
Definition acyclic (graph : gmap string (list string)) : Prop := exists rank, ranked graph rank.

Definition closed_graph (graph : gmap string (list string)) : Prop :=
  forall s ps p, graph !! s = Some ps -> p ∈ ps -> p ∈ dom graph.

(** A set of finished steps: each has its dependencies in the set, ranked below it. *)
Definition finished_steps (graph : gmap string (list string)) (done : gset string) : Prop :=
  exists rank bound, forall s, s ∈ done ->
    rank s < bound /\ exists ps, graph !! s = Some ps /\ forall p, p ∈ ps -> p ∈ done /\ rank p < rank s.

Section search.
Context (graph : gmap string (list string)) (Hclosed : closed_graph graph).
Implicit Types V D : gset string.

Lemma finished_extend D s ps :
  finished_steps graph D -> s ∉ D -> graph !! s = Some ps -> (forall p, p ∈ ps -> p ∈ D) ->
  finished_steps graph ({[s]} ∪ D).
Proof.
  intros (rank & bound & HD) Hs Hps Hin. exists (fun x => if decide (x = s) then bound else rank x), (S bound).
  intros x Hx. destruct (decide (x = s)) as [->|Hne].
  - split; [lia|]. exists ps. split; [done|]. intros p Hp. specialize (Hin p Hp).
    split; [set_solver|]. rewrite decide_False by congruence. by apply HD.
  - destruct (HD x) as (Hb & qs & Hqs & Hall); [set_solver|]. split; [lia|]. exists qs. split; [done|].
    intros p Hp. destruct (Hall p Hp) as [Hd Hr]. split; [set_solver|]. by rewrite decide_False by congruence.
Qed.

(** What one visit achieves, or what its failure shows. *)
Definition visited_well (V D : gset string) (targets : list string) (r : res visit_sets) : Prop :=
  match r with
  | Ok (V', D') => V' = V /\ D ⊆ D' /\ finished_steps graph D' /\ V ## D' /\ (forall s, s ∈ targets -> s ∈ D')
  | Err e => e = cycle_error /\
      exists s, s ∈ targets /\ ~ exists rank, ranked graph rank /\ forall v, v ∈ V -> rank s < rank v
  end.

Definition visits (fuel : nat) (sets : visit_sets) (l : list string) : res visit_sets :=
  fold_res (fun acc s => visit fuel graph s acc) sets l.

Definition can_visit (fuel : nat) (V D : gset string) : Prop :=
  size (dom graph) < size V + fuel /\ V ⊆ dom graph /\ finished_steps graph D /\ V ## D.

Lemma visits_cons fuel sets s l :
  visits fuel sets (s :: l) = match visit fuel graph s sets with Ok sets' => visits fuel sets' l | Err e => Err e end.
Proof. done. Qed.

Lemma visits_well fuel V D l :
  (forall s D, s ∈ dom graph -> can_visit fuel V D -> visited_well V D [s] (visit fuel graph s (V, D))) ->
  (forall s, s ∈ l -> s ∈ dom graph) -> can_visit fuel V D ->
  visited_well V D l (visits fuel (V, D) l).
Proof.
  intros Hvisit. revert D. induction l as [|s l IH]; intros D Hl Hc.
  { destruct Hc as (_ & _ & ? & ?). split_and!; try done. intros s Hs. by apply not_elem_of_nil in Hs. }
  rewrite visits_cons.
  pose proof (Hvisit s D (Hl s (list_elem_of_here _ _)) Hc) as Hw.
  destruct (visit fuel graph s (V, D)) as [[V' D']|e]; cbn in Hw.
  - destruct Hw as (-> & Hsub & Hfin & Hdis & Hin).
    assert (visited_well V D' l (visits fuel (V, D') l)) as H.
    { apply IH; [intros t Ht; apply Hl; by right|]. destruct Hc as (? & ? & _ & _). done. }
    destruct (visits fuel (V, D') l) as [[V'' D'']|e]; cbn in H |- *.
    + destruct H as (-> & Hsub' & Hfin' & Hdis' & Hin'). split_and!; try done; [set_solver|].
      intros t [->|Ht]%elem_of_cons; [apply Hsub', Hin; by left|by apply Hin'].
    + destruct H as [-> (t & Ht & H)]. split; [done|]. exists t. split; [by right|done].
  - destruct Hw as [-> (t & ->%list_elem_of_singleton & H)]. split; [done|]. exists s. split; [by left|done].
Qed.

Lemma visit_well fuel V D s :
  s ∈ dom graph -> can_visit fuel V D -> visited_well V D [s] (visit fuel graph s (V, D)).
Proof.
  revert V D s. induction fuel as [|fuel IH]; intros V D s Hs (Hsize & Hsub & Hfin & Hdis).
  { apply subseteq_size in Hsub. lia. }
  cbn [visit fst snd]. case_bool_decide as HsV.
  { split; [done|]. exists s. split; [by left|]. intros (rank & _ & Hv). specialize (Hv s HsV). lia. }
  case_bool_decide as HsD.
  { cbn. split_and!; try done. by intros t ->%list_elem_of_singleton. }
  destruct (graph !! s) as [ps|] eqn:Hps; [|by apply not_elem_of_dom in Hps].
  assert (visited_well ({[s]} ∪ V) D ps (visits fuel ({[s]} ∪ V, D) ps)) as H.
  { apply visits_well; [intros; by apply IH|intros p Hp; by eapply Hclosed|]. split_and!; [|set_solver|done|set_solver].
    rewrite size_union, size_singleton by set_solver. lia. }
  fold (visits fuel ({[s]} ∪ V, D) ps).
  destruct (visits fuel ({[s]} ∪ V, D) ps) as [[V' D']|e]; cbn in H |- *.
  - destruct H as (-> & Hsub' & Hfin' & Hdis' & Hin). split_and!.
    + set_solver.
    + set_solver.
    + eapply finished_extend; [done|set_solver|exact Hps|exact Hin].
    + set_solver.
    + intros t ->%list_elem_of_singleton. set_solver.
  - destruct H as [-> (p & Hp & H)]. split; [done|]. exists s. split; [by left|]. intros (rank & Hr & Hv).
    apply H. exists rank. split; [done|]. specialize (Hr s ps p Hps Hp).
    intros v [->%elem_of_singleton|Hv']%elem_of_union; [done|]. specialize (Hv v Hv'). lia.
Qed.
End search.

(** ** The plans that pass *)

Record graph_ok (plan : Plan) (steps : list Step) : Prop := {
  graph_nonempty : steps <> [];
  graph_unique : NoDup (map Step_id steps);
  graph_steps : forall step, step ∈ steps ->
    Step_plan_id step = Plan_id plan /\ Step_status step = S_PENDING /\
    (forall d, d ∈ Step_depends_on step -> d ∈ map Step_id steps) /\
    (forall parent, Step_parent_step_id step = Some parent -> parent ∈ map Step_id steps);
  graph_acyclic : exists rank : string -> nat, forall step d,
    step ∈ steps -> d ∈ Step_depends_on step -> rank d < rank (Step_id step)
}.

Lemma step_graph_lookup steps s ps :
  NoDup (map Step_id steps) ->
  step_graph steps !! s = Some ps <-> exists step, step ∈ steps /\ Step_id step = s /\ Step_depends_on step = ps.
Proof.
  intros Hnd. unfold step_graph. rewrite <- elem_of_list_to_map.
  - rewrite list_elem_of_fmap. naive_solver.
  - by rewrite <- list_fmap_compose.
Qed.

Lemma step_graph_dom steps s : NoDup (map Step_id steps) -> s ∈ dom (step_graph steps) <-> s ∈ map Step_id steps.
Proof.
  intros Hnd. rewrite elem_of_dom. split.
  - intros [ps (step & Hin & <- & _)%step_graph_lookup]; [|done]. apply list_elem_of_fmap. by exists step.
  - intros (step & -> & Hin)%list_elem_of_fmap. exists (Step_depends_on step). apply step_graph_lookup; [done|]. by exists step.
Qed.

Lemma no_missing ids l :
  List.filter (fun d => negb (in_strs d ids)) (remove_dups l) = [] <-> forall d, d ∈ l -> d ∈ ids.
Proof.
  split.
  - intros Hf d Hd. apply in_strs_true. destruct (in_strs d ids) eqn:Hi; [done|]. exfalso.
    apply (in_nil (a := d)). rewrite <- Hf. apply List.filter_In. rewrite Hi. split; [|done].
    apply list_elem_of_In. by apply elem_of_remove_dups.
  - intros H. destruct (List.filter _ _) as [|d k] eqn:Hf; [done|]. exfalso.
    assert (In d (remove_dups l) /\ negb (in_strs d ids) = true) as [Hd Hi].
    { apply (List.filter_In (fun d => negb (in_strs d ids))). rewrite Hf. by left. }
    apply list_elem_of_In, elem_of_remove_dups, H, in_strs_true in Hd. by rewrite Hd in Hi.
Qed.

Lemma check_step_ok plan ids step u :
  check_step plan ids step = Ok u <->
  Step_plan_id step = Plan_id plan /\ Step_status step = S_PENDING /\
  (forall d, d ∈ Step_depends_on step -> d ∈ ids) /\ (forall parent, Step_parent_step_id step = Some parent -> parent ∈ ids).
Proof.
  unfold check_step. split.
  - intros H. res_inv. bool_props. split_and!; [done..|by apply no_missing|]. intros parent Hp.
    rewrite Hp in *. by apply in_strs_true.
  - intros (-> & -> & Hd & Hp). rewrite String.eqb_refl. apply no_missing in Hd. rewrite Hd. cbn.
    apply require_ok. destruct (Step_parent_step_id step) as [parent|]; [|done]. by apply in_strs_true, Hp.
Qed.

Lemma check_step_err plan ids step e :
  check_step plan ids step = Err e -> exists m details, e = ContractError INVALID_REQUEST m false details.
Proof.
  unfold check_step, contract_error. intros H.
  repeat match type of H with
  | (require ?b ?x ≫= _) = Err _ => destruct b; cbn [require mbind result_bind] in H; [|injection H as <-; eauto]
  end.
  revert H. unfold require. destruct (match Step_parent_step_id step with Some _ => _ | None => _ end); [done|].
  intros [= <-]. eauto.
Qed.

Lemma step_graph_closed steps :
  NoDup (map Step_id steps) -> (forall step, step ∈ steps -> forall d, d ∈ Step_depends_on step -> d ∈ map Step_id steps) ->
  closed_graph (step_graph steps).
Proof.
  intros Hnd H s ps p (step & Hin & <- & <-)%step_graph_lookup Hp; [|done].
  apply step_graph_dom; [done|]. by eapply H.
Qed.

Lemma step_graph_size steps : NoDup (map Step_id steps) -> size (dom (step_graph steps)) = length steps.
Proof.
  intros Hnd. unfold step_graph. rewrite dom_list_to_map_L, size_list_to_set.
  - by rewrite !length_fmap.
  - by rewrite <- list_fmap_compose.
Qed.

(** The search over the whole graph, in any order. *)
Lemma search_decides steps order :
  let graph := step_graph steps in
  NoDup (map Step_id steps) -> closed_graph graph -> order ≡ₚ remove_dups (map Step_id steps) ->
  match visits graph (S (length steps)) (∅, ∅) order with
  | Ok _ => acyclic graph
  | Err e => e = cycle_error /\ ~ acyclic graph
  end.
Proof.
  intros graph Hnd Hclosed Horder.
  assert (forall s, s ∈ order <-> s ∈ dom graph) as Hin.
  { intros s. rewrite Horder, elem_of_remove_dups. unfold graph. by rewrite step_graph_dom. }
  assert (visited_well graph ∅ ∅ order (visits graph (S (length steps)) (∅, ∅) order)) as H.
  { apply visits_well; [exact Hclosed|intros s D; by apply visit_well|intros s; apply Hin|]. unfold can_visit.
    rewrite size_empty. unfold graph. rewrite step_graph_size by done. split_and!; [lia|set_solver| |set_solver].
    exists (fun _ => 0), 0. set_solver. }
  destruct (visits graph _ _ order) as [[V D]|e]; cbn in H.
  - destruct H as (_ & _ & (rank & bound & HD) & _ & Hall). exists rank. intros s ps p Hps Hp.
    destruct (HD s) as (_ & qs & Hqs & Hrank).
    { apply Hall, Hin, elem_of_dom. by rewrite Hps. }
    rewrite Hps in Hqs. injection Hqs as <-. by apply Hrank.
  - destruct H as [-> (s & _ & H)]. split; [done|]. intros [rank Hr]. apply H. exists rank. split; [done|]. set_solver.
Qed.

Lemma acyclic_graph steps :
  NoDup (map Step_id steps) ->
  acyclic (step_graph steps) <->
  exists rank : string -> nat, forall step d, step ∈ steps -> d ∈ Step_depends_on step -> rank d < rank (Step_id step).
Proof.
  intros Hnd. split; intros [rank Hr]; exists rank.
  - intros step d Hs Hd. eapply Hr; [|exact Hd]. apply step_graph_lookup; [done|]. by exists step.
  - intros s ps p (step & Hin & <- & <-)%step_graph_lookup Hp; [|done]. by apply Hr.
Qed.

Lemma validate_graph_outcome order plan steps :
  order ≡ₚ remove_dups (map Step_id steps) ->
  (validate_graph order plan steps = Ok tt <-> graph_ok plan steps) /\
  forall e, validate_graph order plan steps = Err e -> exists m details, e = ContractError INVALID_REQUEST m false details.
Proof.
  intros Horder. unfold validate_graph, require.
  case_bool_decide as Hne; cbn; [|split; [split; [done|intros []; done]|intros e [= <-]; unfold contract_error; eauto]].
  unfold all_distinct. case_bool_decide as Hnd; cbn;
    [|split; [split; [done|intros []; done]|intros e [= <-]; unfold contract_error; eauto]].
  destruct (map_res _ steps) as [us|e] eqn:Hsteps; cbn; last first.
  { destruct (map_res_err _ _ _ Hsteps) as (step & Hin & He). split.
    - split; [done|]. intros [_ _ Hok _]. apply Hok, (check_step_ok _ _ _ tt) in Hin. congruence.
    - intros e' [= <-]. by eapply check_step_err. }
  assert (forall step, step ∈ steps -> exists u, check_step plan (map Step_id steps) step = Ok u) as Hok.
  { intros step Hin. apply map_res_ok in Hsteps. apply list_elem_of_lookup in Hin as [i Hi].
    destruct (Forall2_lookup_l _ _ _ _ _ Hsteps Hi) as (u & _ & Hu). by exists u. }
  setoid_rewrite check_step_ok in Hok.
  assert (closed_graph (step_graph steps)) as Hclosed.
  { apply step_graph_closed; [done|]. intros step Hin. by destruct (Hok step Hin) as (_ & _ & _ & ? & _). }
  pose proof (search_decides steps order Hnd Hclosed Horder) as Hsearch. cbn zeta in Hsearch. unfold visits in Hsearch.
  destruct (fold_res _ _ order) as [sets|e]; cbn.
  - split; [|done]. split; [|done]. intros _. apply acyclic_graph in Hsearch; [|done]. split; [done|done| |done].
    intros step Hin. by destruct (Hok step Hin) as (u & H).
  - destruct Hsearch as [-> Hcycle]. split; [split; [done|]|intros e [= <-]; unfold cycle_error, contract_error; eauto].
    intros [_ _ _ Ha]. by apply acyclic_graph in Ha.
Qed.

(** With the identifiers in the order of the steps. *)
Lemma validate_graph_decides plan steps :
  validate_graph (remove_dups (map Step_id steps)) plan steps = Ok tt <-> graph_ok plan steps.
Proof. by apply validate_graph_outcome. Qed.

(** C27. The graph check is exact: whatever order Python iterates the identifiers in, it accepts a plan
    if and only if the plan has steps with distinct identifiers, all pending and of this plan, whose
    dependencies and parents are steps of the plan, and whose dependency graph has no cycle. The
    search always ends within the recursion depth that the number of steps allows, and every
    rejection is an [INVALID_REQUEST] error. *)
Theorem validate_graph_exact order plan steps :
  order ≡ₚ remove_dups (map Step_id steps) ->
  (validate_graph order plan steps = Ok tt <-> graph_ok plan steps) /\
  forall e, validate_graph order plan steps = Err e -> exists m details, e = ContractError INVALID_REQUEST m false details.
Proof. apply validate_graph_outcome. Qed.
