(* ===== verification/CoordinationStore.v ===== *)
(** * The coordinator's repository: coordination/repository.py and coordination/retirement.py

    [InMemoryCoordinatorRepository] with every method of the class and of its subclass that the package
    exports, which also keeps the retirements of superseded plans. Its lock makes each method one step (the
    asynchronous adapter serializes the calls as well). A method reads fresh UUIDs and, when the caller
    gives no time, the wall clock from its arguments.

    At the end of the file are the effects of the coordinator: its coroutines await the repository and the kernel,
    and read the clock. Telemetry ([emit]) leaves no trace in either and is not represented, nor are the pauses
    between two attempts of a kernel command. The kernel is anything that answers: what it replies may depend on the
    moment and on every call it received so far. *)

From S2P Require Import Prelude PyValue Errors StateMonad Ident Lifecycle Domain PyTime TransportModels CoordinationModels.
From S2P Require Import Projection Recovery.
From S2P Require Export Programs.

(** Evidence that a superseded plan never dispatches again: coordination/retirement.py. *)
Record PlanRetirement := Build_PlanRetirement {
  retirement_plan_id : string;
  retirement_task_id : string;
  retirement_superseded_by_plan_id : option string;
  retirement_reason : string;
  retirement_retired_at : datetime
}.

Record CoordinatorStore := Build_CoordinatorStore {
  store_plans : gmap string PlanRuntimeState;
  store_records : gmap string StepCoordinationRecord;
  store_claims : gmap string CoordinatorClaim;
  store_fences : gmap string Z;
  store_retirements : gmap string PlanRetirement
}.

Definition new_coordinator_store : CoordinatorStore := Build_CoordinatorStore ∅ ∅ ∅ ∅ ∅.

(** ** Assignments to the dicts *)

Definition put_plan (k : string) (x : PlanRuntimeState) (s : CoordinatorStore) : CoordinatorStore :=
  Build_CoordinatorStore (<[k := x]> (store_plans s)) (store_records s) (store_claims s) (store_fences s) (store_retirements s).
Definition put_record (k : string) (x : StepCoordinationRecord) (s : CoordinatorStore) : CoordinatorStore :=
  Build_CoordinatorStore (store_plans s) (<[k := x]> (store_records s)) (store_claims s) (store_fences s) (store_retirements s).
Definition put_claim (k : string) (x : CoordinatorClaim) (s : CoordinatorStore) : CoordinatorStore :=
  Build_CoordinatorStore (store_plans s) (store_records s) (<[k := x]> (store_claims s)) (store_fences s) (store_retirements s).
Definition drop_claim (k : string) (s : CoordinatorStore) : CoordinatorStore :=
  Build_CoordinatorStore (store_plans s) (store_records s) (delete k (store_claims s)) (store_fences s) (store_retirements s).
Definition put_fence (k : string) (x : Z) (s : CoordinatorStore) : CoordinatorStore :=
  Build_CoordinatorStore (store_plans s) (store_records s) (store_claims s) (<[k := x]> (store_fences s)) (store_retirements s).

Definition put_retirement (k : string) (x : PlanRetirement) (s : CoordinatorStore) : CoordinatorStore :=
  Build_CoordinatorStore (store_plans s) (store_records s) (store_claims s) (store_fences s) (<[k := x]> (store_retirements s)).

Abbreviation store_st := (st CoordinatorStore).

(** ** Plans *)

Definition create_plan (plan : Plan) (steps : list Step) (records : list StepCoordinationRecord) : store_st PlanRuntimeState :=
  state ← of_res (PlanRuntimeState_post_init (Build_PlanRuntimeState plan steps 1));
  _ ← ensure (same_set (map record_step_id records) (map Step_id steps))
        (ValueError "coordination records must cover every canonical Step exactly once");
  existing ← gets (fun s => store_plans s !! Plan_id plan);
  match existing with
  | Some existing =>
      if Plan_eqb (state_plan existing) plan && list_eqb Step_eqb (state_steps existing) steps then mret existing
      else raise (contract_error CONFLICT ("plan " +:+ Plan_id plan +:+ " is already registered"))
  | None =>
      _ ← modify (put_plan (Plan_id plan) state);
      _ ← each (fun record => modify (put_record (record_step_id record) record)) records;
      mret state
  end.

Definition get_plan (plan_id : string) : store_st PlanRuntimeState :=
  found ← gets (fun s => store_plans s !! plan_id);
  match found with
  | Some state => mret state
  | None => raise (contract_error NOT_FOUND ("coordination plan " +:+ plan_id +:+ " not found"))
  end.

(** [sorted(values, key=...)] where the key of the sort is the key of the dict. *)
Definition values_by_key {A} (d : gmap string A) : list A := omap (fun k => d !! k) (sort_strs (map fst (map_to_list d))).

Definition plan_records (plan_id : string) (s : CoordinatorStore) : list StepCoordinationRecord :=
  List.filter (fun record => String.eqb (record_plan_id record) plan_id) (values_by_key (store_records s)).

Definition get_plan_snapshot (plan_id : string) : store_st (PlanRuntimeState * list StepCoordinationRecord) :=
  state ← get_plan plan_id;
  records ← gets (plan_records plan_id);
  mret (state, records).

Definition list_step_records (plan_id : string) : store_st (list StepCoordinationRecord) :=
  snapshot ← get_plan_snapshot plan_id;
  mret snapshot.2.

(** [list_active_plans] of the base class. *)
Definition list_all_plans : store_st (list PlanRuntimeState) := gets (fun s => values_by_key (store_plans s)).

Definition step_not_found (step_id : string) : exc :=
  contract_error NOT_FOUND ("coordination Step " +:+ step_id +:+ " not found").

Definition get_step_record (step_id : string) : store_st StepCoordinationRecord :=
  found ← gets (fun s => store_records s !! step_id);
  match found with Some record => mret record | None => raise (step_not_found step_id) end.

(** ** Saving a step *)

Definition stale_claim (step_id : string) (fence : Z) : exc :=
  ContractError CONFLICT "stale or expired coordinator claim" false [("step_id", VStr step_id); ("fence", VInt fence)].

Definition stale_coordinator_revision (step_id : string) (expected current : Z) : exc :=
  ContractError CONFLICT "stale coordinator revision" false
    [("step_id", VStr step_id); ("expected_revision", VInt expected); ("current_revision", VInt current)].

(** [step if item.id == step.id else item] *)
Definition replace_step (step : Step) (steps : list Step) : list Step :=
  map (fun item => if String.eqb (Step_id item) (Step_id step) then step else item) steps.

(** [commit_time] is [now or datetime.now(UTC)]. *)
Definition save_step (step : Step) (record : StepCoordinationRecord) (expected_revision : Z) (claim : option CoordinatorClaim)
  (commit_time : datetime) : store_st StepCoordinationRecord :=
  _ ← ensure (String.eqb (Step_id step) (record_step_id record) && String.eqb (Step_plan_id step) (record_plan_id record))
        (ValueError "canonical Step and coordination record identity do not match");
  _ ← ensure (is_aware commit_time) (ValueError "coordinator commit time must be timezone-aware");
  current_claim ← gets (fun s => store_claims s !! Step_id step);
  _ ← (match claim with
       | None => mret tt
       | Some claim =>
           ensure (bool_decide (current_claim = Some claim) && negb (dt_leb (claim_expires_at claim) commit_time))
             (stale_claim (Step_id step) (claim_fence claim))
       end);
  found ← gets (fun s => store_records s !! Step_id step);
  match found with
  | None => raise (step_not_found (Step_id step))
  | Some current =>
      _ ← ensure (record_revision current =? expected_revision)%Z
            (stale_coordinator_revision (Step_id step) expected_revision (record_revision current));
      plan_found ← gets (fun s => store_plans s !! Step_plan_id step);
      match plan_found with
      | None => raise (KeyError (Step_plan_id step))
      | Some plan_state =>
          saved ← of_res (StepCoordinationRecord_post_init
            (set_revision (record_revision current + 1)%Z (set_updated_at commit_time record)));
          _ ← modify (put_record (Step_id step) saved);
          state' ← of_res (PlanRuntimeState_post_init
            (Build_PlanRuntimeState (state_plan plan_state) (replace_step step (state_steps plan_state))
               (state_store_revision plan_state + 1)%Z));
          _ ← modify (put_plan (Step_plan_id step) state');
          mret saved
      end
  end.

(** ** Claims *)

Definition naive_comparison : exc := TypeError "can't compare offset-naive and offset-aware datetimes".

Definition acquire_claim (step_id owner_id : string) (ttl : Z) (now : datetime) (uuid : string) :
  store_st (option CoordinatorClaim) :=
  _ ← ensure (0 <? ttl)%Z (ValueError "claim ttl must be positive");
  _ ← ensure (is_aware now) (ValueError "claim time must be timezone-aware");
  _ ← get_step_record step_id;
  current ← gets (fun s => store_claims s !! step_id);
  if (match current with
      | Some current => negb (dt_leb (claim_expires_at current) now) && negb (String.eqb (claim_owner_id current) owner_id)
      | None => false
      end)
  then mret None
  else
    fences ← gets store_fences;
    let fence := (default 0 (fences !! step_id) + 1)%Z in
    _ ← modify (put_fence step_id fence);
    expires_at ← of_res (dt_add now ttl);
    claim ← of_res (CoordinatorClaim_post_init (Build_CoordinatorClaim step_id ("claim-" +:+ uuid) owner_id fence expires_at));
    _ ← modify (put_claim step_id claim);
    mret (Some claim).

Definition renew_claim (claim : CoordinatorClaim) (ttl : Z) (now : datetime) : store_st (option CoordinatorClaim) :=
  _ ← ensure (0 <? ttl)%Z (ValueError "claim ttl must be positive");
  current ← gets (fun s => store_claims s !! claim_step_id claim);
  if negb (bool_decide (current = Some claim)) then mret None
  else
    _ ← ensure (is_aware now) naive_comparison;
    if dt_leb (claim_expires_at claim) now then mret None
    else
      expires_at ← of_res (dt_add now ttl);
      renewed ← of_res (CoordinatorClaim_post_init (Build_CoordinatorClaim (claim_step_id claim) (claim_claim_id claim)
        (claim_owner_id claim) (claim_fence claim) expires_at));
      _ ← modify (put_claim (claim_step_id claim) renewed);
      mret (Some renewed).

Definition release_claim (claim : CoordinatorClaim) : store_st bool :=
  current ← gets (fun s => store_claims s !! claim_step_id claim);
  if negb (bool_decide (current = Some claim)) then mret false
  else
    _ ← modify (drop_claim (claim_step_id claim));
    mret true.

(** ** Retired plans: [InMemoryCoordinatorRepository] of coordination/retirement.py *)

Definition PlanRetirement_post_init (r : PlanRetirement) : res PlanRetirement :=
  _ ← validate_id (retirement_plan_id r) "plan";
  _ ← validate_id (retirement_task_id r) "task";
  _ ← validate_optional_id (retirement_superseded_by_plan_id r) "plan";
  _ ← require (negb (blank (retirement_reason r))) (ValueError "plan retirement reason must not be blank");
  _ ← require (is_aware (retirement_retired_at r)) (ValueError "plan retirement time must be timezone-aware");
  Ok r.

Definition retire_plan (plan_id : string) (superseded_by_plan_id : option string) (reason : string) (retired_at : datetime) :
  store_st PlanRetirement :=
  state ← get_plan plan_id;
  candidate ← of_res (PlanRetirement_post_init
    (Build_PlanRetirement plan_id (Plan_task_id (state_plan state)) superseded_by_plan_id reason retired_at));
  existing ← gets (fun s => store_retirements s !! plan_id);
  match existing with
  | Some existing =>
      if bool_decide (retirement_superseded_by_plan_id existing = retirement_superseded_by_plan_id candidate) &&
         String.eqb (retirement_reason existing) (retirement_reason candidate)
      then mret existing
      else raise (contract_error CONFLICT ("coordination Plan " +:+ plan_id +:+ " already has a different retirement"))
  | None =>
      _ ← modify (put_retirement plan_id candidate);
      mret candidate
  end.

Definition plan_retirement (plan_id : string) : store_st (option PlanRetirement) :=
  _ ← get_plan plan_id;
  gets (fun s => store_retirements s !! plan_id).

Definition list_active_plans : store_st (list PlanRuntimeState) :=
  states ← list_all_plans;
  retired ← gets store_retirements;
  mret (List.filter (fun state => bool_decide (retired !! Plan_id (state_plan state) = None)) states).

(** ** Effects of the coordinator *)

(** [source="platform-coordinator"] is the same in every command. *)
Inductive kernel_op :=
| GetTask (task_id : string)
| GetRun (task_id run_id : string)
| CreateRun (idempotency_key task_id subject_id : string)     (* subject_type="step" *)
| StartRun (idempotency_key task_id run_id : string)
| CancelRun (idempotency_key task_id run_id : string)
| CompleteTask (idempotency_key task_id : string)
| FailTask (idempotency_key task_id reason : string)
| CancelTask (idempotency_key task_id : string)
| RecoverTask (task_id : string).

Definition kernel_reply (o : kernel_op) : Type :=
  match o with
  | GetTask _ | CompleteTask _ _ | FailTask _ _ _ | CancelTask _ _ => TaskState
  | GetRun _ _ | CreateRun _ _ _ | StartRun _ _ _ | CancelRun _ _ _ => RunState
  | RecoverTask _ => RecoveryReport
  end.

Inductive cop :=
| Now                                                                  (* utc_now() *)
| Schedule                                                             (* the order in which asyncio runs gathered children *)
| CreatePlan (plan : Plan) (steps : list Step) (records : list StepCoordinationRecord)
| GetPlan (plan_id : string)
| GetSnapshot (plan_id : string)
| GetRecord (step_id : string)
| ListRecords (plan_id : string)
| ListPlans
| SaveStep (step : Step) (record : StepCoordinationRecord) (expected_revision : Z) (claim : CoordinatorClaim) (now : datetime)
| AcquireClaim (step_id owner_id : string) (ttl : Z) (now : datetime)
| ReleaseClaim (claim : CoordinatorClaim)
| RetirePlan (plan_id : string) (superseded_by_plan_id : option string) (reason : string) (retired_at : datetime)
| GetRetirement (plan_id : string)
| Ask (o : kernel_op).

Definition creply (o : cop) : Type :=
  match o with
  | Now => Z
  | Schedule => list nat
  | CreatePlan _ _ _ | GetPlan _ => PlanRuntimeState
  | GetSnapshot _ => PlanRuntimeState * list StepCoordinationRecord
  | GetRecord _ | SaveStep _ _ _ _ _ => StepCoordinationRecord
  | ListRecords _ => list StepCoordinationRecord
  | ListPlans => list PlanRuntimeState
  | AcquireClaim _ _ _ _ => option CoordinatorClaim
  | ReleaseClaim _ => bool
  | RetirePlan _ _ _ _ => PlanRetirement
  | GetRetirement _ => option PlanRetirement
  | Ask o => kernel_reply o
  end.

Abbreviation cprog := (prog creply).
Abbreviation ccall := (call (R := creply)).
Definition ask (o : kernel_op) : cprog (kernel_reply o) := ccall (Ask o).

(** ** The world *)

Record coordination_env := Build_coordination_env {
  cenv_now : nat -> Z;
  cenv_uuid : nat -> string;
  cenv_schedule : nat -> list nat;
  cenv_kernel : nat -> list kernel_op -> forall o, res (kernel_reply o)
}.

(** The repository, the number of operations performed, and the kernel calls made, latest first. *)
Record cworld := Build_cworld {
  w_store : CoordinatorStore;
  w_clock : nat;
  w_asked : list kernel_op
}.

Section perform.
Context (E : coordination_env).

Definition on_store {A} (w : cworld) (m : store_st A) : res A * cworld :=
  let '(r, s) := m (w_store w) in (r, Build_cworld s (S (w_clock w)) (w_asked w)).

Definition perform (o : cop) (w : cworld) : res (creply o) * cworld :=
  match o return res (creply o) * cworld with
  | Now => (Ok (cenv_now E (w_clock w)), Build_cworld (w_store w) (S (w_clock w)) (w_asked w))
  | Schedule => (Ok (cenv_schedule E (w_clock w)), Build_cworld (w_store w) (S (w_clock w)) (w_asked w))
  | CreatePlan plan steps records => on_store w (create_plan plan steps records)
  | GetPlan plan_id => on_store w (get_plan plan_id)
  | GetSnapshot plan_id => on_store w (get_plan_snapshot plan_id)
  | GetRecord step_id => on_store w (get_step_record step_id)
  | ListRecords plan_id => on_store w (list_step_records plan_id)
  | ListPlans => on_store w list_active_plans
  | SaveStep step record expected claim now => on_store w (save_step step record expected (Some claim) now)
  | AcquireClaim step_id owner_id ttl now =>
      on_store w (acquire_claim step_id owner_id ttl now (cenv_uuid E (w_clock w)))
  | ReleaseClaim claim => on_store w (release_claim claim)
  | RetirePlan plan_id by_plan reason at_time => on_store w (retire_plan plan_id by_plan reason at_time)
  | GetRetirement plan_id => on_store w (plan_retirement plan_id)
  | Ask o => (cenv_kernel E (w_clock w) (w_asked w) o, Build_cworld (w_store w) (S (w_clock w)) (o :: w_asked w))
  end.
End perform.
