(* ===== verification/CoordinationSteps.v ===== *)
(** * What the coordinator does to one step

    The claims of the facade (coordination/plan_step_coordinator.py), the dependency barrier and the
    dispatch of attempts (progression.py), the observation of run outcomes and the activation of
    retries (attempt_outcomes.py), and the cancellation of an active run (cancellation.py). *)

From Stdlib Require Import SpecFloat.
From S2P Require Import Prelude PyValue Errors StateMonad Ident Lifecycle Domain PyTime TransportModels.
From S2P Require Import CoordinationModels CoordinationStore Projection Recovery.

(** What [DurablePlanStepCoordinator] is constructed with; [float_pow x n] is [x ** n]. *)
Record CoordinatorConfig := Build_CoordinatorConfig {
  coordinator_id : string;
  claim_ttl : Z;
  float_pow : spec_float -> Z -> res spec_float
}.

Definition CoordinatorConfig_init (cfg : CoordinatorConfig) : res CoordinatorConfig :=
  _ ← require (negb (blank (coordinator_id cfg))) (ValueError "coordinator_id must not be blank");
  _ ← require (0 <? claim_ttl cfg)%Z (ValueError "claim_ttl must be positive");
  Ok cfg.

(** [step.transition_to(target)]: the clock is read after the check. *)
Definition transition (step : Step) (target : StepStatus) : cprog Step :=
  _ ← lift (require_transition (Step_status step) target STEP_TRANSITIONS);
  now ← ccall Now;
  lift (Step_transition_to now target step).

(** [(await repository.get_plan(plan_id)).step(step_id)] *)
Definition plan_step (plan_id step_id : string) : cprog Step :=
  state ← ccall (GetPlan plan_id);
  lift (state_step state step_id).

(** [replace(record, ...)] runs the constructor's checks again. *)
Definition checked (record : StepCoordinationRecord) : cprog StepCoordinationRecord :=
  lift (StepCoordinationRecord_post_init record).

Definition is_status (s t : StepStatus) : bool := bool_decide (s = t).
Definition is_phase (p q : CoordinationPhase) : bool := bool_decide (p = q).

(** [CoordinationWaits.close_wait] *)
Definition close_wait (wait : option StepWait) (resolution : WaitResolution) (resolution_key : string) (now : datetime) :
  option StepWait :=
  match wait with
  | None => None
  | Some w => if wait_resolved w then Some w else Some (wait_set_resolved now resolution resolution_key w)
  end.

(** [RetryState.CANCELLED if retry_state in {SCHEDULED, ACTIVE} else retry_state], and its like. *)
Definition closed_retry (closed : RetryState) (retry_state : RetryState) : RetryState :=
  match retry_state with RS_SCHEDULED | RS_ACTIVE => closed | r => r end.
Definition active_becomes (closed : RetryState) (retry_state : RetryState) : RetryState :=
  match retry_state with RS_ACTIVE => closed | r => r end.

Section steps.
Context (cfg : CoordinatorConfig).

(** ** Claims *)

(** [_claim], without its telemetry; on a conflict it reads the record for the telemetry. *)
Definition claim_step (step_id : string) (now : datetime) : cprog (option CoordinatorClaim) :=
  claim ← ccall (AcquireClaim step_id (coordinator_id cfg) (claim_ttl cfg) now);
  match claim with
  | Some c => Ret (Some c)
  | None => _ ← ccall (GetRecord step_id); Ret None
  end.

Definition required_claim (step_id : string) (now : datetime) : cprog CoordinatorClaim :=
  claim ← claim_step step_id now;
  match claim with
  | Some c => Ret c
  | None => Raise (ContractError CONFLICT "another coordinator currently owns this Step" false [("step_id", VStr step_id)])
  end.

(** [try: body finally: await repository.release_claim(claim)] *)
Definition holding {A} (claim : CoordinatorClaim) (body : cprog A) : cprog A :=
  finally body (_ ← ccall (ReleaseClaim claim); Ret tt).

(** The shape of the methods that give up when another coordinator owns the step. *)
Definition under_claim {A} (step_id : string) (now : datetime) (otherwise : A) (body : CoordinatorClaim -> cprog A) : cprog A :=
  claim ← claim_step step_id now;
  match claim with
  | None => Ret otherwise
  | Some c => holding c (body c)
  end.

Definition save (step : Step) (record current : StepCoordinationRecord) (claim : CoordinatorClaim) (now : datetime) : cprog unit :=
  _ ← ccall (SaveStep step record (record_revision current) claim now); Ret tt.

(** ** The dependency barrier: progression.py *)

(** The loop that sorts the dependencies into satisfied and failed ones. *)
Fixpoint barrier_items (by_id : list Step) (dependency_ids : list string) : cprog (list string * list string) :=
  match dependency_ids with
  | [] => Ret ([], [])
  | d :: rest =>
      dependency ← lift (match find_step d by_id with Some s => Ok s | None => Err (KeyError d) end);
      verdict ← (match Step_status dependency with
                 | S_SUCCEEDED => Ret (Some true)
                 | S_FAILED | S_CANCELLED => Ret (Some false)
                 | S_SKIPPED =>
                     dependency_record ← ccall (GetRecord d);
                     Ret (Some (same_set (record_satisfied_dependency_ids dependency_record)
                                         (record_dependency_ids dependency_record)))
                 | _ => Ret None
                 end);
      items ← barrier_items by_id rest;
      Ret (match verdict with
           | Some true => (d :: items.1, items.2)
           | Some false => (items.1, d :: items.2)
           | None => items
           end)
  end.

Definition barrier_failed (step : Step) (satisfied : list string) (now : datetime) (claim : CoordinatorClaim) : cprog bool :=
  current ← ccall (GetRecord (Step_id step));
  current_step ← plan_step (Step_plan_id step) (Step_id step);
  if negb (is_status (Step_status current_step) S_PENDING) then Ret false
  else
    terminal ← transition current_step
      (if bool_decide (record_predecessor_failure_policy current = CANCEL_DEPENDENT) then S_CANCELLED else S_SKIPPED);
    updated ← checked (set_phase PH_TERMINAL (set_satisfied_dependency_ids satisfied
      (set_reconciliation_detail (Some "predecessor failed or cancelled") current)));
    _ ← save terminal updated current claim now;
    Ret true.

Definition barrier_progress (step : Step) (satisfied : list string) (now : datetime) (claim : CoordinatorClaim) : cprog bool :=
  current ← ccall (GetRecord (Step_id step));
  current_step ← plan_step (Step_plan_id step) (Step_id step);
  updated ← checked (set_satisfied_dependency_ids satisfied current);
  next ← (if same_set satisfied (record_dependency_ids current) then
            ready ← transition current_step S_READY;
            updated ← checked (set_phase PH_READY updated);
            Ret (ready, updated)
          else Ret (current_step, updated));
  _ ← save next.1 next.2 current claim now;
  Ret true.

Definition barrier_absent (step : Step) (now : datetime) (claim : CoordinatorClaim) : cprog bool :=
  current ← ccall (GetRecord (Step_id step));
  current_step ← plan_step (Step_plan_id step) (Step_id step);
  if negb (is_status (Step_status current_step) S_PENDING) then Ret false
  else
    ready ← transition current_step S_READY;
    updated ← checked (set_phase PH_READY current);
    _ ← save ready updated current claim now;
    Ret true.

Definition refresh_dependencies (step : Step) (record : StepCoordinationRecord) (by_id : list Step) (now : datetime) : cprog bool :=
  if negb (is_status (Step_status step) S_PENDING) then Ret false
  else
    items ← barrier_items by_id (record_dependency_ids record);
    if negb (bool_decide (items.2 = [])) then under_claim (Step_id step) now false (barrier_failed step items.1 now)
    else if negb (same_set items.1 (record_satisfied_dependency_ids record))
    then under_claim (Step_id step) now false (barrier_progress step items.1 now)
    else if bool_decide (record_dependency_ids record = []) then under_claim (Step_id step) now false (barrier_absent step now)
    else Ret false.

(** ** Attempts *)

Definition STALE_STREAM_RETRY_LIMIT : nat := 32.

(** [_is_stale_revision_conflict] *)
Definition stale_stream_conflict (e : exc) : bool :=
  match e with
  | ContractError CONFLICT _ retryable details =>
      retryable && (match dict_get "reason" details with
                    | Some (VStr s) => String.eqb s "stale_stream_revision"
                    | _ => false end)
  | _ => false
  end.

(** The loop of [_create_run_with_stale_retry] and [_start_run_with_stale_retry]. *)
Fixpoint with_stale_retry {A} (limit : nat) (command : cprog A) (last_stale_conflict : exc) : cprog A :=
  match limit with
  | 0 => Raise last_stale_conflict
  | S limit' =>
      outcome ← attempt command;
      match outcome with
      | Ok a => Ret a
      | Err e => if stale_stream_conflict e then with_stale_retry limit' command e else Raise e
      end
  end.

Definition attempt_key (record : StepCoordinationRecord) (attempt : Z) : string :=
  "coord:" +:+ record_plan_id record +:+ ":" +:+ record_step_id record +:+ ":attempt:" +:+ pretty attempt.
Definition start_key (record : StepCoordinationRecord) (attempt : Z) : string :=
  attempt_key record attempt +:+ ":start".

Definition create_run_with_stale_retry (record : StepCoordinationRecord) (attempt : Z) : cprog RunState :=
  with_stale_retry STALE_STREAM_RETRY_LIMIT
    (ask (CreateRun (attempt_key record attempt) (record_task_id record) (record_step_id record)))
    (RuntimeError "stale-revision create_run retry loop exited without a conflict").

Definition start_run_with_stale_retry (record : StepCoordinationRecord) (attempt : Z) (run_id : string) : cprog RunState :=
  with_stale_retry STALE_STREAM_RETRY_LIMIT
    (ask (StartRun (start_key record attempt) (record_task_id record) run_id))
    (RuntimeError "stale-revision start_run retry loop exited without a conflict").

Definition start_claimed_attempt (step : Step) (now : datetime) (claim : CoordinatorClaim) : cprog bool :=
  current ← ccall (GetRecord (Step_id step));
  current_step ← plan_step (Step_plan_id step) (Step_id step);
  if negb (is_phase (record_phase current) PH_READY) || negb (is_status (Step_status current_step) S_READY) then Ret false
  else
    let attempt := (record_current_attempt current + 1)%Z in
    run ← create_run_with_stale_retry current attempt;
    _ ← guard (RunState_attempt run =? attempt)%Z
          (ContractError CONFLICT "kernel Run attempt does not match coordinator attempt" false
             [("expected_attempt", VInt attempt); ("run_attempt", VInt (RunState_attempt run))]);
    running ← transition current_step S_RUNNING;
    updated ← checked (set_phase PH_ATTEMPT_ACTIVE (set_latest_run_id (Some (RunState_run_id run))
      (set_current_attempt attempt (set_retry_due_at None (set_reconciliation RD_CONSISTENT
      (set_reconciliation_detail None current))))));
    _ ← save running updated current claim now;
    _ ← start_run_with_stale_retry current attempt (RunState_run_id run);
    Ret true.

(** [CoordinationProgression.start_attempt]; its argument [record] is not used. *)
Definition start_attempt (step : Step) (now : datetime) : cprog bool :=
  under_claim (Step_id step) now false (start_claimed_attempt step now).

(** ** Outcomes: attempt_outcomes.py *)

(** [run:{run_id}:{status}] *)
Definition observation_key_of (observation_key : option string) (run_id : string) (status : RunStatus) : string :=
  match observation_key with
  | Some k => if String.eqb k "" then "run:" +:+ run_id +:+ ":" +:+ enum_value status else k
  | None => "run:" +:+ run_id +:+ ":" +:+ enum_value status
  end.

(** [failure_category or run.status.value] *)
Definition category_of (failure_category : option string) (status : RunStatus) : string :=
  match failure_category with
  | Some c => if String.eqb c "" then enum_value status else c
  | None => enum_value status
  end.

(** A successful run: the step and the record to save. *)
Definition observed_success (step : Step) (current next_record : StepCoordinationRecord) : cprog (Step * StepCoordinationRecord) :=
  if is_status (Step_status step) S_RUNNING then
    next_step ← transition step S_SUCCEEDED;
    next ← checked (set_phase PH_TERMINAL (set_retry_state (active_becomes RS_COMPLETED (record_retry_state current)) next_record));
    Ret (next_step, next)
  else if is_status (Step_status step) S_WAITING && bool_decide (is_Some (record_wait current)) then
    next ← checked (set_phase PH_WAITING next_record);
    Ret (step, next)
  else if negb (is_status (Step_status step) S_SUCCEEDED) then
    next ← checked (set_phase PH_INCONSISTENT (set_reconciliation RD_INCONSISTENT
      (set_reconciliation_detail (Some "successful Run conflicts with canonical Step status") next_record)));
    Ret (step, next)
  else Ret (step, next_record).

(** A failed run: retry, or give up. *)
Definition observed_failure (step : Step) (current next_record : StepCoordinationRecord) (attempt : Z) (category key : string)
  (now : datetime) : cprog (Step * StepCoordinationRecord) :=
  next_step ← (if is_status (Step_status step) S_RUNNING || is_status (Step_status step) S_WAITING
               then transition step S_FAILED else Ret step);
  let reached := Z.max (record_current_attempt current) attempt in
  let policy := record_retry_policy current in
  let category_retryable := in_strs category (retry_retryable_categories policy) in
  let closed_wait := close_wait (record_wait current) WR_CANCELLED key now in
  next ← (if category_retryable && (reached + 1 <=? retry_max_attempts policy)%Z then
            delay ← lift (delay_for_attempt (float_pow cfg) policy (reached + 1)%Z);
            due ← lift (dt_add now delay);
            checked (set_phase PH_RETRY_SCHEDULED (set_current_attempt reached (set_retry_due_at (Some due)
              (set_retry_state RS_SCHEDULED (set_wait closed_wait next_record)))))
          else
            checked (set_phase PH_TERMINAL (set_current_attempt reached (set_retry_due_at None
              (set_retry_state (if category_retryable then RS_EXHAUSTED else RS_NOT_RETRYABLE) (set_wait closed_wait next_record))))));
  Ret (next_step, next).

Definition observed_cancellation (step : Step) (current next_record : StepCoordinationRecord) (key : string) (now : datetime) :
  cprog (Step * StepCoordinationRecord) :=
  next_step ← (if is_status (Step_status step) S_RUNNING || is_status (Step_status step) S_WAITING
               then transition step S_CANCELLED else Ret step);
  next ← checked (set_phase PH_TERMINAL (set_retry_due_at None
    (set_retry_state (closed_retry RS_CANCELLED (record_retry_state current))
    (set_wait (close_wait (record_wait current) WR_CANCELLED key now) next_record))));
  Ret (next_step, next).

Definition observe_claimed_run (run : RunState) (run_id : string) (record : StepCoordinationRecord) (failure_category : option string)
  (key : string) (now : datetime) (claim : CoordinatorClaim) : cprog (string * bool) :=
  step ← plan_step (record_plan_id record) (record_step_id record);
  current ← ccall (GetRecord (record_step_id record));
  if in_strs key (record_processed_keys current) then Ret (record_plan_id current, false)
  else
    next_record ← checked (set_processed_keys (record_processed_keys current ++ [key]) (set_latest_run_id (Some run_id) current));
    next ← (match RunState_status run with
            | R_SUCCEEDED => observed_success step current next_record
            | R_FAILED | R_TIMED_OUT =>
                observed_failure step current next_record (RunState_attempt run) (category_of failure_category (RunState_status run)) key now
            | _ => observed_cancellation step current next_record key now
            end);
    _ ← save next.1 next.2 current claim now;
    Ret (record_plan_id current, true).

(** [CoordinationAttemptOutcomes.observe_run]: the plan, and whether anything changed. *)
Definition observe_outcome (task_id run_id : string) (failure_category observation_key : option string) (now : datetime) :
  cprog (string * bool) :=
  run ← ask (GetRun task_id run_id);
  _ ← guard (String.eqb (Run_subject_type (RunState_run run)) "step")
        (contract_error INVALID_REQUEST "coordinator accepts only Step Runs");
  _ ← guard (run_terminal (RunState_status run)) (contract_error CONFLICT ("run " +:+ run_id +:+ " is not terminal"));
  record ← ccall (GetRecord (Run_subject_id (RunState_run run)));
  _ ← guard (String.eqb (record_task_id record) task_id) (contract_error CONFLICT "Run/Step task scope mismatch");
  let key := observation_key_of observation_key run_id (RunState_status run) in
  if in_strs key (record_processed_keys record) then Ret (record_plan_id record, false)
  else
    under_claim (record_step_id record) now (record_plan_id record, false)
      (observe_claimed_run run run_id record failure_category key now).

Definition activate_claimed_retry (step : Step) (now : datetime) (claim : CoordinatorClaim) : cprog bool :=
  current ← ccall (GetRecord (Step_id step));
  current_step ← plan_step (Step_plan_id step) (Step_id step);
  if negb (is_phase (record_phase current) PH_RETRY_SCHEDULED) ||
     (match record_retry_due_at current with None => true | Some due => dt_ltb now due end)
  then Ret false
  else
    ready ← transition current_step S_READY;
    updated ← checked (set_phase PH_READY (set_retry_due_at None (set_retry_state RS_ACTIVE current)));
    _ ← save ready updated current claim now;
    Ret true.

Definition activate_retry (step : Step) (now : datetime) : cprog bool :=
  if negb (is_status (Step_status step) S_FAILED) then Ret false
  else under_claim (Step_id step) now false (activate_claimed_retry step now).

(** ** The active run of a step: [cancel_active_run] of cancellation.py *)

Definition cancel_active_run (record : StepCoordinationRecord) (key : string) : cprog unit :=
  match record_latest_run_id record with
  | None => Ret tt
  | Some run_id =>
      run ← ask (GetRun (record_task_id record) run_id);
      if run_terminal (RunState_status run) then Ret tt
      else _ ← ask (CancelRun key (record_task_id record) run_id); Ret tt
  end.

End steps.
