(* ===== verification/Coordinator.v ===== *)
(** * The durable plan and step coordinator

    [DurablePlanStepCoordinator] as the package exports it (the subclass of
    coordination/retirement.py over coordination/plan_step_coordinator.py), with the parts it delegates
    to: waits.py, cancellation.py, aggregation.py, reconciliation.py and registration.py. The steps a
    method takes for one step of a plan are in CoordinationSteps.v.

    The loop of [advance] runs as long as it makes progress; [fuel] bounds its rounds. *)

From S2P Require Import Prelude PyValue Errors StateMonad Ident Lifecycle Domain PyTime TransportModels.
From S2P Require Import CoordinationModels PlanGraph CoordinationStore Projection Recovery CoordinationSteps.

Section coordinator.
Context (cfg : CoordinatorConfig) (fuel : nat).

(** ** Time *)

(** [_now]: [now or datetime.now(UTC)], in UTC. *)
Definition coordinator_now (now : option datetime) : cprog datetime :=
  value ← (match now with Some t => Ret t | None => us ← ccall Now; Ret (Aware us) end);
  _ ← guard (is_aware value) (ValueError "coordinator timestamps must be timezone-aware");
  Ret value.

(** ** Projections *)

Definition step_projection (records : list StepCoordinationRecord) (step : Step) : res StepCoordinationProjection :=
  match List.find (fun r => String.eqb (record_step_id r) (Step_id step)) records with
  | None => Err (KeyError (Step_id step))
  | Some r =>
      Ok (Build_StepCoordinationProjection (Step_id step) (Step_status step) (record_phase r) (record_dependency_ids r)
        (record_satisfied_dependency_ids r) (record_latest_run_id r) (record_current_attempt r) (record_retry_due_at r)
        (wait_wait_type <$> record_wait r) (record_wait r ≫= wait_deadline_at) (record_reconciliation r))
  end.

(** [_projection_from_state] *)
Definition projection_from_state (state : PlanRuntimeState) (records : list StepCoordinationRecord) : res PlanCoordinationProjection :=
  steps ← map_res (step_projection records) (state_steps state);
  Ok (Build_PlanCoordinationProjection (Plan_task_id (state_plan state)) (Plan_id (state_plan state))
    (Plan_revision (state_plan state)) steps).

Definition async_projection (plan_id : string) : cprog PlanCoordinationProjection :=
  snapshot ← ccall (GetSnapshot plan_id);
  lift (projection_from_state snapshot.1 snapshot.2).

(** ** Retiring superseded plans: retirement.py *)

Definition RETIREMENT_REASON : string := "canonical_plan_superseded".

(** The step and the retry state that a retired step ends with. *)
Definition retired_active_step (step : Step) (record : StepCoordinationRecord) (run_id : string) : cprog (Step * RetryState) :=
  run ← ask (GetRun (record_task_id record) run_id);
  _ ← guard (run_terminal (RunState_status run))
        (ContractError CONFLICT "cannot retire superseded Plan while its canonical Step Run is active" false
           [("plan_id", VStr (record_plan_id record)); ("step_id", VStr (record_step_id record));
            ("run_id", VStr (RunState_run_id run)); ("run_status", VStr (enum_value (RunState_status run)))]);
  if is_status (Step_status step) S_RUNNING then
    match RunState_status run with
    | R_SUCCEEDED => next ← transition step S_SUCCEEDED; Ret (next, active_becomes RS_COMPLETED (record_retry_state record))
    | R_FAILED | R_TIMED_OUT => next ← transition step S_FAILED; Ret (next, active_becomes RS_CANCELLED (record_retry_state record))
    | _ => next ← transition step S_CANCELLED; Ret (next, active_becomes RS_CANCELLED (record_retry_state record))
    end
  else Ret (step, record_retry_state record).

Definition retired_idle_step (step : Step) (record : StepCoordinationRecord) : cprog (Step * RetryState) :=
  next ← (match Step_status step with
          | S_PENDING | S_READY | S_WAITING | S_RUNNING => transition step S_CANCELLED
          | _ => Ret step
          end);
  Ret (next, closed_retry RS_CANCELLED (record_retry_state record)).

(** [_retired_step_state] *)
Definition retired_step_state (step : Step) (record : StepCoordinationRecord) (superseded_by_plan_id : option string) (now : datetime) :
  cprog (Step * StepCoordinationRecord) :=
  let detail := match superseded_by_plan_id with
                | None => "coordination Plan superseded"
                | Some p => "coordination Plan superseded by " +:+ p
                end in
  let wait := close_wait (record_wait record) WR_CANCELLED ("superseded:" +:+ record_plan_id record) now in
  outcome ← (match record_phase record, record_latest_run_id record with
             | PH_ATTEMPT_ACTIVE, Some run_id => retired_active_step step record run_id
             | PH_RETRY_SCHEDULED, _ => Ret (step, RS_CANCELLED)
             | _, _ => retired_idle_step step record
             end);
  updated ← checked (set_phase PH_TERMINAL (set_retry_due_at None (set_retry_state outcome.2 (set_wait wait
    (set_reconciliation RD_CANONICAL_TERMINAL (set_reconciliation_detail (Some detail) record))))));
  Ret (outcome.1, updated).

Definition retire_claimed_step (plan_id : string) (superseded_by_plan_id : option string) (now : datetime)
  (record : StepCoordinationRecord) (claim : CoordinatorClaim) : cprog unit :=
  current ← ccall (GetRecord (record_step_id record));
  current_step ← plan_step plan_id (record_step_id record);
  if is_phase (record_phase current) PH_TERMINAL then Ret tt
  else
    retired ← retired_step_state current_step current superseded_by_plan_id now;
    save retired.1 retired.2 current claim now.

Definition retire_step (plan_id : string) (superseded_by_plan_id : option string) (now : datetime) (record : StepCoordinationRecord) :
  cprog unit :=
  if is_phase (record_phase record) PH_TERMINAL then Ret tt
  else
    claim ← claim_step cfg (record_step_id record) now;
    match claim with
    | None => Raise (ContractError CONFLICT "superseded Plan retirement is waiting for an in-flight coordinator claim" false
                [("plan_id", VStr plan_id); ("step_id", VStr (record_step_id record))])
    | Some c => holding c (retire_claimed_step plan_id superseded_by_plan_id now record c)
    end.

(** [_retire_plan] *)
Definition retire_superseded_plan (plan_id : string) (superseded_by_plan_id : option string) (now : datetime) : cprog unit :=
  existing ← ccall (GetRetirement plan_id);
  match existing with
  | Some _ => Ret tt
  | None =>
      records ← ccall (ListRecords plan_id);
      _ ← for_each (retire_step plan_id superseded_by_plan_id now) records;
      _ ← ccall (RetirePlan plan_id superseded_by_plan_id RETIREMENT_REASON now);
      Ret tt
  end.

(** [_retire_if_superseded] *)
Definition retire_if_superseded (state : PlanRuntimeState) (now : datetime) : cprog bool :=
  task ← ask (GetTask (Plan_task_id (state_plan state)));
  if bool_decide (TaskState_plan_ref task = Some (Plan_id (state_plan state))) then Ret false
  else _ ← retire_superseded_plan (Plan_id (state_plan state)) (TaskState_plan_ref task) now; Ret true.

(** [_retire_other_task_plans] *)
Definition retire_other_task_plans (task_id active_plan_id : string) (now : datetime) : cprog unit :=
  states ← ccall ListPlans;
  _ ← for_each (fun state =>
    if negb (String.eqb (Plan_task_id (state_plan state)) task_id) || String.eqb (Plan_id (state_plan state)) active_plan_id
    then Ret tt
    else retire_superseded_plan (Plan_id (state_plan state)) (Some active_plan_id) now) states;
  Ret tt.

(** [_start_attempt] *)
Definition start_attempt_unless_superseded (step : Step) (record : StepCoordinationRecord) (now : datetime) : cprog bool :=
  task ← ask (GetTask (record_task_id record));
  if negb (bool_decide (TaskState_plan_ref task = Some (record_plan_id record))) then
    state ← ccall (GetPlan (record_plan_id record));
    _ ← retire_superseded_plan (Plan_id (state_plan state)) (TaskState_plan_ref task) now;
    Ret false
  else
    catch (start_attempt cfg step now) (fun e =>
      if negb (has_code CONFLICT e) then Raise e
      else
        refreshed ← ask (GetTask (record_task_id record));
        if bool_decide (TaskState_plan_ref refreshed = Some (record_plan_id record)) then Raise e
        else
          state ← ccall (GetPlan (record_plan_id record));
          _ ← retire_superseded_plan (Plan_id (state_plan state)) (TaskState_plan_ref refreshed) now;
          Ret false).

(** ** The outcome of the task: aggregation.py *)

Definition TERMINAL_STEPS : list StepStatus := [S_SUCCEEDED; S_FAILED; S_SKIPPED; S_CANCELLED].

Definition aggregate_key (plan_id outcome : string) : string := "coord:" +:+ plan_id +:+ ":aggregate:" +:+ outcome.

Definition has_status (s : StepStatus) (steps : list Step) : bool := existsb (fun step => is_status (Step_status step) s) steps.

Definition aggregate_task (plan_id : string) : cprog unit :=
  state ← ccall (GetPlan plan_id);
  records ← ccall (ListRecords plan_id);
  let steps := state_steps state in
  let task_id := Plan_task_id (state_plan state) in
  if negb (Nat.eqb (length records) (length steps)) || existsb (fun r => negb (is_phase (record_phase r) PH_TERMINAL)) records
  then Ret tt
  else if bool_decide (steps = []) || existsb (fun step => negb (bool_decide (Step_status step ∈ TERMINAL_STEPS))) steps then Ret tt
  else
    task ← ask (GetTask task_id);
    if negb (bool_decide (TaskState_plan_ref task = Some plan_id)) then Ret tt
    else if bool_decide (TaskState_status task ∈ [T_SUCCEEDED; T_CANCELLED]) then Ret tt
    else if has_status S_FAILED steps then
      if bool_decide (TaskState_status task ∈ [T_RUNNING; T_WAITING]) then
        _ ← ask (FailTask (aggregate_key plan_id "failed") task_id "canonical Plan contains a failed Step"); Ret tt
      else Ret tt
    else if has_status S_CANCELLED steps then
      if bool_decide (TaskState_status task ∈ [T_DRAFT; T_READY; T_RUNNING; T_WAITING]) then
        _ ← ask (CancelTask (aggregate_key plan_id "cancelled") task_id); Ret tt
      else Ret tt
    else if bool_decide (TaskState_status task = T_RUNNING) then
      _ ← ask (CompleteTask (aggregate_key plan_id "succeeded") task_id); Ret tt
    else Ret tt.

(** ** Advancing a plan *)

Definition due_by (due : option datetime) (now : datetime) : bool :=
  match due with Some t => dt_leb t now | None => false end.

(** The body of the loop over the records of a snapshot. *)
Definition advance_record (steps : list Step) (now : datetime) (record : StepCoordinationRecord) : cprog bool :=
  step ← lift (match find_step (record_step_id record) steps with Some s => Ok s | None => Err (KeyError (record_step_id record)) end);
  match record_phase record with
  | PH_RETRY_SCHEDULED => if due_by (record_retry_due_at record) now then activate_retry cfg step now else Ret false
  | PH_BLOCKED => refresh_dependencies cfg step record steps now
  | _ => Ret false
  end.

(** One turn of the [while] loop: whether it made progress. *)
Definition advance_round (plan_id : string) (now : datetime) : cprog bool :=
  snapshot ← ccall (GetSnapshot plan_id);
  progress ← for_each (advance_record (state_steps snapshot.1) now) snapshot.2;
  refreshed ← ccall (GetSnapshot plan_id);
  let ready := List.filter (fun r => is_phase (record_phase r) PH_READY) refreshed.2 in
  if bool_decide (ready = []) then Ret (existsb id progress)
  else
    children ← lift (map_res (fun r => match find_step (record_step_id r) (state_steps refreshed.1) with
                                       | Some s => Ok (start_attempt_unless_superseded s r now)
                                       | None => Err (KeyError (record_step_id r)) end) ready);
    schedule ← ccall Schedule;
    started ← gather schedule children;
    Ret (existsb id started || existsb id progress).

Fixpoint advance_loop (rounds : nat) (plan_id : string) (now : datetime) : cprog unit :=
  match rounds with
  | 0 => Raise (RuntimeError "advance ran out of rounds")
  | S rounds' =>
      made_progress ← advance_round plan_id now;
      if (made_progress : bool) then advance_loop rounds' plan_id now else Ret tt
  end.

(** [advance] of the base class, and of the subclass. *)
Definition base_advance (plan_id : string) (now : option datetime) : cprog PlanCoordinationProjection :=
  current_time ← coordinator_now now;
  _ ← advance_loop fuel plan_id current_time;
  _ ← aggregate_task plan_id;
  async_projection plan_id.

Definition advance (plan_id : string) (now : option datetime) : cprog PlanCoordinationProjection :=
  current_time ← coordinator_now now;
  state ← ccall (GetPlan plan_id);
  retired ← retire_if_superseded state current_time;
  if (retired : bool) then async_projection plan_id
  else
    result ← base_advance plan_id (Some current_time);
    state' ← ccall (GetPlan plan_id);
    retired' ← retire_if_superseded state' current_time;
    if (retired' : bool) then async_projection plan_id else Ret result.

(** [if result.changed: await self.advance(...)], and the projection of the plan. *)
Definition advance_if_changed (result : string * bool) (now : datetime) : cprog PlanCoordinationProjection :=
  _ ← (if (result.2 : bool) then _ ← advance result.1 (Some now); Ret tt else Ret tt);
  async_projection result.1.

Definition observe_run (task_id run_id : string) (failure_category observation_key : option string) (now : option datetime) :
  cprog PlanCoordinationProjection :=
  current_time ← coordinator_now now;
  result ← observe_outcome cfg task_id run_id failure_category observation_key current_time;
  advance_if_changed result current_time.

(** ** Durable waits: waits.py *)

Definition OwnerRef_eqb (a b : OwnerRef) : bool := bool_decide (a = b).

Definition validate_wait_scope (wait : StepWait) (plan : Plan) (step : Step) (record : StepCoordinationRecord) : res unit :=
  _ ← require (String.eqb (wait_task_id wait) (Plan_task_id plan) && String.eqb (wait_plan_id wait) (Plan_id plan) &&
               String.eqb (wait_step_id wait) (Step_id step))
        (contract_error CONFLICT "wait canonical identity does not match Step");
  _ ← require (OwnerRef_eqb (wait_owner_ref wait) (Step_owner_ref step) && bool_decide (wait_project_id wait = Step_project_id step))
        (contract_error FORBIDDEN "wait scope does not match canonical Step");
  require (String.eqb (wait_plan_id wait) (record_plan_id record) && String.eqb (wait_task_id wait) (record_task_id record))
    (contract_error CONFLICT "wait coordination identity mismatch").

Definition require_scope (wait : StepWait) (owner_ref : OwnerRef) (project_id : option string) : res unit :=
  require (OwnerRef_eqb (wait_owner_ref wait) owner_ref && bool_decide (wait_project_id wait = project_id))
    (contract_error FORBIDDEN "foreign-scope signal cannot resolve a durable Step wait").

(** [CoordinationWaits.wait_step]: whether anything changed. *)
Definition enter_wait (wait : StepWait) (now : datetime) : cprog bool :=
  state ← ccall (GetPlan (wait_plan_id wait));
  step ← lift (state_step state (wait_step_id wait));
  record ← ccall (GetRecord (wait_step_id wait));
  _ ← lift (validate_wait_scope wait (state_plan state) step record);
  let same_key := match record_wait record with Some w => String.eqb (wait_wait_key w) (wait_wait_key wait) | None => false end in
  if same_key then Ret false
  else
    _ ← guard (match record_wait record with Some w => wait_resolved w | None => true end)
          (contract_error CONFLICT "Step already has a different durable wait");
    _ ← guard (is_status (Step_status step) S_RUNNING && is_phase (record_phase record) PH_ATTEMPT_ACTIVE)
          (contract_error CONFLICT "only an active running Step can enter a wait");
    claim ← required_claim cfg (Step_id step) now;
    _ ← holding claim (
      waiting ← transition step S_WAITING;
      updated ← checked (set_phase PH_WAITING (set_wait (Some wait) record));
      save waiting updated record claim now);
    Ret true.

Definition wait_step (wait : StepWait) (now : option datetime) : cprog PlanCoordinationProjection :=
  current_time ← coordinator_now now;
  _ ← enter_wait wait current_time;
  async_projection (wait_plan_id wait).

(** The step, the phase and the retry state after a satisfied wait, given the run of the step. *)
Definition satisfied_outcome (step : Step) (current : StepCoordinationRecord) : cprog (Step * CoordinationPhase * RetryState) :=
  next_step ← transition step S_RUNNING;
  match record_latest_run_id current with
  | None => Ret (next_step, PH_ATTEMPT_ACTIVE, record_retry_state current)
  | Some run_id =>
      run ← ask (GetRun (record_task_id current) run_id);
      match RunState_status run with
      | R_SUCCEEDED => s ← transition next_step S_SUCCEEDED; Ret (s, PH_TERMINAL, active_becomes RS_COMPLETED (record_retry_state current))
      | R_FAILED | R_TIMED_OUT =>
          s ← transition next_step S_FAILED; Ret (s, PH_TERMINAL, active_becomes RS_NOT_RETRYABLE (record_retry_state current))
      | R_CANCELLED => s ← transition next_step S_CANCELLED; Ret (s, PH_TERMINAL, active_becomes RS_CANCELLED (record_retry_state current))
      | _ => Ret (next_step, PH_ATTEMPT_ACTIVE, record_retry_state current)
      end
  end.

Definition resolve_claimed_wait (step_id : string) (wait : StepWait) (resolution : WaitResolution) (resolution_key : string)
  (now : datetime) (claim : CoordinatorClaim) : cprog (string * bool) :=
  current ← ccall (GetRecord step_id);
  if in_strs resolution_key (record_processed_keys current) then Ret (record_plan_id current, false)
  else
    step ← plan_step (record_plan_id current) step_id;
    let resolved_wait := close_wait (Some wait) resolution resolution_key now in
    let processed := record_processed_keys current ++ [resolution_key] in
    next ← (match resolution with
            | WR_SATISFIED =>
                outcome ← satisfied_outcome step current;
                let '(next_step, phase, retry_state) := outcome in
                updated ← checked (set_phase phase (set_wait resolved_wait (set_retry_state retry_state
                  (set_processed_keys processed current))));
                Ret (next_step, updated)
            | WR_CANCELLED =>
                _ ← cancel_active_run current ("wait:" +:+ resolution_key +:+ ":cancel");
                next_step ← transition step S_CANCELLED;
                updated ← checked (set_phase PH_TERMINAL (set_wait resolved_wait (set_retry_due_at None
                  (set_retry_state (closed_retry RS_CANCELLED (record_retry_state current)) (set_processed_keys processed current)))));
                Ret (next_step, updated)
            | _ =>
                _ ← cancel_active_run current ("wait:" +:+ resolution_key +:+ ":fail");
                next_step ← transition step S_FAILED;
                updated ← checked (set_phase PH_TERMINAL (set_wait resolved_wait (set_retry_due_at None
                  (set_retry_state (closed_retry RS_NOT_RETRYABLE (record_retry_state current)) (set_processed_keys processed current)))));
                Ret (next_step, updated)
            end);
    _ ← save next.1 next.2 current claim now;
    Ret (record_plan_id current, true).

(** [CoordinationWaits.resolve] *)
Definition resolve (step_id : string) (resolution : WaitResolution) (resolution_key : string) (now : datetime) :
  cprog (string * bool) :=
  _ ← guard (negb (blank resolution_key)) (ValueError "resolution_key must not be blank");
  record ← ccall (GetRecord step_id);
  if in_strs resolution_key (record_processed_keys record) then Ret (record_plan_id record, false)
  else
    match record_wait record with
    | Some wait =>
        _ ← guard (negb (wait_resolved wait) && is_phase (record_phase record) PH_WAITING)
              (contract_error CONFLICT "Step has no active durable wait");
        claim ← required_claim cfg step_id now;
        holding claim (resolve_claimed_wait step_id wait resolution resolution_key now claim)
    | None => Raise (contract_error CONFLICT "Step has no active durable wait")
    end.

(** [_resolve_wait] *)
Definition resolve_wait (step_id : string) (resolution : WaitResolution) (resolution_key : string) (now : datetime) :
  cprog PlanCoordinationProjection :=
  record ← ccall (GetRecord step_id);
  state ← ccall (GetPlan (record_plan_id record));
  retired ← retire_if_superseded state now;
  _ ← guard (negb retired) (ContractError CONFLICT "cannot resolve a wait owned by a superseded Plan" false
        [("plan_id", VStr (record_plan_id record)); ("step_id", VStr step_id)]);
  result ← resolve step_id resolution resolution_key now;
  advance_if_changed result now.

(** The signal of a wait of the given type: what is common to the three [resolve_...] methods. *)
Definition signal (step_id resolution_key : string) (wait_type : WaitType) (not_waiting : string)
  (matching : StepWait -> res unit) (resolution : WaitResolution) (now : datetime) : cprog (string * bool) :=
  record ← ccall (GetRecord step_id);
  if in_strs resolution_key (record_processed_keys record) then Ret (record_plan_id record, false)
  else
    match record_wait record with
    | Some wait =>
        _ ← guard (bool_decide (wait_wait_type wait = wait_type)) (contract_error CONFLICT not_waiting);
        _ ← lift (matching wait);
        resolve step_id resolution resolution_key now
    | None => Raise (contract_error CONFLICT not_waiting)
    end.

Definition approval_resolution (outcome : ApprovalOutcome) : WaitResolution :=
  match outcome with
  | O_APPROVED => WR_SATISFIED | O_REJECTED => WR_REJECTED | O_EXPIRED => WR_EXPIRED | O_CANCELLED => WR_CANCELLED
  end.

Definition is_text (o : option string) (s : string) : bool := bool_decide (o = Some s).

Definition resolve_approval (step_id approval_id subject_type subject_id action : string) (outcome : ApprovalOutcome)
  (resolution_key : string) (owner_ref : OwnerRef) (project_id : option string) (now : option datetime) :
  cprog PlanCoordinationProjection :=
  current_time ← coordinator_now now;
  result ← signal step_id resolution_key W_APPROVAL "Step is not waiting for an Approval"
    (fun wait =>
       _ ← require (is_text (wait_approval_id wait) approval_id && is_text (wait_approval_subject_type wait) subject_type &&
                    is_text (wait_approval_subject_id wait) subject_id && is_text (wait_approval_action wait) action)
             (contract_error CONFLICT "Approval identity/subject/action does not match wait");
       require_scope wait owner_ref project_id) (approval_resolution outcome) current_time;
  advance_if_changed result current_time.

Definition resolve_event (step_id event_id event_type correlation_key : string) (owner_ref : OwnerRef) (project_id : option string)
  (now : option datetime) : cprog PlanCoordinationProjection :=
  current_time ← coordinator_now now;
  _ ← guard (negb (blank event_id)) (ValueError "event_id must not be blank");
  result ← signal step_id ("event:" +:+ event_id) W_EVENT "Step is not waiting for a canonical Event"
    (fun wait =>
       _ ← require_scope wait owner_ref project_id;
       require (is_text (wait_event_type wait) event_type && is_text (wait_correlation_key wait) correlation_key)
         (contract_error CONFLICT "Event type/correlation does not match wait")) WR_SATISFIED current_time;
  advance_if_changed result current_time.

Definition resolve_external_job (step_id external_job_ref : string) (resolution : WaitResolution) (resolution_key : string)
  (owner_ref : OwnerRef) (project_id : option string) (now : option datetime) : cprog PlanCoordinationProjection :=
  current_time ← coordinator_now now;
  result ← signal step_id resolution_key W_EXTERNAL_JOB "Step is not waiting for an external job"
    (fun wait =>
       _ ← require_scope wait owner_ref project_id;
       require (is_text (wait_external_job_ref wait) external_job_ref)
         (contract_error CONFLICT "external job reference does not match wait")) resolution current_time;
  advance_if_changed result current_time.

(** ** Due waits and retries *)

Definition due_wait (record : StepCoordinationRecord) (now : datetime) : option StepWait :=
  match record_phase record, record_wait record with
  | PH_WAITING, Some w => if bool_decide (wait_wait_type w = W_DEADLINE) && due_by (wait_deadline_at w) now then Some w else None
  | _, _ => None
  end.

(** The plans that changed and the plans with a due retry, as the loop over one record extends them. *)
Definition process_due_record (plan_id : string) (now : datetime) (record : StepCoordinationRecord) : cprog (list string * list string) :=
  match due_wait record now with
  | Some w => _ ← resolve_wait (record_step_id record) WR_SATISFIED ("deadline:" +:+ wait_wait_key w) now; Ret ([plan_id], [])
  | None =>
      if is_phase (record_phase record) PH_RETRY_SCHEDULED && due_by (record_retry_due_at record) now
      then Ret ([], [plan_id]) else Ret ([], [])
  end.

Definition process_due_plan (now : datetime) (state : PlanRuntimeState) : cprog (list string * list string) :=
  let plan_id := Plan_id (state_plan state) in
  records ← ccall (ListRecords plan_id);
  marks ← for_each (process_due_record plan_id now) records;
  Ret (concat (map fst marks), concat (map snd marks)).

Definition sorted_set (l : list string) : list string := sort_strs (remove_dups l).

Definition base_process_due (now : option datetime) : cprog (list PlanCoordinationProjection) :=
  current_time ← coordinator_now now;
  states ← ccall ListPlans;
  marks ← for_each (process_due_plan current_time) states;
  let retry_plans := sorted_set (concat (map snd marks)) in
  _ ← for_each (fun plan_id => advance plan_id (Some current_time)) retry_plans;
  for_each async_projection (sorted_set (concat (map fst marks) ++ retry_plans)).

Definition process_due (now : option datetime) : cprog (list PlanCoordinationProjection) :=
  current_time ← coordinator_now now;
  states ← ccall ListPlans;
  _ ← for_each (fun state => retire_if_superseded state current_time) states;
  base_process_due (Some current_time).

(** ** Cancellation: cancellation.py *)

Definition cancel_claimed_step (plan_id step_id idempotency_key : string) (now : datetime) (claim : CoordinatorClaim) : cprog unit :=
  current ← ccall (GetRecord step_id);
  current_step ← plan_step plan_id step_id;
  _ ← cancel_active_run current (idempotency_key +:+ ":run:" +:+ step_id);
  next_step ← (match Step_status current_step with
               | S_PENDING | S_READY | S_RUNNING | S_WAITING => transition current_step S_CANCELLED
               | _ => Ret current_step
               end);
  updated ← checked (set_phase PH_TERMINAL (set_retry_due_at None
    (set_retry_state (closed_retry RS_CANCELLED (record_retry_state current))
    (set_wait (close_wait (record_wait current) WR_CANCELLED (idempotency_key +:+ ":wait:" +:+ step_id) now)
    (set_reconciliation RD_CANONICAL_TERMINAL current)))));
  save next_step updated current claim now.

Definition cancel_record (plan_id idempotency_key : string) (now : datetime) (record : StepCoordinationRecord) : cprog unit :=
  step ← plan_step plan_id (record_step_id record);
  if bool_decide (Step_status step ∈ [S_SUCCEEDED; S_SKIPPED; S_CANCELLED]) then Ret tt
  else under_claim cfg (Step_id step) now tt (cancel_claimed_step plan_id (Step_id step) idempotency_key now).

Definition cancel_plan (plan_id idempotency_key : string) (now : option datetime) : cprog PlanCoordinationProjection :=
  current_time ← coordinator_now now;
  _ ← guard (negb (blank idempotency_key)) (ValueError "idempotency_key must not be blank");
  state ← ccall (GetPlan plan_id);
  records ← ccall (ListRecords plan_id);
  _ ← for_each (cancel_record plan_id idempotency_key current_time) records;
  let task_id := Plan_task_id (state_plan state) in
  task ← ask (GetTask task_id);
  _ ← (if bool_decide (TaskState_status task = T_CANCELLED) then Ret tt
       else _ ← ask (CancelTask (idempotency_key +:+ ":task") task_id); Ret tt);
  async_projection plan_id.

(** ** Reconciliation after a restart: reconciliation.py *)

Definition mark_claimed_inconsistent (record : StepCoordinationRecord) (detail : string) (disposition : ReconciliationDisposition)
  (now : datetime) (claim : CoordinatorClaim) : cprog unit :=
  current ← ccall (GetRecord (record_step_id record));
  step ← plan_step (record_plan_id record) (record_step_id record);
  updated ← checked (set_phase PH_INCONSISTENT (set_reconciliation disposition (set_reconciliation_detail (Some detail) current)));
  save step updated current claim now.

Definition mark_inconsistent (record : StepCoordinationRecord) (detail : string) (now : datetime) : cprog unit :=
  under_claim cfg (record_step_id record) now tt (mark_claimed_inconsistent record detail RD_MISSING_CANONICAL_RUN now).

Definition reconcile_run (record : StepCoordinationRecord) (run_id : string) (run : RunState) (now : datetime) : cprog unit :=
  if run_terminal (RunState_status run) then
    _ ← observe_run (record_task_id record) run_id None
          (Some ("reconcile:" +:+ run_id +:+ ":" +:+ enum_value (RunState_status run))) (Some now);
    Ret tt
  else if bool_decide (RunState_status run = R_QUEUED) && negb (RunState_recovery_required run) then
    _ ← ask (StartRun (start_key record (RunState_attempt run)) (record_task_id record) (RunState_run_id run)); Ret tt
  else Ret tt.

Definition reconcile_record (now : datetime) (record : StepCoordinationRecord) : cprog unit :=
  if negb (is_phase (record_phase record) PH_ATTEMPT_ACTIVE) then Ret tt
  else
    match record_latest_run_id record with
    | None => mark_inconsistent record "active Step has no canonical Run reference" now
    | Some run_id =>
        found ← attempt (ask (GetRun (record_task_id record) run_id));
        match found with
        | Err e =>
            if has_code NOT_FOUND e then mark_inconsistent record "referenced canonical Run is missing" now else Raise e
        | Ok run => reconcile_run record run_id run now
        end
    end.

Definition base_reconcile_plan (plan_id : string) (now : option datetime) : cprog PlanCoordinationProjection :=
  current_time ← coordinator_now now;
  state ← ccall (GetPlan plan_id);
  _ ← ask (RecoverTask (Plan_task_id (state_plan state)));
  records ← ccall (ListRecords plan_id);
  _ ← for_each (reconcile_record current_time) records;
  _ ← process_due (Some current_time);
  _ ← advance plan_id (Some current_time);
  async_projection plan_id.

Definition reconcile_plan (plan_id : string) (now : option datetime) : cprog PlanCoordinationProjection :=
  current_time ← coordinator_now now;
  state ← ccall (GetPlan plan_id);
  retired ← retire_if_superseded state current_time;
  if (retired : bool) then async_projection plan_id else base_reconcile_plan plan_id (Some current_time).

Definition reconcile_all (now : option datetime) : cprog (list PlanCoordinationProjection) :=
  states ← ccall ListPlans;
  for_each (fun state => reconcile_plan (Plan_id (state_plan state)) now) states.

(** ** Registration: registration.py *)

(** The checks against the task that [register] and its caller both make. *)
Definition check_canonical_plan (plan : Plan) (steps : list Step) (policies : list (string * StepRetryPolicy)) (details : list string -> dict) :
  cprog unit :=
  _ ← lift (validate_graph (remove_dups (map Step_id steps)) plan steps);
  task ← ask (GetTask (Plan_task_id plan));
  _ ← guard (bool_decide (TaskState_plan_ref task = Some (Plan_id plan)))
        (ContractError CONFLICT "coordinator Plan does not match the active canonical task Plan" false
           [("task_id", VStr (Plan_task_id plan)); ("plan_id", VStr (Plan_id plan))]);
  _ ← guard (same_set (TaskState_step_ids task) (map Step_id steps))
        (contract_error CONFLICT "coordinator Steps do not match the active canonical task Plan");
  let unknown := List.filter (fun k => negb (in_strs k (map Step_id steps))) (dict_keys policies) in
  guard (bool_decide (unknown = []))
    (ContractError INVALID_REQUEST "retry policy references unknown Steps" false (details unknown)).

Definition new_record (plan : Plan) (policies : list (string * StepRetryPolicy)) (policy : PredecessorFailurePolicy) (step : Step) :
  cprog StepCoordinationRecord :=
  created_at ← ccall Now;
  updated_at ← ccall Now;
  checked (Build_StepCoordinationRecord (Plan_task_id plan) (Plan_id plan) (Plan_revision plan) (Step_id step) PH_BLOCKED
    (Step_depends_on step) [] None 0 (default default_step_retry_policy (dict_get (Step_id step) policies)) None RS_NONE None
    policy [] RD_CONSISTENT None (Some (Plan_task_id plan)) None "platform-coordinator" 1 (Aware created_at) (Aware updated_at)).

(** [CoordinationRegistration.register] *)
Definition register (plan : Plan) (steps : list Step) (policies : list (string * StepRetryPolicy)) (policy : PredecessorFailurePolicy) :
  cprog unit :=
  _ ← check_canonical_plan plan steps policies (fun unknown => [("step_ids", VSeq SList (map VStr (sort_strs unknown)))]);
  records ← for_each (new_record plan policies policy) steps;
  _ ← ccall (CreatePlan plan steps records);
  Ret tt.

Definition register_plan (plan : Plan) (steps : list Step) (policies : list (string * StepRetryPolicy)) (policy : PredecessorFailurePolicy) :
  cprog PlanCoordinationProjection :=
  _ ← check_canonical_plan plan steps policies (fun _ => []);
  now ← coordinator_now None;
  _ ← retire_other_task_plans (Plan_task_id plan) (Plan_id plan) now;
  _ ← register plan steps policies policy;
  _ ← advance (Plan_id plan) None;
  async_projection (Plan_id plan).

End coordinator.
