(* ===== verification/CoordinationCells.v ===== *)
(** * The steps of the coordinator's repository as a state machine

    The repository keeps a step in two places, the plan's tuple of steps and the coordination record. A
    [cell] is the pair. [move] is the abstract machine of a step: the ways in which a save may change its
    cell, with the conditions under which it may. [store_ok] is the invariant of the repository and
    [store_later] relates two moments of it. *)

From Stdlib Require Import SpecFloat.
From S2P Require Import Prelude PyValue Errors StateMonad Ident Lifecycle Domain PyTime TransportModels.
From S2P Require Import CoordinationModels PlanGraph CoordinationStore.

#[global] Arguments find_step : simpl never.
#[global] Arguments replace_step : simpl never.

Abbreviation cell := (Step * StepCoordinationRecord)%type.

Definition cell_at (s : CoordinatorStore) (step_id : string) : option cell :=
  r ← store_records s !! step_id;
  state ← store_plans s !! record_plan_id r;
  step ← find_step step_id (state_steps state);
  Some (step, r).

(** What no save changes: everything but the status of the step, the progress fields of the record, and
    the times of the last change. *)
Definition step_core (s : Step) : Step := Step_set_status S_PENDING (Step_set_updated_at 0 s).
Definition record_core (r : StepCoordinationRecord) : StepCoordinationRecord :=
  set_phase PH_BLOCKED (set_satisfied_dependency_ids [] (set_latest_run_id None (set_current_attempt 0
    (set_retry_due_at None (set_retry_state RS_NONE (set_wait None (set_processed_keys []
    (set_reconciliation RD_CONSISTENT (set_reconciliation_detail None (set_revision 0 (set_updated_at (Aware 0) r))))))))))).

(** ** The moves of a step *)

(** A step whose barrier has opened, now or earlier. *)
Definition opened (status : StepStatus) : bool :=
  match status with S_READY | S_RUNNING | S_WAITING | S_SUCCEEDED | S_FAILED => true | _ => false end.

Definition settled (status : StepStatus) : bool :=
  match status with S_SUCCEEDED | S_SKIPPED | S_CANCELLED => true | _ => false end.

(** The status and the phase after a move, from those before. [done d] says that the step [d] succeeded. *)
Inductive status_move (done : string -> Prop) (s : Step) (r : StepCoordinationRecord) (s' : Step) (r' : StepCoordinationRecord) : Prop :=
| Move_blocked :
    Step_status s = S_PENDING -> Step_status s' = (if bool_decide (record_predecessor_failure_policy r = CANCEL_DEPENDENT)
                                                   then S_CANCELLED else S_SKIPPED) ->
    record_phase r' = PH_TERMINAL -> same_set (record_satisfied_dependency_ids r') (record_dependency_ids r') = false ->
    (forall d, d ∈ record_satisfied_dependency_ids r' -> done d) -> status_move done s r s' r'
| Move_counted :
    Step_status s' = Step_status s -> record_phase r' = record_phase r ->
    same_set (record_satisfied_dependency_ids r') (record_dependency_ids r') = false ->
    (forall d, d ∈ record_satisfied_dependency_ids r' -> done d) -> status_move done s r s' r'
| Move_opened :
    Step_status s = S_PENDING \/ Step_status s = S_FAILED -> Step_status s' = S_READY -> record_phase r' = PH_READY ->
    (forall d, d ∈ record_dependency_ids r' -> done d) ->
    (forall d, d ∈ record_satisfied_dependency_ids r' -> done d) -> status_move done s r s' r'
| Move_started run_id :
    Step_status s = S_READY -> record_phase r = PH_READY -> Step_status s' = S_RUNNING -> record_phase r' = PH_ATTEMPT_ACTIVE ->
    record_current_attempt r' = (record_current_attempt r + 1)%Z -> record_latest_run_id r' = Some run_id ->
    record_satisfied_dependency_ids r' = record_satisfied_dependency_ids r -> status_move done s r s' r'
| Move_retried :
    Step_status s = S_FAILED -> record_phase r = PH_RETRY_SCHEDULED -> Step_status s' = S_READY -> record_phase r' = PH_READY ->
    record_satisfied_dependency_ids r' = record_satisfied_dependency_ids r -> status_move done s r s' r'
| Move_waited wait :
    Step_status s = S_RUNNING -> record_phase r = PH_ATTEMPT_ACTIVE -> Step_status s' = S_WAITING -> record_phase r' = PH_WAITING ->
    record_wait r' = Some wait ->
    record_satisfied_dependency_ids r' = record_satisfied_dependency_ids r -> status_move done s r s' r'
| Move_resumed :
    Step_status s = S_WAITING \/ Step_status s = S_READY -> Step_status s' = S_RUNNING -> record_phase r' = PH_ATTEMPT_ACTIVE ->
    record_satisfied_dependency_ids r' = record_satisfied_dependency_ids r -> status_move done s r s' r'
| Move_ended :
    opened (Step_status s) = true -> settled (Step_status s) = false -> Step_status s' = S_SUCCEEDED \/ Step_status s' = S_FAILED ->
    record_phase r' = PH_TERMINAL \/ record_phase r' = PH_RETRY_SCHEDULED ->
    record_satisfied_dependency_ids r' = record_satisfied_dependency_ids r -> status_move done s r s' r'
| Move_cancelled :
    settled (Step_status s) = false -> Step_status s' = S_CANCELLED -> record_phase r' = PH_TERMINAL ->
    record_satisfied_dependency_ids r' = record_satisfied_dependency_ids r -> status_move done s r s' r'
| Move_noted :
    Step_status s' = Step_status s ->
    record_phase r' = record_phase r \/ record_phase r' <> PH_READY /\ record_phase r' <> PH_ATTEMPT_ACTIVE ->
    record_satisfied_dependency_ids r' = record_satisfied_dependency_ids r -> status_move done s r s' r'.

(** One save: a move that keeps the identity of the step, forgets no processed key, and counts one revision. *)
Record move (done : string -> Prop) (c c' : cell) : Prop := {
  move_step : step_core c'.1 = step_core c.1;
  move_record : record_core c'.2 = record_core c.2;
  move_keys : record_processed_keys c.2 `prefix_of` record_processed_keys c'.2;
  move_revision : record_revision c'.2 = (record_revision c.2 + 1)%Z;
  move_status : status_move done c.1 c.2 c'.1 c'.2
}.

(** Two moments of a cell. *)
Definition moves (done : string -> Prop) : cell -> cell -> Prop := rtc (move done).

Lemma status_move_mono (done done' : string -> Prop) s r s' r' :
  (forall d, done d -> done' d) -> status_move done s r s' r' -> status_move done' s r s' r'.
Proof.
  intros H [?|?|?|?|?|?|?|?|?|?];
    [eapply Move_blocked|eapply Move_counted|eapply Move_opened|eapply Move_started|eapply Move_retried|eapply Move_waited
    |eapply Move_resumed|eapply Move_ended|eapply Move_cancelled|eapply Move_noted]; eauto.
Qed.

Lemma move_mono (done done' : string -> Prop) c c' : (forall d, done d -> done' d) -> move done c c' -> move done' c c'.
Proof. intros H []. split; try done. by eapply status_move_mono. Qed.

Lemma moves_mono (done done' : string -> Prop) c c' : (forall d, done d -> done' d) -> moves done c c' -> moves done' c c'.
Proof. intros H. apply rtc_subrel. intros x y. by apply move_mono. Qed.

(** A settled step stays as it is. *)
Lemma status_move_settled done s r s' r' :
  status_move done s r s' r' -> settled (Step_status s) = true -> Step_status s' = Step_status s.
Proof.
  intros [?|?|H|?|?|?|H|?|?|?] Hs; try done; try (exfalso; congruence);
    match goal with H : Step_status s = _ |- _ => by rewrite H in Hs | H : _ \/ _ |- _ => destruct H as [H|H]; by rewrite H in Hs end.
Qed.

(** No move makes a step pending again. *)
Lemma status_move_pending done s r s' r' :
  status_move done s r s' r' -> Step_status s' = S_PENDING -> Step_status s = S_PENDING.
Proof.
  intros [? H|H|? H|? ? ? H|? ? H|? ? ? H|? H|? ? [H|H]|? H|H] Hs; try congruence.
Qed.

Lemma moves_core done c c' :
  moves done c c' -> step_core c'.1 = step_core c.1 /\ record_core c'.2 = record_core c.2 /\
  record_processed_keys c.2 `prefix_of` record_processed_keys c'.2 /\
  (c' = c \/ record_revision c.2 < record_revision c'.2)%Z /\
  (settled (Step_status c.1) = true -> Step_status c'.1 = Step_status c.1) /\
  (Step_status c'.1 = S_PENDING -> Step_status c.1 = S_PENDING).
Proof.
  induction 1 as [c|c c1 c2 Hm _ (IH1 & IH2 & IH3 & IH4 & IH5 & IH6)]; [by split_and!; [..|left| |]|].
  destruct Hm as [H1 H2 H3 H4 H5]. split_and!.
  - congruence.
  - congruence.
  - by etrans.
  - right. destruct IH4 as [->|]; lia.
  - intros Hs. pose proof (status_move_settled _ _ _ _ _ H5 Hs) as He. rewrite IH5; [done|by rewrite He].
  - intros Hs. eapply status_move_pending; [exact H5|]. by apply IH6.
Qed.

(** ** The invariant of the repository *)

Definition succeeded (s : CoordinatorStore) (step_id : string) : Prop :=
  exists c, cell_at s step_id = Some c /\ Step_status c.1 = S_SUCCEEDED.

Record cell_ok (s : CoordinatorStore) (c : cell) : Prop := {
  (* the barrier: a step that was ever ready has all its dependencies succeeded *)
  cell_opened : opened (Step_status c.1) = true -> forall d, d ∈ record_dependency_ids c.2 -> succeeded s d;
  cell_satisfied : forall d, d ∈ record_satisfied_dependency_ids c.2 -> succeeded s d;
  cell_active : record_phase c.2 = PH_ATTEMPT_ACTIVE -> Step_status c.1 = S_RUNNING;
  (* a step is only skipped because its barrier failed *)
  cell_skipped : Step_status c.1 = S_SKIPPED ->
    same_set (record_satisfied_dependency_ids c.2) (record_dependency_ids c.2) = false
}.

(** The record of a step agrees with the step and its plan. *)
Definition registered (s : CoordinatorStore) (P : PlanRuntimeState) (step : Step) : Prop :=
  (forall d, d ∈ Step_depends_on step -> d ∈ map Step_id (state_steps P)) /\
  exists r, store_records s !! Step_id step = Some r /\ record_plan_id r = Plan_id (state_plan P) /\
    record_task_id r = Plan_task_id (state_plan P) /\ record_dependency_ids r = Step_depends_on step.

(** A step identifier belongs to one plan: [plan_of] says which. *)
Record store_ok (plan_of : string -> string) (s : CoordinatorStore) : Prop := {
  ok_plan pid P : store_plans s !! pid = Some P -> Plan_id (state_plan P) = pid /\ PlanRuntimeState_post_init P = Ok P;
  ok_step pid P step : store_plans s !! pid = Some P -> step ∈ state_steps P -> registered s P step;
  ok_record sid r : store_records s !! sid = Some r ->
    record_step_id r = sid /\ record_plan_id r = plan_of sid /\ is_Some (cell_at s sid);
  ok_valid sid r : store_records s !! sid = Some r -> StepCoordinationRecord_post_init r = Ok r;
  ok_claim sid c : store_claims s !! sid = Some c ->
    claim_step_id c = sid /\ (claim_fence c <= default 0 (store_fences s !! sid))%Z /\ is_Some (store_records s !! sid);
  ok_cell sid c : cell_at s sid = Some c -> cell_ok s c
}.

(** Two moments of the repository, in this order. *)
Record store_later (s s' : CoordinatorStore) : Prop := {
  later_cell sid c : cell_at s sid = Some c -> exists c', cell_at s' sid = Some c' /\ moves (succeeded s') c c';
  later_plan pid P : store_plans s !! pid = Some P -> exists P', store_plans s' !! pid = Some P' /\
    state_plan P' = state_plan P /\ map Step_id (state_steps P') = map Step_id (state_steps P);
  later_fence sid : (default 0 (store_fences s !! sid) <= default 0 (store_fences s' !! sid))%Z
}.

Lemma cell_at_some s sid step r :
  cell_at s sid = Some (step, r) <->
  store_records s !! sid = Some r /\
  exists P, store_plans s !! record_plan_id r = Some P /\ find_step sid (state_steps P) = Some step.
Proof.
  unfold cell_at. split.
  - intros H. apply bind_Some in H as (r' & Hr & H). apply bind_Some in H as (P & HP & H).
    apply bind_Some in H as (step' & Hs & H). injection H as -> ->. eauto.
  - intros (Hr & P & HP & Hs). rewrite Hr. cbn. rewrite HP. cbn. by rewrite Hs.
Qed.

Lemma cell_at_id s sid c : cell_at s sid = Some c -> Step_id c.1 = sid.
Proof. destruct c. intros (_ & P & _ & H)%cell_at_some. by apply find_step_some in H as [_ ?]. Qed.

Lemma succeeded_later s s' d : store_later s s' -> succeeded s d -> succeeded s' d.
Proof.
  intros Hl (c & Hc & Hs). destruct (later_cell _ _ Hl _ _ Hc) as (c' & Hc' & Hm). exists c'. split; [done|].
  apply moves_core in Hm as (_ & _ & _ & _ & Hset & _). by rewrite Hset, Hs by by rewrite Hs.
Qed.

Lemma store_later_refl s : store_later s s.
Proof. split; [intros sid c ?; exists c; split; [done|reflexivity]|intros pid P ?; by exists P|reflexivity]. Qed.

Lemma store_later_trans s1 s2 s3 : store_later s1 s2 -> store_later s2 s3 -> store_later s1 s3.
Proof.
  intros H12 H23. split.
  - intros sid c Hc. destruct (later_cell _ _ H12 _ _ Hc) as (c2 & Hc2 & Hm2).
    destruct (later_cell _ _ H23 _ _ Hc2) as (c3 & Hc3 & Hm3). exists c3. split; [done|]. etrans; [|exact Hm3].
    eapply moves_mono; [|exact Hm2]. intros d. by apply succeeded_later.
  - intros pid P HP. destruct (later_plan _ _ H12 _ _ HP) as (P2 & HP2 & ? & ?).
    destruct (later_plan _ _ H23 _ _ HP2) as (P3 & HP3 & ? & ?). exists P3. split_and!; congruence.
  - intros sid. etrans; [apply (later_fence _ _ H12)|apply (later_fence _ _ H23)].
Qed.

#[export] Instance store_later_preorder : PreOrder store_later.
Proof. split; [exact store_later_refl|exact store_later_trans]. Qed.

(** A move keeps what the invariant says of one cell. *)
Lemma record_core_fields r r' : record_core r' = record_core r ->
  record_plan_id r' = record_plan_id r /\ record_task_id r' = record_task_id r /\ record_step_id r' = record_step_id r /\
  record_dependency_ids r' = record_dependency_ids r /\ record_retry_policy r' = record_retry_policy r /\
  record_predecessor_failure_policy r' = record_predecessor_failure_policy r.
Proof.
  intros H. split_and!;
    [exact (f_equal record_plan_id H)|exact (f_equal record_task_id H)|exact (f_equal record_step_id H)
    |exact (f_equal record_dependency_ids H)|exact (f_equal record_retry_policy H)
    |exact (f_equal record_predecessor_failure_policy H)].
Qed.

Lemma step_core_fields s s' : step_core s' = step_core s ->
  Step_id s' = Step_id s /\ Step_plan_id s' = Step_plan_id s /\ Step_depends_on s' = Step_depends_on s /\
  Step_owner_ref s' = Step_owner_ref s /\ Step_project_id s' = Step_project_id s.
Proof.
  intros H. split_and!;
    [exact (f_equal Step_id H)|exact (f_equal Step_plan_id H)|exact (f_equal Step_depends_on H)
    |exact (f_equal Step_owner_ref H)|exact (f_equal Step_project_id H)].
Qed.

Lemma move_cell_ok s s' c c' :
  store_later s s' -> cell_ok s c -> move (succeeded s) c c' -> cell_ok s' c'.
Proof.
  intros Hl [Hopen Hsat Hact Hskip] [Hstep Hrec _ _ Hm].
  destruct (record_core_fields _ _ Hrec) as (_ & _ & _ & Hdeps & _).
  assert (forall d, succeeded s d -> succeeded s' d) as Hmono by (intros d; by apply succeeded_later).
  assert (opened (Step_status c.1) = true -> forall d, d ∈ record_dependency_ids c'.2 -> succeeded s' d) as Hopen'.
  { intros Ho d Hd. rewrite Hdeps in Hd. eauto. }
  assert (record_satisfied_dependency_ids c'.2 = record_satisfied_dependency_ids c.2 ->
          forall d, d ∈ record_satisfied_dependency_ids c'.2 -> succeeded s' d) as Hsat'.
  { intros He d Hd. rewrite He in Hd. eauto. }
  split.
  - intros Ho. destruct Hm as [H1 H2|H1|H1 H2|? H1|H1|? H1|[H1|H1]|H1|H1 H2|H1]; try (apply Hopen'; congruence);
      try (apply Hopen'; rewrite H1; done).
    + rewrite H2 in Ho. by case_bool_decide.
    + intros d Hd. auto.
    + rewrite H2 in Ho. done.
  - destruct Hm; eauto.
  - destruct Hm as [? ? H|He H|? ? H|? ? ? He|? ? ? H|? ? ? ? H|? He|? ? ? H|? ? H|H He Hp]; intros Ha; try congruence.
    + rewrite He. apply Hact. congruence.
    + destruct H; congruence.
    + rewrite H. destruct He as [He|[_ He]]; [|done]. apply Hact. congruence.
  - intros Hs.
    destruct Hm as [? ? ? H|? ? H|? ?|? ? ? He|? ? ?|? ? ? ?|? He|? ? [?|?]|? ?|H He Hq]; try congruence.
    rewrite Hdeps, Hq. apply Hskip. congruence.
Qed.

(** ** What each method does to the cells *)

Lemma record_post_init_id r r' : StepCoordinationRecord_post_init r = Ok r' -> r' = r.
Proof. unfold StepCoordinationRecord_post_init. intros H. by res_inv. Qed.

Lemma state_post_init_ok P P' :
  PlanRuntimeState_post_init P = Ok P' <->
  P' = P /\ (1 <= state_store_revision P)%Z /\ Plan_active (state_plan P) = true /\ NoDup (map Step_id (state_steps P)) /\
  forall step, step ∈ state_steps P -> Step_plan_id step = Plan_id (state_plan P).
Proof.
  unfold PlanRuntimeState_post_init. split.
  - intros H. res_inv. unfold all_distinct in *. bool_props.
    match goal with H : forallb _ _ = true |- _ => rewrite forallb_forall in H; rename H into Hall end.
    split_and!; [done|by apply Z.leb_le|done|done|]. intros step Hs. by apply String.eqb_eq, Hall, list_elem_of_In.
  - intros (-> & Hr & Ha & Hnd & Hall). apply Z.leb_le in Hr. rewrite Hr, Ha. unfold all_distinct.
    rewrite bool_decide_eq_true_2 by done.
    assert (forallb (fun step => String.eqb (Step_plan_id step) (Plan_id (state_plan P))) (state_steps P) = true) as ->; [|done].
    apply forallb_forall. intros step Hs. by apply String.eqb_eq, Hall, list_elem_of_In.
Qed.

Lemma replace_step_ids step steps : map Step_id (replace_step step steps) = map Step_id steps.
Proof.
  unfold replace_step. rewrite map_map. apply map_ext. intros item. by destruct (String.eqb_spec (Step_id item) (Step_id step)).
Qed.

Lemma find_replace_other step steps sid : sid <> Step_id step -> find_step sid (replace_step step steps) = find_step sid steps.
Proof.
  intros Hne. induction steps as [|s steps IH]; [done|]. unfold find_step, replace_step in *. cbn.
  destruct (String.eqb_spec (Step_id s) (Step_id step)) as [He|]; [rewrite He|by rewrite IH].
  destruct (String.eqb_spec (Step_id step) sid) as [<-|]; [done|exact IH].
Qed.

Lemma find_replace_same step steps : Step_id step ∈ map Step_id steps -> find_step (Step_id step) (replace_step step steps) = Some step.
Proof.
  induction steps as [|s steps IH]; [by intros ?%not_elem_of_nil|]. unfold find_step, replace_step in *. cbn. intros Hin.
  destruct (String.eqb_spec (Step_id s) (Step_id step)) as [He|Hne].
  - by rewrite String.eqb_refl.
  - destruct (String.eqb_spec (Step_id s) (Step_id step)); [done|]. apply IH. by apply elem_of_cons in Hin as [?|].
Qed.

Lemma elem_of_replace step steps x : x ∈ replace_step step steps -> x = step \/ (x ∈ steps /\ Step_id x <> Step_id step).
Proof.
  unfold replace_step. intros (y & -> & Hy)%list_elem_of_fmap.
  destruct (String.eqb_spec (Step_id y) (Step_id step)); [by left|by right].
Qed.

Section saving.
Context (plan_of : string -> string).

(** The repository with a step and its record replaced. *)
Definition saved_store (s : CoordinatorStore) (step : Step) (saved : StepCoordinationRecord) : CoordinatorStore :=
  let P := default (Build_PlanRuntimeState (Build_Plan "" (Build_OwnerRef "" "") "" 0 false None 0 "" None []) [] 0)
             (store_plans s !! Step_plan_id step) in
  put_plan (Step_plan_id step)
    (Build_PlanRuntimeState (state_plan P) (replace_step step (state_steps P)) (state_store_revision P + 1)%Z)
    (put_record (Step_id step) saved s).

(** A cell changed by a move, everything else as it was. *)
Definition cell_updated (s s' : CoordinatorStore) (step : Step) (saved : StepCoordinationRecord) : Prop :=
  exists c, cell_at s (Step_id step) = Some c /\ move (succeeded s) c (step, saved) /\
    StepCoordinationRecord_post_init saved = Ok saved /\ s' = saved_store s step saved.

Lemma cell_plan s sid x r :
  store_ok plan_of s -> cell_at s sid = Some (x, r) ->
  exists P, store_plans s !! record_plan_id r = Some P /\ x ∈ state_steps P /\ Step_id x = sid /\ Step_plan_id x = record_plan_id r.
Proof.
  intros Hok (_ & P & HP & [Hin Hid]%find_step_some)%cell_at_some. exists P. split_and!; [done..|].
  destruct (ok_plan _ _ Hok _ _ HP) as [<- Hinit]. apply state_post_init_ok in Hinit as (_ & _ & _ & _ & Hpl). by apply Hpl.
Qed.

Lemma saved_store_cells s step saved x r :
  store_ok plan_of s -> cell_at s (Step_id step) = Some (x, r) -> Step_plan_id step = record_plan_id r ->
  record_plan_id saved = record_plan_id r ->
  let s' := saved_store s step saved in
  cell_at s' (Step_id step) = Some (step, saved) /\
  (forall sid, sid <> Step_id step -> cell_at s' sid = cell_at s sid) /\
  store_claims s' = store_claims s /\ store_fences s' = store_fences s /\ dom (store_records s') = dom (store_records s).
Proof.
  intros Hok Hc Hplan Hrp. cbn zeta. destruct (cell_plan _ _ _ _ Hok Hc) as (P & HP & Hin & Hid & _).
  apply cell_at_some in Hc as [Hr _]. unfold saved_store. rewrite Hplan, HP. cbn [default]. split_and!.
  - apply cell_at_some. cbn. rewrite lookup_insert_eq. split; [done|]. rewrite Hrp, lookup_insert_eq. eexists. split; [done|]. cbn.
    apply find_replace_same. rewrite <- Hid. apply list_elem_of_fmap. by exists x.
  - intros sid Hne. unfold cell_at. cbn. rewrite lookup_insert_ne by done.
    destruct (store_records s !! sid) as [r'|]; [|done]. cbn.
    destruct (decide (record_plan_id r = record_plan_id r')) as [He|He].
    + rewrite He, lookup_insert_eq. rewrite He in HP. rewrite HP. cbn. by rewrite find_replace_other.
    + by rewrite lookup_insert_ne.
  - done.
  - done.
  - cbn. rewrite dom_insert_L. apply (elem_of_dom_2 (D := gset string)) in Hr. set_solver.
Qed.

(** A move keeps the plan of the step. *)
Lemma move_plan s sid x r step saved done :
  store_ok plan_of s -> cell_at s sid = Some (x, r) -> move done (x, r) (step, saved) ->
  Step_plan_id step = record_plan_id r /\ record_plan_id saved = record_plan_id r.
Proof.
  intros Hok Hc [Hstep Hrec _ _ _]. destruct (cell_plan _ _ _ _ Hok Hc) as (P & _ & _ & _ & Hx).
  destruct (step_core_fields _ _ Hstep) as (_ & Hsp & _). destruct (record_core_fields _ _ Hrec) as (Hrp & _).
  cbn in *. split; [congruence|done].
Qed.

Lemma cell_updated_cells s s' step saved :
  store_ok plan_of s -> cell_updated s s' step saved ->
  cell_at s' (Step_id step) = Some (step, saved) /\
  (forall sid, sid <> Step_id step -> cell_at s' sid = cell_at s sid) /\
  store_claims s' = store_claims s /\ store_fences s' = store_fences s /\ dom (store_records s') = dom (store_records s).
Proof.
  intros Hok ([x r] & Hc & Hm & _ & ->). destruct (move_plan _ _ _ _ _ _ _ Hok Hc Hm). by eapply saved_store_cells.
Qed.

Lemma cell_updated_later s s' step saved :
  store_ok plan_of s -> cell_updated s s' step saved -> store_later s s'.
Proof.
  intros Hok Hu. destruct (cell_updated_cells _ _ _ _ Hok Hu) as (Hnew & Hother & Hcl & Hf & _).
  destruct Hu as (c & Hc & Hm & _ & Hs').
  assert (forall d, succeeded s d -> succeeded s' d) as Hmono.
  { intros d (c0 & Hc0 & Hs0). destruct (decide (d = Step_id step)) as [->|]; [|exists c0; by rewrite Hother].
    rewrite Hc in Hc0. injection Hc0 as <-. exists (step, saved). split; [done|]. pose proof (status_move_settled _ _ _ _ _ (move_status _ _ _ Hm)) as He.
    cbn in *. rewrite He; [done|by rewrite Hs0]. }
  split.
  - intros sid c0 Hc0. destruct (decide (sid = Step_id step)) as [->|Hne].
    + rewrite Hc in Hc0. injection Hc0 as <-. exists (step, saved). split; [done|]. apply rtc_once. by eapply move_mono.
    + exists c0. rewrite Hother by done. split; [done|reflexivity].
  - intros pid P HP. rewrite Hs'. cbn. destruct (decide (pid = Step_plan_id step)) as [->|].
    + rewrite lookup_insert_eq, HP. cbn. eexists. split; [done|]. cbn. by rewrite replace_step_ids.
    + rewrite lookup_insert_ne by done. by exists P.
  - intros sid. by rewrite Hf.
Qed.

Lemma cell_updated_ok s s' step saved :
  store_ok plan_of s -> cell_updated s s' step saved -> store_ok plan_of s'.
Proof.
  intros Hok Hu. pose proof (cell_updated_later _ _ _ _ Hok Hu) as Hl.
  destruct (cell_updated_cells _ _ _ _ Hok Hu) as (Hnew & Hother & Hcl & Hf & Hdom).
  destruct Hu as ([st r] & Hc & Hm & Hvalid & Hs'). pose proof (move_step _ _ _ Hm) as Hstep. pose proof (move_record _ _ _ Hm) as Hrec.
  cbn [fst snd] in *. destruct (step_core_fields _ _ Hstep) as (Hsi & Hsp & Hsd & _).
  destruct (record_core_fields _ _ Hrec) as (Hrp & Hrt & Hri & Hrd & _).
  pose proof Hc as Hc'. apply cell_at_some in Hc' as (Hr & P & HP & Hfind). apply find_step_some in Hfind as [Hin Hid].
  destruct (ok_plan _ _ Hok _ _ HP) as [Hpid Hinit]. apply state_post_init_ok in Hinit as (_ & Hrev & Hact & Hnd & Hpl).
  assert (Step_plan_id step = record_plan_id r) as Hplan by (rewrite Hsp, (Hpl _ Hin); done).
  assert (store_plans s' = <[record_plan_id r := Build_PlanRuntimeState (state_plan P) (replace_step step (state_steps P))
            (state_store_revision P + 1)%Z]> (store_plans s)) as Hplans by (rewrite Hs'; cbn; by rewrite Hplan, HP).
  assert (store_records s' = <[Step_id step := saved]> (store_records s)) as Hrecs by by rewrite Hs'.
  clear Hs'. split.
  - intros pid Q HQ. rewrite Hplans in HQ. destruct (decide (pid = record_plan_id r)) as [->|].
    + rewrite lookup_insert_eq in HQ. injection HQ as <-. cbn. split; [done|]. apply state_post_init_ok. cbn.
      rewrite replace_step_ids. split_and!; [done|lia|done|done|].
      intros x [->|[Hx _]]%elem_of_replace; [by rewrite Hplan|by apply Hpl].
    + rewrite lookup_insert_ne in HQ by done. by eapply ok_plan.
  - intros pid Q x HQ Hx.
    assert (exists Q0 x0, store_plans s !! pid = Some Q0 /\ x0 ∈ state_steps Q0 /\ Step_id x0 = Step_id x /\
      Step_depends_on x0 = Step_depends_on x /\ state_plan Q = state_plan Q0 /\ map Step_id (state_steps Q) = map Step_id (state_steps Q0))
      as (Q0 & x0 & HQ0 & Hx0 & Hxi & Hxd & HQp & HQi).
    { rewrite Hplans in HQ. destruct (decide (pid = record_plan_id r)) as [->|].
      - rewrite lookup_insert_eq in HQ. injection HQ as <-. cbn in *. exists P. rewrite replace_step_ids.
        apply elem_of_replace in Hx as [->|[Hx Hne]]; [exists st|exists x]; split_and!; congruence.
      - rewrite lookup_insert_ne in HQ by done. exists Q, x. by split_and!. }
    destruct (ok_step _ _ Hok _ _ _ HQ0 Hx0) as (Hdeps & r0 & Hr0 & Hp0 & Ht0 & Hd0). split.
    { rewrite HQi, <- Hxd. exact Hdeps. }
    rewrite Hrecs, HQp, <- Hxd, <- Hxi. destruct (decide (Step_id x0 = Step_id step)) as [He|].
    + rewrite He, lookup_insert_eq. exists saved. rewrite He, Hr in Hr0. injection Hr0 as <-. split_and!; congruence.
    + rewrite lookup_insert_ne by done. eauto.
  - intros sid r0 Hr0. rewrite Hrecs in Hr0. destruct (decide (sid = Step_id step)) as [->|].
    + rewrite lookup_insert_eq in Hr0. injection Hr0 as <-. destruct (ok_record _ _ Hok _ _ Hr) as (? & ? & _). split_and!; [congruence..|eauto].
    + rewrite lookup_insert_ne in Hr0 by done. rewrite Hother by done. by eapply ok_record.
  - intros sid r0 Hr0. rewrite Hrecs in Hr0. apply lookup_insert_Some in Hr0 as [[_ <-]|[_ Hr0]]; [done|by eapply ok_valid].
  - intros sid c0 Hc0. rewrite Hcl in Hc0. destruct (ok_claim _ _ Hok _ _ Hc0) as (? & ? & Hsome). rewrite Hf. split_and!; [done..|].
    apply (elem_of_dom (D := gset string)). rewrite Hdom. by apply elem_of_dom.
  - intros sid c0 Hc0. destruct (decide (sid = Step_id step)) as [->|].
    + rewrite Hnew in Hc0. injection Hc0 as <-. eapply move_cell_ok; [exact Hl|by eapply ok_cell|exact Hm].
    + rewrite Hother in Hc0 by done. destruct (ok_cell _ _ Hok _ _ Hc0) as [H1 H2 H3 H4].
      split; [intros Ho d Hd|intros d Hd|done|done]; (eapply succeeded_later; [exact Hl|]); eauto.
Qed.

(** A save is all or nothing; it succeeds under the current claim only, and on the revision it expects. *)
Lemma save_step_run s step record expected claim now :
  store_ok plan_of s ->
  (store_claims s !! Step_id step = Some claim -> forall c, cell_at s (Step_id step) = Some c -> record_revision c.2 = expected ->
   Step_plan_id step = record_plan_id c.2) ->
  (exists e, save_step step record expected (Some claim) now s = (Err e, s)) \/
  exists c, let saved := set_revision (record_revision c.2 + 1) (set_updated_at now record) in
    save_step step record expected (Some claim) now s = (Ok saved, saved_store s step saved) /\
    store_claims s !! Step_id step = Some claim /\ cell_at s (Step_id step) = Some c /\ record_revision c.2 = expected /\
    Step_plan_id step = record_plan_id c.2 /\ record_plan_id record = record_plan_id c.2 /\
    StepCoordinationRecord_post_init saved = Ok saved /\ dt_leb (claim_expires_at claim) now = false.
Proof.
  intros Hok Hplan. unfold save_step, ensure, gets, modify, of_res, raise.
  destruct (String.eqb (Step_id step) (record_step_id record) && _) eqn:Hids; [|by left; eexists]. bool_props.
  destruct (is_aware now); [|by left; eexists]. unfold mbind, st_bind, mret, st_ret.
  destruct (bool_decide (store_claims s !! Step_id step = Some claim) && _) eqn:Hclaim; [|by left; eexists]. bool_props.
  destruct (store_records s !! Step_id step) as [r|] eqn:Hr; [|by left; eexists].
  destruct (Z.eqb_spec (record_revision r) expected) as [Hrev|]; [|by left; eexists].
  destruct (store_plans s !! Step_plan_id step) as [P|] eqn:HP; [|by left; eexists].
  destruct (StepCoordinationRecord_post_init _) as [saved|e] eqn:Hpost; [|by left; eexists].
  pose proof Hpost as Hid. apply record_post_init_id in Hid as ->.
  destruct (ok_record _ _ Hok _ _ Hr) as (_ & _ & [[x r'] Hc]).
  pose proof Hc as Hc'. apply cell_at_some in Hc' as (Hr' & _). rewrite Hr in Hr'. injection Hr' as <-.
  specialize (Hplan ltac:(done) _ Hc Hrev). cbn [snd] in Hplan.
  destruct (cell_plan _ _ _ _ Hok Hc) as (P' & HP' & _). rewrite Hplan in HP. rewrite HP in HP'. injection HP' as <-.
  destruct (ok_plan _ _ Hok _ _ HP) as [Hpid Hinit]. apply state_post_init_ok in Hinit as (_ & Hsr & Hact & Hnd & Hpl).
  match goal with |- context [PlanRuntimeState_post_init ?Q] => assert (PlanRuntimeState_post_init Q = Ok Q) as Hq end.
  { apply state_post_init_ok. cbn. rewrite replace_step_ids. split_and!; [done|lia|done|done|].
    intros y [->|[Hy _]]%elem_of_replace; [congruence|by apply Hpl]. }
  rewrite Hq. right. exists (x, r). cbn [snd]. unfold saved_store. rewrite Hplan, HP. cbn [default].
  split_and!; [done..|congruence|done|done].
Qed.

Lemma save_step_effect s step record expected claim now :
  store_ok plan_of s ->
  (store_claims s !! Step_id step = Some claim -> forall c, cell_at s (Step_id step) = Some c -> record_revision c.2 = expected ->
   move (succeeded s) c (step, set_revision (record_revision c.2 + 1) (set_updated_at now record))) ->
  (exists e, save_step step record expected (Some claim) now s = (Err e, s)) \/
  exists saved s' c, save_step step record expected (Some claim) now s = (Ok saved, s') /\ cell_updated s s' step saved /\
    store_claims s !! Step_id step = Some claim /\ cell_at s (Step_id step) = Some c /\ record_revision c.2 = expected /\
    saved = set_revision (record_revision c.2 + 1) (set_updated_at now record) /\
    dt_leb (claim_expires_at claim) now = false.
Proof.
  intros Hok Hm. destruct (save_step_run s step record expected claim now Hok) as [?|(c & Hrun & Hcl & Hc & Hrev & _ & _ & Hvalid & Hexp)]; [|by left|right].
  - intros Hcl [x r] Hc Hrev. by eapply move_plan; [..|apply Hm].
  - eexists _, _, c. split_and!; [exact Hrun|exists c; split_and!; [done|by apply Hm|done|done]|done..].
Qed.
End saving.

(** ** Methods that change claims or retirements only *)

Definition cells_kept (s s' : CoordinatorStore) : Prop :=
  store_plans s' = store_plans s /\ store_records s' = store_records s.

Lemma cells_kept_cell s s' sid : cells_kept s s' -> cell_at s' sid = cell_at s sid.
Proof. intros [H1 H2]. unfold cell_at. by rewrite H1, H2. Qed.

Lemma cells_kept_later s s' :
  cells_kept s s' -> (forall sid, (default 0 (store_fences s !! sid) <= default 0 (store_fences s' !! sid))%Z) -> store_later s s'.
Proof.
  intros Hk Hf. split; [|destruct Hk as [Hp _]; rewrite Hp|done].
  - intros sid c Hc. exists c. rewrite (cells_kept_cell _ _ _ Hk). split; [done|reflexivity].
  - intros pid P HP. by exists P.
Qed.

Lemma cells_kept_ok plan_of s s' :
  store_ok plan_of s -> cells_kept s s' ->
  (forall sid c, store_claims s' !! sid = Some c ->
     claim_step_id c = sid /\ (claim_fence c <= default 0 (store_fences s' !! sid))%Z /\ is_Some (store_records s !! sid)) ->
  store_ok plan_of s'.
Proof.
  intros [H1 H2 H3 Hv H4 H5] Hk Hc. pose proof (fun sid => cells_kept_cell s s' sid Hk) as Hcell. destruct Hk as [Hp Hr].
  assert (forall d, succeeded s d -> succeeded s' d) as Hs.
  { intros d (c & ? & ?). exists c. by rewrite Hcell. }
  split.
  - rewrite Hp. exact H1.
  - rewrite Hp. intros pid P step HP Hs'. destruct (H2 pid P step HP Hs') as (? & r & ?). split; [done|]. exists r. by rewrite Hr.
  - rewrite Hr. intros sid r Hr'. rewrite Hcell. by apply H3.
  - rewrite Hr. exact Hv.
  - intros sid c Hc'. rewrite Hr. by apply Hc.
  - intros sid c. rewrite Hcell. intros Hc'. destruct (H5 _ _ Hc') as [C1 C2 C3 C4]. split; eauto.
Qed.

Lemma acquire_effect plan_of step_id owner ttl now uuid s :
  store_ok plan_of s ->
  let out := acquire_claim step_id owner ttl now uuid s in
  cells_kept s out.2 /\ store_ok plan_of out.2 /\ store_later s out.2 /\
  match out.1 with
  | Ok (Some c) => claim_step_id c = step_id /\ claim_fence c = (default 0 (store_fences s !! step_id) + 1)%Z /\
      store_claims out.2 = <[step_id := c]> (store_claims s) /\ default 0%Z (store_fences out.2 !! step_id) = claim_fence c
  | _ => store_claims out.2 = store_claims s
  end.
Proof.
  intros Hok. cbn zeta.
  assert (forall s', cells_kept s s' -> store_claims s' = store_claims s ->
            (forall sid, (default 0 (store_fences s !! sid) <= default 0 (store_fences s' !! sid))%Z) ->
            cells_kept s s' /\ store_ok plan_of s' /\ store_later s s' /\ store_claims s' = store_claims s) as Hsame.
  { intros s' Hk Hcl Hf. split_and!; [done| |by apply cells_kept_later|done]. eapply cells_kept_ok; [exact Hok|done|].
    rewrite Hcl. intros sid c Hc. destruct (ok_claim _ _ Hok _ _ Hc) as (? & ? & ?). specialize (Hf sid). split_and!; [done|lia|done]. }
  assert (cells_kept s s /\ store_ok plan_of s /\ store_later s s /\ store_claims s = store_claims s) as Hself.
  { split_and!; [by split|done|reflexivity|done]. }
  unfold acquire_claim, get_step_record, ensure, gets, modify, of_res, raise, mbind, st_bind, mret, st_ret.
  destruct (0 <? ttl)%Z; [|exact Hself]. destruct (is_aware now); [|exact Hself].
  destruct (store_records s !! step_id) as [r|] eqn:Hr; [|exact Hself].
  destruct (match store_claims s !! step_id with Some _ => _ | None => false end); [exact Hself|].
  set (fence := (default 0 (store_fences s !! step_id) + 1)%Z).
  assert (forall sid, (default 0 (store_fences s !! sid) <= default 0 (store_fences (put_fence step_id fence s) !! sid))%Z) as Hf.
  { intros sid. cbn. destruct (decide (sid = step_id)) as [->|]; [rewrite lookup_insert_eq; cbn; lia|by rewrite lookup_insert_ne]. }
  destruct (dt_add now ttl) as [expires|e]; [|by apply Hsame].
  destruct (CoordinatorClaim_post_init _) as [c|e] eqn:Hc; [|by apply Hsame].
  unfold CoordinatorClaim_post_init in Hc. res_inv. cbn [fst snd].
  assert (cells_kept s (put_claim step_id (Build_CoordinatorClaim step_id ("claim-" +:+ uuid) owner fence expires) (put_fence step_id fence s)))
    as Hk by by split.
  split_and!; [done| | |done|done|done|by cbn; rewrite lookup_insert_eq].
  - eapply cells_kept_ok; [exact Hok|done|]. cbn. intros sid c Hc. destruct (decide (sid = step_id)) as [->|].
    + rewrite lookup_insert_eq in Hc. injection Hc as <-. rewrite lookup_insert_eq. cbn. split_and!; [done|lia|by eexists].
    + rewrite lookup_insert_ne in Hc by done. rewrite lookup_insert_ne by done. by apply (ok_claim _ _ Hok).
  - by apply cells_kept_later.
Qed.

Lemma release_effect plan_of claim s :
  store_ok plan_of s ->
  let out := release_claim claim s in
  cells_kept s out.2 /\ store_ok plan_of out.2 /\ store_later s out.2 /\ store_fences out.2 = store_fences s /\
  (store_claims out.2 = store_claims s \/
   store_claims s !! claim_step_id claim = Some claim /\ store_claims out.2 = delete (claim_step_id claim) (store_claims s)).
Proof.
  intros Hok. cbn zeta. unfold release_claim, gets, modify, mbind, st_bind, mret, st_ret.
  case_bool_decide as Hc; cbn [negb snd].
  - split_and!; [by split| | |done|by right].
    + eapply cells_kept_ok; [exact Hok|by split|]. cbn. intros sid c [Hne Hc']%lookup_delete_Some. by apply (ok_claim _ _ Hok).
    + apply cells_kept_later; [by split|]. intros sid. done.
  - split_and!; [by split|done|reflexivity|done|by left].
Qed.

Lemma retire_effect plan_of plan_id by_plan reason at_time s :
  store_ok plan_of s ->
  let out := retire_plan plan_id by_plan reason at_time s in
  cells_kept s out.2 /\ store_ok plan_of out.2 /\ store_later s out.2 /\ store_claims out.2 = store_claims s /\
  store_fences out.2 = store_fences s.
Proof.
  intros Hok. cbn zeta.
  assert (forall s', cells_kept s s' -> store_claims s' = store_claims s -> store_fences s' = store_fences s ->
    cells_kept s s' /\ store_ok plan_of s' /\ store_later s s' /\ store_claims s' = store_claims s /\ store_fences s' = store_fences s) as H.
  { intros s' Hk Hc Hf. split_and!; [done| |apply cells_kept_later; [done|]; intros sid; by rewrite Hf|done|done].
    eapply cells_kept_ok; [exact Hok|done|]. rewrite Hc, Hf. apply (ok_claim _ _ Hok). }
  unfold retire_plan, get_plan, gets, modify, of_res, raise, mbind, st_bind, mret, st_ret.
  repeat (case_match; try (by apply H); simplify_eq); by apply H.
Qed.

(** ** Registration *)

(** The record that a step starts with. *)
Definition fresh_record (plan : Plan) (step : Step) (r : StepCoordinationRecord) : Prop :=
  record_step_id r = Step_id step /\ record_plan_id r = Plan_id plan /\ record_task_id r = Plan_task_id plan /\
  record_dependency_ids r = Step_depends_on step /\ record_phase r = PH_BLOCKED /\ record_satisfied_dependency_ids r = [] /\
  record_current_attempt r = 0%Z /\ record_processed_keys r = [] /\ record_wait r = None /\
  StepCoordinationRecord_post_init r = Ok r.

Fixpoint put_records (records : list StepCoordinationRecord) (s : CoordinatorStore) : CoordinatorStore :=
  match records with
  | [] => s
  | r :: records' => put_records records' (put_record (record_step_id r) r s)
  end.

Lemma each_put_records records s :
  each (fun record => modify (put_record (record_step_id record) record)) records s = (Ok tt, put_records records s).
Proof. revert s. induction records as [|r records IH]; intros s; [done|]. apply IH. Qed.

Lemma put_records_facts records s :
  NoDup (map record_step_id records) ->
  let s' := put_records records s in
  store_plans s' = store_plans s /\ store_claims s' = store_claims s /\ store_fences s' = store_fences s /\
  (forall r, r ∈ records -> store_records s' !! record_step_id r = Some r) /\
  (forall sid, sid ∉ map record_step_id records -> store_records s' !! sid = store_records s !! sid).
Proof.
  revert s. induction records as [|r records IH]; intros s Hnd; cbn.
  { split_and!; [done..| |done]. intros r Hr. by apply not_elem_of_nil in Hr. }
  apply NoDup_cons in Hnd as [Hr Hnd]. destruct (IH (put_record (record_step_id r) r s) Hnd) as (-> & -> & -> & Hin & Hout).
  split_and!; [done..| |].
  - intros x [->|Hx]%elem_of_cons; [|by apply Hin]. rewrite Hout by done. cbn. by rewrite lookup_insert_eq.
  - intros sid Hsid. apply not_elem_of_cons in Hsid as [Hne Hsid]. rewrite Hout by done. cbn. by rewrite lookup_insert_ne.
Qed.

Lemma list_fmap_forall2 {A B C} (f : A -> C) (g : B -> C) (R : A -> B -> Prop) l k :
  Forall2 R l k -> (forall a b, R a b -> f a = g b) -> map f l = map g k.
Proof. intros H Hfg. induction H; cbn; [done|]. f_equal; auto. Qed.

Section registering.
Context (plan_of : string -> string).

(** What a caller of [create_plan] has checked. *)
Definition registrable (plan : Plan) (steps : list Step) (records : list StepCoordinationRecord) : Prop :=
  graph_ok plan steps /\ Forall2 (fresh_record plan) steps records /\ (forall step, step ∈ steps -> plan_of (Step_id step) = Plan_id plan).

Lemma create_effect plan steps records s :
  store_ok plan_of s -> registrable plan steps records ->
  let out := create_plan plan steps records s in
  store_ok plan_of out.2 /\ store_later s out.2 /\ store_claims out.2 = store_claims s /\ store_fences out.2 = store_fences s /\
  (forall sid c, cell_at s sid = Some c -> cell_at out.2 sid = Some c).
Proof.
  intros Hok ([Hne Hnd Hsteps Hrank] & Hrec & Hown). cbn zeta.
  assert (map Step_id steps = map record_step_id records) as Hids.
  { eapply list_fmap_forall2; [exact Hrec|]. intros a b (? & _). done. }
  assert (store_ok plan_of s /\ store_later s s /\ store_claims s = store_claims s /\ store_fences s = store_fences s /\
          (forall sid c, cell_at s sid = Some c -> cell_at s sid = Some c)) as Hself by (split_and!; [done|reflexivity|done..]).
  unfold create_plan, ensure, gets, modify, of_res, raise, mbind, st_bind, mret, st_ret.
  destruct (PlanRuntimeState_post_init _) as [P|e] eqn:HP; [|exact Hself].
  destruct (same_set _ _); [|exact Hself].
  destruct (store_plans s !! Plan_id plan) as [Q|] eqn:HQ; [case_match; exact Hself|].
  pose proof (each_put_records records (put_plan (Plan_id plan) P s)) as Heach. unfold each, mbind, st_bind, mret, st_ret, modify in Heach.
  unfold each, mbind, st_bind, mret, st_ret, modify. rewrite Heach. clear Heach. cbn [snd].
  assert (P = Build_PlanRuntimeState plan steps 1) as -> by by apply state_post_init_ok in HP as [-> _].
  rewrite Hids in Hnd.
  destruct (put_records_facts records (put_plan (Plan_id plan) (Build_PlanRuntimeState plan steps 1) s) Hnd)
    as (Hplans & Hclaims & Hfences & Hnew & Hold). cbn zeta in *.
  set (s' := put_records records (put_plan (Plan_id plan) (Build_PlanRuntimeState plan steps 1) s)) in *. cbn in Hplans, Hclaims, Hfences, Hold.
  rewrite <- Hids in Hnd.
  assert (forall sid r, store_records s !! sid = Some r -> record_plan_id r <> Plan_id plan) as Hother.
  { intros sid r Hr He. destruct (ok_record _ _ Hok _ _ Hr) as (_ & _ & [[st r'] Hc]).
    apply cell_at_some in Hc as (Hr' & P & HP' & _). congruence. }
  assert (forall sid, is_Some (store_records s !! sid) -> sid ∉ map Step_id steps) as Hfresh.
  { intros sid [r Hr] (step & -> & Hin)%list_elem_of_fmap. apply (Hother _ _ Hr).
    destruct (ok_record _ _ Hok _ _ Hr) as (_ & -> & _). by apply Hown. }
  assert (forall sid c, cell_at s sid = Some c -> cell_at s' sid = Some c) as Hkeep.
  { intros sid [st r] Hc. pose proof Hc as Hc'. apply cell_at_some in Hc' as (Hr & P & HP' & Hf). apply cell_at_some.
    rewrite Hold by (rewrite <- Hids; apply Hfresh; by eexists). split; [done|]. exists P. rewrite Hplans.
    rewrite lookup_insert_ne by (symmetry; by eapply Hother). done. }
  assert (forall step, step ∈ steps -> exists r, cell_at s' (Step_id step) = Some (step, r) /\ fresh_record plan step r) as Hcells.
  { intros step Hin. apply list_elem_of_lookup in Hin as [i Hi]. destruct (Forall2_lookup_l _ _ _ _ _ Hrec Hi) as (r & Hr & Hf).
    exists r. split; [|done]. destruct Hf as (Hid & Hpl & _). apply cell_at_some. rewrite <- Hid.
    rewrite Hnew by (by eapply list_elem_of_lookup_2). split; [done|]. rewrite Hplans, Hpl, lookup_insert_eq. eexists. split; [done|].
    rewrite Hid. apply find_step_in; [done|]. by eapply list_elem_of_lookup_2. }
  assert (forall sid r, store_records s' !! sid = Some r ->
    (store_records s !! sid = Some r) \/ exists step, step ∈ steps /\ Step_id step = sid /\ fresh_record plan step r) as Hinv.
  { intros sid r Hr. destruct (decide (sid ∈ map record_step_id records)) as [Hin|Hout]; [|left; by rewrite <- Hold].
    right. apply list_elem_of_fmap in Hin as (r' & -> & Hin). rewrite Hnew in Hr by done. injection Hr as <-.
    apply list_elem_of_lookup in Hin as [i Hi]. destruct (Forall2_lookup_r _ _ _ _ _ Hrec Hi) as (step & Hs & Hf).
    exists step. split_and!; [by eapply list_elem_of_lookup_2|by destruct Hf|done]. }
  assert (store_later s s') as Hlater.
  { split; [|intros pid P HP'|intros sid; by rewrite Hfences].
    - intros sid c Hc. exists c. split; [by apply Hkeep|reflexivity].
    - exists P. rewrite Hplans, lookup_insert_ne by congruence. done. }
  split_and!; [|done..]. split.
  - intros pid P. rewrite Hplans. intros [[<- <-]|[Hne' HP']]%lookup_insert_Some; [done|]. by eapply ok_plan.
  - intros pid P step. rewrite Hplans. intros [[<- <-]|[Hne' HP']]%lookup_insert_Some Hin.
    + cbn in *. split; [by apply Hsteps|]. destruct (Hcells _ Hin) as (r & Hc & Hf). exists r.
      apply cell_at_some in Hc as [Hr _]. destruct Hf as (_ & ? & ? & ? & _). split_and!; done.
    + destruct (ok_step _ _ Hok _ _ _ HP' Hin) as (? & r & Hr & ?). split; [done|]. exists r.
      rewrite Hold; [done|]. rewrite <- Hids. apply Hfresh. by eexists.
  - intros sid r Hr. destruct (Hinv _ _ Hr) as [Hr'|(step & Hin & <- & Hf)].
    + destruct (ok_record _ _ Hok _ _ Hr') as (? & ? & [c Hc]). split_and!; [done..|]. exists c. by apply Hkeep.
    + destruct (Hcells _ Hin) as (r' & Hc & _). destruct Hf as (? & Hp & _). split_and!; [done|rewrite Hp; symmetry; by apply Hown|by eexists].
  - intros sid r Hr. destruct (Hinv _ _ Hr) as [Hr'|(step & _ & _ & Hf)]; [by eapply ok_valid|by apply Hf].
  - intros sid c. rewrite Hclaims, Hfences. intros Hc. destruct (ok_claim _ _ Hok _ _ Hc) as (? & ? & Hsome). split_and!; [done..|].
    rewrite Hold; [done|]. rewrite <- Hids. by apply Hfresh.
  - intros sid [st r] Hc. pose proof Hc as Hc'. apply cell_at_some in Hc' as (Hr & _). destruct (Hinv _ _ Hr) as [Hr'|(step & Hin & <- & Hf)].
    + destruct (ok_record _ _ Hok _ _ Hr') as (_ & _ & [c0 Hc0]). pose proof (Hkeep _ _ Hc0) as Hc1. rewrite Hc in Hc1. injection Hc1 as <-.
      destruct (ok_cell _ _ Hok _ _ Hc0) as [C1 C2 C3 C4]. split; [intros Ho d Hd|intros d Hd|done|done];
        (eapply succeeded_later; [exact Hlater|]); eauto.
    + destruct (Hcells _ Hin) as (r' & Hc0 & _). rewrite Hc in Hc0. injection Hc0 as -> <-.
      destruct (Hsteps _ Hin) as (_ & Hpend & _). destruct Hf as (_ & _ & _ & _ & Hph & Hsat & _). split; cbn; rewrite ?Hpend, ?Hsat, ?Hph; try done.
      intros d Hd. by apply not_elem_of_nil in Hd.
Qed.
End registering.
