(* ===== verification/CoordinationSafety.v ===== *)
(** * The coordinator under interference

    Between two awaits of one coroutine, any other coordinator may act on the same repository.
    [lawful own K p Q] says that [p] keeps its obligations in every such interleaving. [own] are the claims
    it acquired, which nobody else can use; [K] is what it has read: a snapshot of a plan or a record
    stays true up to the moves of the steps, and what was read of a step under a claim stays exact for
    as long as the claim is the current one. The obligations ([op_pre]) are that every save is a move of
    the state machine of CoordinationCells.v, and that a run is requested, or a task completed, only when
    the plan allows it. *)

From Stdlib Require Import SpecFloat.
From S2P Require Import Prelude PyValue Errors StateMonad Ident Lifecycle Domain PyTime TransportModels.
From S2P Require Import CoordinationModels PlanGraph CoordinationStore Projection Recovery CoordinationCells.

(** ** Knowledge *)

Record knowledge := Knowledge {
  known_plans : list PlanRuntimeState;
  known_records : list StepCoordinationRecord;
  held_steps : list (CoordinatorClaim * Step);
  held_records : list (CoordinatorClaim * StepCoordinationRecord)
}.

Definition knows_nothing : knowledge := Knowledge [] [] [] [].

(** A step that was in a snapshot, now. *)
Definition saw_step (s : CoordinatorStore) (x : Step) : Prop :=
  exists c, cell_at s (Step_id x) = Some c /\ step_core c.1 = step_core x /\
    record_plan_id c.2 = Step_plan_id x /\ record_dependency_ids c.2 = Step_depends_on x /\
    (settled (Step_status x) = true -> Step_status c.1 = Step_status x) /\
    (Step_status c.1 = S_PENDING -> Step_status x = S_PENDING) /\
    (opened (Step_status x) = true -> forall d, d ∈ Step_depends_on x -> succeeded s d).

Definition saw_plan (s : CoordinatorStore) (P : PlanRuntimeState) : Prop :=
  (exists P', store_plans s !! Plan_id (state_plan P) = Some P' /\ state_plan P' = state_plan P /\
     map Step_id (state_steps P') = map Step_id (state_steps P)) /\
  forall x, x ∈ state_steps P -> Step_plan_id x = Plan_id (state_plan P) /\ saw_step s x.

Definition saw_record (s : CoordinatorStore) (r : StepCoordinationRecord) : Prop :=
  exists c, cell_at s (record_step_id r) = Some c /\ record_core c.2 = record_core r /\
    (c.2 = r \/ record_revision r < record_revision c.2)%Z.

(** The claim is the current claim of its step. *)
Definition current_claim (s : CoordinatorStore) (c : CoordinatorClaim) : Prop := store_claims s !! claim_step_id c = Some c.

Record knows (own : list CoordinatorClaim) (K : knowledge) (s : CoordinatorStore) : Prop := {
  knows_fence c : c ∈ own -> (claim_fence c <= default 0 (store_fences s !! claim_step_id c))%Z;
  knows_plan P : P ∈ known_plans K -> saw_plan s P;
  knows_record r : r ∈ known_records K -> saw_record s r;
  knows_held_step c x : (c, x) ∈ held_steps K -> c ∈ own /\ (current_claim s c -> exists r, cell_at s (claim_step_id c) = Some (x, r));
  knows_held_record c r : (c, r) ∈ held_records K -> c ∈ own /\ (current_claim s c -> exists x, cell_at s (claim_step_id c) = Some (x, r))
}.

(** What the other coroutines do to the repository, for a coroutine that owns [own]. *)
Record others (own : list CoordinatorClaim) (s s' : CoordinatorStore) : Prop := {
  others_later : store_later s s';
  others_claim c : c ∈ own -> current_claim s' c -> current_claim s c /\ cell_at s' (claim_step_id c) = cell_at s (claim_step_id c)
}.

(** ** Stability *)

Lemma saw_step_later s s' x : store_later s s' -> saw_step s x -> saw_step s' x.
Proof.
  intros Hl (c & Hc & Hcore & Hp & Hd & Hset & Hpend & Ho). destruct (later_cell _ _ Hl _ _ Hc) as (c' & Hc' & Hm).
  destruct (moves_core _ _ _ Hm) as (H1 & H2 & _ & _ & H5 & H6). destruct (record_core_fields _ _ H2) as (? & _ & _ & ? & _).
  exists c'. split_and!; try congruence.
  - intros Hs. rewrite H5; [by apply Hset|]. rewrite Hset; done.
  - auto.
  - intros Hop d Hdep. eapply succeeded_later; [done|]. by apply Ho.
Qed.

Lemma saw_plan_later s s' P : store_later s s' -> saw_plan s P -> saw_plan s' P.
Proof.
  intros Hl [(P1 & HP1 & Hp1 & Hi1) Hx]. split.
  - destruct (later_plan _ _ Hl _ _ HP1) as (P2 & ? & ? & ?). exists P2. split_and!; congruence.
  - intros x Hin. destruct (Hx x Hin) as [? ?]. split; [done|]. by eapply saw_step_later.
Qed.

Lemma saw_record_later s s' r : store_later s s' -> saw_record s r -> saw_record s' r.
Proof.
  intros Hl (c & Hc & Hcore & Hrev). destruct (later_cell _ _ Hl _ _ Hc) as (c' & Hc' & Hm).
  destruct (moves_core _ _ _ Hm) as (_ & H2 & _ & H4 & _). exists c'. split_and!; [done|congruence|].
  destruct H4 as [->|]; [done|]. right. destruct Hrev as [<-|]; lia.
Qed.

Lemma knows_others own K s s' : others own s s' -> knows own K s -> knows own K s'.
Proof.
  intros [Hl Hc] [H1 H2 H3 H4 H5]. split.
  - intros c Hin. specialize (H1 c Hin). pose proof (later_fence _ _ Hl (claim_step_id c)). lia.
  - intros P HP. eapply saw_plan_later; eauto.
  - intros r Hr. eapply saw_record_later; eauto.
  - intros c x Hin. destruct (H4 c x Hin) as [Hown Hh]. split; [done|]. intros Hcur.
    destruct (Hc c Hown Hcur) as [Hcur' ->]. auto.
  - intros c r Hin. destruct (H5 c r Hin) as [Hown Hh]. split; [done|]. intros Hcur.
    destruct (Hc c Hown Hcur) as [Hcur' ->]. auto.
Qed.

(** ** Obligations and what an operation teaches *)

Section safety.
Context (E : coordination_env) (plan_of : string -> string).
(** What a save may make of a record, on top of the machine: [anything], unless a theorem asks for more. *)
Context (allowed : StepCoordinationRecord -> StepCoordinationRecord -> Prop).

(** A command to the kernel that the plan allows. *)
Definition justified (s : CoordinatorStore) (o : kernel_op) : Prop :=
  match o with
  | CreateRun _ task_id step_id =>
      exists c, cell_at s step_id = Some c /\ record_task_id c.2 = task_id /\
        forall d, d ∈ Step_depends_on c.1 -> succeeded s d
  | CompleteTask _ task_id =>
      exists pid P, store_plans s !! pid = Some P /\ Plan_task_id (state_plan P) = task_id /\ state_steps P <> [] /\
        forall x, x ∈ state_steps P -> Step_status x = S_SUCCEEDED \/ Step_status x = S_SKIPPED
  | _ => True
  end.

Definition op_pre (own : list CoordinatorClaim) (s : CoordinatorStore) (o : cop) : Prop :=
  match o with
  | CreatePlan plan steps records => registrable plan_of plan steps records
  | SaveStep step record expected claim now =>
      claim ∈ own /\ claim_step_id claim = Step_id step /\
      (current_claim s claim -> forall c, cell_at s (Step_id step) = Some c -> record_revision c.2 = expected ->
       move (succeeded s) c (step, set_revision (record_revision c.2 + 1) (set_updated_at now record)) /\ allowed c.2 record)
  | Ask o => justified s o
  | _ => True
  end.

Definition own_after (own : list CoordinatorClaim) (o : cop) : res (creply o) -> list CoordinatorClaim :=
  match o return res (creply o) -> list CoordinatorClaim with
  | AcquireClaim _ _ _ _ => fun r => match r with Ok (Some c) => c :: own | _ => own end
  | _ => fun _ => own
  end.

Definition learn_plans (l : list PlanRuntimeState) (K : knowledge) : knowledge :=
  Knowledge (l ++ known_plans K) (known_records K) (held_steps K) (held_records K).
Definition learn_records (l : list StepCoordinationRecord) (K : knowledge) : knowledge :=
  Knowledge (known_plans K) (l ++ known_records K) (held_steps K) (held_records K).
Definition hold_steps (l : list (CoordinatorClaim * Step)) (K : knowledge) : knowledge :=
  Knowledge (known_plans K) (known_records K) (l ++ held_steps K) (held_records K).
Definition hold_records (l : list (CoordinatorClaim * StepCoordinationRecord)) (K : knowledge) : knowledge :=
  Knowledge (known_plans K) (known_records K) (held_steps K) (l ++ held_records K).
(** After a save under a claim, what was held under it is no longer exact. *)
Definition let_go (claim : CoordinatorClaim) (K : knowledge) : knowledge :=
  Knowledge (known_plans K) (known_records K) (filter (fun h => h.1 <> claim) (held_steps K))
    (filter (fun h => h.1 <> claim) (held_records K)).

Definition learn (own : list CoordinatorClaim) (K : knowledge) (o : cop) : res (creply o) -> knowledge :=
  match o return res (creply o) -> knowledge with
  | GetPlan _ => fun r =>
      match r with
      | Ok P => hold_steps (omap (fun c => x ← find_step (claim_step_id c) (state_steps P); Some (c, x)) own) (learn_plans [P] K)
      | Err _ => K
      end
  | GetRecord step_id => fun r =>
      match r with
      | Ok rec => hold_records (omap (fun c => if String.eqb (claim_step_id c) step_id then Some (c, rec) else None) own)
                    (learn_records [rec] K)
      | Err _ => K
      end
  | GetSnapshot _ => fun r => match r with Ok (P, recs) => learn_plans [P] (learn_records recs K) | Err _ => K end
  | ListRecords _ => fun r => match r with Ok recs => learn_records recs K | Err _ => K end
  | ListPlans => fun r => match r with Ok Ps => learn_plans Ps K | Err _ => K end
  | SaveStep _ _ _ claim _ => fun _ => let_go claim K
  | _ => fun _ => K
  end.

Fixpoint lawful {A} (p : cprog A) (own : list CoordinatorClaim) (K : knowledge)
    (Q : A -> list CoordinatorClaim -> knowledge -> Prop) : Prop :=
  match p with
  | Ret a => Q a own K
  | Raise _ => True
  | Vis o k =>
      (forall s, store_ok plan_of s -> knows own K s -> op_pre own s o) /\
      forall r w, store_ok plan_of (w_store w) -> knows own K (w_store w) -> (perform E o w).1 = r ->
        lawful (k r) (own_after own o r) (learn own K o r) Q
  end.

(** Safe from any state, promising nothing. *)
Definition steady {A} (p : cprog A) : Prop := forall own K, lawful p own K (fun _ _ _ => True).

(** ** Rules *)

Lemma lawful_mono {A} (p : cprog A) own K (Q Q' : A -> list CoordinatorClaim -> knowledge -> Prop) :
  lawful p own K Q -> (forall a own K, Q a own K -> Q' a own K) -> lawful p own K Q'.
Proof. revert own K. induction p as [a|e|o k IH]; cbn; intros own K; [auto|done|]. intros [H1 H2] HQ. split; [done|]. intros. eapply IH; eauto. Qed.

Lemma lawful_bind {A B} (p : cprog A) (f : A -> cprog B) own K Q :
  lawful p own K (fun a own K => lawful (f a) own K Q) -> lawful (p ≫= f) own K Q.
Proof. revert own K. induction p as [a|e|o k IH]; cbn; intros own K; [auto|done|]. intros [H1 H2]. split; [done|]. intros. eapply IH; eauto. Qed.

Lemma lawful_assoc {A B C} (p : cprog A) (f : A -> cprog B) (g : B -> cprog C) own K Q :
  lawful (p ≫= fun a => f a ≫= g) own K Q -> lawful ((p ≫= f) ≫= g) own K Q.
Proof. revert own K. induction p as [a|e|o k IH]; cbn; intros own K; [auto|done|]. intros [H1 H2]. split; [done|]. intros. eapply IH; eauto. Qed.

Lemma steady_bind {A B} (p : cprog A) (f : A -> cprog B) own K Q :
  steady p -> (forall a own K, lawful (f a) own K Q) -> lawful (p ≫= f) own K Q.
Proof. intros Hp Hf. apply lawful_bind. eapply lawful_mono; [apply Hp|]. auto. Qed.

Lemma steady_seq {A B} (p : cprog A) (f : A -> cprog B) : steady p -> (forall a, steady (f a)) -> steady (p ≫= f).
Proof. intros Hp Hf own K. apply steady_bind; [done|]. intros. apply Hf. Qed.

Lemma lawful_any {A} (p : cprog A) own K Q : steady p -> (forall a own K, Q a own K) -> lawful p own K Q.
Proof. intros Hp HQ. eapply lawful_mono; [apply Hp|]. auto. Qed.

Lemma steady_ret {A} (a : A) : steady (Ret a).
Proof. done. Qed.
Lemma steady_raise {A} e : steady (Raise e : cprog A).
Proof. done. Qed.
Lemma steady_lift {A} (r : res A) : steady (lift r).
Proof. by destruct r. Qed.
Lemma steady_guard b e : steady (guard b e).
Proof. by destruct b. Qed.

Lemma steady_catch {A} (p : cprog A) h : steady p -> (forall e, steady (h e)) -> steady (catch p h).
Proof.
  intros Hp Hh own K. specialize (Hp own K). revert own K Hp.
  induction p as [a|e|o k IH]; cbn; intros own K; [done|intros _; apply Hh|]. intros [H1 H2]. split; [done|]. intros. eapply IH; eauto.
Qed.

(** The handler of [finally] runs from any state. *)
Lemma lawful_attempt {A} (p : cprog A) own K Q :
  lawful p own K (fun a own K => Q (Ok a) own K) -> (forall e own K, Q (Err e) own K) -> lawful (attempt p) own K Q.
Proof.
  intros Hp HQ. revert own K Hp. induction p as [a|e|o k IH]; cbn; intros own K; [done|intros _; apply HQ|].
  intros [H1 H2]. split; [done|]. intros. eapply IH; eauto.
Qed.

Lemma steady_attempt {A} (p : cprog A) : steady p -> steady (attempt p).
Proof. intros Hp own K. apply lawful_attempt; [apply Hp|done]. Qed.

Lemma steady_for_each {A B} (f : A -> cprog B) l : (forall a, a ∈ l -> steady (f a)) -> steady (for_each f l).
Proof.
  induction l as [|a l IH]; intros Hf; [apply steady_ret|]. cbn. apply steady_seq; [apply Hf; by left|].
  intros b. apply steady_seq; [apply IH; intros; apply Hf; by right|]. intros; apply steady_ret.
Qed.

(** An operation without obligations. *)
Lemma lawful_call {B} (o : cop) (f : creply o -> cprog B) own K Q :
  (forall s, store_ok plan_of s -> knows own K s -> op_pre own s o) ->
  (forall a w, store_ok plan_of (w_store w) -> knows own K (w_store w) -> (perform E o w).1 = Ok a ->
     lawful (f a) (own_after own o (Ok a)) (learn own K o (Ok a)) Q) ->
  lawful (call o ≫= f) own K Q.
Proof. intros Hpre Hf. split; [exact Hpre|]. intros [a|e] w Hok HK Hr; [by eapply Hf|done]. Qed.

Lemma steady_call (o : cop) : (forall own s, op_pre own s o) -> steady (call o).
Proof. intros Hpre own K. split; [auto|]. intros [a|e] w _ _ _; done. Qed.
End safety.

Definition anything (r r' : StepCoordinationRecord) : Prop := True.
