(* ===== verification/CoordinationPool.v ===== *)
(** * Any number of coordinators on one repository

    Every coroutine that is [steady] can run with any others: in each interleaving the repository keeps
    its invariant, its steps move by the state machine only, and every command the kernel received was
    one the plan allows. *)

From S2P Require Import Prelude PyValue Errors StateMonad Ident Lifecycle Domain PyTime TransportModels.
From S2P Require Import CoordinationModels PlanGraph CoordinationStore Projection Recovery CoordinationCells.
From S2P Require Import CoordinationSafety.

(** ** What the reads return *)

Section reads.
Context (plan_of : string -> string) (s : CoordinatorStore) (Hok : store_ok plan_of s).

Lemma plan_cell pid P x :
  store_plans s !! pid = Some P -> x ∈ state_steps P ->
  exists r, cell_at s (Step_id x) = Some (x, r) /\ record_plan_id r = pid /\ Step_plan_id x = pid /\
    record_dependency_ids r = Step_depends_on x /\ record_task_id r = Plan_task_id (state_plan P).
Proof.
  intros HP Hx. destruct (ok_plan _ _ Hok _ _ HP) as [Hpid Hinit]. apply state_post_init_ok in Hinit as (_ & _ & _ & Hnd & Hpl).
  destruct (ok_step _ _ Hok _ _ _ HP Hx) as (_ & r & Hr & Hrp & Hrt & Hrd). exists r. rewrite Hpid in Hrp. split_and!; [|done| |done|done].
  - apply cell_at_some. split; [done|]. exists P. rewrite Hrp. split; [done|]. by apply find_step_in.
  - rewrite <- Hpid. by apply Hpl.
Qed.

Lemma saw_plan_now pid P : store_plans s !! pid = Some P -> saw_plan s P.
Proof.
  intros HP. destruct (ok_plan _ _ Hok _ _ HP) as [Hpid _]. split.
  - exists P. by rewrite Hpid.
  - intros x Hx. destruct (plan_cell _ _ _ HP Hx) as (r & Hc & Hrp & Hpl & Hd & _). split; [by rewrite Hpid|].
    exists (x, r). split_and!; try done; [cbn; congruence|]. intros Ho d Hdep. eapply (cell_opened _ _ (ok_cell _ _ Hok _ _ Hc)); [done|].
    cbn. by rewrite Hd.
Qed.

Lemma saw_record_now sid r : store_records s !! sid = Some r -> saw_record s r /\ record_step_id r = sid.
Proof.
  intros Hr. destruct (ok_record _ _ Hok _ _ Hr) as (Hid & _ & [[x r'] Hc]). split; [|done].
  pose proof Hc as Hc'. apply cell_at_some in Hc' as [Hr' _]. rewrite Hr in Hr'. injection Hr' as <-.
  exists (x, r). rewrite Hid. split_and!; [done..|by left].
Qed.

Lemma values_by_key_in {A} (d : gmap string A) x : x ∈ values_by_key d -> exists k, d !! k = Some x.
Proof. unfold values_by_key. intros (k & _ & Hk)%list_elem_of_omap. by exists k. Qed.

Lemma plan_records_in plan_id r :
  r ∈ plan_records plan_id s -> store_records s !! record_step_id r = Some r /\ record_plan_id r = plan_id.
Proof.
  unfold plan_records. intros Hr%list_elem_of_In%List.filter_In. destruct Hr as [Hr He%String.eqb_eq].
  apply list_elem_of_In, values_by_key_in in Hr as [k Hk]. split; [|done].
  by destruct (saw_record_now _ _ Hk) as [_ ->].
Qed.

Lemma held_step_now (own : list CoordinatorClaim) pid P c x :
  store_plans s !! pid = Some P ->
  (c, x) ∈ omap (fun c => x ← find_step (claim_step_id c) (state_steps P); Some (c, x)) own ->
  c ∈ own /\ exists r, cell_at s (claim_step_id c) = Some (x, r).
Proof.
  intros HP (c' & Hc & Hx)%list_elem_of_omap. apply bind_Some in Hx as (x' & Hf & [= -> ->]). split; [done|].
  apply find_step_some in Hf as [Hin <-]. destruct (plan_cell _ _ _ HP Hin) as (r & ? & _). by exists r.
Qed.

Lemma held_record_now (own : list CoordinatorClaim) sid r c r' :
  store_records s !! sid = Some r ->
  (c, r') ∈ omap (fun c => if String.eqb (claim_step_id c) sid then Some (c, r) else None) own ->
  c ∈ own /\ exists x, cell_at s (claim_step_id c) = Some (x, r').
Proof.
  intros Hr (c' & Hc & Hx)%list_elem_of_omap. destruct (String.eqb_spec (claim_step_id c') sid) as [He|]; [|done].
  injection Hx as -> ->. split; [done|]. rewrite He. destruct (ok_record _ _ Hok _ _ Hr) as (_ & _ & [[x r0] Hc0]).
  pose proof Hc0 as Hc0'. apply cell_at_some in Hc0' as [Hr0 _]. rewrite Hr in Hr0. injection Hr0 as <-. by exists x.
Qed.
End reads.

(** ** One operation *)

Section pool.
Context (E : coordination_env) (plan_of : string -> string)
  (allowed : StepCoordinationRecord -> StepCoordinationRecord -> Prop).

(** The operations that leave the repository alone. *)
Lemma on_store_snd {A} (w : cworld) (m : store_st A) : on_store w m = ((m (w_store w)).1, Build_cworld (m (w_store w)).2 (S (w_clock w)) (w_asked w)).
Proof. unfold on_store. by destruct (m (w_store w)). Qed.

Lemma get_plan_run plan_id s :
  get_plan plan_id s = (match store_plans s !! plan_id with
                        | Some P => Ok P
                        | None => Err (contract_error NOT_FOUND ("coordination plan " +:+ plan_id +:+ " not found"))
                        end, s).
Proof. unfold get_plan, gets, mbind, st_bind, mret, st_ret, raise. by destruct (store_plans s !! plan_id). Qed.

Lemma get_record_run step_id s :
  get_step_record step_id s = (match store_records s !! step_id with Some r => Ok r | None => Err (step_not_found step_id) end, s).
Proof. unfold get_step_record, gets, mbind, st_bind, mret, st_ret, raise. by destruct (store_records s !! step_id). Qed.

Lemma get_snapshot_run plan_id s :
  get_plan_snapshot plan_id s =
    (match store_plans s !! plan_id with
     | Some P => Ok (P, plan_records plan_id s)
     | None => Err (contract_error NOT_FOUND ("coordination plan " +:+ plan_id +:+ " not found"))
     end, s).
Proof. unfold get_plan_snapshot, mbind at 1, st_bind at 1. rewrite get_plan_run. by destruct (store_plans s !! plan_id). Qed.

Lemma list_records_run plan_id s :
  list_step_records plan_id s =
    (match store_plans s !! plan_id with
     | Some _ => Ok (plan_records plan_id s)
     | None => Err (contract_error NOT_FOUND ("coordination plan " +:+ plan_id +:+ " not found"))
     end, s).
Proof. unfold list_step_records, mbind, st_bind. rewrite get_snapshot_run. by destruct (store_plans s !! plan_id). Qed.

Lemma plan_retirement_run plan_id s : (plan_retirement plan_id s).2 = s.
Proof. unfold plan_retirement, mbind, st_bind. rewrite get_plan_run. by destruct (store_plans s !! plan_id). Qed.

Lemma knows_more own K s Ps recs hs hr :
  knows own K s -> (forall P, P ∈ Ps -> saw_plan s P) -> (forall r, r ∈ recs -> saw_record s r) ->
  (forall c x, (c, x) ∈ hs -> c ∈ own /\ exists r, cell_at s (claim_step_id c) = Some (x, r)) ->
  (forall c r, (c, r) ∈ hr -> c ∈ own /\ exists x, cell_at s (claim_step_id c) = Some (x, r)) ->
  knows own (Knowledge (Ps ++ known_plans K) (recs ++ known_records K) (hs ++ held_steps K) (hr ++ held_records K)) s.
Proof.
  intros [H1 H2 H3 H4 H5] HP Hr Hs Hh. split; cbn.
  - done.
  - intros P [?|?]%elem_of_app; auto.
  - intros r [?|?]%elem_of_app; auto.
  - intros c x [Hin|?]%elem_of_app; auto. destruct (Hs _ _ Hin). auto.
  - intros c r [Hin|?]%elem_of_app; auto. destruct (Hh _ _ Hin). auto.
Qed.

(** What one operation of a coroutine with claims [own] means for itself, and for the others. *)
Record op_effect (own : list CoordinatorClaim) (K : knowledge) (o : cop) (s : CoordinatorStore) (r : res (creply o)) (s' : CoordinatorStore) : Prop := {
  effect_ok : store_ok plan_of s';
  effect_later : store_later s s';
  effect_knows : knows (own_after own o r) (learn own K o r) s';
  effect_others own' : (forall c, c ∈ own -> c ∉ own') ->
    (forall c, c ∈ own' -> (claim_fence c <= default 0 (store_fences s !! claim_step_id c))%Z) ->
    others own' s s' /\ (forall c, c ∈ own_after own o r -> c ∉ own')
}.

(** An operation that changes nothing. *)
Lemma effect_quiet own K o s r :
  store_ok plan_of s -> own_after own o r = own -> knows own (learn own K o r) s -> op_effect own K o s r s.
Proof.
  intros Hok Hown HK. split; [done|reflexivity|by rewrite Hown|]. intros own' Hdis _. rewrite Hown. split; [|done].
  split; [reflexivity|]. done.
Qed.

(** The own save: what was held of the step is let go. *)
Lemma effect_save own K step record expected claim now s :
  store_ok plan_of s -> knows own K s -> op_pre plan_of allowed own s (SaveStep step record expected claim now) ->
  let out := save_step step record expected (Some claim) now s in
  op_effect own K (SaveStep step record expected claim now) s out.1 out.2.
Proof.
  intros Hok HK (Hown & Hid & Hboth). unfold current_claim in Hboth. rewrite Hid in Hboth. cbn zeta.
  assert (forall H c Hc Hr, _) as Hmove by exact (fun H c Hc Hr => proj1 (Hboth H c Hc Hr)).
  assert (forall s', store_later s s' ->
            (forall c, current_claim s' c -> c <> claim -> current_claim s c /\ cell_at s' (claim_step_id c) = cell_at s (claim_step_id c)) ->
            knows own (let_go claim K) s') as Hlet.
  { intros s' Hl Hc. destruct HK as [H1 H2 H3 H4 H5]. split; cbn.
    - intros c Hin. specialize (H1 c Hin). pose proof (later_fence _ _ Hl (claim_step_id c)). lia.
    - intros P HP. eapply saw_plan_later; eauto.
    - intros r Hr. eapply saw_record_later; eauto.
    - intros c x [Hne Hin]%list_elem_of_filter. destruct (H4 _ _ Hin) as [? Hh]. split; [done|]. intros Hcur.
      destruct (Hc _ Hcur Hne) as [? ->]. auto.
    - intros c r [Hne Hin]%list_elem_of_filter. destruct (H5 _ _ Hin) as [? Hh]. split; [done|]. intros Hcur.
      destruct (Hc _ Hcur Hne) as [? ->]. auto. }
  destruct (save_step_effect plan_of _ _ _ _ _ now Hok Hmove) as [[e He]|(saved & s' & c & He & Hu & Hcl & _)]; rewrite He; cbn [fst snd].
  - apply effect_quiet; [done..|]. apply Hlet; [reflexivity|done].
  - pose proof (cell_updated_later _ _ _ _ _ Hok Hu) as Hl.
    destruct (cell_updated_cells _ _ _ _ _ Hok Hu) as (_ & Hother & Hclaims & _).
    assert (forall c, current_claim s' c -> c <> claim -> current_claim s c /\ cell_at s' (claim_step_id c) = cell_at s (claim_step_id c)) as Hc.
    { intros c' Hcur Hne. unfold current_claim in *. rewrite Hclaims in Hcur. split; [done|]. apply Hother. intros Heq.
      rewrite Heq, Hcl in Hcur. by injection Hcur. }
    split; [by eapply cell_updated_ok|done|by apply Hlet|].
    intros own' Hdis _. split; [|done]. split; [done|]. intros c' Hc' Hcur. apply Hc; [done|]. intros ->. by apply (Hdis claim).
Qed.

Lemma effect_acquire own K step_id owner ttl now uuid s :
  store_ok plan_of s -> knows own K s ->
  let out := acquire_claim step_id owner ttl now uuid s in
  op_effect own K (AcquireClaim step_id owner ttl now) s out.1 out.2.
Proof.
  intros Hok HK. cbn zeta. destruct (acquire_effect plan_of step_id owner ttl now uuid s Hok) as (Hkept & Hok' & Hl & Hr).
  set (out := acquire_claim step_id owner ttl now uuid s) in *.
  assert (forall own', (forall c, c ∈ own' -> current_claim out.2 c -> current_claim s c) -> others own' s out.2) as Hothers.
  { intros own' H. split; [done|]. intros c Hc Hcur. split; [by apply H|by apply cells_kept_cell]. }
  assert (forall own', store_claims out.2 = store_claims s -> others own' s out.2) as Hsame.
  { intros own' Hc. apply Hothers. unfold current_claim. by rewrite Hc. }
  destruct out.1 as [[c|]|e] eqn:Hout; cbn [own_after].
  - destruct Hr as (Hid & Hfence & Hclaims & Hnew).
    assert (forall own', (forall c, c ∈ own' -> (claim_fence c <= default 0 (store_fences s !! claim_step_id c))%Z) -> others own' s out.2) as Hfresh.
    { intros own' Hb. apply Hothers. unfold current_claim. rewrite Hclaims. intros c' Hc'.
      intros [[He Heq]|[_ ?]]%lookup_insert_Some; [|done]. subst c'. specialize (Hb c Hc'). rewrite Hid, Hfence in Hb. lia. }
    split; [done|done| |].
    + pose proof (knows_others own K s out.2 (Hfresh own (knows_fence _ _ _ HK)) HK) as [H1 H2 H3 H4 H5]. split; cbn [learn].
      * intros c' [->|Hin]%elem_of_cons; [rewrite Hid; lia|by apply H1].
      * done.
      * done.
      * intros c' x Hin. destruct (H4 _ _ Hin). split; [by right|done].
      * intros c' r Hin. destruct (H5 _ _ Hin). split; [by right|done].
    + intros own' Hdis Hb. split; [by apply Hfresh|]. intros c' [->|Hin]%elem_of_cons; [|by apply Hdis].
      intros Hin. specialize (Hb c Hin). rewrite Hid, Hfence in Hb. lia.
  - split; [done|done| |intros own' Hdis _; split; [by apply Hsame|done]]. eapply knows_others; [by apply Hsame|done].
  - split; [done|done| |intros own' Hdis _; split; [by apply Hsame|done]]. eapply knows_others; [by apply Hsame|done].
Qed.

(** Operations that change no cell that exists, and no claim but by removing one. *)
Lemma effect_aside own K o s r s' :
  store_ok plan_of s' -> store_later s s' -> knows own K s -> own_after own o r = own -> learn own K o r = K ->
  (forall sid c, cell_at s sid = Some c -> cell_at s' sid = Some c) ->
  (forall sid c, store_claims s' !! sid = Some c -> store_claims s !! sid = Some c /\ is_Some (cell_at s sid)) ->
  op_effect own K o s r s'.
Proof.
  intros Hok Hl HK Hown Hlearn Hcells Hclaims.
  assert (forall own', others own' s s') as Hothers.
  { intros own'. split; [done|]. intros c _ Hcur. unfold current_claim in *. destruct (Hclaims _ _ Hcur) as [? [c0 Hc0]].
    split; [done|]. rewrite Hc0. by apply Hcells. }
  split; [done|done| |].
  - rewrite Hown, Hlearn. by eapply knows_others.
  - intros own' Hdis _. rewrite Hown. done.
Qed.

Lemma claim_has_cell s sid c : store_ok plan_of s -> store_claims s !! sid = Some c -> is_Some (cell_at s sid).
Proof. intros Hok Hc. destruct (ok_claim _ _ Hok _ _ Hc) as (_ & _ & [r Hr]). by destruct (ok_record _ _ Hok _ _ Hr) as (_ & _ & ?). Qed.

Lemma perform_effect own K o w :
  store_ok plan_of (w_store w) -> knows own K (w_store w) -> op_pre plan_of allowed own (w_store w) o ->
  op_effect own K o (w_store w) (perform E o w).1 (w_store (perform E o w).2).
Proof.
  intros Hok HK Hpre. destruct w as [s n log]. cbn [w_store] in *.
  destruct o; cbn [perform]; rewrite ?on_store_snd; cbn [fst snd w_store w_clock]; unfold perform.
  - by apply effect_quiet.
  - by apply effect_quiet.
  - destruct (create_effect plan_of plan steps records s Hok Hpre) as (Hok' & Hl & Hc & Hf & Hcells).
    apply effect_aside; try done. intros sid c. rewrite Hc. intros H. split; [done|]. by eapply claim_has_cell.
  - rewrite get_plan_run. cbn [fst snd]. apply effect_quiet; [done..|]. destruct (store_plans s !! plan_id) as [P|] eqn:HP; cbn; [|done].
    apply (knows_more own K s [P] [] _ []); [done| |intros ? []%not_elem_of_nil| |intros ? ? []%not_elem_of_nil].
    + intros Q ->%list_elem_of_singleton. by eapply saw_plan_now.
    + intros c x Hin. by eapply held_step_now.
  - rewrite get_snapshot_run. cbn [fst snd]. apply effect_quiet; [done..|]. destruct (store_plans s !! plan_id) as [P|] eqn:HP; cbn; [|done].
    apply (knows_more own K s [P] (plan_records plan_id s) [] []); [done| | |intros ? ? []%not_elem_of_nil|intros ? ? []%not_elem_of_nil].
    + intros Q ->%list_elem_of_singleton. by eapply saw_plan_now.
    + intros r Hr. destruct (plan_records_in plan_of s Hok _ _ Hr) as [Hr' _]. by destruct (saw_record_now plan_of s Hok _ _ Hr').
  - rewrite get_record_run. cbn [fst snd]. apply effect_quiet; [done..|]. destruct (store_records s !! step_id) as [r|] eqn:Hr; cbn; [|done].
    apply (knows_more own K s [] [r] [] _); [done|intros ? []%not_elem_of_nil| |intros ? ? []%not_elem_of_nil|].
    + intros r' ->%list_elem_of_singleton. by destruct (saw_record_now plan_of s Hok _ _ Hr).
    + intros c r' Hin. by eapply held_record_now.
  - rewrite list_records_run. cbn [fst snd]. apply effect_quiet; [done..|]. destruct (store_plans s !! plan_id) as [P|] eqn:HP; cbn; [|done].
    apply (knows_more own K s [] (plan_records plan_id s) [] []); [done|intros ? []%not_elem_of_nil| |intros ? ? []%not_elem_of_nil|intros ? ? []%not_elem_of_nil].
    intros r Hr. destruct (plan_records_in plan_of s Hok _ _ Hr) as [Hr' _]. by destruct (saw_record_now plan_of s Hok _ _ Hr').
  - apply effect_quiet; [done..|]. cbn. apply (knows_more own K s _ [] [] []); [done| |intros ? []%not_elem_of_nil|intros ? ? []%not_elem_of_nil|intros ? ? []%not_elem_of_nil].
    intros P HP. apply list_elem_of_In, List.filter_In in HP as [HP _]. apply list_elem_of_In, values_by_key_in in HP as [k Hk].
    by eapply saw_plan_now.
  - by apply effect_save.
  - by apply effect_acquire.
  - destruct (release_effect plan_of claim s Hok) as (Hk & Hok' & Hl & Hf & Hc). apply effect_aside; try done.
    + intros sid c. by rewrite (cells_kept_cell _ _ _ Hk).
    + intros sid c H. assert (store_claims s !! sid = Some c) as Hs.
      { destruct Hc as [Hc|[_ Hc]]; rewrite Hc in H; [done|]. by apply lookup_delete_Some in H as [_ ?]. }
      split; [done|]. by eapply claim_has_cell.
  - destruct (retire_effect plan_of plan_id superseded_by_plan_id reason retired_at s Hok) as (Hk & Hok' & Hl & Hc & Hf).
    apply effect_aside; try done.
    + intros sid c. by rewrite (cells_kept_cell _ _ _ Hk).
    + intros sid c. rewrite Hc. intros H. split; [done|]. by eapply claim_has_cell.
  - rewrite plan_retirement_run. by apply effect_quiet.
  - by apply effect_quiet.
Qed.

(** ** Any interleaving *)

Lemma justified_later s s' o :
  store_ok plan_of s -> store_ok plan_of s' -> store_later s s' -> justified s o -> justified s' o.
Proof.
  intros Hok Hok' Hl. destruct o; cbn; try done.
  - intros (c & Hc & Ht & Hd). destruct (later_cell _ _ Hl _ _ Hc) as (c' & Hc' & Hm).
    destruct (moves_core _ _ _ Hm) as (Hs & Hr & _). destruct (step_core_fields _ _ Hs) as (_ & _ & Hsd & _).
    destruct (record_core_fields _ _ Hr) as (_ & Hrt & _). exists c'. split_and!; [done|congruence|].
    rewrite Hsd. intros d Hin. eapply succeeded_later; [done|]. by apply Hd.
  - intros (pid & P & HP & Ht & Hne & Hx). destruct (later_plan _ _ Hl _ _ HP) as (P' & HP' & Hp & Hi).
    exists pid, P'. split_and!; [done|congruence| |].
    + intros Hnil. rewrite Hnil in Hi. by destruct (state_steps P).
    + intros x Hin. assert (Step_id x ∈ map Step_id (state_steps P)) as (x0 & Heq & Hin0)%list_elem_of_fmap.
      { rewrite <- Hi. apply list_elem_of_fmap. by exists x. }
      destruct (plan_cell _ _ Hok _ _ _ HP Hin0) as (r0 & Hc0 & _). destruct (plan_cell _ _ Hok' _ _ _ HP' Hin) as (r & Hc & _).
      destruct (later_cell _ _ Hl _ _ Hc0) as (c' & Hc' & Hm). rewrite <- Heq, Hc in Hc'. injection Hc' as <-.
      destruct (moves_core _ _ _ Hm) as (_ & _ & _ & _ & Hset & _). cbn in Hset. specialize (Hx x0 Hin0).
      rewrite Hset; [done|]. by destruct Hx as [-> | ->].
Qed.

Record pool_ok (w0 : cworld) (owns : nat -> list CoordinatorClaim) (Ks : nat -> knowledge) (c : list (cprog unit) * cworld) : Prop := {
  pool_store : store_ok plan_of (w_store c.2);
  pool_later : store_later (w_store w0) (w_store c.2);
  pool_knows i : knows (owns i) (Ks i) (w_store c.2);
  pool_safe i p : c.1 !! i = Some p -> lawful E plan_of allowed p (owns i) (Ks i) (fun _ _ _ => True);
  pool_disjoint i j cl : i <> j -> cl ∈ owns i -> cl ∉ owns j;
  pool_asked o : o ∈ w_asked c.2 -> o ∈ w_asked w0 \/ justified (w_store c.2) o
}.

Lemma perform_asked o w : w_asked (perform E o w).2 = match o with Ask a => a :: w_asked w | _ => w_asked w end.
Proof. destruct o; cbn [perform]; rewrite ?on_store_snd; done. Qed.

Lemma pool_move w0 owns Ks c i o k :
  pool_ok w0 owns Ks c -> c.1 !! i = Some (Vis o k) ->
  exists owns' Ks', pool_ok w0 owns' Ks' (<[i := k (perform E o c.2).1]> c.1, (perform E o c.2).2).
Proof.
  intros [Hok Hl HK Hsafe Hdis Hask] Hi. destruct (Hsafe i _ Hi) as [Hpre Hnext].
  destruct (perform_effect (owns i) (Ks i) o c.2 Hok (HK i) (Hpre _ Hok (HK i))) as [Hok' Hl' HK' Hothers].
  set (r := (perform E o c.2).1) in *. set (w' := (perform E o c.2).2) in *.
  assert (forall j, j <> i -> others (owns j) (w_store c.2) (w_store w') /\ (forall cl, cl ∈ own_after (owns i) o r -> cl ∉ owns j)) as Hj.
  { intros j Hne. apply Hothers; [intros cl; by apply Hdis|]. intros cl Hin. by apply (knows_fence _ _ _ (HK j)). }
  exists (fun j => if decide (j = i) then own_after (owns i) o r else owns j), (fun j => if decide (j = i) then learn (owns i) (Ks i) o r else Ks j).
  split; cbn [fst snd].
  - done.
  - by etrans.
  - intros j. destruct (decide (j = i)) as [->|Hne]; [done|]. eapply knows_others; [by apply Hj|done].
  - intros j p Hp. destruct (decide (j = i)) as [->|Hne].
    + rewrite list_lookup_insert_eq in Hp by (by eapply lookup_lt_Some). injection Hp as <-. exact (Hnext r c.2 Hok (HK i) eq_refl).
    + rewrite list_lookup_insert_ne in Hp by done. by apply Hsafe.
  - intros j1 j2 cl Hne. destruct (decide (j1 = i)) as [->|], (decide (j2 = i)) as [->|]; try done.
    + intros Hin. by apply Hj.
    + intros Hin Hin2. by destruct (Hj j1) as [_ H]; [done|apply (H cl)].
    + by apply Hdis.
  - intros a. unfold w'. rewrite perform_asked. intros Hin.
    assert (a ∈ w_asked c.2 \/ justified (w_store c.2) a) as [H|H].
    { destruct o; try (by left). apply elem_of_cons in Hin as [->|?]; [|by left]. right. exact (Hpre _ Hok (HK i)). }
    + destruct (Hask a H) as [?|Hjust]; [by left|right]. by apply (justified_later (w_store c.2)).
    + right. by apply (justified_later (w_store c.2)).
Qed.

Lemma pool_run turns w0 owns Ks c :
  pool_ok w0 owns Ks c -> exists owns' Ks', pool_ok w0 owns' Ks' (run_threads (perform E) turns c).
Proof.
  intros H. apply (run_threads_ind (perform E) (fun c => exists owns Ks, pool_ok w0 owns Ks c)); [by exists owns, Ks|].
  intros i o k c' Hi (owns' & Ks' & H'). by eapply pool_move.
Qed.

(** What holds at a moment of a run ([turns]), of a later one ([more]), and of the commands about to be
    performed. *)
Lemma pool_runs pool w0 turns more :
  store_ok plan_of (w_store w0) -> (forall p, p ∈ pool -> steady E plan_of allowed p) ->
  let c := run_threads (perform E) turns (pool, w0) in
  let c' := run_threads (perform E) more c in
  store_ok plan_of (w_store c.2) /\ store_later (w_store c.2) (w_store c'.2) /\
  (forall o, o ∈ w_asked c'.2 -> o ∈ w_asked c.2 \/ justified (w_store c'.2) o) /\
  (forall i o k, c.1 !! i = Some (Vis (Ask o) k) -> justified (w_store c.2) o).
Proof.
  intros Hok Hpool c c'.
  assert (exists owns Ks, pool_ok w0 owns Ks c) as (owns & Ks & [H1 H2 H3 H4 H5 H6]).
  { apply (pool_run turns w0 (fun _ => []) (fun _ => knows_nothing)). split; cbn.
    - done.
    - reflexivity.
    - intros _. split; cbn; intros; by match goal with H : _ ∈ [] |- _ => apply not_elem_of_nil in H end.
    - intros i p Hp. apply Hpool. by eapply list_elem_of_lookup_2.
    - intros i j cl _ Hin. by apply not_elem_of_nil in Hin.
    - intros o Ho. by left. }
  assert (exists owns Ks, pool_ok c.2 owns Ks c') as (owns' & Ks' & [_ H2' _ _ _ H6']).
  { apply (pool_run more c.2 owns Ks). split; try done; intros o Ho; by left. }
  split_and!; [done..|]. intros i o k Hi. destruct (H4 i _ Hi) as [Hpre _]. exact (Hpre _ H1 (H3 i)).
Qed.
End pool.
