(* ===== verification/CoordinationRules.v ===== *)
(** * Proof rules for the coordinator's coroutines

    One rule per idiom of the code: acquiring a claim, reading a step under it, changing the status,
    saving, retrying a kernel command, and gathering children. *)

From Stdlib Require Import SpecFloat.
From S2P Require Import Prelude PyValue Errors StateMonad Ident Lifecycle Domain PyTime TransportModels.
From S2P Require Import CoordinationModels PlanGraph CoordinationStore Projection Recovery CoordinationCells.
From S2P Require Import CoordinationSafety CoordinationPool CoordinationSteps.

(** Nothing is forgotten about plans and records, and no claim is lost. *)
Record remembers (K K' : knowledge) : Prop := {
  remembers_plans P : P ∈ known_plans K -> P ∈ known_plans K';
  remembers_records r : r ∈ known_records K -> r ∈ known_records K'
}.

Lemma remembers_refl K : remembers K K.
Proof. by split. Qed.
Lemma remembers_trans K1 K2 K3 : remembers K1 K2 -> remembers K2 K3 -> remembers K1 K3.
Proof. intros [] []. split; auto. Qed.

Lemma learn_remembers own K o r : remembers K (learn own K o r).
Proof.
  destruct o; try apply remembers_refl; cbn.
  - destruct r; [|apply remembers_refl]. split; cbn; [intros; by right|done].
  - destruct r as [[P recs]|]; [|apply remembers_refl]. split; cbn; [intros; by right|intros; apply elem_of_app; by right].
  - destruct r; [|apply remembers_refl]. split; cbn; [done|intros; by right].
  - destruct r; [|apply remembers_refl]. split; cbn; [done|intros; apply elem_of_app; by right].
  - destruct r; [|apply remembers_refl]. split; cbn; [intros; apply elem_of_app; by right|done].
  - by split.
Qed.

(** What a coroutine holds of the step of its claim: exactly this cell, while the claim is current. *)
Record holds (K : knowledge) (claim : CoordinatorClaim) (x : Step) (r : StepCoordinationRecord) : Prop := {
  holds_step : (claim, x) ∈ held_steps K;
  holds_record : (claim, r) ∈ held_records K;
  holds_plan : exists P, P ∈ known_plans K /\ x ∈ state_steps P;
  holds_known : r ∈ known_records K;
  holds_ids : Step_id x = claim_step_id claim /\ record_step_id r = claim_step_id claim
}.

Lemma holds_cell own K s claim x r :
  knows own K s -> holds K claim x r -> current_claim s claim -> cell_at s (claim_step_id claim) = Some (x, r).
Proof.
  intros HK [Hx Hr _ _ _] Hc. destruct (knows_held_step _ _ _ HK _ _ Hx) as [_ H1]. destruct (knows_held_record _ _ _ HK _ _ Hr) as [_ H2].
  destruct (H1 Hc) as (r' & H1'). destruct (H2 Hc) as (x' & H2'). rewrite H1' in H2'. by injection H2' as -> ->.
Qed.

(** What a step in a known snapshot tells. *)
Lemma known_step own K s P x : knows own K s -> P ∈ known_plans K -> x ∈ state_steps P -> saw_step s x.
Proof. intros HK HP Hx. by destruct (knows_plan _ _ _ HK _ HP) as [_ H]; destruct (H x Hx). Qed.

Lemma saw_succeeded s x : saw_step s x -> Step_status x = S_SUCCEEDED -> succeeded s (Step_id x).
Proof. intros (c & Hc & _ & _ & _ & Hset & _) Hs. exists c. split; [done|]. rewrite Hset; [done|by rewrite Hs]. Qed.

Section rules.
Context (E : coordination_env) (plan_of : string -> string)
  (allowed : StepCoordinationRecord -> StepCoordinationRecord -> Prop) (cfg : CoordinatorConfig).
Abbreviation lawful := (lawful E plan_of allowed).
Abbreviation steady := (steady E plan_of allowed).

(** ** Quiet operations *)

Lemma lawful_ret {A} (a : A) own K (Q : A -> list CoordinatorClaim -> knowledge -> Prop) : Q a own K -> lawful (Ret a) own K Q.
Proof. done. Qed.

Lemma lawful_pure {A B} (a : A) (f : A -> cprog B) own K Q : lawful (f a) own K Q -> lawful (Ret a ≫= f) own K Q.
Proof. done. Qed.

Lemma lawful_lift {A B} (r : res A) (f : A -> cprog B) own K Q :
  (forall a, r = Ok a -> lawful (f a) own K Q) -> lawful (lift r ≫= f) own K Q.
Proof. destruct r as [a|e]; cbn; [by intros H; apply H|done]. Qed.

Lemma lawful_guard {B} b e (f : unit -> cprog B) own K Q : (b = true -> lawful (f tt) own K Q) -> lawful (guard b e ≫= f) own K Q.
Proof. destruct b; cbn; [by intros H; apply H|done]. Qed.

(** A command or a query that the plan allows teaches nothing. *)
Lemma lawful_ask {B} (o : kernel_op) (f : kernel_reply o -> cprog B) own K Q :
  (forall s, store_ok plan_of s -> knows own K s -> justified s o) -> (forall a, lawful (f a) own K Q) ->
  lawful (ask o ≫= f) own K Q.
Proof. intros Hj Hf. apply (lawful_call E plan_of allowed (Ask o)); [done|]. intros a w _ _ _. apply Hf. Qed.

Lemma lawful_now {B} (f : Z -> cprog B) own K Q : (forall n, lawful (f n) own K Q) -> lawful (ccall Now ≫= f) own K Q.
Proof. intros Hf. apply (lawful_call E plan_of allowed Now); [done|]. intros a w _ _ _. apply Hf. Qed.

Lemma lawful_transition {B} x target (f : Step -> cprog B) own K Q :
  (forall now, target ∈ STEP_TRANSITIONS (Step_status x) -> lawful (f (Step_set_status target (Step_set_updated_at now x))) own K Q) ->
  lawful (transition x target ≫= f) own K Q.
Proof.
  intros Hf. unfold transition. apply lawful_assoc, lawful_lift. intros u Hu%require_transition_ok. apply lawful_assoc, lawful_now. intros now.
  apply lawful_lift. intros x' Hx'. unfold Step_transition_to in Hx'. res_inv.
  match goal with H : Step_post_init _ = Ok _ |- _ => unfold Step_post_init in H; res_inv end. by apply Hf.
Qed.

Lemma lawful_checked {B} r (f : StepCoordinationRecord -> cprog B) own K Q :
  lawful (f r) own K Q -> lawful (checked r ≫= f) own K Q.
Proof. intros Hf. apply lawful_lift. by intros r' ->%record_post_init_id. Qed.

Lemma lawful_checked_valid {B} r (f : StepCoordinationRecord -> cprog B) own K Q :
  (StepCoordinationRecord_post_init r = Ok r -> lawful (f r) own K Q) -> lawful (checked r ≫= f) own K Q.
Proof. intros Hf. apply lawful_lift. intros r' Hr. pose proof Hr as Hid. apply record_post_init_id in Hid as ->. auto. Qed.

(** A command whose failure the code looks at. *)
Lemma lawful_attempt_ask {A} (o : kernel_op) (f : res (kernel_reply o) -> cprog A) own K Q :
  (forall s, store_ok plan_of s -> knows own K s -> justified s o) -> (forall r, lawful (f r) own K Q) ->
  lawful (attempt (ask o) ≫= f) own K Q.
Proof. intros Hj Hf. split; [exact Hj|]. intros [a|e] w _ _ _; apply Hf. Qed.

(** The loop that retries a command while the stream moves. *)
Lemma lawful_stale_retry {A} limit (o : kernel_op) (last : exc) (f : kernel_reply o -> cprog A) own K Q :
  (forall s, store_ok plan_of s -> knows own K s -> justified s o) -> (forall a, lawful (f a) own K Q) ->
  lawful (with_stale_retry limit (ask o) last ≫= f) own K Q.
Proof.
  intros Hj Hf. revert last. induction limit as [|limit IH]; intros last; [done|]. cbn [with_stale_retry].
  apply lawful_assoc, lawful_attempt_ask; [exact Hj|]. intros [a|e]; [apply Hf|]. destruct (stale_stream_conflict e); [apply IH|done].
Qed.

(** ** Claims *)

Lemma acquired_claim step_id owner ttl now w c :
  store_ok plan_of (w_store w) -> (perform E (AcquireClaim step_id owner ttl now) w).1 = Ok (Some c) -> claim_step_id c = step_id.
Proof.
  intros Hok. cbn [perform]. rewrite on_store_snd. cbn [fst]. intros Hr.
  destruct (acquire_effect plan_of step_id owner ttl now (cenv_uuid E (w_clock w)) (w_store w) Hok) as (_ & _ & _ & H).
  rewrite Hr in H. by destruct H.
Qed.

Lemma lawful_claim {B} step_id now (f : option CoordinatorClaim -> cprog B) own K Q :
  (forall c, claim_step_id c = step_id -> lawful (f (Some c)) (c :: own) K Q) -> (forall K', remembers K K' -> lawful (f None) own K' Q) ->
  lawful (claim_step cfg step_id now ≫= f) own K Q.
Proof.
  intros Hsome Hnone. unfold claim_step. apply lawful_assoc, lawful_call; [done|]. intros [c|] w Hok _ Hr.
  - apply Hsome. by eapply acquired_claim.
  - apply lawful_assoc, lawful_call; [done|]. intros r w' _ _ _. apply Hnone, learn_remembers.
Qed.

Lemma lawful_required_claim {B} step_id now (f : CoordinatorClaim -> cprog B) own K Q :
  (forall c, claim_step_id c = step_id -> lawful (f c) (c :: own) K Q) -> lawful (required_claim cfg step_id now ≫= f) own K Q.
Proof. intros Hf. unfold required_claim. apply lawful_assoc, lawful_claim; [done|]. by intros K' _. Qed.

Lemma steady_release claim : steady (_ ← ccall (ReleaseClaim claim); Ret tt).
Proof. apply steady_seq; [by apply steady_call|]. intros. apply steady_ret. Qed.

Lemma lawful_holding {A} claim (body : cprog A) own K :
  lawful body own K (fun _ _ _ => True) -> lawful (holding claim body) own K (fun _ _ _ => True).
Proof.
  intros Hb. unfold holding, finally. apply lawful_bind.
  assert (forall (r : res A) own K, lawful (_ ← (_ ← ccall (ReleaseClaim claim); Ret tt); lift r) own K (fun _ _ _ => True)) as Hfin.
  { intros r own' K'. apply (steady_seq E plan_of allowed); [apply steady_release|]. intros _. apply steady_lift. }
  apply lawful_attempt; [|intros; apply Hfin]. eapply lawful_mono; [exact Hb|]. intros; apply Hfin.
Qed.

Lemma lawful_under_claim {A} step_id now (otherwise : A) body own K :
  (forall c, claim_step_id c = step_id -> lawful (body c) (c :: own) K (fun _ _ _ => True)) ->
  lawful (under_claim cfg step_id now otherwise body) own K (fun _ _ _ => True).
Proof.
  intros Hb. unfold under_claim. apply lawful_claim; [|by intros]. intros c Hc. by apply lawful_holding, Hb.
Qed.

(** ** Reading a step under its claim *)

Lemma read_step_facts plan_id w P step_id x :
  store_ok plan_of (w_store w) -> (perform E (GetPlan plan_id) w).1 = Ok P -> state_step P step_id = Ok x ->
  x ∈ state_steps P /\ Step_id x = step_id.
Proof.
  intros Hok _ Hx. unfold state_step in Hx. destruct (find_step step_id (state_steps P)) as [x'|] eqn:Hf; [|done].
  injection Hx as ->. by apply find_step_some.
Qed.

Lemma read_record_facts step_id w r :
  store_ok plan_of (w_store w) -> (perform E (GetRecord step_id) w).1 = Ok r -> record_step_id r = step_id.
Proof.
  intros Hok. cbn [perform]. rewrite on_store_snd, get_record_run. cbn [fst].
  destruct (store_records (w_store w) !! step_id) as [r'|] eqn:Hr; [|done]. intros [= ->]. by apply (ok_record _ _ Hok).
Qed.

Lemma lawful_get_record {B} step_id (f : StepCoordinationRecord -> cprog B) own K Q :
  (forall r K', record_step_id r = step_id -> remembers K K' -> r ∈ known_records K' ->
     (forall c, c ∈ own -> claim_step_id c = step_id -> (c, r) ∈ held_records K') ->
     (forall h, h ∈ held_steps K -> h ∈ held_steps K') -> lawful (f r) own K' Q) ->
  lawful (ccall (GetRecord step_id) ≫= f) own K Q.
Proof.
  intros Hf. apply lawful_call; [done|]. intros r w Hok _ Hr. apply Hf; cbn.
  - by eapply read_record_facts.
  - exact (learn_remembers own K (GetRecord step_id) (Ok r)).
  - by left.
  - intros c Hc Hid. apply elem_of_app. left. apply list_elem_of_omap. exists c. split; [done|]. by rewrite Hid, String.eqb_refl.
  - done.
Qed.

Lemma lawful_plan_step {B} plan_id step_id (f : Step -> cprog B) own K Q :
  (forall x P K', Step_id x = step_id -> x ∈ state_steps P -> P ∈ known_plans K' -> remembers K K' ->
     (forall c, c ∈ own -> claim_step_id c = step_id -> (c, x) ∈ held_steps K') ->
     (forall h, h ∈ held_records K -> h ∈ held_records K') -> lawful (f x) own K' Q) ->
  lawful (plan_step plan_id step_id ≫= f) own K Q.
Proof.
  intros Hf. unfold plan_step. apply lawful_assoc, lawful_call; [done|]. intros P w Hok _ Hr.
  apply lawful_lift. intros x Hx. destruct (read_step_facts _ _ _ _ _ Hok Hr Hx) as [Hin Hid].
  apply (Hf x P); cbn; try done.
  - by left.
  - exact (learn_remembers own K (GetPlan plan_id) (Ok P)).
  - intros c Hc Hcid. apply elem_of_app. left. apply list_elem_of_omap. exists c. split; [done|].
    unfold state_step in Hx. rewrite Hcid. destruct (find_step step_id (state_steps P)); [|done]. by injection Hx as ->.
Qed.

(** [current = get_step_record(...); current_step = get_plan(...).step(...)] *)
Lemma lawful_read_cell {B} claim plan_id step_id (f : StepCoordinationRecord -> Step -> cprog B) own K Q :
  claim ∈ own -> claim_step_id claim = step_id ->
  (forall r x K', holds K' claim x r -> remembers K K' -> lawful (f r x) own K' Q) ->
  lawful (r ← ccall (GetRecord step_id); x ← plan_step plan_id step_id; f r x) own K Q.
Proof.
  intros Hown Hid Hf. apply lawful_get_record. intros r K1 Hr HK1 Hknown Hheld _. apply lawful_plan_step.
  intros x P K2 Hx Hin HP HK2 Hheldx Hkeep. apply Hf; [|by eapply remembers_trans]. split.
  - by apply Hheldx.
  - by apply Hkeep, Hheld.
  - by exists P.
  - by apply HK2.
  - by rewrite Hid.
Qed.

(** The same in the other order. *)
Lemma lawful_read_cell' {B} claim plan_id step_id (f : Step -> StepCoordinationRecord -> cprog B) own K Q :
  claim ∈ own -> claim_step_id claim = step_id ->
  (forall x r K', holds K' claim x r -> remembers K K' -> lawful (f x r) own K' Q) ->
  lawful (x ← plan_step plan_id step_id; r ← ccall (GetRecord step_id); f x r) own K Q.
Proof.
  intros Hown Hid Hf. apply lawful_plan_step. intros x P K1 Hx Hin HP HK1 Hheldx _. apply lawful_get_record.
  intros r K2 Hr HK2 Hknown Hheld Hkeep. apply Hf; [|by eapply remembers_trans]. split.
  - by apply Hkeep, Hheldx.
  - by apply Hheld.
  - exists P. split; [by apply HK2|done].
  - done.
  - by rewrite Hid.
Qed.

(** ** Saving *)

Lemma status_move_saved done x r x' r' n t :
  status_move done x r x' r' -> status_move done x r x' (set_revision n (set_updated_at t r')).
Proof.
  intros [?|?|?|?|?|?|?|?|?|?];
    [eapply Move_blocked|eapply Move_counted|eapply Move_opened|eapply Move_started|eapply Move_retried|eapply Move_waited
    |eapply Move_resumed|eapply Move_ended|eapply Move_cancelled|eapply Move_noted]; eassumption.
Qed.

(** What a save may make of a step and its record, apart from the status. *)
Record changes (x : Step) (r : StepCoordinationRecord) (x' : Step) (r' : StepCoordinationRecord) : Prop := {
  changes_step : step_core x' = step_core x;
  changes_record : record_core r' = record_core r;
  changes_keys : record_processed_keys r `prefix_of` record_processed_keys r';
  changes_allowed : allowed r r'
}.

Lemma changes_move done x r x' r' now :
  changes x r x' r' -> status_move done x r x' r' ->
  move done (x, r) (x', set_revision (record_revision r + 1) (set_updated_at now r')).
Proof.
  intros [H1 H2 H3 _] Hm. split; cbn [fst snd]; [done| |done|done|by apply status_move_saved].
  rewrite <- H2. by destruct r'.
Qed.

(** The obligation of a save of what is held. *)
Lemma save_pre claim x r x' r' now own K s :
  claim ∈ own -> holds K claim x r -> changes x r x' r' ->
  (cell_at s (claim_step_id claim) = Some (x, r) -> status_move (succeeded s) x r x' r') ->
  knows own K s -> op_pre plan_of allowed own s (SaveStep x' r' (record_revision r) claim now).
Proof.
  intros Hown Hh Hch Hm HK. destruct (holds_ids _ _ _ _ Hh) as [Hid _].
  assert (Step_id x' = claim_step_id claim) as Hid' by (rewrite <- Hid; by destruct (step_core_fields _ _ (changes_step _ _ _ _ Hch))).
  cbn [op_pre]. split_and!; [done|done|]. intros Hc c Hcell _. rewrite Hid' in Hcell. pose proof (holds_cell _ _ _ _ _ _ HK Hh Hc) as Hcell'.
  rewrite Hcell' in Hcell. injection Hcell as <-. cbn [fst snd]. split; [|by apply Hch]. apply changes_move; auto.
Qed.

Lemma lawful_save {B} claim x r x' r' now (f : unit -> cprog B) own K Q :
  claim ∈ own -> holds K claim x r -> changes x r x' r' ->
  (forall s, store_ok plan_of s -> knows own K s -> cell_at s (claim_step_id claim) = Some (x, r) -> status_move (succeeded s) x r x' r') ->
  (forall K', lawful (f tt) own K' Q) ->
  lawful (save x' r' r claim now ≫= f) own K Q.
Proof.
  intros Hown Hh Hch Hm Hf. unfold save. apply lawful_assoc, lawful_call; [|intros a w _ _ _; apply Hf].
  intros s Hok HK. eapply save_pre; eauto.
Qed.

(** A save that ends the coroutine's work. *)
Lemma lawful_save_last {B} (b : B) claim x r x' r' now own K :
  claim ∈ own -> holds K claim x r -> changes x r x' r' ->
  (forall s, store_ok plan_of s -> knows own K s -> cell_at s (claim_step_id claim) = Some (x, r) -> status_move (succeeded s) x r x' r') ->
  lawful (_ ← save x' r' r claim now; Ret b) own K (fun _ _ _ => True).
Proof. intros. by eapply lawful_save. Qed.
End rules.

(** The setters do not touch what a save must not change. *)
Lemma core_set_phase v r : record_core (set_phase v r) = record_core r.
Proof. by destruct r. Qed.
Lemma core_set_satisfied_dependency_ids v r : record_core (set_satisfied_dependency_ids v r) = record_core r.
Proof. by destruct r. Qed.
Lemma core_set_latest_run_id v r : record_core (set_latest_run_id v r) = record_core r.
Proof. by destruct r. Qed.
Lemma core_set_current_attempt v r : record_core (set_current_attempt v r) = record_core r.
Proof. by destruct r. Qed.
Lemma core_set_retry_due_at v r : record_core (set_retry_due_at v r) = record_core r.
Proof. by destruct r. Qed.
Lemma core_set_retry_state v r : record_core (set_retry_state v r) = record_core r.
Proof. by destruct r. Qed.
Lemma core_set_wait v r : record_core (set_wait v r) = record_core r.
Proof. by destruct r. Qed.
Lemma core_set_processed_keys v r : record_core (set_processed_keys v r) = record_core r.
Proof. by destruct r. Qed.
Lemma core_set_reconciliation v r : record_core (set_reconciliation v r) = record_core r.
Proof. by destruct r. Qed.
Lemma core_set_reconciliation_detail v r : record_core (set_reconciliation_detail v r) = record_core r.
Proof. by destruct r. Qed.
Lemma core_set_revision v r : record_core (set_revision v r) = record_core r.
Proof. by destruct r. Qed.
Lemma core_set_updated_at v r : record_core (set_updated_at v r) = record_core r.
Proof. by destruct r. Qed.
Create Rewrite HintDb core_fields.
#[export] Hint Rewrite core_set_phase core_set_satisfied_dependency_ids core_set_latest_run_id core_set_current_attempt core_set_retry_due_at core_set_retry_state core_set_wait core_set_processed_keys core_set_reconciliation core_set_reconciliation_detail core_set_revision core_set_updated_at : core_fields.
