(* ===== verification/CoordinationGather.v ===== *)
(** * Gathered children

    The children of [asyncio.gather] are interleaved inside one coroutine. Each child keeps its own claims
    and knowledge within those of the whole, so that children that are steady one by one are steady
    together, in every schedule. *)

From S2P Require Import Prelude PyValue Errors StateMonad Ident Lifecycle Domain PyTime TransportModels.
From S2P Require Import CoordinationModels PlanGraph CoordinationStore Projection Recovery CoordinationCells.
From S2P Require Import CoordinationSafety CoordinationPool CoordinationSteps CoordinationRules.

Section gather.
Context (E : coordination_env) (plan_of : string -> string)
  (allowed : StepCoordinationRecord -> StepCoordinationRecord -> Prop).
Abbreviation lawful := (lawful E plan_of allowed).
Abbreviation steady := (steady E plan_of allowed).

(** A part of the claims and the knowledge. *)
Record within (own1 : list CoordinatorClaim) (K1 : knowledge) (own : list CoordinatorClaim) (K : knowledge) : Prop := {
  within_own c : c ∈ own1 -> c ∈ own;
  within_plans P : P ∈ known_plans K1 -> P ∈ known_plans K;
  within_records r : r ∈ known_records K1 -> r ∈ known_records K;
  within_steps h : h ∈ held_steps K1 -> h ∈ held_steps K /\ h.1 ∈ own1;
  within_helds h : h ∈ held_records K1 -> h ∈ held_records K /\ h.1 ∈ own1
}.

Definition apart (own1 own2 : list CoordinatorClaim) : Prop := forall c, c ∈ own1 -> c ∉ own2.

Lemma within_knows own1 K1 own K s : within own1 K1 own K -> knows own K s -> knows own1 K1 s.
Proof.
  intros [W1 W2 W3 W4 W5] [H1 H2 H3 H4 H5]. split; auto.
  - intros c x Hin. destruct (W4 _ Hin) as [Hin' Hc]. split; [done|]. by apply H4.
  - intros c r Hin. destruct (W5 _ Hin) as [Hin' Hc]. split; [done|]. by apply H5.
Qed.

Lemma within_op_pre own1 K1 own K s o : within own1 K1 own K -> op_pre plan_of allowed own1 s o -> op_pre plan_of allowed own s o.
Proof. intros [W1 _ _ _ _]. destruct o; cbn; try done. intros (? & ?). split; [by apply W1|done]. Qed.

(** The part that performs the operation stays a part. *)
Lemma within_performer own1 K1 own K o r :
  within own1 K1 own K -> within (own_after own1 o r) (learn own1 K1 o r) (own_after own o r) (learn own K o r).
Proof.
  intros HW. pose proof HW as [W1 W2 W3 W4 W5]. destruct o; cbn; try done; destruct r as [a|e]; cbn; try done.
  - split; cbn; try done.
    + intros Q [->|?]%elem_of_cons; [by left|right; by apply W2].
    + intros h [Hin|Hin]%elem_of_app.
      * apply list_elem_of_omap in Hin as (c & Hc & Hx). apply bind_Some in Hx as (x & Hf & [= <-]). split; [|done].
        apply elem_of_app. left. apply list_elem_of_omap. exists c. split; [by apply W1|]. by rewrite Hf.
      * destruct (W4 _ Hin). split; [apply elem_of_app; by right|done].
  - destruct a as [P recs]. split; cbn; try done.
    + intros Q [->|?]%elem_of_cons; [by left|right; by apply W2].
    + intros x [?|?]%elem_of_app; apply elem_of_app; [by left|right; by apply W3].
  - split; cbn; try done.
    + intros x [->|?]%elem_of_cons; [by left|right; by apply W3].
    + intros h [Hin|Hin]%elem_of_app.
      * apply list_elem_of_omap in Hin as (c & Hc & Hx). destruct (String.eqb (claim_step_id c) step_id) eqn:Hid; [|done].
        injection Hx as <-. split; [|done]. apply elem_of_app. left. apply list_elem_of_omap. exists c. split; [by apply W1|]. by rewrite Hid.
      * destruct (W5 _ Hin). split; [apply elem_of_app; by right|done].
  - split; cbn; try done. intros x [?|?]%elem_of_app; apply elem_of_app; [by left|right; by apply W3].
  - split; cbn; try done. intros Q [?|?]%elem_of_app; apply elem_of_app; [by left|right; by apply W2].
  - split; cbn; try done; intros h [Hne Hin]%list_elem_of_filter; [destruct (W4 _ Hin)|destruct (W5 _ Hin)];
      (split; [by apply list_elem_of_filter|done]).
  - split; cbn; try done; intros h [Hne Hin]%list_elem_of_filter; [destruct (W4 _ Hin)|destruct (W5 _ Hin)];
      (split; [by apply list_elem_of_filter|done]).
  - destruct a as [c|]; [|done]. split; cbn; try done.
    + intros c' [->|?]%elem_of_cons; [by left|right; by apply W1].
    + intros h Hin. destruct (W4 _ Hin). split; [done|by right].
    + intros h Hin. destruct (W5 _ Hin). split; [done|by right].
Qed.

(** So do the others, when the operation uses none of their claims. *)
Lemma within_bystander own1 K1 own K o r :
  within own1 K1 own K -> (forall step record expected claim now, o = SaveStep step record expected claim now -> claim ∉ own1) ->
  within own1 K1 (own_after own o r) (learn own K o r).
Proof.
  intros HW Hsave. pose proof HW as [W1 W2 W3 W4 W5]. destruct o; cbn; try done.
  - destruct r; [|done]. split; cbn; try done.
    + intros Q HQ. right. by apply W2.
    + intros h Hin. destruct (W4 _ Hin). split; [apply elem_of_app; by right|done].
  - destruct r as [[P recs]|]; [|done]. split; cbn; try done; [intros; right; by apply W2|intros; apply elem_of_app; right; by apply W3].
  - destruct r; [|done]. split; cbn; try done.
    + intros Q HQ. right. by apply W3.
    + intros h Hin. destruct (W5 _ Hin). split; [apply elem_of_app; by right|done].
  - destruct r; [|done]. split; cbn; try done. intros; apply elem_of_app; right; by apply W3.
  - destruct r; [|done]. split; cbn; try done. intros; apply elem_of_app; right; by apply W2.
  - specialize (Hsave _ _ _ _ _ eq_refl). split; cbn; try done; intros h Hin; [destruct (W4 _ Hin)|destruct (W5 _ Hin)];
      (split; [apply list_elem_of_filter; split; [intros Heq; congruence|done]|done]).
  - destruct r as [[c|]|]; try done. split; cbn; try done. intros; right; by apply W1.
Qed.

(** A new claim is nobody's. *)
Lemma acquired_new own K o w c :
  store_ok plan_of (w_store w) -> knows own K (w_store w) ->
  c ∈ own_after [] o (perform E o w).1 -> c ∉ own.
Proof.
  intros Hok HK. destruct o; cbn [own_after]; try (by intros ?%not_elem_of_nil). cbn [perform]. rewrite on_store_snd. cbn [fst].
  destruct (acquire_effect plan_of step_id owner_id ttl now (cenv_uuid E (w_clock w)) (w_store w) Hok) as (_ & _ & _ & H).
  destruct (acquire_claim _ _ _ _ _ _).1 as [[c'|]|]; try (by intros ?%not_elem_of_nil).
  intros ->%list_elem_of_singleton Hin. destruct H as (Hid & Hf & _). pose proof (knows_fence _ _ _ HK _ Hin) as Hle.
  rewrite Hid in Hle. lia.
Qed.

Lemma own_after_split own o r c : c ∈ own_after own o r -> c ∈ own \/ c ∈ own_after [] o r.
Proof. destruct o; cbn; auto. destruct r as [[c'|]|]; cbn; auto. intros [->|?]%elem_of_cons; [right; by left|by left]. Qed.

(** One part moves: the others are still parts, and still apart from it. *)
Lemma parts_move own1 own2 K2 own K o w :
  store_ok plan_of (w_store w) -> knows own K (w_store w) -> op_pre plan_of allowed own1 (w_store w) o ->
  within own2 K2 own K -> apart own1 own2 ->
  let r := (perform E o w).1 in
  within own2 K2 (own_after own o r) (learn own K o r) /\ apart (own_after own1 o r) own2.
Proof.
  intros Hok HK Hpre HW Hap r. split.
  - apply within_bystander; [done|]. intros step record expected claim now ->. destruct Hpre as [Hin _]. by apply Hap.
  - intros c [Hc|Hc]%own_after_split Hin; [by apply (Hap c)|]. apply (acquired_new own K o w c Hok HK Hc).
    by apply (within_own _ _ _ _ HW).
Qed.

(** A child run to its end next to other parts. *)
Lemma lawful_embed {A} (p : cprog A) own1 K1 own K Q (others : list (list CoordinatorClaim * knowledge)) :
  lawful p own1 K1 Q -> within own1 K1 own K ->
  (forall o k, (o, k) ∈ others -> within o k own K /\ apart own1 o) ->
  lawful (attempt p) own K (fun _ own' K' => forall o k, (o, k) ∈ others -> within o k own' K').
Proof.
  revert own1 K1 own K. induction p as [a|e|op k IH]; intros own1 K1 own K Hp HW Ho; cbn.
  - intros o k Hin. by apply Ho.
  - intros o k Hin. by apply Ho.
  - destruct Hp as [Hpre Hnext]. split.
    + intros s Hok HK. eapply within_op_pre; [exact HW|]. apply Hpre; [done|]. by eapply within_knows.
    + intros r w Hok HK Hr. assert (knows own1 K1 (w_store w)) as HK1 by by eapply within_knows. subst r.
      eapply IH; [by apply (Hnext _ w)|by apply within_performer|]. intros o k' Hin. destruct (Ho o k' Hin) as [HWo Hap].
      by apply (parts_move own1 o k' own K op w); [..|apply Hpre| |].
Qed.

Lemma lawful_children {A} (children : list (cprog A)) (owns : nat -> list CoordinatorClaim) (Ks : nat -> knowledge) own K :
  (forall i p, children !! i = Some p -> lawful p (owns i) (Ks i) (fun _ _ _ => True)) ->
  (forall i, i < length children -> within (owns i) (Ks i) own K) ->
  (forall i j, i < length children -> j < length children -> i <> j -> apart (owns i) (owns j)) ->
  lawful (for_each attempt children) own K (fun _ _ _ => True).
Proof.
  revert owns Ks own K. induction children as [|p children IH]; intros owns Ks own K Hp HW Hap; [done|]. cbn [for_each].
  apply lawful_bind. eapply lawful_mono.
  { apply (lawful_embed p (owns 0) (Ks 0) own K (fun _ _ _ => True) (map (fun i => (owns (S i), Ks (S i))) (seq 0 (length children)))).
    - by apply (Hp 0).
    - apply HW. cbn. lia.
    - intros o k Hin. apply list_elem_of_fmap in Hin as (i & [= -> ->] & Hi%elem_of_seq).
      split; [apply HW; cbn; lia|apply Hap; cbn; lia]. }
  intros r own' K' Hothers. apply lawful_bind. eapply lawful_mono.
  { apply (IH (fun i => owns (S i)) (fun i => Ks (S i))).
    - intros i q Hq. by apply (Hp (S i)).
    - intros i Hi. apply Hothers. apply list_elem_of_fmap. exists i. split; [done|]. apply elem_of_seq. lia.
    - intros i j Hi Hj Hne. apply Hap; cbn; lia. }
  done.
Qed.

Lemma lawful_interleave {A} schedule (children : list (cprog A)) failed owns Ks own K :
  (forall i p, children !! i = Some p -> lawful p (owns i) (Ks i) (fun _ _ _ => True)) ->
  (forall i, i < length children -> within (owns i) (Ks i) own K) ->
  (forall i j, i < length children -> j < length children -> i <> j -> apart (owns i) (owns j)) ->
  lawful (interleave schedule children failed) own K (fun _ _ _ => True).
Proof.
  revert children failed owns Ks own K. induction schedule as [|i schedule IH]; intros children failed owns Ks own K Hp HW Hap; cbn.
  { apply lawful_bind. eapply lawful_mono; [by apply (lawful_children children owns Ks)|]. done. }
  destruct (children !! i) as [[a|e|o k]|] eqn:Hi; [by eapply IH..| |by eapply IH].
  destruct (Hp _ _ Hi) as [Hpre Hnext]. assert (i < length children) as Hlt by by eapply lookup_lt_Some. split.
  - intros s Hok HK. eapply within_op_pre; [by apply HW|]. apply Hpre; [done|]. eapply within_knows; [by apply HW|done].
  - intros r w Hok HK Hr. assert (knows (owns i) (Ks i) (w_store w)) as HKi by (eapply within_knows; [by apply HW|done]). subst r.
    apply (IH _ _ (fun j => if decide (j = i) then own_after (owns i) o (perform E o w).1 else owns j)
                  (fun j => if decide (j = i) then learn (owns i) (Ks i) o (perform E o w).1 else Ks j)); rewrite ?length_insert.
    + intros j p Hj. destruct (decide (j = i)) as [->|Hne].
      * rewrite list_lookup_insert_eq in Hj by done. injection Hj as <-. by apply (Hnext _ w).
      * rewrite list_lookup_insert_ne in Hj by done. by apply Hp.
    + intros j Hj. destruct (decide (j = i)) as [->|Hne]; [apply within_performer; by apply HW|].
      apply (parts_move (owns i)); [done|done|by apply Hpre|by apply HW|by apply Hap].
    + intros j1 j2 Hj1 Hj2 Hne.
      assert (forall j, j < length children -> j <> i -> apart (own_after (owns i) o (perform E o w).1) (owns j)) as Hmove.
      { intros j Hj Hji. apply (parts_move (owns i) (owns j) (Ks j) own K); [done|done|by apply Hpre|by apply HW|by apply Hap]. }
      destruct (decide (j1 = i)) as [->|], (decide (j2 = i)) as [->|]; try done.
      * by apply Hmove.
      * intros c Hc Hc2. by apply (Hmove j1 Hj1 ltac:(done) c).
      * by apply Hap.
Qed.

Lemma within_nothing own K : within [] knows_nothing own K.
Proof. split; intros x Hx; by apply not_elem_of_nil in Hx. Qed.

(** Children that are steady one by one. *)
Lemma steady_gather {A} schedule (children : list (cprog A)) :
  (forall p, p ∈ children -> steady p) -> steady (gather schedule children).
Proof.
  intros Hp own K. unfold gather. apply lawful_bind. eapply lawful_mono.
  - apply (lawful_interleave schedule children None (fun _ => []) (fun _ => knows_nothing)).
    + intros i p Hi. apply Hp. by eapply list_elem_of_lookup_2.
    + intros i _. apply within_nothing.
    + intros i j _ _ _ c Hc. by apply not_elem_of_nil in Hc.
  - intros [results [e|]] own' K' _; [done|]. apply steady_lift.
Qed.
End gather.
