(* ===== verification/CoordinationProofs.v ===== *)
(** * The coordinator keeps its obligations

    Every method of the coordinator is [steady]: it saves only moves of the state machine, requests runs
    only for steps whose dependencies succeeded, and completes a task only when its steps are done. *)

From Stdlib Require Import SpecFloat.
From S2P Require Import Prelude PyValue Errors StateMonad Ident Lifecycle Domain PyTime TransportModels.
From S2P Require Import CoordinationModels PlanGraph CoordinationStore Projection Recovery CoordinationCells.
From S2P Require Import CoordinationSafety CoordinationPool CoordinationSteps CoordinationRules CoordinationGather Coordinator.

(** Setters in front of a record keep what a save must keep. *)
Ltac solve_changes :=
  split; [try reflexivity; done|by autorewrite with core_fields
         |cbn; first [reflexivity|by apply prefix_app_r|by eexists]|by auto].

(** *** The transitions of a step, by their target *)

Ltac split_status st H := destruct st; table H; try discriminate; auto.

Lemma to_ready st : S_READY ∈ STEP_TRANSITIONS st -> st = S_PENDING \/ st = S_FAILED.
Proof. intros H. split_status st H. Qed.
Lemma to_running st : S_RUNNING ∈ STEP_TRANSITIONS st -> st = S_READY \/ st = S_WAITING.
Proof. intros H. split_status st H. Qed.
Lemma to_waiting st : S_WAITING ∈ STEP_TRANSITIONS st -> st = S_RUNNING.
Proof. intros H. split_status st H. Qed.
Lemma to_succeeded st : S_SUCCEEDED ∈ STEP_TRANSITIONS st -> st = S_RUNNING.
Proof. intros H. split_status st H. Qed.
Lemma to_failed st : S_FAILED ∈ STEP_TRANSITIONS st -> st = S_RUNNING \/ st = S_WAITING.
Proof. intros H. split_status st H. Qed.
Lemma to_cancelled st : S_CANCELLED ∈ STEP_TRANSITIONS st -> settled st = false.
Proof. intros H. split_status st H. Qed.

Section steps.
Context (E : coordination_env) (plan_of : string -> string)
  (allowed : StepCoordinationRecord -> StepCoordinationRecord -> Prop) (cfg : CoordinatorConfig).
(** The start of an attempt and the end of a step may be all that is allowed. *)
Context (may_start : forall r r', record_phase r = PH_READY -> record_phase r' = PH_ATTEMPT_ACTIVE -> allowed r r').
Context (may_end : forall r r', record_phase r <> PH_TERMINAL -> record_phase r' = PH_TERMINAL -> allowed r r').
Abbreviation lawful := (lawful E plan_of allowed).
Abbreviation steady := (steady E plan_of allowed).
Abbreviation changes := (changes allowed).

(** ** Attempts *)

(** The barrier of a step that was seen ready is open. *)
Lemma justified_create own K s claim x r key :
  knows own K s -> holds K claim x r -> opened (Step_status x) = true ->
  justified s (CreateRun key (record_task_id r) (record_step_id r)).
Proof.
  intros HK [_ _ (P & HP & Hx) Hr [Hid Hid']] Ho. destruct (known_step _ _ _ _ _ HK HP Hx) as (c & Hc & Hcore & _ & _ & _ & _ & Hopen).
  destruct (knows_record _ _ _ HK _ Hr) as (c' & Hc' & Hrc & _). rewrite Hid' in Hc'. rewrite Hid, Hc' in Hc. injection Hc as <-.
  exists c'. cbn. rewrite Hid'. split_and!; [done|by destruct (record_core_fields _ _ Hrc) as (_ & ? & _)|].
  destruct (step_core_fields _ _ Hcore) as (_ & _ & -> & _). by apply Hopen.
Qed.

Lemma lawful_start_claimed_attempt step now claim own K :
  claim ∈ own -> claim_step_id claim = Step_id step ->
  lawful (start_claimed_attempt step now claim) own K (fun _ _ _ => True).
Proof.
  intros Hown Hclaim. unfold start_claimed_attempt. apply (lawful_read_cell _ _ _ claim); [done..|]. intros r x K' Hh _.
  destruct (_ || _) eqn:Hready; [done|]. unfold is_phase, is_status in Hready. bool_props.
  unfold create_run_with_stale_retry, start_run_with_stale_retry. apply (lawful_stale_retry _ _ _ _ (CreateRun _ _ _)).
  { intros s _ HK. eapply justified_create; [done..|]. by match goal with H : Step_status x = _ |- _ => rewrite H end. }
  intros run. apply lawful_guard. intros _. apply lawful_transition. intros n _. apply lawful_checked.
  eapply lawful_save; [done|exact Hh|solve_changes| |].
  - intros s Hok HK Hcell. by eapply Move_started.
  - intros K2. by apply (lawful_stale_retry _ _ _ _ (StartRun _ _ _)).
Qed.

Lemma steady_start_attempt step now : steady (start_attempt cfg step now).
Proof. intros own K. apply lawful_under_claim. intros c Hc. apply lawful_start_claimed_attempt; [by left|done]. Qed.

(** ** Saves of computed outcomes *)

(** What the observation of a run may save. *)
Definition outcome_ok (x : Step) (r : StepCoordinationRecord) (next : Step * StepCoordinationRecord) : Prop :=
  changes x r next.1 next.2 /\
  forall s, store_ok plan_of s -> (exists sid, cell_at s sid = Some (x, r)) -> status_move (succeeded s) x r next.1 next.2.

Lemma lawful_outcome_save {B} (b : B) claim x r next now own K :
  claim ∈ own -> holds K claim x r -> outcome_ok x r next ->
  lawful (_ ← save next.1 next.2 r claim now; Ret b) own K (fun _ _ _ => True).
Proof. intros Hown Hh [Hch Hm]. eapply lawful_save_last; [done|exact Hh|done|]. intros s Hok _ Hc. apply Hm; eauto. Qed.

Lemma outcome_noted x r r' :
  changes x r x r' -> record_satisfied_dependency_ids r' = record_satisfied_dependency_ids r ->
  record_phase r' = record_phase r \/ record_phase r' <> PH_READY /\ record_phase r' <> PH_ATTEMPT_ACTIVE -> outcome_ok x r (x, r').
Proof. intros Hch Hs Hp. split; [done|]. intros s _ _. by apply Move_noted. Qed.

Lemma outcome_ended x r x' r' :
  changes x r x' r' -> record_satisfied_dependency_ids r' = record_satisfied_dependency_ids r ->
  Step_status x = S_READY \/ Step_status x = S_RUNNING \/ Step_status x = S_WAITING ->
  Step_status x' = S_SUCCEEDED \/ Step_status x' = S_FAILED ->
  record_phase r' = PH_TERMINAL \/ record_phase r' = PH_RETRY_SCHEDULED -> outcome_ok x r (x', r').
Proof. intros Hch Hs Hx Hx' Hp. split; [done|]. intros s _ _. apply Move_ended; try done; by destruct Hx as [-> |[-> | ->]]. Qed.

Lemma outcome_cancelled x r x' r' :
  changes x r x' r' -> record_satisfied_dependency_ids r' = record_satisfied_dependency_ids r ->
  settled (Step_status x) = false -> Step_status x' = S_CANCELLED -> record_phase r' = PH_TERMINAL -> outcome_ok x r (x', r').
Proof. intros Hch Hs Hx Hx' Hp. split; [done|]. intros s _ _. by apply Move_cancelled. Qed.

(** A save of what is allowed, whoever computed it. *)
Lemma lawful_save_outcome claim x r next now own K :
  claim ∈ own -> holds K claim x r -> outcome_ok x r next -> lawful (save next.1 next.2 r claim now) own K (fun _ _ _ => True).
Proof.
  intros Hown Hh [Hch Hm]. apply lawful_call; [|done]. intros s Hok HK. eapply save_pre; eauto.
Qed.

Lemma outcome_cancel x r x' r' :
  changes x r x' r' -> record_satisfied_dependency_ids r' = record_satisfied_dependency_ids r -> record_phase r' = PH_TERMINAL ->
  (settled (Step_status x) = false /\ Step_status x' = S_CANCELLED) \/ x' = x -> outcome_ok x r (x', r').
Proof.
  intros Hch Hs Hp [[Hx Hx']| ->]; [by apply outcome_cancelled|]. apply outcome_noted; [done..|]. right. by rewrite Hp.
Qed.

(** A step is cancelled unless it has ended. *)
Lemma lawful_cancelled_unless_ended {B} x (f : Step -> cprog B) own K Q :
  (forall x', step_core x' = step_core x -> (settled (Step_status x) = false /\ Step_status x' = S_CANCELLED) \/ x' = x ->
     lawful (f x') own K Q) ->
  lawful ((match Step_status x with
         | S_PENDING | S_READY | S_RUNNING | S_WAITING => transition x S_CANCELLED
         | _ => Ret x
         end) ≫= f) own K Q.
Proof.
  intros Hf. destruct (Step_status x) eqn:Hs; try (apply Hf; auto); apply lawful_transition; intros n _; apply Hf; auto.
Qed.

Lemma steady_ask o : (forall s, justified s o) -> steady (ask o).
Proof. intros Hj. by apply (steady_call E plan_of allowed (Ask o)). Qed.

(** ** Retirement *)

(** A program that teaches nothing and returns a value with [P]. *)
Definition yields {A} (p : cprog A) (P : A -> Prop) : Prop :=
  forall B (f : A -> cprog B) own K Q, (forall a, P a -> lawful (f a) own K Q) -> lawful (p ≫= f) own K Q.

(** The status with which a step may be retired. *)
Definition retirable (x : Step) (r : StepCoordinationRecord) (x' : Step) : Prop :=
  step_core x' = step_core x /\
  forall r', changes x r x' r' -> record_satisfied_dependency_ids r' = record_satisfied_dependency_ids r ->
    record_phase r' = PH_TERMINAL -> outcome_ok x r (x', r').

Lemma retirable_idle x r x' :
  step_core x' = step_core x -> (settled (Step_status x) = false /\ Step_status x' = S_CANCELLED) \/ x' = x -> retirable x r x'.
Proof. intros Hcore Hx. split; [done|]. intros r' Hch Hs Hp. by apply outcome_cancel. Qed.

Lemma yields_retired_active_step x r run_id : yields (retired_active_step x r run_id) (fun out => retirable x r out.1).
Proof.
  intros B f own K Q Hf. unfold retired_active_step. apply lawful_assoc, lawful_ask; [done|]. intros run. apply lawful_assoc, lawful_guard. intros _.
  destruct (is_status (Step_status x) S_RUNNING) eqn:Hrun; [|by apply lawful_pure, Hf, retirable_idle; [|right]].
  unfold is_status in Hrun. bool_props.
  destruct (RunState_status run); apply lawful_assoc, lawful_transition; intros n _; apply Hf; (split; [done|]); intros r' Hch Hs Hp;
    first [apply outcome_ended; cbn; auto; fail|apply outcome_cancelled; try done; by rewrite Hrun].
Qed.

Lemma yields_retired_idle_step x r : yields (retired_idle_step x r) (fun out => retirable x r out.1).
Proof.
  intros B f own K Q Hf. unfold retired_idle_step. apply lawful_assoc, lawful_cancelled_unless_ended. intros x' Hcore Hx'.
  by apply lawful_pure, Hf, retirable_idle.
Qed.

Lemma yields_retired_step_state x r superseded_by now :
  record_phase r <> PH_TERMINAL -> yields (retired_step_state x r superseded_by now) (outcome_ok x r).
Proof.
  intros Hne B f own K Q Hf. unfold retired_step_state. cbn zeta. apply lawful_assoc.
  match goal with |- lawful (?p ≫= _) _ _ _ => assert (yields p (fun out => retirable x r out.1)) as Hp end.
  { destruct (record_phase r), (record_latest_run_id r); first [apply yields_retired_active_step|apply yields_retired_idle_step|idtac].
    all: intros C g own' K' Q' Hg; apply lawful_pure, Hg, retirable_idle; [done|by right]. }
  apply Hp. intros [x' rs] [Hcore Hn]. cbn [fst snd] in *. apply lawful_assoc, lawful_checked, Hf, Hn; try done.
  solve_changes.
Qed.

Lemma steady_retire_step plan_id superseded_by now record : steady (retire_step cfg plan_id superseded_by now record).
Proof.
  intros own K. unfold retire_step. destruct (is_phase _ _); [done|]. apply lawful_claim; [|done]. intros c Hc. apply lawful_holding.
  unfold retire_claimed_step. apply (lawful_read_cell _ _ _ c); [by left|done|]. intros r x K' Hh _. destruct (is_phase _ _) eqn:Hp; [done|].
  unfold is_phase in Hp. bool_props. apply yields_retired_step_state; [done|]. intros next Hn. apply (lawful_save_outcome c x r next); [by left|done..].
Qed.

(** ** The dependency barrier *)

(** The verdicts on the dependencies, as the snapshot shows them. *)
Definition verdicts (steps : list Step) (dependency_ids : list string) (items : list string * list string) : Prop :=
  (forall d, d ∈ items.1 -> d ∈ dependency_ids /\ exists x, find_step d steps = Some x /\ Step_status x = S_SUCCEEDED) /\
  (forall d, d ∈ items.2 -> d ∈ dependency_ids /\ exists x, find_step d steps = Some x /\ Step_status x <> S_SUCCEEDED) /\
  (forall d x, d ∈ dependency_ids -> find_step d steps = Some x -> Step_status x = S_SUCCEEDED -> d ∈ items.1).

(** What the barrier of a step makes of its record, when [satisfied] are its dependencies that succeeded. *)
Definition barrier_change (record : StepCoordinationRecord) (satisfied : list string) (r r' : StepCoordinationRecord) : Prop :=
  record_step_id r = record_step_id record /\ record_dependency_ids r' = record_dependency_ids r /\
  (record_phase r' = PH_TERMINAL \/ record_phase r' = PH_READY \/
   record_phase r' = record_phase r /\ record_satisfied_dependency_ids r' = satisfied /\
   same_set satisfied (record_satisfied_dependency_ids record) = false).

Lemma lawful_barrier_items {B} P dependency_ids (f : list string * list string -> cprog B) own K Q :
  P ∈ known_plans K ->
  (forall items K', remembers K K' -> verdicts (state_steps P) dependency_ids items -> lawful (f items) own K' Q) ->
  lawful (barrier_items (state_steps P) dependency_ids ≫= f) own K Q.
Proof.
  revert f K. induction dependency_ids as [|d rest IH]; intros f K HP Hf; cbn [barrier_items].
  { apply Hf; [apply remembers_refl|]. split_and!; [intros d Hd|intros d Hd|intros d x Hd]; by apply not_elem_of_nil in Hd. }
  apply lawful_assoc, lawful_lift. intros x Hx. destruct (find_step d (state_steps P)) as [x'|] eqn:Hfind; [|done]. injection Hx as ->.
  (* the rest of the loop after the verdict on [d] *)
  assert (forall verdict K', remembers K K' ->
    match verdict with
    | Some true => Step_status x = S_SUCCEEDED
    | Some false | None => Step_status x <> S_SUCCEEDED
    end ->
    lawful ((items ← barrier_items (state_steps P) rest;
           Ret (match verdict with
                | Some true => (d :: items.1, items.2)
                | Some false => (items.1, d :: items.2)
                | None => items
                end)) ≫= f) own K' Q) as Hrest.
  { intros verdict K' HK' Hv. apply lawful_assoc, IH; [by apply HK'|]. intros items K2 HK2 [V1 [V2 V3]]. apply Hf; [by eapply remembers_trans|].
    assert (forall e, e ∈ items.1 -> e ∈ d :: rest /\ exists y, find_step e (state_steps P) = Some y /\ Step_status y = S_SUCCEEDED) as W1.
    { intros e He. destruct (V1 e He). split; [by right|done]. }
    assert (forall e, e ∈ items.2 -> e ∈ d :: rest /\ exists y, find_step e (state_steps P) = Some y /\ Step_status y <> S_SUCCEEDED) as W2.
    { intros e He. destruct (V2 e He). split; [by right|done]. }
    assert (Step_status x <> S_SUCCEEDED -> forall e y, e ∈ d :: rest -> find_step e (state_steps P) = Some y -> Step_status y = S_SUCCEEDED -> e ∈ items.1) as W3.
    { intros Hx e y [->|He]%elem_of_cons Hy Hs; [congruence|by eapply V3]. }
    destruct verdict as [[]|]; split_and!; cbn.
    - intros e [->|He]%elem_of_cons; [split; [by left|by exists x]|auto].
    - exact W2.
    - intros e y [->|He]%elem_of_cons Hy Hs; [by left|right; by eapply V3].
    - exact W1.
    - intros e [->|He]%elem_of_cons; [split; [by left|by exists x]|auto].
    - by apply W3.
    - exact W1.
    - exact W2.
    - by apply W3. }
  apply lawful_assoc. destruct (Step_status x) eqn:Hs.
  1-5: try (by apply (Hrest None); [apply remembers_refl|]).
  - by apply (Hrest (Some true)); [apply remembers_refl|].
  - by apply (Hrest (Some false)); [apply remembers_refl|].
  - apply lawful_assoc, lawful_call; [done|]. intros r w Hok HK Hr.
    assert (same_set (record_satisfied_dependency_ids r) (record_dependency_ids r) = false) as Hsame.
    { apply find_step_some in Hfind as [Hin Hid]. destruct (known_step _ _ _ _ _ HK HP Hin) as (c & Hc & _ & _ & _ & Hset & _).
      rewrite Hs in Hset. specialize (Hset eq_refl). cbn [perform] in Hr. rewrite on_store_snd, get_record_run in Hr. cbn [fst] in Hr.
      destruct c as [xc rc]. pose proof Hc as Hc'. apply cell_at_some in Hc' as [Hrc _]. rewrite Hid in Hrc. rewrite Hrc in Hr.
      injection Hr as ->. by apply (cell_skipped _ _ (ok_cell _ _ Hok _ _ Hc)). }
    rewrite Hsame. by apply (Hrest (Some false)); [exact (learn_remembers own K (GetRecord d) (Ok r))|].
  - by apply (Hrest (Some false)); [apply remembers_refl|].
Qed.

Lemma known_dependencies own K s record x r :
  knows own K s -> record ∈ known_records K -> cell_at s (record_step_id record) = Some (x, r) ->
  record_dependency_ids r = record_dependency_ids record /\ record_task_id r = record_task_id record.
Proof.
  intros HK Hin Hc. destruct (knows_record _ _ _ HK _ Hin) as (c & Hc' & Hcore & _). rewrite Hc in Hc'. injection Hc' as <-.
  destruct (record_core_fields _ _ Hcore) as (_ & ? & _ & ? & _). done.
Qed.

Lemma verdicts_succeeded own K s P deps items d :
  knows own K s -> P ∈ known_plans K -> verdicts (state_steps P) deps items -> d ∈ items.1 -> succeeded s d.
Proof.
  intros HK HP [V _] Hd. destruct (V d Hd) as (_ & x & [Hin <-]%find_step_some & Hs).
  by apply saw_succeeded; [eapply known_step|].
Qed.

Lemma verdicts_incomplete steps deps items :
  verdicts steps deps items -> items.2 <> [] -> same_set items.1 deps = false.
Proof.
  intros (V1 & V2 & _) Hne. destruct (same_set items.1 deps) eqn:Hsame; [|done]. exfalso. rewrite same_set_spec in Hsame.
  destruct items.2 as [|d l]; [done|]. destruct (V2 d (list_elem_of_here _ _)) as (Hd & x & Hx & Hs).
  apply Hsame in Hd. destruct (V1 d Hd) as (_ & x' & Hx' & Hs'). congruence.
Qed.

Lemma satisfied_cell s sid x r :
  store_ok plan_of s -> cell_at s sid = Some (x, r) -> forall d, d ∈ record_satisfied_dependency_ids r -> succeeded s d.
Proof. intros Hok Hc. exact (cell_satisfied _ _ (ok_cell _ _ Hok _ _ Hc)). Qed.

Section barrier.
Context (P : PlanRuntimeState) (step : Step) (record : StepCoordinationRecord) (now : datetime).
Context (items : list string * list string) (claim : CoordinatorClaim).
Context (own : list CoordinatorClaim) (K : knowledge).
Context (HP : P ∈ known_plans K) (Hrec : record ∈ known_records K) (Hid : record_step_id record = Step_id step).
Context (Hitems : verdicts (state_steps P) (record_dependency_ids record) items).
Context (Hown : claim ∈ own) (Hclaim : claim_step_id claim = Step_id step).
Context (may_change : forall r r', barrier_change record items.1 r r' -> allowed r r').

(** The save of the barrier, up to the status. *)
Lemma barrier_changes K' x r x' r' :
  holds K' claim x r -> step_core x' = step_core x -> record_core r' = record_core r -> record_processed_keys r' = record_processed_keys r ->
  record_phase r' = PH_TERMINAL \/ record_phase r' = PH_READY \/
   record_phase r' = record_phase r /\ record_satisfied_dependency_ids r' = items.1 /\
   same_set items.1 (record_satisfied_dependency_ids record) = false -> changes x r x' r'.
Proof.
  intros Hh Hx Hr Hk Hp. destruct (record_core_fields _ _ Hr) as (_ & _ & _ & Hd & _). destruct (holds_ids _ _ _ _ Hh) as [_ Hrid].
  split; [done|done|by rewrite Hk|]. apply may_change. split_and!; [congruence|done|done].
Qed.

Lemma lawful_barrier_failed : items.2 <> [] -> lawful (barrier_failed step items.1 now claim) own K (fun _ _ _ => True).
Proof.
  intros Hfailed. unfold barrier_failed. apply (lawful_read_cell _ _ _ claim); [done..|]. intros r x K' Hh HK'.
  destruct (is_status (Step_status x) S_PENDING) eqn:Hs; [|done]. unfold is_status in Hs. bool_props. cbn [negb].
  apply lawful_transition. intros n _. apply lawful_checked. eapply lawful_save_last; [done|exact Hh|by eapply (barrier_changes K'); [exact Hh|..|cbn; auto]|].
  intros s Hok HK Hcell. rewrite Hclaim, <- Hid in Hcell.
  destruct (known_dependencies _ _ _ _ _ _ HK (remembers_records _ _ HK' _ Hrec) Hcell) as [Hdeps _].
  apply Move_blocked; cbn; [done|done|done| |].
  - rewrite Hdeps. by eapply verdicts_incomplete.
  - intros d Hd. eapply verdicts_succeeded; [exact HK|by apply HK'|exact Hitems|done].
Qed.

Lemma lawful_barrier_progress :
  same_set items.1 (record_satisfied_dependency_ids record) = false ->
  lawful (barrier_progress step items.1 now claim) own K (fun _ _ _ => True).
Proof.
  intros Hnew. unfold barrier_progress. apply (lawful_read_cell _ _ _ claim); [done..|]. intros r x K' Hh HK'.
  apply lawful_checked.
  assert (forall s d, knows own K' s -> d ∈ items.1 -> succeeded s d) as Hsucc.
  { intros s d HK Hd. eapply verdicts_succeeded; [exact HK|by apply HK'|exact Hitems|done]. }
  destruct (same_set items.1 (record_dependency_ids r)) eqn:Hsame.
  - apply lawful_assoc, lawful_transition. intros n Ht. apply lawful_assoc, lawful_checked.
    eapply lawful_save_last; [done|exact Hh|by eapply (barrier_changes K'); [exact Hh|..|cbn; auto]|]. intros s Hok HK Hcell. cbn [fst snd].
    apply Move_opened; cbn; [|done|done| |auto].
    + by apply to_ready.
    + rewrite same_set_spec in Hsame. intros d Hd%Hsame. auto.
  - eapply lawful_save_last; [done|exact Hh|by eapply (barrier_changes K'); [exact Hh|..|cbn; auto]|]. intros s Hok HK Hcell. by apply Move_counted; cbn; auto.
Qed.

Lemma lawful_barrier_absent :
  record_dependency_ids record = [] -> lawful (barrier_absent step now claim) own K (fun _ _ _ => True).
Proof.
  intros Hnone. unfold barrier_absent. apply (lawful_read_cell _ _ _ claim); [done..|]. intros r x K' Hh HK'.
  destruct (is_status (Step_status x) S_PENDING) eqn:Hs; [|done]. unfold is_status in Hs. bool_props. cbn [negb].
  apply lawful_transition. intros n _. apply lawful_checked. eapply lawful_save_last; [done|exact Hh|by eapply (barrier_changes K'); [exact Hh|..|cbn; auto]|].
  intros s Hok HK Hcell. pose proof (satisfied_cell _ _ _ _ Hok Hcell) as Hsat. rewrite Hclaim, <- Hid in Hcell.
  destruct (known_dependencies _ _ _ _ _ _ HK (remembers_records _ _ HK' _ Hrec) Hcell) as [Hdeps _].
  apply Move_opened; cbn; [by left|done|done| |done].
  rewrite Hdeps, Hnone. intros d Hd. by apply not_elem_of_nil in Hd.
Qed.
End barrier.

(** The step and the record come from a snapshot that the coroutine has read. *)
Definition from_snapshot (K : knowledge) (P : PlanRuntimeState) (x : Step) (r : StepCoordinationRecord) : Prop :=
  P ∈ known_plans K /\ x ∈ state_steps P /\ r ∈ known_records K /\ record_step_id r = Step_id x.

Lemma lawful_refresh_dependencies P step record now own K :
  from_snapshot K P step record ->
  (forall items r r', verdicts (state_steps P) (record_dependency_ids record) items -> barrier_change record items.1 r r' -> allowed r r') ->
  lawful (refresh_dependencies cfg step record (state_steps P) now) own K (fun _ _ _ => True).
Proof.
  intros (HP & Hx & Hr & Hid) Hmay. unfold refresh_dependencies. destruct (is_status _ _); [|done]. cbn [negb].
  apply lawful_barrier_items; [done|]. intros items K' HK' Hitems.
  assert (P ∈ known_plans K' /\ record ∈ known_records K') as [HP' Hr'] by (split; by apply HK').
  case_bool_decide as Hf; cbn [negb].
  2:{ apply lawful_under_claim. intros c Hc. eapply lawful_barrier_failed; try done; [by left|eauto]. }
  destruct (same_set items.1 _) eqn:Hsame; cbn [negb].
  - case_bool_decide as Hn; [|done]. apply lawful_under_claim. intros c Hc. eapply lawful_barrier_absent; try done; [by left|eauto].
  - apply lawful_under_claim. intros c Hc. eapply lawful_barrier_progress; try done; [by left|eauto].
Qed.

(** ** Retries that are due *)

Lemma lawful_activate_claimed_retry P step now claim own K :
  (forall r r', record_phase r = PH_RETRY_SCHEDULED -> record_phase r' = PH_READY -> allowed r r') ->
  P ∈ known_plans K -> step ∈ state_steps P -> Step_status step = S_FAILED -> claim ∈ own -> claim_step_id claim = Step_id step ->
  lawful (activate_claimed_retry step now claim) own K (fun _ _ _ => True).
Proof.
  intros may_retry HP Hx Hfailed Hown Hclaim. unfold activate_claimed_retry. apply (lawful_read_cell _ _ _ claim); [done..|]. intros r x K' Hh HK'.
  destruct (_ || _) eqn:Hdue; [done|]. unfold is_phase in Hdue. bool_props. apply lawful_transition. intros n Ht%to_ready. apply lawful_checked.
  eapply lawful_save_last; [done|exact Hh|solve_changes|]. intros s Hok HK Hcell. apply Move_retried; try done.
  destruct Ht as [Hpend|]; [exfalso|done].
  destruct (known_step _ _ _ _ _ HK (remembers_plans _ _ HK' _ HP) Hx) as (c & Hc & _ & _ & _ & _ & Hp & _).
  rewrite Hclaim, Hc in Hcell. injection Hcell as ->. rewrite (Hp Hpend) in Hfailed. done.
Qed.

Lemma lawful_activate_retry P step record now own K :
  (forall r r', record_phase r = PH_RETRY_SCHEDULED -> record_phase r' = PH_READY -> allowed r r') ->
  from_snapshot K P step record -> lawful (activate_retry cfg step now) own K (fun _ _ _ => True).
Proof.
  intros may_retry (HP & Hx & _). unfold activate_retry. destruct (is_status _ _) eqn:Hs; [|done]. unfold is_status in Hs. bool_props. cbn [negb].
  apply lawful_under_claim. intros c Hc. eapply lawful_activate_claimed_retry; try done. by left.
Qed.

(** From here on a save may do whatever the machine allows. *)
Context (may_do : forall r r', allowed r r').

(** ** Outcomes *)

Section observing.
Context (x : Step) (r : StepCoordinationRecord) (run_id key : string).
Abbreviation next_record := (set_processed_keys (record_processed_keys r ++ [key]) (set_latest_run_id (Some run_id) r)).

Lemma lawful_observed_success {B} (f : Step * StepCoordinationRecord -> cprog B) own K Q :
  (forall next, outcome_ok x r next -> lawful (f next) own K Q) -> lawful (observed_success x r next_record ≫= f) own K Q.
Proof.
  intros Hf. unfold observed_success. destruct (is_status _ S_RUNNING) eqn:Hrun.
  { unfold is_status in Hrun. bool_props. apply lawful_assoc, lawful_transition. intros n _. apply lawful_assoc, lawful_checked, Hf.
    apply outcome_ended; [solve_changes|done|auto..]. }
  destruct (_ && _); [|destruct (negb _)].
  - apply lawful_assoc, lawful_checked, Hf, outcome_noted; [solve_changes|done|auto].
  - apply lawful_assoc, lawful_checked, Hf, outcome_noted; [solve_changes|done|auto].
  - apply Hf, outcome_noted; [solve_changes|done|auto].
Qed.

(** The status that an unsuccessful run leaves. *)
Lemma lawful_unsuccessful {B} target (f : Step -> cprog B) own K Q :
  (forall n, Step_status x = S_RUNNING \/ Step_status x = S_WAITING -> lawful (f (Step_set_status target (Step_set_updated_at n x))) own K Q) ->
  lawful (f x) own K Q ->
  lawful ((if is_status (Step_status x) S_RUNNING || is_status (Step_status x) S_WAITING then transition x target else Ret x) ≫= f) own K Q.
Proof.
  intros H1 H2. destruct (_ || _) eqn:Hs; [|done]. apply lawful_transition. intros n _. apply H1.
  unfold is_status in Hs. apply orb_true_iff in Hs as [?%bool_decide_eq_true|?%bool_decide_eq_true]; auto.
Qed.

Lemma lawful_observed_failure {B} attempt category now (f : Step * StepCoordinationRecord -> cprog B) own K Q :
  (forall next, outcome_ok x r next -> lawful (f next) own K Q) ->
  lawful (observed_failure cfg x r next_record attempt category key now ≫= f) own K Q.
Proof.
  intros Hf. unfold observed_failure. cbn zeta. apply lawful_assoc, lawful_unsuccessful.
  - intros n Hx. apply lawful_assoc. destruct (_ && _).
    + apply lawful_assoc, lawful_lift. intros d _. apply lawful_assoc, lawful_lift. intros due _. apply lawful_checked, Hf.
      apply outcome_ended; [solve_changes|done|auto..].
    + apply lawful_checked, Hf, outcome_ended; [solve_changes|done|auto..].
  - apply lawful_assoc. destruct (_ && _).
    + apply lawful_assoc, lawful_lift. intros d _. apply lawful_assoc, lawful_lift. intros due _. apply lawful_checked, Hf.
      apply outcome_noted; [solve_changes|done|auto].
    + apply lawful_checked, Hf, outcome_noted; [solve_changes|done|auto].
Qed.

Lemma lawful_observed_cancellation {B} now (f : Step * StepCoordinationRecord -> cprog B) own K Q :
  (forall next, outcome_ok x r next -> lawful (f next) own K Q) ->
  lawful (observed_cancellation x r next_record key now ≫= f) own K Q.
Proof.
  intros Hf. unfold observed_cancellation. apply lawful_assoc, lawful_unsuccessful.
  - intros n Hx. apply lawful_assoc, lawful_checked, Hf, outcome_cancelled; [solve_changes|done| |done..]. by destruct Hx as [-> | ->].
  - apply lawful_assoc, lawful_checked, Hf, outcome_noted; [solve_changes|done|auto].
Qed.
End observing.

Lemma lawful_observe_claimed_run run run_id record category key now claim own K :
  claim ∈ own -> claim_step_id claim = record_step_id record ->
  lawful (observe_claimed_run cfg run run_id record category key now claim) own K (fun _ _ _ => True).
Proof.
  intros Hown Hclaim. unfold observe_claimed_run. apply (lawful_read_cell' _ _ _ claim); [done..|]. intros x r K' Hh _.
  destruct (in_strs _ _); [done|]. apply lawful_checked.
  assert (forall next, outcome_ok x r next -> lawful (_ ← save next.1 next.2 r claim now; Ret (record_plan_id r, true)) own K' (fun _ _ _ => True)) as Hnext.
  { intros next Hn. by eapply lawful_outcome_save. }
  destruct (RunState_status run);
    first [by apply lawful_observed_success|by apply lawful_observed_failure|by apply lawful_observed_cancellation].
Qed.

Lemma steady_observe_outcome task_id run_id category key now : steady (observe_outcome cfg task_id run_id category key now).
Proof.
  intros own K. unfold observe_outcome. apply lawful_ask; [done|]. intros run. apply lawful_guard. intros _. apply lawful_guard. intros _.
  apply lawful_get_record. intros r K' _ _ _ _ _. apply lawful_guard. intros _. cbn zeta. destruct (in_strs _ _); [done|].
  apply lawful_under_claim. intros c Hc. apply lawful_observe_claimed_run; [by left|done].
Qed.

(** ** Cancellation *)

Lemma lawful_cancel_active_run {B} r key (f : unit -> cprog B) own K Q :
  lawful (f tt) own K Q -> lawful (cancel_active_run r key ≫= f) own K Q.
Proof.
  intros Hf. unfold cancel_active_run. destruct (record_latest_run_id r) as [run_id|]; [|done].
  apply lawful_assoc, lawful_ask; [done|]. intros run. destruct (run_terminal _); [done|]. by apply lawful_assoc, lawful_ask.
Qed.

Lemma lawful_cancel_claimed_step plan_id step_id key now claim own K :
  claim ∈ own -> claim_step_id claim = step_id ->
  lawful (cancel_claimed_step plan_id step_id key now claim) own K (fun _ _ _ => True).
Proof.
  intros Hown Hclaim. unfold cancel_claimed_step. apply (lawful_read_cell _ _ _ claim); [done..|]. intros r x K' Hh _.
  apply lawful_cancel_active_run, lawful_cancelled_unless_ended. intros x' Hcore Hx'. apply lawful_checked.
  apply (lawful_save_outcome claim x r (x', _)); [done..|]. apply outcome_cancel; [|done|done|done].
  solve_changes.
Qed.

Lemma steady_cancel_record plan_id key now record : steady (cancel_record cfg plan_id key now record).
Proof.
  intros own K. unfold cancel_record. apply lawful_plan_step. intros x P K' _ _ _ _ _ _. case_bool_decide; [done|].
  apply lawful_under_claim. intros c Hc. apply lawful_cancel_claimed_step; [by left|done].
Qed.

Lemma steady_async_projection plan_id : steady (async_projection plan_id).
Proof. apply steady_seq; [by apply steady_call|]. intros. apply steady_lift. Qed.

Lemma steady_coordinator_now now : steady (coordinator_now now).
Proof.
  unfold coordinator_now. apply steady_seq.
  - destruct now; [apply steady_ret|]. apply steady_seq; [by apply steady_call|]. intros; apply steady_ret.
  - intros v. apply steady_seq; [apply steady_guard|]. intros; apply steady_ret.
Qed.

(** ** Waits *)

Lemma lawful_enter_wait wait now own K : lawful (enter_wait cfg wait now) own K (fun _ _ _ => True).
Proof.
  unfold enter_wait. apply lawful_call; [done|]. intros P w Hok _ Hr. apply lawful_lift. intros x Hx.
  destruct (read_step_facts _ _ _ _ _ _ _ Hok Hr Hx) as [Hin Hid]. apply lawful_get_record. intros r K' Hrid HK' Hknown _ _.
  apply lawful_lift. intros [] _. cbn zeta. destruct (match record_wait r with Some _ => _ | None => _ end); [done|].
  apply lawful_guard. intros _. apply lawful_guard. intros Hactive. unfold is_status, is_phase in Hactive. bool_props.
  apply lawful_required_claim. intros c Hc. apply lawful_bind. eapply lawful_mono; [apply lawful_holding|done].
  apply lawful_transition. intros n _. apply lawful_checked. apply lawful_call; [|done]. intros s Hok' HK. cbn [op_pre].
  split_and!; [by left|done|]. intros _ [x0 r0] Hcell Hrev. cbn [fst snd] in *.
  destruct (knows_record _ _ _ HK _ Hknown) as (c0 & Hc0 & _ & Hsame). replace (record_step_id r) with (Step_id x) in Hc0 by congruence.
  cbn in Hcell. rewrite Hcell in Hc0. injection Hc0 as <-. cbn [snd] in Hsame. destruct Hsame as [->|Hlt]; [|lia].
  split; [apply (changes_move allowed)|apply may_do].
  - destruct (known_step _ _ _ P x HK) as (c1 & Hc1 & Hcore & _); [apply HK'; by left|done|]. rewrite Hcell in Hc1. injection Hc1 as <-.
    cbn in *. solve_changes.
  - eapply Move_waited; try done. by apply (cell_active _ _ (ok_cell _ _ Hok' _ _ Hcell)).
Qed.

Lemma steady_wait_step wait now : steady (wait_step cfg wait now).
Proof.
  unfold wait_step. apply steady_seq; [apply steady_coordinator_now|]. intros t. apply steady_seq; [intros own K; apply lawful_enter_wait|].
  intros. apply steady_async_projection.
Qed.

(** *** Resolution *)

(** The record was read under the claim, the step not yet. *)
Record half_holds (K : knowledge) (claim : CoordinatorClaim) (r : StepCoordinationRecord) : Prop := {
  half_record : (claim, r) ∈ held_records K;
  half_known : r ∈ known_records K;
  half_id : record_step_id r = claim_step_id claim
}.

Lemma lawful_get_held_record {B} claim step_id (f : StepCoordinationRecord -> cprog B) own K Q :
  claim ∈ own -> claim_step_id claim = step_id -> (forall r K', half_holds K' claim r -> remembers K K' -> lawful (f r) own K' Q) ->
  lawful (ccall (GetRecord step_id) ≫= f) own K Q.
Proof.
  intros Hown Hid Hf. apply lawful_get_record. intros r K' Hr HK' Hknown Hheld _. apply Hf; [|done].
  split; [by apply Hheld|done|by rewrite Hid].
Qed.

Lemma lawful_get_held_step {B} claim plan_id step_id r (f : Step -> cprog B) own K Q :
  claim ∈ own -> claim_step_id claim = step_id -> half_holds K claim r ->
  (forall x K', holds K' claim x r -> remembers K K' -> lawful (f x) own K' Q) ->
  lawful (plan_step plan_id step_id ≫= f) own K Q.
Proof.
  intros Hown Hid [H1 H2 H3] Hf. apply lawful_plan_step. intros x P K' Hx Hin HP HK' Hheld Hkeep. apply Hf; [|done].
  split; [by apply Hheld|by apply Hkeep|by exists P|by apply HK'|by rewrite H3, Hid].
Qed.

(** Where a satisfied wait leads. *)
Definition resumed (x : Step) (r : StepCoordinationRecord) (outcome : Step * CoordinationPhase * RetryState) : Prop :=
  step_core outcome.1.1 = step_core x /\
  forall r', changes x r outcome.1.1 r' -> record_satisfied_dependency_ids r' = record_satisfied_dependency_ids r ->
    record_phase r' = outcome.1.2 -> outcome_ok x r (outcome.1.1, r').

Lemma lawful_satisfied_outcome {B} x r (f : Step * CoordinationPhase * RetryState -> cprog B) own K Q :
  (forall outcome, resumed x r outcome -> lawful (f outcome) own K Q) -> lawful (satisfied_outcome x r ≫= f) own K Q.
Proof.
  intros Hf. unfold satisfied_outcome. apply lawful_assoc, lawful_transition. intros n Hx%to_running.
  set (x1 := Step_set_status S_RUNNING (Step_set_updated_at n x)).
  assert (step_core x1 = step_core x) as Hcore by done.
  assert (forall rs, resumed x r (x1, PH_ATTEMPT_ACTIVE, rs)) as Hresumed.
  { intros rs. split; [done|]. cbn. intros r' Hch Hs Hp. split; [done|]. intros s _ _. apply Move_resumed; try done.
    destruct Hx; auto. }
  assert (forall n' rs st, st = S_SUCCEEDED \/ st = S_FAILED ->
            resumed x r (Step_set_status st (Step_set_updated_at n' x1), PH_TERMINAL, rs)) as Hended.
  { intros n' rs st Hst. split; [done|]. cbn. intros r' Hch Hs Hp. apply outcome_ended; cbn; auto. destruct Hx; auto. }
  assert (forall n' rs, resumed x r (Step_set_status S_CANCELLED (Step_set_updated_at n' x1), PH_TERMINAL, rs)) as Hcancelled.
  { intros n' rs. split; [done|]. cbn. intros r' Hch Hs Hp. apply outcome_cancelled; try done. by destruct Hx as [-> | ->]. }
  destruct (record_latest_run_id r) as [run_id|]; [|by apply lawful_pure, Hf, Hresumed].
  apply lawful_assoc, lawful_ask; [done|]. intros run.
  destruct (RunState_status run); try (by apply lawful_pure, Hf, Hresumed); apply lawful_assoc, lawful_transition; intros n' _; apply Hf; auto.
Qed.

Lemma lawful_resolve_claimed_wait step_id wait resolution key now claim own K :
  claim ∈ own -> claim_step_id claim = step_id ->
  lawful (resolve_claimed_wait step_id wait resolution key now claim) own K (fun _ _ _ => True).
Proof.
  intros Hown Hclaim. unfold resolve_claimed_wait. apply (lawful_get_held_record claim); [done..|]. intros r K1 Hr _.
  destruct (in_strs _ _); [done|]. apply (lawful_get_held_step claim _ _ r); [done..|]. intros x K2 Hh _. cbn zeta.
  assert (forall next, outcome_ok x r next -> lawful (_ ← save next.1 next.2 r claim now; Ret (record_plan_id r, true)) own K2 (fun _ _ _ => True)) as Hsave.
  { intros next Hn. by eapply lawful_outcome_save. }
  destruct resolution.
  - apply lawful_assoc, lawful_satisfied_outcome. intros [[x' phase] rs] [Hcore Hn]. cbn [fst snd] in *. apply lawful_assoc, lawful_checked, Hsave, Hn; try done.
    solve_changes.
  - apply lawful_assoc, lawful_cancel_active_run, lawful_assoc, lawful_transition. intros n Hx%to_failed. apply lawful_assoc, lawful_checked, Hsave, outcome_ended; try done; auto.
    solve_changes.
  - apply lawful_assoc, lawful_cancel_active_run, lawful_assoc, lawful_transition. intros n Hx%to_failed. apply lawful_assoc, lawful_checked, Hsave, outcome_ended; try done; auto.
    solve_changes.
  - apply lawful_assoc, lawful_cancel_active_run, lawful_assoc, lawful_transition. intros n Hx%to_cancelled. apply lawful_assoc, lawful_checked, Hsave, outcome_cancelled; try done.
    solve_changes.
Qed.

Lemma steady_resolve step_id resolution key now : steady (resolve cfg step_id resolution key now).
Proof.
  intros own K. unfold resolve. apply lawful_guard. intros _. apply lawful_get_record. intros r K' Hr _ _ _ _.
  destruct (in_strs _ _); [done|]. destruct (record_wait r) as [wait|]; [|done]. apply lawful_guard. intros _.
  apply lawful_required_claim. intros c Hc. apply lawful_holding, lawful_resolve_claimed_wait; [by left|done].
Qed.

End steps.
