(* ===== verification/CoordinationFacade.v ===== *)
(** * Every method of the coordinator is steady

    The methods of the facade compose the steps of CoordinationProofs.v; what each of them is allowed to
    do follows by the rules of sequencing, except where a task is completed or a plan is registered. *)

From S2P Require Import Prelude PyValue Errors StateMonad Ident Lifecycle Domain PyTime TransportModels.
From S2P Require Import CoordinationModels PlanGraph CoordinationStore Projection Recovery CoordinationCells.
From S2P Require Import CoordinationSafety CoordinationPool CoordinationSteps CoordinationRules CoordinationGather Coordinator CoordinationProofs.

Create HintDb steady discriminated.

(** Sequencing, branching and loops over programs that are steady by the hints. *)
Ltac steady_step :=
  match goal with
  | |- steady _ _ _ (Ret _) => apply steady_ret
  | |- steady _ _ _ (Raise _) => apply steady_raise
  | |- steady _ _ _ (lift _) => apply steady_lift
  | |- steady _ _ _ (guard _ _) => apply steady_guard
  | |- steady _ _ _ (ccall _) => by apply steady_call
  | |- steady _ _ _ (ask _) => by apply steady_ask
  | |- steady _ _ _ (attempt _) => apply steady_attempt
  | |- steady _ _ _ (for_each _ _) => apply steady_for_each; intros ? _
  | |- steady _ _ _ (_ ≫= _) => apply steady_seq; [|intros ?]
  | |- steady _ _ _ (match ?x with _ => _ end) => destruct x
  | |- steady _ _ _ _ => solve [auto with steady nocore]
  end.
Ltac solve_steady := cbn zeta; repeat steady_step.

Section facade.
Context (E : coordination_env) (plan_of : string -> string)
  (allowed : StepCoordinationRecord -> StepCoordinationRecord -> Prop) (cfg : CoordinatorConfig) (fuel : nat).
Context (may_start : forall r r', record_phase r = PH_READY -> record_phase r' = PH_ATTEMPT_ACTIVE -> allowed r r').
Context (may_end : forall r r', record_phase r <> PH_TERMINAL -> record_phase r' = PH_TERMINAL -> allowed r r').
Abbreviation lawful := (lawful E plan_of allowed).
Abbreviation steady := (steady E plan_of allowed).

#[local] Hint Resolve steady_coordinator_now steady_async_projection steady_start_attempt steady_retire_step : steady.

(** ** Retirement *)

Lemma steady_retire_superseded_plan plan_id superseded_by now : steady (retire_superseded_plan cfg plan_id superseded_by now).
Proof. unfold retire_superseded_plan. solve_steady. Qed.
#[local] Hint Resolve steady_retire_superseded_plan : steady.

Lemma steady_retire_if_superseded state now : steady (retire_if_superseded cfg state now).
Proof. unfold retire_if_superseded. solve_steady. Qed.
#[local] Hint Resolve steady_retire_if_superseded : steady.

Lemma steady_retire_other_task_plans task_id plan_id now : steady (retire_other_task_plans cfg task_id plan_id now).
Proof. unfold retire_other_task_plans. solve_steady. Qed.
#[local] Hint Resolve steady_retire_other_task_plans : steady.

Lemma steady_start_attempt_unless_superseded step record now : steady (start_attempt_unless_superseded cfg step record now).
Proof.
  unfold start_attempt_unless_superseded. apply steady_seq; [by apply steady_ask|]. intros task. destruct (negb _); [solve_steady|].
  apply steady_catch; [auto with steady nocore|]. intros e. solve_steady.
Qed.
#[local] Hint Resolve steady_start_attempt_unless_superseded : steady.

(** ** One record of a snapshot *)

(** What was read is not forgotten. *)
Lemma lawful_remembers {A} (p : cprog A) own K Q :
  lawful p own K Q -> lawful p own K (fun a own' K' => Q a own' K' /\ remembers K K').
Proof.
  assert (forall K0, remembers K0 K -> lawful p own K Q -> lawful p own K (fun a own' K' => Q a own' K' /\ remembers K0 K')) as H;
    [|apply H, remembers_refl]. intros K0. revert own K. induction p as [a|e|o k IH]; intros own K HK Hp; cbn in *; [done..|].
  destruct Hp as [Hpre Hnext]. split; [done|]. intros r w Hok Hkn Hr. apply IH; [|by eapply Hnext].
  eapply remembers_trans; [exact HK|apply learn_remembers].
Qed.

Lemma lawful_for_each {A B} (f : A -> cprog B) l own K :
  (forall a own' K', a ∈ l -> remembers K K' -> lawful (f a) own' K' (fun _ _ _ => True)) ->
  lawful (for_each f l) own K (fun _ _ _ => True).
Proof.
  revert own K. induction l as [|a l IH]; intros own K Hf; [done|]. cbn. apply lawful_bind. eapply lawful_mono.
  - apply lawful_remembers, Hf; [by left|apply remembers_refl].
  - intros b own' K' [_ HK']. apply lawful_bind. eapply lawful_mono; [|done]. apply IH. intros a' own2 K2 Ha HK2.
    apply Hf; [by right|by eapply remembers_trans].
Qed.

Lemma lawful_advance_record P now record own K :
  (record_phase record = PH_BLOCKED -> forall items r r', verdicts (state_steps P) (record_dependency_ids record) items ->
     barrier_change record items.1 r r' -> allowed r r') ->
  (forall r r', record_phase r = PH_RETRY_SCHEDULED -> record_phase r' = PH_READY -> allowed r r') ->
  P ∈ known_plans K -> record ∈ known_records K -> lawful (advance_record cfg (state_steps P) now record) own K (fun _ _ _ => True).
Proof.
  intros may_change may_retry HP Hr. unfold advance_record. apply lawful_lift. intros x Hx. destruct (find_step _ _) as [x'|] eqn:Hfind; [|done].
  injection Hx as ->. apply find_step_some in Hfind as [Hin Hid].
  assert (from_snapshot K P x record) as Hsnap by (split_and!; done). destruct (record_phase record); try done.
  - eapply lawful_refresh_dependencies; [done|]. by apply may_change.
  - destruct (due_by _ _); [|done]. by eapply lawful_activate_retry.
Qed.

(** From here on a save may do whatever the machine allows. *)
Context (may_do : forall r r', allowed r r').
#[local] Hint Resolve steady_observe_outcome steady_cancel_record steady_resolve steady_wait_step : steady.

(** ** The outcome of the task *)

Lemma has_status_false st steps x : has_status st steps = false -> x ∈ steps -> Step_status x <> st.
Proof.
  intros H Hx Hst. assert (has_status st steps = true) as Ht; [|congruence]. apply existsb_exists. exists x.
  split; [by apply list_elem_of_In|]. unfold is_status. by bool_props; apply bool_decide_eq_true_2.
Qed.

Lemma steps_terminal steps x :
  existsb (fun step => negb (bool_decide (Step_status step ∈ TERMINAL_STEPS))) steps = false -> x ∈ steps -> Step_status x ∈ TERMINAL_STEPS.
Proof.
  intros H Hx. destruct (decide (Step_status x ∈ TERMINAL_STEPS)) as [|Hn]; [done|exfalso].
  assert (existsb (fun step => negb (bool_decide (Step_status step ∈ TERMINAL_STEPS))) steps = true) as Ht; [|congruence].
  apply existsb_exists. exists x. split; [by apply list_elem_of_In|]. by rewrite bool_decide_eq_false_2.
Qed.

(** A snapshot in which every step is done stays true. *)
Lemma justified_complete own K s P key :
  store_ok plan_of s -> knows own K s -> P ∈ known_plans K -> state_steps P <> [] ->
  (forall x, x ∈ state_steps P -> Step_status x = S_SUCCEEDED \/ Step_status x = S_SKIPPED) ->
  justified s (CompleteTask key (Plan_task_id (state_plan P))).
Proof.
  intros Hok HK HP Hne Hx. destruct (knows_plan _ _ _ HK _ HP) as [(P' & HP' & Hp & Hids) Hsaw].
  exists (Plan_id (state_plan P)), P'. split_and!; [done|by rewrite Hp| |].
  - intros Hnil. rewrite Hnil in Hids. by destruct (state_steps P).
  - intros x' Hin. assert (Step_id x' ∈ map Step_id (state_steps P)) as (x & Heq & Hin0)%list_elem_of_fmap.
    { rewrite <- Hids. apply list_elem_of_fmap. by exists x'. }
    destruct (plan_cell _ _ Hok _ _ _ HP' Hin) as (r & Hc & _). destruct (Hsaw _ Hin0) as [_ (c & Hc' & _ & _ & _ & Hset & _)].
    rewrite <- Heq, Hc in Hc'. injection Hc' as <-. cbn in Hset. rewrite Hset; [auto|]. by destruct (Hx x Hin0) as [-> | ->].
Qed.

Lemma steady_aggregate_task plan_id : steady (aggregate_task plan_id).
Proof.
  intros own K. unfold aggregate_task. apply lawful_call; [done|]. intros P w _ _ _. cbn zeta. apply lawful_call; [done|].
  intros recs w' _ _ _. destruct (negb _ || _); [done|]. destruct (bool_decide _ || _) eqn:Hterm; [done|]. bool_props.
  apply lawful_ask; [done|]. intros task. destruct (negb _); [done|]. destruct (bool_decide (_ ∈ _)); [done|].
  destruct (has_status S_FAILED _) eqn:Hf; [destruct (bool_decide _); [by apply lawful_ask|done]|].
  destruct (has_status S_CANCELLED _) eqn:Hc; [destruct (bool_decide _); [by apply lawful_ask|done]|].
  destruct (bool_decide _); [|done]. apply lawful_ask; [|done]. intros s Hok HK. eapply justified_complete; [exact Hok|exact HK|by left|done|].
  intros x Hx. pose proof (has_status_false _ _ _ Hf Hx). pose proof (has_status_false _ _ _ Hc Hx).
  pose proof (steps_terminal _ x ltac:(eassumption) Hx) as Ht. unfold TERMINAL_STEPS in Ht. table Ht; by auto.
Qed.
#[local] Hint Resolve steady_aggregate_task : steady.

(** ** Advancing *)

Lemma map_res_in {A B} (f : A -> res B) l l' b : map_res f l = Ok l' -> b ∈ l' -> exists a, a ∈ l /\ f a = Ok b.
Proof.
  intros Hl%map_res_ok (i & Hi)%list_elem_of_lookup. destruct (Forall2_lookup_r _ _ _ _ _ Hl Hi) as (a & Ha & Hf).
  exists a. split; [by eapply list_elem_of_lookup_2|done].
Qed.

Lemma steady_advance_round plan_id now : steady (advance_round cfg plan_id now).
Proof.
  intros own K. unfold advance_round. apply lawful_call; [done|]. intros [P recs] w _ _ _. apply lawful_bind. eapply lawful_mono.
  { apply lawful_for_each. intros r own' K' Hin HK'. apply lawful_advance_record; [auto..|apply HK'; cbn; by left|]. apply HK'. cbn. apply elem_of_app. by left. }
  intros progress own' K' _. generalize own' K'. apply steady_seq; [by apply steady_call|]. intros [P' recs']. cbn zeta.
  destruct (bool_decide _); [apply steady_ret|]. intros own2 K2. apply lawful_lift. intros children Hch.
  generalize own2 K2. apply steady_seq; [by apply steady_call|]. intros schedule. apply steady_seq; [|intros; apply steady_ret].
  apply steady_gather. intros p Hp. destruct (map_res_in _ _ _ _ Hch Hp) as (r & _ & Hr). destruct (find_step _ _); [|done].
  injection Hr as <-. auto with steady nocore.
Qed.

Lemma steady_advance_loop rounds plan_id now : steady (advance_loop cfg rounds plan_id now).
Proof.
  induction rounds as [|rounds IH]; [apply steady_raise|]. cbn [advance_loop]. apply steady_seq; [apply steady_advance_round|].
  intros []; [done|apply steady_ret].
Qed.
#[local] Hint Resolve steady_advance_loop : steady.

Lemma steady_base_advance plan_id now : steady (base_advance cfg fuel plan_id now).
Proof. unfold base_advance. solve_steady. Qed.
#[local] Hint Resolve steady_base_advance : steady.

Lemma steady_advance plan_id now : steady (advance cfg fuel plan_id now).
Proof. unfold advance. solve_steady. Qed.
#[local] Hint Resolve steady_advance : steady.

Lemma steady_advance_if_changed result now : steady (advance_if_changed cfg fuel result now).
Proof. unfold advance_if_changed. solve_steady. Qed.
#[local] Hint Resolve steady_advance_if_changed : steady.

Lemma steady_observe_run task_id run_id category key now : steady (observe_run cfg fuel task_id run_id category key now).
Proof. unfold observe_run. solve_steady. Qed.
#[local] Hint Resolve steady_observe_run : steady.

(** ** Waits, due work, cancellation *)

Lemma steady_resolve_wait step_id resolution key now : steady (resolve_wait cfg fuel step_id resolution key now).
Proof. unfold resolve_wait. solve_steady. Qed.
#[local] Hint Resolve steady_resolve_wait : steady.

Lemma steady_signal step_id key wait_type message matching resolution now :
  steady (signal cfg step_id key wait_type message matching resolution now).
Proof. unfold signal. solve_steady. Qed.
#[local] Hint Resolve steady_signal : steady.

Lemma steady_resolve_approval step_id approval_id subject_type subject_id action outcome key owner project now :
  steady (resolve_approval cfg fuel step_id approval_id subject_type subject_id action outcome key owner project now).
Proof. unfold resolve_approval. solve_steady. Qed.

Lemma steady_resolve_event step_id event_id event_type correlation owner project now :
  steady (resolve_event cfg fuel step_id event_id event_type correlation owner project now).
Proof. unfold resolve_event. solve_steady. Qed.

Lemma steady_resolve_external_job step_id job resolution key owner project now :
  steady (resolve_external_job cfg fuel step_id job resolution key owner project now).
Proof. unfold resolve_external_job. solve_steady. Qed.

Lemma steady_base_process_due now : steady (base_process_due cfg fuel now).
Proof. unfold base_process_due, process_due_plan, process_due_record. solve_steady. Qed.
#[local] Hint Resolve steady_base_process_due : steady.

Lemma steady_process_due now : steady (process_due cfg fuel now).
Proof. unfold process_due. solve_steady. Qed.
#[local] Hint Resolve steady_process_due : steady.

Lemma steady_cancel_plan plan_id key now : steady (cancel_plan cfg plan_id key now).
Proof. unfold cancel_plan. solve_steady. Qed.

(** ** Reconciliation *)

Lemma steady_mark_inconsistent record detail now : steady (mark_inconsistent cfg record detail now).
Proof.
  intros own K. unfold mark_inconsistent. apply lawful_under_claim. intros c Hc. unfold mark_claimed_inconsistent.
  apply (lawful_read_cell _ _ _ c); [by left|done|]. intros r x K' Hh _. apply lawful_checked.
  apply (lawful_save_outcome _ _ _ c x r (x, _)); [by left|done|]. apply outcome_noted; [solve_changes|done|by right].
Qed.
#[local] Hint Resolve steady_mark_inconsistent : steady.

Lemma steady_reconcile_record now record : steady (reconcile_record cfg fuel now record).
Proof. unfold reconcile_record, reconcile_run. solve_steady. Qed.
#[local] Hint Resolve steady_reconcile_record : steady.

Lemma steady_base_reconcile_plan plan_id now : steady (base_reconcile_plan cfg fuel plan_id now).
Proof. unfold base_reconcile_plan. solve_steady. Qed.
#[local] Hint Resolve steady_base_reconcile_plan : steady.

Lemma steady_reconcile_plan plan_id now : steady (reconcile_plan cfg fuel plan_id now).
Proof. unfold reconcile_plan. solve_steady. Qed.
#[local] Hint Resolve steady_reconcile_plan : steady.

Lemma steady_reconcile_all now : steady (reconcile_all cfg fuel now).
Proof. unfold reconcile_all. solve_steady. Qed.

(** ** Registration *)

Lemma lawful_check_canonical_plan {B} plan steps policies details (f : unit -> cprog B) own K Q :
  (graph_ok plan steps -> lawful (f tt) own K Q) -> lawful (check_canonical_plan plan steps policies details ≫= f) own K Q.
Proof.
  intros Hf. unfold check_canonical_plan. apply lawful_assoc, lawful_lift. intros [] Hgraph%validate_graph_decides.
  apply lawful_assoc, lawful_ask; [done|]. intros task. do 2 (apply lawful_assoc, lawful_guard; intros _). cbn zeta.
  apply lawful_guard. auto.
Qed.

Lemma lawful_new_record {B} plan policies policy step (f : StepCoordinationRecord -> cprog B) own K Q :
  (forall r, fresh_record plan step r -> lawful (f r) own K Q) -> lawful (new_record plan policies policy step ≫= f) own K Q.
Proof.
  intros Hf. unfold new_record. do 2 (apply lawful_assoc, lawful_now; intros ?). apply lawful_checked_valid.
  intros Hvalid. apply Hf. by split_and!.
Qed.

Lemma lawful_new_records {B} plan policies policy steps (f : list StepCoordinationRecord -> cprog B) own K Q :
  (forall rs, Forall2 (fresh_record plan) steps rs -> lawful (f rs) own K Q) ->
  lawful (for_each (new_record plan policies policy) steps ≫= f) own K Q.
Proof.
  revert f. induction steps as [|step steps IH]; intros f Hf; [by apply Hf|]. cbn [for_each].
  apply lawful_assoc, lawful_new_record. intros r Hr. apply lawful_assoc, IH. intros rs Hrs. apply lawful_pure, Hf. by constructor.
Qed.

Lemma steady_register plan steps policies policy :
  (forall step, step ∈ steps -> plan_of (Step_id step) = Plan_id plan) -> steady (register plan steps policies policy).
Proof.
  intros Hplan own K. unfold register. apply lawful_check_canonical_plan. intros Hgraph. apply lawful_new_records. intros rs Hrs.
  by apply lawful_call.
Qed.
#[local] Hint Resolve steady_register : steady.

Lemma steady_register_plan plan steps policies policy :
  (forall step, step ∈ steps -> plan_of (Step_id step) = Plan_id plan) -> steady (register_plan cfg fuel plan steps policies policy).
Proof.
  intros Hplan. unfold register_plan. apply steady_seq.
  - unfold check_canonical_plan. solve_steady.
  - intros _. solve_steady.
Qed.
End facade.
