(* ===== verification/CoordinationTheorems.v ===== *)
(** * What the coordinator guarantees

    A deployment is any number of coordinators that handle any calls over one repository and one kernel.
    Its runs interleave the coroutines at every await; a coordinator that crashes is one that is never
    scheduled again, and its claims stay until they expire. *)

From S2P Require Import Prelude PyValue Errors StateMonad Ident Lifecycle Domain PyTime TransportModels.
From S2P Require Import CoordinationModels PlanGraph CoordinationStore Projection Recovery CoordinationCells.
From S2P Require Import CoordinationSafety CoordinationPool CoordinationSteps Coordinator CoordinationFacade.

(** The public methods of [DurablePlanStepCoordinator]. *)
Inductive coordinator_call :=
| CallRegisterPlan (plan : Plan) (steps : list Step) (policies : list (string * StepRetryPolicy)) (policy : PredecessorFailurePolicy)
| CallAdvance (plan_id : string) (now : option datetime)
| CallObserveRun (task_id run_id : string) (failure_category observation_key : option string) (now : option datetime)
| CallWaitStep (wait : StepWait) (now : option datetime)
| CallResolveApproval (step_id approval_id subject_type subject_id action : string) (outcome : ApprovalOutcome)
    (resolution_key : string) (owner_ref : OwnerRef) (project_id : option string) (now : option datetime)
| CallResolveEvent (step_id event_id event_type correlation_key : string) (owner_ref : OwnerRef) (project_id : option string)
    (now : option datetime)
| CallResolveExternalJob (step_id external_job_ref : string) (resolution : WaitResolution) (resolution_key : string)
    (owner_ref : OwnerRef) (project_id : option string) (now : option datetime)
| CallProcessDue (now : option datetime)
| CallCancelPlan (plan_id idempotency_key : string) (now : option datetime)
| CallReconcilePlan (plan_id : string) (now : option datetime)
| CallReconcileAll (now : option datetime).

Definition discard {A} (p : cprog A) : cprog unit := _ ← p; Ret tt.

Definition handle (fuel : nat) (cfg : CoordinatorConfig) (c : coordinator_call) : cprog unit :=
  match c with
  | CallRegisterPlan plan steps policies policy => discard (register_plan cfg fuel plan steps policies policy)
  | CallAdvance plan_id now => discard (advance cfg fuel plan_id now)
  | CallObserveRun task_id run_id category key now => discard (observe_run cfg fuel task_id run_id category key now)
  | CallWaitStep wait now => discard (wait_step cfg wait now)
  | CallResolveApproval step_id approval_id subject_type subject_id action outcome key owner project now =>
      discard (resolve_approval cfg fuel step_id approval_id subject_type subject_id action outcome key owner project now)
  | CallResolveEvent step_id event_id event_type correlation owner project now =>
      discard (resolve_event cfg fuel step_id event_id event_type correlation owner project now)
  | CallResolveExternalJob step_id job resolution key owner project now =>
      discard (resolve_external_job cfg fuel step_id job resolution key owner project now)
  | CallProcessDue now => discard (process_due cfg fuel now)
  | CallCancelPlan plan_id key now => discard (cancel_plan cfg plan_id key now)
  | CallReconcilePlan plan_id now => discard (reconcile_plan cfg fuel plan_id now)
  | CallReconcileAll now => discard (reconcile_all cfg fuel now)
  end.

(** Step identifiers are fresh UUIDs: [plan_of] says which plan a step was created for. *)
Definition well_scoped (plan_of : string -> string) (c : coordinator_call) : Prop :=
  match c with
  | CallRegisterPlan plan steps _ _ => forall step, step ∈ steps -> plan_of (Step_id step) = Plan_id plan
  | _ => True
  end.

(** The coordinators of a deployment with the calls they handle, and its runs. *)
Definition coordinators (fuel : nat) (calls : list (CoordinatorConfig * coordinator_call)) : list (cprog unit) :=
  map (fun p => handle fuel p.1 p.2) calls.

Definition deployed (E : coordination_env) (fuel : nat) (calls : list (CoordinatorConfig * coordinator_call)) (w : cworld)
  (turns : list nat) : list (cprog unit) * cworld :=
  run_threads (perform E) turns (coordinators fuel calls, w).

(** What the [i]-th coroutine is about to do. *)
Definition about_to (c : list (cprog unit) * cworld) (i : nat) : option cop :=
  match c.1 !! i with Some (Vis o _) => Some o | _ => None end.

Lemma about_to_vis c i o : about_to c i = Some o -> exists k, c.1 !! i = Some (Vis o k).
Proof. unfold about_to. destruct (c.1 !! i) as [[a|e|o' k]|]; try done. intros [= ->]. by exists k. Qed.

Lemma steady_handle E plan_of fuel cfg c : well_scoped plan_of c -> steady E plan_of anything (handle fuel cfg c).
Proof.
  intros Hc. destruct c; cbn [handle]; unfold discard; apply steady_seq; try (intros; apply steady_ret).
  - by apply steady_register_plan.
  - by apply steady_advance.
  - by apply steady_observe_run.
  - by apply CoordinationProofs.steady_wait_step.
  - by apply steady_resolve_approval.
  - by apply steady_resolve_event.
  - by apply steady_resolve_external_job.
  - by apply steady_process_due.
  - by apply steady_cancel_plan.
  - by apply steady_reconcile_plan.
  - by apply steady_reconcile_all.
Qed.

Section deployment.
Context (E : coordination_env) (plan_of : string -> string) (fuel : nat).
Context (calls : list (CoordinatorConfig * coordinator_call)) (w : cworld).
Context (Hok : store_ok plan_of (w_store w)) (Hcalls : forall p, p ∈ calls -> well_scoped plan_of p.2).

Lemma deployment_runs turns more :
  let c := deployed E fuel calls w turns in
  let c' := deployed E fuel calls w (turns ++ more) in
  store_ok plan_of (w_store c.2) /\ store_later (w_store c.2) (w_store c'.2) /\
  (forall i o, about_to c i = Some (Ask o) -> justified (w_store c.2) o).
Proof.
  cbn zeta. unfold deployed. rewrite run_threads_app.
  destruct (pool_runs E plan_of anything (coordinators fuel calls) w turns more Hok) as (H1 & H2 & _ & H4);
    [|split_and!; [done..|intros i o (k & Hk)%about_to_vis; by eapply H4]].
  intros p (q & -> & Hq)%list_elem_of_fmap. by apply steady_handle, Hcalls.
Qed.
End deployment.

(** ** Dependencies and completion *)

(** C2. No step runs before its dependencies: whatever calls any number of coordinators handle and
    however their coroutines interleave, at the moment at which one of them asks the kernel for a run of a
    step, the step is registered for that task and every step it depends on has succeeded. *)
Theorem dependencies_run_first E plan_of fuel calls w turns i key task_id step_id :
  store_ok plan_of (w_store w) -> (forall p, p ∈ calls -> well_scoped plan_of p.2) ->
  let c := deployed E fuel calls w turns in
  about_to c i = Some (Ask (CreateRun key task_id step_id)) ->
  exists step record, cell_at (w_store c.2) step_id = Some (step, record) /\ record_task_id record = task_id /\
    forall d, d ∈ Step_depends_on step -> succeeded (w_store c.2) d.
Proof.
  intros Hok Hcalls c Hi. destruct (deployment_runs E plan_of fuel calls w Hok Hcalls turns []) as (_ & _ & Hj).
  destruct (Hj _ _ Hi) as ([step record] & ?). eauto.
Qed.

(** C13. A task completes only with its steps: at the moment at which a coordinator asks the kernel to
    complete a task, some plan of that task is registered, it has steps, and each of them has succeeded
    or was skipped. *)
Theorem task_completes_with_its_steps E plan_of fuel calls w turns i key task_id :
  store_ok plan_of (w_store w) -> (forall p, p ∈ calls -> well_scoped plan_of p.2) ->
  let c := deployed E fuel calls w turns in
  about_to c i = Some (Ask (CompleteTask key task_id)) ->
  exists plan_id P, store_plans (w_store c.2) !! plan_id = Some P /\ Plan_task_id (state_plan P) = task_id /\ state_steps P <> [] /\
    forall x, x ∈ state_steps P -> Step_status x = S_SUCCEEDED \/ Step_status x = S_SKIPPED.
Proof.
  intros Hok Hcalls c Hi. destruct (deployment_runs E plan_of fuel calls w Hok Hcalls turns []) as (_ & _ & Hj).
  exact (Hj _ _ Hi).
Qed.

(** ** The repository *)

(** C6. The coordinators refine the state machine of a step: between any two moments of any run, each
    step that existed has made moves of the machine only (its identity, plan and dependencies are
    what they were, each save counts one revision and forgets no processed key, a step that succeeded, was
    skipped or was cancelled stays so), plans keep their definition and steps, and no fence decreases. *)
Theorem coordinators_refine_machine E plan_of fuel calls w turns more :
  store_ok plan_of (w_store w) -> (forall p, p ∈ calls -> well_scoped plan_of p.2) ->
  store_later (w_store (deployed E fuel calls w turns).2) (w_store (deployed E fuel calls w (turns ++ more)).2).
Proof. intros Hok Hcalls. by destruct (deployment_runs E plan_of fuel calls w Hok Hcalls turns more) as (_ & ? & _). Qed.

(** C17. The repository stays consistent in every run: each step of each plan has a record with its plan,
    its task and its dependencies; a step that is ready or further has all its dependencies succeeded; the
    dependencies counted as satisfied have succeeded; an active attempt belongs to a running step; a step
    is skipped only when its barrier failed; and no claim has a fence above the counter of its step. *)
Theorem repository_stays_consistent E plan_of fuel calls w turns :
  store_ok plan_of (w_store w) -> (forall p, p ∈ calls -> well_scoped plan_of p.2) ->
  store_ok plan_of (w_store (deployed E fuel calls w turns).2).
Proof. intros Hok Hcalls. by destruct (deployment_runs E plan_of fuel calls w Hok Hcalls turns []) as (? & _ & _). Qed.

(** ** Claims *)

(** The methods of the repository that change it; the others only read. *)
Inductive repository_call :=
| RepoCreatePlan (plan : Plan) (steps : list Step) (records : list StepCoordinationRecord)
| RepoSaveStep (step : Step) (record : StepCoordinationRecord) (expected_revision : Z) (claim : option CoordinatorClaim)
    (commit_time : datetime)
| RepoAcquire (step_id owner_id : string) (ttl : Z) (now : datetime) (uuid : string)
| RepoRenew (claim : CoordinatorClaim) (ttl : Z) (now : datetime)
| RepoRelease (claim : CoordinatorClaim)
| RepoRetire (plan_id : string) (superseded_by_plan_id : option string) (reason : string) (retired_at : datetime).

Definition run_repository (s : CoordinatorStore) (c : repository_call) : CoordinatorStore :=
  match c with
  | RepoCreatePlan plan steps records => (create_plan plan steps records s).2
  | RepoSaveStep step record expected claim t => (save_step step record expected claim t s).2
  | RepoAcquire step_id owner ttl now uuid => (acquire_claim step_id owner ttl now uuid s).2
  | RepoRenew claim ttl now => (renew_claim claim ttl now s).2
  | RepoRelease claim => (release_claim claim s).2
  | RepoRetire plan_id by_plan reason at_time => (retire_plan plan_id by_plan reason at_time s).2
  end.

(** The store after any sequence of calls, failing ones included. *)
Definition after_repository (calls : list repository_call) (s : CoordinatorStore) : CoordinatorStore :=
  foldl run_repository s calls.

(** The step's fence counter has reached [fence], and nobody with a smaller fence holds the step. *)
Definition fenced_at (step_id : string) (fence : Z) (s : CoordinatorStore) : Prop :=
  (fence <= default 0 (store_fences s !! step_id))%Z /\
  forall c, store_claims s !! step_id = Some c -> (fence <= claim_fence c)%Z.

Lemma fenced_same step_id fence s s' :
  store_claims s' = store_claims s -> store_fences s' = store_fences s -> fenced_at step_id fence s -> fenced_at step_id fence s'.
Proof. unfold fenced_at. by intros -> ->. Qed.

Lemma keeps_fenced {A} step_id fence (m : store_st A) s :
  keeps (fenced_at step_id fence) m -> fenced_at step_id fence s -> fenced_at step_id fence (m s).2.
Proof. intros Hm Hs. specialize (Hm s Hs). by destruct (m s) as [[a|e] s']. Qed.

Ltac keeps_parts := repeat match goal with
  | |- keeps _ _ => first [apply keeps_ret|apply keeps_raise|apply keeps_of_res|apply keeps_gets|apply keeps_ensure
      |apply keeps_bind|case_match|apply keeps_each|apply keeps_modify]
  | |- forall _, _ => intro
  end.

Lemma fenced_create step_id fence plan steps records : keeps (fenced_at step_id fence) (create_plan plan steps records).
Proof. unfold create_plan. keeps_parts; by eapply fenced_same. Qed.

Lemma fenced_save step_id fence step record expected claim t : keeps (fenced_at step_id fence) (save_step step record expected claim t).
Proof. unfold save_step. keeps_parts; by eapply fenced_same. Qed.

Lemma fenced_retire step_id fence plan_id by_plan reason t : keeps (fenced_at step_id fence) (retire_plan plan_id by_plan reason t).
Proof. unfold retire_plan, get_plan. keeps_parts; by eapply fenced_same. Qed.

Lemma fenced_acquire step_id fence sid owner ttl now uuid : keeps (fenced_at step_id fence) (acquire_claim sid owner ttl now uuid).
Proof.
  intros s [Hf Hc]. unfold acquire_claim, get_step_record, ensure, gets, modify, of_res, raise, mbind, st_bind, mret, st_ret.
  destruct (0 <? ttl)%Z; [|done]. destruct (is_aware now); [|done]. destruct (store_records s !! sid); [|done].
  destruct (match store_claims s !! sid with Some _ => _ | None => false end); [done|].
  set (next := (default 0 (store_fences s !! sid) + 1)%Z).
  assert (fenced_at step_id fence (put_fence sid next s)) as Hput.
  { split; [|done]. cbn. destruct (decide (sid = step_id)) as [->|]; [rewrite lookup_insert_eq; cbn; lia|by rewrite lookup_insert_ne]. }
  destruct (dt_add now ttl) as [expires|e]; [|done]. destruct (CoordinatorClaim_post_init _) as [c|e] eqn:Hpi; [|done].
  unfold CoordinatorClaim_post_init in Hpi. res_inv. split; [apply Hput|]. cbn. intros c.
  destruct (decide (sid = step_id)) as [->|]; [|rewrite lookup_insert_ne by done; apply Hc].
  rewrite lookup_insert_eq. intros [= <-]. cbn. lia.
Qed.

Lemma fenced_renew step_id fence claim ttl now : keeps (fenced_at step_id fence) (renew_claim claim ttl now).
Proof.
  intros s [Hf Hc]. unfold renew_claim, ensure, gets, modify, of_res, raise, mbind, st_bind, mret, st_ret.
  destruct (0 <? ttl)%Z; [|done]. case_bool_decide as Hcur; [|done]. cbn [negb]. destruct (is_aware now); [|done].
  destruct (dt_leb _ _); [done|]. destruct (dt_add now ttl) as [expires|e]; [|done].
  destruct (CoordinatorClaim_post_init _) as [c|e] eqn:Hpi; [|done].
  unfold CoordinatorClaim_post_init in Hpi. res_inv. split; [done|]. cbn. intros c.
  destruct (decide (claim_step_id claim = step_id)) as [E|]; [|rewrite lookup_insert_ne by done; apply Hc].
  rewrite E in *. rewrite lookup_insert_eq. intros [= <-]. cbn. by apply Hc.
Qed.

Lemma fenced_release step_id fence claim : keeps (fenced_at step_id fence) (release_claim claim).
Proof.
  intros s [Hf Hc]. unfold release_claim, gets, modify, mbind, st_bind, mret, st_ret.
  case_bool_decide; [|done]. cbn [negb]. split; [done|]. cbn. intros c [_ H']%lookup_delete_Some. by apply Hc.
Qed.

Lemma fenced_after step_id fence calls s : fenced_at step_id fence s -> fenced_at step_id fence (after_repository calls s).
Proof.
  revert s. induction calls as [|c calls IH]; intros s Hs; [done|]. cbn. apply IH. destruct c; apply keeps_fenced; try done;
    [apply fenced_create|apply fenced_save|apply fenced_acquire|apply fenced_renew|apply fenced_release|apply fenced_retire].
Qed.

(** A method that only reads. *)
Definition reads {A} (m : store_st A) : Prop := forall s, (m s).2 = s.

Lemma keeps_reads {A} (m : store_st A) : (forall s, keeps (eq s) m) -> reads m.
Proof. intros H s. specialize (H s s eq_refl). by destruct (m s) as [[a|e] s']. Qed.

(** Every operation of a coordinator is such a call or only reads, so every run of a deployment is such a sequence. *)
Lemma perform_repository E o w : exists calls, w_store (perform E o w).2 = after_repository calls (w_store w).
Proof.
  assert (forall A (m : store_st A), w_store (on_store w m).2 = (m (w_store w)).2) as Hon.
  { intros A m. unfold on_store. by destruct (m (w_store w)). }
  assert (forall A (m : store_st A), reads m -> exists calls, w_store (on_store w m).2 = after_repository calls (w_store w)) as Hread.
  { intros A m Hm. exists []. by rewrite Hon, Hm. }
  destruct o; cbn [perform]; try (by exists []);
    try (apply Hread, keeps_reads; intros s0; cbv [list_step_records get_plan_snapshot get_step_record list_active_plans
      list_all_plans plan_retirement get_plan]; keeps_parts; fail); rewrite Hon.
  - by exists [RepoCreatePlan plan steps records].
  - by exists [RepoSaveStep step record expected_revision (Some claim) now].
  - by exists [RepoAcquire step_id owner_id ttl now (cenv_uuid E (w_clock w))].
  - by exists [RepoRelease claim].
  - by exists [RepoRetire plan_id superseded_by_plan_id reason retired_at].
Qed.

Lemma deployed_repository E fuel calls w turns :
  exists done, w_store (deployed E fuel calls w turns).2 = after_repository done (w_store w).
Proof.
  unfold deployed. apply (run_threads_ind (perform E) (fun c => exists done, w_store c.2 = after_repository done (w_store w)));
    [by exists []|]. intros i o k c _ [before Hb]. destruct (perform_repository E o c.2) as [now Hn]. exists (before ++ now).
  unfold after_repository in *. cbn [snd]. by rewrite Hn, Hb, foldl_app.
Qed.

(** What is left to a claim with a smaller fence. *)
Lemma fenced_out step_id fence s other :
  fenced_at step_id fence s -> (claim_fence other < fence)%Z -> store_claims s !! step_id <> Some other.
Proof. intros [_ Hc] Hlt Hother. specialize (Hc other Hother). lia. Qed.

Lemma save_needs_claim step record expected claim t s :
  store_claims s !! Step_id step <> Some claim -> exists e, save_step step record expected (Some claim) t s = (Err e, s).
Proof.
  intros Hne. unfold save_step, ensure, gets, raise, mbind, st_bind, mret, st_ret.
  destruct (String.eqb _ _ && _); [|by eexists]. destruct (is_aware t); [|by eexists].
  rewrite bool_decide_eq_false_2 by done. by eexists.
Qed.

Lemma renew_needs_claim claim ttl t s :
  store_claims s !! claim_step_id claim <> Some claim ->
  (renew_claim claim ttl t s).2 = s /\ forall renewed, (renew_claim claim ttl t s).1 <> Ok (Some renewed).
Proof.
  intros Hne. unfold renew_claim, ensure, gets, raise, mbind, st_bind, mret, st_ret.
  destruct (0 <? ttl)%Z; [|done]. by rewrite bool_decide_eq_false_2 by done.
Qed.

(** A claim that was granted, and the repository when it is granted. *)
Lemma acquire_granted step_id owner ttl now uuid s claim :
  (acquire_claim step_id owner ttl now uuid s).1 = Ok (Some claim) ->
  claim_fence claim = (default 0 (store_fences s !! step_id) + 1)%Z /\
  fenced_at step_id (claim_fence claim) (acquire_claim step_id owner ttl now uuid s).2 /\
  forall current, store_claims s !! step_id = Some current ->
    dt_leb (claim_expires_at current) now = true \/ claim_owner_id current = owner.
Proof.
  unfold acquire_claim, get_step_record, ensure, gets, modify, of_res, raise, mbind, st_bind, mret, st_ret.
  destruct (0 <? ttl)%Z; [|done]. destruct (is_aware now); [|done]. destruct (store_records s !! step_id); [|done].
  destruct (match store_claims s !! step_id with Some _ => _ | None => false end) eqn:Hfree; [done|].
  destruct (dt_add now ttl) as [expires|]; [|done]. destruct (CoordinatorClaim_post_init _) as [c|] eqn:Hpi; [|done].
  unfold CoordinatorClaim_post_init in Hpi. res_inv. cbn [fst snd]. intros [= <-]. cbn [claim_fence]. split_and!; [done| |].
  - split; cbn; [rewrite lookup_insert_eq; cbn; lia|]. intros c. rewrite lookup_insert_eq. intros [= <-]. cbn. lia.
  - intros current Hcur. rewrite Hcur in Hfree. destruct (dt_leb _ _); [by left|right].
    cbn in Hfree. by destruct (String.eqb_spec (claim_owner_id current) owner).
Qed.

(** C14. A coordinator that lost its claim can never save again. Let a claim on a step be granted, and, after any calls of
    the repository by anybody (other claims, renewals, releases, saves, registrations and retirements), another one by
    a takeover. Then whoever held the step at the takeover let its claim expire or was the same owner, the new claim has
    a greater fence, and from then on, after any further calls, every save under the lost claim, one of its renewals or
    any other claim with a smaller fence than the new one fails and changes nothing, and no such claim on the step can
    be renewed. Every run of a deployment of coordinators is such a sequence of calls ([deployed_repository]). *)
Theorem lost_claim_cannot_save step_id s owner ttl now uuid lost between owner' ttl' now' uuid' claim after :
  (acquire_claim step_id owner ttl now uuid s).1 = Ok (Some lost) ->
  let s1 := after_repository between (acquire_claim step_id owner ttl now uuid s).2 in
  (acquire_claim step_id owner' ttl' now' uuid' s1).1 = Ok (Some claim) ->
  let s2 := after_repository after (acquire_claim step_id owner' ttl' now' uuid' s1).2 in
  (claim_fence lost < claim_fence claim)%Z /\
  (forall current, store_claims s1 !! step_id = Some current ->
     dt_leb (claim_expires_at current) now' = true \/ claim_owner_id current = owner') /\
  forall other, (claim_fence other < claim_fence claim)%Z ->
    (forall step record expected t, Step_id step = step_id ->
       exists e, save_step step record expected (Some other) t s2 = (Err e, s2)) /\
    (claim_step_id other = step_id -> forall ttl t,
       (renew_claim other ttl t s2).2 = s2 /\ forall renewed, (renew_claim other ttl t s2).1 <> Ok (Some renewed)).
Proof.
  intros Hlost s1 Htaken s2. destruct (acquire_granted _ _ _ _ _ _ _ Hlost) as (_ & Hfenced & _).
  destruct (acquire_granted _ _ _ _ _ _ _ Htaken) as (Hfence & Hnow & Hfree).
  pose proof (proj1 (fenced_after step_id _ between _ Hfenced)) as Hcount. fold s1 in Hcount.
  pose proof (fenced_after step_id _ after _ Hnow) as Hlater. fold s2 in Hlater.
  split_and!; [lia|done|]. intros other Hlt. pose proof (fenced_out _ _ _ other Hlater Hlt) as Hout. split.
  - intros step record expected t Hid. apply save_needs_claim. by rewrite Hid.
  - intros Hid ttl0 t. apply renew_needs_claim. by rewrite Hid.
Qed.

(** C29. A save is all or nothing, and no update is lost: it either fails and changes nothing, or the claim is
    the current one and has not expired, the record still has the revision that the caller read, and exactly
    that step and its record are replaced, with the next revision. *)
Theorem save_is_all_or_nothing plan_of s step record expected claim now :
  store_ok plan_of s -> (forall c, cell_at s (Step_id step) = Some c -> Step_plan_id step = record_plan_id c.2) ->
  (exists e, save_step step record expected (Some claim) now s = (Err e, s)) \/
  exists c s', let saved := set_revision (expected + 1) (set_updated_at now record) in
    save_step step record expected (Some claim) now s = (Ok saved, s') /\
    store_claims s !! Step_id step = Some claim /\ dt_leb (claim_expires_at claim) now = false /\
    cell_at s (Step_id step) = Some c /\ record_revision c.2 = expected /\
    cell_at s' (Step_id step) = Some (step, saved) /\
    (forall sid, sid <> Step_id step -> cell_at s' sid = cell_at s sid) /\ store_claims s' = store_claims s.
Proof.
  intros Hok Hplan. destruct (save_step_run plan_of s step record expected claim now Hok) as [?|(c & H)]; [auto|by left|right].
  destruct c as [x r]. cbn [snd] in H. destruct H as (Hrun & Hcl & Hc & <- & Hp & Hrp & _ & Hexp).
  destruct (saved_store_cells plan_of s step (set_revision (record_revision r + 1) (set_updated_at now record)) x r Hok Hc Hp Hrp)
    as (H1 & H2 & H3 & _).
  eexists (x, r), _. split_and!; [exact Hrun|done..].
Qed.
