(* ===== verification/CoordinationRounds.v ===== *)
(** * The loop of [advance] ends

    Alone on the repository, a coordinator makes progress in finitely many rounds: every save of a round
    makes the record of a step lighter, and a round that reports progress saved something. [tally] says
    which steps a coroutine saves, and [execution_saves] puts it together with what each save is allowed. *)

From S2P Require Import Prelude PyValue Errors StateMonad Ident Lifecycle Domain PyTime TransportModels.
From S2P Require Import CoordinationModels PlanGraph CoordinationStore Projection Recovery CoordinationCells.
From S2P Require Import CoordinationSafety CoordinationPool CoordinationSteps CoordinationRules CoordinationGather Coordinator CoordinationProofs CoordinationFacade.

(** ** The weight of a repository *)

(** The saves that a step may still need. *)
Definition record_weight (r : StepCoordinationRecord) : nat :=
  match record_phase r with
  | PH_BLOCKED => 4 + length (List.filter (fun d => negb (in_strs d (record_satisfied_dependency_ids r))) (record_dependency_ids r))
  | PH_RETRY_SCHEDULED => 3
  | PH_READY => 2
  | PH_ATTEMPT_ACTIVE | PH_WAITING | PH_INCONSISTENT => 1
  | PH_TERMINAL => 0
  end.

Definition lighter (r r' : StepCoordinationRecord) : Prop := record_weight r' < record_weight r.

Definition records_weight (m : gmap string StepCoordinationRecord) : nat := map_fold (fun _ r n => record_weight r + n) 0 m.
Definition store_weight (s : CoordinatorStore) : nat := records_weight (store_records s).

Lemma records_weight_insert m sid r r' :
  m !! sid = Some r -> records_weight (<[sid := r']> m) + record_weight r = records_weight m + record_weight r'.
Proof.
  intros Hr. unfold records_weight.
  rewrite <- insert_delete_eq, map_fold_insert_L by (first [intros; lia|apply lookup_delete_eq]).
  rewrite <- (insert_delete_id m sid r) at 2 by done. rewrite map_fold_insert_L by (first [intros; lia|apply lookup_delete_eq]). lia.
Qed.

Lemma lighter_start r r' : record_phase r = PH_READY -> record_phase r' = PH_ATTEMPT_ACTIVE -> lighter r r'.
Proof. intros H H'. unfold lighter, record_weight. rewrite H, H'. lia. Qed.

Lemma lighter_end r r' : record_phase r <> PH_TERMINAL -> record_phase r' = PH_TERMINAL -> lighter r r'.
Proof. intros H H'. unfold lighter, record_weight. rewrite H'. destruct (record_phase r); try done; lia. Qed.

(** ** Which steps a coroutine saves *)

(** [tally p log Q]: [p] creates no plan, and ends with [Q] given its result and the steps saved, latest
    first, by it and before ([log]). *)
Fixpoint tally {A} (p : cprog A) (log : list string) (Q : res A -> list string -> Prop) : Prop :=
  match p with
  | Ret a => Q (Ok a) log
  | Raise e => Q (Err e) log
  | Vis o k =>
      match o return (res (creply o) -> cprog A) -> Prop with
      | CreatePlan _ _ _ => fun _ => False
      | SaveStep step _ _ _ _ => fun k => (forall x, tally (k (Ok x)) (Step_id step :: log) Q) /\ (forall e, tally (k (Err e)) log Q)
      | _ => fun k => forall r, tally (k r) log Q
      end k
  end.

(** Induction on the coroutine: the saves apart. *)
Ltac tally_induction p log :=
  revert log; induction p as [?a|?e|?o ?k ?IH]; intros log; cbn [tally mbind prog_bind attempt catch];
  [..|match goal with |- context [match ?o with Now => _ | _ => _ end] => destruct o end].

Lemma tally_mono {A} (p : cprog A) log (Q Q' : res A -> list string -> Prop) :
  tally p log Q -> (forall r log, Q r log -> Q' r log) -> tally p log Q'.
Proof. intros Hp HQ. revert Hp. tally_induction p log; firstorder eauto. Qed.

Lemma tally_frame {A} (p : cprog A) log base (Q : res A -> list string -> Prop) :
  tally p log Q -> tally p (log ++ base) (fun r log' => exists log0, log' = log0 ++ base /\ Q r log0).
Proof.
  tally_induction p log; try (intros Hp; cbn; eauto; fail).
  intros [H1 H2]. split; intros; [rewrite app_comm_cons|]; auto.
Qed.

Lemma tally_bind {A B} (p : cprog A) (f : A -> cprog B) log Q :
  tally p log (fun r log => match r with Ok a => tally (f a) log Q | Err e => Q (Err e) log end) -> tally (p ≫= f) log Q.
Proof. tally_induction p log; firstorder auto. Qed.

Lemma tally_attempt {A} (p : cprog A) log (Q : res (res A) -> list string -> Prop) :
  tally p log (fun r log => Q (Ok r) log) -> tally (attempt p) log Q.
Proof. tally_induction p log; firstorder auto. Qed.

Lemma tally_catch {A} (p : cprog A) h log (Q : res A -> list string -> Prop) :
  tally p log (fun r log => match r with Ok a => Q (Ok a) log | Err e => tally (h e) log Q end) -> tally (catch p h) log Q.
Proof. tally_induction p log; firstorder auto. Qed.

(** *** Coroutines that save nothing *)

Definition silent {A} (p : cprog A) (P : A -> Prop) : Prop := tally p [] (fun r log => log = [] /\ forall a, r = Ok a -> P a).
Definition quiet {A} (p : cprog A) : Prop := silent p (fun _ => True).

Lemma tally_silent {A B} (p : cprog A) P (f : A -> cprog B) log Q :
  silent p P -> (forall a, P a -> tally (f a) log Q) -> (forall e, Q (Err e) log) -> tally (p ≫= f) log Q.
Proof.
  intros Hp Hf He. apply tally_bind. eapply tally_mono; [exact (tally_frame _ [] log _ Hp)|].
  intros [a|e] log' (log0 & -> & -> & Ha); cbn; auto.
Qed.

Lemma silent_mono {A} (p : cprog A) (P P' : A -> Prop) : silent p P -> (forall a, P a -> P' a) -> silent p P'.
Proof. intros Hp HP. eapply tally_mono; [exact Hp|]. cbn. intros r log [-> H]. eauto. Qed.
Lemma silent_seq {A B} (p : cprog A) P (f : A -> cprog B) P' : silent p P -> (forall a, P a -> silent (f a) P') -> silent (p ≫= f) P'.
Proof. intros Hp Hf. eapply tally_silent; [exact Hp|exact Hf|]. by cbn. Qed.
Lemma silent_ret {A} (a : A) (P : A -> Prop) : P a -> silent (Ret a) P.
Proof. intros Ha. split; [done|]. by intros a' [= <-]. Qed.
Lemma silent_raise {A} e (P : A -> Prop) : silent (Raise e) P.
Proof. by split. Qed.
Lemma silent_lift {A} (r : res A) (P : A -> Prop) : (forall a, r = Ok a -> P a) -> silent (lift r) P.
Proof. destruct r; [intros H; by apply silent_ret, H|intros _; apply silent_raise]. Qed.

Lemma quiet_seq {A B} (p : cprog A) (f : A -> cprog B) : quiet p -> (forall a, quiet (f a)) -> quiet (p ≫= f).
Proof. intros Hp Hf. eapply silent_seq; [exact Hp|intros a _; apply Hf]. Qed.
Lemma quiet_lift {A} (r : res A) : quiet (lift r).
Proof. apply silent_lift. auto. Qed.
Lemma quiet_guard b e : quiet (guard b e).
Proof. destruct b; [by apply (silent_ret tt)|apply silent_raise]. Qed.

Definition writes (o : cop) : bool := match o with CreatePlan _ _ _ | SaveStep _ _ _ _ _ => true | _ => false end.
Lemma quiet_call o : writes o = false -> quiet (ccall o).
Proof. intros Ho. destruct o; try done; intros [a|e]; split; done. Qed.
Lemma quiet_ask o : quiet (ask o).
Proof. exact (quiet_call (Ask o) eq_refl). Qed.
Lemma quiet_attempt {A} (p : cprog A) : quiet p -> quiet (attempt p).
Proof. intros Hp. apply tally_attempt. eapply tally_mono; [exact Hp|]. cbn. by intros r log [-> _]. Qed.

Create HintDb quiet discriminated.
#[export] Hint Resolve quiet_lift quiet_guard quiet_ask quiet_attempt : quiet.

Ltac quiet_step :=
  match goal with
  | |- quiet (Ret _) => by apply silent_ret
  | |- quiet (Raise _) => apply silent_raise
  | |- quiet (ccall ?o) => exact (quiet_call o eq_refl)
  | |- quiet (ask ?o) => exact (quiet_ask o)
  | |- quiet (_ ≫= _) => apply quiet_seq; [|intros ?]
  | |- quiet (match ?x with _ => _ end) => destruct x
  | |- quiet _ => solve [auto with quiet nocore]
  end.
Ltac solve_quiet := cbn zeta; repeat quiet_step.

Lemma quiet_stale_retry {A} limit (p : cprog A) last : quiet p -> quiet (with_stale_retry limit p last).
Proof.
  intros Hp. revert last. induction limit as [|limit IH]; intros last; [apply silent_raise|]. cbn [with_stale_retry].
  apply quiet_seq; [by apply quiet_attempt|]. intros [a|e]; [by apply silent_ret|]. destruct (stale_stream_conflict e); [apply IH|apply silent_raise].
Qed.

Lemma quiet_claim_step cfg step_id now : quiet (claim_step cfg step_id now).
Proof. unfold claim_step. solve_quiet. Qed.
Lemma quiet_release claim : quiet (_ ← ccall (ReleaseClaim claim); Ret tt).
Proof. solve_quiet. Qed.
Lemma quiet_checked r : quiet (checked r).
Proof. apply quiet_lift. Qed.
Lemma quiet_barrier_items steps ds : quiet (barrier_items steps ds).
Proof. induction ds as [|d ds IH]; cbn [barrier_items]; solve_quiet. Qed.

Lemma silent_plan_step plan_id step_id : silent (plan_step plan_id step_id) (fun x => Step_id x = step_id).
Proof.
  eapply silent_seq; [exact (quiet_call (GetPlan _) eq_refl)|]. intros P _. apply silent_lift. unfold state_step.
  intros x. destruct (find_step step_id (state_steps P)) as [x'|] eqn:Hx; [|done]. intros [= <-]. by apply find_step_some in Hx as [_ ?].
Qed.
Lemma silent_transition x target : silent (transition x target) (fun x' => Step_id x' = Step_id x).
Proof.
  eapply silent_seq; [apply quiet_lift|]. intros u _. eapply silent_seq; [exact (quiet_call Now eq_refl)|]. intros n _. apply silent_lift.
  intros x' Hx'. unfold Step_transition_to in Hx'. res_inv.
  by match goal with H : Step_post_init _ = Ok _ |- _ => unfold Step_post_init in H; res_inv end.
Qed.

(** *** Coroutines that save at most one step, and say so *)

(** [p] saves at most the step [sid], and returns true only if it did. *)
Definition once (sid : string) (p : cprog bool) : Prop := tally p [] (fun r log => log = [] /\ r <> Ok true \/ log = [sid]).

Lemma once_silent {A} (p : cprog A) P (f : A -> cprog bool) sid :
  silent p P -> (forall a, P a -> once sid (f a)) -> once sid (p ≫= f).
Proof. intros Hp Hf. eapply tally_silent; [exact Hp|exact Hf|]. by left. Qed.
Lemma once_quiet {A} (p : cprog A) (f : A -> cprog bool) sid : quiet p -> (forall a, once sid (f a)) -> once sid (p ≫= f).
Proof. intros Hp Hf. eapply once_silent; [exact Hp|intros a _; apply Hf]. Qed.
Lemma once_false sid : once sid (Ret false).
Proof. by left. Qed.
Lemma once_save x r current claim now (f : unit -> cprog bool) :
  quiet (f tt) -> once (Step_id x) (save x r current claim now ≫= f).
Proof.
  intros Hf. apply tally_bind, tally_bind. split; [|by left]. intros saved. cbn.
  eapply tally_mono; [exact (tally_frame _ [] [Step_id x] _ Hf)|]. intros r' log (log0 & -> & -> & _). by right.
Qed.
Lemma once_under_claim cfg sid now body : (forall c, once sid (body c)) -> once sid (under_claim cfg sid now false body).
Proof.
  intros Hbody. apply once_quiet; [apply quiet_claim_step|]. intros [c|]; [|apply once_false]. apply tally_bind, tally_attempt.
  eapply tally_mono; [exact (Hbody c)|]. intros r log Hr. eapply tally_silent; [exact (quiet_release c)|intros ? ?; by destruct r|].
  intros e. destruct Hr as [[? _]| ?]; [by left|by right].
Qed.

Create HintDb once discriminated.
#[export] Hint Resolve quiet_stale_retry quiet_claim_step quiet_checked quiet_barrier_items : quiet.
#[export] Hint Resolve once_false : once.

Ltac once_step :=
  match goal with
  | |- once _ (plan_step _ _ ≫= _) => eapply once_silent; [apply silent_plan_step|intros ? <-]
  | |- once _ (transition _ _ ≫= _) => eapply once_silent; [apply silent_transition|intros ? <-]
  | |- once _ (save _ _ _ _ _ ≫= _) => apply once_save
  | |- once _ ((if _ then _ else _) ≫= _) => fail 1
  | |- once _ (_ ≫= _) => apply once_quiet; [solve_quiet; fail|intros ?]
  | |- once _ (under_claim _ _ _ _ _) => apply once_under_claim; intros ?
  | |- once _ (if ?b then _ else _) => destruct b
  | |- once _ _ => solve [auto with once nocore]
  end.
Ltac solve_once := cbn zeta; repeat once_step; solve_quiet.

(** *** Coroutines that save anything, but create no plan *)

Definition plain {A} (p : cprog A) : Prop := tally p [] (fun _ _ => True).

Lemma plain_quiet {A} (p : cprog A) : quiet p -> plain p.
Proof. intros Hp. by eapply tally_mono. Qed.
Lemma plain_seq {A B} (p : cprog A) (f : A -> cprog B) : plain p -> (forall a, plain (f a)) -> plain (p ≫= f).
Proof.
  intros Hp Hf. apply tally_bind. eapply tally_mono; [exact Hp|]. intros [a|e] log _; [|done].
  eapply tally_mono; [exact (tally_frame _ [] log _ (Hf a))|]. done.
Qed.
Lemma plain_save x r current claim now : plain (save x r current claim now).
Proof. apply tally_bind. by split. Qed.
Lemma plain_holding {A} claim (p : cprog A) : plain p -> plain (holding claim p).
Proof.
  intros Hp. apply plain_seq; [by apply tally_attempt|]. intros r. apply plain_seq; [apply plain_quiet, quiet_release|].
  intros _. apply plain_quiet, quiet_lift.
Qed.
Lemma plain_for_each {A B} (f : A -> cprog B) l : (forall a, plain (f a)) -> plain (for_each f l).
Proof. intros Hf. induction l as [|a l IH]; [done|]. apply plain_seq; [done|]. intros b. by apply plain_seq. Qed.

Ltac plain_step :=
  match goal with
  | |- plain (save _ _ _ _ _) => apply plain_save
  | |- plain (holding _ _) => apply plain_holding
  | |- plain (for_each _ _) => apply plain_for_each; intros ?
  | |- plain _ => apply plain_quiet; solve_quiet; fail
  | |- plain (_ ≫= _) => apply plain_seq; [|intros ?]
  | |- plain (match ?x with _ => _ end) => destruct x
  end.
Ltac solve_plain := cbn zeta; repeat plain_step.

(** *** Gathered children *)

(** [p] returns true only if it saved something. *)
Definition reports_saves (r : res bool) (log : list string) : Prop := r = Ok true -> log <> [].
Definition reports (p : cprog bool) : Prop := tally p [] reports_saves.

Lemma once_reports sid p : once sid p -> reports p.
Proof. intros Hp. eapply tally_mono; [exact Hp|]. by intros r log [[-> Hr]| ->] ?. Qed.
Lemma reports_quiet {A} (p : cprog A) f : quiet p -> (forall a, reports (f a)) -> reports (p ≫= f).
Proof. intros Hp Hf. eapply tally_silent; [exact Hp|intros a _; apply Hf|done]. Qed.
Lemma reports_plain_false {A} (p : cprog A) : plain p -> reports (_ ← p; Ret false).
Proof. intros Hp. apply tally_bind. eapply tally_mono; [exact Hp|]. by intros [a|e]. Qed.
Lemma reports_catch p h : reports p -> (forall e, reports (h e)) -> reports (catch p h).
Proof.
  intros Hp Hh. apply tally_catch. eapply tally_mono; [exact Hp|]. intros [a|e] log Hr; [done|].
  eapply tally_mono; [exact (tally_frame _ [] log _ (Hh e))|]. intros r log' (log0 & -> & H) Hok Hnil. apply app_nil in Hnil as [-> _]. by apply H.
Qed.

(** A child next to the others: [log] is its own part of [whole]. *)
Lemma tally_child {A} (p : cprog A) log whole (Q : res A -> list string -> Prop) :
  tally p log Q -> (log <> [] -> whole <> []) ->
  tally (attempt p) whole (fun r whole' => exists r' log', r = Ok r' /\ Q r' log' /\ (log' <> [] -> whole' <> []) /\ (whole <> [] -> whole' <> [])).
Proof.
  revert whole. tally_induction p log; intros whole Hp Hin; cbn [tally attempt]; try (intros; by eapply IH).
  - eauto 10.
  - eauto 10.
  - done.
  - destruct Hp as [H1 H2]. split; [|intros; by eapply IH]. intros x. eapply tally_mono; [by eapply IH|].
    intros r whole' (r' & log' & -> & HQ & Hl & Hw). exists r', log'. split_and!; [done..|]. intros _. by apply Hw.
Qed.

Definition reports_any (r : res (list (res bool) * option exc)) (log : list string) : Prop :=
  forall results, r = Ok results -> Ok true ∈ results.1 -> log <> [].

Lemma tally_children (children : list (cprog bool)) whole :
  (forall p, p ∈ children -> exists log, tally p log reports_saves /\ (log <> [] -> whole <> [])) ->
  tally (for_each attempt children) whole (fun r whole' => (whole <> [] -> whole' <> []) /\ forall results, r = Ok results -> Ok true ∈ results -> whole' <> []).
Proof.
  revert whole. induction children as [|p children IH]; intros whole Hch; cbn [for_each].
  { split; [done|]. by intros results [= <-] ?%not_elem_of_nil. }
  destruct (Hch p ltac:(by left)) as (log & Hp & Hin). apply tally_bind. eapply tally_mono; [exact (tally_child _ _ _ _ Hp Hin)|].
  intros r whole1 (b & log1 & -> & Hb & H1 & Hw1). apply tally_bind. eapply tally_mono.
  { apply IH. intros q Hq. destruct (Hch q ltac:(by right)) as (log2 & Hq2 & Hin2). exists log2. eauto. }
  intros [results|e] whole2 [Hw2 H2]; (split; [by auto|]); [|done].
  intros results' [= <-] [Hb'|Hin']%elem_of_cons; [subst b; by apply Hw2, H1, Hb|by eapply H2].
Qed.

Lemma tally_interleave schedule (children : list (cprog bool)) failed whole :
  (forall p, p ∈ children -> exists log, tally p log reports_saves /\ (log <> [] -> whole <> [])) ->
  tally (interleave schedule children failed) whole reports_any.
Proof.
  revert children failed whole. induction schedule as [|i schedule IH]; intros children failed whole Hch; cbn [interleave].
  { apply tally_bind. eapply tally_mono; [by apply tally_children|]. intros [results|e] whole' [_ H]; [|done].
    intros results' [= <-]. by apply H. }
  destruct (children !! i) as [[a|e|o k]|] eqn:Hi; [by apply IH..| |by apply IH].
  destruct (Hch (Vis o k)) as (log & Hp & Hin); [by eapply list_elem_of_lookup_2|].
  assert (forall r whole' log', tally (k r) log' reports_saves -> (log' <> [] -> whole' <> []) -> (whole <> [] -> whole' <> []) ->
    tally (interleave schedule (<[i:=k r]> children) (note_failure failed (k r))) whole' reports_any) as Hnext.
  { intros r whole' log' Hk Hin' Hw. apply IH. intros p (j & Hj)%list_elem_of_lookup. apply list_lookup_insert_Some in Hj as [(_ & <- & _)|[_ Hj]].
    - by exists log'.
    - destruct (Hch p) as (log2 & Hp2 & Hin2); [by eapply list_elem_of_lookup_2|]. exists log2. auto. }
  destruct o; cbn [tally] in *; try (intros r; by eapply Hnext); [done|]. destruct Hp as [H1 H2].
  split; [intros x; by eapply Hnext|intros e; by eapply Hnext].
Qed.

Lemma map_res_id_true (results : list (res bool)) l : map_res id results = Ok l -> existsb id l = true -> Ok true ∈ results.
Proof.
  intros Hl%map_res_ok (b & Hb%list_elem_of_In & Ht)%existsb_exists. unfold id in Ht. subst b.
  apply list_elem_of_lookup in Hb as (i & Hi). destruct (Forall2_lookup_r _ _ _ _ _ Hl Hi) as (r & Hr & Hid).
  unfold id in Hid. subst r. by eapply list_elem_of_lookup_2.
Qed.

Lemma tally_gather schedule (children : list (cprog bool)) :
  (forall p, p ∈ children -> reports p) ->
  tally (gather schedule children) [] (fun r log => forall started, r = Ok started -> existsb id started = true -> log <> []).
Proof.
  intros Hch. apply tally_bind. eapply tally_mono; [apply tally_interleave; intros p Hp; exists []; by split; [apply Hch|]|].
  intros [[results [e|]]|e] log Hlog; cbn; try done. destruct (map_res id results) as [l|e] eqn:Hl; cbn; [|done].
  intros started [= <-] Ht. eapply Hlog; [done|]. by eapply map_res_id_true.
Qed.

Section saving.
Context (cfg : CoordinatorConfig).

Lemma once_start_claimed_attempt step now claim : once (Step_id step) (start_claimed_attempt step now claim).
Proof. unfold start_claimed_attempt, create_run_with_stale_retry, start_run_with_stale_retry. solve_once. Qed.

Lemma once_barrier_failed step satisfied now claim : once (Step_id step) (barrier_failed step satisfied now claim).
Proof. unfold barrier_failed. solve_once. Qed.

Lemma once_barrier_absent step now claim : once (Step_id step) (barrier_absent step now claim).
Proof. unfold barrier_absent. solve_once. Qed.

Lemma once_barrier_progress step satisfied now claim : once (Step_id step) (barrier_progress step satisfied now claim).
Proof.
  unfold barrier_progress. do 3 once_step.
  match goal with |- once (Step_id ?x) _ => eapply (once_silent _ (fun next => Step_id next.1 = Step_id x)) end.
  - destruct (same_set _ _); [|by apply silent_ret]. eapply silent_seq; [apply silent_transition|]. intros ready Hready.
    eapply silent_seq; [apply quiet_checked|]. intros updated' _. by apply silent_ret.
  - intros next <-. solve_once.
Qed.

Lemma once_activate_claimed_retry step now claim : once (Step_id step) (activate_claimed_retry step now claim).
Proof. unfold activate_claimed_retry. solve_once. Qed.
#[local] Hint Resolve once_start_claimed_attempt once_barrier_failed once_barrier_absent once_barrier_progress once_activate_claimed_retry : once.

Lemma once_start_attempt step now : once (Step_id step) (start_attempt cfg step now).
Proof. unfold start_attempt. solve_once. Qed.

Lemma once_advance_record steps now record : once (record_step_id record) (advance_record cfg steps now record).
Proof.
  unfold advance_record. eapply (once_silent _ (fun x => Step_id x = record_step_id record)).
  - apply silent_lift. intros x. destruct (find_step _ _) as [x'|] eqn:Hx; [|done]. intros [= <-]. by apply find_step_some in Hx as [_ ?].
  - intros x <-. destruct (record_phase record); try apply once_false; unfold refresh_dependencies, activate_retry; solve_once.
Qed.

(** *** The scan of a round *)

(** A loop over records with distinct steps saves each of them at most once, and tells whether it saved any. *)
Definition scanned (records : list StepCoordinationRecord) (r : res (list bool)) (log : list string) : Prop :=
  NoDup log /\ (forall sid, sid ∈ log -> sid ∈ map record_step_id records) /\
  forall progress, r = Ok progress -> existsb id progress = true -> log <> [].

Lemma tally_scan steps now records :
  NoDup (map record_step_id records) -> tally (for_each (advance_record cfg steps now) records) [] (scanned records).
Proof.
  induction records as [|record records IH]; cbn [for_each map]; intros Hnd.
  { cbn. split_and!; [constructor|done|by intros ? [= <-]]. }
  apply NoDup_cons in Hnd as [Hnew Hnd]. apply tally_bind. eapply tally_mono; [apply once_advance_record|].
  intros r log Hlog. assert (NoDup log /\ forall sid, sid ∈ log -> sid = record_step_id record) as [Hone Hin].
  { destruct Hlog as [[-> _]| ->]; (split; [repeat constructor; by intros ?%not_elem_of_nil|]); set_solver. }
  destruct r as [b|e]; [|split_and!; [done|set_solver|done]].
  apply tally_bind. eapply tally_mono; [exact (tally_frame _ [] log _ (IH Hnd))|]. intros r log' (log0 & -> & Hnd0 & Hin0 & Hrep).
  assert (NoDup (log0 ++ log) /\ forall sid, sid ∈ log0 ++ log -> sid ∈ record_step_id record :: map record_step_id records) as [H1 H2].
  { split; [apply NoDup_app; split_and!; [done| |done]|]; set_solver. }
  destruct r as [progress|e]; [|split_and!; done]. cbn. split_and!; [done..|]. intros p [= <-]. cbn.
  intros Hp Hnil. apply app_nil in Hnil as [-> ->]. destruct Hlog as [[_ Hb]|]; [|done].
  apply orb_true_iff in Hp as [->|Hp]; [done|]. by apply (Hrep progress).
Qed.

(** *** The dispatch of a round *)

Lemma plain_retire_superseded_plan plan_id superseded_by now : plain (retire_superseded_plan cfg plan_id superseded_by now).
Proof.
  unfold retire_superseded_plan, retire_step, retire_claimed_step, retired_step_state, retired_active_step, retired_idle_step, transition, plan_step.
  solve_plain.
Qed.

Lemma plain_retire_if_superseded state now : plain (retire_if_superseded cfg state now).
Proof.
  unfold retire_if_superseded. repeat first [apply plain_retire_superseded_plan|plain_step].
Qed.

Lemma reports_start step record now : reports (start_attempt_unless_superseded cfg step record now).
Proof.
  unfold start_attempt_unless_superseded. apply reports_quiet; [solve_quiet|]. intros task. destruct (negb _).
  - apply reports_quiet; [solve_quiet|]. intros state. apply reports_plain_false, plain_retire_superseded_plan.
  - apply reports_catch; [eapply once_reports, once_start_attempt|]. intros e. destruct (negb _); [done|].
    apply reports_quiet; [solve_quiet|]. intros refreshed. destruct (bool_decide _); [done|].
    apply reports_quiet; [solve_quiet|]. intros state. apply reports_plain_false, plain_retire_superseded_plan.
Qed.

(** The second half of [advance_round]. *)
Definition dispatch (plan_id : string) (now : datetime) (progress : list bool) : cprog bool :=
  refreshed ← ccall (GetSnapshot plan_id);
  let ready := List.filter (fun r => is_phase (record_phase r) PH_READY) refreshed.2 in
  if bool_decide (ready = []) then Ret (existsb id progress)
  else
    children ← lift (map_res (fun r => match find_step (record_step_id r) (state_steps refreshed.1) with
                                       | Some s => Ok (start_attempt_unless_superseded cfg s r now)
                                       | None => Err (KeyError (record_step_id r)) end) ready);
    schedule ← ccall Schedule;
    started ← gather schedule children;
    Ret (existsb id started || existsb id progress).

Lemma tally_dispatch plan_id now progress :
  tally (dispatch plan_id now progress) [] (fun r log => r = Ok true -> existsb id progress = true \/ log <> []).
Proof.
  unfold dispatch. eapply tally_silent; [exact (quiet_call (GetSnapshot _) eq_refl)| |done]. intros refreshed _. cbn zeta.
  destruct (bool_decide _). { cbn. intros [= ->]. by left. }
  eapply tally_silent; [exact (silent_lift _ _ (fun a H => H))| |done]. cbv beta. intros children Hch.
  eapply tally_silent; [exact (quiet_call Schedule eq_refl)| |done]. intros schedule _.
  apply tally_bind. eapply tally_mono.
  - apply tally_gather. intros p Hp. destruct (map_res_in _ _ _ _ Hch Hp) as (r & _ & Hr). destruct (find_step _ _); [|done].
    injection Hr as <-. apply reports_start.
  - intros [started|e] log Hs; [|done]. cbn. intros [= Ht]. apply orb_true_iff in Ht as [Ht|Ht]; [right; by apply (Hs started)|by left].
Qed.
End saving.

(** ** One coroutine alone *)

Section execution.
Context (E : coordination_env) (plan_of : string -> string)
  (allowed : StepCoordinationRecord -> StepCoordinationRecord -> Prop).

(** What a sequence of allowed saves, latest first, makes of the records. *)
Inductive saves (m : gmap string StepCoordinationRecord) : list string -> gmap string StepCoordinationRecord -> Prop :=
| Saves_none : saves m [] m
| Saves_one sid log m' r r' n t :
    saves m log m' -> m' !! sid = Some r -> allowed r r' -> saves m (sid :: log) (<[sid := set_revision n (set_updated_at t r')]> m').

Lemma perform_records o w :
  store_ok plan_of (w_store w) -> writes o = false -> store_records (w_store (perform E o w).2) = store_records (w_store w).
Proof.
  intros Hok Ho. destruct w as [s n log]. cbn [w_store] in *. destruct o; try done; cbn [perform]; rewrite on_store_snd; cbn [snd w_store w_clock].
  - by rewrite get_plan_run.
  - by rewrite get_snapshot_run.
  - by rewrite get_record_run.
  - by rewrite list_records_run.
  - by destruct (acquire_effect plan_of step_id owner_id ttl now (cenv_uuid E n) s Hok) as ((_ & ?) & _).
  - by destruct (release_effect plan_of claim s Hok) as ((_ & ?) & _).
  - by destruct (retire_effect plan_of plan_id superseded_by_plan_id reason retired_at s Hok) as ((_ & ?) & _).
  - by rewrite plan_retirement_run.
Qed.

Lemma perform_save own m log step record expected claim now w :
  let o := SaveStep step record expected claim now in
  store_ok plan_of (w_store w) -> op_pre plan_of allowed own (w_store w) o -> saves m log (store_records (w_store w)) ->
  match (perform E o w).1 with
  | Ok _ => saves m (Step_id step :: log) (store_records (w_store (perform E o w).2))
  | Err _ => saves m log (store_records (w_store (perform E o w).2))
  end.
Proof.
  intros o Hok (_ & Hid & Hpre) Hm. destruct w as [s n asked]. unfold o. cbn [w_store perform] in *. rewrite on_store_snd. cbn [fst snd w_store w_clock].
  unfold current_claim in Hpre. rewrite Hid in Hpre.
  destruct (save_step_effect plan_of s step record expected claim now Hok) as [[e ->]|(saved & s' & c & -> & (_ & _ & _ & _ & ->) & Hcl & Hc & Hrev & -> & _)]; cbn [fst snd].
  - intros Hcl c Hc Hrev. by destruct (Hpre Hcl c Hc Hrev).
  - done.
  - destruct (Hpre Hcl c Hc Hrev) as [_ Hallowed]. destruct c as [x r]. apply cell_at_some in Hc as [Hr _]. by eapply Saves_one.
Qed.

(** A lawful coroutine alone makes exactly the saves that it counts, each of them allowed. *)
Lemma execution_saves {A} (p : cprog A) w own K Q T log m :
  store_ok plan_of (w_store w) -> knows own K (w_store w) -> lawful E plan_of allowed p own K Q -> tally p log T ->
  saves m log (store_records (w_store w)) ->
  exists log', T (execute (perform E) p w).1 log' /\ store_ok plan_of (w_store (execute (perform E) p w).2) /\
    saves m log' (store_records (w_store (execute (perform E) p w).2)).
Proof.
  revert w own K log. induction p as [a|e|o k IH]; intros w own K log Hok HK Hp Ht Hm; [by exists log..|].
  destruct Hp as [Hpre Hnext]. specialize (Hpre _ Hok HK). specialize (Hnext _ w Hok HK eq_refl).
  destruct (perform_effect E plan_of allowed own K o w Hok HK Hpre) as [Hok' _ HK' _]. cbn [execute].
  assert (forall log', tally (k (perform E o w).1) log' T -> saves m log' (store_records (w_store (perform E o w).2)) ->
    let out := (let '(r, w') := perform E o w in execute (perform E) (k r) w') in
    exists log2, T out.1 log2 /\ store_ok plan_of (w_store out.2) /\ saves m log2 (store_records (w_store out.2))) as Hgo.
  { intros log' Ht' Hm'. destruct (perform E o w) as [r w'] eqn:Ho. cbn [fst snd] in *. by eapply IH. }
  destruct (writes o) eqn:Hw.
  - destruct o; try done. destruct Ht as [H1 H2].
    pose proof (perform_save own m log step record expected_revision claim now w Hok Hpre Hm) as Hs.
    destruct (perform E _ w).1 as [x|e] eqn:Hr; apply (Hgo _ ltac:(eauto) Hs).
  - apply (Hgo log); [destruct o; try done; apply Ht|by rewrite perform_records].
Qed.
End execution.

(** ** What a round weighs *)

Lemma filter_length_le (P Q : string -> bool) l :
  (forall d, d ∈ l -> P d = true -> Q d = true) -> length (List.filter P l) <= length (List.filter Q l).
Proof.
  induction l as [|d l IH]; intros H; [done|]. cbn.
  assert (length (List.filter P l) <= length (List.filter Q l)) by (apply IH; intros e He; apply H; by right).
  specialize (H d (list_elem_of_here d l)). destruct (P d), (Q d); cbn; lia.
Qed.

Lemma filter_length_lt (P Q : string -> bool) l d :
  (forall e, e ∈ l -> P e = true -> Q e = true) -> d ∈ l -> P d = false -> Q d = true -> length (List.filter P l) < length (List.filter Q l).
Proof.
  intros H Hd HP HQ. apply list_elem_of_split in Hd as (l1 & l2 & ->). rewrite !List.filter_app, !length_app. cbn. rewrite HP, HQ. cbn.
  pose proof (filter_length_le P Q l1 ltac:(set_solver)). pose proof (filter_length_le P Q l2 ltac:(set_solver)). lia.
Qed.

Lemma saves_lighter m log m' : saves lighter m log m' -> records_weight m' + length log <= records_weight m.
Proof.
  induction 1 as [|sid log m' r r' n t _ IH Hr Hl]; cbn; [lia|].
  pose proof (records_weight_insert m' sid r (set_revision n (set_updated_at t r')) Hr) as Hw. unfold lighter in Hl.
  change (record_weight (set_revision n (set_updated_at t r'))) with (record_weight r') in Hw. lia.
Qed.

(** Saves of distinct records that are as they were in a snapshot. *)
Lemma saves_snapshot recs m log m' :
  (forall r, r ∈ recs -> m !! record_step_id r = Some r) -> NoDup log -> (forall sid, sid ∈ log -> sid ∈ map record_step_id recs) ->
  saves (fun r r' => r ∈ recs -> lighter r r') m log m' ->
  records_weight m' + length log <= records_weight m /\ forall sid, sid ∉ log -> m' !! sid = m !! sid.
Proof.
  intros Hrecs Hnd Hin Hs. induction Hs as [|sid log m' r r' n t _ IH Hr Hl]; cbn; [by split; [lia|]|].
  apply NoDup_cons in Hnd as [Hnew Hnd]. destruct (IH Hnd ltac:(set_solver)) as [Hw Hold].
  assert (r ∈ recs) as Hrin.
  { destruct (proj1 (list_elem_of_fmap _ _ _) (Hin sid ltac:(by left))) as (r0 & -> & Hr0).
    rewrite Hold, (Hrecs _ Hr0) in Hr by done. by injection Hr as <-. }
  specialize (Hl Hrin). pose proof (records_weight_insert m' sid r (set_revision n (set_updated_at t r')) Hr) as Hwi. unfold lighter in Hl.
  change (record_weight (set_revision n (set_updated_at t r'))) with (record_weight r') in Hwi. split; [lia|].
  intros sid' [Hne Hn]%not_elem_of_cons. rewrite lookup_insert_ne by done. auto.
Qed.

Section snapshot.
Context (plan_of : string -> string) (s : CoordinatorStore) (Hok : store_ok plan_of s) (plan_id : string) (P : PlanRuntimeState).
Context (HP : store_plans s !! plan_id = Some P).
Abbreviation recs := (plan_records plan_id s).

Lemma plan_records_stored r : r ∈ recs -> store_records s !! record_step_id r = Some r.
Proof. intros Hr. by destruct (plan_records_in plan_of s Hok _ _ Hr). Qed.

Lemma NoDup_plan_records : NoDup (map record_step_id recs).
Proof.
  assert (forall keys, NoDup keys ->
    NoDup (map record_step_id (List.filter (fun r => String.eqb (record_plan_id r) plan_id) (omap (fun k => store_records s !! k) keys)))) as H.
  { induction keys as [|k keys IH]; [constructor|]. intros [Hk Hnd]%NoDup_cons. cbn.
    destruct (store_records s !! k) as [r|] eqn:Hr; [|by apply IH]. cbn. destruct (String.eqb _ _); [|by apply IH]. cbn.
    apply NoDup_cons. split; [|by apply IH]. destruct (ok_record _ _ Hok _ _ Hr) as [-> _]. intros (r' & Hid & Hin)%list_elem_of_fmap.
    apply list_elem_of_In, List.filter_In in Hin as [Hin _]. apply list_elem_of_In, list_elem_of_omap in Hin as (k' & Hk' & Hr').
    destruct (ok_record _ _ Hok _ _ Hr') as [Hid' _]. congruence. }
  apply H. rewrite sort_strs_perm. apply NoDup_fst_map_to_list.
Qed.

(** A dependency that a record counts as satisfied has succeeded in the snapshot. *)
Lemma satisfied_in_snapshot record d :
  record ∈ recs -> d ∈ record_satisfied_dependency_ids record ->
  d ∈ record_dependency_ids record /\ exists y, find_step d (state_steps P) = Some y /\ Step_status y = S_SUCCEEDED.
Proof.
  intros Hrec Hd. destruct (plan_records_in plan_of s Hok _ _ Hrec) as [Hr Hplan].
  assert (d ∈ record_dependency_ids record) as Hdep.
  { pose proof (ok_valid _ _ Hok _ _ Hr) as Hv. unfold StepCoordinationRecord_post_init in Hv. res_inv. bool_props.
    match goal with H : subset_of _ _ = true |- _ => rewrite subset_of_spec in H; by apply H end. }
  split; [done|]. destruct (ok_record _ _ Hok _ _ Hr) as (_ & _ & [[x r] Hc]). pose proof Hc as Hc'. apply cell_at_some in Hc' as [Hr' _].
  rewrite Hr in Hr'. injection Hr' as <-. destruct (cell_plan _ _ _ _ _ Hok Hc) as (P' & HP' & Hx & Hid & _).
  rewrite Hplan, HP in HP'. injection HP' as <-.
  destruct (ok_step _ _ Hok _ _ _ HP Hx) as (Hdeps & r1 & Hr1 & _ & _ & Hd1). rewrite Hid, Hr in Hr1. injection Hr1 as <-. rewrite Hd1 in Hdep.
  apply Hdeps, list_elem_of_fmap in Hdep as (y & -> & Hy). exists y.
  destruct (ok_plan _ _ Hok _ _ HP) as [_ Hinit]. apply state_post_init_ok in Hinit as (_ & _ & _ & Hnd & _).
  split; [by apply find_step_in|]. destruct (plan_cell _ _ Hok _ _ _ HP Hy) as (r2 & Hc2 & _).
  destruct (cell_satisfied _ _ (ok_cell _ _ Hok _ _ Hc) _ Hd) as (c & Hcd & Hs). rewrite Hc2 in Hcd. by injection Hcd as <-.
Qed.

(** The barrier of a blocked record of the snapshot makes it lighter. *)
Lemma barrier_lighter record items r r' :
  record ∈ recs -> record_phase record = PH_BLOCKED -> verdicts (state_steps P) (record_dependency_ids record) items ->
  barrier_change record items.1 r r' -> r ∈ recs -> lighter r r'.
Proof.
  intros Hrec Hphase (V1 & _ & V3) (Hid & Hdeps & Hch) Hr. assert (r = record) as ->.
  { apply plan_records_stored in Hr, Hrec. congruence. }
  unfold lighter, record_weight. rewrite Hphase. destruct Hch as [-> |[-> |(-> & Hsat & Hnew)]]; [lia..|]. rewrite Hphase, Hsat, Hdeps.
  destruct (decide (Exists (fun d => d ∉ record_satisfied_dependency_ids record) items.1)) as [(d & Hd & Hdn)%Exists_exists|Hnone].
  - apply Nat.add_lt_mono_l, (filter_length_lt _ _ _ d).
    + intros e He. rewrite !negb_true_iff, <- !not_true_iff_false, !in_strs_true. intros Hn Hs. apply Hn.
      destruct (satisfied_in_snapshot _ _ Hrec Hs) as (_ & y & Hy & Hys). by eapply V3.
    + by destruct (V1 d Hd).
    + rewrite negb_false_iff. by apply in_strs_true.
    + rewrite negb_true_iff, <- not_true_iff_false. by rewrite in_strs_true.
  - exfalso. assert (same_set items.1 (record_satisfied_dependency_ids record) = true) as Hsame; [|congruence]. apply same_set_spec.
    intros d. split; [intros Hd; destruct (decide (d ∈ record_satisfied_dependency_ids record)); [done|]; exfalso; apply Hnone, Exists_exists; eauto|].
    intros Hd. destruct (satisfied_in_snapshot _ _ Hrec Hd) as (Hdep & y & Hy & Hys). by eapply V3.
Qed.
End snapshot.

(** ** The loop *)

Section rounds.
Context (E : coordination_env) (plan_of : string -> string) (cfg : CoordinatorConfig).
Abbreviation run := (execute (perform E)).

Lemma run_call (o : cop) w : run (ccall o) w = perform E o w.
Proof. apply execute_call. Qed.

Lemma knows_nothing_yet s : knows [] knows_nothing s.
Proof. split; cbn; intros; by match goal with H : _ ∈ [] |- _ => apply not_elem_of_nil in H end. Qed.

(** A steady coroutine whose saves make records lighter. *)
Lemma steady_run_lighter {A} (p : cprog A) T w :
  store_ok plan_of (w_store w) -> steady E plan_of lighter p -> tally p [] T ->
  store_ok plan_of (w_store (run p w).2) /\
  exists log, T (run p w).1 log /\ store_weight (w_store (run p w).2) + length log <= store_weight (w_store w).
Proof.
  intros Hok Hp Ht.
  destruct (execution_saves E plan_of lighter p w [] knows_nothing _ T [] _ Hok (knows_nothing_yet _) (Hp _ _) Ht (Saves_none _ _))
    as (log & HT & Hok' & Hs). split; [done|]. exists log. split; [done|]. exact (saves_lighter _ _ _ Hs).
Qed.

(** The first half of a round: the records of the snapshot, one after the other. *)
Lemma scan_lighter plan_id now P w :
  store_ok plan_of (w_store w) -> store_plans (w_store w) !! plan_id = Some P ->
  let out := run (for_each (advance_record cfg (state_steps P) now) (plan_records plan_id (w_store w))) w in
  store_ok plan_of (w_store out.2) /\ store_weight (w_store out.2) <= store_weight (w_store w) /\
  forall progress, out.1 = Ok progress -> existsb id progress = true -> store_weight (w_store out.2) < store_weight (w_store w).
Proof.
  intros Hok HP out. set (recs := plan_records plan_id (w_store w)) in *.
  destruct (execution_saves E plan_of (fun r r' => r ∈ recs -> lighter r r') (for_each (advance_record cfg (state_steps P) now) recs) w
              [] (Knowledge [P] (recs ++ []) [] []) (fun _ _ _ => True) (scanned recs) [] (store_records (w_store w)) Hok) as (log & (Hnd & Hin & Hrep) & Hok' & Hs).
  - apply (knows_more [] knows_nothing _ [P] recs [] []); try (intros ? ? []%not_elem_of_nil); [apply knows_nothing_yet| |].
    + intros P' ->%list_elem_of_singleton. by eapply saw_plan_now.
    + intros r Hr. eapply saw_record_now; [done|]. by eapply plan_records_stored.
  - apply lawful_for_each. intros record own K Hrec HK. apply lawful_advance_record; [..|apply HK; by left|apply HK, elem_of_app; by left].
    + intros Hphase items r r' Hv Hch. by eapply barrier_lighter.
    + intros r r' H1 H2 _. unfold lighter, record_weight. rewrite H1, H2. lia.
  - apply tally_scan. by eapply NoDup_plan_records.
  - apply Saves_none.
  - fold out in Hok', Hs, Hrep. split; [done|].
    destruct (saves_snapshot recs _ _ _ (plan_records_stored _ _ Hok plan_id) Hnd Hin Hs) as [Hw _].
    split; [unfold store_weight; lia|]. intros progress Ho Hp. specialize (Hrep _ Ho Hp). unfold store_weight. destruct log; [done|cbn in Hw; lia].
Qed.

Lemma steady_dispatch plan_id now progress : steady E plan_of lighter (dispatch cfg plan_id now progress).
Proof.
  unfold dispatch. apply steady_seq; [by apply steady_call|]. intros [P recs]. cbn zeta.
  destruct (bool_decide _); [apply steady_ret|]. intros own K. apply lawful_lift. intros children Hch.
  generalize own K. apply steady_seq; [by apply steady_call|]. intros schedule. apply steady_seq; [|intros; apply steady_ret].
  apply steady_gather. intros p Hp. destruct (map_res_in _ _ _ _ Hch Hp) as (r & _ & Hr). destruct (find_step _ _); [|done].
  injection Hr as <-. apply steady_start_attempt_unless_superseded; [exact lighter_start|exact lighter_end].
Qed.

(** A round keeps the repository consistent and no heavier; one that made progress makes it lighter. *)
Lemma round_lighter plan_id now w :
  store_ok plan_of (w_store w) ->
  let out := run (advance_round cfg plan_id now) w in
  store_ok plan_of (w_store out.2) /\ store_weight (w_store out.2) <= store_weight (w_store w) /\
  (out.1 = Ok true -> store_weight (w_store out.2) < store_weight (w_store w)).
Proof.
  intros Hok. cbn zeta.
  change (advance_round cfg plan_id now) with
    (ccall (GetSnapshot plan_id) ≫= fun snapshot => for_each (advance_record cfg (state_steps snapshot.1) now) snapshot.2 ≫= dispatch cfg plan_id now).
  rewrite execute_bind, (run_call (GetSnapshot plan_id)). cbn [perform]. unfold on_store. rewrite get_snapshot_run.
  destruct (store_plans (w_store w) !! plan_id) as [P|] eqn:HP; [|by cbn; split_and!; [done|lia|]].
  set (w1 := Build_cworld (w_store w) _ _). change (w_store w) with (w_store w1) in Hok, HP. rewrite execute_bind. cbn [fst snd].
  change (w_store w) with (w_store w1) at 1 2. destruct (scan_lighter plan_id now P w1 Hok HP) as (Hok2 & Hle2 & Hlt2).
  change (plan_records plan_id (w_store w)) with (plan_records plan_id (w_store w1)).
  destruct (run (for_each _ _) w1) as [[progress|e] w2]; cbn [fst snd] in *; [|by split_and!].
  destruct (steady_run_lighter (dispatch cfg plan_id now progress) _ w2 Hok2 (steady_dispatch _ _ _) (tally_dispatch _ _ _ _)) as (Hok3 & log & Hrep & Hw).
  change (store_weight (w_store w)) with (store_weight (w_store w1)). split_and!; [done|lia|].
  intros Ho. destruct (Hrep Ho) as [Hp|Hne]; [specialize (Hlt2 _ eq_refl Hp)|destruct log; [done|cbn [length] in Hw; lia]]. lia.
Qed.

(** The [while] loop as it is written, without a bound on its rounds. *)
Inductive loop_ends (plan_id : string) (now : datetime) : cworld -> res unit * cworld -> Prop :=
| Loop_raises w e w' : run (advance_round cfg plan_id now) w = (Err e, w') -> loop_ends plan_id now w (Err e, w')
| Loop_done w w' : run (advance_round cfg plan_id now) w = (Ok false, w') -> loop_ends plan_id now w (Ok tt, w')
| Loop_again w w' out :
    run (advance_round cfg plan_id now) w = (Ok true, w') -> loop_ends plan_id now w' out -> loop_ends plan_id now w out.

(** Whatever the fuel, as long as it exceeds the weight of the repository, [p] ends in the same way. *)
Definition settles {A} (p : nat -> cprog A) (w : cworld) (out : res A * cworld) : Prop :=
  store_ok plan_of (w_store out.2) /\ store_weight (w_store out.2) <= store_weight (w_store w) /\
  forall fuel, store_weight (w_store w) < fuel -> run (p fuel) w = out.

Lemma loop_settles plan_id now w :
  store_ok plan_of (w_store w) ->
  exists out, loop_ends plan_id now w out /\ settles (fun rounds => advance_loop cfg rounds plan_id now) w out.
Proof.
  remember (store_weight (w_store w)) as n eqn:Hn. revert w Hn. induction (lt_wf n) as [n _ IH]. intros w -> Hok.
  destruct (round_lighter plan_id now w Hok) as (Hok' & Hle & Hlt).
  destruct (run (advance_round cfg plan_id now) w) as [r w'] eqn:Hround. cbn [fst snd] in *.
  assert (forall rounds, run (advance_loop cfg (S rounds) plan_id now) w =
            match r with Ok true => run (advance_loop cfg rounds plan_id now) w' | Ok false => (Ok tt, w') | Err e => (Err e, w') end) as Hstep.
  { intros rounds. cbn [advance_loop]. rewrite execute_bind, Hround. by destruct r as [[]|]. }
  assert (r <> Ok true -> forall out, out = (match r with Ok _ => Ok tt | Err e => Err e end, w') ->
            settles (fun rounds => advance_loop cfg rounds plan_id now) w out) as Hlast.
  { intros Hr out ->. split_and!; [done..|]. intros [|rounds] Hf; [lia|]. rewrite Hstep. by destruct r as [[]|]. }
  destruct r as [[]|e].
  - destruct (IH _ (Hlt eq_refl) w' eq_refl Hok') as (out & Hends & Hok2 & Hle2 & Hrun). exists out. specialize (Hlt eq_refl).
    split; [by eapply Loop_again|]. split_and!; [done|lia|]. intros [|rounds] Hf; [lia|]. rewrite Hstep. apply Hrun. lia.
  - eexists. split; [by apply Loop_done|by apply Hlast].
  - eexists. split; [by apply Loop_raises|by apply Hlast].
Qed.

(** Sequences of coroutines that settle. *)
Lemma settles_bind {A B} (p : nat -> cprog A) (f : A -> nat -> cprog B) w out :
  settles p w out ->
  (forall a w', store_ok plan_of (w_store w') -> exists out', settles (f a) w' out') ->
  exists out', settles (fun fuel => p fuel ≫= fun a => f a fuel) w out'.
Proof.
  intros (Hok & Hle & Hrun) Hf. destruct out as [[a|e] w']; cbn [fst snd] in *.
  - destruct (Hf a w' Hok) as (out' & Hok' & Hle' & Hrun'). exists out'. split_and!; [done|lia|]. intros fuel Hfuel.
    rewrite execute_bind, Hrun by done. apply Hrun'. lia.
  - exists (Err e, w'). split_and!; [done..|]. intros fuel Hfuel. by rewrite execute_bind, Hrun.
Qed.

Lemma steady_settles {A} (p : cprog A) w :
  steady E plan_of lighter p -> plain p -> store_ok plan_of (w_store w) -> exists out, settles (fun _ => p) w out.
Proof.
  intros Hp Ht Hok. exists (run p w). destruct (steady_run_lighter p _ w Hok Hp Ht) as (Hok' & log & _ & Hw).
  split_and!; [done|lia|done].
Qed.

Lemma settles_seq {A B} (p : cprog A) (f : A -> nat -> cprog B) w :
  steady E plan_of lighter p -> plain p -> store_ok plan_of (w_store w) ->
  (forall a w', store_ok plan_of (w_store w') -> exists out', settles (f a) w' out') ->
  exists out', settles (fun fuel => p ≫= fun a => f a fuel) w out'.
Proof. intros Hp Ht Hok Hf. destruct (steady_settles p w Hp Ht Hok) as (out & Hout). by eapply (settles_bind (fun _ => p)). Qed.

Lemma plain_coordinator_now now : plain (coordinator_now now).
Proof. unfold coordinator_now. solve_plain. Qed.
Lemma plain_aggregate_task plan_id : plain (aggregate_task plan_id).
Proof. unfold aggregate_task. solve_plain. Qed.
Lemma plain_async_projection plan_id : plain (async_projection plan_id).
Proof. unfold async_projection. solve_plain. Qed.

Lemma base_advance_settles plan_id now w :
  store_ok plan_of (w_store w) -> exists out, settles (fun fuel => base_advance cfg fuel plan_id now) w out.
Proof.
  intros Hok. unfold base_advance. apply settles_seq; [apply steady_coordinator_now|apply plain_coordinator_now|done|]. intros t w1 Hok1.
  destruct (loop_settles plan_id t w1 Hok1) as (out & _ & Hout). eapply (settles_bind (fun rounds => advance_loop cfg rounds plan_id t)); [done|].
  intros _ w2 Hok2. apply settles_seq; [apply steady_aggregate_task|apply plain_aggregate_task|done|]. intros _ w3 Hok3.
  apply steady_settles; [apply steady_async_projection|apply plain_async_projection|done].
Qed.

Lemma advance_settles plan_id now w :
  store_ok plan_of (w_store w) -> exists out, settles (fun fuel => advance cfg fuel plan_id now) w out.
Proof.
  assert (forall state t, steady E plan_of lighter (retire_if_superseded cfg state t)) as Hretire.
  { intros. apply steady_retire_if_superseded. exact lighter_end. }
  intros Hok. unfold advance. apply settles_seq; [apply steady_coordinator_now|apply plain_coordinator_now|done|]. intros t w1 Hok1.
  apply settles_seq; [by apply steady_call|exact (plain_quiet _ (quiet_call (GetPlan _) eq_refl))|done|]. intros state w2 Hok2.
  apply settles_seq; [apply Hretire|apply plain_retire_if_superseded|done|]. intros [] w3 Hok3.
  { apply steady_settles; [apply steady_async_projection|apply plain_async_projection|done]. }
  destruct (base_advance_settles plan_id (Some t) w3 Hok3) as (out & Hout).
  eapply (settles_bind (fun fuel => base_advance cfg fuel plan_id (Some t))); [done|]. intros result w4 Hok4.
  apply settles_seq; [by apply steady_call|exact (plain_quiet _ (quiet_call (GetPlan _) eq_refl))|done|]. intros state' w5 Hok5.
  apply settles_seq; [apply Hretire|apply plain_retire_if_superseded|done|]. intros retired w6 Hok6.
  apply steady_settles; [destruct retired; [apply steady_async_projection|apply steady_ret]| |done].
  destruct retired; [apply plain_async_projection|done].
Qed.

End rounds.

(** C7. Advancing a plan terminates: alone on a consistent repository, the [while] loop of [advance] ends (it
    finishes, or raises) after at most as many rounds as the repository weighs, since a round that reports
    progress has saved a record and every save makes the record of its step lighter; so with any larger
    number of rounds [advance] has the same result and leaves the same world. *)
Theorem advance_terminates E plan_of cfg plan_id now w :
  store_ok plan_of (w_store w) ->
  (forall t, exists out, loop_ends E cfg plan_id t w out /\
     forall rounds, store_weight (w_store w) < rounds -> execute (perform E) (advance_loop cfg rounds plan_id t) w = out) /\
  exists out, forall fuel, store_weight (w_store w) < fuel -> execute (perform E) (advance cfg fuel plan_id now) w = out.
Proof.
  intros Hok. split.
  - intros t. destruct (loop_settles E plan_of cfg plan_id t w Hok) as (out & Hends & _ & _ & Hrun). eauto.
  - destruct (advance_settles E plan_of cfg plan_id now w Hok) as (out & _ & _ & Hrun). eauto.
Qed.
