(* ===== verification/Leadership.v ===== *)
(** * The leadership of the control plane: distributed/control_plane_ha.py and reference.py

    An optional active/passive deployment runs several control planes, of which one leads. A coordination
    provider grants a lease with a fencing token, whose epoch grows with each election; only the provider
    decides whether a token is current. [CoordinationProvider] is what a provider promises, and
    [InMemoryCoordinationProvider] the implementation of high_availability/reference.py. *)

From S2P Require Import Prelude Errors StateMonad PyTime.

(** ** Contracts *)

Inductive AvailabilityMode := SINGLE_NODE | WARM_STANDBY | ACTIVE_PASSIVE.
Inductive ControlPlaneRole := CP_ACTIVE | CP_STANDBY | CP_PROMOTING | CP_FENCED.

#[export] Instance AvailabilityMode_eq_dec : EqDecision AvailabilityMode.
Proof. solve_decision. Defined.
#[export] Instance ControlPlaneRole_eq_dec : EqDecision ControlPlaneRole.
Proof. solve_decision. Defined.

(** A leadership generation bound to one instance. *)
Record FencingToken := Build_FencingToken { token_instance_id : string; token_epoch : Z }.

#[export] Instance FencingToken_eq_dec : EqDecision FencingToken.
Proof. solve_decision. Defined.

Definition FencingToken_post_init (t : FencingToken) : res FencingToken :=
  _ ← require (negb (blank (token_instance_id t))) (ValueError "instance_id must not be blank");
  _ ← require (0 <? token_epoch t)%Z (ValueError "fencing epoch must be positive");
  Ok t.

Record CoordinationLease := Build_CoordinationLease {
  lease_token : FencingToken;
  lease_acquired_at : datetime;
  lease_expires_at : datetime
}.

Definition CoordinationLease_post_init (l : CoordinationLease) : res CoordinationLease :=
  _ ← require (dt_ltb (lease_acquired_at l) (lease_expires_at l)) (ValueError "lease expiry must be after acquisition");
  Ok l.

Record CoordinationState := Build_CoordinationState {
  leader_epoch : Z;
  leader_owner_instance_id : option string;
  leader_expires_at : option datetime;
  leader_available : bool
}.

Definition CoordinationState_post_init (s : CoordinationState) : res CoordinationState :=
  _ ← require (0 <=? leader_epoch s)%Z (ValueError "coordination epoch must not be negative");
  _ ← require (negb (bool_decide (leader_owner_instance_id s = None) && bool_decide (is_Some (leader_expires_at s))))
        (ValueError "leaderless coordination state cannot expose lease expiry");
  _ ← require (match leader_owner_instance_id s with Some o => negb (blank o) | None => true end)
        (ValueError "owner_instance_id must not be blank");
  Ok s.

(** ** What a provider promises *)

(** The epoch and the owner of record. An owner may be dropped at any time (it released its lease, or the lease
    expired); a new owner has a new epoch. *)
Abbreviation leadership := (Z * option string)%type.

Inductive lease_step : leadership -> leadership -> Prop :=
| Lease_dropped epoch owner : lease_step (epoch, owner) (epoch, None)
| Lease_elected epoch owner instance_id : lease_step (epoch, owner) ((epoch + 1)%Z, Some instance_id).

Definition leads (l : leadership) (t : FencingToken) : Prop := l = (token_epoch t, Some (token_instance_id t)).

(** The methods of a provider with state [P]; each reads the provider's own clock once. *)
Class CoordinationProvider (P : Type) := {
  acquire : string -> Z -> datetime -> st P CoordinationLease;
  renew : FencingToken -> Z -> datetime -> st P CoordinationLease;
  release : FencingToken -> datetime -> st P unit;
  inspect : datetime -> st P CoordinationState;
  assert_fence : FencingToken -> datetime -> st P unit;
  set_available : bool -> P -> P;
  leadership_of : P -> leadership
}.

Class CoordinationProviderLaws (P : Type) `{CoordinationProvider P} := {
  acquire_steps instance_id ttl now p : rtc lease_step (leadership_of p) (leadership_of (acquire instance_id ttl now p).2);
  renew_steps token ttl now p : rtc lease_step (leadership_of p) (leadership_of (renew token ttl now p).2);
  release_steps token now p : rtc lease_step (leadership_of p) (leadership_of (release token now p).2);
  inspect_steps now p : rtc lease_step (leadership_of p) (leadership_of (inspect now p).2);
  assert_steps token now p : rtc lease_step (leadership_of p) (leadership_of (assert_fence token now p).2);
  available_steps b p : rtc lease_step (leadership_of p) (leadership_of (set_available b p));
  acquire_leads instance_id ttl now p lease :
    (acquire instance_id ttl now p).1 = Ok lease ->
    token_instance_id (lease_token lease) = instance_id /\ leads (leadership_of (acquire instance_id ttl now p).2) (lease_token lease);
  renew_leads token ttl now p lease :
    (renew token ttl now p).1 = Ok lease -> lease_token lease = token /\ leads (leadership_of (renew token ttl now p).2) token;
  assert_leads token now p :
    (assert_fence token now p).1 = Ok tt -> leads (leadership_of (assert_fence token now p).2) token
}.

(** Epochs only grow, and an epoch has one owner. *)
Lemma lease_steps_fence l1 l2 t1 t2 :
  rtc lease_step l1 l2 -> leads l1 t1 -> leads l2 t2 ->
  (token_epoch t1 <= token_epoch t2)%Z /\ (token_epoch t1 = token_epoch t2 -> t1 = t2).
Proof.
  intros Hs -> ->.
  set (later := fun l : leadership => (token_epoch t1 < l.1)%Z \/ l.1 = token_epoch t1 /\ (l.2 = None \/ l.2 = Some (token_instance_id t1))).
  assert (forall x y, lease_step x y -> later x -> later y) as Hstep.
  { intros x y [e o|e o i] Hx; unfold later in *; cbn in *; [destruct Hx as [|[]]; [by left|right; auto]|left; lia]. }
  assert (later (token_epoch t2, Some (token_instance_id t2))) as [Hlt|[He Ho]].
  { assert (later (token_epoch t1, Some (token_instance_id t1))) as Hnow by (right; cbn; auto).
    induction Hs; eauto. }
  - cbn in Hlt. split; [lia|intros Heq; lia].
  - cbn in *. split; [lia|]. intros _. destruct Ho as [|[= Ho]]; [done|]. destruct t1, t2; cbn in *. congruence.
Qed.

(** ** The reference provider: high_availability/reference.py *)

Record InMemoryCoordinationProvider := Build_InMemoryCoordinationProvider {
  provider_available : bool;
  provider_epoch : Z;
  provider_owner_instance_id : option string;
  provider_acquired_at : option datetime;
  provider_expires_at : option datetime
}.

Definition new_coordination_provider : InMemoryCoordinationProvider :=
  Build_InMemoryCoordinationProvider true 0 None None None.

Abbreviation provider_st := (st InMemoryCoordinationProvider).

Definition put_available (b : bool) (p : InMemoryCoordinationProvider) : InMemoryCoordinationProvider :=
  Build_InMemoryCoordinationProvider b (provider_epoch p) (provider_owner_instance_id p) (provider_acquired_at p) (provider_expires_at p).
Definition put_expires_at (t : datetime) (p : InMemoryCoordinationProvider) : InMemoryCoordinationProvider :=
  Build_InMemoryCoordinationProvider (provider_available p) (provider_epoch p) (provider_owner_instance_id p) (provider_acquired_at p) (Some t).
(** [self._epoch += 1; self._owner_instance_id = instance_id; self._acquired_at = now] *)
Definition put_owner (instance_id : string) (now : datetime) (p : InMemoryCoordinationProvider) : InMemoryCoordinationProvider :=
  Build_InMemoryCoordinationProvider (provider_available p) (provider_epoch p + 1)%Z (Some instance_id) (Some now) (provider_expires_at p).

(** [_clear_owner] *)
Definition clear_owner (p : InMemoryCoordinationProvider) : InMemoryCoordinationProvider :=
  Build_InMemoryCoordinationProvider (provider_available p) (provider_epoch p) None None None.

(** [_ensure_available] *)
Definition ensure_available : provider_st unit :=
  available ← gets provider_available;
  ensure available (CoordinationError CoordinationUnavailable "coordination backend is unavailable").

Definition validate_instance_id (instance_id : string) : provider_st unit :=
  ensure (negb (blank instance_id)) (ValueError "instance_id must not be blank").
Definition validate_ttl (ttl : Z) : provider_st unit := ensure (0 <? ttl)%Z (ValueError "lease ttl must be positive").

(** [_expire_if_needed] *)
Definition expire_if_needed (now : datetime) : provider_st unit :=
  modify (fun p => match provider_expires_at p with
                   | Some t => if dt_leb t now then clear_owner p else p
                   | None => p
                   end).

(** [_require_current] *)
Definition require_current (token : FencingToken) : provider_st unit :=
  current ← gets (fun p => bool_decide (provider_owner_instance_id p = Some (token_instance_id token)) &&
                           (provider_epoch p =? token_epoch token)%Z);
  ensure current (CoordinationError StaleFencingToken
    "leadership fencing token is stale or belongs to another Control Plane instance").

(** [_current_lease] *)
Definition current_lease : provider_st CoordinationLease :=
  found ← gets (fun p => (provider_owner_instance_id p, provider_acquired_at p, provider_expires_at p));
  epoch ← gets provider_epoch;
  match found with
  | (Some owner, Some acquired_at, Some expires_at) =>
      token ← of_res (FencingToken_post_init (Build_FencingToken owner epoch));
      of_res (CoordinationLease_post_init (Build_CoordinationLease token acquired_at expires_at))
  | _ => raise (RuntimeError "coordination provider has no active lease")
  end.

Definition provider_acquire (instance_id : string) (ttl : Z) (now : datetime) : provider_st CoordinationLease :=
  _ ← validate_instance_id instance_id;
  _ ← validate_ttl ttl;
  _ ← ensure_available;
  _ ← expire_if_needed now;
  owner ← gets provider_owner_instance_id;
  match owner with
  | Some owner =>
      if String.eqb owner instance_id then current_lease
      else raise (CoordinationError LeadershipConflict "another Control Plane instance owns the non-expired leadership lease")
  | None =>
      _ ← modify (put_owner instance_id now);
      expires_at ← of_res (dt_add now ttl);
      _ ← modify (put_expires_at expires_at);
      current_lease
  end.

Definition provider_renew (token : FencingToken) (ttl : Z) (now : datetime) : provider_st CoordinationLease :=
  _ ← validate_ttl ttl;
  _ ← ensure_available;
  _ ← expire_if_needed now;
  _ ← require_current token;
  expires_at ← of_res (dt_add now ttl);
  _ ← modify (put_expires_at expires_at);
  current_lease.

Definition provider_release (token : FencingToken) (now : datetime) : provider_st unit :=
  _ ← ensure_available;
  _ ← expire_if_needed now;
  _ ← require_current token;
  modify clear_owner.

Definition provider_inspect (now : datetime) : provider_st CoordinationState :=
  _ ← ensure_available;
  _ ← expire_if_needed now;
  epoch ← gets provider_epoch;
  owner ← gets provider_owner_instance_id;
  expires_at ← gets provider_expires_at;
  of_res (CoordinationState_post_init (Build_CoordinationState epoch owner expires_at true)).

Definition provider_assert_fence (token : FencingToken) (now : datetime) : provider_st unit :=
  _ ← ensure_available;
  _ ← expire_if_needed now;
  require_current token.

#[export] Instance InMemory_provider : CoordinationProvider InMemoryCoordinationProvider := {
  acquire := provider_acquire;
  renew := provider_renew;
  release := provider_release;
  inspect := provider_inspect;
  assert_fence := provider_assert_fence;
  set_available := put_available;
  leadership_of p := (provider_epoch p, provider_owner_instance_id p)
}.

(** Sequences of provider steps. *)
Definition advances {A} (m : provider_st A) : Prop :=
  forall p, rtc lease_step (provider_epoch p, provider_owner_instance_id p) (provider_epoch (m p).2, provider_owner_instance_id (m p).2).

Lemma advances_bind {A B} (m : provider_st A) (f : A -> provider_st B) : advances m -> (forall a, advances (f a)) -> advances (m ≫= f).
Proof.
  intros Hm Hf p. specialize (Hm p). unfold mbind, st_bind. destruct (m p) as [[a|e] p']; cbn in *; [|done].
  etrans; [exact Hm|apply Hf].
Qed.
Lemma advances_quiet {A} (m : provider_st A) : (forall p, (m p).2 = p) -> advances m.
Proof. intros Hm p. by rewrite Hm. Qed.
Lemma advances_ensure b e : advances (ensure b e).
Proof. apply advances_quiet. intros p. by destruct b. Qed.
Lemma advances_modify (f : InMemoryCoordinationProvider -> InMemoryCoordinationProvider) :
  (forall p, rtc lease_step (provider_epoch p, provider_owner_instance_id p) (provider_epoch (f p), provider_owner_instance_id (f p))) ->
  advances (modify f).
Proof. auto. Qed.

Lemma advances_expire now : advances (expire_if_needed now).
Proof.
  intros p. cbn. destruct (provider_expires_at p) as [t|]; [|done]. destruct (dt_leb t now); [|done]. apply rtc_once, Lease_dropped.
Qed.
Lemma advances_require_current token : advances (require_current token).
Proof. apply advances_bind; [by apply advances_quiet|]. intros. apply advances_ensure. Qed.
Lemma advances_ensure_available : advances ensure_available.
Proof. apply advances_bind; [by apply advances_quiet|]. intros. apply advances_ensure. Qed.
Lemma advances_current_lease : advances current_lease.
Proof.
  do 2 (apply advances_bind; [by apply advances_quiet|]; intros ?). destruct a as [[[o|] [a|]] [e|]]; try by apply advances_quiet.
  apply advances_bind; [by apply advances_quiet|]. intros t. by apply advances_quiet.
Qed.

Create HintDb advances discriminated.
#[export] Hint Resolve advances_ensure advances_expire advances_require_current advances_ensure_available advances_current_lease : advances.
Ltac solve_advances :=
  repeat match goal with
  | |- advances (_ ≫= _) => apply advances_bind; [|intros ?]
  | |- advances (match ?x with _ => _ end) => destruct x
  | |- advances (modify (put_owner _ _)) => apply advances_modify; intros ?; apply rtc_once, Lease_elected
  | |- advances (modify clear_owner) => apply advances_modify; intros ?; apply rtc_once, Lease_dropped
  | |- advances (modify _) => apply advances_modify; intros ?; reflexivity
  | |- advances _ => solve [auto with advances nocore]
  | |- advances _ => by apply advances_quiet
  end.

(** What a lease names. *)
Lemma current_lease_leads p lease :
  (current_lease p).1 = Ok lease -> (current_lease p).2 = p /\ leads (provider_epoch p, provider_owner_instance_id p) (lease_token lease).
Proof.
  unfold current_lease, gets, of_res, mbind, st_bind. destruct (provider_owner_instance_id p) as [o|] eqn:Ho; [|done].
  destruct (provider_acquired_at p); [|done]. destruct (provider_expires_at p); [|done].
  destruct (FencingToken_post_init _) as [t|] eqn:Ht; [|done]. destruct (CoordinationLease_post_init _) as [l|] eqn:Hl; [|done].
  cbn. intros [= ->]. split; [done|]. unfold FencingToken_post_init in Ht. unfold CoordinationLease_post_init in Hl. res_inv. done.
Qed.

Lemma require_current_leads token p :
  (require_current token p).1 = Ok tt -> (require_current token p).2 = p /\ leads (provider_epoch p, provider_owner_instance_id p) token.
Proof.
  unfold require_current, gets, ensure, mbind, st_bind. destruct (_ && _) eqn:Hc; [|done]. intros _. apply andb_true_iff in Hc as [Ho%bool_decide_eq_true He%Z.eqb_eq].
  split; [done|]. unfold leads. congruence.
Qed.

(** The result of the last part of a computation. *)
Lemma last_part_ok {S A B} (m : st S A) (f : A -> st S B) s b :
  ((m ≫= f) s).1 = Ok b -> exists a s', m s = (Ok a, s') /\ (f a s').1 = Ok b /\ ((m ≫= f) s).2 = (f a s').2.
Proof. unfold mbind, st_bind. destruct (m s) as [[a|e] s']; [|done]. intros H. by exists a, s'. Qed.

(** Peel the statements before the last one. *)
Ltac last_part H :=
  repeat (let a := fresh "a" in let p := fresh "p" in let Hm := fresh "Hm" in let E := fresh "E" in
          apply last_part_ok in H as (a & p & Hm & H & E); rewrite E; clear E).

Lemma advances_acquire instance_id ttl now : advances (provider_acquire instance_id ttl now).
Proof. unfold provider_acquire, validate_instance_id, validate_ttl. solve_advances. Qed.
Lemma advances_renew token ttl now : advances (provider_renew token ttl now).
Proof. unfold provider_renew, validate_ttl. solve_advances. Qed.
Lemma advances_release token now : advances (provider_release token now).
Proof. unfold provider_release. solve_advances. Qed.
Lemma advances_inspect now : advances (provider_inspect now).
Proof. unfold provider_inspect. solve_advances. Qed.
Lemma advances_assert_fence token now : advances (provider_assert_fence token now).
Proof. unfold provider_assert_fence. solve_advances. Qed.

#[export] Instance InMemory_provider_laws : CoordinationProviderLaws InMemoryCoordinationProvider.
Proof.
  split; cbn [leadership_of InMemory_provider acquire renew release inspect assert_fence set_available].
  - intros. apply advances_acquire.
  - intros. apply advances_renew.
  - intros. apply advances_release.
  - intros. apply advances_inspect.
  - intros. apply advances_assert_fence.
  - reflexivity.
  - intros instance_id ttl now p lease H. unfold provider_acquire in *. last_part H.
    destruct a3 as [owner|].
    + unfold gets in Hm3. injection Hm3 as Howner <-. destruct (String.eqb_spec owner instance_id) as [->|]; [|done].
      apply current_lease_leads in H as [-> Hl]. split; [|done]. rewrite Howner in Hl. by injection Hl as _ <-.
    + last_part H. apply current_lease_leads in H as [-> Hl]. split; [|done].
      unfold modify, of_res in *. injection Hm4 as _ <-. injection Hm5 as _ <-. injection Hm6 as _ <-. cbn in Hl. by injection Hl as _ <-.
  - intros token ttl now p lease H. unfold provider_renew in *. last_part H.
    destruct a2. assert ((require_current token p2).1 = Ok tt) as Hcur by by rewrite Hm2.
    apply require_current_leads in Hcur as [Hp2 Hlead]. rewrite Hm2 in Hp2. cbn in Hp2. subst p3.
    apply current_lease_leads in H as [-> Hl]. unfold modify, of_res in *. injection Hm3 as _ <-. injection Hm4 as _ <-.
    cbn in Hl. split; [|done]. unfold leads in *. destruct (lease_token lease), token; cbn in *. congruence.
  - intros token now p H. unfold provider_assert_fence in *. last_part H. by apply require_current_leads in H as [-> ?].
Qed.
