(* ===== verification/Failover.v ===== *)
(** * The control plane's failover service: high_availability/service.py

    [ControlPlaneFailoverService] is one process's part in an active/passive deployment; its coroutines
    run next to each other and share the service's attributes. [FencedWorkerTransportEndpoint] of
    worker_transport.py is the other user of the provider: a worker that checks the fencing token of each
    command. Telemetry and the durations that only it reports are left out. *)

From Stdlib Require Import SpecFloat.
From S2P Require Import Prelude PyValue Errors StateMonad PyTime TransportModels Leadership.
From S2P Require Export Programs.

(** ** Data *)

Record ReconciliationResult := Build_ReconciliationResult {
  recovered_items : Z;
  rejected_stale_items : Z;
  reconciliation_details : list string
}.

Definition ReconciliationResult_post_init (r : ReconciliationResult) : res ReconciliationResult :=
  _ ← require (0 <=? recovered_items r)%Z (ValueError "recovered_items must not be negative");
  _ ← require (0 <=? rejected_stale_items r)%Z (ValueError "rejected_stale_items must not be negative");
  Ok r.

Record AuthorityGrant := Build_AuthorityGrant {
  grant_instance_id : string;
  grant_mode : AvailabilityMode;
  grant_fencing_token : option FencingToken
}.

Definition AuthorityGrant_post_init (g : AuthorityGrant) : res AuthorityGrant :=
  _ ← require (negb (blank (grant_instance_id g))) (ValueError "instance_id must not be blank");
  _ ← require (negb (bool_decide (grant_mode g = SINGLE_NODE) && bool_decide (is_Some (grant_fencing_token g))))
        (ValueError "single-node authority must not require an HA fencing token");
  _ ← require (negb (negb (bool_decide (grant_mode g = SINGLE_NODE)) && bool_decide (grant_fencing_token g = None)))
        (ValueError "HA authority requires a fencing token");
  Ok g.

Record ControlPlaneHAStatus := Build_ControlPlaneHAStatus {
  status_instance_id : string;
  status_mode : AvailabilityMode;
  status_role : ControlPlaneRole;
  status_leader_instance_id : option string;
  status_epoch : Z;
  status_lease_expires_at : option datetime;
  status_coordination_available : bool;
  status_promotion_count : Z;
  status_last_promotion_reason : option string;
  status_last_reconciliation : option ReconciliationResult;
  status_lease_acquired_at : option datetime;
  status_last_renewed_at : option datetime;
  status_lease_age_seconds : option spec_float;
  status_seconds_since_last_renewal : option spec_float;
  status_reconciliation_in_progress : bool;
  status_last_error_code : option string
}.

Definition text_or_none (o : option string) : bool := match o with Some s => negb (blank s) | None => true end.
Definition negative (o : option spec_float) : bool := match o with Some x => SFltb x (S754_zero false) | None => false end.

Definition ControlPlaneHAStatus_post_init (s : ControlPlaneHAStatus) : res ControlPlaneHAStatus :=
  _ ← require (negb (blank (status_instance_id s))) (ValueError "instance_id must not be blank");
  _ ← require (0 <=? status_epoch s)%Z (ValueError "epoch must not be negative");
  _ ← require (0 <=? status_promotion_count s)%Z (ValueError "promotion_count must not be negative");
  _ ← require (text_or_none (status_last_promotion_reason s)) (ValueError "last_promotion_reason must not be blank");
  _ ← require (negb (negative (status_lease_age_seconds s))) (ValueError "lease_age_seconds must not be negative");
  _ ← require (negb (negative (status_seconds_since_last_renewal s))) (ValueError "seconds_since_last_renewal must not be negative");
  _ ← require (text_or_none (status_last_error_code s)) (ValueError "last_error_code must not be blank");
  Ok s.

(** What the service is constructed with; the provider is the world's. *)
Record FailoverConfig := Build_FailoverConfig {
  instance_id : string;
  mode : AvailabilityMode;
  has_coordinator : bool;
  lease_ttl : Z;
  has_reconciler : bool
}.

Definition FailoverConfig_init (c : FailoverConfig) : res FailoverConfig :=
  _ ← require (negb (blank (instance_id c))) (ValueError "instance_id must not be blank");
  _ ← require (0 <? lease_ttl c)%Z (ValueError "lease_ttl must be positive");
  _ ← require (negb (bool_decide (mode c = SINGLE_NODE) && has_coordinator c)) (ValueError "single-node mode must not require HA coordination");
  _ ← require (negb (negb (bool_decide (mode c = SINGLE_NODE)) && negb (has_coordinator c)))
        (ValueError "HA modes require a coordination provider");
  Ok c.

(** The attributes of the service that change. *)
Record FailoverState := Build_FailoverState {
  svc_lease : option CoordinationLease;
  svc_role : ControlPlaneRole;
  svc_reconciling : bool;
  svc_promotion_count : Z;
  svc_last_promotion_reason : option string;
  svc_last_reconciliation : option ReconciliationResult;
  svc_last_renewed_at : option datetime;
  svc_last_error_code : option string
}.

Definition new_failover_state (mode : AvailabilityMode) : FailoverState :=
  Build_FailoverState None (if bool_decide (mode = SINGLE_NODE) then CP_ACTIVE else CP_STANDBY) false 0 None None None None.

Definition put_lease (l : option CoordinationLease) (s : FailoverState) : FailoverState :=
  Build_FailoverState l (svc_role s) (svc_reconciling s) (svc_promotion_count s) (svc_last_promotion_reason s)
    (svc_last_reconciliation s) (svc_last_renewed_at s) (svc_last_error_code s).
(** [_set_role], without its telemetry *)
Definition put_role (r : ControlPlaneRole) (s : FailoverState) : FailoverState :=
  Build_FailoverState (svc_lease s) r (svc_reconciling s) (svc_promotion_count s) (svc_last_promotion_reason s)
    (svc_last_reconciliation s) (svc_last_renewed_at s) (svc_last_error_code s).
Definition put_reconciling (b : bool) (s : FailoverState) : FailoverState :=
  Build_FailoverState (svc_lease s) (svc_role s) b (svc_promotion_count s) (svc_last_promotion_reason s)
    (svc_last_reconciliation s) (svc_last_renewed_at s) (svc_last_error_code s).
(** [_last_reconciliation], [_promotion_count] and [_last_promotion_reason] after a promotion *)
Definition put_promotion (reason : string) (r : ReconciliationResult) (s : FailoverState) : FailoverState :=
  Build_FailoverState (svc_lease s) (svc_role s) (svc_reconciling s) (svc_promotion_count s + 1)%Z (Some reason) (Some r)
    (svc_last_renewed_at s) (svc_last_error_code s).
Definition put_renewed_at (t : datetime) (s : FailoverState) : FailoverState :=
  Build_FailoverState (svc_lease s) (svc_role s) (svc_reconciling s) (svc_promotion_count s) (svc_last_promotion_reason s)
    (svc_last_reconciliation s) (Some t) (svc_last_error_code s).
Definition put_error (e : option string) (s : FailoverState) : FailoverState :=
  Build_FailoverState (svc_lease s) (svc_role s) (svc_reconciling s) (svc_promotion_count s) (svc_last_promotion_reason s)
    (svc_last_reconciliation s) (svc_last_renewed_at s) e.

(** ** What the coroutines await

    [Update i f] is the code between two awaits: it replaces the attributes [s] of the service [i] by [f s], and is
    answered by [s]. *)

Inductive haop :=
| Update (service : nat) (f : FailoverState -> FailoverState)
| Observe                                                     (* the observation clock *)
| Acquire (instance_id : string) (ttl : Z)
| Renew (token : FencingToken) (ttl : Z)
| Release (token : FencingToken)
| Inspect
| AssertFence (token : FencingToken)
| Reconcile (service : nat) (token : FencingToken) (previous_epoch : Z) (reason : string)
| Return_grant (service : nat) (public : bool) (token : FencingToken)   (* the caller has its grant *)
| Handle_command (operation : string) (token : option FencingToken)   (* the worker acts on a command *)
| Publish_error (category : string) (retryable : bool)
| Set_available (available : bool).                           (* an outage of the provider begins or ends *)

Definition hareply (o : haop) : Type :=
  match o with
  | Update _ _ => FailoverState
  | Observe => datetime
  | Acquire _ _ | Renew _ _ => CoordinationLease
  | Inspect => CoordinationState
  | Reconcile _ _ _ _ => ReconciliationResult
  | Release _ | AssertFence _ | Return_grant _ _ _ | Handle_command _ _ | Publish_error _ _ | Set_available _ => unit
  end.

Abbreviation haprog := (prog hareply).
Abbreviation hacall := (call (R := hareply)).

(** ** The world *)

(** What happened, for the theorems: tokens the provider found current, reconciliations that completed, grants
    that were returned, and commands that a worker handled. *)
Inductive ha_event :=
| Validated (token : FencingToken)
| Reconciled (service : nat) (token : FencingToken)
| Granted (service : nat) (public : bool) (token : FencingToken)
| Handled (operation : string) (token : option FencingToken).

(** The provider, the services, the number of operations performed, and the events, latest first. *)
Record ha_world (P : Type) := Build_ha_world {
  ha_provider : P;
  ha_services : nat -> FailoverState;
  ha_moment : nat;
  ha_log : list ha_event
}.
Arguments Build_ha_world {P} _ _ _ _.
Arguments ha_provider {P} _.
Arguments ha_services {P} _ _.
Arguments ha_moment {P} _.
Arguments ha_log {P} _.

(** The clocks of the provider and of the processes, the reconcilers, and the rest of the worker. *)
Record ha_env := Build_ha_env {
  ha_clock : nat -> Z;
  ha_observe : nat -> Z;
  ha_reconcile : nat -> nat -> FencingToken -> Z -> string -> res ReconciliationResult;
  ha_worker : nat -> string -> option FencingToken -> res unit
}.

Section perform.
Context {P : Type} `{CoordinationProvider P} (E : ha_env).

Definition on_provider {A} (w : ha_world P) (m : datetime -> st P A) : res A * ha_world P :=
  let '(r, p) := m (Aware (ha_clock E (ha_moment w))) (ha_provider w) in
  (r, Build_ha_world p (ha_services w) (S (ha_moment w)) (ha_log w)).

Definition noting {A} (r : res A) (events : list ha_event) (w : ha_world P) : res A * ha_world P :=
  (r, Build_ha_world (ha_provider w) (ha_services w) (S (ha_moment w)) (match r with Ok _ => events ++ ha_log w | Err _ => ha_log w end)).

Definition perform_ha (o : haop) (w : ha_world P) : res (hareply o) * ha_world P :=
  match o return res (hareply o) * ha_world P with
  | Update i f =>
      (Ok (ha_services w i),
       Build_ha_world (ha_provider w) (fun j => if decide (j = i) then f (ha_services w i) else ha_services w j) (S (ha_moment w)) (ha_log w))
  | Observe => noting (Ok (Aware (ha_observe E (ha_moment w)))) [] w
  | Acquire instance_id ttl => on_provider w (acquire instance_id ttl)
  | Renew token ttl => on_provider w (renew token ttl)
  | Release token => on_provider w (release token)
  | Inspect => on_provider w inspect
  | AssertFence token =>
      let '(r, p) := assert_fence token (Aware (ha_clock E (ha_moment w))) (ha_provider w) in
      (r, Build_ha_world p (ha_services w) (S (ha_moment w)) (match r with Ok _ => Validated token :: ha_log w | Err _ => ha_log w end))
  | Reconcile i token epoch reason => noting (ha_reconcile E (ha_moment w) i token epoch reason) [Reconciled i token] w
  | Return_grant i public token => noting (Ok tt) [Granted i public token] w
  | Handle_command operation token =>
      (ha_worker E (ha_moment w) operation token,
       Build_ha_world (ha_provider w) (ha_services w) (S (ha_moment w)) (Handled operation token :: ha_log w))
  | Publish_error _ _ => noting (Ok tt) [] w
  | Set_available b => (Ok tt, Build_ha_world (set_available b (ha_provider w)) (ha_services w) (S (ha_moment w)) (ha_log w))
  end.
End perform.

(** ** The service *)

Section service.
Context (i : nat) (c : FailoverConfig).

Definition has_class (k : coordination_error) (e : exc) : bool :=
  match e with CoordinationError k' _ => bool_decide (k' = k) | _ => false end.

Definition required_coordinator : haprog unit :=
  guard (has_coordinator c) (RuntimeError "HA mode is missing its coordination provider").
Definition validate_reason (reason : string) : haprog unit :=
  guard (negb (blank reason)) (ValueError "promotion reason must not be blank").

(** The process no longer trusts its lease. *)
Definition fenced (error : string) (s : FailoverState) : FailoverState := put_role CP_FENCED (put_lease None (put_error (Some error) s)).

(** [_observed_epoch] *)
Definition observed_epoch : haprog Z :=
  found ← attempt (hacall Inspect);
  match found with
  | Ok state => Ret (leader_epoch state)
  | Err e =>
      if has_class CoordinationUnavailable e then
        _ ← hacall (Update i (fun s => put_role CP_FENCED (put_error (Some "coordination_unavailable") s)));
        Raise e
      else Raise e
  end.

(** [_reconcile] *)
Definition reconcile (token : FencingToken) (previous_epoch : Z) (reason : string) : haprog ReconciliationResult :=
  if has_reconciler c then hacall (Reconcile i token previous_epoch reason)
  else Ret (Build_ReconciliationResult 0 0 []).

(** [_best_effort_release] *)
Definition best_effort_release (token : FencingToken) : haprog unit :=
  catch (hacall (Release token)) (fun e =>
    if has_class CoordinationUnavailable e || has_class StaleFencingToken e then Ret tt else Raise e).

Definition already_owned (lease : CoordinationLease) (s : FailoverState) : bool :=
  match svc_lease s with
  | Some l => bool_decide (lease_token l = lease_token lease) && bool_decide (svc_role s = CP_ACTIVE)
  | None => false
  end.

Definition lease_acquired (lease : CoordinationLease) (s : FailoverState) : FailoverState :=
  if already_owned lease s then put_lease (Some lease) s
  else put_reconciling true (put_role CP_PROMOTING (put_lease (Some lease) s)).

Definition promoted (reason : string) (r : ReconciliationResult) (s : FailoverState) : FailoverState :=
  put_role CP_ACTIVE (put_error None (put_promotion reason r (put_reconciling false s))).

(** The barrier between the election and the leadership. *)
Definition promote (lease : CoordinationLease) (previous_epoch : Z) (reason : string) : haprog bool :=
  outcome ← attempt (reconcile (lease_token lease) previous_epoch reason);
  match outcome with
  | Ok result => _ ← hacall (Update i (promoted reason result)); Ret true
  | Err _ =>
      released ← attempt (best_effort_release (lease_token lease));
      match released with
      | Ok _ =>
          _ ← hacall (Update i (fun s => put_reconciling false (fenced "promotion_reconciliation_failed" s)));
          Raise (CoordinationError PromotionReconciliationError "promotion reconciliation failed; leadership was released")
      | Err e => _ ← hacall (Update i (put_reconciling false)); Raise e
      end
  end.

Definition try_promote (reason : string) : haprog bool :=
  _ ← validate_reason reason;
  if bool_decide (mode c = SINGLE_NODE) then _ ← hacall (Update i (put_role CP_ACTIVE)); Ret true
  else
    _ ← required_coordinator;
    previous_epoch ← observed_epoch;
    acquired ← attempt (hacall (Acquire (instance_id c) (lease_ttl c)));
    match acquired with
    | Err e =>
        if has_class LeadershipConflict e then
          _ ← hacall (Update i (fun s => put_role CP_STANDBY (put_lease None s))); Ret false
        else if has_class CoordinationUnavailable e then
          _ ← hacall (Update i (fenced "coordination_unavailable")); Raise e
        else Raise e
    | Ok lease =>
        before ← hacall (Update i (lease_acquired lease));
        if already_owned lease before then Ret true else promote lease previous_epoch reason
    end.

Definition start (reason : string) : haprog bool :=
  _ ← validate_reason reason;
  if bool_decide (mode c = SINGLE_NODE) then Ret true else try_promote reason.

Definition not_leader (message : string) : exc := CoordinationError NotLeaderError message.

(** [renew] *)
Definition renew_lease : haprog (option CoordinationLease) :=
  if bool_decide (mode c = SINGLE_NODE) then Ret None
  else
    s ← hacall (Update i id);
    match svc_role s, svc_lease s with
    | CP_ACTIVE, Some lease =>
        _ ← required_coordinator;
        outcome ← attempt (hacall (Renew (lease_token lease) (lease_ttl c)));
        match outcome with
        | Err e =>
            if has_class CoordinationUnavailable e then _ ← hacall (Update i (fenced "coordination_unavailable")); Raise e
            else if has_class StaleFencingToken e then _ ← hacall (Update i (fenced "stale_fencing_token")); Raise e
            else Raise e
        | Ok renewed =>
            now ← hacall Observe;
            _ ← hacall (Update i (fun s => put_error None (put_renewed_at now (put_lease (Some renewed) s))));
            Ret (Some renewed)
        end
    | _, _ => Raise (not_leader "only the active Control Plane instance can renew leadership")
    end.

(** [_grant_current_lease_authority], for the lease that was read. *)
Definition grant_lease_authority (public : bool) (lease : CoordinationLease) : haprog AuthorityGrant :=
  _ ← required_coordinator;
  outcome ← attempt (hacall (AssertFence (lease_token lease)));
  match outcome with
  | Err e =>
      if has_class CoordinationUnavailable e then _ ← hacall (Update i (fenced "coordination_unavailable")); Raise e
      else if has_class StaleFencingToken e then _ ← hacall (Update i (fenced "stale_fencing_token")); Raise e
      else Raise e
  | Ok _ =>
      grant ← lift (AuthorityGrant_post_init (Build_AuthorityGrant (instance_id c) (mode c) (Some (lease_token lease))));
      _ ← hacall (Return_grant i public (lease_token lease));
      Ret grant
  end.

(** The check of [require_authority], on the attributes that it reads. *)
Definition authority_of (s : FailoverState) : haprog AuthorityGrant :=
  match svc_role s, svc_lease s with
  | CP_ACTIVE, Some lease => grant_lease_authority true lease
  | _, _ => Raise (not_leader "Control Plane instance is not the active leader")
  end.

Definition require_authority : haprog AuthorityGrant :=
  if bool_decide (mode c = SINGLE_NODE) then lift (AuthorityGrant_post_init (Build_AuthorityGrant (instance_id c) (mode c) None))
  else s ← hacall (Update i id); authority_of s.

Definition require_reconciliation_authority : haprog AuthorityGrant :=
  if bool_decide (mode c = SINGLE_NODE) then require_authority
  else
    s ← hacall (Update i id);
    match svc_role s with
    | CP_ACTIVE => authority_of s
    | CP_PROMOTING =>
        match svc_reconciling s, svc_lease s with
        | true, Some lease => grant_lease_authority false lease
        | _, _ => Raise (not_leader "reconciliation authority is not currently available")
        end
    | _ => Raise (not_leader "reconciliation authority is not currently available")
    end.

(** The attributes after the first part of [step_down]. *)
Definition stepped_down (s : FailoverState) : FailoverState := put_role CP_STANDBY (put_lease None s).

Definition step_down : haprog unit :=
  if bool_decide (mode c = SINGLE_NODE) then Ret tt
  else
    s ← hacall (Update i stepped_down);
    match svc_lease s with
    | None => Ret tt
    | Some lease =>
        _ ← required_coordinator;
        catch (hacall (Release (lease_token lease))) (fun e =>
          if has_class StaleFencingToken e then Ret tt
          else if has_class CoordinationUnavailable e then
            _ ← hacall (Update i (fun s => put_role CP_FENCED (put_error (Some "coordination_unavailable") s))); Raise e
          else Raise e)
    end.

(** *** Status *)

Definition leading (s : FailoverState) : bool := match svc_role s with CP_ACTIVE | CP_PROMOTING => true | _ => false end.

(** [timedelta.total_seconds]: a correctly rounded quotient. *)
Definition total_seconds (us : Z) : spec_float :=
  match us with
  | Z0 => S754_zero false
  | Zpos p => let '(m, e, l) := SFdiv_core_binary 53 1024 (Zpos p) 0 1000000 0 in binary_round_aux 53 1024 false m e l
  | Zneg p => let '(m, e, l) := SFdiv_core_binary 53 1024 (Zpos p) 0 1000000 0 in binary_round_aux 53 1024 true m e l
  end.

(** [max(0.0, (now - since).total_seconds())] *)
Definition seconds_since (now since : datetime) : spec_float :=
  let d := total_seconds (instant now - instant since) in
  if SFltb (S754_zero false) d then d else S754_zero false.

(** [_status_snapshot] *)
Definition status_snapshot (now : datetime) (s : FailoverState) (leader : option string) (epoch : Z) (expires_at : option datetime)
  (available : bool) : res ControlPlaneHAStatus :=
  ControlPlaneHAStatus_post_init (Build_ControlPlaneHAStatus (instance_id c) (mode c) (svc_role s) leader epoch expires_at available
    (svc_promotion_count s) (svc_last_promotion_reason s) (svc_last_reconciliation s) (lease_acquired_at <$> svc_lease s)
    (svc_last_renewed_at s) (seconds_since now ∘ lease_acquired_at <$> svc_lease s) (seconds_since now <$> svc_last_renewed_at s)
    (svc_reconciling s) (svc_last_error_code s)).

Definition single_node_status (s : FailoverState) : res ControlPlaneHAStatus :=
  ControlPlaneHAStatus_post_init (Build_ControlPlaneHAStatus (instance_id c) (mode c) CP_ACTIVE (Some (instance_id c)) 0 None true
    0 None None None None None None false (svc_last_error_code s)).

(** [_current_epoch] *)
Definition current_epoch (s : FailoverState) : Z := match svc_lease s with Some l => token_epoch (lease_token l) | None => 0 end.

Definition inspection_failed (s : FailoverState) : FailoverState :=
  let s' := put_error (Some "coordination_unavailable") s in
  if leading s then put_role CP_FENCED (put_lease None s') else s'.

(** The lease that the process believes in is not the provider's. *)
Definition mismatched (state : CoordinationState) (s : FailoverState) : bool :=
  leading s && match svc_lease s with
               | Some l => negb (bool_decide (leader_owner_instance_id state = Some (instance_id c))) ||
                           negb (leader_epoch state =? token_epoch (lease_token l))%Z
               | None => false
               end.

Definition inspected (state : CoordinationState) (s : FailoverState) : FailoverState :=
  if mismatched state s then fenced "leadership_state_mismatch" s else s.

Definition status : haprog ControlPlaneHAStatus :=
  if bool_decide (mode c = SINGLE_NODE) then s ← hacall (Update i id); lift (single_node_status s)
  else
    _ ← required_coordinator;
    found ← attempt (hacall Inspect);
    now ← hacall Observe;
    match found with
    | Err e =>
        if has_class CoordinationUnavailable e then
          s ← hacall (Update i inspection_failed);
          lift (status_snapshot now (inspection_failed s) None (current_epoch s) None false)
        else Raise e
    | Ok state =>
        s ← hacall (Update i (inspected state));
        lift (status_snapshot now (inspected state s) (leader_owner_instance_id state) (leader_epoch state) (leader_expires_at state)
                (leader_available state))
    end.
End service.

(** ** Fenced workers: worker_transport.py *)

Definition source_component (instance_id : string) : string := "distributed-control-plane" +:+ ":" +:+ instance_id.

(** [_encode_fencing_token] and [_decode_fencing_token]; [None] is a key that the command does not have. *)
Definition encode_fencing_token (token : FencingToken) : pyval :=
  VMap MDict [("instance_id", VStr (token_instance_id token)); ("epoch", VInt (token_epoch token))].

Definition decode_fencing_token (value : pyval) : res FencingToken :=
  match value with
  | VMap _ d =>
      instance_id ← (match get "instance_id" d with
                     | VStr s => if blank s then Err (ValueError "control_plane_fence.instance_id must be a non-blank string") else Ok s
                     | _ => Err (ValueError "control_plane_fence.instance_id must be a non-blank string")
                     end);
      epoch ← (match get "epoch" d with
               | VInt z => if (z <=? 0)%Z then Err (ValueError "control_plane_fence.epoch must be a positive integer") else Ok z
               | _ => Err (ValueError "control_plane_fence.epoch must be a positive integer")
               end);
      FencingToken_post_init (Build_FencingToken instance_id epoch)
  | _ => Err (ValueError "HA Worker command requires control_plane_fence")
  end.

(** [_fence_payload]: what the control plane attaches to a command. *)
Definition fence_payload (control_plane_instance_id : string) (authority_check : haprog AuthorityGrant) : haprog pyval :=
  grant ← authority_check;
  match grant_fencing_token grant with
  | None => Raise (not_leader "HA Worker transport requires a current fencing token")
  | Some token =>
      _ ← guard (String.eqb (grant_instance_id grant) control_plane_instance_id)
            (CoordinationError StaleFencingToken "authority grant belongs to a different Control Plane instance");
      _ ← guard (String.eqb (token_instance_id token) control_plane_instance_id)
            (CoordinationError StaleFencingToken "fencing token belongs to a different Control Plane instance");
      Ret (encode_fencing_token token)
  end.

Section worker.
Context (worker_id : string).

Definition FENCED_OPERATIONS : list string := ["dispatch"; "cancel"].
Definition REPLY_PREFIX : string := "distributed.worker.replies.".

(** [_required_string(data, name)] *)
Definition required_string (name : string) (data : dict) : res string :=
  match dict_get name data with
  | None => Err (ValueError (name +:+ " is required"))
  | Some (VStr s) => if blank s then Err (ValueError (name +:+ " must be a non-empty string")) else Ok s
  | Some _ => Err (ValueError (name +:+ " must be a non-empty string"))
  end.

(** [WorkerTransportEndpoint._handle] of transport.py, up to the work that the command asks for. *)
Definition base_handle (command : TransportEnvelope) (token : option FencingToken) : haprog unit :=
  match envelope_payload command with
  | Some (VMap _ data) =>
      reply_topic ← lift (required_string "reply_topic" data);
      _ ← guard (starts_with reply_topic REPLY_PREFIX) (RuntimeError "Worker transport reply topic is outside the canonical prefix");
      target ← lift (required_string "worker_id" data);
      _ ← lift (required_string "worker_job_id" data);
      if negb (String.eqb target worker_id) then hacall (Publish_error "worker_identity_mismatch" false)
      else
        operation ← lift (required_string "operation" data);
        hacall (Handle_command operation token)
  | _ => Raise (ValueError "Worker transport command must be an object")
  end.

(** Whether a value can be looked up in a set. *)
Fixpoint hashable (v : pyval) : bool :=
  match v with
  | VMap _ _ | VSeq SList _ => false
  | VSeq STuple l => forallb hashable l
  | _ => true
  end.

Definition text_of (v : pyval) : option string := match v with VStr s => Some s | _ => None end.

(** The header of the command is one that the base class accepts. *)
Definition addressed (data : dict) : bool :=
  match text_of (get "reply_topic" data), text_of (get "worker_job_id" data), text_of (get "worker_id" data) with
  | Some reply_topic, Some _, Some target => starts_with reply_topic REPLY_PREFIX && String.eqb target worker_id
  | _, _, _ => false
  end.

Definition fence_rejection (e : exc) : option (string * bool) :=
  match e with
  | CoordinationError CoordinationUnavailable _ => Some ("control_plane_coordination_unavailable", true)
  | CoordinationError StaleFencingToken _ => Some ("stale_control_plane_fence", false)
  | CoordinationError _ _ => Some ("control_plane_fence_rejected", false)
  | _ => None
  end.

(** [FencedWorkerTransportEndpoint._handle] *)
Definition fenced_handle (command : TransportEnvelope) : haprog unit :=
  match envelope_payload command with
  | Some (VMap _ data) =>
      _ ← guard (hashable (get "operation" data)) (TypeError "unhashable type");
      match text_of (get "operation" data) with
      | Some operation =>
          if negb (in_strs operation FENCED_OPERATIONS) || negb (addressed data) then base_handle command None
          else
            match decode_fencing_token (get "control_plane_fence" data) with
            | Err _ => hacall (Publish_error "control_plane_fence_required" false)
            | Ok token =>
                if negb (String.eqb (envelope_source_component command) (source_component (token_instance_id token)))
                then hacall (Publish_error "control_plane_fence_identity_mismatch" false)
                else
                  outcome ← attempt (hacall (AssertFence token));
                  match outcome with
                  | Ok _ => base_handle command (Some token)
                  | Err e =>
                      match fence_rejection e with
                      | Some (category, retryable) => hacall (Publish_error category retryable)
                      | None => Raise e
                      end
                  end
            end
      | None => base_handle command None
      end
  | _ => base_handle command None
  end.
End worker.

(** ** Calls *)

Inductive ha_call :=
| CallStart (reason : string)
| CallTryPromote (reason : string)
| CallRenew
| CallRequireAuthority
| CallRequireReconciliationAuthority
| CallStepDown
| CallStatus.

Definition promotes (call : ha_call) : bool := match call with CallStart _ | CallTryPromote _ => true | _ => false end.

(** One coroutine of a process: it makes calls one after the other, whatever becomes of them. *)
Definition discard_result {A} (p : haprog A) : haprog unit := _ ← attempt p; Ret tt.

Definition handle_call (i : nat) (c : FailoverConfig) (call : ha_call) : haprog unit :=
  match call with
  | CallStart reason => discard_result (start i c reason)
  | CallTryPromote reason => discard_result (try_promote i c reason)
  | CallRenew => discard_result (renew_lease i c)
  | CallRequireAuthority => discard_result (require_authority i c)
  | CallRequireReconciliationAuthority => discard_result (require_reconciliation_authority i c)
  | CallStepDown => discard_result (step_down i c)
  | CallStatus => discard_result (status i c)
  end.

Inductive ha_script :=
| Process (service : nat) (config : FailoverConfig) (calls : list ha_call)
| Worker (worker_id : string) (commands : list TransportEnvelope)
| Outages (available : list bool).

Definition run_script (s : ha_script) : haprog unit :=
  match s with
  | Process i c calls => _ ← for_each (handle_call i c) calls; Ret tt
  | Worker worker_id commands => _ ← for_each (fun command => discard_result (fenced_handle worker_id command)) commands; Ret tt
  | Outages available => _ ← for_each (fun b => hacall (Set_available b)) available; Ret tt
  end.
