(* ===== verification/FailoverProofs.v ===== *)
(** * Any number of control planes and workers over one provider

    The obligations of the coroutines of Failover.v, and the invariants that every interleaving keeps: tokens are
    validated in the order of their epochs, whoever acts on a token had it validated ([clean]), and a process that
    promotes one call at a time has no public authority before its reconciliation ([guarded]). *)

From Stdlib Require Import SpecFloat.
From S2P Require Import Prelude PyValue Errors StateMonad PyTime TransportModels Leadership Failover.

(** ** Nobody acts on a token that was not validated *)

(** [p] returns grants and acts on commands only with tokens in [V] and those it had validated since. *)
Fixpoint fenced_by {A} (p : haprog A) (V : list FencingToken) : Prop :=
  match p with
  | Ret _ | Raise _ => True
  | Vis o k =>
      match o return (res (hareply o) -> haprog A) -> Prop with
      | AssertFence t => fun k => fenced_by (k (Ok tt)) (t :: V) /\ forall e, fenced_by (k (Err e)) V
      | Return_grant _ _ t => fun k => t ∈ V /\ forall r, fenced_by (k r) V
      | Handle_command operation token => fun k =>
          match token with Some t => t ∈ V | None => operation ∉ FENCED_OPERATIONS end /\ forall r, fenced_by (k r) V
      | _ => fun k => forall r, fenced_by (k r) V
      end k
  end.

Definition clean {A} (p : haprog A) : Prop := forall V, fenced_by p V.

Ltac fenced_induction p V :=
  revert V; induction p as [?a|?e|?o ?k ?IH]; intros V; cbn [fenced_by mbind prog_bind attempt catch];
  [..|match goal with |- context [match ?o with Update _ _ => _ | _ => _ end] => destruct o end].

Lemma clean_seq {A B} (p : haprog A) (f : A -> haprog B) : clean p -> (forall a, clean (f a)) -> clean (p ≫= f).
Proof. intros Hp Hf V. specialize (Hp V). revert Hp. fenced_induction p V; try (intros; apply Hf); try firstorder auto. Qed.
Lemma clean_attempt {A} (p : haprog A) : clean p -> clean (attempt p).
Proof. intros Hp V. specialize (Hp V). revert Hp. fenced_induction p V; firstorder auto. Qed.
Lemma clean_catch {A} (p : haprog A) h : clean p -> (forall e, clean (h e)) -> clean (catch p h).
Proof. intros Hp Hh V. specialize (Hp V). revert Hp. fenced_induction p V; try (intros; apply Hh); firstorder auto. Qed.
Lemma clean_lift {A} (r : res A) : clean (lift r).
Proof. by destruct r. Qed.
Lemma clean_guard b e : clean (guard b e).
Proof. by destruct b. Qed.
Lemma clean_for_each {A B} (f : A -> haprog B) l : (forall a, clean (f a)) -> clean (for_each f l).
Proof. intros Hf. induction l as [|a l IH]; [done|]. apply clean_seq; [done|]. intros b. by apply clean_seq. Qed.

Definition sensitive (o : haop) : bool := match o with Return_grant _ _ _ | Handle_command _ _ => true | _ => false end.
Lemma clean_call o : sensitive o = false -> clean (hacall o).
Proof. intros Ho V. destruct o; try done; cbn; try (intros [?|?]; done). Qed.

(** After the provider's answer. *)
Lemma fenced_assert {A} t (f : res unit -> haprog A) V :
  fenced_by (f (Ok tt)) (t :: V) -> (forall e, clean (f (Err e))) -> fenced_by (attempt (hacall (AssertFence t)) ≫= f) V.
Proof. intros Hok Herr. split; [exact Hok|]. intros e. apply (Herr e). Qed.

Create HintDb clean discriminated.
#[export] Hint Resolve clean_lift clean_guard : clean.

Ltac clean_step :=
  match goal with
  | |- clean (Ret _) => done
  | |- clean (Raise _) => done
  | |- clean (hacall ?o) => exact (clean_call o eq_refl)
  | |- clean (attempt _) => apply clean_attempt
  | |- clean (catch _ _) => apply clean_catch; [|intros ?]
  | |- clean (for_each _ _) => apply clean_for_each; intros ?
  | |- clean (_ ≫= _) => apply clean_seq; [|intros ?]
  | |- clean (match ?x with _ => _ end) => destruct x
  | |- clean _ => solve [auto with clean nocore]
  end.
Ltac solve_clean := cbn zeta; repeat clean_step.

Section services.
Context (i : nat) (c : FailoverConfig).

Lemma clean_required_coordinator : clean (required_coordinator c).
Proof. apply clean_guard. Qed.
Hint Resolve clean_required_coordinator : clean.

Lemma clean_try_promote reason : clean (try_promote i c reason).
Proof.
  unfold try_promote, validate_reason, observed_epoch, promote, reconcile, best_effort_release. solve_clean.
Qed.

Lemma clean_grant_lease_authority public lease : clean (grant_lease_authority i c public lease).
Proof.
  unfold grant_lease_authority, required_coordinator. apply clean_seq; [apply clean_guard|]. intros _ V.
  apply fenced_assert; [|intros e; solve_clean].
  destruct (AuthorityGrant_post_init _) as [g|]; cbn; [|done]. split; [by left|]. by intros [?|?].
Qed.
Hint Resolve clean_try_promote clean_grant_lease_authority : clean.

Lemma clean_require_authority : clean (require_authority i c).
Proof. unfold require_authority, authority_of. solve_clean. Qed.
Hint Resolve clean_require_authority : clean.

Lemma clean_handle_call call : clean (handle_call i c call).
Proof.
  unfold handle_call, discard_result, start, validate_reason, renew_lease, require_reconciliation_authority,
    authority_of, step_down, status. solve_clean.
Qed.
End services.

(** ** The workers *)

(** The command's operation is only reached when its header is the expected one. *)
Lemma base_handle_fenced worker_id command token V :
  (forall k data operation, envelope_payload command = Some (VMap k data) -> addressed worker_id data = true ->
    get "operation" data = VStr operation -> match token with Some t => t ∈ V | None => operation ∉ FENCED_OPERATIONS end) ->
  fenced_by (base_handle worker_id command token) V.
Proof.
  intros Hop. unfold base_handle. destruct (envelope_payload command) as [[| | | | | |k data| |]|]; try done.
  specialize (Hop k data). unfold required_string, addressed, get in *.
  destruct (dict_get "reply_topic" data) as [[| | | |reply_topic| | | |]|]; try done. destruct (blank reply_topic); [done|]. cbn.
  destruct (starts_with reply_topic REPLY_PREFIX) eqn:Hs; [|done]. cbn.
  destruct (dict_get "worker_id" data) as [[| | | |target| | | |]|]; try done. destruct (blank target); [done|]. cbn.
  destruct (dict_get "worker_job_id" data) as [[| | | |job| | | |]|]; try done. destruct (blank job); [done|]. cbn.
  destruct (String.eqb target worker_id) eqn:Ht; [|by intros [?|?]]. cbn.
  destruct (dict_get "operation" data) as [[| | | |operation| | | |]|]; try done. destruct (blank operation); [done|]. cbn.
  split; [|by intros [?|?]].
  apply Hop; [done| |done]. exact (f_equal2 andb Hs Ht).
Qed.

Lemma clean_fenced_handle worker_id command : clean (fenced_handle worker_id command).
Proof.
  intros V. unfold fenced_handle. destruct (envelope_payload command) as [[| | | | | |k data| |]|] eqn:Hp;
    try (apply base_handle_fenced; intros ???; rewrite Hp; discriminate).
  destruct (hashable _); [|done]. cbn [guard mbind prog_bind].
  destruct (text_of (get "operation" data)) as [operation|] eqn:Ht; [|apply base_handle_fenced; intros ???; rewrite Hp; intros [= <- <-] _ E; by rewrite E in Ht].
  destruct (_ || _) eqn:Hskip.
  - apply base_handle_fenced; intros ??? E Ha Ho. rewrite Hp in E. injection E as <- <-. rewrite Ho in Ht. injection Ht as ->.
    rewrite Ha, orb_false_r in Hskip. destruct (in_strs_true operation FENCED_OPERATIONS) as [_ Hin]. intros ?%Hin. by destruct (in_strs _ _).
  - clear Hskip. destruct (decode_fencing_token _) as [token|]; [|exact (clean_call (Publish_error _ _) eq_refl V)].
    destruct (negb _); [exact (clean_call (Publish_error _ _) eq_refl V)|].
    apply fenced_assert; [apply base_handle_fenced; intros; by left|]. intros e. cbn beta iota. solve_clean.
Qed.

Lemma clean_script s : clean (run_script s).
Proof.
  destruct s; cbn [run_script]; (apply clean_seq; [|done]); apply clean_for_each; intros a; cbn beta; unfold discard_result;
    auto using clean_handle_call.
  - apply clean_seq; [|done]. apply clean_attempt, clean_fenced_handle.
  - exact (clean_call (Set_available a) eq_refl).
Qed.

(** ** What an operation adds to the history *)

Definition new_events (o : haop) (r : res (hareply o)) : list ha_event :=
  match r with
  | Ok _ => match o with
            | AssertFence t => [Validated t]
            | Reconcile i t _ _ => [Reconciled i t]
            | Return_grant i public t => [Granted i public t]
            | Handle_command operation token => [Handled operation token]
            | _ => []
            end
  | Err _ => match o with Handle_command operation token => [Handled operation token] | _ => [] end
  end.

Section world.
Context {P : Type} `{CoordinationProviderLaws P} (E : ha_env).

Lemma perform_log o (w : ha_world P) : ha_log (perform_ha E o w).2 = new_events o (perform_ha E o w).1 ++ ha_log w.
Proof.
  destruct o; cbn [perform_ha]; unfold on_provider, noting;
    repeat match goal with |- context [let '(_, _) := ?x in _] => destruct x as [[?|?] ?] end; try done.
  - by destruct (ha_reconcile _ _ _ _ _ _).
  - by destruct (ha_worker _ _ _ _).
Qed.

Lemma perform_leadership o (w : ha_world P) :
  rtc lease_step (leadership_of (ha_provider w)) (leadership_of (ha_provider (perform_ha E o w).2)).
Proof.
  destruct o; cbn [perform_ha]; unfold on_provider, noting; try done;
    match goal with
    | |- context [acquire ?x ?t ?n ?p] => pose proof (acquire_steps x t n p) as Hs; by destruct (acquire x t n p)
    | |- context [renew ?x ?t ?n ?p] => pose proof (renew_steps x t n p) as Hs; by destruct (renew x t n p)
    | |- context [release ?x ?n ?p] => pose proof (release_steps x n p) as Hs; by destruct (release x n p)
    | |- context [inspect ?n ?p] => pose proof (inspect_steps n p) as Hs; by destruct (inspect n p)
    | |- context [assert_fence ?x ?n ?p] => pose proof (assert_steps x n p) as Hs; by destruct (assert_fence x n p)
    | |- context [set_available ?b ?p] => apply available_steps
    end.
Qed.

Lemma perform_asserts t (w : ha_world P) :
  (perform_ha E (AssertFence t) w).1 = Ok tt -> leads (leadership_of (ha_provider (perform_ha E (AssertFence t) w).2)) t.
Proof.
  cbn [perform_ha]. pose proof (assert_leads t (Aware (ha_clock E (ha_moment w))) (ha_provider w)) as Hl.
  by destruct (assert_fence _ _ _).
Qed.

(** ** Tokens in the order of their epochs *)

Definition in_order (t1 t2 : FencingToken) : Prop := (token_epoch t1 <= token_epoch t2)%Z /\ (token_epoch t1 = token_epoch t2 -> t1 = t2).

Fixpoint fenced_log (log : list ha_event) : Prop :=
  match log with
  | [] => True
  | e :: log' =>
      fenced_log log' /\
      match e with
      | Validated t => forall t', Validated t' ∈ log' -> in_order t' t
      | Granted _ _ t | Handled _ (Some t) => Validated t ∈ log'
      | Handled operation None => operation ∉ FENCED_OPERATIONS
      | Reconciled _ _ => True
      end
  end.

(** Each token that the provider found current led then. *)
Definition led (w : ha_world P) : Prop :=
  forall t, Validated t ∈ ha_log w -> exists l, leads l t /\ rtc lease_step l (leadership_of (ha_provider w)).

Record fenced_pool (c : list (haprog unit) * ha_world P) : Prop := {
  pool_log : fenced_log (ha_log c.2);
  pool_led : led c.2;
  pool_threads i p : c.1 !! i = Some p -> exists V, fenced_by p V /\ (forall t, t ∈ V -> Validated t ∈ ha_log c.2)
}.

(** What a program may do next, and what it knows after. *)
Lemma fenced_vis {A} o (k : res (hareply o) -> haprog A) V r :
  fenced_by (Vis o k) V ->
  exists V', fenced_by (k r) V' /\
    (forall t, t ∈ V' -> t ∈ V \/ Validated t ∈ new_events o r) /\
    (forall i public t, o = Return_grant i public t -> t ∈ V) /\
    (forall operation token, o = Handle_command operation token ->
       match token with Some t => t ∈ V | None => operation ∉ FENCED_OPERATIONS end).
Proof.
  intros Hf. destruct o; cbn in Hf;
    try (exists V; split_and!; [apply Hf|by left|intros ??? [= -> -> ->]; apply Hf || done|intros ?? [= -> ->]; apply Hf || done]).
  destruct Hf as [Hok Herr]. destruct r as [[]|e].
  - exists (token :: V). split_and!; [done| |done|done]. intros t [->|?]%elem_of_cons; [right; by left|by left].
  - exists V. split_and!; [done|by left|done|done].
Qed.

(** At most one event, of the operation. *)
Definition event_of (o : haop) (e : ha_event) : Prop :=
  match e with
  | Validated t => o = AssertFence t
  | Reconciled i t => exists epoch reason, o = Reconcile i t epoch reason
  | Granted i public t => o = Return_grant i public t
  | Handled operation token => o = Handle_command operation token
  end.

Lemma new_events_cases o r : new_events o r = [] \/ exists e, new_events o r = [e] /\ event_of o e.
Proof. destruct o, r; cbn; first [by left|right; eexists; split; [done|cbn; eauto]]. Qed.

Lemma perform_validates o (w : ha_world P) t :
  Validated t ∈ new_events o (perform_ha E o w).1 -> leads (leadership_of (ha_provider (perform_ha E o w).2)) t.
Proof.
  intros Ht. destruct (new_events_cases o (perform_ha E o w).1) as [Hn|(e & Hn & He)]; rewrite Hn in Ht; [by apply not_elem_of_nil in Ht|].
  apply list_elem_of_singleton in Ht as <-. cbn in He. subst o.
  destruct (perform_ha E (AssertFence t) w).1 as [[]|] eqn:Hr; [by apply perform_asserts|done].
Qed.

Lemma fenced_move c i o k :
  c.1 !! i = Some (Vis o k) -> fenced_pool c -> fenced_pool (<[i := k (perform_ha E o c.2).1]> c.1, (perform_ha E o c.2).2).
Proof.
  intros Hi [Hlog Hled Hthreads]. destruct (Hthreads i _ Hi) as (V & HV & HVlog).
  set (r := (perform_ha E o c.2).1). destruct (fenced_vis o k V r HV) as (V' & HV' & Hgrow & Hgrant & Hhandle).
  pose proof (perform_log o c.2) as Hnew. fold r in Hnew. pose proof (perform_leadership o c.2) as Hlead.
  split; cbn [fst snd].
  - rewrite Hnew. destruct (new_events_cases o r) as [->|(e & Hone & He)]; [done|]. rewrite Hone. split; [done|].
    destruct e as [t|j t|j public t|operation token]; [| |by apply HVlog, (Hgrant j public)|].
    + intros t' (l & Hl & Hs)%Hled. eapply lease_steps_fence; [|exact Hl|].
      * etrans; [exact Hs|exact Hlead].
      * apply perform_validates. fold r. rewrite Hone. by left.
    + done.
    + specialize (Hhandle operation token He). destruct token; [by apply HVlog|done].
  - intros t. rewrite Hnew. intros [Ht|Ht]%elem_of_app.
    + exists (leadership_of (ha_provider (perform_ha E o c.2).2)). split; [by apply perform_validates|done].
    + destruct (Hled t Ht) as (l & Hl & Hs). exists l. split; [done|]. by etrans.
  - intros j p Hp. destruct (decide (j = i)) as [->|Hne].
    + rewrite list_lookup_insert_eq in Hp by (by eapply lookup_lt_Some). injection Hp as <-. exists V'. split; [done|].
      intros t Ht. rewrite Hnew. apply elem_of_app. destruct (Hgrow t Ht) as [?|?]; [right; by apply HVlog|by left].
    + rewrite list_lookup_insert_ne in Hp by done. destruct (Hthreads j p Hp) as (Vj & ? & HVj). exists Vj. split; [done|].
      intros t Ht. rewrite Hnew. apply elem_of_app. right. by apply HVj.
Qed.

Lemma fenced_run turns c : fenced_pool c -> fenced_pool (run_threads (perform_ha E) turns c).
Proof. intros Hc. apply run_threads_ind; [done|]. intros. by apply fenced_move. Qed.
End world.
