(* ===== verification/FailoverBarrier.v ===== *)
(** * The barrier between election and leadership

    A process whose promotions run one at a time returns no public grant for a token before its reconciler has
    completed for that token, whatever its other coroutines, the other processes and the provider do. *)

From Stdlib Require Import SpecFloat.
From S2P Require Import Prelude PyValue Errors StateMonad PyTime TransportModels Leadership Failover FailoverProofs.

(** ** The attributes of a service *)

(** An active process holds a reconciled lease, and a lease that is not reconciled is the one that is being
    promoted. *)
Definition state_barred (R : FencingToken -> Prop) (cur : option FencingToken) (s : FailoverState) : Prop :=
  match svc_lease s with
  | None => True
  | Some l => (svc_role s = CP_ACTIVE -> R (lease_token l)) /\ (R (lease_token l) \/ cur = Some (lease_token l))
  end.

Definition preserving (f : FailoverState -> FailoverState) : Prop := forall R cur s, state_barred R cur s -> state_barred R cur (f s).

(** What reading the attributes tells a coroutine. *)
Definition known (s : FailoverState) : list FencingToken :=
  match svc_role s, svc_lease s with CP_ACTIVE, Some l => [lease_token l] | _, _ => [] end.

Lemma preserving_drop f : (forall s, svc_lease (f s) = None) -> preserving f.
Proof. intros Hf R cur s _. unfold state_barred. by rewrite Hf. Qed.
Lemma preserving_same f :
  (forall s, svc_lease (f s) = svc_lease s) -> (forall s, svc_role (f s) = CP_ACTIVE -> svc_role s = CP_ACTIVE) -> preserving f.
Proof. intros Hl Hr R cur s. unfold state_barred. rewrite Hl. destruct (svc_lease s); [|done]. intros [Ha Hb]. auto. Qed.
Lemma preserving_inspection_failed : preserving inspection_failed.
Proof. intros R cur s Hs. unfold inspection_failed. by destruct (leading s). Qed.
Lemma preserving_inspected c state : preserving (inspected c state).
Proof. intros R cur s Hs. unfold inspected. by destruct (mismatched c state s). Qed.

Lemma state_barred_mono (R R' : FencingToken -> Prop) cur s : (forall t, R t -> R' t) -> state_barred R cur s -> state_barred R' cur s.
Proof. unfold state_barred. destruct (svc_lease s); [|done]. intros HR [Ha Hb]. split; [auto|]. destruct Hb; auto. Qed.

Lemma state_barred_known (R : FencingToken -> Prop) cur s t : state_barred R cur s -> t ∈ known s -> R t.
Proof.
  unfold state_barred, known. destruct (svc_role s), (svc_lease s); try (intros _ H; by apply not_elem_of_nil in H).
  intros [Ha _] ->%list_elem_of_singleton. auto.
Qed.

(** ** The coroutines of a process *)

Section barred.
Context (i : nat) (may : bool).

(** [p] is a coroutine of the service [i] that knows the tokens [K] to be reconciled. The token that is being
    promoted is [cur], which only a coroutine that may promote replaces. *)
Fixpoint barred {A} (p : haprog A) (cur : option FencingToken) (K : list FencingToken) : Prop :=
  match p with
  | Ret _ | Raise _ => True
  | Vis o k =>
      match o return (res (hareply o) -> haprog A) -> Prop with
      | Update j f => fun k => j = i /\ forall s, exists cur', (cur' = cur \/ may = true) /\
          (forall R : FencingToken -> Prop, (forall t, t ∈ known s ++ K -> R t) -> state_barred R cur s -> state_barred R cur' (f s)) /\
          barred (k (Ok s)) cur' (known s ++ K)
      | Reconcile j t _ _ => fun k => j = i /\ (forall r, barred (k (Ok r)) cur (t :: K)) /\ forall e, barred (k (Err e)) cur K
      | Renew t _ => fun k => (forall l, lease_token l = t -> barred (k (Ok l)) cur K) /\ forall e, barred (k (Err e)) cur K
      | Return_grant j public t => fun k => (public = true -> j = i /\ t ∈ K) /\ forall r, barred (k r) cur K
      | _ => fun k => forall r, barred (k r) cur K
      end k
  end.

Definition guarded {A} (p : haprog A) : Prop := forall cur K, barred p cur K.

Lemma barred_bind {A B} (p : haprog A) (f : A -> haprog B) cur K : barred p cur K -> (forall a, guarded (f a)) -> barred (p ≫= f) cur K.
Proof.
  intros Hp Hf. revert cur K Hp. induction p as [a|e|o k IH]; intros cur K Hp; cbn [barred mbind prog_bind] in *; [apply Hf|done|].
  destruct o; cbn in *; try naive_solver.
Qed.
Lemma barred_attempt {A} (p : haprog A) cur K : barred p cur K -> barred (attempt p) cur K.
Proof.
  revert cur K. induction p as [a|e|o k IH]; intros cur K Hp; cbn [barred attempt] in *; [done..|].
  destruct o; cbn in *; try naive_solver.
Qed.
Lemma barred_catch {A} (p : haprog A) h cur K : barred p cur K -> (forall e, guarded (h e)) -> barred (catch p h) cur K.
Proof.
  intros Hp Hh. revert cur K Hp. induction p as [a|e|o k IH]; intros cur K Hp; cbn [barred catch] in *; [done|apply Hh|].
  destruct o; cbn in *; try naive_solver.
Qed.

Lemma guarded_barred {A} (p : haprog A) cur K : guarded p -> barred p cur K.
Proof. auto. Qed.
Lemma guarded_seq {A B} (p : haprog A) (f : A -> haprog B) : guarded p -> (forall a, guarded (f a)) -> guarded (p ≫= f).
Proof. intros Hp Hf cur K. by apply barred_bind. Qed.
Lemma guarded_attempt {A} (p : haprog A) : guarded p -> guarded (attempt p).
Proof. intros Hp cur K. by apply barred_attempt. Qed.
Lemma guarded_catch {A} (p : haprog A) h : guarded p -> (forall e, guarded (h e)) -> guarded (catch p h).
Proof. intros Hp Hh cur K. by apply barred_catch. Qed.
Lemma guarded_lift {A} (r : res A) : guarded (lift r).
Proof. by destruct r. Qed.
Lemma guarded_guard b e : guarded (guard b e).
Proof. by destruct b. Qed.
Lemma guarded_for_each {A B} (f : A -> haprog B) l : (forall a, a ∈ l -> guarded (f a)) -> guarded (for_each f l).
Proof.
  intros Hf. induction l as [|a l IH]; [done|]. apply guarded_seq; [apply Hf; by left|]. intros b.
  apply guarded_seq; [|done]. apply IH. intros a' Ha. apply Hf. by right.
Qed.

Definition plain (o : haop) : bool :=
  match o with Update _ _ | Reconcile _ _ _ _ | Return_grant _ true _ => false | _ => true end.
Lemma guarded_call o : plain o = true -> guarded (hacall o).
Proof. intros Ho cur K. destruct o; try done; cbn; try (intros [?|?]; done). destruct public; [done|]. split; [done|]. by intros [?|?]. Qed.
Lemma guarded_reconcile t epoch reason : guarded (hacall (Reconcile i t epoch reason)).
Proof. done. Qed.
Lemma guarded_update f : preserving f -> guarded (hacall (Update i f)).
Proof. intros Hf cur K. split; [done|]. intros s. exists cur. split_and!; [by left| |done]. intros R _. apply Hf. Qed.

(** A coroutine that awaits an operation and looks at its outcome. *)
Lemma barred_reply {A} o (f : res (hareply o) -> haprog A) cur K : barred (Vis o f) cur K -> barred (attempt (hacall o) ≫= f) cur K.
Proof.
  destruct o; cbn; try (intros Hf [r|e]; [exact (Hf (Ok r))|exact (Hf (Err e))]); try exact id.
  - intros [Hok Hf]. split; [done|]. intros [r|e]; [exact (Hf (Ok r))|exact (Hf (Err e))].
Qed.

(** A coroutine that reads the attributes. *)
Lemma barred_read {A} (k : FailoverState -> haprog A) cur K :
  (forall s, barred (k s) cur (known s ++ K)) -> barred (s ← hacall (Update i id); k s) cur K.
Proof. intros Hk. split; [done|]. intros s. exists cur. split_and!; [by left|by intros|apply Hk]. Qed.
End barred.

Create HintDb barred discriminated.
#[export] Hint Resolve guarded_lift guarded_guard guarded_reconcile preserving_inspection_failed preserving_inspected : barred.

Ltac guarded_step :=
  match goal with
  | |- guarded _ _ (Ret _) => done
  | |- guarded _ _ (Raise _) => done
  | |- guarded _ _ (hacall (Update _ _)) => apply guarded_update
  | |- guarded ?i ?may (hacall (Reconcile _ _ _ _)) => apply guarded_reconcile
  | |- guarded ?i ?may (hacall ?o) => exact (guarded_call i may o eq_refl)
  | |- preserving _ => solve [auto with barred nocore]
  | |- preserving _ => by apply preserving_drop
  | |- preserving _ => by apply preserving_same
  | |- guarded _ _ (attempt _) => apply guarded_attempt
  | |- guarded _ _ (catch _ _) => apply guarded_catch; [|intros ?]
  | |- guarded _ _ (_ ≫= _) => apply guarded_seq; [|intros ?]
  | |- guarded _ _ (match ?x with _ => _ end) => destruct x
  | |- guarded _ _ _ => solve [auto with barred nocore]
  end.
Ltac solve_guarded := cbn beta iota zeta; repeat guarded_step.

Section services.
Context (i : nat) (may : bool) (c : FailoverConfig) (Hmode : mode c <> SINGLE_NODE) (Hrec : has_reconciler c = true).

Lemma guarded_required_coordinator : guarded i may (required_coordinator c).
Proof. apply guarded_guard. Qed.
Hint Resolve guarded_required_coordinator : barred.

Lemma guarded_observed_epoch : guarded i may (observed_epoch i).
Proof. unfold observed_epoch. solve_guarded. Qed.
Lemma guarded_best_effort_release token : guarded i may (best_effort_release token).
Proof. unfold best_effort_release. solve_guarded. Qed.
Hint Resolve guarded_observed_epoch guarded_best_effort_release : barred.

Lemma not_single : bool_decide (mode c = SINGLE_NODE) = false.
Proof. by apply bool_decide_eq_false. Qed.

(** The role becomes active for a reconciled token only. *)
Lemma barred_promote lease previous_epoch reason K : barred i may (promote i c lease previous_epoch reason) (Some (lease_token lease)) K.
Proof.
  unfold promote, reconcile. rewrite Hrec. apply barred_reply. split; [done|]. split.
  - intros r. split; [done|]. intros s. exists (Some (lease_token lease)). split_and!; [by left| |done].
    intros R HK. unfold state_barred. cbn. destruct (svc_lease s) as [l|]; [|done]. intros [_ Hb].
    assert (R (lease_token l)) by (destruct Hb as [?|[= <-]]; [done|]; apply HK, elem_of_app; right; by left). auto.
  - intros e. apply barred_bind; [apply guarded_attempt, guarded_best_effort_release|]. intros released. solve_guarded.
Qed.

Lemma guarded_try_promote reason : may = true -> guarded i may (try_promote i c reason).
Proof.
  intros Hmay. unfold try_promote, validate_reason. rewrite not_single. apply guarded_seq; [apply guarded_guard|]. intros _.
  apply guarded_seq; [apply guarded_required_coordinator|]. intros _. apply guarded_seq; [apply guarded_observed_epoch|]. intros epoch.
  apply guarded_seq; [apply guarded_attempt; exact (guarded_call i may (Acquire _ _) eq_refl)|].
  intros [lease|e]; [|solve_guarded].
  intros cur K. cbn beta iota. split; [done|]. intros s. exists (Some (lease_token lease)). split_and!; [by right| |].
  - intros R HK Hs. unfold lease_acquired, state_barred. destruct (already_owned lease s) eqn:Ha; cbn.
    + unfold already_owned in Ha. destruct (svc_lease s) as [l|] eqn:Hl; [|done].
      apply andb_true_iff in Ha as [Ht%bool_decide_eq_true Hr%bool_decide_eq_true].
      assert (R (lease_token lease)) as HR; [|auto].
      rewrite <- Ht. apply (state_barred_known R cur s); [done|]. unfold known. rewrite Hr, Hl. by left.
    + split; [done|by right].
  - cbn. destruct (already_owned lease s); [done|]. apply barred_promote.
Qed.

Lemma barred_grant public lease cur K : (public = true -> lease_token lease ∈ K) -> barred i may (grant_lease_authority i c public lease) cur K.
Proof.
  intros HK. unfold grant_lease_authority, required_coordinator. destruct (has_coordinator c); [|done]. cbn [guard].
  change (Ret tt ≫= ?f) with (f tt). cbn beta. apply barred_reply. intros [[]|e].
  - destruct (AuthorityGrant_post_init _); [|done]. split; [auto|]. by intros [?|?].
  - apply guarded_barred. solve_guarded.
Qed.

Lemma known_active s l : svc_role s = CP_ACTIVE -> svc_lease s = Some l -> lease_token l ∈ known s.
Proof. intros Hr Hl. unfold known. rewrite Hr, Hl. by left. Qed.

Lemma barred_authority_of s cur K : barred i may (authority_of i c s) cur (known s ++ K).
Proof.
  unfold authority_of. destruct (svc_role s) eqn:Hr; try done. destruct (svc_lease s) eqn:Hl; [|done].
  apply barred_grant. intros _. apply elem_of_app. left. by apply known_active.
Qed.

Lemma guarded_require_authority : guarded i may (require_authority i c).
Proof. unfold require_authority. rewrite not_single. intros cur K. apply barred_read. intros s. apply barred_authority_of. Qed.

Lemma guarded_require_reconciliation_authority : guarded i may (require_reconciliation_authority i c).
Proof.
  unfold require_reconciliation_authority. rewrite not_single. intros cur K. apply barred_read. intros s.
  destruct (svc_role s); try done; [apply barred_authority_of|].
  destruct (svc_reconciling s); [|done]. destruct (svc_lease s); [|done]. by apply barred_grant.
Qed.

Lemma guarded_renew_lease : guarded i may (renew_lease i c).
Proof.
  unfold renew_lease. rewrite not_single. intros cur K. apply barred_read. intros s.
  destruct (svc_role s) eqn:Hr; try done. destruct (svc_lease s) as [l|] eqn:Hl; [|done].
  unfold required_coordinator. destruct (has_coordinator c); [|done]. cbn [guard].
  change (Ret tt ≫= ?f) with (f tt). cbn beta. apply barred_reply. split.
  - intros renewed Ht. intros [now|e]; [|done]. split; [done|]. intros s'. exists cur. split_and!; [by left| |done].
    intros R HK _. unfold state_barred. cbn. rewrite Ht.
    assert (R (lease_token l)) by (apply HK, elem_of_app; right; apply elem_of_app; left; by apply known_active). auto.
  - intros e. apply guarded_barred. solve_guarded.
Qed.
Hint Resolve guarded_require_authority guarded_require_reconciliation_authority guarded_renew_lease : barred.

Lemma guarded_handle_call call : (promotes call = true -> may = true) -> guarded i may (handle_call i c call).
Proof.
  intros Hp. unfold handle_call, discard_result. destruct call; cbn in Hp;
    (apply guarded_seq; [apply guarded_attempt|done]); auto with barred nocore; try (by apply guarded_try_promote, Hp).
  - unfold start, validate_reason. rewrite not_single. apply guarded_seq; [apply guarded_guard|]. intros _. by apply guarded_try_promote, Hp.
  - unfold step_down. rewrite not_single. apply guarded_seq; [apply guarded_update, preserving_drop; done|]. intros s.
    destruct (svc_lease s); [|done]. solve_guarded.
  - unfold status. rewrite not_single. solve_guarded.
Qed.
End services.

Lemma guarded_base_handle i may worker_id command token : guarded i may (base_handle worker_id command token).
Proof. unfold base_handle. solve_guarded. Qed.
Lemma guarded_fenced_handle i may worker_id command : guarded i may (fenced_handle worker_id command).
Proof.
  unfold fenced_handle. pose proof (guarded_base_handle i may worker_id command). solve_guarded; auto.
Qed.

(** ** Any interleaving *)

Fixpoint barred_log (log : list ha_event) : Prop :=
  match log with
  | [] => True
  | e :: log' => barred_log log' /\ match e with Granted i true t => Reconciled i t ∈ log' | _ => True end
  end.

Section pool.
Context {P : Type} `{CoordinationProviderLaws P} (E : ha_env).
(** The service of each coroutine, and which coroutines promote. *)
Context (sid : nat -> nat) (may : nat -> bool).
Context (Hone : forall j1 j2, may j1 = true -> may j2 = true -> sid j1 = sid j2 -> j1 = j2).

Abbreviation reconciled w i := (fun t => Reconciled i t ∈ ha_log w).

Definition thread_barred (j : nat) (p : haprog unit) (cur : nat -> option FencingToken) (K : list FencingToken) : Prop :=
  forall cu, (may j = true -> cu = cur (sid j)) -> barred (sid j) (may j) p cu K.

Record barred_pool (c : list (haprog unit) * ha_world P) (cur : nat -> option FencingToken) : Prop := {
  pool_barred_log : barred_log (ha_log c.2);
  pool_services i : state_barred (reconciled c.2 i) (cur i) (ha_services c.2 i);
  pool_coroutines j p : c.1 !! j = Some p -> exists K, (forall t, t ∈ K -> reconciled c.2 (sid j) t) /\ thread_barred j p cur K
}.

Lemma perform_services o (w : ha_world P) :
  ha_services (perform_ha E o w).2 =
  match o with Update i f => fun j => if decide (j = i) then f (ha_services w i) else ha_services w j | _ => ha_services w end.
Proof.
  destruct o; cbn [perform_ha]; unfold on_provider, noting;
    repeat match goal with |- context [let '(_, _) := ?x in _] => destruct x as [[?|?] ?] end; done.
Qed.

Lemma perform_renews t ttl (w : ha_world P) l : (perform_ha E (Renew t ttl) w).1 = Ok l -> lease_token l = t.
Proof.
  cbn [perform_ha]. unfold on_provider. pose proof (renew_leads t ttl (Aware (ha_clock E (ha_moment w))) (ha_provider w)) as Hl.
  destruct (renew _ _ _ _) as [r p]. cbn in *. intros ->. by apply Hl.
Qed.

Definition barred_after (j : nat) (o : haop) (k : res (hareply o) -> haprog unit) (cur : nat -> option FencingToken) (K : list FencingToken)
  (w : ha_world P) (cur' : option FencingToken) (K' : list FencingToken) : Prop :=
  let w' := (perform_ha E o w).2 in
  (cur' = cur (sid j) \/ may j = true) /\
  (forall t, t ∈ K' -> reconciled w' (sid j) t) /\
  (forall cu, (may j = true -> cu = cur') -> barred (sid j) (may j) (k (perform_ha E o w).1) cu K') /\
  state_barred (reconciled w' (sid j)) cur' (ha_services w' (sid j)) /\
  (forall i, i <> sid j -> ha_services w' i = ha_services w i) /\
  (forall i t, o = Return_grant i true t -> i = sid j /\ t ∈ K).

(** One operation of a coroutine: what it knows next, and the token that is being promoted. *)
Lemma barred_vis j o k cur K (w : ha_world P) :
  thread_barred j (Vis o k) cur K -> (forall t, t ∈ K -> reconciled w (sid j) t) ->
  state_barred (reconciled w (sid j)) (cur (sid j)) (ha_services w (sid j)) ->
  exists cur' K', barred_after j o k cur K w cur' K'.
Proof.
  intros Hp HK Hs. set (w' := (perform_ha E o w).2). set (goal := barred_after j o k cur K w).
  assert (forall i t, reconciled w i t -> reconciled w' i t) as Hmono.
  { intros i t Hin. unfold w'. rewrite perform_log. apply elem_of_app. by right. }
  pose proof (perform_services o w) as Hserv. fold w' in Hserv.
  assert (forall K' cur', cur' = cur (sid j) ->
    (forall i f, o <> Update i f) -> (forall t, t ∈ K' -> t ∈ K \/ Reconciled (sid j) t ∈ new_events o (perform_ha E o w).1) ->
    (forall cu, (may j = true -> cu = cur (sid j)) -> barred (sid j) (may j) (k (perform_ha E o w).1) cu K') ->
    (forall i t, o = Return_grant i true t -> i = sid j /\ t ∈ K) -> goal cur' K') as Hquiet.
  { intros K' cur' -> Ho HK' Hnext Hgrant. assert (ha_services w' = ha_services w) as Hsame by (rewrite Hserv; by destruct o; try done; edestruct Ho).
    unfold goal, barred_after. fold w'. rewrite Hsame. split_and!; [by left| |done|apply (state_barred_mono (reconciled w (sid j))); [intros t; apply Hmono|done]|done|done].
    intros t Ht. destruct (HK' t Ht) as [?|?]; [by apply Hmono, HK|]. unfold w'. rewrite perform_log. apply elem_of_app. by left. }
  destruct o;
    try (exists (cur (sid j)), K; apply Hquiet; [done|done|by left|intros cu Hcu; apply (Hp cu Hcu)|done]).
  - destruct (Hp (cur (sid j)) (fun _ => eq_refl)) as [-> Hnext]. 
    set (s := ha_services w (sid j)) in *. destruct (Hnext s) as (cur' & Hcur & HR & Hk). exists cur', (known s ++ K).
    assert (forall t, t ∈ known s ++ K -> reconciled w (sid j) t) as HK2.
    { intros t [Ht|Ht]%elem_of_app; [by apply (state_barred_known (reconciled w (sid j)) _ _ _ Hs)|by apply HK]. }
    unfold goal, barred_after. fold w'. rewrite Hserv. split_and!; [done|by intros t Ht; apply Hmono, HK2| | |by intros i Hne; rewrite decide_False by done|done].
    + intros cu Hcu. destruct (may j) eqn:Hm; [by rewrite (Hcu eq_refl)|].
      destruct (Hp cu ltac:(congruence)) as [_ Hp']. rewrite Hm in Hp'. by destruct (Hp' s) as (cur2 & [->|?] & _ & Hk2).
    + rewrite decide_True by done. apply (state_barred_mono (reconciled w (sid j))); [intros t; apply Hmono|]. by apply HR.
  - destruct ((perform_ha E (Renew token ttl) w).1) as [l|e] eqn:Hr.
    + exists (cur (sid j)), K. apply Hquiet; try done; [by left|]. intros cu Hcu. apply (Hp cu Hcu). by eapply perform_renews.
    + exists (cur (sid j)), K. apply Hquiet; try done; [by left|]. intros cu Hcu. apply (Hp cu Hcu).
  - destruct (Hp (cur (sid j)) (fun _ => eq_refl)) as [-> _]. destruct ((perform_ha E (Reconcile _ _ _ _) w).1) as [l|e] eqn:Hr.
    + exists (cur (sid j)), (token :: K). apply Hquiet; try done.
      * intros t [->|?]%elem_of_cons; [right; by left|by left].
      * intros cu Hcu. apply (Hp cu Hcu).
    + exists (cur (sid j)), K. apply Hquiet; try done; [by left|]. intros cu Hcu. apply (Hp cu Hcu).
  - exists (cur (sid j)), K. apply Hquiet; try done; [by left|by intros cu Hcu; apply (Hp cu Hcu)|].
    intros i t [= -> -> ->]. by apply (Hp (cur (sid j)) (fun _ => eq_refl)).
Qed.

Lemma barred_move c cur i o k :
  barred_pool c cur -> c.1 !! i = Some (Vis o k) ->
  exists cur', barred_pool (<[i := k (perform_ha E o c.2).1]> c.1, (perform_ha E o c.2).2) cur'.
Proof.
  intros [Hlog Hserv Hthr] Hi. destruct (Hthr i _ Hi) as (K & HK & Hp).
  destruct (barred_vis i o k cur K c.2 Hp HK (Hserv (sid i))) as (cu' & K' & Hcur & HK' & Hnext & Hs' & Hother & Hgrant).
  set (r := (perform_ha E o c.2).1) in *. set (w' := (perform_ha E o c.2).2) in *.
  pose proof (perform_log E o c.2) as Hnew. fold r w' in Hnew.
  assert (forall i t, reconciled c.2 i t -> reconciled w' i t) as Hmono by (intros j t Hin; rewrite Hnew; apply elem_of_app; by right).
  exists (fun n => if decide (n = sid i) then cu' else cur n). split; cbn [fst snd].
  - rewrite Hnew. destruct (new_events_cases o r) as [->|(e & -> & He)]; [done|]. split; [done|].
    destruct e as [| |j [] t|]; try done. destruct (Hgrant j t He) as [-> Ht]. by apply HK.
  - intros n. destruct (decide (n = sid i)) as [->|Hne]; [done|]. rewrite Hother by done. by apply (state_barred_mono (reconciled c.2 n)); [intros t; apply Hmono|].
  - intros j p Hpj. destruct (decide (j = i)) as [->|Hne].
    + rewrite list_lookup_insert_eq in Hpj by (by eapply lookup_lt_Some). injection Hpj as <-. exists K'. split; [done|].
      intros cu Hcu. apply Hnext. intros Hm. rewrite (Hcu Hm). by rewrite decide_True.
    + rewrite list_lookup_insert_ne in Hpj by done. destruct (Hthr j p Hpj) as (Kj & HKj & Hbj). exists Kj. split; [auto|].
      intros cu Hcu. apply Hbj. intros Hm. rewrite (Hcu Hm). case_decide as Hsid; [|done]. destruct Hcur as [->|Hmi]; [by rewrite Hsid|].
      by destruct Hne; apply Hone.
Qed.

Lemma barred_run turns c cur : barred_pool c cur -> exists cur', barred_pool (run_threads (perform_ha E) turns c) cur'.
Proof.
  intros Hb. apply (run_threads_ind (perform_ha E) (fun c => exists cur, barred_pool c cur)); [by exists cur|].
  intros i o k c' Hi (cur' & Hc'). by eapply barred_move.
Qed.
End pool.
