(* ===== verification/FailoverTheorems.v ===== *)
(** * What the leadership of the control plane guarantees

    Over any provider with the laws of Leadership.v: authority is fenced and comes after reconciliation, in any
    interleaving. Of one service: it fails closed. Of the reference provider: a standby waits for the lease and
    takes over when it has expired. *)

From Stdlib Require Import SpecFloat.
From S2P Require Import Prelude PyValue Errors StateMonad PyTime TransportModels Leadership Failover FailoverProofs FailoverBarrier.

Section deployments.
Context {P : Type} `{CoordinationProviderLaws P} (E : ha_env).

(** A run of processes, workers and outages, from a world in which nothing happened yet. *)
Definition deployment (turns : list nat) (scripts : list ha_script) (w : ha_world P) : ha_world P :=
  (run_threads (perform_ha E) turns (map run_script scripts, w)).2.

Lemma deployment_fenced turns scripts w : ha_log w = [] -> fenced_log (ha_log (deployment turns scripts w)).
Proof.
  intros Hlog. apply (fenced_run E). split; cbn [fst snd].
  - by rewrite Hlog.
  - intros t. rewrite Hlog. intros Ht. by apply not_elem_of_nil in Ht.
  - intros j p Hp. apply list_lookup_fmap_Some in Hp as (s & -> & _). exists []. split; [apply clean_script|].
    intros t Ht. by apply not_elem_of_nil in Ht.
Qed.

Lemma fenced_log_app l1 l2 : fenced_log (l1 ++ l2) -> fenced_log l2.
Proof. induction l1 as [|e l1 IH]; [done|]. intros [? _]. auto. Qed.

(** C4. Whoever acts on a fencing token had it validated by the provider before, and tokens are validated in the order
    of their epochs, each epoch belonging to one token: once a newer leader was validated, nobody's older token
    is. A worker acts on a dispatch or cancel command only with a validated token. This holds in any interleaving
    of any number of processes (with any number of coroutines each), workers and outages, over any provider with the
    laws of [CoordinationProviderLaws]. *)
Theorem authority_is_fenced turns scripts w :
  ha_log w = [] ->
  let log := ha_log (deployment turns scripts w) in
  (forall later between earlier t1 t2, log = later ++ Validated t2 :: between ++ Validated t1 :: earlier ->
     (token_epoch t1 <= token_epoch t2)%Z /\ (token_epoch t1 = token_epoch t2 -> t1 = t2)) /\
  (forall later earlier i public t, log = later ++ Granted i public t :: earlier -> Validated t ∈ earlier) /\
  (forall later earlier operation t, log = later ++ Handled operation (Some t) :: earlier -> Validated t ∈ earlier) /\
  (forall operation, Handled operation None ∈ log -> operation ∉ FENCED_OPERATIONS).
Proof.
  intros Hlog log. pose proof (deployment_fenced turns scripts w Hlog) as Hf. fold log in Hf. split_and!.
  - intros later between earlier t1 t2 Heq. rewrite Heq in Hf. apply fenced_log_app in Hf as [_ Hord].
    apply Hord, elem_of_app. right. by left.
  - intros later earlier i public t Heq. rewrite Heq in Hf. by apply fenced_log_app in Hf as [_ ?].
  - intros later earlier operation t Heq. rewrite Heq in Hf. by apply fenced_log_app in Hf as [_ ?].
  - intros operation (later & earlier & Heq)%list_elem_of_split. rewrite Heq in Hf. by apply fenced_log_app in Hf as [_ ?].
Qed.

(** *** The promotion barrier *)

Definition script_service (s : ha_script) : nat := match s with Process i _ _ => i | _ => 0 end.
Definition may_promote (s : ha_script) : bool := match s with Process _ _ calls => existsb promotes calls | _ => false end.

(** At most one coroutine of each process promotes it. *)
Definition one_promoter (scripts : list ha_script) : Prop :=
  forall j1 j2 s1 s2, scripts !! j1 = Some s1 -> scripts !! j2 = Some s2 -> may_promote s1 = true -> may_promote s2 = true ->
    script_service s1 = script_service s2 -> j1 = j2.

(** Processes of an HA mode, with a reconciler. *)
Definition reconciling_config (s : ha_script) : Prop :=
  match s with Process _ c _ => mode c <> SINGLE_NODE /\ has_reconciler c = true | _ => True end.

Lemma script_guarded s : reconciling_config s -> guarded (script_service s) (may_promote s) (run_script s).
Proof.
  destruct s as [i c calls|worker_id commands|available]; cbn; intros Hc; (apply guarded_seq; [|done]); apply guarded_for_each.
  - destruct Hc as [Hm Hr]. intros call Hin. apply guarded_handle_call; [done..|]. intros Hp. apply existsb_exists. exists call.
    split; [by apply list_elem_of_In|done].
  - intros command _. apply guarded_seq; [|done]. apply guarded_attempt, guarded_fenced_handle.
  - intros b _. exact (guarded_call _ _ (Set_available b) eq_refl).
Qed.

(** C10. The barrier between election and leadership: a process that is promoted by one coroutine at a time returns a
    grant of [require_authority] for a token only after its reconciler has completed for that very token, whatever
    its other coroutines (renewals, authority checks, step-downs and status requests), the other processes and the
    outages of the provider do in between. *)
Theorem promotion_precedes_authority turns scripts w :
  ha_log w = [] -> (forall i, svc_lease (ha_services w i) = None) ->
  one_promoter scripts -> Forall reconciling_config scripts ->
  forall later earlier i t, ha_log (deployment turns scripts w) = later ++ Granted i true t :: earlier -> Reconciled i t ∈ earlier.
Proof.
  intros Hlog Hserv Hone Hconf.
  set (script j := default (Outages []) (scripts !! j)).
  destruct (barred_run E (fun j => script_service (script j)) (fun j => may_promote (script j))) with
    (turns := turns) (c := (map run_script scripts, w)) (cur := fun _ : nat => @None FencingToken) as [cur [Hbl _ _]].
  - intros j1 j2. unfold script. destruct (scripts !! j1) as [s1|] eqn:H1; [|done]. destruct (scripts !! j2) as [s2|] eqn:H2; [|done].
    intros. by eapply Hone.
  - split; cbn [fst snd].
    + by rewrite Hlog.
    + intros i. unfold state_barred. by rewrite Hserv.
    + intros j p Hp. apply list_lookup_fmap_Some in Hp as (s & -> & Hs). exists []. split; [intros t Ht; by apply not_elem_of_nil in Ht|].
      intros cu _. unfold script. rewrite Hs. apply script_guarded. rewrite Forall_lookup in Hconf. by apply (Hconf j).
  - fold (deployment turns scripts w) in Hbl. intros later earlier i t Heq. rewrite Heq in Hbl. clear Heq.
    induction later as [|e later IH]; [by destruct Hbl as [_ ?]|]. apply IH. by destruct Hbl.
Qed.
End deployments.

(** ** Failing closed *)

Section one_service.
Context {P : Type} `{CoordinationProviderLaws P} (E : ha_env) (i : nat) (c : FailoverConfig).

(** The provider was unreachable, or disowned the token. *)
Definition refused (e : exc) : bool := has_class CoordinationUnavailable e || has_class StaleFencingToken e.

Abbreviation run := (execute (perform_ha E)).

Lemma no_lease_no_authority w :
  mode c <> SINGLE_NODE -> svc_role (ha_services w i) <> CP_ACTIVE \/ svc_lease (ha_services w i) = None ->
  exists w', run (require_authority i c) w = (Err (not_leader "Control Plane instance is not the active leader"), w') /\
    ha_provider w' = ha_provider w /\ (forall j, ha_services w' j = ha_services w j).
Proof.
  intros Hmode Hno. unfold require_authority. rewrite bool_decide_eq_false_2 by done. rewrite execute_bind. cbn [hacall call execute perform_ha lift].
  eexists. split; [|split].
  - unfold authority_of. destruct (svc_role (ha_services w i)), (svc_lease (ha_services w i)); try done. by destruct Hno.
  - done.
  - intros j. cbn. by case_decide as Hj; [rewrite Hj|].
Qed.

(** C22. A process acts as the leader only while the provider says so. Run on its own, [require_authority] of an HA process
    either returns a grant of the lease that an active process holds, the provider naming that lease's token as
    its leader then, and changes no attribute; or it raises: without an active role and a lease it raises
    [NotLeaderError] without asking; and when the provider is unreachable or disowns the token, the exception is
    the provider's, and the process has given up its role and its lease, so that until it is promoted again every
    further [require_authority] raises. *)
Theorem authority_fails_closed w :
  mode c <> SINGLE_NODE -> has_coordinator c = true -> blank (instance_id c) = false ->
  let '(r, w') := run (require_authority i c) w in
  match r with
  | Ok grant =>
      exists lease, svc_role (ha_services w i) = CP_ACTIVE /\ svc_lease (ha_services w i) = Some lease /\
        grant = Build_AuthorityGrant (instance_id c) (mode c) (Some (lease_token lease)) /\
        leads (leadership_of (ha_provider w')) (lease_token lease) /\ (forall j, ha_services w' j = ha_services w j)
  | Err e =>
      (forall j, j <> i -> ha_services w' j = ha_services w j) /\
      ((svc_role (ha_services w i) <> CP_ACTIVE \/ svc_lease (ha_services w i) = None) /\ has_class NotLeaderError e = true /\
         ha_services w' i = ha_services w i /\ ha_provider w' = ha_provider w \/
       exists lease, svc_role (ha_services w i) = CP_ACTIVE /\ svc_lease (ha_services w i) = Some lease /\
         (assert_fence (lease_token lease) (Aware (ha_clock E (S (ha_moment w)))) (ha_provider w)).1 = Err e /\
         (refused e = true ->
            svc_role (ha_services w' i) = CP_FENCED /\ svc_lease (ha_services w' i) = None /\
            forall w2, svc_lease (ha_services w2 i) = None ->
              exists e2, (run (require_authority i c) w2).1 = Err e2 /\ has_class NotLeaderError e2 = true))
  end.
Proof.
  intros Hmode Hcoord Hid.
  set (closed := forall w2 : ha_world P, svc_lease (ha_services w2 i) = None -> _).
  assert closed as Hclosed.
  { intros w2 Hnone. destruct (no_lease_no_authority w2 Hmode) as (w' & -> & _); [by right|]. eexists. by split. }
  clearbody closed.
  destruct (decide (svc_role (ha_services w i) = CP_ACTIVE)) as [Hr|Hr];
    [destruct (svc_lease (ha_services w i)) as [lease|] eqn:Hl|].
  2,3: destruct (no_lease_no_authority w Hmode) as (w' & -> & Hp & Hs); [tauto|]; split; [by intros; apply Hs|left; by rewrite Hs; tauto].
  unfold require_authority. rewrite bool_decide_eq_false_2 by done. rewrite execute_bind. cbn [call execute perform_ha lift].
  unfold authority_of. rewrite Hr, Hl. unfold grant_lease_authority, required_coordinator. rewrite Hcoord. cbn [guard].
  change (Ret tt ≫= ?f) with (f tt). cbn beta. cbn [attempt call mbind prog_bind execute perform_ha lift ha_provider ha_moment ha_services ha_log].
  pose proof (assert_leads (lease_token lease) (Aware (ha_clock E (S (ha_moment w)))) (ha_provider w)) as Hleads.
  destruct (assert_fence (lease_token lease) (Aware (ha_clock E (S (ha_moment w)))) (ha_provider w)) as [[[]|e] p'] eqn:Ha.
  - assert (AuthorityGrant_post_init (Build_AuthorityGrant (instance_id c) (mode c) (Some (lease_token lease))) =
      Ok (Build_AuthorityGrant (instance_id c) (mode c) (Some (lease_token lease)))) as Hgrant.
    { unfold AuthorityGrant_post_init. cbn [grant_instance_id grant_mode grant_fencing_token]. rewrite Hid, bool_decide_eq_false_2 by done. done. }
    cbn [attempt lift mbind prog_bind]. rewrite Hgrant. cbn. exists lease. split_and!; [done..|by apply Hleads|].
    intros j. by case_decide as Hj; [rewrite Hj|].
  - cbn [attempt lift mbind prog_bind]. unfold refused. destruct (has_class CoordinationUnavailable e) eqn:Hu; [|destruct (has_class StaleFencingToken e) eqn:Hst].
    1,2: cbn; split; [intros j Hj; by rewrite !decide_False by done|]; right; exists lease; rewrite !decide_True by done; (split_and!; [done|done|by rewrite Ha|intros _; split_and!; done]).
    cbn. split; [intros j Hj; by rewrite !decide_False by done|]. right. exists lease. split_and!; [done|done|by rewrite Ha|by rewrite Hu, Hst].
Qed.
End one_service.

(** ** Taking over from a leader that is gone *)

Section takeover.
Context (E : ha_env) (j : nat) (c : FailoverConfig) (reason owner : string).
Context (Hmode : mode c <> SINGLE_NODE) (Hcoord : has_coordinator c = true) (Hreason : blank reason = false).
Context (Hid : blank (instance_id c) = false) (Httl : (0 < lease_ttl c)%Z) (Howner : blank owner = false) (Hother : owner <> instance_id c).

Abbreviation run := (execute (perform_ha E)).

(** The provider has a leader, or its lease has expired and the provider has noticed. *)
Definition led_by (epoch : Z) (until : datetime) (p : InMemoryCoordinationProvider) : Prop :=
  provider_available p = true /\ provider_epoch p = epoch /\ (0 <= epoch)%Z /\
  provider_owner_instance_id p = Some owner /\ provider_expires_at p = Some until.
Definition vacant (epoch : Z) (p : InMemoryCoordinationProvider) : Prop :=
  provider_available p = true /\ provider_epoch p = epoch /\ (0 <= epoch)%Z /\
  provider_owner_instance_id p = None /\ provider_expires_at p = None.

Definition next_token (epoch : Z) : FencingToken := Build_FencingToken (instance_id c) (epoch + 1).

(** The first statement of a computation returned. *)
Lemma after {S A B} (m : st S A) (f : A -> st S B) s a s' : m s = (Ok a, s') -> (m ≫= f) s = f a s'.
Proof. unfold mbind, st_bind. by intros ->. Qed.
Lemma available_run p : provider_available p = true -> ensure_available p = (Ok tt, p).
Proof. unfold ensure_available, gets, ensure, mbind, st_bind. by intros ->. Qed.
Lemma ensure_run {S} b e (s : S) : b = true -> ensure b e s = (Ok tt, s).
Proof. by intros ->. Qed.
Definition expired (now : datetime) (p : InMemoryCoordinationProvider) : InMemoryCoordinationProvider := (expire_if_needed now p).2.
Lemma expire_run now p : expire_if_needed now p = (Ok tt, expired now p).
Proof. done. Qed.
Lemma gets_run {S A} (f : S -> A) s : gets f s = (Ok (f s), s).
Proof. done. Qed.
Lemma modify_run {S} (f : S -> S) s : modify f s = (Ok tt, f s).
Proof. done. Qed.

Lemma expired_led epoch until now p : led_by epoch until p ->
  if dt_leb until now then vacant epoch (expired now p) else expired now p = p.
Proof. intros (Hav & He & Hpos & Ho & Hx). unfold expired. cbn. rewrite Hx. by destruct (dt_leb until now). Qed.
Lemma expired_vacant epoch now p : vacant epoch p -> expired now p = p.
Proof. intros (Hav & He & Hpos & Ho & Hx). unfold expired. cbn. by rewrite Hx. Qed.

Lemma inspect_run epoch until now p : led_by epoch until p \/ vacant epoch p ->
  exists state, provider_inspect now p = (Ok state, expired now p).
Proof.
  intros Hp. assert (provider_available p = true /\ (led_by epoch until (expired now p) \/ vacant epoch (expired now p))) as [Hav Hp'].
  { destruct Hp as [Hp|Hp]; (split; [apply Hp|]); [|right; by rewrite (expired_vacant epoch)]. pose proof (expired_led epoch until now p Hp) as He.
    destruct (dt_leb until now); [by right|]. rewrite He. by left. }
  unfold provider_inspect. erewrite after by (by apply available_run). erewrite after by apply expire_run.
  do 3 (erewrite after by apply gets_run). unfold of_res, CoordinationState_post_init.
  cbn [leader_epoch leader_owner_instance_id leader_expires_at].
  destruct Hp' as [(_ & -> & Hpos & -> & ->)|(_ & -> & Hpos & -> & ->)]; rewrite (proj2 (Z.leb_le 0 epoch) Hpos); [rewrite Howner|]; by eexists.
Qed.

Lemma acquire_led epoch until now p : led_by epoch until p -> dt_leb until now = false ->
  exists message, provider_acquire (instance_id c) (lease_ttl c) now p = (Err (CoordinationError LeadershipConflict message), p).
Proof.
  intros Hp Hleb. pose proof (expired_led epoch until now p Hp) as Hsame. rewrite Hleb in Hsame. destruct Hp as (Hav & He & Hpos & Ho & Hx).
  unfold provider_acquire. erewrite after by (by apply ensure_run; rewrite Hid). erewrite after by (apply ensure_run; lia).
  erewrite after by (by apply available_run). erewrite after by apply expire_run. rewrite Hsame. erewrite after by apply gets_run. rewrite Ho.
  destruct (String.eqb_spec owner (instance_id c)); [done|]. by eexists.
Qed.

(** An election. *)
Lemma acquire_elects epoch until now expiry p :
  led_by epoch until p /\ dt_leb until now = true \/ vacant epoch p -> dt_add now (lease_ttl c) = Ok expiry ->
  exists lease p', provider_acquire (instance_id c) (lease_ttl c) now p = (Ok lease, p') /\ lease_token lease = next_token epoch /\
    provider_available p' = true /\ provider_epoch p' = (epoch + 1)%Z /\ provider_owner_instance_id p' = Some (instance_id c).
Proof.
  intros Hp Hadd.
  assert (dt_ltb now expiry = true) as Hlt.
  { unfold dt_add in Hadd. destruct (_ && _); [|done]. injection Hadd as <-. unfold dt_ltb. destruct now; cbn; lia. }
  assert (provider_available p = true /\ vacant epoch (expired now p)) as [Hav (Hav' & He & Hpos & Ho & Hx)].
  { destruct Hp as [[Hp Hleb]|Hp]; (split; [apply Hp|]); [|by rewrite (expired_vacant epoch)].
    pose proof (expired_led epoch until now p Hp) as Hv. by rewrite Hleb in Hv. }
  unfold provider_acquire. erewrite after by (by apply ensure_run; rewrite Hid). erewrite after by (apply ensure_run; lia).
  erewrite after by (by apply available_run). erewrite after by apply expire_run. erewrite after by apply gets_run. rewrite Ho.
  erewrite after by apply modify_run. erewrite after by (unfold of_res; by rewrite Hadd). erewrite after by apply modify_run.
  unfold current_lease. do 2 (erewrite after by apply gets_run). cbn [put_expires_at put_owner provider_owner_instance_id provider_acquired_at provider_expires_at provider_epoch].
  unfold of_res, FencingToken_post_init, CoordinationLease_post_init. rewrite He.
  erewrite after by (cbn [token_instance_id token_epoch]; rewrite Hid, (proj2 (Z.ltb_lt 0 (epoch + 1)) ltac:(lia)); reflexivity).
  cbn [lease_acquired_at lease_expires_at]. rewrite Hlt. eexists _, _. split; [reflexivity|]. split_and!; [done|exact Hav'|exact (f_equal (fun z => z + 1)%Z He)|done].
Qed.

(** A token of another instance is refused. *)
Lemma old_token_refused e now p : provider_available p = true -> provider_owner_instance_id p = Some (instance_id c) -> 
  exists message, (provider_assert_fence (Build_FencingToken owner e) now p).1 = Err (CoordinationError StaleFencingToken message).
Proof.
  intros Hav Ho. unfold provider_assert_fence. erewrite after by (by apply available_run). erewrite after by apply expire_run.
  unfold require_current. erewrite after by apply gets_run. cbn [token_instance_id].
  rewrite bool_decide_eq_false_2; [by eexists|]. unfold expired. cbn. destruct (provider_expires_at p) as [t|]; [destruct (dt_leb t now)|]; cbn; congruence.
Qed.

Lemma not_owned lease s : svc_role s = CP_STANDBY -> already_owned lease s = false.
Proof. unfold already_owned. intros ->. destruct (svc_lease s); [|done]. apply andb_false_r. Qed.

(** A promotion that nothing disturbs. *)
Lemma promote_runs {P} `{CoordinationProvider P} lease previous result (w : ha_world P) :
  ha_reconcile E (ha_moment w) j (lease_token lease) previous reason = Ok result ->
  exists w', execute (perform_ha E) (promote j c lease previous reason) w = (Ok true, w') /\ ha_provider w' = ha_provider w /\
    svc_role (ha_services w' j) = CP_ACTIVE /\ svc_lease (ha_services w' j) = svc_lease (ha_services w j).
Proof.
  intros Hrec. unfold promote, reconcile. destruct (has_reconciler c); cbn; rewrite ?Hrec; unfold noting; cbn;
    (eexists; split_and!; [done|done|..]; cbn; by rewrite decide_True).
Qed.

(** C20. A standby waits for the lease, and takes over when it has expired: [try_promote] of a standby, run on its own
    against the reference provider, which another instance leads, returns [False] and leaves the provider as it
    was while the lease lasts by the provider's clock; as soon as the provider's clock has reached the end of the lease, it
    returns [True]: the process is active with the next epoch's token, which the provider names as its leader, and
    every later check of the old leader's token is refused as stale. *)
Theorem standby_takes_over epoch until result w :
  let now n := Aware (ha_clock E (n + ha_moment w)) in
  led_by epoch until (ha_provider w) -> svc_role (ha_services w j) = CP_STANDBY ->
  (dt_leb until (now 0) = false -> dt_leb until (now 1) = false ->
     exists w', run (try_promote j c reason) w = (Ok false, w') /\ ha_provider w' = ha_provider w /\
       svc_role (ha_services w' j) = CP_STANDBY /\ svc_lease (ha_services w' j) = None) /\
  (dt_leb until (now 1) = true -> is_ok (dt_add (now 1) (lease_ttl c)) = true ->
   (forall previous, ha_reconcile E (3 + ha_moment w) j (next_token epoch) previous reason = Ok result) ->
     exists w' lease, run (try_promote j c reason) w = (Ok true, w') /\
       svc_role (ha_services w' j) = CP_ACTIVE /\ svc_lease (ha_services w' j) = Some lease /\ lease_token lease = next_token epoch /\
       leads (leadership_of (ha_provider w')) (next_token epoch) /\
       forall now', exists message,
         (assert_fence (Build_FencingToken owner epoch) now' (ha_provider w')).1 = Err (CoordinationError StaleFencingToken message)).
Proof.
  intros now Hled Hrole. unfold try_promote, validate_reason, required_coordinator. rewrite Hreason, Hcoord, bool_decide_eq_false_2 by done.
  cbn [negb guard]. do 2 (change (Ret tt ≫= ?f) with (f tt); cbn beta).
  destruct (inspect_run epoch until (now 0) (ha_provider w) (or_introl Hled)) as [state Hinspect].
  assert (run (observed_epoch j) w = (Ok (leader_epoch state), Build_ha_world (expired (now 0) (ha_provider w)) (ha_services w) (S (ha_moment w)) (ha_log w)))
    as Hobs.
  { unfold observed_epoch. cbn. unfold on_provider. change (inspect ?n) with (provider_inspect n).
    change (Aware (ha_clock E (ha_moment w))) with (now 0). by rewrite Hinspect. }
  pose proof (expired_led epoch until (now 0) (ha_provider w) Hled) as Hexp. split.
  - intros H0 H1. rewrite execute_bind, Hobs. rewrite H0 in Hexp. rewrite Hexp.
    destruct (acquire_led epoch until (now 1) (ha_provider w) Hled H1) as [message Hacq].
    rewrite execute_bind. cbn. unfold on_provider. cbn [ha_moment ha_provider]. change (acquire ?x ?y ?n) with (provider_acquire x y n).
    change (Aware (ha_clock E (S (ha_moment w)))) with (now 1). rewrite Hacq. cbn. eexists. split_and!; [done|done|..]; cbn; by rewrite decide_True.
  - intros H1 Hadd Hrec. destruct (dt_add (now 1) (lease_ttl c)) as [expiry|] eqn:Hexpiry; [|done].
    rewrite execute_bind, Hobs. set (p1 := expired (now 0) (ha_provider w)) in *. clearbody p1.
    destruct (acquire_elects epoch until (now 1) expiry p1) as (lease & p2 & Hacq & Htok & Hav2 & He2 & Ho2); [|done|].
    { destruct (dt_leb until (now 0)); [by right|]. left. by rewrite Hexp. }
    set (w2 := Build_ha_world p2 (fun n => if decide (n = j) then lease_acquired lease (ha_services w j) else ha_services w n) (3 + ha_moment w) (ha_log w)).
    destruct (promote_runs lease (leader_epoch state) result w2) as (w3 & Hrun & Hp3 & Hr3 & Hl3); [rewrite Htok; apply Hrec|].
    exists w3, lease. rewrite Hp3. split_and!.
    + rewrite execute_bind. cbn -[already_owned lease_acquired promote]. unfold on_provider. cbn [ha_moment ha_provider].
      change (acquire ?x ?y ?n) with (provider_acquire x y n). change (Aware (ha_clock E (S (ha_moment w)))) with (now 1).
      rewrite Hacq. cbn -[already_owned lease_acquired promote]. rewrite not_owned by done. exact Hrun.
    + done.
    + rewrite Hl3. cbn. rewrite decide_True by done. unfold lease_acquired. by rewrite not_owned.
    + done.
    + unfold leads, leadership_of. cbn. by rewrite He2, Ho2.
    + intros now'. by apply old_token_refused.
Qed.
End takeover.

(** ** Commands of the leader *)

Lemma fence_round_trip token : FencingToken_post_init token = Ok token -> decode_fencing_token (encode_fencing_token token) = Ok token.
Proof.
  intros Hok. unfold FencingToken_post_init in Hok. destruct token as [instance_id epoch]. cbn [token_instance_id token_epoch] in Hok.
  unfold decode_fencing_token, encode_fencing_token. cbn [token_instance_id token_epoch].
  change (get "instance_id" _) with (VStr instance_id). change (get "epoch" _) with (VInt epoch). cbn iota.
  destruct (blank instance_id) eqn:Hb; [done|]. cbn in Hok. destruct (0 <? epoch)%Z eqn:He; [|done].
  assert ((epoch <=? 0)%Z = false) as -> by lia. unfold FencingToken_post_init. cbn [token_instance_id token_epoch mbind]. cbn -[blank Z.ltb].
  by rewrite Hb, He.
Qed.

Lemma prefix_not_blank topic : starts_with topic REPLY_PREFIX = true -> blank topic = false.
Proof. destruct topic as [|a topic]; [done|]. unfold starts_with, REPLY_PREFIX. cbn [String.prefix]. by destruct (ascii_dec _ a) as [<-|]. Qed.

Section commands.
Context {P : Type} `{CoordinationProviderLaws P} (E : ha_env) (worker_id : string).

(** C33. A dispatch or cancel command that a control plane addressed to the worker and fenced with its token reaches the
    worker's operation, with that very token, exactly when the provider finds the token current at that moment; if the
    provider is unreachable, disowns the token or rejects it otherwise, the worker answers with the category and
    the retry advice of that failure and does nothing else. *)
Theorem fenced_command_outcome command k data reply_topic job operation token w :
  envelope_payload command = Some (VMap k data) ->
  dict_get "reply_topic" data = Some (VStr reply_topic) -> starts_with reply_topic REPLY_PREFIX = true ->
  dict_get "worker_id" data = Some (VStr worker_id) -> blank worker_id = false ->
  dict_get "worker_job_id" data = Some (VStr job) -> blank job = false ->
  dict_get "operation" data = Some (VStr operation) -> operation ∈ FENCED_OPERATIONS ->
  dict_get "control_plane_fence" data = Some (encode_fencing_token token) -> FencingToken_post_init token = Ok token ->
  envelope_source_component command = source_component (token_instance_id token) ->
  execute (perform_ha E) (fenced_handle worker_id command) w =
  let '(answer, w1) := perform_ha E (AssertFence token) w in
  match answer with
  | Ok _ => perform_ha E (Handle_command operation (Some token)) w1
  | Err e =>
      match fence_rejection e with
      | Some (category, retryable) => perform_ha E (Publish_error category retryable) w1
      | None => (Err e, w1)
      end
  end.
Proof.
  intros Hp Hr Hpre Hw Hwb Hj Hjb Ho Hin Hf Htok Hsrc.
  pose proof (prefix_not_blank reply_topic Hpre) as Hrb.
  unfold fenced_handle. rewrite Hp. unfold addressed, get. rewrite Ho, Hr, Hj, Hw, Hf. cbn [default from_option hashable text_of guard id].
  change (Ret tt ≫= ?f) with (f tt). cbn beta iota.
  rewrite Hpre, String.eqb_refl, (proj2 (in_strs_true operation FENCED_OPERATIONS) Hin). cbn [negb andb orb].
  rewrite fence_round_trip by done. rewrite Hsrc, String.eqb_refl. cbn [negb].
  cbn [attempt call mbind prog_bind execute]. destruct (perform_ha E (AssertFence token) w) as [[[]|e] w1]; cbn [attempt lift mbind prog_bind].
  - unfold base_handle, required_string. rewrite Hp, Hr, Hw, Hj, Ho, Hrb, Hwb, Hjb. cbn [lift guard]. 
    assert (blank operation = false) as -> by (apply elem_of_cons in Hin as [-> | ->%list_elem_of_singleton]; done).
    cbn [mbind prog_bind]. rewrite Hpre, String.eqb_refl. cbn [negb guard lift mbind prog_bind].
    exact (execute_call (perform_ha E) (Handle_command operation (Some token)) w1).
  - destruct (fence_rejection e) as [[category retryable]|]; [|done]. exact (execute_call (perform_ha E) (Publish_error category retryable) w1).
Qed.
End commands.
