(* ===== verification/Authorization.v ===== *)
(** * Authorization: contracts/authorization.py and security/authorization.py

    The vocabulary of actors, actions and resources, the exact action that is proposed for authorization and its
    digest, the decisions of an authorization provider, and the local provider, which decides by one policy
    per principal. *)

From S2P Require Import Prelude PyValue Errors PyTime Contracts.

(** ** Vocabulary *)

Inductive ActorType :=
| ACTOR_HUMAN | ACTOR_SERVICE | ACTOR_AGENT | ACTOR_WORKER | ACTOR_AUTOMATION | ACTOR_INTEGRATION.
#[export] Instance ActorType_eq_dec : EqDecision ActorType.
Proof. solve_decision. Defined.
Definition ActorType_value (x : ActorType) : string :=
  match x with
  | ACTOR_HUMAN => "human" | ACTOR_SERVICE => "service" | ACTOR_AGENT => "agent" | ACTOR_WORKER => "worker"
  | ACTOR_AUTOMATION => "automation" | ACTOR_INTEGRATION => "integration"
  end.
Definition all_ActorType : list ActorType := [
   ACTOR_HUMAN; ACTOR_SERVICE; ACTOR_AGENT; ACTOR_WORKER; ACTOR_AUTOMATION; ACTOR_INTEGRATION].

Inductive AuthorizationAction :=
| ACT_VIEW | ACT_READ | ACT_CREATE | ACT_MODIFY | ACT_DELETE | ACT_EXECUTE | ACT_APPROVE | ACT_ADMINISTER
| ACT_MANAGE_INTEGRATIONS | ACT_MANAGE_CREDENTIALS | ACT_DISPATCH | ACT_INVOKE_SENSITIVE_CAPABILITY
| ACT_RESULT_READ | ACT_MODEL_PROVIDER_REFRESH_HEALTH | ACT_MODEL_ROUTING_PROFILE_CREATE
| ACT_MODEL_ROUTING_PROFILE_VERSION | ACT_MODEL_ROUTING_PROFILE_READ | ACT_MODEL_ROUTING_PROFILE_ENABLE
| ACT_MODEL_ROUTING_PROFILE_DISABLE | ACT_MODEL_ROUTING_PROFILE_ASSIGN | ACT_ONBOARDING_CONFIGURE_MODEL
| ACT_ONBOARDING_RUN_FIRST_TASK | ACT_WORKSPACE_CREATE | ACT_VERIFICATION_POLICY_LIST
| ACT_VERIFICATION_POLICY_READ | ACT_VERIFICATION_LIST | ACT_VERIFICATION_READ | ACT_VERIFICATION_RESULT_LIST
| ACT_VERIFICATION_RESULT_READ | ACT_VERIFICATION_REVIEW_LIST | ACT_VERIFICATION_REVIEW_READ
| ACT_VERIFICATION_REQUIREMENT_LIST | ACT_VERIFICATION_REQUIREMENT_READ | ACT_VERIFICATION_ACCEPT
| ACT_VERIFICATION_REJECT | ACT_VERIFICATION_REQUEST_CHANGES | ACT_EVALUATION_SUITE_LIST
| ACT_EVALUATION_SUITE_READ | ACT_EVALUATION_RUN_LIST | ACT_EVALUATION_RUN_READ | ACT_EVALUATION_RUN
| ACT_EVALUATION_COMPARE | ACT_DECISION_RECORD_LIST | ACT_DECISION_RECORD_READ | ACT_DECISION_RECORD_CREATE
| ACT_DECISION_RECORD_SUPERSEDE | ACT_DECISION_RECORD_WITHDRAW | ACT_DECISION_RECORD_LINK_PROVENANCE
| ACT_TEMPLATE_LIST | ACT_TEMPLATE_READ | ACT_TEMPLATE_INSTANCE_LIST | ACT_TEMPLATE_INSTANCE_READ
| ACT_TEMPLATE_CREATE | ACT_TEMPLATE_CREATE_FROM_AGENT | ACT_TEMPLATE_CREATE_FROM_AGENT_TEAM
| ACT_TEMPLATE_CREATE_FROM_AUTOMATION | ACT_TEMPLATE_CREATE_FROM_PROJECT
| ACT_TEMPLATE_CREATE_FROM_WORKSPACES | ACT_TEMPLATE_REVISE | ACT_TEMPLATE_PUBLISH | ACT_TEMPLATE_CLONE
| ACT_TEMPLATE_FORK | ACT_TEMPLATE_PREVIEW | ACT_TEMPLATE_APPLY | ACT_TEMPLATE_REAPPLY.
#[export] Instance AuthorizationAction_eq_dec : EqDecision AuthorizationAction.
Proof. solve_decision. Defined.
Definition AuthorizationAction_value (x : AuthorizationAction) : string :=
  match x with
  | ACT_VIEW => "view" | ACT_READ => "read" | ACT_CREATE => "create" | ACT_MODIFY => "modify"
  | ACT_DELETE => "delete" | ACT_EXECUTE => "execute" | ACT_APPROVE => "approve"
  | ACT_ADMINISTER => "administer" | ACT_MANAGE_INTEGRATIONS => "manage_integrations"
  | ACT_MANAGE_CREDENTIALS => "manage_credentials" | ACT_DISPATCH => "dispatch"
  | ACT_INVOKE_SENSITIVE_CAPABILITY => "invoke_sensitive_capability" | ACT_RESULT_READ => "result:read"
  | ACT_MODEL_PROVIDER_REFRESH_HEALTH => "model-provider:refresh-health"
  | ACT_MODEL_ROUTING_PROFILE_CREATE => "model-routing-profile:create"
  | ACT_MODEL_ROUTING_PROFILE_VERSION => "model-routing-profile:version"
  | ACT_MODEL_ROUTING_PROFILE_READ => "model-routing-profile:read"
  | ACT_MODEL_ROUTING_PROFILE_ENABLE => "model-routing-profile:enable"
  | ACT_MODEL_ROUTING_PROFILE_DISABLE => "model-routing-profile:disable"
  | ACT_MODEL_ROUTING_PROFILE_ASSIGN => "model-routing-profile:assign"
  | ACT_ONBOARDING_CONFIGURE_MODEL => "onboarding.configure-model"
  | ACT_ONBOARDING_RUN_FIRST_TASK => "onboarding.run-first-task" | ACT_WORKSPACE_CREATE => "workspace:create"
  | ACT_VERIFICATION_POLICY_LIST => "verification-policy:list"
  | ACT_VERIFICATION_POLICY_READ => "verification-policy:read" | ACT_VERIFICATION_LIST => "verification:list"
  | ACT_VERIFICATION_READ => "verification:read" | ACT_VERIFICATION_RESULT_LIST => "verification-result:list"
  | ACT_VERIFICATION_RESULT_READ => "verification-result:read"
  | ACT_VERIFICATION_REVIEW_LIST => "verification-review:list"
  | ACT_VERIFICATION_REVIEW_READ => "verification-review:read"
  | ACT_VERIFICATION_REQUIREMENT_LIST => "verification-requirement:list"
  | ACT_VERIFICATION_REQUIREMENT_READ => "verification-requirement:read"
  | ACT_VERIFICATION_ACCEPT => "verification.accept" | ACT_VERIFICATION_REJECT => "verification.reject"
  | ACT_VERIFICATION_REQUEST_CHANGES => "verification.request-changes"
  | ACT_EVALUATION_SUITE_LIST => "evaluation-suite:list"
  | ACT_EVALUATION_SUITE_READ => "evaluation-suite:read" | ACT_EVALUATION_RUN_LIST => "evaluation-run:list"
  | ACT_EVALUATION_RUN_READ => "evaluation-run:read" | ACT_EVALUATION_RUN => "evaluation.run"
  | ACT_EVALUATION_COMPARE => "evaluation.compare" | ACT_DECISION_RECORD_LIST => "decision-record:list"
  | ACT_DECISION_RECORD_READ => "decision-record:read"
  | ACT_DECISION_RECORD_CREATE => "decision-record.create"
  | ACT_DECISION_RECORD_SUPERSEDE => "decision-record.supersede"
  | ACT_DECISION_RECORD_WITHDRAW => "decision-record.withdraw"
  | ACT_DECISION_RECORD_LINK_PROVENANCE => "decision-record.link-provenance"
  | ACT_TEMPLATE_LIST => "template:list" | ACT_TEMPLATE_READ => "template:read"
  | ACT_TEMPLATE_INSTANCE_LIST => "template-instance:list"
  | ACT_TEMPLATE_INSTANCE_READ => "template-instance:read" | ACT_TEMPLATE_CREATE => "template.create"
  | ACT_TEMPLATE_CREATE_FROM_AGENT => "template.create-from-agent"
  | ACT_TEMPLATE_CREATE_FROM_AGENT_TEAM => "template.create-from-agent-team"
  | ACT_TEMPLATE_CREATE_FROM_AUTOMATION => "template.create-from-automation"
  | ACT_TEMPLATE_CREATE_FROM_PROJECT => "template.create-from-project"
  | ACT_TEMPLATE_CREATE_FROM_WORKSPACES => "template.create-from-workspaces"
  | ACT_TEMPLATE_REVISE => "template.revise" | ACT_TEMPLATE_PUBLISH => "template.publish"
  | ACT_TEMPLATE_CLONE => "template.clone" | ACT_TEMPLATE_FORK => "template.fork"
  | ACT_TEMPLATE_PREVIEW => "template.preview" | ACT_TEMPLATE_APPLY => "template.apply"
  | ACT_TEMPLATE_REAPPLY => "template.reapply"
  end.
Definition all_AuthorizationAction : list AuthorizationAction := [
   ACT_VIEW; ACT_READ; ACT_CREATE; ACT_MODIFY; ACT_DELETE; ACT_EXECUTE; ACT_APPROVE; ACT_ADMINISTER;
   ACT_MANAGE_INTEGRATIONS; ACT_MANAGE_CREDENTIALS; ACT_DISPATCH; ACT_INVOKE_SENSITIVE_CAPABILITY;
   ACT_RESULT_READ; ACT_MODEL_PROVIDER_REFRESH_HEALTH; ACT_MODEL_ROUTING_PROFILE_CREATE;
   ACT_MODEL_ROUTING_PROFILE_VERSION; ACT_MODEL_ROUTING_PROFILE_READ; ACT_MODEL_ROUTING_PROFILE_ENABLE;
   ACT_MODEL_ROUTING_PROFILE_DISABLE; ACT_MODEL_ROUTING_PROFILE_ASSIGN; ACT_ONBOARDING_CONFIGURE_MODEL;
   ACT_ONBOARDING_RUN_FIRST_TASK; ACT_WORKSPACE_CREATE; ACT_VERIFICATION_POLICY_LIST;
   ACT_VERIFICATION_POLICY_READ; ACT_VERIFICATION_LIST; ACT_VERIFICATION_READ; ACT_VERIFICATION_RESULT_LIST;
   ACT_VERIFICATION_RESULT_READ; ACT_VERIFICATION_REVIEW_LIST; ACT_VERIFICATION_REVIEW_READ;
   ACT_VERIFICATION_REQUIREMENT_LIST; ACT_VERIFICATION_REQUIREMENT_READ; ACT_VERIFICATION_ACCEPT;
   ACT_VERIFICATION_REJECT; ACT_VERIFICATION_REQUEST_CHANGES; ACT_EVALUATION_SUITE_LIST;
   ACT_EVALUATION_SUITE_READ; ACT_EVALUATION_RUN_LIST; ACT_EVALUATION_RUN_READ; ACT_EVALUATION_RUN;
   ACT_EVALUATION_COMPARE; ACT_DECISION_RECORD_LIST; ACT_DECISION_RECORD_READ; ACT_DECISION_RECORD_CREATE;
   ACT_DECISION_RECORD_SUPERSEDE; ACT_DECISION_RECORD_WITHDRAW; ACT_DECISION_RECORD_LINK_PROVENANCE;
   ACT_TEMPLATE_LIST; ACT_TEMPLATE_READ; ACT_TEMPLATE_INSTANCE_LIST; ACT_TEMPLATE_INSTANCE_READ;
   ACT_TEMPLATE_CREATE; ACT_TEMPLATE_CREATE_FROM_AGENT; ACT_TEMPLATE_CREATE_FROM_AGENT_TEAM;
   ACT_TEMPLATE_CREATE_FROM_AUTOMATION; ACT_TEMPLATE_CREATE_FROM_PROJECT;
   ACT_TEMPLATE_CREATE_FROM_WORKSPACES; ACT_TEMPLATE_REVISE; ACT_TEMPLATE_PUBLISH; ACT_TEMPLATE_CLONE;
   ACT_TEMPLATE_FORK; ACT_TEMPLATE_PREVIEW; ACT_TEMPLATE_APPLY; ACT_TEMPLATE_REAPPLY].

Inductive ResourceType :=
| RT_ORGANIZATION | RT_TEAM | RT_PROJECT | RT_WORKSPACE | RT_TASK | RT_RUN | RT_AGENT | RT_AGENT_TEAM
| RT_CAPABILITY | RT_TOOL | RT_FILE | RT_ARTIFACT | RT_MEMORY | RT_KNOWLEDGE_SOURCE | RT_MODEL_CONFIGURATION
| RT_MODEL_ROUTING_PROFILE | RT_PROVIDER_CONFIGURATION | RT_NODE | RT_WORKER | RT_AUTOMATION
| RT_NOTIFICATION | RT_CONNECTOR | RT_INTEGRATION | RT_SECRET_REFERENCE | RT_PLUGIN | RT_APPLICATION
| RT_ADMINISTRATIVE_SETTINGS | RT_DECISION_RECORD | RT_GENERIC.
#[export] Instance ResourceType_eq_dec : EqDecision ResourceType.
Proof. solve_decision. Defined.
Definition ResourceType_value (x : ResourceType) : string :=
  match x with
  | RT_ORGANIZATION => "organization" | RT_TEAM => "team" | RT_PROJECT => "project"
  | RT_WORKSPACE => "workspace" | RT_TASK => "task" | RT_RUN => "run" | RT_AGENT => "agent"
  | RT_AGENT_TEAM => "agent_team" | RT_CAPABILITY => "capability" | RT_TOOL => "tool" | RT_FILE => "file"
  | RT_ARTIFACT => "artifact" | RT_MEMORY => "memory" | RT_KNOWLEDGE_SOURCE => "knowledge_source"
  | RT_MODEL_CONFIGURATION => "model_configuration" | RT_MODEL_ROUTING_PROFILE => "model_routing_profile"
  | RT_PROVIDER_CONFIGURATION => "provider_configuration" | RT_NODE => "node" | RT_WORKER => "worker"
  | RT_AUTOMATION => "automation" | RT_NOTIFICATION => "notification" | RT_CONNECTOR => "connector"
  | RT_INTEGRATION => "integration" | RT_SECRET_REFERENCE => "secret_reference" | RT_PLUGIN => "plugin"
  | RT_APPLICATION => "application" | RT_ADMINISTRATIVE_SETTINGS => "administrative_settings"
  | RT_DECISION_RECORD => "decision_record" | RT_GENERIC => "generic"
  end.
Definition all_ResourceType : list ResourceType := [
   RT_ORGANIZATION; RT_TEAM; RT_PROJECT; RT_WORKSPACE; RT_TASK; RT_RUN; RT_AGENT; RT_AGENT_TEAM;
   RT_CAPABILITY; RT_TOOL; RT_FILE; RT_ARTIFACT; RT_MEMORY; RT_KNOWLEDGE_SOURCE; RT_MODEL_CONFIGURATION;
   RT_MODEL_ROUTING_PROFILE; RT_PROVIDER_CONFIGURATION; RT_NODE; RT_WORKER; RT_AUTOMATION; RT_NOTIFICATION;
   RT_CONNECTOR; RT_INTEGRATION; RT_SECRET_REFERENCE; RT_PLUGIN; RT_APPLICATION; RT_ADMINISTRATIVE_SETTINGS;
   RT_DECISION_RECORD; RT_GENERIC].

(** [Enum(value)] *)
Definition enum_of {A} (all : list A) (value : A -> string) (s : string) : option A := List.find (fun x => String.eqb (value x) s) all.

(** ** The proposed action *)

(** [x or y] on optional strings. *)
Definition or_text (x y : option string) : option string :=
  match x with Some s => if String.eqb s "" then y else x | None => y end.

(** [value is not None and not value.strip()] *)
Definition blank_when_given (o : option string) : bool := match o with Some s => blank s | None => false end.

(** The checks of a list of named fields, in order. *)
Fixpoint none_blank (suffix : string) (fields : list (string * option string)) : res unit :=
  match fields with
  | [] => Ok tt
  | (name, value) :: rest =>
      _ ← require (negb (blank_when_given value)) (ValueError (name +:+ suffix));
      none_blank suffix rest
  end.

Record ActorIdentity := Build_ActorIdentity {
  actor_id : string;
  actor_type : ActorType;
  actor_organization_id : option string;
  actor_team_ids : list string
}.

Definition ActorIdentity_post_init (a : ActorIdentity) : res ActorIdentity :=
  _ ← require (negb (blank (actor_id a))) (ValueError "actor_id must not be blank");
  _ ← require (negb (blank_when_given (actor_organization_id a))) (ValueError "organization_id must not be blank when provided");
  _ ← require (negb (existsb blank (actor_team_ids a))) (ValueError "team_ids must not contain blank values");
  Ok a.

Record AuthorizationContext := Build_AuthorizationContext {
  ctx_actor : ActorIdentity;
  ctx_action : AuthorizationAction;
  ctx_resource_type : ResourceType;
  ctx_resource_id : string;
  ctx_operation : OperationContext;
  ctx_organization_id : option string;
  ctx_team_id : option string;
  ctx_workspace_id : option string;
  ctx_task_id : option string;
  ctx_run_id : option string;
  ctx_agent_id : option string;
  ctx_capability_ref : option string;
  ctx_side_effect : option string;
  ctx_security_labels : list string;
  ctx_node_id : option string;
  ctx_trust_context : dict
}.

Definition AuthorizationContext_post_init (c : AuthorizationContext) : res AuthorizationContext :=
  _ ← require (negb (blank (ctx_resource_id c))) (ValueError "resource_id must not be blank");
  _ ← none_blank " must not be blank when provided"
        [("organization_id", ctx_organization_id c); ("team_id", ctx_team_id c); ("workspace_id", ctx_workspace_id c);
         ("task_id", ctx_task_id c); ("run_id", ctx_run_id c); ("agent_id", ctx_agent_id c);
         ("capability_ref", ctx_capability_ref c); ("side_effect", ctx_side_effect c); ("node_id", ctx_node_id c)];
  _ ← require (negb (existsb blank (ctx_security_labels c))) (ValueError "security_labels must not contain blank values");
  Ok c.

(** The request of contracts/authorization.py. One of contracts/types.py, which has the first four fields only, is
    read with the defaults of the others. *)
Record AuthorizationRequest := Build_AuthorizationRequest {
  request_principal_ref : string;
  request_action_name : string;
  request_resource_ref : string;
  request_operation : OperationContext;
  request_actor_type : string;
  request_resource_type : string;
  request_organization_id : option string;
  request_team_id : option string;
  request_workspace_id : option string;
  request_task_id : option string;
  request_run_id : option string;
  request_agent_id : option string;
  request_capability_ref : option string;
  request_side_effect : option string;
  request_security_labels : list string;
  request_node_id : option string;
  request_trust_context : dict;
  request_payload_digest : option string;
  request_action_digest : option string;
  request_approval_id : option string
}.

Definition AuthorizationRequest_post_init (r : AuthorizationRequest) : res AuthorizationRequest :=
  _ ← require (negb (blank (request_principal_ref r))) (ValueError "principal_ref must not be blank");
  _ ← require (negb (blank (request_action_name r))) (ValueError "authorization action must not be blank");
  _ ← require (negb (blank (request_resource_ref r))) (ValueError "authorization resource_ref must not be blank");
  _ ← require (negb (blank (request_actor_type r))) (ValueError "actor_type must not be blank");
  _ ← require (negb (blank (request_resource_type r))) (ValueError "resource_type must not be blank");
  _ ← none_blank " must not be blank when provided"
        [("organization_id", request_organization_id r); ("team_id", request_team_id r); ("workspace_id", request_workspace_id r);
         ("task_id", request_task_id r); ("run_id", request_run_id r); ("agent_id", request_agent_id r);
         ("capability_ref", request_capability_ref r); ("side_effect", request_side_effect r); ("node_id", request_node_id r);
         ("request_payload_digest", request_payload_digest r); ("requested_action_digest", request_action_digest r);
         ("approval_id", request_approval_id r)];
  _ ← require (negb (existsb blank (request_security_labels r))) (ValueError "security_labels must not contain blank values");
  Ok r.

Definition to_request (c : AuthorizationContext) (requested_action_digest approval_id : option string) : res AuthorizationRequest :=
  AuthorizationRequest_post_init (Build_AuthorizationRequest (actor_id (ctx_actor c)) (AuthorizationAction_value (ctx_action c))
    (ctx_resource_id c) (ctx_operation c) (ActorType_value (actor_type (ctx_actor c))) (ResourceType_value (ctx_resource_type c))
    (or_text (ctx_organization_id c) (actor_organization_id (ctx_actor c))) (ctx_team_id c) (ctx_workspace_id c) (ctx_task_id c)
    (ctx_run_id c) (ctx_agent_id c) (ctx_capability_ref c) (ctx_side_effect c) (ctx_security_labels c) (ctx_node_id c)
    (ctx_trust_context c) None requested_action_digest approval_id).

Record ProposedAction := Build_ProposedAction {
  proposed_context : AuthorizationContext;
  proposed_payload : pyval;
  proposed_payload_ref : option string
}.

Definition ProposedAction_post_init (a : ProposedAction) : res ProposedAction :=
  _ ← require (negb (blank_when_given (proposed_payload_ref a))) (ValueError "payload_ref must not be blank when provided");
  Ok a.

(** What [digest] encodes. *)
Definition digest_payload (a : ProposedAction) : dict :=
  let c := proposed_context a in
  [("actor_id", VStr (actor_id (ctx_actor c))); ("actor_type", VStr (ActorType_value (actor_type (ctx_actor c))));
   ("action", VStr (AuthorizationAction_value (ctx_action c))); ("resource_type", VStr (ResourceType_value (ctx_resource_type c)));
   ("resource_id", VStr (ctx_resource_id c)); ("project_id", optional_value (OperationContext_project_id (ctx_operation c)));
   ("organization_id", optional_value (or_text (ctx_organization_id c) (actor_organization_id (ctx_actor c))));
   ("team_id", optional_value (ctx_team_id c)); ("workspace_id", optional_value (ctx_workspace_id c));
   ("task_id", optional_value (ctx_task_id c)); ("run_id", optional_value (ctx_run_id c)); ("agent_id", optional_value (ctx_agent_id c));
   ("capability_ref", optional_value (ctx_capability_ref c)); ("side_effect", optional_value (ctx_side_effect c));
   ("security_labels", VSeq SList (map VStr (sort_strs (ctx_security_labels c)))); ("node_id", optional_value (ctx_node_id c));
   ("trust_context", VMap MDict (ctx_trust_context c)); ("payload_ref", optional_value (proposed_payload_ref a));
   ("payload", proposed_payload a)].

(** ** Decisions *)

Inductive AuthorizationOutcome := ALLOW | DENY | REQUIRE_APPROVAL.
#[export] Instance AuthorizationOutcome_eq_dec : EqDecision AuthorizationOutcome.
Proof. solve_decision. Defined.
Definition AuthorizationOutcome_value (o : AuthorizationOutcome) : string :=
  match o with ALLOW => "allow" | DENY => "deny" | REQUIRE_APPROVAL => "require_approval" end.

Record AuthorizationDecision := Build_AuthorizationDecision {
  decision_allowed : bool;
  decision_reason : option string;
  decision_adapter_metadata : list AdapterMetadata;
  decision_outcome : AuthorizationOutcome;
  decision_policy_id : option string;
  decision_constraints : dict;
  decision_audit_metadata : dict
}.

(** [AuthorizationDecision(outcome, ...)] for a resolved outcome. *)
Definition AuthorizationDecision_init (outcome : AuthorizationOutcome) (reason policy_id : option string) (constraints audit_metadata : dict)
  (adapter_metadata : list AdapterMetadata) : res AuthorizationDecision :=
  _ ← require (negb (blank_when_given reason)) (ValueError "reason must not be blank when provided");
  _ ← require (negb (blank_when_given policy_id)) (ValueError "policy_id must not be blank when provided");
  Ok (Build_AuthorizationDecision (bool_decide (outcome = ALLOW)) reason adapter_metadata outcome policy_id constraints audit_metadata).

(** What a provider returns: a decision of this module, or a boolean one of contracts/types.py. *)
Inductive provider_decision :=
| Decision (d : AuthorizationDecision)
| LegacyDecision (allowed : bool) (reason : option string) (adapter_metadata : list AdapterMetadata).

Definition normalize_authorization_decision (d : provider_decision) : res AuthorizationDecision :=
  match d with
  | Decision d => Ok d
  | LegacyDecision allowed reason adapter_metadata =>
      AuthorizationDecision_init (if allowed then ALLOW else DENY) reason None [] [] adapter_metadata
  end.

(** ** The local provider *)

(** The frozensets of a policy, as lists of their members. *)
Record LocalPrincipalPolicy := Build_LocalPrincipalPolicy {
  policy_principal_ref : string;
  policy_actor_types : list ActorType;
  policy_allowed_actions : list AuthorizationAction;
  policy_approval_actions : list AuthorizationAction;
  policy_resource_types : list ResourceType;
  policy_project_ids : list string;
  policy_organization_ids : list string;
  policy_team_ids : list string;
  policy_workspace_ids : list string;
  policy_administrator : bool
}.

Definition is_empty {A} (l : list A) : bool := match l with [] => true | _ => false end.

Definition LocalPrincipalPolicy_post_init (p : LocalPrincipalPolicy) : res LocalPrincipalPolicy :=
  _ ← require (negb (blank (policy_principal_ref p))) (ValueError "principal_ref must not be blank");
  _ ← require (negb (is_empty (policy_actor_types p))) (ValueError "local policy requires at least one actor type");
  _ ← require (negb (is_empty (policy_allowed_actions p)) || negb (is_empty (policy_approval_actions p)) || policy_administrator p)
        (ValueError "local policy must grant, gate, or administer at least one action");
  Ok p.

Definition local_policies := (gmap string LocalPrincipalPolicy).

(** [register] *)
Definition register_local_policy (policies : local_policies) (policy : LocalPrincipalPolicy) : res local_policies :=
  _ ← require (bool_decide (policies !! policy_principal_ref policy = None))
        (ValueError ("duplicate local authorization policy for " +:+ py_repr (policy_principal_ref policy)));
  Ok (<[policy_principal_ref policy := policy]> policies).

(** [_scope_allowed] *)
Definition scope_allowed (value : option string) (allowed : list string) : bool :=
  is_empty allowed || match value with Some v => in_strs v allowed | None => false end.

(** [_decision] *)
Definition local_decision (outcome : AuthorizationOutcome) (request : AuthorizationRequest) (reason policy_id : string) : res AuthorizationDecision :=
  AuthorizationDecision_init outcome (Some reason) (Some policy_id) []
    [("actor_type", VStr (request_actor_type request)); ("resource_type", VStr (request_resource_type request));
     ("project_id", optional_value (OperationContext_project_id (request_operation request)));
     ("team_id", optional_value (request_team_id request))] [].

(** [LocalAuthorizationProvider.authorize] *)
Definition local_authorize (policies : local_policies) (request : AuthorizationRequest) : res AuthorizationDecision :=
  match policies !! request_principal_ref request with
  | None => local_decision DENY request "principal has no local authorization policy" "local:deny-unregistered"
  | Some policy =>
      let policy_id := "local:" +:+ policy_principal_ref policy in
      let deny reason := local_decision DENY request reason policy_id in
      match enum_of all_ActorType ActorType_value (request_actor_type request),
            enum_of all_AuthorizationAction AuthorizationAction_value (request_action_name request),
            enum_of all_ResourceType ResourceType_value (request_resource_type request) with
      | Some actor_type, Some action, Some resource_type =>
          if negb (bool_decide (actor_type ∈ policy_actor_types policy)) then deny "actor type does not match principal policy"
          else if negb (is_empty (policy_resource_types policy)) && negb (bool_decide (resource_type ∈ policy_resource_types policy))
          then deny "resource type is outside principal policy"
          else if negb (scope_allowed (OperationContext_project_id (request_operation request)) (policy_project_ids policy))
          then deny "project scope is outside principal policy"
          else if negb (scope_allowed (request_organization_id request) (policy_organization_ids policy))
          then deny "organization scope is outside principal policy"
          else if negb (scope_allowed (request_team_id request) (policy_team_ids policy))
          then deny "team scope is outside principal policy"
          else if negb (scope_allowed (request_workspace_id request) (policy_workspace_ids policy))
          then deny "workspace scope is outside principal policy"
          else if bool_decide (action ∈ policy_approval_actions policy)
          then local_decision REQUIRE_APPROVAL request "action requires approval by local policy" policy_id
          else if policy_administrator policy || bool_decide (action ∈ policy_allowed_actions policy)
          then local_decision ALLOW request "action allowed by local policy" policy_id
          else deny "action is not granted by local policy"
      | _, _, _ => deny "authorization vocabulary is not recognized by local policy"
      end
  end.

(** [infer_actor_identity] *)
Definition infer_actor_type (actor_ref : string) : ActorType :=
  let named name := starts_with actor_ref (name +:+ "_") || starts_with actor_ref (name +:+ ":") in
  if named "agent" then ACTOR_AGENT
  else if named "worker" then ACTOR_WORKER
  else if named "user" then ACTOR_HUMAN
  else if named "automation" then ACTOR_AUTOMATION
  else if named "integration" then ACTOR_INTEGRATION
  else ACTOR_SERVICE.

Definition infer_actor_identity (actor_ref : string) (organization_id : option string) : res ActorIdentity :=
  _ ← require (negb (blank actor_ref)) (ValueError "actor_ref must not be blank");
  ActorIdentity_post_init (Build_ActorIdentity actor_ref (infer_actor_type actor_ref) organization_id []).
