(* ===== verification/Approvals.v ===== *)
(** * Approvals: security/approvals.py

    [ApprovalService] keeps one record per approval, each around the domain's [Approval] and bound to the digest of one
    exact action. A method may read the clock several times and expires what it finds to be due. The service is
    wrapped by [AsyncApprovalServiceAdapter] of async_persistence.py, under whose lock each call is one step. *)

From S2P Require Import Prelude PyValue Errors StateMonad Ident Lifecycle Domain Contracts PyTime Authorization.

Record ApprovalRecord := Build_ApprovalRecord {
  record_approval : Approval;
  record_requester_ref : string;
  record_action : string;
  record_resource_type : string;
  record_resource_id : string;
  record_digest : string;
  record_risk : RiskClassification;
  record_policy_id : string;
  record_expires_at : datetime;
  record_task_id : option string;
  record_run_id : option string;
  record_capability_ref : option string;
  record_payload_ref : option string;
  record_decision_at : option datetime;
  record_decision_comment : option string
}.

(** [status], [approval_id] and [project_id] *)
Definition record_status (r : ApprovalRecord) : ApprovalStatus := Approval_status (record_approval r).
Definition record_approval_id (r : ApprovalRecord) : string := Approval_id (record_approval r).
Definition record_project_id (r : ApprovalRecord) : option string := Approval_project_id (record_approval r).

Definition ApprovalRecord_post_init (r : ApprovalRecord) : res ApprovalRecord :=
  _ ← none_blank " must not be blank"
        [("requester_ref", Some (record_requester_ref r)); ("action", Some (record_action r)); ("resource_type", Some (record_resource_type r));
         ("resource_id", Some (record_resource_id r)); ("requested_action_digest", Some (record_digest r));
         ("policy_id", Some (record_policy_id r))];
  _ ← require (is_aware (record_expires_at r)) (ValueError "expires_at must be timezone-aware");
  _ ← require (Approval_created_at (record_approval r) <? instant (record_expires_at r))%Z
        (ValueError "expires_at must be after approval creation");
  _ ← require (match record_decision_at r with Some d => is_aware d | None => true end) (ValueError "decision_at must be timezone-aware");
  _ ← require (negb (blank_when_given (record_decision_comment r))) (ValueError "decision_comment must not be blank when provided");
  Ok r.

(** [text.partition(":")], when the separator occurs. *)
Fixpoint partition_colon (s : string) : option (string * string) :=
  match s with
  | "" => None
  | String a s' => if Ascii.eqb a ":" then Some ("", s') else (fun p => (String a p.1, p.2)) <$> partition_colon s'
  end.

(** [_owner_ref] *)
Definition approval_owner_ref (actor_ref : string) : OwnerRef :=
  match partition_colon actor_ref with
  | Some (prefix, raw_id) =>
      if negb (String.eqb raw_id "") && in_strs prefix ["user"; "organization"; "team"; "service"] then Build_OwnerRef prefix raw_id
      else Build_OwnerRef "service" actor_ref
  | None => Build_OwnerRef "service" actor_ref
  end.

(** [_approval_subject] *)
Definition approval_subject (action : ProposedAction) (approval_id : string) : string * string :=
  match ctx_task_id (proposed_context action), ctx_run_id (proposed_context action) with
  | Some task_id, _ => ("task", task_id)
  | None, Some run_id => ("run", run_id)
  | None, None => ("approval", approval_id)
  end.

(** [replace(approval, status=..., updated_at=...)], with [decision_by=...] when somebody decided. *)
Definition approval_moved (status : ApprovalStatus) (decision_by : option OwnerRef) (updated_at : Z) (a : Approval) : Approval :=
  Build_Approval (Approval_subject_type a) (Approval_subject_id a) (Approval_owner_ref a) (Approval_id a) status (Approval_reason a)
    (match decision_by with Some o => Some o | None => Approval_decision_by a end) (Approval_project_id a) (Approval_created_at a) updated_at
    (Approval_schema_version a) (Approval_provenance a) (Approval_external_refs a).

(** [replace(record, approval=..., decision_at=..., decision_comment=...)] *)
Definition record_moved (a : Approval) (decision_at : datetime) (comment : option string) (r : ApprovalRecord) : ApprovalRecord :=
  Build_ApprovalRecord a (record_requester_ref r) (record_action r) (record_resource_type r) (record_resource_id r) (record_digest r)
    (record_risk r) (record_policy_id r) (record_expires_at r) (record_task_id r) (record_run_id r) (record_capability_ref r)
    (record_payload_ref r) (Some decision_at) comment.

(** The records are a dict in insertion order. *)
Record ApprovalService := Build_ApprovalService {
  approval_default_lifetime : Z;
  approval_records : list (string * ApprovalRecord);
  approval_draws : nat
}.

Definition ApprovalService_init (default_lifetime : Z) : res ApprovalService :=
  _ ← require (0 <? default_lifetime)%Z (ValueError "default approval lifetime must be positive");
  Ok (Build_ApprovalService default_lifetime [] 0).

Definition store_approval (r : ApprovalRecord) (s : ApprovalService) : ApprovalService :=
  Build_ApprovalService (approval_default_lifetime s) (dict_set (record_approval_id r) r (approval_records s)) (approval_draws s).

Section service.
(** The clock and the identifiers, by the number of draws; [sha256_json] is [json.dumps] with sorted keys followed by
    [hashlib.sha256]: any function of the payload will do. *)
Context (utcnow : nat -> Z) (uuid : nat -> string) (sha256_json : dict -> res string).

Abbreviation approval_st := (st ApprovalService).

(** [ProposedAction.digest] *)
Definition action_digest (a : ProposedAction) : res string := sha256_json (digest_payload a).

Definition drawn_approval {A} (f : nat -> A) : approval_st A := fun s =>
  (Ok (f (approval_draws s)), Build_ApprovalService (approval_default_lifetime s) (approval_records s) (S (approval_draws s))).
Definition approval_now : approval_st Z := drawn_approval utcnow.

(** [get] *)
Definition get_approval (approval_id : string) : approval_st ApprovalRecord :=
  _ ← of_res (validate_id approval_id "approval");
  found ← gets (fun s => dict_get approval_id (approval_records s));
  match found with
  | None => raise (contract_error NOT_FOUND "approval was not found")
  | Some record =>
      if bool_decide (record_status record = A_PENDING) then
        now ← approval_now;
        if (instant (record_expires_at record) <=? now)%Z then
          now ← approval_now;
          approval ← of_res (Approval_post_init (approval_moved A_EXPIRED None now (record_approval record)));
          record ← of_res (ApprovalRecord_post_init (record_moved approval (Aware now) (record_decision_comment record) record));
          _ ← modify (store_approval record);
          mret record
        else mret record
      else mret record
  end.

(** The search of [find_valid_for] and [pending_for] through the identifiers that were there at its start. *)
Fixpoint find_approval (test : ApprovalRecord -> approval_st bool) (ids : list string) : approval_st (option ApprovalRecord) :=
  match ids with
  | [] => mret None
  | approval_id :: rest =>
      record ← get_approval approval_id;
      found ← test record;
      if (found : bool) then mret (Some record) else find_approval test rest
  end.

(** Whether a record approves the action now. *)
Definition covers (action : ProposedAction) (record : ApprovalRecord) : approval_st bool :=
  if bool_decide (record_status record = A_APPROVED) then
    now ← approval_now;
    if (now <? instant (record_expires_at record))%Z then
      digest ← of_res (action_digest action);
      mret (String.eqb (record_digest record) digest)
    else mret false
  else mret false.

Definition awaits_decision (action : ProposedAction) (record : ApprovalRecord) : approval_st bool :=
  if bool_decide (record_status record = A_PENDING) then
    digest ← of_res (action_digest action);
    mret (String.eqb (record_digest record) digest)
  else mret false.

Definition valid_for (approval_id : string) (action : ProposedAction) : approval_st bool :=
  record ← get_approval approval_id; covers action record.

Definition find_valid_for (action : ProposedAction) : approval_st (option ApprovalRecord) :=
  ids ← gets (fun s => dict_keys (approval_records s));
  find_approval (covers action) ids.

Definition pending_for (action : ProposedAction) : approval_st (option ApprovalRecord) :=
  ids ← gets (fun s => dict_keys (approval_records s));
  find_approval (awaits_decision action) ids.

(** [request] *)
Definition request_approval (action : ProposedAction) (reason policy_id : string) (risk : RiskClassification) (expires_at : option datetime)
  : approval_st ApprovalRecord :=
  _ ← ensure (negb (blank reason)) (ValueError "approval reason must not be blank");
  _ ← ensure (negb (blank policy_id)) (ValueError "approval policy_id must not be blank");
  existing ← pending_for action;
  match existing with
  | Some record => mret record
  | None =>
      now ← approval_now;
      approval_id ← drawn_approval (fun n => id_of_uuid "approval" (uuid n));
      let c := proposed_context action in
      let subject := approval_subject action approval_id in
      approval ← of_res (Approval_post_init (Build_Approval subject.1 subject.2 (approval_owner_ref (actor_id (ctx_actor c))) approval_id
        A_PENDING reason None (OperationContext_project_id (ctx_operation c)) now now SCHEMA_VERSION None []));
      digest ← of_res (action_digest action);
      lifetime ← gets approval_default_lifetime;
      expires_at ← of_res (match expires_at with Some t => Ok t | None => dt_add (Aware now) lifetime end);
      record ← of_res (ApprovalRecord_post_init (Build_ApprovalRecord approval (actor_id (ctx_actor c)) (AuthorizationAction_value (ctx_action c))
        (ResourceType_value (ctx_resource_type c)) (ctx_resource_id c) digest risk policy_id expires_at (ctx_task_id c) (ctx_run_id c)
        (ctx_capability_ref c) (proposed_payload_ref action) None None));
      _ ← modify (store_approval record);
      mret record
  end.

(** [decide] and [cancel] are closed to callers. *)
Definition decide_directly : approval_st ApprovalRecord :=
  raise (contract_error FORBIDDEN "approval decisions must be authorized through AuthorizationGate").
Definition cancel_directly : approval_st ApprovalRecord :=
  raise (contract_error FORBIDDEN "approval cancellation must be authorized through AuthorizationGate").

(** The common part of [_decide_authorized] and [_cancel_authorized]. *)
Definition settle_approval (approval_id actor_ref : string) (status : ApprovalStatus) (comment : ApprovalRecord -> option string)
  : approval_st ApprovalRecord :=
  record ← get_approval approval_id;
  _ ← ensure (bool_decide (record_status record = A_PENDING))
        (contract_error CONFLICT ("approval is not pending: " +:+ enum_value (record_status record)));
  now ← approval_now;
  approval ← of_res (Approval_post_init (approval_moved status (Some (approval_owner_ref actor_ref)) now (record_approval record)));
  updated ← of_res (ApprovalRecord_post_init (record_moved approval (Aware now) (comment record) record));
  _ ← modify (store_approval updated);
  mret updated.

Definition decide_authorized (approval_id approver_ref : string) (approve : bool) (comment : option string) : approval_st ApprovalRecord :=
  _ ← ensure (negb (blank approver_ref)) (ValueError "approver_ref must not be blank");
  settle_approval approval_id approver_ref (if approve then A_APPROVED else A_REJECTED) (fun _ => comment).

Definition cancel_authorized (approval_id actor_ref : string) : approval_st ApprovalRecord :=
  _ ← ensure (negb (blank actor_ref)) (ValueError "actor_ref must not be blank");
  settle_approval approval_id actor_ref A_CANCELLED record_decision_comment.

(** [all]: expires what is due. *)
Definition all_approvals : approval_st (list ApprovalRecord) :=
  ids ← gets (fun s => dict_keys (approval_records s));
  _ ← each (fun approval_id => _ ← get_approval approval_id; mret tt) ids;
  gets (fun s => map snd (approval_records s)).

(** ** The adapter of async_persistence.py *)

Definition resolve_valid_for (action : ProposedAction) (approval_id : option string) : approval_st (option ApprovalRecord) :=
  match approval_id with
  | Some approval_id =>
      valid ← valid_for approval_id action;
      if (valid : bool) then record ← get_approval approval_id; mret (Some record) else mret None
  | None => find_valid_for action
  end.

Definition ensure_pending (action : ProposedAction) (reason policy_id : string) (risk : RiskClassification) (expires_at : option datetime)
  : approval_st (ApprovalRecord * bool) :=
  existing ← pending_for action;
  match existing with
  | Some record => mret (record, false)
  | None => record ← request_approval action reason policy_id risk expires_at; mret (record, true)
  end.
End service.
