(* ===== verification/ApprovalHistory.v ===== *)
(** * What happens to approvals

    Every call of the approval service moves records along the domain's approval lifecycle, keeps what binds them to
    their action, and opens at most one pending record per action. [grows] says so of the states before and after
    a call; it composes, so each method is proved statement by statement. *)

From S2P Require Import Prelude PyValue Errors StateMonad Ident Lifecycle Domain Contracts PyTime Authorization Approvals.

(** Which transitions a call may make: from a record, to a status, decided by somebody or nobody. *)
Abbreviation permission := (ApprovalRecord -> ApprovalStatus -> option OwnerRef -> Prop).

Inductive record_step (may : permission) : ApprovalRecord -> ApprovalRecord -> Prop :=
| Record_moved r status by_whom now comment :
    record_status r = A_PENDING -> status ∈ APPROVAL_TRANSITIONS A_PENDING -> may r status by_whom ->
    record_step may r (record_moved (approval_moved status by_whom now (record_approval r)) (Aware now) comment r).

(** What never changes about a record. *)
Definition binding (r : ApprovalRecord) :=
  (record_approval_id r, record_project_id r, Approval_created_at (record_approval r), Approval_reason (record_approval r),
   (record_requester_ref r, record_action r, record_resource_type r, record_resource_id r, record_digest r),
   (record_risk r, record_policy_id r, record_expires_at r, record_task_id r, record_run_id r, record_capability_ref r, record_payload_ref r)).

Lemma record_step_binding may r r' : record_step may r r' -> binding r' = binding r.
Proof. by intros []. Qed.
Lemma record_steps_binding may r r' : rtc (record_step may) r r' -> binding r' = binding r.
Proof. induction 1 as [|r r1 r2 H _ IH]; [done|]. rewrite IH. by eapply record_step_binding. Qed.

Lemma settled_step may r r' : record_step may r r' -> record_status r = A_PENDING /\ record_status r' <> A_PENDING.
Proof. intros []. split; [done|]. cbn. intros ->. by repeat (apply elem_of_cons in H0 as [?|H0]; [done|]); apply not_elem_of_nil in H0. Qed.

(** A record that was settled stays as it is. *)
Lemma settled_final may r r' : rtc (record_step may) r r' -> record_status r <> A_PENDING -> r' = r.
Proof. intros H Hs. destruct H as [|r r1 r2 H _]; [done|]. by apply settled_step in H as [? _]. Qed.

Lemma record_step_mono (may may' : permission) r r' :
  (forall status by_whom, may r status by_whom -> may' r status by_whom) -> record_step may r r' -> record_step may' r r'.
Proof. intros Hm H. destruct H as [r status by_whom now comment Hp Ht H]. constructor; [done|done|by apply Hm]. Qed.

(** One step is all a record makes. *)
Lemma record_steps_one may r r' : rtc (record_step may) r r' -> r' = r \/ record_step may r r'.
Proof.
  intros H. destruct H as [|r r1 r2 H Hs]; [by left|]. right. apply settled_step in H as Hset.
  by rewrite (settled_final may r1 r2 Hs (proj2 Hset)).
Qed.

Section history.
Context (utcnow : nat -> Z) (uuid : nat -> string) (sha256_json : dict -> res string) (bound : nat).
Context (uuid_distinct : forall n m, n < bound -> m < bound -> uuid n = uuid m -> n = m).

(** The records of a service: each under its own identifier, of which every one was drawn, at most one pending for
    each digest. *)
Record approvals_ok (s : ApprovalService) : Prop := {
  ok_key id r : dict_get id (approval_records s) = Some r -> record_approval_id r = id;
  ok_drawn id r : dict_get id (approval_records s) = Some r -> exists n, n < approval_draws s /\ id = id_of_uuid "approval" (uuid n);
  ok_pending id1 id2 r1 r2 :
    dict_get id1 (approval_records s) = Some r1 -> dict_get id2 (approval_records s) = Some r2 ->
    record_status r1 = A_PENDING -> record_status r2 = A_PENDING -> record_digest r1 = record_digest r2 -> id1 = id2
}.

(** The records of [s] are kept up to permitted steps, and other records of [s'] were opened in between. *)
Definition advanced (may : permission) (opens : ApprovalRecord -> Prop) (s s' : ApprovalService) : Prop :=
  (forall id r, dict_get id (approval_records s) = Some r ->
     exists r', dict_get id (approval_records s') = Some r' /\ rtc (record_step may) r r') /\
  (forall id r', dict_get id (approval_records s') = Some r' ->
     exists r, rtc (record_step may) r r' /\
       (dict_get id (approval_records s) = Some r \/ record_status r = A_PENDING /\ opens r)).

Definition grows (may : permission) (opens : ApprovalRecord -> Prop) (s s' : ApprovalService) : Prop :=
  approval_draws s <= approval_draws s' /\
  (approval_draws s' <= bound -> approvals_ok s -> approvals_ok s' /\ advanced may opens s s').

#[local] Instance advanced_refl may opens : Reflexive (advanced may opens).
Proof. intros s. split; intros id r H; exists r; by repeat split; auto. Qed.
#[local] Instance advanced_trans may opens : Transitive (advanced may opens).
Proof.
  intros s1 s2 s3 [Hf1 Hb1] [Hf2 Hb2]. split.
  - intros id r Hr. destruct (Hf1 id r Hr) as (r2 & H2 & Hs2). destruct (Hf2 id r2 H2) as (r3 & H3 & Hs3). exists r3. split; [done|]. by etrans.
  - intros id r3 H3. destruct (Hb2 id r3 H3) as (r2 & Hs2 & [H2|Hnew]); [|by exists r2; auto].
    destruct (Hb1 id r2 H2) as (r1 & Hs1 & Ho). exists r1. split; [by etrans|done].
Qed.
#[export] Instance grows_refl may opens : Reflexive (grows may opens).
Proof. intros s. by split. Qed.
#[export] Instance grows_trans may opens : Transitive (grows may opens).
Proof.
  intros s1 s2 s3 [Hd1 H1] [Hd2 H2]. split; [lia|]. intros Hb Hok. destruct H1 as [Hok2 Ha1]; [lia|done|].
  destruct H2 as [Hok3 Ha2]; [done..|]. split; [done|]. by etrans.
Qed.

Lemma grows_mono (may may' : permission) (opens opens' : ApprovalRecord -> Prop) s s' :
  (forall r status by_whom, may r status by_whom -> may' r status by_whom) -> (forall r, opens r -> opens' r) ->
  grows may opens s s' -> grows may' opens' s s'.
Proof.
  intros Hm Ho [Hd H]. split; [done|]. intros Hb Hok. destruct (H Hb Hok) as [Hok' [Hf Hbk]]. split; [done|].
  assert (forall r r', rtc (record_step may) r r' -> rtc (record_step may') r r') as Hmono.
  { intros r r' Hs. induction Hs; [done|]. eapply rtc_l; [|done]. eapply record_step_mono; [apply Hm|done]. }
  split.
  - intros id r Hr. destruct (Hf id r Hr) as (r' & ? & ?). eauto.
  - intros id r' Hr'. destruct (Hbk id r' Hr') as (r & Hs & [?|[? ?]]); exists r; split; auto.
Qed.

(** Draws change no record. *)
Lemma grows_draw may opens s s' : approval_records s' = approval_records s -> approval_draws s <= approval_draws s' -> grows may opens s s'.
Proof.
  intros Hr Hd. split; [done|]. intros _ [Hk Hdr Hp]. split.
  - split; rewrite Hr; [done| |done]. intros id r H. destruct (Hdr id r H) as (n & ? & ?). exists n. split; [lia|done].
  - split; rewrite Hr; intros id r H; exists r; by split; auto.
Qed.

(** A permitted move of a stored record. *)
Lemma grows_move may opens s r r' :
  dict_get (record_approval_id r) (approval_records s) = Some r -> record_step may r r' -> grows may opens s (store_approval r' s).
Proof.
  intros Hr Hstep. pose proof (record_step_binding _ _ _ Hstep) as Hbind. pose proof (settled_step _ _ _ Hstep) as [_ Hset].
  assert (record_approval_id r' = record_approval_id r) as Hid by (unfold binding in Hbind; congruence).
  split; [done|]. intros _ [Hk Hdr Hp]. unfold store_approval. cbn.
  assert (forall id x, dict_get id (dict_set (record_approval_id r') r' (approval_records s)) = Some x ->
    id = record_approval_id r /\ x = r' \/ dict_get id (approval_records s) = Some x) as Hget.
  { intros id x. rewrite dict_get_set, Hid. destruct (String.eqb_spec id (record_approval_id r)) as [->|]; [intros [= <-]; by left|by right]. }
  split.
  - split; cbn.
    + intros id x [[-> ->]|Hx]%Hget; [done|by apply Hk].
    + intros id x [[-> ->]|Hx]%Hget; by eapply Hdr.
    + intros id1 id2 r1 r2 [[-> ->]|H1]%Hget [[-> ->]|H2]%Hget; try done. by apply Hp.
  - split; cbn.
    + intros id x Hx. rewrite dict_get_set, Hid. destruct (String.eqb_spec id (record_approval_id r)) as [->|]; [|by exists x].
      exists r'. rewrite Hr in Hx. injection Hx as <-. split; [done|]. by apply rtc_once.
    + intros id x [[-> ->]|Hx]%Hget; [exists r; split; [by apply rtc_once|by left]|exists x; split; [done|by left]].
Qed.

(** A record that is opened under the identifier that is drawn, for an action without a pending one. *)
Lemma grows_open may (opens : ApprovalRecord -> Prop) s s' r :
  record_approval_id r = id_of_uuid "approval" (uuid (approval_draws s)) -> approval_draws s < approval_draws s' ->
  approval_records s' = dict_set (record_approval_id r) r (approval_records s) ->
  (forall id r0, dict_get id (approval_records s) = Some r0 -> record_status r0 = A_PENDING -> record_digest r0 <> record_digest r) ->
  record_status r = A_PENDING -> opens r -> grows may opens s s'.
Proof.
  intros Hid Hd Hrecs Hnone Hst Hopens. split; [lia|]. intros Hb [Hk Hdr Hp].
  assert (dict_get (record_approval_id r) (approval_records s) = None) as Hnew.
  { destruct (dict_get _ _) as [r0|] eqn:Hr0; [|done]. destruct (Hdr _ _ Hr0) as (m & Hm & Heq).
    rewrite Hid in Heq. apply id_of_uuid_inj, uuid_distinct in Heq; lia. }
  assert (forall id x, dict_get id (approval_records s') = Some x ->
    id = record_approval_id r /\ x = r \/ dict_get id (approval_records s) = Some x) as Hget.
  { intros id x. rewrite Hrecs, dict_get_set. destruct (String.eqb_spec id (record_approval_id r)) as [->|]; [intros [= <-]; by left|by right]. }
  split.
  - split.
    + intros id x [[-> ->]|Hx]%Hget; [done|by apply Hk].
    + intros id x [[-> ->]|Hx]%Hget; [by exists (approval_draws s)|]. destruct (Hdr _ _ Hx) as (m & Hm & ?). exists m. split; [lia|done].
    + intros id1 id2 r1 r2 [[-> ->]|H1]%Hget [[-> ->]|H2]%Hget Hs1 Hs2 Heq; [done|..].
      * by destruct (Hnone _ _ H2).
      * by destruct (Hnone _ _ H1).
      * by eapply Hp.
  - split.
    + intros id x Hx. exists x. split; [|done]. rewrite Hrecs, dict_get_set. destruct (String.eqb_spec id (record_approval_id r)) as [->|]; [|done].
      by rewrite Hnew in Hx.
    + intros id x [[-> ->]|Hx]%Hget; [exists r; split; [done|by right]|exists x; split; [done|by left]].
Qed.

(** ** The methods, one by one *)

(** Anybody's reading expires what is due. *)
Definition expires : permission := fun _ status by_whom => status = A_EXPIRED /\ by_whom = None.
(** Nothing is opened. *)
Definition opens_nothing (r : ApprovalRecord) : Prop := False.

(** Only draws happened. *)
Definition idle (s s' : ApprovalService) : Prop := approval_records s' = approval_records s /\ approval_draws s <= approval_draws s'.
#[local] Instance idle_refl : Reflexive idle.
Proof. by split. Qed.
#[local] Instance idle_trans : Transitive idle.
Proof. intros s1 s2 s3 [H1 ?] [H2 ?]. split; [congruence|lia]. Qed.

Lemma grows_idle may opens s s' : idle s s' -> grows may opens s s'.
Proof. intros []. by apply grows_draw. Qed.
Lemma idle_now : steps idle (approval_now utcnow).
Proof. intros s. split; cbn; [done|lia]. Qed.
Lemma idle_covers action r : steps idle (covers utcnow sha256_json action r).
Proof.
  unfold covers. case_bool_decide; [|by intros s]. apply steps_bind; [exact _|exact idle_now|]. intros now.
  destruct (_ <? _)%Z; [|by intros s]. apply steps_bind; [exact _|by intros s|]. by intros digest s.
Qed.
Lemma idle_awaits action r : steps idle (awaits_decision sha256_json action r).
Proof. unfold awaits_decision. case_bool_decide; [|by intros s]. apply steps_bind; [exact _|by intros s|]. by intros digest s. Qed.

(** A record as it is stored, possibly after it expired. *)
Definition read_as (id : string) (s : ApprovalService) (r : ApprovalRecord) (s' : ApprovalService) : Prop :=
  approval_draws s <= approval_draws s' /\
  exists r0, dict_get id (approval_records s) = Some r0 /\
    (r = r0 /\ approval_records s' = approval_records s \/
     record_step expires r0 r /\ approval_records s' = dict_set (record_approval_id r) r (approval_records s)).

Lemma ApprovalRecord_post_init_eq r r' : ApprovalRecord_post_init r = Ok r' -> r' = r.
Proof. unfold ApprovalRecord_post_init. intros H. res_inv. done. Qed.
Lemma Approval_post_init_eq a a' : Approval_post_init a = Ok a' -> a' = a.
Proof. unfold Approval_post_init. intros H. res_inv. done. Qed.

Lemma get_approval_spec id s :
  match get_approval utcnow id s with
  | (Ok r, s') => read_as id s r s'
  | (Err _, s') => idle s s'
  end.
Proof.
  unfold get_approval, mbind, st_bind, of_res, gets, raise, modify, mret, st_ret, approval_now, drawn_approval.
  destruct (validate_id id "approval") as [v|]; [|done]. destruct (dict_get id (approval_records s)) as [r0|] eqn:Hr0; [|done].
  case_bool_decide as Hp; [|by split; [done|]; exists r0; auto].
  destruct (_ <=? _)%Z; [|split; cbn; [lia|]; exists r0; auto].
  destruct (Approval_post_init _) as [a|] eqn:Ha; [|split; cbn; [done|lia]]. apply Approval_post_init_eq in Ha as ->.
  destruct (ApprovalRecord_post_init _) as [r|] eqn:Hr; [|split; cbn; [done|lia]]. apply ApprovalRecord_post_init_eq in Hr as ->.
  split; cbn; [lia|]. exists r0. split; [done|]. right. split; [|done]. constructor; [done| |done]. cbn. by do 2 right; left.
Qed.

Lemma grows_when may opens s s' :
  approval_draws s <= approval_draws s' -> (approval_draws s' <= bound -> approvals_ok s -> grows may opens s s') -> grows may opens s s'.
Proof. intros Hd H. split; [done|]. intros Hb Hok. by apply (H Hb Hok). Qed.

(** [may] allows at least what reading does. *)
Class Expiring (may : permission) := expiring : forall r, may r A_EXPIRED None.
#[export] Instance expiring_expires : Expiring expires.
Proof. by intros r. Qed.

Lemma grows_read may `{!Expiring may} opens id s r s' : read_as id s r s' -> grows may opens s s'.
Proof.
  intros (Hd & r0 & Hr0 & [[-> Hs]|[Hstep Hs]]); [by apply grows_draw|]. apply grows_when; [done|]. intros _ Hok.
  pose proof (ok_key _ Hok _ _ Hr0) as Hid. subst id.
  etrans; [apply (grows_move may opens s r0 r); [done|]|apply grows_draw; [|done]].
  - eapply record_step_mono; [|exact Hstep]. intros status by_whom [-> ->]. apply expiring.
  - done.
Qed.
Lemma grows_get may `{!Expiring may} opens id : steps (grows may opens) (get_approval utcnow id).
Proof.
  intros s. pose proof (get_approval_spec id s) as H. destruct (get_approval utcnow id s) as [[r|e] s']; [by eapply grows_read|by apply grows_idle].
Qed.

(** What was read is stored under its identifier. *)
Lemma read_stored id s r s' : approvals_ok s -> read_as id s r s' -> record_approval_id r = id /\ dict_get id (approval_records s') = Some r.
Proof.
  intros Hok (_ & r0 & Hr0 & [[-> ->]|[Hstep ->]]); pose proof (ok_key _ Hok _ _ Hr0) as Hid; [done|].
  apply record_step_binding in Hstep. assert (record_approval_id r = id) as Hid' by (unfold binding in Hstep; congruence).
  split; [done|]. by rewrite dict_get_set, Hid', String.eqb_refl.
Qed.

Lemma grows_find may `{!Expiring may} opens test ids : (forall r, steps idle (test r)) -> steps (grows may opens) (find_approval utcnow test ids).
Proof.
  intros Ht. induction ids as [|id ids IH]; [by intros s|]. cbn [find_approval]. apply steps_bind; [exact _|by apply grows_get|]. intros r.
  apply steps_bind; [exact _|intros s; apply grows_idle, Ht|]. intros found. destruct found; [by intros s|done].
Qed.

(** One turn of a search. *)
Lemma find_turn (test : ApprovalRecord -> st ApprovalService bool) id s r s1 b s2 :
  (forall r, steps idle (test r)) -> approvals_ok s -> approval_draws s2 <= bound ->
  get_approval utcnow id s = (Ok r, s1) -> test r s1 = (b, s2) ->
  approvals_ok s2 /\ approval_draws s <= approval_draws s1 /\ record_approval_id r = id /\ dict_get id (approval_records s2) = Some r.
Proof.
  intros Ht Hok Hb Hget Htest. pose proof (get_approval_spec id s) as Hread. rewrite Hget in Hread.
  specialize (Ht r s1). rewrite Htest in Ht. cbn [snd] in Ht. destruct (read_stored id s r s1 Hok Hread) as [Hid Hs].
  pose proof (grows_read expires opens_nothing id s r s1 Hread) as Hg1. pose proof (grows_idle expires opens_nothing s1 s2 Ht) as Hg2.
  assert (grows expires opens_nothing s s2) as [_ Hg] by by etrans. destruct (Hg Hb Hok) as [Hok2 _].
  destruct Ht as [Hrecs _]. split_and!; [done|apply Hread|done|]. by rewrite Hrecs.
Qed.

Lemma find_draws (test : ApprovalRecord -> st ApprovalService bool) ids s r s' : (forall r, steps idle (test r)) -> find_approval utcnow test ids s = (r, s') -> approval_draws s <= approval_draws s'.
Proof. intros Ht Hf. destruct (grows_find expires opens_nothing test ids Ht s) as [Hd _]. by rewrite Hf in Hd. Qed.

(** What a search returns is stored and satisfies its test. *)
Lemma find_some (test : ApprovalRecord -> st ApprovalService bool) ids s r s' :
  (forall r, steps idle (test r)) -> approvals_ok s -> approval_draws s' <= bound -> find_approval utcnow test ids s = (Ok (Some r), s') ->
  exists s1 s2, test r s1 = (Ok true, s2) /\ approval_draws s <= approval_draws s1 /\ approval_draws s2 <= approval_draws s' /\
    dict_get (record_approval_id r) (approval_records s') = Some r.
Proof.
  intros Ht. revert s. induction ids as [|id ids IH]; intros s Hok Hb; [done|]. cbn [find_approval]. unfold mbind, st_bind.
  destruct (get_approval utcnow id s) as [[r1|e] s1] eqn:Hget; [|done]. destruct (test r1 s1) as [[b|e] s2] eqn:Htest; [|done]. destruct b.
  - intros [= -> ->]. destruct (find_turn test id s r s1 _ s' Ht Hok Hb Hget Htest) as (_ & Hd & -> & Hs). by exists s1, s'.
  - intros Hrest. pose proof (find_draws test ids s2 _ s' Ht Hrest) as Hd2.
    destruct (find_turn test id s r1 s1 _ s2 Ht Hok ltac:(lia) Hget Htest) as (Hok2 & Hd & _). 
    destruct (IH s2 Hok2 Hb Hrest) as (s3 & s4 & H1 & H2 & H3 & H4). exists s3, s4. split_and!; [done| |done|done].
    pose proof (Ht r1 s1) as [_ Hd12]. rewrite Htest in Hd12. cbn in Hd12. lia.
Qed.

(** After a search in vain no record that it visited is pending for the action. *)
Lemma find_none action digest ids s s' :
  action_digest sha256_json action = Ok digest -> approvals_ok s -> approval_draws s' <= bound ->
  find_approval utcnow (awaits_decision sha256_json action) ids s = (Ok None, s') ->
  forall id r, id ∈ ids -> dict_get id (approval_records s') = Some r -> record_status r = A_PENDING -> record_digest r <> digest.
Proof.
  intros Hdig. revert s. induction ids as [|id ids IH]; intros s Hok Hb; [by intros _ id r ?%elem_of_nil|]. cbn [find_approval]. unfold mbind, st_bind.
  destruct (get_approval utcnow id s) as [[r1|e] s1] eqn:Hget; [|done].
  destruct (awaits_decision sha256_json action r1 s1) as [[b|e] s2] eqn:Htest; [|done]. destruct b; [done|].
  intros Hrest. pose proof (find_draws _ ids s2 _ s' (idle_awaits action) Hrest) as Hd2.
  destruct (find_turn _ id s r1 s1 _ s2 (idle_awaits action) Hok ltac:(lia) Hget Htest) as (Hok2 & _ & _ & Hs2).
  intros id' r [->|Hin]%elem_of_cons; [|by eapply (IH s2 Hok2 Hb Hrest)]. intros Hr Hpend.
  pose proof (grows_find expires opens_nothing _ ids (idle_awaits action) s2) as [_ Hg]. rewrite Hrest in Hg. cbn [snd] in Hg.
  destruct (Hg Hb Hok2) as [_ [Hf _]]. destruct (Hf id r1 Hs2) as (r' & Hr' & Hsteps). rewrite Hr in Hr'. injection Hr' as <-.
  apply record_steps_one in Hsteps as [->|Hstep]; [|by apply settled_step in Hstep as [_ []]].
  unfold awaits_decision in Htest. rewrite bool_decide_eq_true_2 in Htest by done. unfold mbind, st_bind, of_res in Htest. rewrite Hdig in Htest.
  injection Htest as Heq _. by apply String.eqb_neq in Heq.
Qed.

Lemma grows_pending_for action : steps (grows expires opens_nothing) (pending_for utcnow sha256_json action).
Proof. unfold pending_for. apply steps_bind; [exact _|by intros s|]. intros ids. apply grows_find; [exact _|apply idle_awaits]. Qed.

Lemma pending_for_none action digest s s' :
  action_digest sha256_json action = Ok digest -> approvals_ok s -> approval_draws s' <= bound -> pending_for utcnow sha256_json action s = (Ok None, s') ->
  forall id r, dict_get id (approval_records s') = Some r -> record_status r = A_PENDING -> record_digest r <> digest.
Proof.
  intros Hdig Hok Hb Hrun id r Hr. pose proof (grows_pending_for action s) as [_ Hg]. rewrite Hrun in Hg. cbn [snd] in Hg.
  unfold pending_for, gets, mbind, st_bind in Hrun. eapply find_none; [done..| |done].
  destruct (Hg Hb Hok) as [_ [_ Hbk]]. destruct (Hbk id r Hr) as (r0 & _ & [Hr0|[_ []]]).
  apply dict_get_in in Hr0. unfold dict_keys. apply list_elem_of_fmap. by exists (id, r0).
Qed.

Lemma covers_true action r s s' :
  covers utcnow sha256_json action r s = (Ok true, s') ->
  record_status r = A_APPROVED /\ action_digest sha256_json action = Ok (record_digest r) /\ (utcnow (approval_draws s) < instant (record_expires_at r))%Z /\
  approval_draws s < approval_draws s'.
Proof.
  unfold covers, mbind, st_bind, approval_now, drawn_approval, of_res. case_bool_decide as Hst; [|done].
  destruct (_ <? _)%Z eqn:Hlt; [|done]. destruct (action_digest _ action) as [digest|]; [|done]. intros [= Heq%String.eqb_eq <-].
  split_and!; [done|congruence|lia|cbn; lia].
Qed.

(** Deciding: the named record may take the named status, by the named actor. *)
Definition decides (approval_id actor_ref : string) (target : ApprovalStatus) : permission := fun r status by_whom =>
  expires r status by_whom \/ record_approval_id r = approval_id /\ status = target /\ by_whom = Some (approval_owner_ref actor_ref).
#[export] Instance expiring_decides approval_id actor_ref target : Expiring (decides approval_id actor_ref target).
Proof. intros r. by left. Qed.

(** What a settled call leaves behind. *)
Lemma settle_spec approval_id actor_ref status comment s :
  match settle_approval utcnow approval_id actor_ref status comment s with
  | (Ok r', s') => exists r s1 s2 now, read_as approval_id s r s1 /\ record_status r = A_PENDING /\ idle s1 s2 /\ s' = store_approval r' s2 /\
      r' = record_moved (approval_moved status (Some (approval_owner_ref actor_ref)) now (record_approval r)) (Aware now) (comment r) r
  | (Err _, s') => idle s s' \/ exists r s1, read_as approval_id s r s1 /\ idle s1 s'
  end.
Proof.
  unfold settle_approval, mbind, st_bind. pose proof (get_approval_spec approval_id s) as Hread.
  destruct (get_approval utcnow approval_id s) as [[r|e] s1]; [|by left]. unfold ensure. case_bool_decide as Hp; [|by right; exists r, s1].
  unfold mret, st_ret, approval_now, drawn_approval, of_res, modify.
  destruct (Approval_post_init _) as [a|] eqn:Ha; [|right; exists r, s1; split; [done|split; cbn; [done|lia]]]. apply Approval_post_init_eq in Ha as ->.
  destruct (ApprovalRecord_post_init _) as [r'|] eqn:Hr; [|right; exists r, s1; split; [done|split; cbn; [done|lia]]].
  apply ApprovalRecord_post_init_eq in Hr as ->. exists r, s1. do 2 eexists. split_and!; [done|done| |done|done]. split; cbn; [done|lia].
Qed.

Lemma grows_settle opens approval_id actor_ref status comment :
  status ∈ APPROVAL_TRANSITIONS A_PENDING -> steps (grows (decides approval_id actor_ref status) opens) (settle_approval utcnow approval_id actor_ref status comment).
Proof.
  intros Hstatus s. pose proof (settle_spec approval_id actor_ref status comment s) as H.
  destruct (settle_approval _ _ _ _ _ s) as [[r'|e] s'].
  - destruct H as (r & s1 & s2 & now & Hread & Hp & Hidle & -> & ->). cbn [snd].
    pose proof (grows_read (decides approval_id actor_ref status) opens approval_id s r s1 Hread) as Hg.
    apply grows_when; [destruct Hidle as [_ ?], Hread as [? _]; cbn; lia|]. intros _ Hok.
    destruct (read_stored approval_id s r s1 Hok Hread) as [Hid Hstored]. etrans; [exact Hg|]. etrans; [by apply grows_idle|].
    apply (grows_move _ _ s2 r); [by rewrite (proj1 Hidle), Hid|]. constructor; [done|done|]. right. by rewrite Hid.
  - destruct H as [H|(r & s1 & Hread & H)]; [by apply grows_idle|]. etrans; [by apply (grows_read _ _ approval_id s r s1)|by apply grows_idle].
Qed.

Lemma grows_decide opens approval_id approver_ref (approve : bool) comment :
  steps (grows (decides approval_id approver_ref (if approve then A_APPROVED else A_REJECTED)) opens)
    (decide_authorized utcnow approval_id approver_ref approve comment).
Proof.
  unfold decide_authorized. apply steps_bind; [exact _|intros s; by destruct (negb _)|]. intros _. apply grows_settle.
  destruct approve; [by left|by right; left].
Qed.
Lemma grows_cancel opens approval_id actor_ref :
  steps (grows (decides approval_id actor_ref A_CANCELLED) opens) (cancel_authorized utcnow approval_id actor_ref).
Proof.
  unfold cancel_authorized. apply steps_bind; [exact _|intros s; by destruct (negb _)|]. intros _. apply grows_settle. by do 3 right; left.
Qed.

(** Opening: the record is bound to the action. *)
Definition bound_to (action : ProposedAction) (r : ApprovalRecord) : Prop :=
  let c := proposed_context action in
  record_requester_ref r = actor_id (ctx_actor c) /\ record_action r = AuthorizationAction_value (ctx_action c) /\
  record_resource_type r = ResourceType_value (ctx_resource_type c) /\ record_resource_id r = ctx_resource_id c /\
  record_project_id r = OperationContext_project_id (ctx_operation c) /\ record_task_id r = ctx_task_id c /\ record_run_id r = ctx_run_id c /\
  record_capability_ref r = ctx_capability_ref c /\ action_digest sha256_json action = Ok (record_digest r).

Lemma grows_request action reason policy_id risk expires_at :
  steps (grows expires (bound_to action)) (request_approval utcnow uuid sha256_json action reason policy_id risk expires_at).
Proof.
  unfold request_approval. do 2 (apply steps_bind; [exact _|intros s; by destruct (negb _)|]; intros _).
  intros s. pose proof (grows_pending_for action s) as Hg. unfold mbind at 1, st_bind at 1.
  destruct (pending_for utcnow sha256_json action s) as [[[r|]|e] s1] eqn:Hrun; cbn [snd] in Hg;
    try (eapply grows_mono; [done| |exact Hg]; by intros x []).
  assert (grows expires (bound_to action) s s1) as Hg' by (eapply grows_mono; [done| |exact Hg]; by intros x []).
  set (rest := mbind _ _).
  assert (approval_draws s1 <= approval_draws (rest s1).2 /\ (approval_draws (rest s1).2 <= bound -> approvals_ok s -> grows expires (bound_to action) s1 (rest s1).2))
    as [Hd Hrest]; [|apply grows_when; [destruct Hg; lia|intros Hb Hok; etrans; [exact Hg'|by apply Hrest]]].
  unfold rest. clear rest. unfold mbind, st_bind, approval_now, drawn_approval, of_res, gets, modify, mret, st_ret.
  cbn [fst snd approval_draws approval_records approval_default_lifetime].
  set (s3 := Build_ApprovalService _ (approval_records s1) (S (S (approval_draws s1)))).
  assert (idle s1 s3) as Hidle by (split; cbn; [done|lia]).
  assert (forall P : Prop, (approval_draws s1 <= approval_draws s3 /\ (P -> approvals_ok s -> grows expires (bound_to action) s1 s3))) as Hquiet.
  { intros P'. split; [apply Hidle|]. intros _ _. by apply grows_idle. }
  destruct (Approval_post_init _) as [a|] eqn:Ha; [|apply Hquiet]. apply Approval_post_init_eq in Ha.
  destruct (action_digest _ action) as [digest|] eqn:Hdig; [|apply Hquiet].
  destruct (match expires_at with Some t => Ok t | None => _ end) as [until|]; [|apply Hquiet].
  destruct (ApprovalRecord_post_init _) as [r|] eqn:Hr; [|apply Hquiet]. apply ApprovalRecord_post_init_eq in Hr.
  cbn [snd]. split; [cbn; lia|]. intros Hb Hok.
  etrans; [by apply (grows_idle _ _ s1 (Build_ApprovalService (approval_default_lifetime s1) (approval_records s1) (S (approval_draws s1)))); split; cbn; [done|lia]|].
  apply (grows_open expires (bound_to action) _ _ r); rewrite Hr; try (rewrite Ha; done); [cbn; lia|].
  cbn [approval_records record_digest]. intros id r0 Hr0 Hp. cbn in Hb. apply (pending_for_none action digest s s1 Hdig Hok ltac:(lia) Hrun id r0 Hr0 Hp).
Qed.

Lemma grows_ensure_pending action reason policy_id risk expires_at :
  steps (grows expires (bound_to action)) (ensure_pending utcnow uuid sha256_json action reason policy_id risk expires_at).
Proof.
  unfold ensure_pending. apply steps_bind; [exact _| |].
  - intros s. eapply grows_mono; [done| |apply grows_pending_for]. by intros r [].
  - intros [r|]; [by intros s|]. apply steps_bind; [exact _|apply grows_request|]. by intros r s.
Qed.

Lemma grows_resolve action approval_id : steps (grows expires opens_nothing) (resolve_valid_for utcnow sha256_json action approval_id).
Proof.
  unfold resolve_valid_for. destruct approval_id as [id|].
  - apply steps_bind; [exact _| |].
    + unfold valid_for. apply steps_bind; [exact _|by apply grows_get|]. intros r s. apply grows_idle, idle_covers.
    + intros []; [|by intros s]. apply steps_bind; [exact _|by apply grows_get|]. by intros r s.
  - unfold find_valid_for. apply steps_bind; [exact _|by intros s|]. intros ids. apply grows_find; [exact _|apply idle_covers].
Qed.

Lemma grows_all : steps (grows expires opens_nothing) (all_approvals utcnow).
Proof.
  unfold all_approvals. apply steps_bind; [exact _|by intros s|]. intros ids. apply steps_bind; [exact _| |by intros u s].
  induction ids as [|id ids IH]; [by intros s|]. cbn [each]. apply steps_bind; [exact _| |done].
  apply steps_bind; [exact _|by apply grows_get|]. by intros r s.
Qed.

(** An approval that was found for an action is approved for exactly this action, and had not expired by one of the
    readings of the clock that were made from [first] on and before [last]. *)
Definition approves (action : ProposedAction) (first last : nat) (r : ApprovalRecord) : Prop :=
  record_status r = A_APPROVED /\ action_digest sha256_json action = Ok (record_digest r) /\
  exists n, first <= n < last /\ (utcnow n < instant (record_expires_at r))%Z.

Lemma resolve_some action approval_id s r s' :
  approvals_ok s -> approval_draws s' <= bound -> resolve_valid_for utcnow sha256_json action approval_id s = (Ok (Some r), s') ->
  approves action (approval_draws s) (approval_draws s') r /\ dict_get (record_approval_id r) (approval_records s') = Some r.
Proof.
  intros Hok Hb. destruct approval_id as [id|]; cbn [resolve_valid_for].
  - unfold valid_for, mbind, st_bind. destruct (get_approval utcnow id s) as [[r1|e] s1] eqn:Hget; [|done].
    destruct (covers utcnow sha256_json action r1 s1) as [[b|e] s2] eqn:Hcov; [|done]. destruct b; [|done].
    pose proof (get_approval_spec id s2) as Hread. destruct (get_approval utcnow id s2) as [[r2|e] s3] eqn:Hget2; [|done].
    unfold mret, st_ret. intros [= -> ->].
    assert (approval_draws s2 <= approval_draws s') as Hd2 by apply Hread.
    destruct (find_turn _ id s r1 s1 _ s2 (idle_covers action) Hok ltac:(lia) Hget Hcov) as (Hok2 & Hd & Hid & Hs2).
    apply covers_true in Hcov as (Hst & Hdig & Hexp & Hlast).
    destruct (read_stored id s2 r s' Hok2 Hread) as [Hidr Hstored]. rewrite Hidr. split; [|done].
    destruct Hread as (_ & r0 & Hr0 & Hcase). rewrite Hs2 in Hr0. injection Hr0 as <-.
    destruct Hcase as [[-> _]|[Hstep _]]; [|apply settled_step in Hstep; destruct Hstep; congruence].
    split_and!; [done|done|exists (approval_draws s1); split; [lia|done]].
  - unfold find_valid_for, gets, mbind, st_bind. intros Hf.
    destruct (find_some _ _ s r s' (idle_covers action) Hok Hb Hf) as (s1 & s2 & Hcov & Hd & Hd2 & Hs).
    apply covers_true in Hcov as (Hst & Hdig & Hexp & Hlast). split; [|done].
    split_and!; [done|done|exists (approval_draws s1); split; [lia|done]].
Qed.

(** The result of settling is what is stored; a failure settles nothing. *)
Lemma settle_ok approval_id actor_ref status comment s r s' :
  approvals_ok s -> settle_approval utcnow approval_id actor_ref status comment s = (Ok r, s') ->
  dict_get approval_id (approval_records s') = Some r /\ record_approval_id r = approval_id /\ record_status r = status.
Proof.
  intros Hok Hrun. pose proof (settle_spec approval_id actor_ref status comment s) as H. rewrite Hrun in H.
  destruct H as (r0 & s1 & s2 & now & Hread & Hp & Hidle & -> & ->). destruct (read_stored approval_id s r0 s1 Hok Hread) as [Hid _].
  assert (forall x, record_approval_id x = approval_id -> dict_get approval_id (approval_records (store_approval x s2)) = Some x) as Hput.
  { intros x <-. unfold store_approval. cbn [approval_records]. by rewrite dict_get_set, String.eqb_refl. }
  split_and!; [by apply Hput|exact Hid|done].
Qed.

Lemma settle_err approval_id actor_ref status comment s e s' :
  settle_approval utcnow approval_id actor_ref status comment s = (Err e, s') -> grows expires opens_nothing s s'.
Proof.
  intros Hrun. pose proof (settle_spec approval_id actor_ref status comment s) as H. rewrite Hrun in H.
  destruct H as [H|(r & s1 & Hread & H)]; [by apply grows_idle|]. etrans; [by apply (grows_read _ _ approval_id s r s1)|by apply grows_idle].
Qed.
End history.
