(* ===== verification/AuthorizationGate.v ===== *)
(** * The authorization gate: security/enforcement.py

    [AuthorizationGate] asks the provider, binds approvals to exact actions, lets authorized approvers decide, and audits.
    Its coroutines run next to each other over one approval service. Cancellation of a caller is left out: what
    [_await_security_completion] shields runs to its end in any case. *)

From S2P Require Import Prelude PyValue Errors StateMonad Ident Lifecycle Domain Contracts PyTime Authorization Approvals.
From S2P Require Export Programs.

Record AuthorizationAuditRecord := Build_AuthorizationAuditRecord {
  audit_actor_ref : string;
  audit_actor_type : ActorType;
  audit_action : AuthorizationAction;
  audit_resource_type : ResourceType;
  audit_resource_id : string;
  audit_outcome : AuthorizationOutcome;
  audit_reason : option string;
  audit_policy_id : option string;
  audit_occurred_at : datetime;
  audit_correlation_id : string;
  audit_project_id : option string;
  audit_task_id : option string;
  audit_run_id : option string;
  audit_approval_id : option string;
  audit_requested_action_digest : option string
}.

(** ** What the gate awaits *)

Inductive azop :=
| Authorize (request : AuthorizationRequest)
| GetApproval (approval_id : string)
| ResolveValidFor (action : ProposedAction) (approval_id : option string)
| EnsurePending (action : ProposedAction) (reason policy_id : string) (risk : RiskClassification)
| DecideAuthorized (approval_id approver_ref : string) (approve : bool) (comment : option string)
| CancelAuthorized (approval_id actor_ref : string)
| AuditClock
| AppendAudit (record : AuthorizationAuditRecord)
| AuditSink (record : AuthorizationAuditRecord)
| EmitApproval (sink : nat) (event : string) (record : ApprovalRecord)
| Conclude (action : ProposedAction) (decision : AuthorizationDecision).     (* the caller has the decision *)

Definition azreply (o : azop) : Type :=
  match o with
  | Authorize _ => provider_decision
  | GetApproval _ | DecideAuthorized _ _ _ _ | CancelAuthorized _ _ => ApprovalRecord
  | ResolveValidFor _ _ => option ApprovalRecord
  | EnsurePending _ _ _ _ => ApprovalRecord * bool
  | AuditClock => datetime
  | AppendAudit _ | AuditSink _ | EmitApproval _ _ _ | Conclude _ _ => unit
  end.

Abbreviation azprog := (prog azreply).
Abbreviation azcall := (call (R := azreply)).

(** ** The gate *)

(** What the gate is constructed with: whether there is a sink for audit records, and how many observers of approvals. *)
Record GateConfig := Build_GateConfig { gate_has_audit_sink : bool; gate_event_sinks : nat }.

(** [_approval_operation] *)
Definition approval_operation (record : ApprovalRecord) (supplied : OperationContext) : res OperationContext :=
  _ ← require (match OperationContext_project_id supplied, record_project_id record with
               | Some given, Some stored => String.eqb given stored
               | _, _ => true
               end)
        (ContractError FORBIDDEN "approval decision scope does not match the stored approval project" false
           [("approval_id", VStr (record_approval_id record)); ("approval_project_id", optional_value (record_project_id record));
            ("supplied_project_id", optional_value (OperationContext_project_id supplied))]);
  OperationContext_post_init (Build_OperationContext (OperationContext_correlation_id supplied) (OperationContext_causation_id supplied)
    (OperationContext_owner_type supplied) (OperationContext_owner_id supplied) (record_project_id record) (OperationContext_control supplied)).

(** [_resource_type] *)
Definition resource_type_of (value : string) : ResourceType := default RT_GENERIC (enum_of all_ResourceType ResourceType_value value).

(** The action of deciding about an approval. *)
Definition approval_action (approval_id : string) (record : ApprovalRecord) (actor : ActorIdentity) (operation : OperationContext) (side_effect decision : string)
  : res ProposedAction :=
  scoped ← approval_operation record operation;
  context ← AuthorizationContext_post_init (Build_AuthorizationContext actor ACT_APPROVE (resource_type_of (record_resource_type record))
    (record_resource_id record) scoped None None None (record_task_id record) (record_run_id record) None (record_capability_ref record)
    (Some side_effect) [] None []);
  ProposedAction_post_init (Build_ProposedAction context
    (VMap MDict [("approval_id", VStr approval_id); ("decision", VStr decision);
                 ("requested_action_digest", VStr (record_digest record))]) None).

Section gate.
Context (sha256_json : dict -> res string) (g : GateConfig).
Abbreviation digest_of := (action_digest sha256_json).

(** The request that a provider decides about an action. *)
Definition request_for (action : ProposedAction) (approval_id : option string) : res AuthorizationRequest :=
  digest ← digest_of action; to_request (proposed_context action) (Some digest) approval_id.

(** [_audit] *)
Definition audit (action : ProposedAction) (decision : AuthorizationDecision) (approval_id : option string) : azprog unit :=
  let c := proposed_context action in
  now ← azcall AuditClock;
  digest ← lift (digest_of action);
  let record := Build_AuthorizationAuditRecord (actor_id (ctx_actor c)) (actor_type (ctx_actor c)) (ctx_action c) (ctx_resource_type c)
    (ctx_resource_id c) (decision_outcome decision) (decision_reason decision) (decision_policy_id decision) now
    (OperationContext_correlation_id (ctx_operation c)) (OperationContext_project_id (ctx_operation c)) (ctx_task_id c) (ctx_run_id c)
    approval_id (Some digest) in
  _ ← azcall (AppendAudit record);
  if gate_has_audit_sink g then azcall (AuditSink record) else Ret tt.

(** [_emit_approval]: an observer's exception is ignored. *)
Definition emit_approval (event : string) (record : ApprovalRecord) : azprog unit :=
  _ ← for_each (fun sink => attempt (azcall (EmitApproval sink event record)) : azprog (res unit)) (seq 0 (gate_event_sinks g)); Ret tt.

(** [_ensure_pending_and_emit] *)
Definition ensure_pending_and_emit (action : ProposedAction) (reason policy_id : string) (risk : RiskClassification) : azprog ApprovalRecord :=
  found ← azcall (EnsurePending action reason policy_id risk);
  _ ← (if (found.2 : bool) then emit_approval "required" found.1 else Ret tt);
  Ret found.1.

(** [_complete_required_approval_decision] *)
Definition complete_required_approval_decision (action : ProposedAction) (decision : AuthorizationDecision) (approval_id : option string)
  (risk : RiskClassification) : azprog AuthorizationDecision :=
  resolved ← azcall (ResolveValidFor action approval_id);
  match resolved with
  | Some record =>
      allowed ← lift (AuthorizationDecision_init ALLOW (Some "exact action covered by approved approval") (decision_policy_id decision)
        (decision_constraints decision) (decision_audit_metadata decision) (decision_adapter_metadata decision));
      _ ← audit action allowed (Some (record_approval_id record));
      Ret allowed
  | None =>
      pending ← ensure_pending_and_emit action (default "authorization policy requires approval" (or_text (decision_reason decision) None))
        (default "authorization:unspecified" (or_text (decision_policy_id decision) None)) risk;
      digest ← lift (digest_of action);
      gated ← lift (AuthorizationDecision_init REQUIRE_APPROVAL (decision_reason decision) (decision_policy_id decision)
        (dict_set "requested_action_digest" (VStr digest) (dict_set "approval_id" (VStr (record_approval_id pending)) (decision_constraints decision)))
        (decision_audit_metadata decision) (decision_adapter_metadata decision));
      _ ← audit action gated (Some (record_approval_id pending));
      Ret gated
  end.

Definition decide (action : ProposedAction) (approval_id : option string) (risk : RiskClassification) : azprog AuthorizationDecision :=
  request ← lift (request_for action approval_id);
  answer ← azcall (Authorize request);
  decision ← lift (normalize_authorization_decision answer);
  if bool_decide (decision_outcome decision = REQUIRE_APPROVAL) then complete_required_approval_decision action decision approval_id risk
  else _ ← audit action decision approval_id; Ret decision.

Definition enforce (action : ProposedAction) (approval_id : option string) (risk : RiskClassification) : azprog AuthorizationDecision :=
  decision ← decide action approval_id risk;
  if bool_decide (decision_outcome decision = ALLOW) then Ret decision
  else Raise (ContractError FORBIDDEN (default "authorization denied" (or_text (decision_reason decision) None)) false
    (dict_update [("authorization_outcome", VStr (AuthorizationOutcome_value (decision_outcome decision)));
                  ("policy_id", optional_value (decision_policy_id decision))] (decision_constraints decision))).

(** What the caller of [decide] or [enforce] goes on with. *)
Definition concluding (action : ProposedAction) (p : azprog AuthorizationDecision) : azprog AuthorizationDecision :=
  decision ← p; _ ← azcall (Conclude action decision); Ret decision.

(** [_mutate_approval_and_emit] *)
Definition mutate_and_emit (mutation : azprog ApprovalRecord) : azprog ApprovalRecord :=
  updated ← mutation; _ ← emit_approval "resolved" updated; Ret updated.

Definition authorize_directly (action : ProposedAction) : azprog AuthorizationDecision :=
  request ← lift (request_for action None);
  answer ← azcall (Authorize request);
  lift (normalize_authorization_decision answer).

Definition decide_approval (approval_id : string) (approver : ActorIdentity) (approve : bool) (operation : OperationContext) (comment : option string)
  : azprog ApprovalRecord :=
  record ← azcall (GetApproval approval_id);
  action ← lift (approval_action approval_id record approver operation "approval_decision" (if approve then "approve" else "reject"));
  decision ← authorize_directly action;
  _ ← audit action decision (Some approval_id);
  if bool_decide (decision_outcome decision = ALLOW) then
    mutate_and_emit (azcall (DecideAuthorized approval_id (actor_id approver) approve comment))
  else Raise (ContractError FORBIDDEN (default "approver is not authorized" (or_text (decision_reason decision) None)) false
    [("authorization_outcome", VStr (AuthorizationOutcome_value (decision_outcome decision)));
     ("policy_id", optional_value (decision_policy_id decision)); ("approval_id", VStr approval_id)]).

Definition cancel_approval (approval_id : string) (actor : ActorIdentity) (operation : OperationContext) : azprog ApprovalRecord :=
  record ← azcall (GetApproval approval_id);
  action ← lift (approval_action approval_id record actor operation "approval_cancel" "cancel");
  decision ← (if String.eqb (actor_id actor) (record_requester_ref record) then
                lift (AuthorizationDecision_init ALLOW (Some "approval requester may cancel its own pending request")
                        (Some "approval:requester-cancel") [] [] [])
              else authorize_directly action);
  _ ← audit action decision (Some approval_id);
  if bool_decide (decision_outcome decision = ALLOW) then mutate_and_emit (azcall (CancelAuthorized approval_id (actor_id actor)))
  else Raise (ContractError FORBIDDEN (default "actor cannot cancel this approval" (or_text (decision_reason decision) None)) false
    [("approval_id", VStr approval_id)]).

(** *** Calls of the gate *)

Inductive az_call :=
| CallDecide (action : ProposedAction) (approval_id : option string) (risk : RiskClassification)
| CallEnforce (action : ProposedAction) (approval_id : option string) (risk : RiskClassification)
| CallDecideApproval (approval_id : string) (approver : ActorIdentity) (approve : bool) (operation : OperationContext) (comment : option string)
| CallCancelApproval (approval_id : string) (actor : ActorIdentity) (operation : OperationContext)
| CallEnsurePending (action : ProposedAction) (reason policy_id : string) (risk : RiskClassification).

Definition az_handle (call : az_call) : azprog unit :=
  match call with
  | CallDecide action approval_id risk => _ ← attempt (concluding action (decide action approval_id risk)); Ret tt
  | CallEnforce action approval_id risk => _ ← attempt (concluding action (enforce action approval_id risk)); Ret tt
  | CallDecideApproval approval_id approver approve operation comment =>
      _ ← attempt (decide_approval approval_id approver approve operation comment); Ret tt
  | CallCancelApproval approval_id actor operation => _ ← attempt (cancel_approval approval_id actor operation); Ret tt
  | CallEnsurePending action reason policy_id risk => _ ← attempt (ensure_pending_and_emit action reason policy_id risk); Ret tt
  end.

Definition gate_script (calls : list az_call) : azprog unit := _ ← for_each az_handle calls; Ret tt.
End gate.

(** ** The world *)

(** What happened: answers of the provider, approvals that were found to cover an action (with the numbers of the approval
    service's clock readings before and after the search), records that were settled, and decisions that were returned. *)
Inductive az_event :=
| Answered (request : AuthorizationRequest) (answer : provider_decision)
| Covered (action : ProposedAction) (record : ApprovalRecord) (first last : nat)
| Settled (record : ApprovalRecord) (actor_ref : string)
| Concluded (action : ProposedAction) (decision : AuthorizationDecision).

Record az_world := Build_az_world {
  az_approvals : ApprovalService;
  az_moment : nat;
  az_audit : list AuthorizationAuditRecord;
  az_log : list az_event
}.

(** The provider and the sinks may answer anything at any moment; the service has its own clock and identifiers. *)
Record az_env := Build_az_env {
  az_provider : nat -> AuthorizationRequest -> res provider_decision;
  az_sink : nat -> azop -> res unit;
  az_clock : nat -> Z;
  az_utcnow : nat -> Z;
  az_uuid : nat -> string;
  az_sha256_json : dict -> res string
}.

Section perform.
Context (E : az_env).

Definition az_ticked (w : az_world) (events : list az_event) : az_world :=
  Build_az_world (az_approvals w) (S (az_moment w)) (az_audit w) (events ++ az_log w).

Definition on_approvals {A} (m : st ApprovalService A) (events : A -> ApprovalService -> list az_event) (w : az_world) : res A * az_world :=
  let '(r, s) := m (az_approvals w) in
  (r, Build_az_world s (S (az_moment w)) (az_audit w) (match r with Ok a => events a s | Err _ => [] end ++ az_log w)).

Definition perform_az (o : azop) (w : az_world) : res (azreply o) * az_world :=
  match o return res (azreply o) * az_world with
  | Authorize request =>
      let r := az_provider E (az_moment w) request in (r, az_ticked w match r with Ok answer => [Answered request answer] | Err _ => [] end)
  | GetApproval approval_id => on_approvals (get_approval (az_utcnow E) approval_id) (fun _ _ => []) w
  | ResolveValidFor action approval_id =>
      on_approvals (resolve_valid_for (az_utcnow E) (az_sha256_json E) action approval_id)
        (fun found s => match found with
                      | Some record => [Covered action record (approval_draws (az_approvals w)) (approval_draws s)]
                      | None => []
                      end) w
  | EnsurePending action reason policy_id risk =>
      on_approvals (ensure_pending (az_utcnow E) (az_uuid E) (az_sha256_json E) action reason policy_id risk None) (fun _ _ => []) w
  | DecideAuthorized approval_id approver_ref approve comment =>
      on_approvals (decide_authorized (az_utcnow E) approval_id approver_ref approve comment) (fun record _ => [Settled record approver_ref]) w
  | CancelAuthorized approval_id actor_ref =>
      on_approvals (cancel_authorized (az_utcnow E) approval_id actor_ref) (fun record _ => [Settled record actor_ref]) w
  | AuditClock => (Ok (Aware (az_clock E (az_moment w))), az_ticked w [])
  | AppendAudit record => (Ok tt, Build_az_world (az_approvals w) (S (az_moment w)) (az_audit w ++ [record]) (az_log w))
  | AuditSink _ | EmitApproval _ _ _ => (az_sink E (az_moment w) o, az_ticked w [])
  | Conclude action decision => (Ok tt, az_ticked w [Concluded action decision])
  end.
End perform.
