(* ===== verification/AuthorizationProofs.v ===== *)
(** * Any number of callers of the gate

    What the coroutines of AuthorizationGate.v may do with what they learned ([backed]), and the invariant that every
    interleaving keeps: a decision that is returned rests on an answer of the provider or on an approval, and an
    approval on an answer about its approver. *)

From S2P Require Import Prelude PyValue Errors StateMonad Ident Lifecycle Domain Contracts PyTime Authorization Approvals ApprovalHistory.
From S2P Require Import AuthorizationGate.

(** ** Obligations *)

Section obligations.
Context (sha256_json : dict -> res string).

(** What a coroutine knows. *)
Inductive fact :=
| Was_answered (request : AuthorizationRequest) (answer : provider_decision)
| Was_read (approval_id : string) (record : ApprovalRecord)
| Was_covered (action : ProposedAction) (record : ApprovalRecord).

(** The provider decided so about the action, [known] being the facts to rely on. *)
Definition answered (known : fact -> Prop) (action : ProposedAction) (approval_id : option string) (decision : AuthorizationDecision) : Prop :=
  exists request answer, request_for sha256_json action approval_id = Ok request /\ known (Was_answered request answer) /\
    normalize_authorization_decision answer = Ok decision.

(** A decision may be returned: a permission is the provider's own, or the provider required an approval and there is one. *)
Definition justified_decision (known : fact -> Prop) (action : ProposedAction) (decision : AuthorizationDecision) : Prop :=
  decision_outcome decision = ALLOW ->
  exists approval_id d0, answered known action approval_id d0 /\
    (decision = d0 \/ decision_outcome d0 = REQUIRE_APPROVAL /\ exists record, known (Was_covered action record)).

(** An actor may settle an approval: the provider allowed it to approve this very record, or it cancels its own request. *)
Definition entitled (known : fact -> Prop) (approval_id actor_ref : string) (status : ApprovalStatus) : Prop :=
  exists record actor operation side_effect decision action,
    known (Was_read approval_id record) /\ actor_id actor = actor_ref /\
    approval_action approval_id record actor operation side_effect decision = Ok action /\
    match status with
    | A_APPROVED => decision = "approve" | A_REJECTED => decision = "reject" | _ => decision = "cancel"
    end /\
    ((exists d, answered known action None d /\ decision_outcome d = ALLOW) \/ status = A_CANCELLED /\ actor_ref = record_requester_ref record).

(** What the reply to an operation teaches, and what has to be known before one. *)
Definition learns (o : azop) : res (azreply o) -> list fact :=
  match o return res (azreply o) -> list fact with
  | Authorize request => fun r => match r with Ok answer => [Was_answered request answer] | Err _ => [] end
  | GetApproval approval_id => fun r => match r with Ok record => [Was_read approval_id record] | Err _ => [] end
  | ResolveValidFor action _ => fun r => match r with Ok (Some record) => [Was_covered action record] | _ => [] end
  | _ => fun _ => []
  end.

Definition needs (o : azop) (known : fact -> Prop) : Prop :=
  match o with
  | DecideAuthorized approval_id approver_ref approve _ => entitled known approval_id approver_ref (if approve then A_APPROVED else A_REJECTED)
  | CancelAuthorized approval_id actor_ref => entitled known approval_id actor_ref A_CANCELLED
  | Conclude action decision => justified_decision known action decision
  | _ => True
  end.

(** [p] does what it needs to know from [V] and what it learns, and a result satisfies [Q] with the facts known then. *)
Fixpoint yields {A} (p : azprog A) (V : list fact) (Q : A -> list fact -> Prop) : Prop :=
  match p with
  | Ret a => Q a V
  | Raise _ => True
  | Vis o k => needs o (fun f => f ∈ V) /\ forall r, yields (k r) (learns o r ++ V) Q
  end.

Definition sound {A} (p : azprog A) : Prop := forall V, yields p V (fun _ _ => True).

Lemma yields_weaken {A} (p : azprog A) V (Q Q' : A -> list fact -> Prop) :
  yields p V Q -> (forall a V', V ⊆ V' -> Q a V' -> Q' a V') -> yields p V Q'.
Proof.
  revert V. induction p as [a|e|o k IH]; intros V; cbn; [auto|done|]. intros [Hn Hk] HQ. split; [done|]. intros r. eapply IH; [apply Hk|].
  intros a V' Hsub. apply HQ. intros f Hf. apply Hsub, elem_of_app. by right.
Qed.
Lemma yields_bind {A B} (p : azprog A) (f : A -> azprog B) V (Q : A -> list fact -> Prop) (Q' : B -> list fact -> Prop) :
  yields p V Q -> (forall a V', V ⊆ V' -> Q a V' -> yields (f a) V' Q') -> yields (p ≫= f) V Q'.
Proof.
  revert V. induction p as [a|e|o k IH]; intros V; cbn [yields mbind prog_bind]; [by intros HQ Hf; apply Hf|done|]. intros [Hn Hk] Hf. split; [done|].
  intros r. apply IH; [apply Hk|]. intros a V' Hsub. apply Hf. intros x Hx. apply Hsub, elem_of_app. by right.
Qed.
Lemma yields_call o V (Q : azreply o -> list fact -> Prop) :
  needs o (fun f => f ∈ V) -> (forall a, Q a (learns o (Ok a) ++ V)) -> yields (azcall o) V Q.
Proof. intros Hn HQ. split; [done|]. intros [a|e]; cbn; [apply HQ|done]. Qed.
Lemma yields_lift {A} (r : res A) V (Q : A -> list fact -> Prop) : (forall a, r = Ok a -> Q a V) -> yields (lift r) V Q.
Proof. destruct r; cbn; auto. Qed.

Lemma sound_seq {A B} (p : azprog A) (f : A -> azprog B) : sound p -> (forall a, sound (f a)) -> sound (p ≫= f).
Proof. intros Hp Hf V. eapply yields_bind; [apply Hp|]. intros a V' _ _. apply Hf. Qed.
Lemma yields_attempt {A} (p : azprog A) V : yields p V (fun _ _ => True) -> yields (attempt p) V (fun _ _ => True).
Proof. revert V. induction p as [a|e|o k IH]; intros V; cbn; [done..|]. intros [Hn Hk]. split; [done|]. auto. Qed.
Lemma sound_attempt {A} (p : azprog A) : sound p -> sound (attempt p).
Proof. intros Hp V. by apply yields_attempt. Qed.
Lemma sound_for_each {A B} (f : A -> azprog B) l : (forall a, sound (f a)) -> sound (for_each f l).
Proof. intros Hf. induction l as [|a l IH]; [done|]. apply sound_seq; [done|]. intros b. by apply sound_seq. Qed.
Lemma sound_call o : (forall known, needs o known) -> sound (azcall o).
Proof. intros Hn V. by apply yields_call. Qed.
Lemma sound_lift {A} (r : res A) : sound (lift r).
Proof. by destruct r. Qed.
(** A part that may rely on nothing, in the middle. *)
Lemma yields_then {A B} (p : azprog A) (f : A -> azprog B) V (Q : B -> list fact -> Prop) :
  sound p -> (forall a V', V ⊆ V' -> yields (f a) V' Q) -> yields (p ≫= f) V Q.
Proof. intros Hp Hf. eapply yields_bind; [apply Hp|]. auto. Qed.

(** Facts are not forgotten. *)
Ltac later := intros; cbn beta iota in *; repeat first [done|match goal with |- _ ∈ ?V' => match goal with H : _ ⊆ V' |- _ => apply H; clear H end end].

(** ** The gate keeps its obligations *)

Context (g : GateConfig).

Lemma sound_audit action decision approval_id : sound (audit sha256_json g action decision approval_id).
Proof.
  unfold audit. apply sound_seq; [by apply sound_call|]. intros now. apply sound_seq; [apply sound_lift|]. intros digest.
  apply sound_seq; [by apply sound_call|]. intros _. destruct (gate_has_audit_sink g); [by apply sound_call|done].
Qed.
Lemma sound_emit event record : sound (emit_approval g event record).
Proof. unfold emit_approval. apply sound_seq; [|done]. apply sound_for_each. intros sink. apply sound_attempt. by apply sound_call. Qed.
Lemma sound_ensure_pending action reason policy_id risk : sound (ensure_pending_and_emit g action reason policy_id risk).
Proof.
  unfold ensure_pending_and_emit. apply sound_seq; [by apply sound_call|]. intros [r created]. apply sound_seq; [|done].
  destruct created; [apply sound_emit|done].
Qed.

Lemma answered_mono (known known' : fact -> Prop) action approval_id d :
  (forall request answer, known (Was_answered request answer) -> known' (Was_answered request answer)) ->
  answered known action approval_id d -> answered known' action approval_id d.
Proof. intros Hk (request & answer & ? & ? & ?). exists request, answer. auto. Qed.

Lemma yields_authorize_directly action V :
  yields (authorize_directly sha256_json action) V (fun d V' => answered (fun f => f ∈ V') action None d).
Proof.
  unfold authorize_directly. eapply yields_bind; [apply (yields_lift _ _ (fun request _ => request_for sha256_json action None = Ok request)); auto|].
  intros request V1 _ Hreq. eapply yields_bind; [apply (yields_call (Authorize request) V1 (fun answer V' => Was_answered request answer ∈ V')); [done|by left]|].
  intros answer V2 _ Hans. apply yields_lift. intros d Hd. by exists request, answer.
Qed.

Lemma decision_init_outcome outcome reason policy_id constraints audit_metadata adapter_metadata d :
  AuthorizationDecision_init outcome reason policy_id constraints audit_metadata adapter_metadata = Ok d -> decision_outcome d = outcome.
Proof. unfold AuthorizationDecision_init. intros H. res_inv. done. Qed.

Lemma yields_complete action d0 approval_id risk V :
  answered (fun f => f ∈ V) action approval_id d0 -> decision_outcome d0 = REQUIRE_APPROVAL ->
  yields (complete_required_approval_decision sha256_json g action d0 approval_id risk) V (fun d V' => justified_decision (fun f => f ∈ V') action d).
Proof.
  intros Hans Hreq. unfold complete_required_approval_decision.
  eapply (yields_bind _ _ V (fun found V' => match found with Some record => Was_covered action record ∈ V' | None => True end)).
  { apply yields_call; [done|]. intros [record|]; [by left|done]. }
  intros [record|] V1 Hsub Hcov.
  - eapply yields_bind; [apply (yields_lift _ _ (fun d _ => decision_outcome d = ALLOW)); apply decision_init_outcome|]. intros d V2 Hsub2 Hd.
    apply yields_then; [apply sound_audit|]. intros _ V3 Hsub3. cbn. intros _. exists approval_id, d0. split.
    + eapply answered_mono; [|exact Hans]. later.
    + right. split; [done|]. exists record. later.
  - apply yields_then; [apply sound_ensure_pending|]. intros pending V2 _. apply yields_then; [apply sound_lift|]. intros digest V3 _.
    eapply yields_bind; [apply (yields_lift _ _ (fun d _ => decision_outcome d = REQUIRE_APPROVAL)); apply decision_init_outcome|]. intros d V4 _ Hd.
    apply yields_then; [apply sound_audit|]. intros _ V5 _. cbn. intros Hallow. by rewrite Hd in Hallow.
Qed.

Lemma yields_decide action approval_id risk V :
  yields (decide sha256_json g action approval_id risk) V (fun d V' => justified_decision (fun f => f ∈ V') action d).
Proof.
  unfold decide. eapply yields_bind; [apply (yields_lift _ _ (fun request _ => request_for sha256_json action approval_id = Ok request)); auto|].
  intros request V1 _ Hreq. eapply yields_bind; [apply (yields_call (Authorize request) V1 (fun answer V' => Was_answered request answer ∈ V')); [done|by left]|].
  intros answer V2 _ Hans. eapply yields_bind; [apply (yields_lift _ _ (fun d _ => normalize_authorization_decision answer = Ok d)); auto|].
  intros d V3 Hsub Hd. assert (answered (fun f => f ∈ V3) action approval_id d) as Hanswered by (exists request, answer; split_and!; [done|later|done]).
  case_bool_decide as Hout; [by apply yields_complete|]. apply yields_then; [apply sound_audit|]. intros _ V4 Hsub4. cbn. intros _.
  exists approval_id, d. split; [|by left]. eapply answered_mono; [|exact Hanswered]. later.
Qed.

Lemma yields_enforce action approval_id risk V :
  yields (enforce sha256_json g action approval_id risk) V (fun d V' => justified_decision (fun f => f ∈ V') action d).
Proof. unfold enforce. eapply yields_bind; [apply yields_decide|]. intros d V' _ Hd. by case_bool_decide. Qed.

Lemma sound_concluding action p :
  (forall V, yields p V (fun d V' => justified_decision (fun f => f ∈ V') action d)) -> sound (concluding action p).
Proof. intros Hp V. unfold concluding. eapply yields_bind; [apply Hp|]. intros d V' _ Hd. split; [exact Hd|by intros [u|e]]. Qed.

(** The part of [decide_approval] and [cancel_approval] after the record was read. *)
Lemma sound_decide_approval approval_id approver approve operation comment :
  sound (decide_approval sha256_json g approval_id approver approve operation comment).
Proof.
  intros V. unfold decide_approval.
  eapply (yields_bind _ _ V (fun record V' => Was_read approval_id record ∈ V')); [apply yields_call; [done|by left]|]. intros record V1 _ Hread.
  eapply yields_bind; [apply (yields_lift _ _ (fun action _ =>
    approval_action approval_id record approver operation "approval_decision" (if approve then "approve" else "reject") = Ok action)); auto|].
  intros action V2 Hsub2 Haction. eapply yields_bind; [apply yields_authorize_directly|]. intros d V3 Hsub3 Hans.
  apply yields_then; [apply sound_audit|]. intros _ V4 Hsub4. case_bool_decide as Hallow; [|done]. unfold mutate_and_emit.
  apply (yields_bind _ _ V4 (fun _ _ => True)); [|intros updated V5 _ _; by apply yields_then; [apply sound_emit|]].
  apply yields_call; [|done]. exists record, approver, operation, "approval_decision", (if approve then "approve" else "reject"), action.
  split_and!; [later|done|done|by destruct approve|]. left. exists d. split; [|done]. eapply answered_mono; [|exact Hans]. later.
Qed.

Lemma sound_cancel_approval approval_id actor operation : sound (cancel_approval sha256_json g approval_id actor operation).
Proof.
  intros V. unfold cancel_approval.
  eapply (yields_bind _ _ V (fun record V' => Was_read approval_id record ∈ V')); [apply yields_call; [done|by left]|]. intros record V1 _ Hread.
  eapply yields_bind; [apply (yields_lift _ _ (fun action _ =>
    approval_action approval_id record actor operation "approval_cancel" "cancel" = Ok action)); auto|].
  intros action V2 Hsub2 Haction.
  eapply (yields_bind _ _ V2 (fun d V' => decision_outcome d = ALLOW ->
    (exists d, answered (fun f => f ∈ V') action None d /\ decision_outcome d = ALLOW) \/ actor_id actor = record_requester_ref record)).
  { destruct (String.eqb_spec (actor_id actor) (record_requester_ref record)); [apply yields_lift; auto|].
    eapply yields_weaken; [apply yields_authorize_directly|]. intros d V' _ Hd Hallow. left. by exists d. }
  intros d V3 Hsub3 Hans. apply yields_then; [apply sound_audit|]. intros _ V4 Hsub4. case_bool_decide as Hallow; [|done]. unfold mutate_and_emit.
  apply (yields_bind _ _ V4 (fun _ _ => True)); [|intros updated V5 _ _; by apply yields_then; [apply sound_emit|]].
  apply yields_call; [|done]. exists record, actor, operation, "approval_cancel", "cancel", action.
  split_and!; [later|done|done|done|]. destruct (Hans Hallow) as [(d1 & Hd1 & Ho)|Heq]; [left; exists d1; split; [|done]|by right].
  eapply answered_mono; [|exact Hd1]. later.
Qed.

Lemma sound_gate_script calls : sound (gate_script sha256_json g calls).
Proof.
  unfold gate_script. apply sound_seq; [|done]. apply sound_for_each. intros call. destruct call; cbn [az_handle];
    (apply sound_seq; [apply sound_attempt|done]).
  - apply sound_concluding. intros V. apply yields_decide.
  - apply sound_concluding. intros V. apply yields_enforce.
  - apply sound_decide_approval.
  - apply sound_cancel_approval.
  - apply sound_ensure_pending.
Qed.
End obligations.

(** ** Any interleaving *)

Section pool.
Context (E : az_env) (bound : nat) (uuid_distinct : forall n m, n < bound -> m < bound -> az_uuid E n = az_uuid E m -> n = m).
Abbreviation sha256_json := (az_sha256_json E).

(** What the log says of a fact; a record that was read is known by what binds it. *)
Definition logged (log : list az_event) (settled : ApprovalRecord) (f : fact) : Prop :=
  match f with
  | Was_answered request answer => Answered request answer ∈ log
  | Was_covered action record => exists first last, Covered action record first last ∈ log
  | Was_read approval_id record => record_approval_id settled = approval_id /\ binding record = binding settled
  end.

Definition decided (log : list az_event) (f : fact) : Prop :=
  match f with
  | Was_answered request answer => Answered request answer ∈ log
  | Was_covered action record => exists first last, Covered action record first last ∈ log
  | Was_read _ _ => False
  end.

Fixpoint sound_log (log : list az_event) : Prop :=
  match log with
  | [] => True
  | e :: log' =>
      sound_log log' /\
      match e with
      | Answered request answer => exists n, az_provider E n request = Ok answer
      | Covered action r first last => approves (az_utcnow E) sha256_json action first last r /\ exists actor_ref, Settled r actor_ref ∈ log'
      | Settled r actor_ref =>
          record_status r ∈ [A_APPROVED; A_REJECTED; A_CANCELLED] /\ entitled sha256_json (logged log' r) (record_approval_id r) actor_ref (record_status r)
      | Concluded action d => justified_decision sha256_json (decided log') action d
      end
  end.

Definition holds (w : az_world) (f : fact) : Prop :=
  match f with
  | Was_answered request answer => Answered request answer ∈ az_log w
  | Was_covered action record => exists first last, Covered action record first last ∈ az_log w
  | Was_read approval_id record => exists r, dict_get approval_id (approval_records (az_approvals w)) = Some r /\ binding record = binding r
  end.

(** What an operation may do to the approvals. *)
Definition may_do (o : azop) (ok : bool) : permission :=
  match o with
  | DecideAuthorized approval_id approver_ref approve _ => if ok then decides approval_id approver_ref (if approve then A_APPROVED else A_REJECTED) else expires
  | CancelAuthorized approval_id actor_ref => if ok then decides approval_id actor_ref A_CANCELLED else expires
  | _ => expires
  end.
Definition may_open (o : azop) : ApprovalRecord -> Prop :=
  match o with EnsurePending action _ _ _ => bound_to sha256_json action | _ => opens_nothing end.

Lemma perform_approvals o w :
  grows (az_uuid E) bound (may_do o (is_ok (perform_az E o w).1)) (may_open o) (az_approvals w) (az_approvals (perform_az E o w).2).
Proof.
  destruct o; cbn [perform_az may_do may_open]; try reflexivity; unfold on_approvals.
  - pose proof (grows_get (az_utcnow E) (az_uuid E) bound expires opens_nothing approval_id (az_approvals w)) as H.
    by destruct (get_approval _ _ _) as [[?|?] ?].
  - pose proof (grows_resolve (az_utcnow E) (az_uuid E) sha256_json bound action approval_id (az_approvals w)) as H.
    by destruct (resolve_valid_for _ _ _ _ _) as [[?|?] ?].
  - pose proof (grows_ensure_pending (az_utcnow E) (az_uuid E) sha256_json bound uuid_distinct action reason policy_id risk None (az_approvals w)) as H.
    by destruct (ensure_pending _ _ _ _ _ _ _ _ _) as [[?|?] ?].
  - pose proof (grows_decide (az_utcnow E) (az_uuid E) bound opens_nothing approval_id approver_ref approve comment (az_approvals w)) as H.
    destruct (decide_authorized _ _ _ _ _ _) as [[r|e] s'] eqn:Hrun; cbn [fst snd is_ok az_approvals] in *; [exact H|]. clear H.
    unfold decide_authorized, ensure, mbind, st_bind, mret, st_ret in Hrun. destruct (negb _); [eapply settle_err; exact Hrun|]. injection Hrun as _ <-. reflexivity.
  - pose proof (grows_cancel (az_utcnow E) (az_uuid E) bound opens_nothing approval_id actor_ref (az_approvals w)) as H.
    destruct (cancel_authorized _ _ _ _) as [[r|e] s'] eqn:Hrun; cbn [fst snd is_ok az_approvals] in *; [exact H|]. clear H.
    unfold cancel_authorized, ensure, mbind, st_bind, mret, st_ret in Hrun. destruct (negb _); [eapply settle_err; exact Hrun|]. injection Hrun as _ <-. reflexivity.
Qed.

(** The log grows by what an operation replied. *)
Definition new_events (o : azop) (first last : nat) : res (azreply o) -> list az_event :=
  match o return res (azreply o) -> list az_event with
  | Authorize request => fun r => match r with Ok answer => [Answered request answer] | Err _ => [] end
  | ResolveValidFor action _ => fun r => match r with Ok (Some record) => [Covered action record first last] | _ => [] end
  | DecideAuthorized _ actor_ref _ _ | CancelAuthorized _ actor_ref => fun r => match r with Ok record => [Settled record actor_ref] | Err _ => [] end
  | Conclude action decision => fun _ => [Concluded action decision]
  | _ => fun _ => []
  end.

Lemma az_perform_log o w : az_log (perform_az E o w).2 =
  new_events o (approval_draws (az_approvals w)) (approval_draws (az_approvals (perform_az E o w).2)) (perform_az E o w).1 ++ az_log w.
Proof.
  destruct o; cbn [perform_az]; try done; unfold on_approvals.
  - by destruct (get_approval _ _ _) as [[]].
  - by destruct (resolve_valid_for _ _ _ _ _) as [[[]|]].
  - by destruct (ensure_pending _ _ _ _ _ _ _ _ _) as [[]].
  - by destruct (decide_authorized _ _ _ _ _ _) as [[]].
  - by destruct (cancel_authorized _ _ _ _) as [[]].
Qed.

Lemma log_grows o w e : e ∈ az_log w -> e ∈ az_log (perform_az E o w).2.
Proof. rewrite az_perform_log. intros H. apply elem_of_app. by right. Qed.

(** From here on the identifiers that were drawn are distinct. *)
Section step.
Context (o : azop) (w : az_world) (Hok : approvals_ok (az_uuid E) (az_approvals w)).
Context (Hb : approval_draws (az_approvals (perform_az E o w).2) <= bound).

Lemma performed_ok : approvals_ok (az_uuid E) (az_approvals (perform_az E o w).2).
Proof. by apply (proj2 (perform_approvals o w) Hb Hok). Qed.
Lemma performed_advanced :
  advanced (may_do o (is_ok (perform_az E o w).1)) (may_open o) (az_approvals w) (az_approvals (perform_az E o w).2).
Proof. by apply (proj2 (perform_approvals o w) Hb Hok). Qed.

Lemma holds_later f : holds w f -> holds (perform_az E o w).2 f.
Proof.
  destruct f as [request answer|id record|action record]; cbn [holds]; [apply log_grows| |].
  2: { intros (first & last & Hin). exists first, last. by apply log_grows. }
  intros (r & Hr & Hbind). destruct (proj1 performed_advanced id r Hr) as (r' & Hr' & Hs). exists r'. split; [done|].
  by rewrite (record_steps_binding _ _ _ Hs).
Qed.

Lemma learned_holds f : f ∈ learns o (perform_az E o w).1 -> holds (perform_az E o w).2 f.
Proof.
  destruct o as [request|id|action id| | | | | | | |]; cbn [learns perform_az]; try (by intros ?%not_elem_of_nil).
  - destruct (az_provider E _ request) as [answer|]; [|by intros ?%not_elem_of_nil]. intros ->%list_elem_of_singleton. by left.
  - unfold on_approvals. pose proof (get_approval_spec (az_utcnow E) id (az_approvals w)) as H.
    destruct (get_approval _ _ _) as [[r|e] s']; cbn; [|by intros ?%not_elem_of_nil]. intros ->%list_elem_of_singleton.
    exists r. split; [|done]. by apply (read_stored (az_uuid E) id (az_approvals w) r s').
  - unfold on_approvals. destruct (resolve_valid_for _ _ _ _ _) as [[[r|]|e] s']; cbn; try (by intros ?%not_elem_of_nil).
    intros ->%list_elem_of_singleton. do 2 eexists. by left.
Qed.

End step.

(** What a search found is stored. *)
Lemma resolved_covers action id w r :
  let w' := (perform_az E (ResolveValidFor action id) w).2 in
  approvals_ok (az_uuid E) (az_approvals w) -> approval_draws (az_approvals w') <= bound ->
  (perform_az E (ResolveValidFor action id) w).1 = Ok (Some r) ->
  approves (az_utcnow E) sha256_json action (approval_draws (az_approvals w)) (approval_draws (az_approvals w')) r /\
  dict_get (record_approval_id r) (approval_records (az_approvals w')) = Some r.
Proof.
  intros w' Hok. subst w'. cbn [perform_az]. unfold on_approvals. destruct (resolve_valid_for _ _ _ _ _) as [found s'] eqn:Hrun.
  cbn. intros Hb ->. by apply (resolve_some (az_utcnow E) (az_uuid E) sha256_json bound action id).
Qed.

(** Settling replies with what it stored. *)
Lemma decided_stored w id actor_ref approve comment r :
  let o := DecideAuthorized id actor_ref approve comment in
  approvals_ok (az_uuid E) (az_approvals w) -> (perform_az E o w).1 = Ok r ->
  dict_get id (approval_records (az_approvals (perform_az E o w).2)) = Some r /\ record_approval_id r = id /\
  record_status r = if approve then A_APPROVED else A_REJECTED.
Proof.
  intros o Hok. cbn [o perform_az]. unfold on_approvals. destruct (decide_authorized _ _ _ _ _ _) as [[r'|e] s'] eqn:Hrun; [|done]. intros [= ->].
  unfold decide_authorized, ensure, mbind, st_bind, mret, st_ret in Hrun. destruct (negb _); [|done]. eapply settle_ok; [done|exact Hrun].
Qed.
Lemma cancelled_stored w id actor_ref r :
  let o := CancelAuthorized id actor_ref in
  approvals_ok (az_uuid E) (az_approvals w) -> (perform_az E o w).1 = Ok r ->
  dict_get id (approval_records (az_approvals (perform_az E o w).2)) = Some r /\ record_approval_id r = id /\
  record_status r = A_CANCELLED.
Proof.
  intros o Hok. cbn [o perform_az]. unfold on_approvals. destruct (cancel_authorized _ _ _ _) as [[r'|e] s'] eqn:Hrun; [|done]. intros [= ->].
  unfold cancel_authorized, ensure, mbind, st_bind, mret, st_ret in Hrun. destruct (negb _); [|done]. eapply settle_ok; [done|exact Hrun].
Qed.

(** An approved record was settled by somebody. *)
Definition approvals_settled (w : az_world) : Prop :=
  forall id r, dict_get id (approval_records (az_approvals w)) = Some r -> record_status r = A_APPROVED ->
    exists actor_ref, Settled r actor_ref ∈ az_log w.

Lemma settled_later o w :
  approvals_ok (az_uuid E) (az_approvals w) -> approval_draws (az_approvals (perform_az E o w).2) <= bound ->
  approvals_settled w -> approvals_settled (perform_az E o w).2.
Proof.
  intros Hok Hb Hbefore id r Hr Happ.
  destruct (proj2 (performed_advanced o w Hok Hb) id r Hr) as (r0 & Hs & Horig). apply record_steps_one in Hs as [->|Hstep].
  { destruct Horig as [Hr0|[Hp _]]; [|congruence]. destruct (Hbefore id r0 Hr0 Happ) as [a Ha]. exists a. by apply log_grows. }
  pose proof (record_step_binding _ _ _ Hstep) as Hbind. pose proof (ok_key _ _ (performed_ok o w Hok Hb) id r Hr) as Hid.
  assert (record_approval_id r0 = id) as Hid0 by (unfold binding in Hbind; congruence). clear Hbind Horig.
  destruct Hstep as [r0 status by_whom now comment _ _ Hmay]. change (status = A_APPROVED) in Happ. subst status.
  destruct (perform_az E o w).1 as [reply|e] eqn:Hreply; [|by destruct o; destruct Hmay].
  destruct o; try (by destruct Hmay); cbn [may_do is_ok] in Hmay; destruct Hmay as [[? _]|(Heq & Hst & _)]; try done.
  destruct approve; [|done]. destruct (decided_stored _ _ _ _ _ reply Hok Hreply) as (Hstored & _ & _).
  assert (id = approval_id) as -> by congruence. rewrite Hstored in Hr. injection Hr as Hr. rewrite <- Hr. exists approver_ref.
  rewrite az_perform_log, Hreply. by left.
Qed.

(** An approval that was found stays as it was found. *)
Definition covered_stored (w : az_world) : Prop :=
  forall action r first last, Covered action r first last ∈ az_log w ->
    record_status r = A_APPROVED /\ dict_get (record_approval_id r) (approval_records (az_approvals w)) = Some r.

Lemma covered_later o w :
  approvals_ok (az_uuid E) (az_approvals w) -> approval_draws (az_approvals (perform_az E o w).2) <= bound ->
  covered_stored w -> covered_stored (perform_az E o w).2.
Proof.
  intros Hok Hb Hbefore action r first last Hin. rewrite az_perform_log in Hin. apply elem_of_app in Hin as [Hnew|Hold].
  - destruct (perform_az E o w).1 as [reply|e] eqn:Hreply; destruct o; cbn [new_events] in Hnew;
      try (by apply not_elem_of_nil in Hnew); try (by apply list_elem_of_singleton in Hnew).
    destruct reply as [found|]; [|by apply not_elem_of_nil in Hnew]. apply list_elem_of_singleton in Hnew. injection Hnew as -> -> _ _.
    destruct (resolved_covers _ _ w found Hok Hb Hreply) as [(Hst & _) Hstored]. by split.
  - destruct (Hbefore action r first last Hold) as [Hst Hr]. split; [done|].
    destruct (proj1 (performed_advanced o w Hok Hb) _ r Hr) as (r' & Hr' & Hs).
    assert (r' = r) as -> by (apply (settled_final _ _ _ Hs); congruence). exact Hr'.
Qed.

(** What was recorded before justifies what is recorded now. *)
Lemma entitled_logged w r actor_ref id status (V : list fact) :
  (forall f, f ∈ V -> holds w f) -> entitled sha256_json (fun f => f ∈ V) id actor_ref status ->
  record_approval_id r = id -> record_status r = status ->
  (forall r0, dict_get id (approval_records (az_approvals w)) = Some r0 -> binding r0 = binding r) ->
  entitled sha256_json (logged (az_log w) r) (record_approval_id r) actor_ref (record_status r).
Proof.
  intros HV (record & actor & operation & side_effect & decision & action & Hread & Hactor & Haction & Hdec & Hwhy) <- <- Hstored.
  exists record, actor, operation, side_effect, decision, action. split_and!; [|done|done|done|].
  - destruct (HV _ Hread) as (r0 & Hr0 & Hbind). split; [done|]. by rewrite Hbind, (Hstored r0 Hr0).
  - destruct Hwhy as [(d & Hans & Hallow)|Hself]; [left|by right]. exists d. split; [|done].
    eapply answered_mono; [|exact Hans]. intros request answer Hin. apply (HV _ Hin).
Qed.

Lemma justified_logged w action d (V : list fact) :
  (forall f, f ∈ V -> holds w f) -> justified_decision sha256_json (fun f => f ∈ V) action d ->
  justified_decision sha256_json (decided (az_log w)) action d.
Proof.
  intros HV Hj Hallow. destruct (Hj Hallow) as (approval_id & d0 & Hans & Hwhy). exists approval_id, d0. split.
  - eapply answered_mono; [|exact Hans]. intros request answer Hin. apply (HV _ Hin).
  - destruct Hwhy as [->|(Hreq & record & Hcov)]; [by left|right]. split; [done|]. exists record. apply (HV _ Hcov).
Qed.

Lemma stored_binding o w id r :
  approvals_ok (az_uuid E) (az_approvals w) -> approval_draws (az_approvals (perform_az E o w).2) <= bound ->
  dict_get id (approval_records (az_approvals (perform_az E o w).2)) = Some r ->
  forall r0, dict_get id (approval_records (az_approvals w)) = Some r0 -> binding r0 = binding r.
Proof.
  intros Hok Hb Hr r0 Hr0. destruct (proj1 (performed_advanced o w Hok Hb) id r0 Hr0) as (r' & Hr' & Hs). rewrite Hr in Hr'. injection Hr' as <-.
  by rewrite (record_steps_binding _ _ _ Hs).
Qed.

Lemma sound_log_later o w (V : list fact) :
  approvals_ok (az_uuid E) (az_approvals w) -> approval_draws (az_approvals (perform_az E o w).2) <= bound -> approvals_settled w ->
  (forall f, f ∈ V -> holds w f) -> needs sha256_json o (fun f => f ∈ V) -> sound_log (az_log w) -> sound_log (az_log (perform_az E o w).2).
Proof.
  intros Hok Hb Hset HV Hneeds Hlog. pose proof (settled_later o w Hok Hb Hset) as Hset'. pose proof (performed_ok o w Hok Hb) as Hok'.
  pose proof (stored_binding o w) as Hbind. pose proof (az_perform_log o w) as Hgrown.
  destruct o as [request| |action id| |id approver_ref approve comment|id actor_ref| | | | |action decision]; try (rewrite Hgrown; exact Hlog).
  - rewrite Hgrown. cbn [perform_az fst]. destruct (az_provider E _ request) as [answer|] eqn:Hans; [|done]. split; [done|by eexists].
  - destruct (perform_az E _ w).1 as [[r|]|e] eqn:Hreply; rewrite Hgrown; [|done..]. split; [done|].
    destruct (resolved_covers action id w r Hok Hb Hreply) as [Happ Hr]. split; [exact Happ|].
    destruct (Hset' _ _ Hr (proj1 Happ)) as [a Ha]. exists a. rewrite Hgrown in Ha. by apply elem_of_cons in Ha as [?|Ha].
  - destruct (perform_az E _ w).1 as [r|e] eqn:Hreply; rewrite Hgrown; [|done]. split; [done|].
    destruct (decided_stored _ _ _ _ _ r Hok Hreply) as (Hr & Hid & Hst).
    split; [rewrite Hst; destruct approve; [by left|by right; left]|]. eapply entitled_logged; eauto.
  - destruct (perform_az E _ w).1 as [r|e] eqn:Hreply; rewrite Hgrown; [|done]. split; [done|].
    destruct (cancelled_stored _ _ _ r Hok Hreply) as (Hr & Hid & Hst).
    split; [rewrite Hst; by do 2 right; left|]. eapply entitled_logged; eauto.
  - rewrite Hgrown. split; [done|]. by eapply justified_logged.
Qed.

(** The invariant of every interleaving, as long as no more identifiers are drawn than are distinct. *)
Record gate_pool (c : list (azprog unit) * az_world) : Prop := {
  gate_approvals : approvals_ok (az_uuid E) (az_approvals c.2);
  gate_log : sound_log (az_log c.2);
  gate_settled : approvals_settled c.2;
  gate_covered : covered_stored c.2;
  gate_threads i p : c.1 !! i = Some p -> exists V, yields sha256_json p V (fun _ _ => True) /\ (forall f, f ∈ V -> holds c.2 f)
}.

Lemma gate_move i o k c :
  c.1 !! i = Some (Vis o k) -> approval_draws (az_approvals (perform_az E o c.2).2) <= bound -> gate_pool c ->
  gate_pool (<[i := k (perform_az E o c.2).1]> c.1, (perform_az E o c.2).2).
Proof.
  destruct c as [ps w]. cbn [fst snd]. intros Hi Hb [Hok Hlog Hset Hcov Hthreads]. destruct (Hthreads i _ Hi) as (V & [Hneeds Hk] & HV). split; cbn [fst snd].
  - by apply performed_ok.
  - by apply (sound_log_later o w V).
  - by apply settled_later.
  - by apply covered_later.
  - intros j p Hp. apply list_lookup_insert_Some in Hp as [(-> & <- & _)|(_ & Hp)].
    + exists (learns o (perform_az E o w).1 ++ V). split; [apply Hk|].
      intros f [Hf|Hf]%elem_of_app; [by apply learned_holds|by apply holds_later; [..|apply HV]].
    + destruct (Hthreads j p Hp) as (V' & Hp' & HV'). exists V'. split; [done|]. intros f Hf. by apply holds_later; [..|apply HV'].
Qed.

Lemma gate_run turns c :
  gate_pool c -> approval_draws (az_approvals (run_threads (perform_az E) turns c).2) <= bound -> gate_pool (run_threads (perform_az E) turns c).
Proof.
  intros Hc. apply (run_threads_ind (perform_az E) (fun c => approval_draws (az_approvals c.2) <= bound -> gate_pool c)); [done|].
  intros i o k c' Hi IH Hb. cbn [snd] in Hb. apply gate_move; [done..|]. apply IH.
  pose proof (proj1 (perform_approvals o c'.2)). lia.
Qed.
End pool.
