(* ===== verification/AuthorizationTheorems.v ===== *)
(** * What authorization guarantees

    Over any authorization provider and in any interleaving of callers: a permission is the provider's or an approved
    approval's, an approval is settled by an actor whom the provider allowed, and is settled once. Of the local
    provider: exactly what its policies grant. Of both: nothing that a policy gates happens without an approver. *)

From S2P Require Import Prelude PyValue Errors StateMonad Ident Lifecycle Domain Contracts PyTime Authorization Approvals ApprovalHistory.
From S2P Require Import AuthorizationGate AuthorizationProofs.

Section runs.
Context (E : az_env) (g : GateConfig).

(** Any number of callers of one gate over a new approval service. *)
Definition authorizing (turns : list nat) (callers : list (list az_call)) (s : ApprovalService) : az_world :=
  (run_threads (perform_az E) turns (map (gate_script (az_sha256_json E) g) callers, Build_az_world s 0 [] [])).2.

(** The provider was asked about the action and decided so. *)
Definition provider_decided (log : list az_event) (action : ProposedAction) (approval_id : option string) (decision : AuthorizationDecision) : Prop :=
  exists request answer, request_for (az_sha256_json E) action approval_id = Ok request /\ Answered request answer ∈ log /\
    normalize_authorization_decision answer = Ok decision.

Definition provider_allowed (log : list az_event) (action : ProposedAction) : Prop :=
  exists decision, provider_decided log action None decision /\ decision_outcome decision = ALLOW.

(** The actor had the provider's permission to decide so about this very approval. *)
Definition may_settle (log : list az_event) (record : ApprovalRecord) (actor_ref decision : string) : Prop :=
  exists actor operation side_effect action, actor_id actor = actor_ref /\
    approval_action (record_approval_id record) record actor operation side_effect decision = Ok action /\ provider_allowed log action.

Lemma sound_log_app l1 l2 : sound_log E (l1 ++ l2) -> sound_log E l2.
Proof. induction l1 as [|e l1 IH]; [done|]. intros [? _]. auto. Qed.

(** The action of deciding depends on what binds a record only. *)
Lemma approval_action_binding id r r' actor operation side_effect decision :
  binding r = binding r' -> approval_action id r actor operation side_effect decision = approval_action id r' actor operation side_effect decision.
Proof.
  intros H. unfold binding in H. injection H as H1 H2 _ _ _ _ H3 H4 H5 _ _ _ H6 H7 H8 _. unfold approval_action, approval_operation.
  by rewrite H1, H2, H3, H4, H5, H6, H7, H8.
Qed.

Lemma answered_decided log log' action approval_id d :
  (forall e, e ∈ log -> e ∈ log') -> (answered (az_sha256_json E) (decided log) action approval_id d) -> provider_decided log' action approval_id d.
Proof. intros Hl (request & answer & ? & Hin & ?). exists request, answer. split_and!; [done|by apply Hl|done]. Qed.

(** Who settled a record was entitled to. *)
Lemma settled_entitled before r actor_ref :
  sound_log E (Settled r actor_ref :: before) ->
  match record_status r with
  | A_APPROVED => may_settle before r actor_ref "approve"
  | A_REJECTED => may_settle before r actor_ref "reject"
  | A_CANCELLED => may_settle before r actor_ref "cancel" \/ actor_ref = record_requester_ref r
  | _ => False
  end.
Proof.
  intros (_ & Hst & record & actor & operation & side_effect & decision & action & (_ & Hbind) & Hactor & Haction & Hdec & Hwhy).
  rewrite (approval_action_binding _ _ r) in Haction by done.
  assert (record_requester_ref record = record_requester_ref r) as Hreq by (unfold binding in Hbind; congruence).
  assert (forall d, answered (az_sha256_json E) (logged before r) action None d -> decision_outcome d = ALLOW -> may_settle before r actor_ref decision) as Hmay.
  { intros d (request & answer & ?) Hallow. exists actor, operation, side_effect, action. split_and!; [done|done|]. exists d. split; [|done].
    by exists request, answer. }
  destruct (record_status r); try (by exfalso; set_solver);
    (destruct Hwhy as [(d & Hans & Hallow)|[? ->]]; [specialize (Hmay d Hans Hallow); subst decision; auto|by auto]).
Qed.

(** The log before a conclusion records that an approval was found for the action: [r] is the record that the search
    returned, one reading of the approval service's clock that the search made was before its expiry, and [granted] is
    what had been logged when [approver_ref] approved this record. [store] has the record as it was found. *)
Definition covered_by_approval (store : list (string * ApprovalRecord)) (before : list az_event) (action : ProposedAction)
  (r : ApprovalRecord) (approver_ref : string) (granted : list az_event) : Prop :=
  exists first last l1 l2, before = l1 ++ Covered action r first last :: l2 ++ Settled r approver_ref :: granted /\
    dict_get (record_approval_id r) store = Some r /\ record_status r = A_APPROVED /\
    action_digest (az_sha256_json E) action = Ok (record_digest r) /\
    exists n, first <= n < last /\ (az_utcnow E n < instant (record_expires_at r))%Z.

(** Where a permission comes from. *)
Definition authorized (store : list (string * ApprovalRecord)) (before : list az_event) (action : ProposedAction) (d : AuthorizationDecision) : Prop :=
  exists approval_id d0, provider_decided before action approval_id d0 /\
    (d = d0 \/
     decision_outcome d0 = REQUIRE_APPROVAL /\
     exists r approver_ref granted, covered_by_approval store before action r approver_ref granted /\ may_settle granted r approver_ref "approve").

Lemma concluded_authorized w later before action d :
  sound_log E (Concluded action d :: before) -> covered_stored w -> az_log w = later ++ Concluded action d :: before ->
  decision_outcome d = ALLOW -> authorized (approval_records (az_approvals w)) before action d.
Proof.
  intros [Hbefore Hj] Hstored Hw Hallow. destruct (Hj Hallow) as (approval_id & d0 & Hans & Hwhy). exists approval_id, d0.
  split; [by eapply answered_decided|].
  destruct Hwhy as [->|(Hreq & r & first & last & Hcov)]; [by left|right]. split; [done|].
  destruct (Hstored action r first last) as [_ Hr]; [rewrite Hw; apply elem_of_app; right; by right|].
  apply list_elem_of_split in Hcov as (l1 & l2 & ->). apply sound_log_app in Hbefore as (Hl2 & (Hst & Hdig & Hn) & approver_ref & Hset).
  apply list_elem_of_split in Hset as (l3 & granted & ->). apply sound_log_app in Hl2.
  exists r, approver_ref, granted. split; [by exists first, last, l1, l3|].
  apply settled_entitled in Hl2. by rewrite Hst in Hl2.
Qed.

(** Identifiers that are drawn [bound] times without a repetition. *)
Context (bound : nat) (uuid_distinct : forall n m, n < bound -> m < bound -> az_uuid E n = az_uuid E m -> n = m).

Lemma authorizing_pool turns callers lifetime s :
  ApprovalService_init lifetime = Ok s -> approval_draws (az_approvals (authorizing turns callers s)) <= bound ->
  gate_pool E (run_threads (perform_az E) turns (map (gate_script (az_sha256_json E) g) callers, Build_az_world s 0 [] [])).
Proof.
  intros Hinit Hb. unfold ApprovalService_init in Hinit. res_inv. apply (gate_run E bound); [done| |done].
  split; cbn [fst snd az_approvals az_log]; [by split|done|by intros id r|by intros action r first last ?%not_elem_of_nil|].
  intros i p Hp. apply list_lookup_fmap_Some in Hp as (calls & -> & _). exists []. split; [apply sound_gate_script|by intros f ?%not_elem_of_nil].
Qed.

Lemma authorizing_log turns callers lifetime s later before :
  ApprovalService_init lifetime = Ok s -> approval_draws (az_approvals (authorizing turns callers s)) <= bound ->
  az_log (authorizing turns callers s) = later ++ before -> sound_log E before.
Proof.
  intros Hinit Hb Heq. apply (sound_log_app later). rewrite <- Heq. by apply (gate_log _ _ (authorizing_pool _ _ lifetime _ Hinit Hb)).
Qed.

Lemma authorizing_concluded turns callers lifetime s later before action d :
  ApprovalService_init lifetime = Ok s -> approval_draws (az_approvals (authorizing turns callers s)) <= bound ->
  az_log (authorizing turns callers s) = later ++ Concluded action d :: before -> decision_outcome d = ALLOW ->
  sound_log E before /\ authorized (approval_records (az_approvals (authorizing turns callers s))) before action d.
Proof.
  intros Hinit Hb Heq Hallow. pose proof (authorizing_log turns callers lifetime s later _ Hinit Hb Heq) as Hlog.
  pose proof (gate_covered _ _ (authorizing_pool turns callers lifetime s Hinit Hb)) as Hcov. split; [apply Hlog|].
  exact (concluded_authorized _ later before action d Hlog Hcov Heq Hallow).
Qed.

(** C5. A permission is never the gate's own: whenever [decide] or [enforce] hands ALLOW to its caller, the provider has
    answered a request about exactly this action, and either that answer is what the caller got, or it required an
    approval and a search of the approval service had returned one for this action. The record which that search returned
    is still stored under its identifier, as it was found, is approved, has the digest of exactly this action and had not
    expired by a reading of the clock that the search itself made; and it had been approved, before it was found, by an
    actor whom the provider had allowed before that to approve this very record. In any interleaving of any number of
    callers of the gate, over any provider and any observers, which may answer or fail as they like. *)
Theorem allowed_actions_are_authorized turns callers lifetime s later before action d :
  ApprovalService_init lifetime = Ok s -> approval_draws (az_approvals (authorizing turns callers s)) <= bound ->
  az_log (authorizing turns callers s) = later ++ Concluded action d :: before -> decision_outcome d = ALLOW ->
  authorized (approval_records (az_approvals (authorizing turns callers s))) before action d.
Proof. intros Hinit Hb Heq Hallow. by apply (authorizing_concluded turns callers lifetime s later). Qed.

(** C31. Nobody settles an approval on its own authority: a record that was approved or rejected was so by an actor whom the
    provider had allowed this decision about this record, and one that was cancelled by such an actor or by who
    requested it. *)
Theorem approvals_are_settled_by_the_entitled turns callers lifetime s later before r actor_ref :
  ApprovalService_init lifetime = Ok s -> approval_draws (az_approvals (authorizing turns callers s)) <= bound ->
  az_log (authorizing turns callers s) = later ++ Settled r actor_ref :: before ->
  match record_status r with
  | A_APPROVED => may_settle before r actor_ref "approve"
  | A_REJECTED => may_settle before r actor_ref "reject"
  | A_CANCELLED => may_settle before r actor_ref "cancel" \/ actor_ref = record_requester_ref r
  | _ => False
  end.
Proof.
  intros Hinit Hb Heq. by apply settled_entitled, (authorizing_log turns callers lifetime s later).
Qed.
(** *** Over time *)

(** Whatever a call does to an approval, and whatever it opens. *)
Definition any_step : permission := fun _ _ _ => True.
Definition any_record (r : ApprovalRecord) : Prop := True.

Lemma grows_turns turns c :
  grows (az_uuid E) bound any_step any_record (az_approvals c.2) (az_approvals (run_threads (perform_az E) turns c).2).
Proof.
  apply (run_threads_ind (perform_az E) (fun c' => grows (az_uuid E) bound any_step any_record (az_approvals c.2) (az_approvals c'.2))); [reflexivity|].
  intros i o k c' _ Hg. etrans; [exact Hg|]. by eapply grows_mono; [| |apply perform_approvals].
Qed.

(** C18. An approval is settled once. Between any two moments of a run no approval is lost, none changes what it approves
    (its identifier, project, digest, resource, requester, policy and expiry), one that was pending is pending still or
    made one transition of the approval lifecycle, and one that was settled is the same record. At every moment each
    approval is stored under its own identifier, and at most one is pending for any action digest. *)
Theorem approvals_settle_once turns more callers lifetime s :
  ApprovalService_init lifetime = Ok s -> approval_draws (az_approvals (authorizing (turns ++ more) callers s)) <= bound ->
  let now := approval_records (az_approvals (authorizing turns callers s)) in
  let later := approval_records (az_approvals (authorizing (turns ++ more) callers s)) in
  (forall id r, dict_get id now = Some r -> exists r', dict_get id later = Some r' /\ binding r' = binding r /\
     (r' = r \/ record_status r = A_PENDING /\ record_status r' ∈ APPROVAL_TRANSITIONS A_PENDING)) /\
  (forall id r, dict_get id later = Some r -> record_approval_id r = id) /\
  (forall id1 id2 r1 r2, dict_get id1 later = Some r1 -> dict_get id2 later = Some r2 ->
     record_status r1 = A_PENDING -> record_status r2 = A_PENDING -> record_digest r1 = record_digest r2 -> id1 = id2).
Proof.
  intros Hinit Hb now later. pose proof (authorizing_pool (turns ++ more) callers lifetime s Hinit Hb) as [Hok _ _ _].
  pose proof (authorizing_pool turns callers lifetime s Hinit) as Hpool.
  unfold now, later, authorizing in *. rewrite run_threads_app in *. set (c := run_threads _ turns _) in *. clearbody c.
  split_and!; [|by apply Hok|by apply Hok].
  pose proof (grows_turns more c) as [Hd Hg]. destruct Hpool as [Hokc _ _ _]; [lia|].
  destruct (Hg Hb Hokc) as [_ [Hf _]]. intros id r Hr. destruct (Hf id r Hr) as (r' & Hr' & Hs). exists r'. split_and!; [done|by eapply record_steps_binding|].
  apply record_steps_one in Hs as [->|Hs]; [by left|right]. by destruct Hs.
Qed.
End runs.

(** ** The local provider *)

(** Where a policy applies at all: the vocabulary of the request is known, and each of its scopes is in the policy. *)
Definition in_scope (p : LocalPrincipalPolicy) (request : AuthorizationRequest) (action : AuthorizationAction) : Prop :=
  AuthorizationAction_value action = request_action_name request /\
  (exists t, ActorType_value t = request_actor_type request /\ t ∈ policy_actor_types p) /\
  (exists t, ResourceType_value t = request_resource_type request /\ (policy_resource_types p = [] \/ t ∈ policy_resource_types p)) /\
  forall value allowed,
    ((value, allowed) : option string * list string) ∈ [(OperationContext_project_id (request_operation request), policy_project_ids p);
                        (request_organization_id request, policy_organization_ids p); (request_team_id request, policy_team_ids p);
                        (request_workspace_id request, policy_workspace_ids p)] ->
    allowed = [] \/ exists v, value = Some v /\ v ∈ allowed.

Lemma enum_of_some {A} (all : list A) (value : A -> string) s x : enum_of all value s = Some x -> value x = s.
Proof. unfold enum_of. intros H. apply List.find_some in H as [_ H]. by apply String.eqb_eq in H. Qed.
Lemma ActorType_of x : enum_of all_ActorType ActorType_value (ActorType_value x) = Some x.
Proof. by destruct x. Qed.
Lemma AuthorizationAction_of x : enum_of all_AuthorizationAction AuthorizationAction_value (AuthorizationAction_value x) = Some x.
Proof. by destruct x. Qed.
Lemma ResourceType_of x : enum_of all_ResourceType ResourceType_value (ResourceType_value x) = Some x.
Proof. by destruct x. Qed.

Lemma scope_allowed_true value allowed : scope_allowed value allowed = true <-> allowed = [] \/ exists v, value = Some v /\ v ∈ allowed.
Proof.
  unfold scope_allowed. rewrite orb_true_iff. destruct allowed as [|a l]; cbn [is_empty]; [by split; auto|]. destruct value as [v|].
  - rewrite in_strs_true. split; [intros [?|?]; [done|right; eauto]|intros [?|(v' & [= <-] & ?)]; [done|by right]].
  - split; [by intros []|by intros [?|(? & ? & ?)]].
Qed.

(** The checks that [local_authorize] makes before it looks at the action. *)
Definition scope_checks (p : LocalPrincipalPolicy) (request : AuthorizationRequest) (t : ActorType) (resource : ResourceType) : bool :=
  bool_decide (t ∈ policy_actor_types p) && (is_empty (policy_resource_types p) || bool_decide (resource ∈ policy_resource_types p)) &&
  scope_allowed (OperationContext_project_id (request_operation request)) (policy_project_ids p) &&
  scope_allowed (request_organization_id request) (policy_organization_ids p) &&
  scope_allowed (request_team_id request) (policy_team_ids p) && scope_allowed (request_workspace_id request) (policy_workspace_ids p).

Lemma in_scope_checks p request action :
  in_scope p request action <->
  exists t resource, enum_of all_ActorType ActorType_value (request_actor_type request) = Some t /\
    enum_of all_AuthorizationAction AuthorizationAction_value (request_action_name request) = Some action /\
    enum_of all_ResourceType ResourceType_value (request_resource_type request) = Some resource /\ scope_checks p request t resource = true.
Proof.
  assert (forall l : list ResourceType, is_empty l = true <-> l = []) as Hempty by by intros [].
  unfold in_scope, scope_checks. split.
  - intros (<- & (t & <- & Ht) & (resource & <- & Hres) & Hscopes). exists t, resource.
    split_and!; [apply ActorType_of|apply AuthorizationAction_of|apply ResourceType_of|].
    rewrite !andb_true_iff, orb_true_iff, !bool_decide_eq_true, !scope_allowed_true, Hempty. split_and!; [done|done|..]; apply Hscopes; set_solver.
  - intros (t & resource & Ht & Ha & Hr & Hc). apply enum_of_some in Ht, Ha, Hr.
    rewrite !andb_true_iff, orb_true_iff, !bool_decide_eq_true, !scope_allowed_true, Hempty in Hc. destruct Hc as (((((Hin & Hres) & H1) & H2) & H3) & H4).
    split_and!; [done|by exists t|by exists resource|]. intros value allowed Hin'.
    repeat (apply elem_of_cons in Hin' as [[= -> ->]|Hin']; [done|]). by apply not_elem_of_nil in Hin'.
Qed.

Lemma local_decision_ok outcome request reason ref :
  blank reason = false ->
  exists d, local_decision outcome request reason ("local:" +:+ ref) = Ok d /\ decision_outcome d = outcome.
Proof. intros Hr. unfold local_decision, AuthorizationDecision_init. cbn [blank_when_given]. rewrite Hr. by eexists. Qed.

(** [local_authorize] in the order of its conditions. *)
Lemma local_authorize_outcome policies request :
  exists d, local_authorize policies request = Ok d /\
    decision_outcome d =
      match policies !! request_principal_ref request with
      | None => DENY
      | Some p =>
          match enum_of all_ActorType ActorType_value (request_actor_type request),
                enum_of all_AuthorizationAction AuthorizationAction_value (request_action_name request),
                enum_of all_ResourceType ResourceType_value (request_resource_type request) with
          | Some t, Some action, Some resource =>
              if scope_checks p request t resource then
                if bool_decide (action ∈ policy_approval_actions p) then REQUIRE_APPROVAL
                else if policy_administrator p || bool_decide (action ∈ policy_allowed_actions p) then ALLOW else DENY
              else DENY
          | _, _, _ => DENY
          end
      end.
Proof.
  unfold local_authorize, scope_checks. destruct (policies !! _) as [p|]; [|by apply local_decision_ok].
  destruct (enum_of all_ActorType ActorType_value (request_actor_type request)) as [t|],
    (enum_of all_AuthorizationAction AuthorizationAction_value (request_action_name request)) as [action|],
    (enum_of all_ResourceType ResourceType_value (request_resource_type request)) as [resource|]; try by apply local_decision_ok.
  destruct (bool_decide (t ∈ _)); [|by apply local_decision_ok]. cbn [negb andb].
  rewrite <- negb_orb. destruct (is_empty _ || bool_decide (resource ∈ _)); [|by apply local_decision_ok]. cbn [negb andb].
  repeat (destruct (scope_allowed _ _); [|by apply local_decision_ok]; cbn [negb andb]).
  destruct (bool_decide (action ∈ policy_approval_actions p)); [by apply local_decision_ok|].
  destruct (policy_administrator p || _); by apply local_decision_ok.
Qed.

(** The policy and the members that a request names are the ones that were looked up. *)
Lemma covering_policy {P T A R} (p : P) (t : T) (a : A) (r : R) (check : P -> T -> R -> Prop) (Q : P -> A -> Prop) :
  (exists p' a', Some p = Some p' /\ (exists t' r', Some t = Some t' /\ Some a = Some a' /\ Some r = Some r' /\ check p' t' r') /\ Q p' a') <->
  check p t r /\ Q p a.
Proof.
  split; [|by intros []; exists p, a; split_and!; [|exists t, r|]]. by intros (? & ? & [= <-] & (? & ? & [= <-] & [= <-] & [= <-] & ?) & ?).
Qed.

(** What the local provider grants, for a decision that it made. *)
Lemma local_authorize_spec policies request d :
  local_authorize policies request = Ok d ->
  (decision_outcome d = ALLOW <->
   exists p action, policies !! request_principal_ref request = Some p /\ in_scope p request action /\
     (action ∉ policy_approval_actions p) /\ (policy_administrator p = true \/ action ∈ policy_allowed_actions p)) /\
  (decision_outcome d = REQUIRE_APPROVAL <->
   exists p action, policies !! request_principal_ref request = Some p /\ in_scope p request action /\ action ∈ policy_approval_actions p).
Proof.
  intros Hd. destruct (local_authorize_outcome policies request) as (d' & Hd' & Hout). rewrite Hd in Hd'. injection Hd' as <-. rewrite Hout. clear Hd Hout d.
  setoid_rewrite in_scope_checks. destruct (policies !! _) as [p|]; [|naive_solver].
  set (act := enum_of all_AuthorizationAction _ _). set (typ := enum_of all_ActorType _ _). set (res := enum_of all_ResourceType _ _).
  clearbody act typ res. destruct typ as [t|], act as [action|], res as [resource|]; try naive_solver.
  rewrite (covering_policy p t action resource (fun p t resource => scope_checks p request t resource = true)
             (fun p action => (action ∉ policy_approval_actions p) /\ (policy_administrator p = true \/ action ∈ policy_allowed_actions p))).
  rewrite (covering_policy p t action resource (fun p t resource => scope_checks p request t resource = true)
             (fun p action => action ∈ policy_approval_actions p)).
  destruct (scope_checks p request t resource), (policy_administrator p); repeat case_bool_decide; cbn [orb]; naive_solver.
Qed.

(** C28. The local provider answers every request, and grants exactly what its policies say: it allows a request when the
    principal's policy covers it in every respect (vocabulary, actor type, resource type, project, organization, team
    and workspace), does not gate the action and grants it or makes the principal an administrator; it requires an
    approval when the policy covers the request and gates the action, even for an administrator; it denies everything
    else. *)
Theorem local_policy_is_exact policies request :
  exists d, local_authorize policies request = Ok d /\
    (decision_outcome d = ALLOW <->
     exists p action, policies !! request_principal_ref request = Some p /\ in_scope p request action /\
       (action ∉ policy_approval_actions p) /\ (policy_administrator p = true \/ action ∈ policy_allowed_actions p)) /\
    (decision_outcome d = REQUIRE_APPROVAL <->
     exists p action, policies !! request_principal_ref request = Some p /\ in_scope p request action /\ action ∈ policy_approval_actions p).
Proof. destruct (local_authorize_outcome policies request) as (d & Hd & _). exists d. split; [done|]. by apply local_authorize_spec. Qed.

(** ** The gate over the local provider *)

Lemma to_request_eq c digest approval_id request :
  to_request c digest approval_id = Ok request ->
  request_principal_ref request = actor_id (ctx_actor c) /\ request_action_name request = AuthorizationAction_value (ctx_action c) /\
  request_resource_ref request = ctx_resource_id c /\ request_operation request = ctx_operation c /\ request_task_id request = ctx_task_id c /\
  request_run_id request = ctx_run_id c /\ request_action_digest request = digest.
Proof. unfold to_request, AuthorizationRequest_post_init. intros H. res_inv. done. Qed.

Lemma request_for_inv sha256_json action approval_id request :
  request_for sha256_json action approval_id = Ok request ->
  exists digest, action_digest sha256_json action = Ok digest /\ to_request (proposed_context action) (Some digest) approval_id = Ok request.
Proof. unfold request_for. intros H. res_inv. eauto. Qed.

(** The action that is proposed to decide about a record. *)
Lemma approval_action_eq id r actor operation side_effect decision action :
  approval_action id r actor operation side_effect decision = Ok action ->
  let c := proposed_context action in
  ctx_actor c = actor /\ ctx_action c = ACT_APPROVE /\ ctx_resource_id c = record_resource_id r /\ ctx_task_id c = record_task_id r /\
  ctx_run_id c = record_run_id r /\ OperationContext_project_id (ctx_operation c) = record_project_id r.
Proof.
  unfold approval_action, approval_operation, OperationContext_post_init, AuthorizationContext_post_init, ProposedAction_post_init. intros H.
  res_inv. done.
Qed.

Section local.
Context (E : az_env) (g : GateConfig) (policies : local_policies).
Context (local : forall n request, az_provider E n request = (d ← local_authorize policies request; Ok (Decision d))).

Lemma local_answers before action approval_id d :
  sound_log E before -> provider_decided E before action approval_id d ->
  exists request, request_for (az_sha256_json E) action approval_id = Ok request /\ local_authorize policies request = Ok d.
Proof.
  intros Hlog (request & answer & Hreq & Hin & Hnorm). exists request. split; [done|]. apply list_elem_of_split in Hin as (l1 & l2 & ->).
  apply sound_log_app in Hlog as [_ [n Hn]]. rewrite local in Hn. destruct (local_authorize policies request); [|done]. by injection Hn as <-.
Qed.

(** What a granted request says of the principal's policy. *)
Lemma local_allowed request d action :
  local_authorize policies request = Ok d -> decision_outcome d = ALLOW -> request_action_name request = AuthorizationAction_value action ->
  exists p, policies !! request_principal_ref request = Some p /\ in_scope p request action /\ (action ∉ policy_approval_actions p) /\
    (policy_administrator p = true \/ action ∈ policy_allowed_actions p).
Proof.
  intros Hlocal Hallow Hname. apply local_authorize_spec in Hlocal as [Hlocal _]. apply Hlocal in Hallow as (p & action' & Hp & Hscope & Hrest).
  exists p. split; [done|]. pose proof (proj1 Hscope) as Hname'. rewrite Hname in Hname'.
  apply (f_equal (enum_of all_AuthorizationAction AuthorizationAction_value)) in Hname'. rewrite !AuthorizationAction_of in Hname'.
  by injection Hname' as ->.
Qed.

(** The approver asked to approve this record, was answered ALLOW, and its own policy says so. *)
Definition approver_granted (granted : list az_event) (r : ApprovalRecord) (approver_ref : string) : Prop :=
  exists actor operation side_effect asked request answer d p,
    actor_id actor = approver_ref /\
    approval_action (record_approval_id r) r actor operation side_effect "approve" = Ok asked /\
    request_for (az_sha256_json E) asked None = Ok request /\ Answered request answer ∈ granted /\
    normalize_authorization_decision answer = Ok d /\ decision_outcome d = ALLOW /\
    policies !! approver_ref = Some p /\ in_scope p request ACT_APPROVE /\ (ACT_APPROVE ∉ policy_approval_actions p) /\
    (policy_administrator p = true \/ ACT_APPROVE ∈ policy_allowed_actions p) /\
    request_resource_ref request = record_resource_id r /\ OperationContext_project_id (request_operation request) = record_project_id r.

Lemma settler_granted granted r approver_ref :
  sound_log E granted -> may_settle E granted r approver_ref "approve" -> approver_granted granted r approver_ref.
Proof.
  intros Hlog (actor & operation & side_effect & asked & Hactor & Hasked & d & (request & answer & Hreq & Hin & Hnorm) & Hallow).
  assert (local_authorize policies request = Ok d) as Hlocal.
  { apply list_elem_of_split in Hin as (l1 & l2 & ->). apply sound_log_app in Hlog as [_ [n Hn]]. rewrite local in Hn.
    destruct (local_authorize policies request); [|done]. injection Hn as <-. by injection Hnorm as ->. }
  pose proof Hreq as Hreq'. apply request_for_inv in Hreq' as (digest & _ & Hto). apply to_request_eq in Hto as (Hprincipal & Haction & Hres & Hop & _).
  pose proof Hasked as Hasked'. apply approval_action_eq in Hasked' as (Hwho & Hact & Hres' & _ & _ & Hproj).
  destruct (local_allowed request d ACT_APPROVE Hlocal Hallow) as (p & Hp & Hscope & Hngate & Hgrant); [by rewrite Haction, Hact|].
  exists actor, operation, side_effect, asked, request, answer, d, p. rewrite Hprincipal, Hwho, Hactor in Hp. split_and!; congruence.
Qed.

(** C11. Nothing that a policy gates is permitted without an approver: over the local provider, when a principal's policy
    requires an approval for an action, then whoever asks the gate for exactly this action by this principal gets ALLOW
    only after a search of the approval service had returned a record for this action. That record is still stored as it
    was found, is approved, has the digest of this action and had not expired by a reading of the clock that the search
    made; and before it was found it had been approved by an actor who had asked to approve this very record and had
    been answered ALLOW, its own policy covering approving on the record's resource and in its project, and granting
    APPROVE without gating it. This holds for administrators too. *)
Theorem gated_actions_need_an_approver bound turns callers lifetime s later before action d p :
  (forall n m, n < bound -> m < bound -> az_uuid E n = az_uuid E m -> n = m) ->
  ApprovalService_init lifetime = Ok s -> approval_draws (az_approvals (authorizing E g turns callers s)) <= bound ->
  policies !! actor_id (ctx_actor (proposed_context action)) = Some p -> ctx_action (proposed_context action) ∈ policy_approval_actions p ->
  az_log (authorizing E g turns callers s) = later ++ Concluded action d :: before -> decision_outcome d = ALLOW ->
  exists r approver_ref granted,
    covered_by_approval E (approval_records (az_approvals (authorizing E g turns callers s))) before action r approver_ref granted /\
    approver_granted granted r approver_ref.
Proof.
  intros Hdistinct Hinit Hb Hp Hgated Heq Hallow.
  destruct (authorizing_concluded E g bound Hdistinct _ _ _ _ _ _ _ _ Hinit Hb Heq Hallow) as [Hlog (approval_id & d0 & Hdec & Hwhy)].
  destruct (local_answers _ _ _ _ Hlog Hdec) as (request & Hreq & Hlocal). apply request_for_inv in Hreq as (digest & _ & Hreq).
  apply to_request_eq in Hreq as (Hprincipal & Haction & _).
  destruct Hwhy as [->|(_ & r & approver_ref & granted & Hcov & Hmay)].
  { destruct (local_allowed request d0 _ Hlocal Hallow Haction) as (p0 & Hp0 & _ & Hngate & _). rewrite Hprincipal, Hp in Hp0.
    by injection Hp0 as <-. }
  exists r, approver_ref, granted. split; [done|]. apply settler_granted; [|done].
  destruct Hcov as (first & last & l1 & l2 & -> & _). apply sound_log_app in Hlog as [Hlog _]. by apply sound_log_app in Hlog as [Hlog _].
Qed.
End local.

(** ** An approval is worth something *)

Section progress.
Context (E : az_env) (g : GateConfig).
(** Audit records can be delivered. *)
Context (sink : gate_has_audit_sink g = true -> forall n o, is_ok (az_sink E n o) = true).

(** Auditing records the decision and changes nothing else. *)
Lemma execute_audit action d approval_id digest w :
  action_digest (az_sha256_json E) action = Ok digest ->
  exists w', execute (perform_az E) (audit (az_sha256_json E) g action d approval_id) w = (Ok tt, w') /\
    az_approvals w' = az_approvals w /\ az_log w' = az_log w /\
    exists record, az_audit w' = az_audit w ++ [record] /\ audit_outcome record = decision_outcome d /\ audit_approval_id record = approval_id /\
      audit_requested_action_digest record = Some digest /\ audit_actor_ref record = actor_id (ctx_actor (proposed_context action)).
Proof.
  intros Hdig. unfold audit. cbn -[action_digest]. rewrite Hdig. cbn -[action_digest]. destruct (gate_has_audit_sink g); cbn -[action_digest].
  - specialize (sink eq_refl). match goal with |- context [az_sink E ?n ?o] => specialize (sink n o); destruct (az_sink E n o) as [[]|]; [|done] end.
    eexists. split; [done|]. split_and!; [done|done|]. by eexists.
  - eexists. split; [done|]. split_and!; [done|done|]. by eexists.
Qed.

(** Reading an approved record leaves it alone. *)
Lemma get_approved utcnow id r s :
  validate_id id "approval" = Ok id -> dict_get id (approval_records s) = Some r -> record_status r = A_APPROVED ->
  get_approval utcnow id s = (Ok r, s).
Proof.
  intros Hid Hr Hst. unfold get_approval, mbind, st_bind, of_res, gets. rewrite Hid, Hr, bool_decide_eq_false_2 by congruence. done.
Qed.

Lemma resolve_approved utcnow sha256_json id r action s :
  validate_id id "approval" = Ok id -> dict_get id (approval_records s) = Some r -> record_status r = A_APPROVED ->
  action_digest sha256_json action = Ok (record_digest r) -> (utcnow (approval_draws s) < instant (record_expires_at r))%Z ->
  exists s', resolve_valid_for utcnow sha256_json action (Some id) s = (Ok (Some r), s') /\ approval_records s' = approval_records s.
Proof.
  intros Hid Hr Hst Hdig Hlt. cbn [resolve_valid_for]. unfold valid_for, mbind, st_bind. rewrite (get_approved utcnow id r s Hid Hr Hst).
  unfold covers. rewrite bool_decide_eq_true_2 by done. unfold mbind, st_bind, approval_now, drawn_approval.
  rewrite (proj2 (Z.ltb_lt _ _) Hlt), Hdig. unfold of_res, mret, st_ret. rewrite String.eqb_refl.
  set (s1 := Build_ApprovalService _ _ _). rewrite (get_approved utcnow id r s1 Hid Hr Hst). by exists s1.
Qed.

Lemma decision_init_ok outcome reason policy_id constraints audit_metadata adapter_metadata :
  blank_when_given reason = false -> blank_when_given policy_id = false ->
  AuthorizationDecision_init outcome reason policy_id constraints audit_metadata adapter_metadata =
  Ok (Build_AuthorizationDecision (bool_decide (outcome = ALLOW)) reason adapter_metadata outcome policy_id constraints audit_metadata).
Proof. unfold AuthorizationDecision_init. by intros -> ->. Qed.

(** *** [decide] on an action with an approval *)
Section decide.
Context (w : az_world) (action : ProposedAction) (id : string) (r : ApprovalRecord).
Context (Hid : validate_id id "approval" = Ok id) (Hr : dict_get id (approval_records (az_approvals w)) = Some r) (Hkey : record_approval_id r = id).
Context (Hst : record_status r = A_APPROVED) (Hdig : action_digest (az_sha256_json E) action = Ok (record_digest r)).
Context (Hlt : (az_utcnow E (approval_draws (az_approvals w)) < instant (record_expires_at r))%Z).

Definition let_through (d0 d : AuthorizationDecision) (w' : az_world) : Prop :=
  decision_outcome d = ALLOW /\ decision_allowed d = true /\ decision_policy_id d = decision_policy_id d0 /\
  decision_constraints d = decision_constraints d0 /\ approval_records (az_approvals w') = approval_records (az_approvals w) /\
  exists record, az_audit w' = az_audit w ++ [record] /\ audit_outcome record = ALLOW /\ audit_approval_id record = Some id /\
    audit_requested_action_digest record = Some (record_digest r) /\ audit_actor_ref record = actor_id (ctx_actor (proposed_context action)).

Lemma execute_complete d0 risk w1 :
  az_approvals w1 = az_approvals w -> az_audit w1 = az_audit w -> blank_when_given (decision_policy_id d0) = false ->
  exists d w', execute (perform_az E) (complete_required_approval_decision (az_sha256_json E) g action d0 (Some id) risk) w1 = (Ok d, w') /\ let_through d0 d w'.
Proof.
  intros Hw Haud Hpolicy. unfold complete_required_approval_decision.
  cbn -[audit ensure_pending_and_emit resolve_valid_for AuthorizationDecision_init action_digest]. unfold on_approvals. rewrite Hw.
  destruct (resolve_approved (az_utcnow E) (az_sha256_json E) id r action _ Hid Hr Hst Hdig Hlt) as (s' & Hrun & Hrecs). rewrite Hrun.
  rewrite decision_init_ok by done. cbn -[execute audit ensure_pending_and_emit action_digest]. rewrite Hkey.
  rewrite execute_bind.
  match goal with |- context [execute _ (audit _ _ ?a ?d ?i) ?w] => destruct (execute_audit a d i _ w Hdig) as (w2 & Hw2 & Happ & _ & record & Haudit) end.
  rewrite Hw2. do 2 eexists. split; [done|]. unfold let_through. rewrite <- Haud.
  split_and!; [done..|by rewrite Happ|]. by exists record.
Qed.

Lemma execute_decide risk request answer d0 :
  request_for (az_sha256_json E) action (Some id) = Ok request -> az_provider E (az_moment w) request = Ok answer ->
  normalize_authorization_decision answer = Ok d0 -> decision_outcome d0 = REQUIRE_APPROVAL -> blank_when_given (decision_policy_id d0) = false ->
  exists d w', execute (perform_az E) (decide (az_sha256_json E) g action (Some id) risk) w = (Ok d, w') /\ let_through d0 d w'.
Proof.
  intros Hreq Hans Hnorm Hout Hpolicy. unfold decide. rewrite Hreq. cbn -[execute complete_required_approval_decision normalize_authorization_decision].
  cbn [execute perform_az]. rewrite Hans. cbn -[execute complete_required_approval_decision normalize_authorization_decision]. rewrite Hnorm.
  cbn -[execute complete_required_approval_decision]. rewrite bool_decide_eq_true_2 by done. by apply execute_complete.
Qed.
End decide.

(** C21. An approved approval lets its action through: when the provider requires an approval for the action and the caller
    names an approval that is approved for the digest of this action and has not expired, [enforce] returns ALLOW with
    the policy and the constraints of the provider's decision, records ALLOW with the approval in the audit, and
    leaves every approval as it was. *)
Theorem approved_action_proceeds w action id r risk request answer d0 :
  validate_id id "approval" = Ok id -> dict_get id (approval_records (az_approvals w)) = Some r -> record_approval_id r = id ->
  record_status r = A_APPROVED -> action_digest (az_sha256_json E) action = Ok (record_digest r) ->
  (az_utcnow E (approval_draws (az_approvals w)) < instant (record_expires_at r))%Z ->
  request_for (az_sha256_json E) action (Some id) = Ok request -> az_provider E (az_moment w) request = Ok answer ->
  normalize_authorization_decision answer = Ok d0 -> decision_outcome d0 = REQUIRE_APPROVAL -> blank_when_given (decision_policy_id d0) = false ->
  exists d w', execute (perform_az E) (enforce (az_sha256_json E) g action (Some id) risk) w = (Ok d, w') /\
    decision_outcome d = ALLOW /\ decision_allowed d = true /\ decision_policy_id d = decision_policy_id d0 /\
    decision_constraints d = decision_constraints d0 /\ approval_records (az_approvals w') = approval_records (az_approvals w) /\
    exists record, az_audit w' = az_audit w ++ [record] /\ audit_outcome record = ALLOW /\ audit_approval_id record = Some id /\
      audit_requested_action_digest record = Some (record_digest r) /\ audit_actor_ref record = actor_id (ctx_actor (proposed_context action)).
Proof.
  intros Hid Hr Hkey Hst Hdig Hlt Hreq Hans Hnorm Hout Hpolicy. unfold enforce. rewrite execute_bind.
  destruct (execute_decide w action id r Hid Hr Hkey Hst Hdig Hlt risk request answer d0) as (d & w' & Hrun & Hallow & Hrest); [done..|].
  rewrite Hrun, bool_decide_eq_true_2 by done. by exists d, w'.
Qed.
End progress.
