(* ===== verification/TaskMutations.v ===== *)
(** * Task mutations and attachments: kernel/task_mutations.py and kernel/output_observer.py

    The class [TaskMutationBoundary]: planning metadata, moves between projects and the bulk-move
    reservation, each with its own idempotent replay. The class [OutputObservingPlatformKernel]: the attachment
    commands of the base kernel followed by one call of the configured observer with the persisted event. *)

From S2P Require Import Prelude PyValue Errors Freeze Ident Lifecycle Domain Contracts EventStore.
From S2P Require Import Projection Effects CommitSupport KernelLifecycle Planning RunCommands.
From S2P Require Import TaskCommands.

Definition TASK_MANAGEMENT_METADATA_KEY : string := "task_management".
Definition TASK_PLANNING_FIELDS : list string :=
  ["priority"; "due_at"; "deadline_timezone"; "not_before"; "responsibility"; "agent_assignment";
   "labels"; "workspace_id"; "parent_task_id"; "dependencies"; "blocking_reason"; "effort_hint";
   "resource_hints"; "archived"; "hidden"].
Definition MOVE_OPERATION : string := "move_task_project".
Definition MOVE_EVENT : string := "task.project_reassigned".
Definition BULK_SCOPE : string := "task-project-reassignment:bulk".
Definition BULK_OPERATION : string := "move_task_project_bulk".
Definition BULK_EVENT : string := "task.project_bulk_move_reserved".

Definition strings_value (l : list string) : pyval := VSeq SList (map VStr l).

Definition difference (a b : list string) : list string := List.filter (fun x => negb (in_strs x b)) a.

(** [_validate_planning_metadata] *)
Definition validate_planning_metadata (planning_metadata : dict) : res unit :=
  let fields := dict_keys planning_metadata in
  let missing := difference TASK_PLANNING_FIELDS fields in
  let unknown := difference fields TASK_PLANNING_FIELDS in
  require (bool_decide (missing = []) && bool_decide (unknown = []))
    (ContractError INVALID_REQUEST
       "Task planning metadata does not match the owned task_management schema" false
       ((if bool_decide (missing = []) then [] else [("missing_fields", strings_value (sort_strs missing))]) ++
        (if bool_decide (unknown = []) then [] else [("unknown_fields", strings_value (sort_strs unknown))]))).

(** One iteration of [_validate_bulk_moves]. *)
Definition validate_bulk_move (move : dict) : res (string * option string) :=
  let keys := dict_keys move in
  _ ← require (bool_decide (difference keys ["task_id"; "destination_project_id"] = []) &&
               in_strs "task_id" keys && in_strs "destination_project_id" keys)
        (invalid "bulk Project move entries must contain only task_id and destination_project_id");
  task_id ← (match get "task_id" move with
             | VStr s => Ok s
             | _ => Err (invalid "bulk Project move task_id must be a string")
             end);
  _ ← validate_id task_id "task";
  match get "destination_project_id" move with
  | VNone => Ok (task_id, None)
  | VStr destination => _ ← validate_id destination "project"; Ok (task_id, Some destination)
  | _ => Err (invalid "bulk Project move destination_project_id must be a string or null")
  end.

Definition validate_bulk_moves (moves : list dict) : res (list (string * option string)) :=
  _ ← require (match moves with [] => false | _ => true end) (invalid "Task Project move batch is empty");
  map_res validate_bulk_move moves.

Definition bulk_move_value (move : string * option string) : pyval :=
  VMap MDict [("task_id", VStr move.1); ("destination_project_id", optional_value move.2)].

(** [_command_event] *)
Definition command_event (record : CommandRecord) (expected_event_type : string) : prog Event :=
  events ← history (CommandRecord_stream_id record);
  let missing := contract_error BACKEND_ERROR ("canonical command record has no matching " +:+
                   expected_event_type +:+ " event") in
  match List.find (fun item => String.eqb (Event_id item) (CommandRecord_event_id record)) events with
  | None => Raise missing
  | Some e => _ ← guard (String.eqb (Event_event_type e) expected_event_type) missing; Ret e
  end.

(** [_replayed_planning_metadata] *)
Definition replayed_planning_metadata (task_id idempotency_key : string) (metadata : dict) : prog (option TaskState) :=
  record ← task_command task_id idempotency_key "update_task";
  match record with
  | None => Ret None
  | Some record =>
      e ← command_event record "task.updated";
      let keys := dict_keys (Event_payload e) in
      _ ← guard (negb (negb (json_equivalent (get "metadata" (Event_payload e)) (VMap MDict metadata)) ||
                       in_strs "title" keys || in_strs "objective" keys))
            (conflict "Idempotency-Key is already bound to a different Task update");
      task ← get_task task_id;
      Ret (Some task)
  end.

Definition replayed_project_reassignment (task_id : string) (destination_project_id : option string)
    (idempotency_key : string) : prog (option TaskState) :=
  _ ← lift (validate_id task_id "task");
  _ ← lift (validate_optional_id destination_project_id "project");
  record ← task_command task_id idempotency_key MOVE_OPERATION;
  match record with
  | None => Ret None
  | Some record =>
      e ← command_event record MOVE_EVENT;
      _ ← guard (scalar_eqb (get "destination_project_id" (Event_payload e))
                   (optional_value destination_project_id))
            (conflict "Idempotency-Key is already bound to a different Task Project destination");
      task ← get_task task_id;
      Ret (Some task)
  end.

Definition bulk_project_reassignment_reserved (batch_digest idempotency_key : string) : prog bool :=
  _ ← guard (negb (blank batch_digest)) (invalid "bulk move digest must not be blank");
  record ← existing_command BULK_SCOPE idempotency_key BULK_OPERATION;
  match record with
  | None => Ret false
  | Some record =>
      _ ← guard (String.eqb (CommandRecord_result_id record) batch_digest)
            (conflict "Idempotency-Key is already bound to a different Task Project bulk move set");
      e ← command_event record BULK_EVENT;
      _ ← guard (scalar_eqb (get "batch_digest" (Event_payload e)) (VStr batch_digest))
            (contract_error BACKEND_ERROR
               "Task Project bulk idempotency record has no matching reservation event");
      Ret true
  end.

Section mutations.
Context (cfg : KernelConfig).

Definition update_planning_metadata (task_id : string) (planning_metadata : dict) (idempotency_key : string)
    (actor_ref : option string) (source : string) : prog TaskState :=
  _ ← lift (validate_id task_id "task");
  _ ← lift (validate_planning_metadata planning_metadata);
  let metadata := [(TASK_MANAGEMENT_METADATA_KEY, VMap MDict planning_metadata)] in
  duplicate ← replayed_planning_metadata task_id idempotency_key metadata;
  match duplicate with
  | Some task => Ret task
  | None =>
      task ← get_task task_id;
      _ ← commit_task_command cfg task idempotency_key "update_task"
            [task_spec "task.updated" task_id [("metadata", VMap MDict metadata)]] task_id actor_ref source;
      committed ← replayed_planning_metadata task_id idempotency_key metadata;
      match committed with
      | Some task => Ret task
      | None => Raise (contract_error BACKEND_ERROR
                         "Task planning metadata commit produced no canonical command record")
      end
  end.

Definition move_payload (task : TaskState) (source_project_id destination_project_id : option string) : dict :=
  [("source_project_id", optional_value source_project_id);
   ("destination_project_id", optional_value destination_project_id);
   ("historical_scope_policy", VStr "retain_original_event_and_run_scope");
   ("future_execution_scope", optional_value destination_project_id);
   ("retained_history", VMap MDict
      [("plan_ref", optional_value (TaskState_plan_ref task));
       ("step_ids", strings_value (TaskState_step_ids task));
       ("run_ids", strings_value (TaskState_run_ids task));
       ("artifact_ids", strings_value (TaskState_artifact_ids task));
       ("result_ids", strings_value (TaskState_result_ids task))])].

Definition reassign_project (task_id : string) (source_project_id destination_project_id : option string)
    (expected_revision : Z) (idempotency_key : string) (actor_ref : option string) (source : string) : prog TaskState :=
  replayed ← replayed_project_reassignment task_id destination_project_id idempotency_key;
  match replayed with
  | Some task => Ret task
  | None =>
      _ ← lift (validate_optional_id source_project_id "project");
      task ← get_task task_id;
      _ ← guard (TaskState_revision task =? expected_revision)%Z
            (conflict "Task changed after Project reassignment preflight; retry the move");
      _ ← guard (bool_decide (Task_project_id (TaskState_task task) = source_project_id))
            (conflict "Task Project scope changed after reassignment preflight; retry the move");
      _ ← commit_task_command cfg task idempotency_key MOVE_OPERATION
            [task_spec MOVE_EVENT task_id (move_payload task source_project_id destination_project_id)]
            task_id actor_ref source;
      moved ← replayed_project_reassignment task_id destination_project_id idempotency_key;
      let failed := contract_error BACKEND_ERROR
            "canonical Task Project move did not project the requested destination" in
      match moved with
      | None => Raise failed
      | Some moved =>
          _ ← guard (bool_decide (Task_project_id (TaskState_task moved) = destination_project_id)) failed;
          Ret moved
      end
  end.

Definition reserve_bulk_project_reassignment (anchor_task_id batch_digest : string) (moves : list dict)
    (idempotency_key : string) (actor_ref : option string) (source : string) : prog unit :=
  _ ← lift (validate_id anchor_task_id "task");
  normalized ← lift (validate_bulk_moves moves);
  _ ← guard (match normalized with m :: _ => String.eqb m.1 anchor_task_id | [] => false end)
        (invalid "bulk move anchor must match the first canonical move entry");
  reserved ← bulk_project_reassignment_reserved batch_digest idempotency_key;
  if (reserved : bool) then Ret tt
  else
    anchor ← get_task anchor_task_id;
    events ← build_events anchor idempotency_key actor_ref source
      [task_spec BULK_EVENT anchor_task_id
         [("batch_digest", VStr batch_digest); ("moves", VSeq SList (map bulk_move_value normalized));
          ("atomic", VBool false)]];
    first ← first_event events;
    let cmd := command BULK_SCOPE idempotency_key BULK_OPERATION anchor_task_id batch_digest first in
    result ← call (OpCommit anchor_task_id (TaskState_revision anchor) events (Some cmd));
    if CommitResult_applied result then mirror cfg events
    else
      reserved ← bulk_project_reassignment_reserved batch_digest idempotency_key;
      guard reserved (conflict "Task Project bulk reservation lost an idempotency race").
End mutations.

(** ** Observation of attachments *)

(** [configure_output_attachment_observer]: observers are compared by identity, here by a number;
    [satisfies] is the outcome of the protocol check. *)
Definition configure_output_attachment_observer (current : option nat) (observer : nat) (satisfies : bool) : res (option nat) :=
  _ ← require satisfies (TypeError "output attachment observer does not satisfy the observer contract");
  match current with
  | Some c => _ ← require (Nat.eqb c observer) (conflict "output attachment observer is already configured");
              Ok (Some observer)
  | None => Ok (Some observer)
  end.

(** [_canonical_attachment_event], after the history was read. *)
Definition match_attachment (events : list Event) (task_id idempotency_key event_type payload_key output_id : string)
    (run_id : option string) : res Event :=
  let matches := List.filter (fun e => String.eqb (Event_event_type e) event_type &&
                                bool_decide (Event_causation_id e = Some idempotency_key)) events in
  match matches with
  | [e] =>
      _ ← require (scalar_eqb (get payload_key (Event_payload e)) (VStr output_id))
            (ContractError CONFLICT "attachment idempotency key was replayed with a different output" false
               [("task_id", VStr task_id); ("idempotency_key", VStr idempotency_key);
                ("canonical_output_id", get payload_key (Event_payload e));
                ("requested_output_id", VStr output_id)]);
      let expected_subject_type := match run_id with Some _ => "run" | None => "task" end in
      let expected_subject_id := or_else run_id task_id in
      _ ← require (String.eqb (Event_subject_type e) expected_subject_type &&
                   String.eqb (Event_subject_id e) expected_subject_id)
            (ContractError CONFLICT "attachment idempotency key was replayed with a different Run binding" false
               [("task_id", VStr task_id); ("idempotency_key", VStr idempotency_key);
                ("canonical_subject_type", VStr (Event_subject_type e));
                ("canonical_subject_id", VStr (Event_subject_id e));
                ("requested_subject_type", VStr expected_subject_type);
                ("requested_subject_id", VStr expected_subject_id)]);
      Ok e
  | _ =>
      Err (ContractError CONTRACT_VIOLATION
             "canonical attachment command does not resolve to exactly one persisted event" false
             [("task_id", VStr task_id); ("idempotency_key", VStr idempotency_key);
              ("event_type", VStr event_type); ("match_count", VInt (Z.of_nat (length matches)))])
  end.

Definition canonical_attachment_event (task_id idempotency_key event_type payload_key output_id : string)
    (run_id : option string) : prog Event :=
  events ← history task_id;
  lift (match_attachment events task_id idempotency_key event_type payload_key output_id run_id).

Section observer.
Context (cfg : KernelConfig) (observing : bool).

Definition observed_attach_result (idempotency_key task_id result_id : string) (run_id actor_ref : option string)
    (source : string) : prog TaskState :=
  task ← attach_result cfg idempotency_key task_id result_id run_id actor_ref source;
  if negb observing then Ret task
  else
    e ← canonical_attachment_event task_id idempotency_key "result.attached" "result_id" result_id run_id;
    _ ← call (OpObserve e);
    get_task task_id.

Definition observed_attach_artifact (idempotency_key task_id artifact_id : string) (run_id actor_ref : option string)
    (source : string) : prog TaskState :=
  task ← attach_artifact cfg idempotency_key task_id artifact_id run_id actor_ref source;
  if negb observing then Ret task
  else
    e ← canonical_attachment_event task_id idempotency_key "artifact.attached" "artifact_id" artifact_id run_id;
    _ ← call (OpObserve e);
    get_task task_id.
End observer.
