(* ===== verification/Kernel.v ===== *)
(** * The kernel façade: kernel/kernel.py

    [PlatformKernel] delegates every public command to the component that owns it; so does
    [OutputObservingPlatformKernel], with observed attachments. A public call is a value of
    [kernel_call], and [kernel_program] the coroutine that the façade runs for it. *)

From S2P Require Import Prelude PyValue Errors Freeze Ident Lifecycle Domain Contracts EventStore.
From S2P Require Import Projection Effects CommitSupport KernelLifecycle Planning RunCommands.
From S2P Require Import TaskCommands Recovery TaskMutations.

Inductive task_call :=
| CreateTask (key title objective owner_type owner_id : string) (project_id task_id actor_ref : option string)
    (source : string)
| UpdateTask (key task_id : string) (title objective : option string) (metadata : option dict)
    (actor_ref : option string) (source : string)
| ReadyTask (key task_id : string) (actor_ref : option string) (source : string)
| WaitTask (key task_id reason : string) (blocked : bool) (actor_ref : option string) (source : string)
| ResumeTask (key task_id : string) (actor_ref : option string) (source : string)
| CompleteTask (key task_id : string) (actor_ref : option string) (source : string)
| FailTask (key task_id : string) (reason actor_ref : option string) (source : string)
| CancelTask (key task_id : string) (actor_ref : option string) (source : string)
| PlanTask (key task_id : string) (actor_ref : option string) (source : string).

Inductive run_call :=
| CreateRun (key task_id subject_type : string) (subject_id actor_ref : option string) (source : string)
| RetryTask (key task_id : string) (actor_ref : option string) (source : string)
| StartRun (key task_id run_id : string) (actor_ref : option string) (source : string)
| StartTask (key task_id : string) (actor_ref : option string) (source : string)
| RefreshRun (key task_id run_id : string) (actor_ref : option string) (source : string)
| RecordRunOutcome (key task_id run_id : string) (status : RunStatus) (output : option dict)
    (actor_ref : option string) (source : string) (adapter_metadata : list AdapterMetadata)
| CancelRun (key task_id run_id : string) (actor_ref : option string) (source : string)
| AttachArtifact (key task_id artifact_id : string) (run_id actor_ref : option string) (source : string)
| AttachResult (key task_id result_id : string) (run_id actor_ref : option string) (source : string).

Inductive service_call :=
| GetTask (task_id : string)
| GetRun (task_id run_id : string)
| History (task_id : string)
| RecoverTask (task_id : string)
| RecoverAll
| UpdatePlanningMetadata (task_id : string) (planning_metadata : dict) (key : string)
    (actor_ref : option string) (source : string)
| ReplayedProjectReassignment (task_id : string) (destination : option string) (key : string)
| ReassignProject (task_id : string) (source_project destination : option string) (expected_revision : Z)
    (key : string) (actor_ref : option string) (source : string)
| BulkReserved (batch_digest key : string)
| ReserveBulk (anchor_task_id batch_digest : string) (moves : list dict) (key : string)
    (actor_ref : option string) (source : string).

Inductive kernel_call := TaskCall (c : task_call) | RunCall (c : run_call) | ServiceCall (c : service_call).

(** The caller of a command looks at its own result; the world sees the operations. *)
Definition ignore {A} (p : prog A) : prog unit := _ ← p; Ret tt.

Section kernel.
Context (cfg : KernelConfig) (observing : bool).

Definition task_program (c : task_call) : prog unit :=
  match c with
  | CreateTask key title objective owner_type owner_id project_id task_id actor source =>
      ignore (create_task cfg key title objective owner_type owner_id project_id task_id actor source)
  | UpdateTask key task_id title objective metadata actor source =>
      ignore (update_task cfg key task_id title objective metadata actor source)
  | ReadyTask key task_id actor source => ignore (ready_task cfg key task_id actor source)
  | WaitTask key task_id reason blocked actor source =>
      ignore (wait_task cfg key task_id reason blocked actor source)
  | ResumeTask key task_id actor source => ignore (resume_task cfg key task_id actor source)
  | CompleteTask key task_id actor source => ignore (complete_task cfg key task_id actor source)
  | FailTask key task_id reason actor source => ignore (fail_task cfg key task_id reason actor source)
  | CancelTask key task_id actor source => ignore (cancel_task cfg key task_id actor source)
  | PlanTask key task_id actor source => ignore (plan_task cfg key task_id actor source)
  end.

Definition run_program (c : run_call) : prog unit :=
  match c with
  | CreateRun key task_id subject_type subject_id actor source =>
      ignore (create_run cfg key task_id subject_type subject_id actor source)
  | RetryTask key task_id actor source => ignore (retry_task cfg key task_id actor source)
  | StartRun key task_id run_id actor source => ignore (start_run cfg key task_id run_id actor source)
  | StartTask key task_id actor source => ignore (start_task cfg key task_id actor source)
  | RefreshRun key task_id run_id actor source => ignore (refresh_run cfg key task_id run_id actor source)
  | RecordRunOutcome key task_id run_id status output actor source meta =>
      ignore (record_run_outcome cfg key task_id run_id status output actor source meta)
  | CancelRun key task_id run_id actor source => ignore (cancel_run cfg key task_id run_id actor source)
  | AttachArtifact key task_id artifact_id run_id actor source =>
      ignore (observed_attach_artifact cfg observing key task_id artifact_id run_id actor source)
  | AttachResult key task_id result_id run_id actor source =>
      ignore (observed_attach_result cfg observing key task_id result_id run_id actor source)
  end.

Definition service_program (c : service_call) : prog unit :=
  match c with
  | GetTask task_id => ignore (get_task task_id)
  | GetRun task_id run_id => ignore (get_run task_id run_id)
  | History task_id => ignore (history task_id)
  | RecoverTask task_id => ignore (recover_task cfg task_id)
  | RecoverAll => ignore (recover_all cfg)
  | UpdatePlanningMetadata task_id metadata key actor source =>
      ignore (update_planning_metadata cfg task_id metadata key actor source)
  | ReplayedProjectReassignment task_id destination key =>
      ignore (replayed_project_reassignment task_id destination key)
  | ReassignProject task_id src dst revision key actor source =>
      ignore (reassign_project cfg task_id src dst revision key actor source)
  | BulkReserved digest key => ignore (bulk_project_reassignment_reserved digest key)
  | ReserveBulk anchor digest moves key actor source =>
      ignore (reserve_bulk_project_reassignment cfg anchor digest moves key actor source)
  end.

Definition kernel_program (c : kernel_call) : prog unit :=
  match c with
  | TaskCall c => task_program c
  | RunCall c => run_program c
  | ServiceCall c => service_program c
  end.
End kernel.
