(* ===== verification/Machine.v ===== *)
(** * The abstract lifecycle machine

    What a task's stream is allowed to do, stated without events, payloads or commands: a task
    status, a project and the runs created so far, moved by the labelled steps of [astep]. The
    invariants of the machine are proved by induction on its steps; Refinement.v shows that the
    kernel's streams only ever follow it. *)

From S2P Require Import Prelude PyValue Errors Lifecycle RunCommands.

Record arun := Build_arun {
  a_id : string;
  a_kind : string;        (* "task" or "step" *)
  a_subject : string;
  a_attempt : Z;
  a_status : RunStatus
}.

Record astate := Build_astate {
  a_task : option TaskStatus;
  a_project : option string;
  a_runs : list arun
}.
Definition a_init : astate := Build_astate None None [].

Inductive label :=
| LNote                                    (* an event that moves no status *)
| LCreate (project : option string)
| LTask (target : TaskStatus)
| LMove (source destination : option string)
| LRunNew (run : string) (kind subject : string) (attempt : Z)
| LRun (run : string) (target : RunStatus).

Definition a_active (r : arun) : bool := run_active (a_status r).
Definition same_subject (kind subject : string) (r : arun) : bool :=
  String.eqb (a_kind r) kind && String.eqb (a_subject r) subject.
Definition quiet (s : astate) : Prop := Forall (fun r => a_active r = false) (a_runs s).
Definition attempts (kind subject : string) (runs : list arun) : list Z :=
  map a_attempt (List.filter (same_subject kind subject) runs).
Definition latest (l : list Z) : Z := foldl Z.max 0%Z l.

(** Statuses in which nothing may be running. *)
Definition settled (s : TaskStatus) : bool :=
  bool_decide (s ∈ [T_DRAFT; T_SUCCEEDED; T_FAILED; T_CANCELLED]).

Definition set_status (rid : string) (t : RunStatus) (runs : list arun) : list arun :=
  map (fun r => if String.eqb (a_id r) rid
                then Build_arun (a_id r) (a_kind r) (a_subject r) (a_attempt r) t else r) runs.

Section machine.
Context (sid : string).

Inductive astep : astate -> label -> astate -> Prop :=
| astep_note s :
    a_task s <> None -> astep s LNote s
| astep_create p :
    astep a_init (LCreate p) (Build_astate (Some T_DRAFT) p [])
| astep_task s st t :
    a_task s = Some st ->
    t ∈ TASK_TRANSITIONS st \/ (st = T_WAITING /\ t = T_WAITING) ->
    (settled t = true -> quiet s) ->
    astep s (LTask t) (Build_astate (Some t) (a_project s) (a_runs s))
| astep_move s src dst :
    a_task s <> None -> a_project s = src ->
    astep s (LMove src dst) (Build_astate (a_task s) dst (a_runs s))
| astep_run_new s st rid kind subject :
    a_task s = Some st ->
    st ∈ allowed_task_statuses kind ->
    kind = "task" /\ subject = sid \/ kind = "step" ->
    rid ∉ map a_id (a_runs s) ->
    (forall r, r ∈ a_runs s -> a_active r = true -> a_kind r = kind /\ a_subject r <> subject) ->
    astep s (LRunNew rid kind subject (latest (attempts kind subject (a_runs s)) + 1))
      (Build_astate (a_task s) (a_project s)
         (a_runs s ++ [Build_arun rid kind subject (latest (attempts kind subject (a_runs s)) + 1) R_QUEUED]))
| astep_run s r t :
    a_task s <> None ->
    r ∈ a_runs s -> t ∈ RUN_TRANSITIONS (a_status r) ->
    astep s (LRun (a_id r) t) (Build_astate (a_task s) (a_project s) (set_status (a_id r) t (a_runs s))).

Inductive areach : astate -> list label -> astate -> Prop :=
| areach_refl s : areach s [] s
| areach_step s l s' ls s'' : astep s l s' -> areach s' ls s'' -> areach s (l :: ls) s''.

Lemma areach_app s ls s' ls' s'' : areach s ls s' -> areach s' ls' s'' -> areach s (ls ++ ls') s''.
Proof. induction 1; cbn; [done|]. intros. econstructor; eauto. Qed.

Lemma areach_snoc s ls s' l s'' : areach s ls s' -> astep s' l s'' -> areach s (ls ++ [l]) s''.
Proof. intros. eapply areach_app; [done|]. econstructor; [done|constructor]. Qed.

(** ** The invariant *)
Record ainv (s : astate) : Prop := {
  inv_ids : NoDup (map a_id (a_runs s));
  inv_modes r r' : r ∈ a_runs s -> r' ∈ a_runs s -> a_active r = true -> a_active r' = true ->
    a_kind r = a_kind r' /\ (a_subject r = a_subject r' -> r = r');
  inv_task_subject r : r ∈ a_runs s -> a_kind r = "task" /\ a_subject r = sid \/ a_kind r = "step";
  inv_settled : match a_task s with Some st => settled st = true -> quiet s | None => s = a_init end;
  inv_attempts kind subject : attempts kind subject (a_runs s) =
    map Z.of_nat (seq 1 (length (attempts kind subject (a_runs s))))
}.

Lemma latest_seq n : latest (map Z.of_nat (seq 1 n)) = Z.of_nat n.
Proof.
  induction n as [|n IH]; [done|]. rewrite seq_S, map_app. unfold latest in *.
  rewrite foldl_app, IH. cbn. lia.
Qed.

Lemma set_status_elem rid t runs r :
  r ∈ set_status rid t runs -> exists r0, r0 ∈ runs /\ a_id r = a_id r0 /\ a_kind r = a_kind r0 /\
    a_subject r = a_subject r0 /\ a_attempt r = a_attempt r0 /\
    ((a_id r0 <> rid /\ r = r0) \/ (a_id r0 = rid /\ a_status r = t)).
Proof.
  intros Hr. apply list_elem_of_fmap in Hr as (r0 & -> & H). exists r0.
  destruct (String.eqb_spec (a_id r0) rid); cbn; naive_solver.
Qed.

Lemma set_status_ids rid t runs : map a_id (set_status rid t runs) = map a_id runs.
Proof. unfold set_status. rewrite map_map. apply map_ext. intros r. by destruct String.eqb. Qed.

Lemma set_status_attempts rid t runs kind subject :
  attempts kind subject (set_status rid t runs) = attempts kind subject runs.
Proof.
  unfold attempts, set_status. induction runs as [|r runs IH]; cbn; [done|].
  unfold same_subject in *. destruct (String.eqb (a_id r) rid); cbn;
    destruct (_ && _); cbn; by rewrite ?IH.
Qed.

Lemma NoDup_id_inj runs r r' :
  NoDup (map a_id runs) -> r ∈ runs -> r' ∈ runs -> a_id r = a_id r' -> r = r'.
Proof.
  intros Hn [i Hi]%list_elem_of_lookup_1 [j Hj]%list_elem_of_lookup_1 E.
  assert (i = j) as ->; [|naive_solver].
  eapply (NoDup_lookup (map a_id runs)); [done|..].
  - apply list_lookup_fmap_Some. eauto.
  - apply list_lookup_fmap_Some. eauto.
Qed.

Lemma active_before st t : t ∈ RUN_TRANSITIONS st -> run_active st = true.
Proof. destruct st; intros H; table H; done. Qed.

Lemma ainv_init : ainv a_init.
Proof.
  split; cbn; try done; try (intros; exfalso; by eapply not_elem_of_nil).
  constructor.
Qed.

Lemma ainv_task s t : ainv s -> a_task s <> None -> (settled t = true -> quiet s) ->
  ainv (Build_astate (Some t) (a_project s) (a_runs s)).
Proof. intros [] _ Hq. by split. Qed.

Lemma attempts_snoc kind subject runs r :
  attempts kind subject (runs ++ [r]) =
  attempts kind subject runs ++ (if same_subject kind subject r then [a_attempt r] else []).
Proof.
  unfold attempts. rewrite List.filter_app, map_app. cbn. by destruct same_subject.
Qed.

Lemma ainv_run_new s st rid kind subject n :
  ainv s -> a_task s = Some st -> st ∈ allowed_task_statuses kind ->
  kind = "task" /\ subject = sid \/ kind = "step" ->
  rid ∉ map a_id (a_runs s) ->
  (forall r, r ∈ a_runs s -> a_active r = true -> a_kind r = kind /\ a_subject r <> subject) ->
  n = (latest (attempts kind subject (a_runs s)) + 1)%Z ->
  ainv (Build_astate (a_task s) (a_project s) (a_runs s ++ [Build_arun rid kind subject n R_QUEUED])).
Proof.
  intros [Hids Hmodes Hsub Hset Hatt] Hst Hok Hkind Hfresh Hact Hn. split; cbn [a_task a_project a_runs].
  - rewrite map_app. apply NoDup_app. split_and!; [done| |apply NoDup_singleton].
    intros x Hx ->%list_elem_of_singleton. done.
  - intros r r' [H1|H1%list_elem_of_singleton]%elem_of_app [H2|H2%list_elem_of_singleton]%elem_of_app A1 A2.
    + by apply Hmodes.
    + subst r'. cbn. destruct (Hact _ H1 A1) as [-> Hne]. split; [done|]. intros E. by rewrite E in Hne.
    + subst r. cbn. destruct (Hact _ H2 A2) as [-> Hne]. split; [done|]. intros E. by rewrite <- E in Hne.
    + by subst.
  - intros r [H| ->%list_elem_of_singleton]%elem_of_app; [by apply Hsub|]. cbn. naive_solver.
  - rewrite Hst. intros Hs. exfalso. unfold allowed_task_statuses in Hok.
    destruct String.eqb; table Hok; subst st; done.
  - intros k x. rewrite attempts_snoc. unfold same_subject. cbn [a_kind a_subject].
    destruct (String.eqb_spec kind k) as [->|], (String.eqb_spec subject x) as [->|];
      cbn [andb]; rewrite ?app_nil_r; try apply Hatt.
    rewrite length_app, Nat.add_1_r, seq_S, map_app, <- Hatt. cbn [a_attempt].
    rewrite Hn, (Hatt k x), latest_seq. f_equal. cbn. f_equal. rewrite length_map, length_seq. lia.
Qed.

Lemma ainv_run s r t :
  ainv s -> a_task s <> None -> r ∈ a_runs s -> t ∈ RUN_TRANSITIONS (a_status r) ->
  ainv (Build_astate (a_task s) (a_project s) (set_status (a_id r) t (a_runs s))).
Proof.
  intros [Hids Hmodes Hsub Hset Hatt] Hne Hr Ht. pose proof (active_before _ _ Ht) as Hact.
  assert (forall x, x ∈ set_status (a_id r) t (a_runs s) -> a_active x = true ->
    exists y, y ∈ a_runs s /\ a_active y = true /\ a_kind x = a_kind y /\ a_subject x = a_subject y /\
      (a_id x = a_id y)) as Hback.
  { intros x (y & Hy & E1 & E2 & E3 & _ & [[_ ->]|[E ?]])%set_status_elem Hx; [by exists y|].
    exists y. assert (y = r) as -> by by eapply NoDup_id_inj. done. }
  split; cbn [a_task a_project a_runs].
  - by rewrite set_status_ids.
  - intros x x' Hx Hx' Ax Ax'.
    destruct (Hback _ Hx Ax) as (y & Hy & Ay & E1 & E2 & E3), (Hback _ Hx' Ax') as (y' & Hy' & Ay' & F1 & F2 & F3).
    destruct (Hmodes _ _ Hy Hy' Ay Ay') as [Hk Hs]. split; [congruence|]. intros E.
    eapply NoDup_id_inj; [|exact Hx|exact Hx'|]; [by rewrite set_status_ids|].
    rewrite E3, F3. f_equal. apply Hs. congruence.
  - intros x (y & Hy & _ & -> & -> & _)%set_status_elem. by apply Hsub.
  - destruct (a_task s) as [st|]; [|done]. intros Hst.
    specialize (Hset Hst). unfold quiet in Hset. rewrite Forall_forall in Hset.
    specialize (Hset _ Hr). unfold a_active in Hset. congruence.
  - intros k x. rewrite set_status_attempts. apply Hatt.
Qed.

Lemma ainv_step s l s' : ainv s -> astep s l s' -> ainv s'.
Proof.
  intros Hi Hs. destruct Hs.
  - done.
  - split; cbn; try done; try (intros; exfalso; by eapply not_elem_of_nil); intros; constructor.
  - apply ainv_task; [done|congruence|done].
  - destruct Hi. split; cbn; try done. by destruct (a_task s).
  - by eapply ainv_run_new.
  - by apply ainv_run.
Qed.

Lemma ainv_reach s ls s' : ainv s -> areach s ls s' -> ainv s'.
Proof. intros Hi Hr. induction Hr; [done|]. eauto using ainv_step. Qed.

(** A task-level run in flight is the only run in flight. *)
Lemma task_run_alone s r r' :
  ainv s -> r ∈ a_runs s -> r' ∈ a_runs s -> a_active r = true -> a_active r' = true ->
  a_kind r = "task" -> r' = r.
Proof.
  intros Hi Hr Hr' Ha Ha' Hk.
  destruct (inv_modes _ Hi _ _ Hr Hr' Ha Ha') as [E1 E2]. symmetry. apply E2.
  destruct (inv_task_subject _ Hi _ Hr) as [[_ ->]|?], (inv_task_subject _ Hi _ Hr') as [[_ ->]|?]; congruence.
Qed.

(** Run ids, kinds, subjects and attempts are never rewritten, and a terminal run stays as it is. *)
Lemma astep_runs s l s' r : ainv s -> astep s l s' -> r ∈ a_runs s ->
  exists r', r' ∈ a_runs s' /\ a_id r' = a_id r /\ a_kind r' = a_kind r /\ a_subject r' = a_subject r /\
    a_attempt r' = a_attempt r /\ (a_active r = false -> r' = r).
Proof.
  intros Hi Hs. revert Hi. destruct Hs; intros Hi Hr; cbn; try (solve [exists r; split_and!; done]).
  - exists r. split; [|done]. apply elem_of_app. by left.
  - exists (if String.eqb (a_id r) (a_id r0) then Build_arun (a_id r) (a_kind r) (a_subject r) (a_attempt r) t else r).
    split; [by apply (list_elem_of_fmap_2 (fun r => if String.eqb (a_id r) (a_id r0) then Build_arun (a_id r) (a_kind r) (a_subject r) (a_attempt r) t else r))|].
    destruct (String.eqb_spec (a_id r) (a_id r0)) as [E|]; cbn; [|done]. split_and!; try done.
    intros Hq. exfalso. assert (r = r0) as -> by (eapply NoDup_id_inj; [apply Hi|..]; done).
    match goal with H : t ∈ _ |- _ => apply active_before in H end. unfold a_active in Hq. congruence.
Qed.

(** What a run is never changes, and a run that has ended stays as it is. *)
Lemma areach_runs s ls s' r : ainv s -> areach s ls s' -> r ∈ a_runs s ->
  exists r', r' ∈ a_runs s' /\ a_id r' = a_id r /\ a_kind r' = a_kind r /\ a_subject r' = a_subject r /\
    a_attempt r' = a_attempt r /\ (a_active r = false -> r' = r).
Proof.
  intros Hi Hreach. revert r Hi. induction Hreach as [s|s l s1 ls s2 Hstep Hreach IH]; intros r Hi Hr.
  - by exists r.
  - destruct (astep_runs _ _ _ r Hi Hstep Hr) as (r1 & Hr1 & E1 & E2 & E3 & E4 & E5).
    destruct (IH r1 (ainv_step _ _ _ Hi Hstep) Hr1) as (r2 & Hr2 & F1 & F2 & F3 & F4 & F5).
    exists r2. split_and!; [done|congruence..|]. intros Hq. specialize (E5 Hq). subst r1. auto.
Qed.

(** A task that has succeeded or was cancelled stays so. *)
Lemma areach_task_final s ls s' st : areach s ls s' -> a_task s = Some st ->
  st ∈ [T_SUCCEEDED; T_CANCELLED] -> a_task s' = Some st.
Proof.
  intros Hreach Hst Hfin. induction Hreach as [s|s l s1 ls s2 Hstep Hreach IH]; [done|]. apply IH.
  destruct Hstep as [|?|s0 st0 t Hs0 Ht _| | |]; try exact Hst; [discriminate Hst|].
  exfalso. rewrite Hs0 in Hst. injection Hst as ->. table Hfin; subst st;
    (destruct Ht as [Ht|[Ht _]]; [by table Ht|discriminate Ht]).
Qed.
End machine.
