(* ===== verification/Stream.v ===== *)
(** * Streams as traces of the abstract machine

    [sim] ties a stream to a machine state through what every reader sees: the reducers of
    kernel/state.py. [refines] is a stream whose every prefix is tied to the states of one run of
    the machine. The lemmas say which machine step an appended event makes, by event type. *)

From S2P Require Import Prelude PyValue Errors Freeze Ident Lifecycle Domain Contracts EventStore.
From S2P Require Import Projection Effects CommitSupport KernelLifecycle RunCommands Machine.

(** The projected task passes its own constructor and keeps the identity of its stream. *)
Definition task_ok (sid : string) (t : Task) : Prop :=
  Task_post_init t = Ok t /\ Task_id t = sid /\
  OwnerRef_type (Task_owner_ref t) <> "" /\ OwnerRef_id (Task_owner_ref t) <> "".

Definition run_matches (sid : string) (r : arun) (run : Run) : Prop :=
  Run_post_init run = Ok run /\ Run_id run = a_id r /\ Run_correlation_id run = sid /\
  Run_subject_type run = a_kind r /\ Run_subject_id run = a_subject r /\
  Run_attempt run = a_attempt r /\ Run_status run = a_status r.

Record sim (sid : string) (evs : list Event) (s : astate) : Prop := {
  sim_inv : ainv sid s;
  sim_task : match a_task s with
    | None => evs = []
    | Some st => exists a t, reduce_task_acc sid evs = Ok a /\ ta_task a = Some t /\ task_ok sid t /\
        Task_status t = st /\ Task_project_id t = a_project s /\ ta_run_ids a = map a_id (a_runs s)
    end;
  sim_run r : r ∈ a_runs s ->
    exists a run, reduce_run_acc (a_id r) evs = Ok a /\ ra_run a = Some run /\ run_matches sid r run;
  sim_no_run rid : rid ∉ map a_id (a_runs s) ->
    exists a, reduce_run_acc rid evs = Ok a /\ ra_run a = None
}.

Inductive refines (sid : string) : list Event -> astate -> Prop :=
| refines_nil : refines sid [] a_init
| refines_snoc evs s e l s' :
    refines sid evs s -> astep sid s l s' -> sim sid (evs ++ [e]) s' -> refines sid (evs ++ [e]) s'.

Lemma refines_sim sid evs s : refines sid evs s -> sim sid evs s.
Proof.
  intros [|]; [|done]. split; cbn; [apply ainv_init|done|intros r H; by apply not_elem_of_nil in H|].
  intros rid _. by exists run_acc0.
Qed.

Lemma refines_empty sid s : refines sid [] s -> s = a_init.
Proof.
  intros Hs%refines_sim. pose proof (sim_task _ _ _ Hs) as Ht. pose proof (inv_settled _ _ (sim_inv _ _ _ Hs)) as Hi.
  destruct (a_task s) as [st|]; [|done]. destruct Ht as (a & t & [= <-] & Ha & _). done.
Qed.

Lemma refines_reach sid evs s : refines sid evs s -> exists ls, length ls = length evs /\ areach sid a_init ls s.
Proof.
  induction 1 as [|evs s e l s' H (ls & Hl & IH) Hs Hsim]; [exists []; split; [done|constructor]|].
  exists (ls ++ [l]). rewrite !length_app. cbn. split; [lia|]. by eapply areach_snoc.
Qed.

(** Every prefix of a legal stream is a legal stream, and the machine goes on from there. *)
Lemma refines_prefix sid evs1 evs2 s :
  refines sid (evs1 ++ evs2) s -> exists s1 ls, refines sid evs1 s1 /\ areach sid s1 ls s.
Proof.
  remember (evs1 ++ evs2) as evs eqn:E. intros H. revert evs2 E.
  induction H as [|evs s e l s' H IH Hs Hsim]; intros evs2 E.
  - symmetry in E. apply app_eq_nil in E as [-> ->]. exists a_init, []. split; constructor.
  - destruct evs2 as [|x evs2 _] using rev_ind.
    + rewrite app_nil_r in E. subst evs1. exists s', []. split; [by econstructor|constructor].
    + rewrite app_assoc in E. apply app_inj_tail in E as [-> ->].
      destruct (IH evs2 eq_refl) as (s1 & ls & ? & ?). exists s1, (ls ++ [l]).
      split; [done|]. by eapply areach_snoc.
Qed.

(** ** What an event does to the two accumulators *)

Definition task_note (sid : string) (e : Event) : Prop :=
  forall a t, ta_task a = Some t -> task_ok sid t ->
  exists a' t', reduce_task_step sid a e = Ok a' /\ ta_task a' = Some t' /\ task_ok sid t' /\
    Task_status t' = Task_status t /\ Task_project_id t' = Task_project_id t /\ ta_run_ids a' = ta_run_ids a.

Definition run_note (rid : string) (e : Event) : Prop :=
  forall a, exists a', reduce_run_step rid a e = Ok a' /\ ra_run a' = ra_run a.

Lemma reduce_task_snoc sid evs e :
  reduce_task_acc sid (evs ++ [e]) = (a ← reduce_task_acc sid evs; reduce_task_step sid a e).
Proof. apply fold_res_snoc. Qed.
Lemma reduce_run_snoc rid evs e :
  reduce_run_acc rid (evs ++ [e]) = (a ← reduce_run_acc rid evs; reduce_run_step rid a e).
Proof. apply fold_res_snoc. Qed.

Section extend.
Context (sid : string) (evs : list Event) (s : astate) (e : Event).
Context (Hsim : sim sid evs s).

Lemma extend_run_note rid : run_note rid e ->
  (forall r, r ∈ a_runs s -> a_id r = rid ->
     exists a run, reduce_run_acc rid (evs ++ [e]) = Ok a /\ ra_run a = Some run /\ run_matches sid r run) /\
  (rid ∉ map a_id (a_runs s) ->
     exists a, reduce_run_acc rid (evs ++ [e]) = Ok a /\ ra_run a = None).
Proof.
  intros Hn. split.
  - intros r Hr <-. destruct (sim_run _ _ _ Hsim r Hr) as (a & run & Ha & Hrun & Hm).
    rewrite reduce_run_snoc, Ha. cbn. destruct (Hn a) as (a' & -> & E). exists a', run. by rewrite E.
  - intros Hr. destruct (sim_no_run _ _ _ Hsim rid Hr) as (a & Ha & Hrun).
    rewrite reduce_run_snoc, Ha. cbn. destruct (Hn a) as (a' & -> & E). exists a'. by rewrite E.
Qed.

Lemma extend_task_note : task_note sid e -> a_task s <> None ->
  exists a t, reduce_task_acc sid (evs ++ [e]) = Ok a /\ ta_task a = Some t /\ task_ok sid t /\
    Some (Task_status t) = a_task s /\ Task_project_id t = a_project s /\ ta_run_ids a = map a_id (a_runs s).
Proof.
  intros Hn Hne. pose proof (sim_task _ _ _ Hsim) as Ht. destruct (a_task s) as [st|]; [|done].
  destruct Ht as (a & t & Ha & Hat & Hok & <- & <- & <-).
  rewrite reduce_task_snoc, Ha. cbn. destruct (Hn a t Hat Hok) as (a' & t' & -> & ? & ? & ? & ? & ?).
  exists a', t'. split_and!; try done. by f_equal.
Qed.

Lemma sim_note : task_note sid e -> (forall rid, run_note rid e) -> a_task s <> None ->
  sim sid (evs ++ [e]) s.
Proof.
  intros Ht Hr Hne. destruct (extend_task_note Ht Hne) as (a & t & ? & ? & ? & E & ?).
  split.
  - apply Hsim.
  - rewrite <- E. by exists a, t.
  - intros r Hin. by apply (extend_run_note (a_id r)).
  - intros rid Hn. by apply (extend_run_note rid).
Qed.

(** An event that moves the task and is a note to every run. *)
Lemma sim_task_event s' :
  ainv sid s' -> a_runs s' = a_runs s -> a_task s <> None ->
  (forall rid, run_note rid e) ->
  (forall a t, ta_task a = Some t -> task_ok sid t -> Some (Task_status t) = a_task s ->
     Task_project_id t = a_project s ->
     exists a' t', reduce_task_step sid a e = Ok a' /\ ta_task a' = Some t' /\ task_ok sid t' /\
       a_task s' = Some (Task_status t') /\ Task_project_id t' = a_project s' /\ ta_run_ids a' = ta_run_ids a) ->
  sim sid (evs ++ [e]) s'.
Proof.
  intros Hi Hruns Hne Hr Ht. pose proof (sim_task _ _ _ Hsim) as Htask.
  destruct (a_task s) as [st|] eqn:Est; [|done].
  destruct Htask as (a & t & Ha & Hat & Hok & <- & Hp & Hids).
  destruct (Ht a t Hat Hok eq_refl Hp) as (a' & t' & Ha' & Hat' & Hok' & Est' & Hp' & Hids').
  split; [done| | |]; rewrite ?Hruns.
  - rewrite Est'. exists a', t'. rewrite reduce_task_snoc, Ha. cbn. rewrite Ha'. split_and!; congruence || done.
  - intros r Hin. by apply (extend_run_note (a_id r)).
  - intros rid Hn. by apply (extend_run_note rid).
Qed.

(** An event that moves one run and is a note to the task and to the other runs. *)
Lemma sim_run_event r t :
  a_task s <> None -> r ∈ a_runs s -> t ∈ RUN_TRANSITIONS (a_status r) ->
  task_note sid e -> (forall rid, rid <> a_id r -> run_note rid e) ->
  (forall a run, ra_run a = Some run -> Run_post_init run = Ok run -> Run_status run = a_status r ->
     exists a' run', reduce_run_step (a_id r) a e = Ok a' /\ ra_run a' = Some run' /\
       Run_post_init run' = Ok run' /\ Run_id run' = Run_id run /\
       Run_correlation_id run' = Run_correlation_id run /\ Run_subject_type run' = Run_subject_type run /\
       Run_subject_id run' = Run_subject_id run /\ Run_attempt run' = Run_attempt run /\ Run_status run' = t) ->
  sim sid (evs ++ [e]) (Build_astate (a_task s) (a_project s) (set_status (a_id r) t (a_runs s))).
Proof.
  intros Hne Hr Ht Htn Hrn Hmove. destruct (extend_task_note Htn Hne) as (a & tk & ? & ? & ? & E & ? & ?).
  split; cbn [a_task a_project a_runs].
  - apply ainv_run; auto. apply Hsim.
  - rewrite <- E. exists a, tk. rewrite set_status_ids. done.
  - intros x Hx. destruct (set_status_elem _ _ _ _ Hx) as (y & Hy & E1 & E2 & E3 & E4 & [[Hd ->]|[Hd E5]]).
    + apply (extend_run_note (a_id y)); auto.
    + assert (y = r) as -> by (eapply NoDup_id_inj; [apply Hsim|..]; done).
      destruct (sim_run _ _ _ Hsim r Hr) as (ra & run & Hra & Hrun & Hm).
      destruct Hm as (Hpi & M1 & M2 & M3 & M4 & M5 & M6).
      destruct (Hmove ra run Hrun Hpi M6) as (ra' & run' & Hra' & Hrun' & Hp' & ? & ? & ? & ? & ? & ?).
      exists ra', run'. rewrite E1, reduce_run_snoc, Hra. cbn. split_and!; try done.
      unfold run_matches. rewrite E1, E2, E3, E4, E5. split_and!; congruence.
  - intros rid. rewrite set_status_ids. intros Hn. apply (extend_run_note rid); [|done]. apply Hrn.
    intros ->. apply Hn. apply list_elem_of_fmap. by exists r.
Qed.
End extend.

(** ** Notes *)

Definition TASK_EVENTS : list string :=
  ["task.created"; "task.updated"; "task.project_reassigned"] ++ map fst TASK_EVENT_STATUS ++
  ["plan.created"; "run.created"; "artifact.attached"; "result.attached"].
Definition RUN_EVENTS : list string :=
  ["run.created"; "run.dispatch_attempted"; "run.recovery_required"; "run.recovery_cleared"] ++
  map fst RUN_EVENT_STATUS ++ ["artifact.attached"; "result.attached"].

(** Simplify the tests on an event type that is known not to be in a list. *)
Ltac not_in_list H :=
  unfold in_strs in H; cbn [TASK_EVENTS RUN_EVENTS TASK_EVENT_STATUS RUN_EVENT_STATUS map fst app existsb] in H;
  repeat (apply orb_false_iff in H; let E := fresh in destruct H as [E H]; rewrite ?E; cbn [andb]).

Lemma task_note_type sid e :
  Event_correlation_id e = sid -> in_strs (Event_event_type e) TASK_EVENTS = false -> task_note sid e.
Proof.
  intros Hc Hty a t Ha Hok. exists a, t. unfold reduce_task_step. rewrite Hc, String.eqb_refl, Ha.
  unfold task_attachments. cbn [negb dict_get TASK_EVENT_STATUS]. not_in_list Hty. done.
Qed.

Lemma run_note_type rid e : in_strs (Event_event_type e) RUN_EVENTS = false -> run_note rid e.
Proof.
  intros Hty a. exists a. unfold reduce_run_step. cbn [dict_get RUN_EVENT_STATUS]. not_in_list Hty.
  destruct (_ || _); [done|]. by destruct (ra_run a).
Qed.

Lemma run_note_subject_type rid e : Event_subject_type e <> "run" -> run_note rid e.
Proof.
  intros Hty a. exists a. unfold reduce_run_step. apply String.eqb_neq in Hty. by rewrite Hty.
Qed.

Lemma run_note_subject_id rid e : Event_subject_id e <> rid -> run_note rid e.
Proof.
  intros Hid a. exists a. unfold reduce_run_step. apply String.eqb_neq in Hid. by rewrite Hid, orb_true_r.
Qed.

(** ** Events as the kernel builds them

    What [build_event] guarantees of an event, given its specification. *)
Definition RESERVED : list string :=
  ["actor_ref"; "source"; "canonical_payload_version"; "stream_revision"; "adapter_metadata"].

Record shaped (sid : string) (project : option string) (spec : EventSpec) (e : Event) : Prop := {
  sh_type : Event_event_type e = spec_event_type spec;
  sh_subject_type : Event_subject_type e = spec_subject_type spec;
  sh_subject_id : Event_subject_id e = spec_subject_id spec;
  sh_correlation : Event_correlation_id e = sid;
  sh_project : Event_project_id e = project;
  sh_project_ok : validate_optional_id project "project" = Ok tt;
  sh_subject_ok : validate_subject_id (spec_subject_type spec) (spec_subject_id spec) = Ok (spec_subject_id spec);
  sh_payload k : in_strs k RESERVED = false ->
    match dict_get k (spec_payload spec) with
    | Some v => exists v', deep_freeze v = Ok v' /\ dict_get k (Event_payload e) = Some v'
    | None => dict_get k (Event_payload e) = None
    end;
  sh_frozen : frozen_dict (Event_payload e) = true
}.

Section shaped_payload.
Context {sid project spec e} (Hsh : shaped sid project spec e).

Lemma shaped_str k s : in_strs k RESERVED = false ->
  dict_get k (spec_payload spec) = Some (VStr s) -> dict_get k (Event_payload e) = Some (VStr s).
Proof. intros Hk Hg. pose proof (sh_payload _ _ _ _ Hsh k Hk) as H. rewrite Hg in H. by destruct H as (v' & [= <-] & H). Qed.

Lemma shaped_int k z : in_strs k RESERVED = false ->
  dict_get k (spec_payload spec) = Some (VInt z) -> dict_get k (Event_payload e) = Some (VInt z).
Proof. intros Hk Hg. pose proof (sh_payload _ _ _ _ Hsh k Hk) as H. rewrite Hg in H. by destruct H as (v' & [= <-] & H). Qed.

Lemma shaped_none k : in_strs k RESERVED = false ->
  dict_get k (spec_payload spec) = None -> dict_get k (Event_payload e) = None.
Proof. intros Hk Hg. pose proof (sh_payload _ _ _ _ Hsh k Hk) as H. by rewrite Hg in H. Qed.

Lemma shaped_optional k o : in_strs k RESERVED = false ->
  dict_get k (spec_payload spec) = Some o \/ (o = VNone /\ dict_get k (spec_payload spec) = None) ->
  (exists s, o = VStr s) \/ o = VNone -> get k (Event_payload e) = o.
Proof.
  intros Hk Hg Ho. pose proof (sh_payload _ _ _ _ Hsh k Hk) as H. unfold get.
  destruct Hg as [Hg|[-> Hg]]; rewrite Hg in H; [|by rewrite H].
  destruct H as (v' & Hv & ->). cbn. destruct Ho as [[s ->]| ->]; by injection Hv as <-.
Qed.

Lemma shaped_string_field k s : in_strs k RESERVED = false ->
  dict_get k (spec_payload spec) = Some (VStr s) -> s <> "" -> string_field e k = Ok s.
Proof.
  intros Hk Hg Hs. unfold string_field, get. rewrite (shaped_str k s Hk Hg). cbn.
  apply String.eqb_neq in Hs. by rewrite Hs.
Qed.

Lemma shaped_optional_string k : in_strs k RESERVED = false ->
  (exists s, dict_get k (spec_payload spec) = Some (VStr s)) \/ dict_get k (spec_payload spec) = None ->
  exists o, optional_string e k = Ok o.
Proof.
  intros Hk Hg. unfold optional_string, get.
  destruct Hg as [[s Hg]|Hg]; [rewrite (shaped_str k s Hk Hg)|rewrite (shaped_none k Hk Hg)]; eauto.
Qed.
End shaped_payload.

Lemma task_metadata_frozen t : Task_post_init t = Ok t -> frozen_dict (Task_metadata t) = true.
Proof.
  rewrite Task_post_init_ok. intros (_ & _ & _ & m & Hm & E). apply freeze_entries_frozen in Hm.
  rewrite E. by destruct t.
Qed.

Lemma task_project_valid t : Task_post_init t = Ok t -> validate_optional_id (Task_project_id t) "project" = Ok tt.
Proof. rewrite Task_post_init_ok. tauto. Qed.

Lemma deep_freeze_map k m v : deep_freeze (VMap k m) = Ok v -> exists m', v = VMap MProxy m' /\ frozen_dict m' = true.
Proof.
  change (deep_freeze (VMap k m)) with (d ← freeze_entries m; Ok (VMap MProxy d)).
  intros H. res_inv. eauto using freeze_entries_frozen.
Qed.

Lemma updated_task_fields title objective m e t :
  let t' := updated_task title objective m e t in
  Task_id t' = Task_id t /\ Task_goal_id t' = Task_goal_id t /\ Task_project_id t' = Task_project_id t /\
  Task_status t' = Task_status t /\ Task_owner_ref t' = Task_owner_ref t /\ Task_metadata t' = m.
Proof. by destruct t. Qed.

Lemma updated_task_ok sid title objective m e t :
  task_ok sid t -> frozen_dict m = true -> task_ok sid (updated_task title objective m e t).
Proof.
  intros (Hpi & Hid & Ho1 & Ho2) Hm.
  destruct (updated_task_fields title objective m e t) as (E1 & E2 & E3 & _ & E5 & E6).
  revert E1 E2 E3 E5 E6. generalize (updated_task title objective m e t). intros t' E1 E2 E3 E5 E6.
  unfold task_ok. rewrite E1, E5. split_and!; try done.
  apply (Task_replace_ok t); [done..| |by rewrite E6]. rewrite E3. by apply task_project_valid.
Qed.

Lemma updated_metadata_ok e t :
  Task_post_init t = Ok t ->
  get "metadata" (Event_payload e) = VNone \/
    (exists m, get "metadata" (Event_payload e) = VMap MProxy m /\ frozen_dict m = true) ->
  exists m, updated_metadata e t = Ok m /\ frozen_dict m = true.
Proof.
  intros Hpi Hmeta. pose proof (task_metadata_frozen t Hpi) as Hft. unfold updated_metadata.
  destruct Hmeta as [->|(p & -> & Hp)]; eauto using frozen_dict_update.
Qed.

Lemma task_updated_eq e t a title objective m t' :
  default (VStr (Task_title t)) (dict_get "title" (Event_payload e)) = VStr title ->
  default (VStr (Task_description t)) (dict_get "objective" (Event_payload e)) = VStr objective ->
  updated_metadata e t = Ok m -> Task_post_init (updated_task title objective m e t) = Ok t' ->
  task_updated e t a = Ok (ta_set_task t' a).
Proof. intros H1 H2 H3 H4. unfold task_updated. rewrite H1, H2, H3. unfold mbind, result_bind. by rewrite H4. Qed.

Lemma task_updated_ok sid e t a title objective :
  task_ok sid t ->
  default (VStr (Task_title t)) (dict_get "title" (Event_payload e)) = VStr title ->
  default (VStr (Task_description t)) (dict_get "objective" (Event_payload e)) = VStr objective ->
  get "metadata" (Event_payload e) = VNone \/
    (exists m, get "metadata" (Event_payload e) = VMap MProxy m /\ frozen_dict m = true) ->
  exists t', task_updated e t a = Ok (ta_set_task t' a) /\ task_ok sid t' /\
    Task_status t' = Task_status t /\ Task_project_id t' = Task_project_id t.
Proof.
  intros Hok Htitle Hobj Hmeta.
  destruct (updated_metadata_ok e t (proj1 Hok) Hmeta) as (m & Hm & Hfrozen).
  destruct (updated_task_fields title objective m e t) as (_ & _ & E3 & E4 & _).
  pose proof (updated_task_ok sid title objective m e t Hok Hfrozen) as Hok'.
  exists (updated_task title objective m e t). split; [|split; [exact Hok'|split; [exact E4|exact E3]]].
  exact (task_updated_eq e t a title objective m _ Htitle Hobj Hm (proj1 Hok')).
Qed.

Definition is_note (sid : string) (e : Event) : Prop := task_note sid e /\ forall rid, run_note rid e.

(** Unfold one reducer step on an event of a known type. *)
Ltac task_step Hsh :=
  unfold reduce_task_step; rewrite (sh_correlation _ _ _ _ Hsh), (sh_type _ _ _ _ Hsh), (sh_subject_id _ _ _ _ Hsh), String.eqb_refl;
  cbn [negb spec_event_type spec_subject_id task_spec run_spec].
Ltac run_step Hsh :=
  unfold reduce_run_step; rewrite (sh_subject_type _ _ _ _ Hsh), (sh_subject_id _ _ _ _ Hsh), (sh_type _ _ _ _ Hsh);
  cbn [spec_event_type spec_subject_id spec_subject_type task_spec run_spec].

Section notes.
Context {sid project spec e} (Hsh : shaped sid project spec e).

Lemma note_other :
  in_strs (spec_event_type spec) TASK_EVENTS = false ->
  spec_subject_type spec <> "run" \/ in_strs (spec_event_type spec) RUN_EVENTS = false -> is_note sid e.
Proof.
  intros Ht Hr. split.
  - apply task_note_type; [apply Hsh|]. by rewrite (sh_type _ _ _ _ Hsh).
  - intros rid. destruct Hr as [Hr|Hr].
    + apply run_note_subject_type. by rewrite (sh_subject_type _ _ _ _ Hsh).
    + apply run_note_type. by rewrite (sh_type _ _ _ _ Hsh).
Qed.

(** A run event outside the lifecycle, for any run. *)
Lemma note_run_marker :
  spec_event_type spec = "run.dispatch_attempted" \/ spec_event_type spec = "run.recovery_cleared" \/
  (spec_event_type spec = "run.recovery_required" /\
   exists s, dict_get "reason" (spec_payload spec) = Some (VStr s)) -> is_note sid e.
Proof.
  intros Hty. split.
  - apply task_note_type; [apply Hsh|]. rewrite (sh_type _ _ _ _ Hsh).
    by destruct Hty as [->|[->|[-> _]]].
  - intros rid a. unfold reduce_run_step. rewrite (sh_type _ _ _ _ Hsh).
    destruct (_ || _); [by exists a|].
    destruct Hty as [->|[->|[-> Hs]]]; cbn; destruct (ra_run a) eqn:E; try (eexists; split; [done|]; by rewrite <- ?E).
    destruct (shaped_optional_string Hsh "reason") as [o Ho]; [done|by left|].
    rewrite Ho. eexists. split; [done|]. done.
Qed.

Lemma note_attachment :
  (spec_event_type spec = "artifact.attached" /\
     exists s, dict_get "artifact_id" (spec_payload spec) = Some (VStr s) /\ s <> "") \/
  (spec_event_type spec = "result.attached" /\
     exists s, dict_get "result_id" (spec_payload spec) = Some (VStr s) /\ s <> "") -> is_note sid e.
Proof.
  intros Hty. split.
  - intros a t Ha Hok. unfold reduce_task_step, task_attachments.
    rewrite (sh_correlation _ _ _ _ Hsh), String.eqb_refl, (sh_type _ _ _ _ Hsh), Ha.
    destruct Hty as [[-> (x & Hx & Hne)]|[-> (x & Hx & Hne)]]; cbn;
      (rewrite (shaped_string_field Hsh "artifact_id" x eq_refl Hx Hne) ||
       rewrite (shaped_string_field Hsh "result_id" x eq_refl Hx Hne)); cbn;
      destruct (_ || _); eexists _, t; split_and!; done.
  - intros rid a. unfold reduce_run_step. rewrite (sh_type _ _ _ _ Hsh).
    destruct (_ || _); [by exists a|].
    destruct Hty as [[-> (x & Hx & Hne)]|[-> (x & Hx & Hne)]]; cbn; destruct (ra_run a) eqn:E; try by exists a.
    all: (rewrite (shaped_string_field Hsh "artifact_id" x eq_refl Hx Hne) ||
          rewrite (shaped_string_field Hsh "result_id" x eq_refl Hx Hne)); cbn; eexists; split; [done|]; by rewrite <- E.
Qed.

(** [task.updated] with a title and an objective that are strings if present, and metadata that is a
    mapping if present. *)
Lemma note_updated :
  spec_event_type spec = "task.updated" -> spec_subject_type spec = "task" -> spec_subject_id spec = sid ->
  (dict_get "title" (spec_payload spec) = None \/ exists s, dict_get "title" (spec_payload spec) = Some (VStr s)) ->
  (dict_get "objective" (spec_payload spec) = None \/ exists s, dict_get "objective" (spec_payload spec) = Some (VStr s)) ->
  (dict_get "metadata" (spec_payload spec) = None \/
   exists k m, dict_get "metadata" (spec_payload spec) = Some (VMap k m)) -> is_note sid e.
Proof.
  intros Hty Hst Hid Htitle Hobj Hmeta. split; [|intros rid; apply run_note_subject_type; by rewrite (sh_subject_type _ _ _ _ Hsh), Hst].
  intros a t Ha Hok. unfold reduce_task_step.
  rewrite (sh_correlation _ _ _ _ Hsh), (sh_type _ _ _ _ Hsh), (sh_subject_id _ _ _ _ Hsh), Hty, Hid, String.eqb_refl, Ha.
  cbn [negb andb String.eqb Ascii.eqb Bool.eqb].
  assert (exists x, default (VStr (Task_title t)) (dict_get "title" (Event_payload e)) = VStr x) as [x Hx].
  { destruct Htitle as [H|[y H]]; [rewrite (shaped_none Hsh "title" eq_refl H)|rewrite (shaped_str Hsh "title" _ eq_refl H)]; eauto. }
  assert (exists x, default (VStr (Task_description t)) (dict_get "objective" (Event_payload e)) = VStr x) as [y Hy].
  { destruct Hobj as [H|[z H]]; [rewrite (shaped_none Hsh "objective" eq_refl H)|rewrite (shaped_str Hsh "objective" _ eq_refl H)]; eauto. }
  destruct (task_updated_ok sid e t a x y Hok Hx Hy) as (t' & E & Hok' & Est & Ep).
  { destruct Hmeta as [H|(k & m & H)]; [left|right].
    - unfold get. by rewrite (shaped_none Hsh "metadata" eq_refl H).
    - pose proof (sh_payload _ _ _ _ Hsh "metadata" eq_refl) as Hp. rewrite H in Hp.
      destruct Hp as (v' & Hv & Hg). unfold get. rewrite Hg.
      apply deep_freeze_map in Hv as (m' & -> & Hf). by exists m'. }
  rewrite E. exists (ta_set_task t' a), t'. by split_and!.
Qed.
End notes.

Lemma deep_freeze_strs k l : deep_freeze (VSeq k (map VStr l)) = Ok (VSeq STuple (map VStr l)).
Proof.
  change (deep_freeze (VSeq k (map VStr l))) with (l' ← map_res deep_freeze (map VStr l); Ok (VSeq STuple l')).
  assert (map_res deep_freeze (map VStr l) = Ok (map VStr l)) as ->; [|done].
  apply map_res_ok. induction l; constructor; done.
Qed.

Lemma note_plan sid project spec e plan_ref ids :
  shaped sid project spec e ->
  spec_event_type spec = "plan.created" -> spec_subject_type spec = "task" -> spec_subject_id spec = sid ->
  dict_get "plan_ref" (spec_payload spec) = Some (VStr plan_ref) -> plan_ref <> "" ->
  dict_get "step_refs" (spec_payload spec) = Some (VSeq SList (map VStr ids)) ->
  Forall (fun i => validate_id i "step" = Ok i) ids -> is_note sid e.
Proof.
  intros Hsh Hty Hst Hid Hplan Hne Hsteps Hids.
  split; [|intros rid; apply run_note_subject_type; by rewrite (sh_subject_type _ _ _ _ Hsh), Hst].
  intros a t Ha Hok. unfold reduce_task_step.
  rewrite (sh_correlation _ _ _ _ Hsh), (sh_type _ _ _ _ Hsh), (sh_subject_id _ _ _ _ Hsh), Hty, Hid, String.eqb_refl, Ha.
  cbn. unfold plan_created. rewrite (shaped_string_field Hsh "plan_ref" plan_ref eq_refl Hplan Hne). cbn [mbind result_bind].
  pose proof (sh_payload _ _ _ _ Hsh "step_refs" eq_refl) as Hp. rewrite Hsteps in Hp.
  destruct Hp as (v & Hv & Hg). rewrite deep_freeze_strs in Hv. injection Hv as <-.
  rewrite Hg. cbn [default from_option id]. match goal with |- context [map_res ?f _] => set (g := f) end.
  assert (map_res g (map VStr ids) = Ok ids) as ->.
  { apply map_res_ok. clear Hsteps Hg. induction Hids as [|i ids Hi Hids IH]; cbn [map]; [constructor|].
    constructor; [|exact IH]. unfold g. by rewrite Hi. }
  cbn. exists (ta_set_plan plan_ref ids a), t. by split_and!.
Qed.

(** ** Task transitions *)

Definition moved_task (target : TaskStatus) (e : Event) (t : Task) : Task :=
  Task_set_status target (Task_set_updated_at (Event_occurred_at e)
    (Task_set_causation_id (Event_causation_id e) (Task_set_provenance (Some (event_provenance e)) t))).

Lemma transition_task_ok t target e sid :
  task_ok sid t -> target ∈ TASK_TRANSITIONS (Task_status t) \/ target = Task_status t ->
  exists t', transition_task t target e = Ok t' /\ task_ok sid t' /\ Task_status t' = target /\
    Task_project_id t' = Task_project_id t.
Proof.
  intros (Hpi & Hid & Ho) Ht. unfold transition_task. case_bool_decide as E; [by exists t|].
  destruct Ht as [Ht|Ht]; [|congruence].
  apply (require_transition_ok _ _ _ tt) in Ht. rewrite Ht. cbn [value_error_as mbind result_bind].
  exists (moved_task target e t).
  assert (Task_post_init (moved_task target e t) = Ok (moved_task target e t)) as H.
  { apply (Task_replace_ok t); [exact Hpi|reflexivity..|exact (task_project_valid t Hpi)|].
    exact (task_metadata_frozen t Hpi). }
  split; [exact H|]. by split_and!.
Qed.

(** The specifications that move a task to [target]. *)
Definition moves_task (sid : string) (target : TaskStatus) (spec : EventSpec) : Prop :=
  dict_get (spec_event_type spec) TASK_EVENT_STATUS = Some target /\
  spec_subject_type spec = "task" /\ spec_subject_id spec = sid /\
  ((exists r, dict_get "reason" (spec_payload spec) = Some (VStr r)) \/
   dict_get "reason" (spec_payload spec) = None).

Lemma task_status_type etype target :
  dict_get etype TASK_EVENT_STATUS = Some target ->
  String.eqb etype "task.created" = false /\ String.eqb etype "task.updated" = false /\
  String.eqb etype "task.project_reassigned" = false.
Proof.
  intros H. apply dict_get_in in H.
  cbn [TASK_EVENT_STATUS] in H.
  repeat (apply elem_of_cons in H as [[= -> ->]|H]; [done|]). by apply elem_of_nil in H.
Qed.

Lemma task_event_moves sid project spec e a t target :
  shaped sid project spec e -> moves_task sid target spec ->
  ta_task a = Some t -> task_ok sid t ->
  target ∈ TASK_TRANSITIONS (Task_status t) \/ target = Task_status t ->
  exists a' t', reduce_task_step sid a e = Ok a' /\ ta_task a' = Some t' /\ task_ok sid t' /\
    Task_status t' = target /\ Task_project_id t' = Task_project_id t /\ ta_run_ids a' = ta_run_ids a.
Proof.
  intros Hsh (Hty & Hst & Hid & Hreason) Ha Hok Ht. unfold reduce_task_step.
  rewrite (sh_correlation _ _ _ _ Hsh), (sh_type _ _ _ _ Hsh), (sh_subject_id _ _ _ _ Hsh), Hid, String.eqb_refl, Ha, Hty.
  destruct (task_status_type _ _ Hty) as (-> & -> & ->). cbn [negb andb].
  destruct (transition_task_ok t target e sid Hok Ht) as (t' & E & Hok' & Hst' & Hp').
  unfold task_transitioned. rewrite E. cbn [mbind result_bind].
  destruct (shaped_optional_string Hsh "reason" eq_refl) as [o Ho]; [by destruct Hreason; [left|right]|].
  case_bool_decide; [rewrite Ho|]; cbn; eexists _, t'; split_and!; done.
Qed.

Section steps.
Context {sid : string} {evs : list Event} {s : astate} {project : option string} {spec : EventSpec} {e : Event}.
Context (Hsim : sim sid evs s) (Hsh : shaped sid project spec e).

Lemma task_subject_note rid : spec_subject_type spec = "task" -> run_note rid e.
Proof. intros H. apply run_note_subject_type. by rewrite (sh_subject_type _ _ _ _ Hsh), H. Qed.

Lemma step_note : is_note sid e -> a_task s <> None -> astep sid s LNote s /\ sim sid (evs ++ [e]) s.
Proof. intros [Ht Hr] Hne. split; [by constructor|]. by apply sim_note. Qed.

Lemma step_task st target :
  moves_task sid target spec -> a_task s = Some st ->
  target ∈ TASK_TRANSITIONS st \/ (st = T_WAITING /\ target = T_WAITING) ->
  (settled target = true -> quiet s) ->
  let s' := Build_astate (Some target) (a_project s) (a_runs s) in
  astep sid s (LTask target) s' /\ sim sid (evs ++ [e]) s'.
Proof.
  intros Hm Hst Ht Hq s'. assert (astep sid s (LTask target) s') as Hstep by by eapply astep_task.
  split; [done|]. eapply sim_task_event; try done.
  - eapply ainv_step; [apply Hsim|done].
  - congruence.
  - intros rid. apply task_subject_note. apply Hm.
  - intros a t Ha Hok Es Hp.
    destruct (task_event_moves _ _ _ _ a t target Hsh Hm Ha Hok) as (a' & t' & ? & ? & ? & E1 & E2 & ?).
    { rewrite Hst in Es. injection Es as ->. naive_solver. }
    exists a', t'. split_and!; try done; cbn; congruence.
Qed.
End steps.

(** ** Project moves, creation *)

Lemma optional_frozen o : deep_freeze (optional_value o) = Ok (optional_value o).
Proof. by destruct o. Qed.

Lemma shaped_optional_value sid project spec e k o :
  shaped sid project spec e -> in_strs k RESERVED = false ->
  dict_get k (spec_payload spec) = Some (optional_value o) -> optional_string e k = Ok o.
Proof.
  intros Hsh Hk Hg. pose proof (sh_payload _ _ _ _ Hsh k Hk) as H. rewrite Hg, optional_frozen in H.
  destruct H as (v & [= <-] & H). unfold optional_string, get. rewrite H. by destruct o.
Qed.

Section more_steps.
Context {sid : string} {evs : list Event} {s : astate} {project : option string} {spec : EventSpec} {e : Event}.
Context (Hsim : sim sid evs s) (Hsh : shaped sid project spec e).

Lemma step_move dst :
  spec_event_type spec = "task.project_reassigned" -> spec_subject_type spec = "task" ->
  spec_subject_id spec = sid ->
  dict_get "source_project_id" (spec_payload spec) = Some (optional_value project) ->
  dict_get "destination_project_id" (spec_payload spec) = Some (optional_value dst) ->
  validate_optional_id dst "project" = Ok tt ->
  a_task s <> None -> a_project s = project ->
  let s' := Build_astate (a_task s) dst (a_runs s) in
  astep sid s (LMove project dst) s' /\ sim sid (evs ++ [e]) s'.
Proof.
  intros Hty Hst Hid Hsrc Hdst Hvalid Hne Hp s'.
  assert (astep sid s (LMove project dst) s') as Hstep by by constructor.
  split; [done|]. eapply sim_task_event; try done.
  - eapply ainv_step; [apply Hsim|done].
  - intros rid. by apply (task_subject_note Hsh).
  - intros a t Ha (Hpi & Htid & Ho) Es Hpt. unfold reduce_task_step.
    rewrite (sh_correlation _ _ _ _ Hsh), (sh_type _ _ _ _ Hsh), (sh_subject_id _ _ _ _ Hsh), Hty, Hid,
      String.eqb_refl, Ha. cbn [negb andb String.eqb Ascii.eqb Bool.eqb]. unfold task_project_reassigned.
    rewrite (shaped_optional_value _ _ _ _ "source_project_id" _ Hsh eq_refl Hsrc). cbn [mbind result_bind].
    rewrite (shaped_optional_value _ _ _ _ "destination_project_id" _ Hsh eq_refl Hdst). cbn [mbind result_bind].
    rewrite (sh_project _ _ _ _ Hsh), Hvalid, !bool_decide_eq_true_2 by congruence.
    cbn [value_error_as].
    cbn [require mbind result_bind].
    match goal with |- context [Task_post_init ?x] => set (t' := x) end.
    assert (Task_post_init t' = Ok t') as Ht'.
    { apply (Task_replace_ok t); [exact Hpi|reflexivity..|exact Hvalid|exact (task_metadata_frozen t Hpi)]. }
    rewrite Ht'. exists (ta_set_task t' a), t'. by split_and!.
Qed.

Lemma step_create owner_type owner_id title objective :
  evs = [] -> s = a_init ->
  spec_event_type spec = "task.created" -> spec_subject_type spec = "task" -> spec_subject_id spec = sid ->
  dict_get "title" (spec_payload spec) = Some (VStr title) -> title <> "" ->
  dict_get "objective" (spec_payload spec) = Some (VStr objective) -> objective <> "" ->
  dict_get "owner_type" (spec_payload spec) = Some (VStr owner_type) -> owner_type <> "" ->
  dict_get "owner_id" (spec_payload spec) = Some (VStr owner_id) -> owner_id <> "" ->
  let s' := Build_astate (Some T_DRAFT) project [] in
  astep sid s (LCreate project) s' /\ sim sid (evs ++ [e]) s'.
Proof.
  intros -> -> Hty Hst Hid Ht1 Ht2 Ho1 Ho2 Hw1 Hw2 Hi1 Hi2 s'.
  assert (astep sid a_init (LCreate project) s') as Hstep by constructor.
  split; [done|].
  assert (forall rid, reduce_run_acc rid [e] = Ok run_acc0) as Hrun.
  { intros rid. unfold reduce_run_acc. cbn [fold_res]. unfold reduce_run_step.
    by rewrite (sh_subject_type _ _ _ _ Hsh), Hst. }
  split; cbn [a_task a_project a_runs s' app].
  - eapply ainv_step; [apply ainv_init|done].
  - unfold reduce_task_acc. cbn [fold_res]. unfold reduce_task_step.
    rewrite (sh_correlation _ _ _ _ Hsh), (sh_type _ _ _ _ Hsh), (sh_subject_id _ _ _ _ Hsh), Hty, Hid, String.eqb_refl.
    cbn [negb andb String.eqb Ascii.eqb Bool.eqb]. unfold task_created. cbn [ta_task task_acc0].
    rewrite (shaped_string_field Hsh "owner_type" _ eq_refl Hw1 Hw2), (shaped_string_field Hsh "owner_id" _ eq_refl Hi1 Hi2),
      (shaped_string_field Hsh "title" _ eq_refl Ht1 Ht2), (shaped_string_field Hsh "objective" _ eq_refl Ho1 Ho2).
    cbn [mbind result_bind].
    match goal with |- context [Task_post_init ?x] => set (t := x) end.
    assert (Task_post_init t = Ok t) as Ht.
    { apply Task_post_init_ok. split_and!; [|done| |by exists []].
      - pose proof (sh_subject_ok _ _ _ _ Hsh) as H. by rewrite Hst, Hid in H.
      - cbn. rewrite (sh_project _ _ _ _ Hsh). apply Hsh. }
    rewrite Ht. cbn. exists (ta_set_task t task_acc0), t. split_and!; try done.
    by rewrite <- (sh_project _ _ _ _ Hsh).
  - intros r Hr. by apply not_elem_of_nil in Hr.
  - intros rid _. rewrite Hrun. by exists run_acc0.
Qed.
End more_steps.

(** ** Runs *)

Lemma latest_nonneg s sid kind subject : ainv sid s -> (0 <= latest (attempts kind subject (a_runs s)))%Z.
Proof. intros Hi. rewrite (inv_attempts _ _ Hi), latest_seq. lia. Qed.

(** The payload of [run.created]. *)
Record run_payload (sid kind subject : string) (n : Z) (d : dict) : Prop := {
  rp_task : dict_get "task_id" d = Some (VStr sid);
  rp_kind : dict_get "subject_type" d = Some (VStr kind);
  rp_subject : dict_get "subject_id" d = Some (VStr subject);
  rp_attempt : dict_get "attempt" d = Some (VInt n);
  rp_owner_type : exists o, dict_get "owner_type" d = Some (VStr o) /\ o <> "";
  rp_owner_id : exists o, dict_get "owner_id" d = Some (VStr o) /\ o <> ""
}.

Lemma validate_id_nonempty v prefix x : validate_id v prefix = Ok x -> v <> "".
Proof. rewrite validate_id_spec. intros (_ & p & -> & _). by destruct prefix. Qed.

Lemma validate_subject_nonempty k v x : validate_subject_id k v = Ok x -> v <> "".
Proof. unfold validate_subject_id. destruct (dict_get k _); [apply validate_id_nonempty|done]. Qed.

Section run_steps.
Context {sid : string} {evs : list Event} {s : astate} {project : option string} {spec : EventSpec} {e : Event}.
Context (Hsim : sim sid evs s) (Hsh : shaped sid project spec e).

Lemma created_task_effect a rid kind subject n t :
  spec_event_type spec = "run.created" -> spec_subject_id spec = rid ->
  run_payload sid kind subject n (spec_payload spec) -> sid <> "" ->
  ta_task a = Some t -> rid ∉ ta_run_ids a ->
  reduce_task_step sid a e = Ok (ta_set_runs (ta_run_ids a ++ [rid]) a).
Proof.
  intros Hty Hid Hp Hne Ha Hn. unfold reduce_task_step, task_attachments.
  rewrite (sh_correlation _ _ _ _ Hsh), (sh_type _ _ _ _ Hsh), Hty, String.eqb_refl, Ha.
  cbn [negb andb String.eqb Ascii.eqb Bool.eqb dict_get TASK_EVENT_STATUS].
  rewrite (shaped_string_field Hsh "task_id" sid eq_refl (rp_task _ _ _ _ _ Hp) Hne).
  cbn [mbind result_bind]. rewrite String.eqb_refl, (sh_subject_id _ _ _ _ Hsh), Hid.
  unfold append_new. destruct (in_strs rid (ta_run_ids a)) eqn:E; [|done].
  by apply in_strs_true in E.
Qed.

Lemma created_run_effect a rid kind subject n :
  spec_event_type spec = "run.created" -> spec_subject_type spec = "run" -> spec_subject_id spec = rid ->
  run_payload sid kind subject n (spec_payload spec) ->
  kind = "task" \/ kind = "step" -> validate_subject_id kind subject = Ok subject -> (1 <= n)%Z ->
  ra_run a = None ->
  exists a' run, reduce_run_step rid a e = Ok a' /\ ra_run a' = Some run /\
    run_matches sid (Build_arun rid kind subject n R_QUEUED) run.
Proof.
  intros Hty Hst Hid Hp Hk Hv Hn Ha. unfold reduce_run_step.
  rewrite (sh_subject_type _ _ _ _ Hsh), (sh_subject_id _ _ _ _ Hsh), (sh_type _ _ _ _ Hsh), Hst, Hid, Hty, !String.eqb_refl.
  cbn [negb orb String.eqb Ascii.eqb Bool.eqb]. unfold run_created. rewrite Ha.
  destruct (rp_owner_type _ _ _ _ _ Hp) as (o1 & Ho1 & Hn1), (rp_owner_id _ _ _ _ _ Hp) as (o2 & Ho2 & Hn2).
  rewrite (shaped_string_field Hsh "owner_type" o1 eq_refl Ho1 Hn1). cbn [mbind result_bind].
  rewrite (shaped_string_field Hsh "owner_id" o2 eq_refl Ho2 Hn2). cbn [mbind result_bind].
  rewrite (shaped_string_field Hsh "subject_type" kind eq_refl (rp_kind _ _ _ _ _ Hp)) by by destruct Hk as [->| ->].
  cbn [mbind result_bind].
  assert (in_strs kind ["task"; "step"] = true) as -> by by destruct Hk as [->| ->].
  cbn [require mbind result_bind].
  rewrite (shaped_string_field Hsh "subject_id" subject eq_refl (rp_subject _ _ _ _ _ Hp)) by by eapply validate_subject_nonempty.
  cbn [mbind result_bind]. unfold integer_field, get.
  rewrite (shaped_int Hsh "attempt" n eq_refl (rp_attempt _ _ _ _ _ Hp)). cbn [default from_option id mbind result_bind].
  match goal with |- context [Run_post_init ?x] => set (run := x) end.
  assert (Run_post_init run = Ok run) as Hrun.
  { apply Run_post_init_ok. split_and!; try done; [|cbn; rewrite (sh_project _ _ _ _ Hsh); apply Hsh|by exists []].
    pose proof (sh_subject_ok _ _ _ _ Hsh) as H. by rewrite Hst, Hid in H. }
  rewrite Hrun. exists (ra_set_run run a), run. split_and!; try done.
  unfold run_matches. split_and!; try done. apply Hsh.
Qed.

Lemma step_run_new st rid kind subject n :
  spec_event_type spec = "run.created" -> spec_subject_type spec = "run" -> spec_subject_id spec = rid ->
  run_payload sid kind subject n (spec_payload spec) -> sid <> "" ->
  n = (latest (attempts kind subject (a_runs s)) + 1)%Z ->
  validate_subject_id kind subject = Ok subject ->
  a_task s = Some st -> st ∈ allowed_task_statuses kind ->
  kind = "task" /\ subject = sid \/ kind = "step" ->
  rid ∉ map a_id (a_runs s) ->
  (forall r, r ∈ a_runs s -> a_active r = true -> a_kind r = kind /\ a_subject r <> subject) ->
  let s' := Build_astate (a_task s) (a_project s) (a_runs s ++ [Build_arun rid kind subject n R_QUEUED]) in
  astep sid s (LRunNew rid kind subject n) s' /\ sim sid (evs ++ [e]) s'.
Proof.
  intros Hty Hst Hid Hp Hne Hn Hv Htask Hok Hk Hfresh Hact s'.
  assert (astep sid s (LRunNew rid kind subject n) s') as Hstep.
  { unfold s'. rewrite Hn. by eapply astep_run_new. }
  split; [done|].
  assert (1 <= n)%Z as Hpos.
  { rewrite Hn. pose proof (latest_nonneg s sid kind subject (sim_inv _ _ _ Hsim)). lia. }
  assert (kind = "task" \/ kind = "step") as Hk' by (destruct Hk as [[? _]|?]; auto).
  pose proof (sim_task _ _ _ Hsim) as Ht. rewrite Htask in Ht.
  destruct Ht as (a & t & Ha & Hat & Htok & Hs & Hpr & Hids).
  assert (forall r, r <> rid -> run_note r e) as Hother.
  { intros r Hr. apply run_note_subject_id. rewrite (sh_subject_id _ _ _ _ Hsh). congruence. }
  split; cbn [a_task a_project a_runs s'].
  - eapply ainv_step; [apply Hsim|done].
  - rewrite Htask. exists (ta_set_runs (ta_run_ids a ++ [rid]) a), t.
    rewrite reduce_task_snoc, Ha. cbn [mbind result_bind].
    rewrite (created_task_effect a rid kind subject n t) by (done || by rewrite Hids).
    split_and!; try done. cbn. by rewrite map_app, Hids.
  - intros r [Hr|Hr%list_elem_of_singleton]%elem_of_app.
    + apply (extend_run_note _ _ _ _ Hsim (a_id r)); [|done..].
      apply Hother. intros <-. apply Hfresh. apply list_elem_of_fmap. by exists r.
    + subst r. cbn [a_id]. destruct (sim_no_run _ _ _ Hsim rid Hfresh) as (ra & Hra & Hnone).
      rewrite reduce_run_snoc, Hra. cbn [mbind result_bind]. by apply created_run_effect.
  - intros r Hr. rewrite map_app in Hr. cbn in Hr. apply not_elem_of_app in Hr as [Hr Hr'].
    apply (extend_run_note _ _ _ _ Hsim r); [|done].
    apply Hother. intros ->. apply Hr'. by left.
Qed.

(** The specifications that move a run to [target]. *)
Definition moves_run (rid : string) (target : RunStatus) (spec : EventSpec) : Prop :=
  dict_get (spec_event_type spec) RUN_EVENT_STATUS = Some target /\
  spec_subject_type spec = "run" /\ spec_subject_id spec = rid /\
  ((exists b, dict_get "backend_ref" (spec_payload spec) = Some (VStr b)) \/
   dict_get "backend_ref" (spec_payload spec) = None).

Lemma run_status_type etype target :
  dict_get etype RUN_EVENT_STATUS = Some target ->
  in_strs etype TASK_EVENTS = false /\ String.eqb etype "run.created" = false /\
  String.eqb etype "run.dispatch_attempted" = false /\ String.eqb etype "run.recovery_required" = false /\
  String.eqb etype "run.recovery_cleared" = false.
Proof using.
  intros H. apply dict_get_in in H. cbn [RUN_EVENT_STATUS] in H.
  repeat (apply elem_of_cons in H as [[= -> ->]|H]; [done|]). by apply elem_of_nil in H.
Qed.

Lemma transition_run_ok run target :
  Run_post_init run = Ok run -> target ∈ RUN_TRANSITIONS (Run_status run) ->
  exists run', transition_run run target e = Ok run' /\ Run_post_init run' = Ok run' /\
    Run_id run' = Run_id run /\ Run_correlation_id run' = Run_correlation_id run /\
    Run_subject_type run' = Run_subject_type run /\ Run_subject_id run' = Run_subject_id run /\
    Run_attempt run' = Run_attempt run /\ Run_status run' = target.
Proof using.
  intros Hpi Ht. unfold transition_run.
  rewrite bool_decide_eq_false_2 by (intros E; rewrite <- E in Ht; destruct (Run_status run); by table Ht).
  apply (require_transition_ok _ _ _ tt) in Ht. rewrite Ht. cbn [value_error_as mbind result_bind].
  match goal with |- context [Run_post_init ?x] => set (run' := x) end.
  exists run'. assert (Run_post_init run' = Ok run') as H by (apply (Run_replace_ok run); done).
  by split_and!.
Qed.

Lemma step_run r target :
  moves_run (a_id r) target spec -> a_task s <> None -> r ∈ a_runs s ->
  target ∈ RUN_TRANSITIONS (a_status r) ->
  let s' := Build_astate (a_task s) (a_project s) (set_status (a_id r) target (a_runs s)) in
  astep sid s (LRun (a_id r) target) s' /\ sim sid (evs ++ [e]) s'.
Proof.
  intros (Hty & Hst & Hid & Hb) Hne Hr Ht s'. destruct (run_status_type _ _ Hty) as (HT & E1 & E2 & E3 & E4).
  split; [by constructor|]. apply sim_run_event; try done.
  - apply task_note_type; [apply Hsh|]. by rewrite (sh_type _ _ _ _ Hsh).
  - intros rid Hrid. apply run_note_subject_id. rewrite (sh_subject_id _ _ _ _ Hsh). congruence.
  - intros a run Ha Hpi Hrs. rewrite <- Hrs in Ht.
    destruct (transition_run_ok run target Hpi Ht) as (run' & Htr & Hpi' & Hrest).
    unfold reduce_run_step. rewrite (sh_subject_type _ _ _ _ Hsh), (sh_subject_id _ _ _ _ Hsh),
      (sh_type _ _ _ _ Hsh), Hst, Hid, !String.eqb_refl, E1, E2, E3, E4, Ha, Hty.
    cbn [negb orb String.eqb Ascii.eqb Bool.eqb]. unfold run_transitioned. rewrite Htr. cbn [mbind result_bind].
    destruct (shaped_optional_string Hsh "backend_ref" eq_refl) as [o Ho]; [by destruct Hb; [left|right]|].
    rewrite (sh_type _ _ _ _ Hsh), Ho.
    destruct (String.eqb (spec_event_type spec) "run.running"); cbn [mbind result_bind];
      destruct (get "output" (Event_payload e)), (run_terminal target);
      eexists _, run'; (split; [reflexivity|]; split; [reflexivity|]; split; [exact Hpi'|exact Hrest]).
Qed.
End run_steps.
