(* ===== verification/Interference.v ===== *)
(** * Coroutines under interference

    Between two awaits of one coroutine, any other coroutine may commit. [safe p own K Q] says that
    [p] keeps its obligations in every such interleaving: [K] is what it has read so far, a prefix
    of each stream for good because streams only grow, and [own] the UUIDs that it has drawn, which
    nobody else can draw. Its obligations ([op_pre]) are to append only batches that the machine of
    Machine.v can follow, to dispatch only recorded runs and to publish only committed events. *)

From S2P Require Import Prelude PyValue Errors Freeze Ident Lifecycle Domain Contracts EventStore.
From S2P Require Import Projection Effects CommitSupport KernelLifecycle RunCommands Machine Stream.

Abbreviation knowledge := (string -> list Event).
Definition klearn (s : string) (evs : list Event) (K : knowledge) : knowledge :=
  fun x => if String.eqb x s then evs else K x.
Definition kle (K K' : knowledge) : Prop := forall s, K s `prefix_of` K' s.

Lemma klearn_same s evs K : klearn s evs K s = evs.
Proof. unfold klearn. by rewrite String.eqb_refl. Qed.
Lemma klearn_le s evs K : K s `prefix_of` evs -> kle K (klearn s evs K).
Proof. intros H x. unfold klearn. destruct (String.eqb_spec x s) as [->|]; [done|reflexivity]. Qed.
Lemma kle_refl K : kle K K.
Proof. intros s. reflexivity. Qed.
#[export] Hint Resolve kle_refl : core.
Lemma kle_trans K1 K2 K3 : kle K1 K2 -> kle K2 K3 -> kle K1 K3.
Proof. intros H1 H2 s. by transitivity (K2 s). Qed.

Definition legal (sid : string) (evs : list Event) : Prop := exists s, refines sid evs s.

(** Run ids that could be made from the drawn UUIDs are unknown to the machine. *)
Definition fresh_for (own : list string) (s : astate) : Prop :=
  forall u, u ∈ own -> id_of_uuid "run" u ∉ map a_id (a_runs s).
Definition new_from (own : list string) (s s' : astate) : Prop :=
  forall x, x ∈ map a_id (a_runs s') -> x ∈ map a_id (a_runs s) \/ exists u, u ∈ own /\ x = id_of_uuid "run" u.

Definition appendable (own : list string) (sid : string) (st evs : list Event) : Prop :=
  forall s, refines sid st s -> fresh_for own s ->
  exists s', refines sid (st ++ evs) s' /\ new_from own s s'.

Definition dispatched (K : knowledge) (request : ExecutionRequest) : Prop :=
  exists e, e ∈ K (OperationContext_correlation_id (ExecutionRequest_context request)) /\
    Event_event_type e = "run.dispatch_attempted" /\
    Event_subject_id e = ExecutionRequest_run_id request.

(** What a coroutine owes before an operation. *)
Definition op_pre (own : list string) (K : knowledge) (o : op) : Prop :=
  match o with
  | OpCommit s rev evs _ =>
      forall st, K s `prefix_of` st -> Z.of_nat (length st) = rev -> legal s st -> appendable own s st evs
  | OpStart request => dispatched K request
  | OpPublish e | OpObserve e => e ∈ K (Event_correlation_id e)
  | _ => True
  end.

(** What it may rely on after it: the reply, the drawn UUIDs and the knowledge. *)
Definition op_post (own : list string) (K : knowledge) (o : op) (own' : list string) (K' : knowledge) :
    res (reply o) -> Prop :=
  match o return res (reply o) -> Prop with
  | OpRead s => fun r => exists evs, r = Ok evs /\ K s `prefix_of` evs /\ legal s evs /\
      own' = own /\ K' = klearn s evs K
  | OpUuid => fun r => exists u, r = Ok u /\ canonical_payload u /\ own' = u :: own /\ K' = K
  | OpCommit s rev evs cmd => fun r =>
      match r with
      | Ok res =>
          if CommitResult_applied res then
            exists st, K s `prefix_of` st /\ Z.of_nat (length st) = rev /\ own' = [] /\
              K' = klearn s (st ++ evs) K
          else cmd <> None /\ own' = own /\ K' = K
      | Err _ => own' = own /\ K' = K
      end
  | _ => fun _ => own' = own /\ K' = K
  end.

(** Errors need no postcondition: whatever catches them is proved from any state. *)
Fixpoint safe {A} (p : prog A) (own : list string) (K : knowledge)
    (Q : A -> list string -> knowledge -> Prop) : Prop :=
  match p with
  | Ret a => Q a own K
  | Raise _ => True
  | Vis o k => op_pre own K o /\ forall r own' K', op_post own K o own' K' r -> safe (k r) own' K' Q
  end.

(** Safe from any state, promising nothing. *)
Definition secure {A} (p : prog A) : Prop := forall own K, safe p own K (fun _ _ _ => True).

Section rules.
Context {A B : Type}.
Implicit Types (own : list string) (K : knowledge).

Lemma safe_mono (p : prog A) own K (Q Q' : A -> list string -> knowledge -> Prop) :
  safe p own K Q -> (forall a own K, Q a own K -> Q' a own K) -> safe p own K Q'.
Proof. revert own K. induction p as [a|e|o k IH]; cbn; naive_solver. Qed.

Lemma safe_bind (p : prog A) (f : A -> prog B) own K Q :
  safe p own K (fun a own K => safe (f a) own K Q) -> safe (p ≫= f) own K Q.
Proof. revert own K. induction p as [a|e|o k IH]; cbn; naive_solver. Qed.

Lemma safe_assoc {C} (p : prog A) (f : A -> prog B) (g : B -> prog C) own K Q :
  safe (p ≫= fun a => f a ≫= g) own K Q -> safe ((p ≫= f) ≫= g) own K Q.
Proof. revert own K. induction p as [a|e|o k IH]; cbn; naive_solver. Qed.

(** The last operation of a program, so that the rules for sequences apply to it. *)
Lemma safe_last (p : prog A) own K Q : safe (p ≫= Ret) own K Q -> safe p own K Q.
Proof. revert own K. induction p as [a|e|o k IH]; cbn; naive_solver. Qed.

Lemma secure_bind (p : prog A) (f : A -> prog B) own K Q :
  secure p -> (forall a own K, safe (f a) own K Q) -> safe (p ≫= f) own K Q.
Proof. intros Hp Hf. apply safe_bind. eapply safe_mono; [apply Hp|]. auto. Qed.

(** A check that performs no operation. *)
Lemma secure_bind_pure (p : prog A) (f : A -> prog B) own K Q :
  match p with Ret a => safe (f a) own K Q | Raise _ => True | Vis _ _ => False end ->
  safe (p ≫= f) own K Q.
Proof. by destruct p. Qed.

Lemma secure_seq (p : prog A) (f : A -> prog B) :
  secure p -> (forall a, secure (f a)) -> secure (p ≫= f).
Proof. intros Hp Hf own K. apply secure_bind; [done|]. intros a own' K'. apply Hf. Qed.

Lemma secure_ret (a : A) : secure (Ret a).
Proof. done. Qed.
Lemma secure_raise e : secure (Raise e : prog A).
Proof. done. Qed.

Lemma secure_catch (p : prog A) h : secure p -> (forall e, secure (h e)) -> secure (catch p h).
Proof.
  intros Hp Hh own K. specialize (Hp own K). revert own K Hp.
  induction p as [a|e|o k IH]; cbn; intros own K; [done|intros _; apply Hh|]. naive_solver.
Qed.

Lemma secure_attempt (p : prog A) : secure p -> secure (attempt p).
Proof.
  intros Hp own K. specialize (Hp own K). revert own K Hp.
  induction p as [a|e|o k IH]; cbn; intros own K; [done|done|]. naive_solver.
Qed.

Lemma safe_call (o : op) (k : reply o -> prog B) own K Q :
  op_pre own K o ->
  (forall r own' K', op_post own K o own' K' (Ok r) -> safe (k r) own' K' Q) ->
  safe (call o ≫= k) own K Q.
Proof.
  intros Hpre Hk. cbn. split; [done|]. intros [r|e] own' K' Hr; cbn; [|done]. by apply Hk.
Qed.

Lemma safe_lift (r : res A) (k : A -> prog B) own K Q :
  (forall a, r = Ok a -> safe (k a) own K Q) -> safe (lift r ≫= k) own K Q.
Proof. destruct r; cbn; auto. Qed.

Lemma safe_guard b e (k : unit -> prog B) own K Q :
  (b = true -> safe (k tt) own K Q) -> safe (guard b e ≫= k) own K Q.
Proof. destruct b; cbn; auto. Qed.
End rules.

Lemma secure_for_each {A B} (f : A -> prog B) l : (forall a, secure (f a)) -> secure (for_each f l).
Proof.
  intros Hf. induction l as [|a l IH]; [done|]. cbn [for_each].
  apply secure_seq; [done|]. intros b. by apply secure_seq.
Qed.

Lemma secure_lift {A} (r : res A) : secure (lift r).
Proof. by destruct r. Qed.
Lemma secure_guard b e : secure (guard b e).
Proof. by destruct b. Qed.
Lemma secure_call o : (forall own K, op_pre own K o) -> secure (call o).
Proof. intros Ho own K. cbn. split; [done|]. by intros [r|e] own' K' _. Qed.

Lemma safe_read {B} s (k : list Event -> prog B) own K Q :
  (forall evs, K s `prefix_of` evs -> legal s evs -> safe (k evs) own (klearn s evs K) Q) ->
  safe (call (OpRead s) ≫= k) own K Q.
Proof.
  intros Hk. apply safe_call; [done|]. intros r own' K' (evs & [= ->] & Hp & Hl & -> & ->). auto.
Qed.

Lemma safe_new_id {B} prefix (k : string -> prog B) own K Q :
  (forall u, canonical_payload u -> safe (k (id_of_uuid prefix u)) (u :: own) K Q) ->
  safe (new_id prefix ≫= k) own K Q.
Proof.
  intros Hk. unfold new_id. apply safe_assoc, safe_call; [done|].
  intros r own' K' (u & [= ->] & Hu & -> & ->). cbn. auto.
Qed.

Lemma safe_now {B} (k : Z -> prog B) own K Q :
  (forall n, safe (k n) own K Q) -> safe (utc_now ≫= k) own K Q.
Proof. intros Hk. apply safe_call; [done|]. intros r own' K' [-> ->]. auto. Qed.

(** ** Snapshots

    A command reads the task first and commits at the revision it saw. Runs read later belong to the
    same stream only if nobody committed in between; but then the commit is the one that fails. *)

Lemma prefix_antisym (l1 l2 : list Event) : l1 `prefix_of` l2 -> l2 `prefix_of` l1 -> l1 = l2.
Proof. intros H1 H2. apply (anti_symm prefix); done. Qed.

Lemma unchanged K K' sid evs0 : kle K K' -> evs0 `prefix_of` K sid -> K' sid = evs0 -> K sid = evs0.
Proof. intros Hle Hp E. apply prefix_antisym; [|done]. rewrite <- E. apply Hle. Qed.

Record task_snapshot (sid : string) (evs0 : list Event) (task : TaskState) : Prop := {
  snap_legal : legal sid evs0;
  snap_reduce : reduce_task evs0 sid = Ok task
}.

Section snapshot.
Context {sid : string} {evs0 : list Event} {task : TaskState} (Hsnap : task_snapshot sid evs0 task).

(** What the machine knows of the task that was read. *)
Lemma snapshot_state s : refines sid evs0 s ->
  a_task s = Some (TaskState_status task) /\ a_project s = Task_project_id (TaskState_task task) /\
  TaskState_run_ids task = map a_id (a_runs s) /\ task_ok sid (TaskState_task task) /\
  TaskState_revision task = Z.of_nat (length evs0).
Proof.
  intros Hs%refines_sim. pose proof (sim_task _ _ _ Hs) as Ht. pose proof (snap_reduce _ _ _ Hsnap) as Hr.
  unfold reduce_task in Hr. destruct (a_task s) as [st|].
  - destruct Ht as (a & t & Ha & Hat & Hok & <- & <- & <-). rewrite Ha in Hr. cbn in Hr. rewrite Hat in Hr.
    injection Hr as <-. by split_and!.
  - subst evs0. done.
Qed.

Lemma snapshot_id : TaskState_task_id task = sid.
Proof.
  destruct (snap_legal _ _ _ Hsnap) as [s Hs]. destruct (snapshot_state s Hs) as (_ & _ & _ & Hok & _). apply Hok.
Qed.

Lemma snapshot_revision : TaskState_revision task = Z.of_nat (length evs0).
Proof. destruct (snap_legal _ _ _ Hsnap) as [s Hs]. by destruct (snapshot_state s Hs) as (_ & _ & _ & _ & ?). Qed.

Lemma snapshot_run s rid run : refines sid evs0 s -> reduce_run evs0 rid = Ok run ->
  exists r, r ∈ a_runs s /\ a_id r = rid /\ run_matches sid r (RunState_run run).
Proof.
  intros Hs%refines_sim Hr. unfold reduce_run in Hr.
  destruct (decide (rid ∈ map a_id (a_runs s))) as [Hin|Hout].
  - apply list_elem_of_fmap in Hin as (r & -> & Hin).
    destruct (sim_run _ _ _ Hs r Hin) as (a & x & Ha & Hx & Hm). exists r. split_and!; [done..|].
    rewrite Ha in Hr. cbn in Hr. rewrite Hx in Hr. by injection Hr as <-.
  - destruct (sim_no_run _ _ _ Hs rid Hout) as (a & Ha & Hx). rewrite Ha in Hr. cbn in Hr. by rewrite Hx in Hr.
Qed.
End snapshot.

Lemma snapshot_run_id sid evs0 task rid run :
  task_snapshot sid evs0 task -> reduce_run evs0 rid = Ok run -> RunState_run_id run = rid.
Proof.
  intros [[s Hs] _] Hr. destruct (snapshot_run s rid run Hs Hr) as (r & _ & <- & Hm). apply Hm.
Qed.

(** ** Batches *)

(** The machine states that a batch of specifications leads through, whatever event each becomes. *)
Inductive spec_steps (sid : string) (project : option string) : astate -> list EventSpec -> astate -> Prop :=
| spec_steps_nil s : spec_steps sid project s [] s
| spec_steps_cons s spec s1 specs s2 :
    (forall evs e, sim sid evs s -> shaped sid project spec e ->
       exists l, astep sid s l s1 /\ sim sid (evs ++ [e]) s1) ->
    spec_steps sid project s1 specs s2 -> spec_steps sid project s (spec :: specs) s2.

Lemma spec_steps_refines sid project s specs s' evs es :
  spec_steps sid project s specs s' -> refines sid evs s -> Forall2 (shaped sid project) specs es ->
  refines sid (evs ++ es) s'.
Proof.
  intros Hs. revert evs es. induction Hs as [s|s spec s1 specs s2 Hspec Hs IH]; intros evs es Hr Hes.
  - inversion Hes. by rewrite app_nil_r.
  - inversion Hes as [|? e ? es' He Hes']; subst.
    destruct (Hspec evs e) as (l & Hstep & Hsim); [by apply refines_sim|done|].
    change (e :: es') with ([e] ++ es'). rewrite app_assoc. apply IH; [|done]. by econstructor.
Qed.

Lemma spec_steps_app sid project s specs s1 specs' s2 :
  spec_steps sid project s specs s1 -> spec_steps sid project s1 specs' s2 ->
  spec_steps sid project s (specs ++ specs') s2.
Proof. induction 1; cbn; [done|]. intros. econstructor; eauto. Qed.

(** The machine can follow a batch committed right after the snapshot. *)
Definition follows (own : list string) (sid : string) (evs0 : list Event) (project : option string)
    (specs : list EventSpec) : Prop :=
  forall s, refines sid evs0 s -> fresh_for own s ->
  exists s', spec_steps sid project s specs s' /\ new_from own s s'.

Lemma follows_appendable own own' sid evs0 project specs es :
  follows own sid evs0 project specs -> (forall u, u ∈ own -> u ∈ own') ->
  Forall2 (shaped sid project) specs es -> appendable own' sid evs0 es.
Proof.
  intros Hf Hsub Hes s Hs Hfresh. destruct (Hf s Hs) as (s' & Hsteps & Hnew).
  { intros u Hu. apply Hfresh. auto. }
  exists s'. split; [by eapply spec_steps_refines|]. intros x Hx. destruct (Hnew x Hx) as [|(u & ? & ?)]; [by left|].
  right. exists u. auto.
Qed.

(** ** Rules for the queries *)

Lemma refines_correlation sid evs s : refines sid evs s -> Forall (fun e => Event_correlation_id e = sid) evs.
Proof.
  intros Hs%refines_sim. pose proof (sim_task _ _ _ Hs) as Ht. destruct (a_task s); [|by subst].
  destruct Ht as (a & _ & Ha & _). clear Hs. unfold reduce_task_acc in Ha.
  revert a Ha. induction evs as [|e evs IH] using rev_ind; intros a Ha; [done|].
  rewrite fold_res_snoc in Ha. destruct (fold_res _ _ _) as [a'|] eqn:E; [|done].
  apply Forall_app. split; [by eapply IH|]. constructor; [|done].
  unfold reduce_task_step in Ha. destruct (String.eqb_spec (Event_correlation_id e) sid); done.
Qed.

Section queries.
Context {B : Type}.
Implicit Types (own : list string) (K : knowledge) (Q : B -> list string -> knowledge -> Prop).

Lemma safe_get_task sid (k : TaskState -> prog B) own K Q :
  (forall evs task K1, kle K K1 -> K1 sid = evs -> task_snapshot sid evs task -> safe (k task) own K1 Q) ->
  safe (get_task sid ≫= k) own K Q.
Proof.
  intros Hk. unfold get_task. apply safe_assoc, safe_lift. intros _ _. apply safe_assoc, safe_read.
  intros evs Hp Hl. apply safe_lift. intros task Ht.
  apply (Hk evs); [by apply klearn_le|apply klearn_same|by split].
Qed.

Lemma safe_get_run sid rid (k : RunState -> prog B) own K Q evs0 :
  evs0 `prefix_of` K sid ->
  (forall run K1, kle K K1 -> evs0 `prefix_of` K1 sid ->
     (K1 sid = evs0 -> reduce_run evs0 rid = Ok run) -> safe (k run) own K1 Q) ->
  safe (get_run sid rid ≫= k) own K Q.
Proof.
  intros H0 Hk. unfold get_run. apply safe_assoc, safe_lift. intros _ _.
  apply safe_assoc, safe_lift. intros _ _. apply safe_assoc, safe_read. intros evs Hp Hl.
  apply safe_assoc, safe_lift. intros run Hrun. destruct (String.eqb _ _); [|done]. cbn.
  apply Hk; rewrite ?klearn_same; [by apply klearn_le|by transitivity (K sid)|by intros <-].
Qed.

Lemma safe_history sid (k : list Event -> prog B) own K Q :
  (forall evs, legal sid evs -> K sid `prefix_of` evs -> safe (k evs) own (klearn sid evs K) Q) ->
  safe (history sid ≫= k) own K Q.
Proof.
  intros Hk. unfold history. apply safe_assoc, safe_lift. intros _ _. apply safe_read. auto.
Qed.
End queries.

Lemma safe_collect_runs {B} sid keep rids (k : list RunState -> prog B) own K Q evs0 :
  evs0 `prefix_of` K sid ->
  (forall runs K1, kle K K1 -> evs0 `prefix_of` K1 sid ->
     (K1 sid = evs0 -> exists all, Forall2 (fun rid run => reduce_run evs0 rid = Ok run) rids all /\
        runs = List.filter keep all) -> safe (k runs) own K1 Q) ->
  safe (collect_runs sid keep rids ≫= k) own K Q.
Proof.
  revert K k. induction rids as [|rid rids IH]; intros K k H0 Hk.
  - cbn. apply (Hk [] K); [done|done|]. intros _. by exists [].
  - cbn [collect_runs]. apply safe_assoc, (safe_get_run _ _ _ _ _ _ evs0); [done|]. intros run K1 Hle H1 Hrun.
    apply safe_assoc, IH; [done|]. intros runs K2 Hle2 H2 Hruns. cbn.
    apply Hk; [by eapply kle_trans|done|]. intros E.
    destruct (Hruns E) as (all & Hall & ->). exists (run :: all). split; [constructor; [|done]|done].
    apply Hrun. by eapply unchanged.
Qed.

Lemma safe_find_run {B} sid want rids (k : option RunState -> prog B) own K Q evs0 :
  evs0 `prefix_of` K sid ->
  (forall found K1, kle K K1 -> evs0 `prefix_of` K1 sid ->
     (K1 sid = evs0 -> found = None ->
        forall rid, rid ∈ rids -> exists run, reduce_run evs0 rid = Ok run /\ want run = false) ->
     safe (k found) own K1 Q) ->
  safe (find_run sid want rids ≫= k) own K Q.
Proof.
  revert K. induction rids as [|rid rids IH]; intros K H0 Hk.
  - cbn. apply (Hk None K); [done|done|]. intros _ _ rid Hr. by apply not_elem_of_nil in Hr.
  - cbn [find_run]. apply safe_assoc, (safe_get_run _ _ _ _ _ _ evs0); [done|]. intros run K1 Hle H1 Hrun.
    destruct (want run) eqn:Hw.
    + cbn. by apply (Hk (Some run) K1).
    + apply IH; [done|]. intros found K2 Hle2 H2 Hf. apply Hk; [by eapply kle_trans|done|].
      intros E -> x [->|Hx]%elem_of_cons; [|by apply Hf]. exists run. split; [|done].
      apply Hrun. by eapply unchanged.
Qed.

(** ** Secure queries *)

Lemma secure_get_task sid : secure (get_task sid).
Proof.
  intros own K. unfold get_task. apply safe_lift. intros _ _. apply safe_read. intros evs _ _.
  apply secure_lift.
Qed.

Lemma secure_get_run sid rid : secure (get_run sid rid).
Proof.
  intros own K. unfold get_run. apply safe_lift. intros _ _. apply safe_lift. intros _ _.
  apply safe_read. intros evs _ _. apply safe_lift. intros run _. by destruct (String.eqb _ _).
Qed.

Lemma secure_history sid : secure (history sid).
Proof. intros own K. unfold history. apply safe_lift. intros _ _. apply secure_call. done. Qed.

Lemma safe_existing_command {B} scope key operation (k : option CommandRecord -> prog B) own K Q :
  (forall r, safe (k r) own K Q) -> safe (existing_command scope key operation ≫= k) own K Q.
Proof.
  intros Hk. unfold existing_command. apply safe_assoc, safe_call; [done|]. intros r own' K' [-> ->].
  destruct r as [c|]; [|by cbn]. cbn. destruct (String.eqb _ _); cbn; auto.
Qed.

Lemma safe_task_command {B} sid key operation (k : option CommandRecord -> prog B) own K Q :
  (forall r, safe (k r) own K Q) -> safe (task_command sid key operation ≫= k) own K Q.
Proof.
  intros Hk. unfold task_command, require_key. apply safe_assoc, safe_guard. intros _.
  by apply safe_existing_command.
Qed.

Lemma safe_context {B} task cause (k : OperationContext -> prog B) own K Q :
  (forall ctx, OperationContext_correlation_id ctx = TaskState_task_id task -> safe (k ctx) own K Q) ->
  safe (context task cause ≫= k) own K Q.
Proof.
  intros Hk. unfold context. apply safe_assoc, safe_lift. intros control _. apply safe_lift.
  intros ctx Hctx. apply Hk. unfold OperationContext_post_init in Hctx. res_inv. done.
Qed.

(** ** Rules for building and committing events *)

Lemma enrich_get payload actor source n meta d k :
  enrich payload actor source n meta = Ok d -> in_strs k RESERVED = false -> dict_get k d = dict_get k payload.
Proof.
  intros Hd Hk. unfold enrich in Hd. unfold in_strs, RESERVED in Hk. cbn [existsb] in Hk.
  repeat (apply orb_false_iff in Hk as [? Hk]).
  set (base := dict_update payload _) in Hd.
  assert (dict_get k base = dict_get k payload) as Hbase.
  { unfold base. rewrite dict_get_update. cbn [rev app dict_get].
    repeat match goal with H : String.eqb k _ = false |- _ => rewrite H; clear H end. done. }
  destruct meta as [|m meta]; [by injection Hd as <-|].
  destruct (bool_decide _); [|done]. injection Hd as <-. rewrite dict_get_set.
  match goal with H : String.eqb k "adapter_metadata" = false |- _ => by rewrite H end.
Qed.

Section commits.
Context {B : Type}.
Implicit Types (own : list string) (K : knowledge) (Q : B -> list string -> knowledge -> Prop).

Lemma safe_event sid etype stype subj cause ot oi project actor source rev payload meta
    (k : Event -> prog B) own K Q :
  (forall e u, shaped sid project (Build_EventSpec etype stype subj payload meta) e ->
     safe (k e) (u :: own) K Q) ->
  safe (event sid etype stype subj cause ot oi project actor source rev payload meta ≫= k) own K Q.
Proof.
  intros Hk. unfold event. apply safe_assoc, safe_lift. intros d Hd.
  apply safe_assoc, safe_lift. intros prov _. apply safe_assoc, safe_new_id. intros u Hu.
  apply safe_assoc, safe_now. intros now. apply safe_lift. intros e He. apply Hk.
  unfold Event_post_init in He. cbn in He. res_inv.
  lazymatch goal with Hx : freeze_mapping_field d = Ok _ |- _ => rename Hx into Hf end.
  lazymatch goal with Hx : validate_optional_id project _ = Ok ?x |- _ => rename Hx into Hv; destruct x end.
  lazymatch goal with Hx : validate_subject_id stype subj = Ok _ |- _ => rename Hx into Hsub end.
  split; cbn; try done.
  - rewrite Hsub. f_equal. unfold validate_subject_id in Hsub. destruct (dict_get stype _); [|done].
    by apply validate_id_ok_eq in Hsub.
  - intros key Hkey. pose proof (dict_get_freeze _ _ key Hf) as Hg. by rewrite (enrich_get _ _ _ _ _ _ _ Hd Hkey) in Hg.
  - by eapply freeze_entries_frozen.
Qed.

Lemma safe_build_events task cause actor source specs (k : list Event -> prog B) own K Q :
  (forall own' es, (forall u, u ∈ own -> u ∈ own') ->
     Forall2 (shaped (TaskState_task_id task) (Task_project_id (TaskState_task task))) specs es ->
     safe (k es) own' K Q) ->
  safe (build_events task cause actor source specs ≫= k) own K Q.
Proof.
  unfold build_events. generalize 1%Z as offset. revert k own.
  induction specs as [|spec specs IH]; intros k own offset Hk.
  - cbn. apply Hk; [done|constructor].
  - cbn [build_events_from]. apply safe_assoc. unfold build_event at 1. apply safe_event. intros e u He.
    apply safe_assoc, IH. intros own' es Hsub Hes. cbn. apply Hk.
    + intros x Hx. apply Hsub. by right.
    + constructor; [|done]. by destruct spec.
Qed.

Lemma safe_mirror cfg es (k : unit -> prog B) own K Q :
  (forall e, e ∈ es -> e ∈ K (Event_correlation_id e)) -> safe (k tt) own K Q ->
  safe (mirror cfg es ≫= k) own K Q.
Proof.
  intros Hes Hk. unfold mirror. destruct (has_event_sink cfg); [|done].
  apply safe_assoc. revert Hes. induction es as [|e es IH]; intros Hes; [done|].
  cbn [for_each]. apply safe_assoc, safe_call.
  { cbn. apply Hes. by left. }
  intros r own' K' [-> ->]. apply safe_assoc. cbn in IH |- *.
  apply IH. intros x Hx. apply Hes. by right.
Qed.

(** A commit of the task's stream at the revision of the snapshot. *)
Lemma safe_commit stream sid evs0 task specs es cmd (k : CommitResult -> prog B) own own0 K Q :
  stream = TaskState_task_id task -> task_snapshot sid evs0 task -> evs0 `prefix_of` K sid ->
  (K sid = evs0 -> follows own0 sid evs0 (Task_project_id (TaskState_task task)) specs) ->
  (forall u, u ∈ own0 -> u ∈ own) ->
  Forall2 (shaped (TaskState_task_id task) (Task_project_id (TaskState_task task))) specs es ->
  (forall r K', CommitResult_applied r = true -> kle K K' -> (forall e, e ∈ es -> e ∈ K' sid) ->
     safe (k r) [] K' Q) ->
  (forall r, CommitResult_applied r = false -> cmd <> None -> safe (k r) own K Q) ->
  safe (call (OpCommit stream (TaskState_revision task) es cmd) ≫= k) own K Q.
Proof.
  intros -> Hsnap H0 Hfollow Hsub Hes Hok Hdup.
  rewrite (snapshot_id Hsnap), (snapshot_revision Hsnap) in *.
  assert (forall st, K sid `prefix_of` st -> Z.of_nat (length st) = Z.of_nat (length evs0) ->
            st = evs0 /\ K sid = evs0) as Hsame.
  { intros st Hst Hlen%Nat2Z.inj.
    assert (evs0 = st) as <-.
    { eapply prefix_length_eq; [by transitivity (K sid)|]. lia. }
    split; [done|]. by apply prefix_antisym. }
  apply safe_call.
  - cbn. intros st Hst Hlen Hlegal. destruct (Hsame st Hst Hlen) as [-> HK].
    eapply follows_appendable; [by apply Hfollow|done|done].
  - intros r own' K'. cbn. destruct (CommitResult_applied r) eqn:E.
    + intros (st & Hst & Hlen & -> & ->). apply Hok; [done| |].
      * apply klearn_le. etransitivity; [done|]. by apply prefix_app_r.
      * intros e He. rewrite klearn_same. apply elem_of_app. by right.
    + intros (Hc & -> & ->). by apply Hdup.
Qed.

Lemma shaped_correlations sid project specs es :
  Forall2 (shaped sid project) specs es -> forall e, e ∈ es -> Event_correlation_id e = sid.
Proof.
  intros H e He. apply list_elem_of_lookup_1 in He as [i Hi].
  destruct (Forall2_lookup_r _ _ _ _ _ H Hi) as (spec & _ & Hs). apply Hs.
Qed.

Lemma safe_commit_task_command cfg sid evs0 task key operation specs result actor source
    (k : CommandRecord -> prog B) own K Q :
  task_snapshot sid evs0 task -> evs0 `prefix_of` K sid ->
  (K sid = evs0 -> follows own sid evs0 (Task_project_id (TaskState_task task)) specs) ->
  (forall r own' K', kle K K' -> safe (k r) own' K' Q) ->
  safe (commit_task_command cfg task key operation specs result actor source ≫= k) own K Q.
Proof.
  intros Hsnap H0 Hfollow Hk. unfold commit_task_command, require_key.
  apply safe_assoc, safe_guard. intros _. apply safe_assoc, safe_existing_command. intros [r|].
  { cbn. by apply Hk. }
  apply safe_assoc, safe_build_events. intros own' es Hsub Hes.
  apply safe_assoc, safe_bind. destruct es as [|e es]; cbn [first_event safe]; [done|].
  apply safe_assoc. eapply safe_commit; try done.
  - intros r K' E Hle Hin. rewrite E. apply safe_assoc, safe_mirror; [|cbn; by apply Hk].
    intros x Hx. rewrite (shaped_correlations _ _ _ _ Hes x Hx), (snapshot_id Hsnap). by apply Hin.
  - intros r E _. rewrite E. destruct (CommitResult_command r) as [c|]; cbn; [|done].
    destruct (String.eqb _ _); cbn; [|done]. by apply Hk.
Qed.

Lemma safe_append_system_events cfg sid evs0 task cause specs actor source (k : unit -> prog B) own K Q :
  task_snapshot sid evs0 task -> evs0 `prefix_of` K sid ->
  (K sid = evs0 -> follows own sid evs0 (Task_project_id (TaskState_task task)) specs) ->
  (forall es own' K', kle K K' -> (forall e, e ∈ es -> e ∈ K' sid) ->
     Forall2 (shaped sid (Task_project_id (TaskState_task task))) specs es -> safe (k tt) own' K' Q) ->
  safe (append_system_events cfg task cause actor source specs ≫= k) own K Q.
Proof.
  intros Hsnap H0 Hfollow Hk. unfold append_system_events.
  apply safe_assoc, safe_build_events. intros own' es Hsub Hes. apply safe_assoc.
  eapply safe_commit; try done.
  intros r K' E Hle Hin. apply safe_mirror.
  - intros x Hx. rewrite (shaped_correlations _ _ _ _ Hes x Hx), (snapshot_id Hsnap). by apply Hin.
  - apply (Hk es); [done..|]. by rewrite (snapshot_id Hsnap) in Hes.
Qed.
End commits.
