(* ===== verification/Refinement.v ===== *)
(** * The kernel's commands keep every stream legal

    Every command of the kernel is [secure]: in any interleaving it appends only batches that the
    lifecycle machine can follow, dispatches only recorded runs and publishes only committed
    events. *)

From S2P Require Import Prelude PyValue Errors Freeze Ident Lifecycle Domain Contracts EventStore.
From S2P Require Import Projection Effects CommitSupport KernelLifecycle Planning RunCommands.
From S2P Require Import TaskCommands Recovery TaskMutations Machine Stream.
From S2P Require Import Interference.

(** ** Batches, one specification at a time *)

Definition note_spec (sid : string) (spec : EventSpec) : Prop :=
  forall project e, shaped sid project spec e -> is_note sid e.

(** Event types that no reducer interprets. *)
Definition plain_type (etype : string) : bool := negb (in_strs etype TASK_EVENTS) && negb (in_strs etype RUN_EVENTS).

Lemma plain_note sid spec : plain_type (spec_event_type spec) = true -> note_spec sid spec.
Proof.
  unfold plain_type. intros H project e Hsh. bool_props. eapply note_other; [done..|]. by right.
Qed.

Section batches.
Context (sid : string) (project : option string).

Lemma ss_note spec specs s s' : note_spec sid spec -> a_task s <> None ->
  spec_steps sid project s specs s' -> spec_steps sid project s (spec :: specs) s'.
Proof.
  intros Hn Hne. apply spec_steps_cons. intros evs e Hsim Hsh. exists LNote.
  apply step_note; [done| |done]. by eapply Hn.
Qed.

Lemma ss_task spec specs st t p runs s' :
  moves_task sid t spec -> t ∈ TASK_TRANSITIONS st \/ (st = T_WAITING /\ t = T_WAITING) ->
  (settled t = true -> Forall (fun r => a_active r = false) runs) ->
  spec_steps sid project (Build_astate (Some t) p runs) specs s' ->
  spec_steps sid project (Build_astate (Some st) p runs) (spec :: specs) s'.
Proof.
  intros Hm Ht Hq. apply spec_steps_cons. intros evs e Hsim Hsh. exists (LTask t).
  by eapply (step_task Hsim Hsh).
Qed.

Lemma ss_run spec specs r t st p runs s' :
  moves_run (a_id r) t spec -> r ∈ runs -> t ∈ RUN_TRANSITIONS (a_status r) ->
  spec_steps sid project (Build_astate (Some st) p (set_status (a_id r) t runs)) specs s' ->
  spec_steps sid project (Build_astate (Some st) p runs) (spec :: specs) s'.
Proof.
  intros Hm Hr Ht. apply spec_steps_cons. intros evs e Hsim Hsh. exists (LRun (a_id r) t).
  by apply (step_run Hsim Hsh).
Qed.
End batches.

(** Literal specifications move what their event type says. *)
Ltac mover := split_and!; [reflexivity..|first [by right | left; eexists; reflexivity]].

(** A batch that creates no run. *)
Lemma follows_same own sid evs0 project specs :
  (forall s, refines sid evs0 s -> exists s', spec_steps sid project s specs s' /\
     map a_id (a_runs s') = map a_id (a_runs s)) -> follows own sid evs0 project specs.
Proof.
  intros H s Hs _. destruct (H s Hs) as (s' & Hsteps & Hids). exists s'. split; [done|].
  intros x Hx. left. by rewrite <- Hids.
Qed.

Section from_snapshot.
Context {sid : string} {evs0 : list Event} {task : TaskState} (Hsnap : task_snapshot sid evs0 task).
Let project := Task_project_id (TaskState_task task).

Lemma follows_notes own specs : Forall (note_spec sid) specs -> follows own sid evs0 project specs.
Proof.
  intros Hspecs. apply follows_same. intros s Hs. exists s. split; [|done].
  destruct (snapshot_state Hsnap s Hs) as (Est & _).
  induction Hspecs as [|spec specs Hspec Hspecs IH]; [constructor|]. apply ss_note; [done|congruence|done].
Qed.

Lemma follows_plain own specs :
  forallb (fun spec => plain_type (spec_event_type spec)) specs = true -> follows own sid evs0 project specs.
Proof.
  rewrite forallb_forall, <- List.Forall_forall. intros H. apply follows_notes.
  eapply Forall_impl; [exact H|]. intros spec. apply plain_note.
Qed.

(** A single task transition. *)
Lemma follows_task own spec t :
  moves_task sid t spec ->
  t ∈ TASK_TRANSITIONS (TaskState_status task) \/ (TaskState_status task = T_WAITING /\ t = T_WAITING) ->
  (settled t = true -> forall s, refines sid evs0 s -> quiet s) -> follows own sid evs0 project [spec].
Proof.
  intros Hm Ht Hq. apply follows_same. intros s Hs.
  destruct (snapshot_state Hsnap s Hs) as (Est & _). specialize (fun H => Hq H s Hs). unfold quiet in Hq.
  destruct s as [st p runs]; cbn in *. subst st. eexists. split.
  - eapply ss_task; [done|done|done|constructor].
  - done.
Qed.

(** No active run among those that the task lists. *)
Lemma snapshot_quiet s :
  refines sid evs0 s ->
  (forall rid, rid ∈ TaskState_run_ids task -> exists run, reduce_run evs0 rid = Ok run /\ run_is_active run = false) ->
  quiet s.
Proof.
  intros Hs Hall. destruct (snapshot_state Hsnap s Hs) as (_ & _ & Hids & _).
  apply Forall_forall. intros r Hr. destruct (Hall (a_id r)) as (run & Hrun & Hact).
  { rewrite Hids. apply list_elem_of_fmap. by exists r. }
  destruct (snapshot_run s _ run Hs Hrun) as (r' & Hr' & E & Hm).
  assert (r' = r) as -> by (eapply NoDup_id_inj; [apply (refines_sim _ _ _ Hs)|done..]).
  destruct Hm as (_ & _ & _ & _ & _ & _ & Est). unfold run_is_active, RunState_status in Hact.
  unfold a_active, run_active. by rewrite <- Est.
Qed.
End from_snapshot.

(** ** Batches of the lifecycle reconciler *)

Lemma moves_task_spec sid etype t payload :
  dict_get etype TASK_EVENT_STATUS = Some t ->
  (exists r, dict_get "reason" payload = Some (VStr r)) \/ dict_get "reason" payload = None ->
  moves_task sid t (task_spec etype sid payload).
Proof. intros. unfold moves_task. by split_and!. Qed.

Lemma moves_run_spec etype rid t payload meta :
  dict_get etype RUN_EVENT_STATUS = Some t ->
  (exists r, dict_get "backend_ref" payload = Some (VStr r)) \/ dict_get "backend_ref" payload = None ->
  moves_run rid t (Build_EventSpec etype "run" rid payload meta).
Proof. intros. unfold moves_run. by split_and!. Qed.

Ltac mt := apply moves_task_spec; [reflexivity|first [by right | left; eexists; reflexivity]].
Ltac mr := apply moves_run_spec; [reflexivity|first [by right | left; eexists; reflexivity]].
(** Membership in a literal list. *)
Ltac lit := apply in_strs_true; reflexivity.
Ltac elem := repeat first [by left | right].

Section reconciler_batches.
Context (sid : string) (project : option string).

(** The task-level batch of a run that ended, from a machine state with nothing running. *)
Lemma terminal_task_steps st target p runs :
  run_terminal target = true -> Forall (fun r => a_active r = false) runs ->
  exists st', spec_steps sid project (Build_astate (Some st) p runs) (terminal_task_events sid st target)
                (Build_astate (Some st') p runs).
Proof.
  intros Ht Hq. destruct target; try discriminate Ht; destruct st;
    unfold terminal_task_events, status_in; eval_decides; cbn [andb task_event_for_terminal app];
    eexists; repeat first
      [ by constructor
      | eapply ss_task; [mt|first [left; elem; fail | right; done]|intros _; exact Hq|] ].
Qed.

Lemma set_status_here r t runs : r ∈ runs ->
  Build_arun (a_id r) (a_kind r) (a_subject r) (a_attempt r) t ∈ set_status (a_id r) t runs.
Proof.
  intros Hr. apply list_elem_of_fmap. exists r. by rewrite String.eqb_refl.
Qed.

Lemma set_status_twice rid t t' runs : set_status rid t' (set_status rid t runs) = set_status rid t' runs.
Proof.
  unfold set_status. rewrite map_map. apply map_ext. intros r.
  by destruct (String.eqb (a_id r) rid) eqn:E; cbn; rewrite E.
Qed.

(** When a task-level run ends, nothing is left running. *)
Lemma quiet_after s r t :
  ainv sid s -> r ∈ a_runs s -> a_active r = true -> a_kind r = "task" -> run_terminal t = true ->
  Forall (fun r => a_active r = false) (set_status (a_id r) t (a_runs s)).
Proof.
  intros Hi Hr Ha Hk Ht. apply Forall_forall. intros x Hx.
  destruct (set_status_elem _ _ _ _ Hx) as (y & Hy & _ & _ & _ & _ & [[Hd ->]|[_ E]]).
  - destruct (a_active y) eqn:Ay; [|done]. exfalso. apply Hd. f_equal.
    by eapply task_run_alone.
  - unfold a_active, run_active. by rewrite E, Ht.
Qed.
End reconciler_batches.

Section terminal.
Context (cfg : KernelConfig) (sid : string).

Lemma completion_waiting decision :
  moves_task sid T_WAITING (task_spec "task.waiting" sid (completion_payload decision)).
Proof. apply moves_task_spec; [done|]. left. by eexists. Qed.

Lemma safe_completion_task_spec {B} (k : EventSpec -> prog B) own K Q :
  (forall spec, spec = task_spec "task.succeeded" sid [] \/
     (exists d, spec = task_spec "task.waiting" sid (completion_payload d)) -> safe (k spec) own K Q) ->
  safe (completion_task_spec cfg sid ≫= k) own K Q.
Proof.
  intros Hk. unfold completion_task_spec. destruct (has_completion_authority cfg); cbn [negb].
  - apply safe_assoc, safe_call; [done|]. intros d own' K' [-> ->]. case_bool_decide; cbn; apply Hk; eauto.
  - cbn. apply Hk. by left.
Qed.

(** What the specifications of a terminal transition do to a machine state that holds the run. *)
Definition ends_run (task : TaskState) (run : RunState) (specs : list EventSpec) : Prop :=
  forall s r, ainv sid s -> r ∈ a_runs s -> run_matches sid r (RunState_run run) ->
    a_task s = Some (TaskState_status task) ->
    exists s', spec_steps sid (Task_project_id (TaskState_task task)) s specs s' /\
      map a_id (a_runs s') = map a_id (a_runs s).

(** The prelude and the run's own terminal event lead to a state where the run has ended. *)
Definition run_ended (task : TaskState) (run : RunState) (target : RunStatus) (specs : list EventSpec) : Prop :=
  forall s r, ainv sid s -> r ∈ a_runs s -> run_matches sid r (RunState_run run) ->
    a_task s = Some (TaskState_status task) ->
    spec_steps sid (Task_project_id (TaskState_task task)) s specs
      (Build_astate (Some (if existsb (fun spec => String.eqb (spec_event_type spec) "task.running") specs
                           then T_RUNNING else TaskState_status task))
         (a_project s) (set_status (a_id r) target (a_runs s))) /\ a_active r = true.

Lemma safe_terminal_prelude {B} task run target output meta allow (k : list EventSpec -> prog B) own K Q :
  TaskState_task_id task = sid -> run_terminal target = true ->
  (forall specs, run_ended task run target
     (specs ++ [Build_EventSpec ("run." +:+ enum_value target) "run" (RunState_run_id run)
                  [("output", VMap MDict output)] meta]) -> safe (k specs) own K Q) ->
  safe (terminal_prelude task run target allow ≫= k) own K Q.
Proof.
  intros Hid Ht Hk. unfold terminal_prelude. rewrite Hid. clear Hid.
  set (fin := Build_EventSpec _ _ _ _ _) in Hk.
  assert (forall r, run_matches sid r (RunState_run run) -> moves_run (a_id r) target fin) as Hfin.
  { intros r (_ & E & _). unfold fin, RunState_run_id. rewrite E.
    destruct target; try discriminate Ht; mr. }
  assert (forall specs, specs = [] -> target ∈ RUN_TRANSITIONS (RunState_status run) ->
            run_ended task run target (specs ++ [fin])) as Hdirect.
  { intros specs -> Htr [st p runs] r Hi Hr Hm Est. cbn in *. subst st. pose proof Hm as (_ & _ & _ & _ & _ & _ & Es).
    unfold RunState_status in Htr. rewrite Es in Htr.
    assert (String.eqb ("run." +:+ enum_value target) "task.running" = false) as -> by by destruct target.
    split; [|by eapply active_before]. eapply ss_run; [by apply Hfin|done|done|constructor]. }
  destruct (RunState_status run) eqn:Ers; try done.
  - destruct (negb (bool_decide (target = R_CANCELLED)) || negb allow) eqn:E; [done|]. cbn.
    bool_props. subst target. apply Hk, Hdirect; [done|]. elem.
  - destruct (status_in target [R_SUCCEEDED; R_TIMED_OUT]) eqn:E.
    + cbn. apply Hk. intros [st p runs] r Hi Hr Hm Est. cbn in Hr, Est. subst st.
      pose proof Hm as (_ & Eid & _ & _ & _ & _ & Es). unfold RunState_status in Ers. rewrite Ers in Es.
      unfold RunState_run_id. rewrite Eid.
      assert (String.eqb ("run." +:+ enum_value target) "task.running" = false) as Hne by by destruct target.
      split; [|unfold a_active; by rewrite <- Es].
      pose proof (Hfin r Hm) as Hf. cbn [app].
      eapply ss_run; [mr|done|rewrite <- Es; elem|].
      set (r1 := Build_arun (a_id r) (a_kind r) (a_subject r) (a_attempt r) R_RUNNING).
      assert (target ∈ RUN_TRANSITIONS (a_status r1)) as Ht1.
      { unfold status_in in E. bool_props. table E; subst; elem. }
      case_bool_decide as Est.
      * cbn [app existsb spec_event_type run_spec task_spec orb String.eqb Ascii.eqb Bool.eqb].
        eapply ss_task; [mt|left; rewrite Est; elem|done|].
        eapply (ss_run _ _ _ _ r1); [exact Hf|by apply set_status_here|exact Ht1|].
        rewrite set_status_twice. constructor.
      * cbn [app existsb spec_event_type run_spec orb String.eqb Ascii.eqb Bool.eqb fin]. rewrite Hne. cbn [orb].
        eapply (ss_run _ _ _ _ r1); [exact Hf|by apply set_status_here|exact Ht1|].
        rewrite set_status_twice. constructor.
    + destruct (status_in target [R_FAILED; R_CANCELLED]) eqn:E2; [|done]. cbn.
      apply Hk, Hdirect; [done|]. unfold status_in in E2. bool_props. table E2; subst; elem.
  - cbn. apply Hk, Hdirect; [done|]. destruct target; try discriminate Ht; elem.
Qed.
End terminal.

Section terminal_specs.
Context (cfg : KernelConfig) (sid : string).

Lemma run_ended_ends task run target specs : run_ended sid task run target specs -> ends_run sid task run specs.
Proof.
  intros H s r Hi Hr Hm Est. destruct (H s r Hi Hr Hm Est) as [Hs _].
  eexists. split; [exact Hs|]. apply set_status_ids.
Qed.

(** A task-level run ends, and the task's own events follow in the same batch. *)
Lemma run_ended_task_events task run target specs rest :
  run_ended sid task run target specs -> run_terminal target = true ->
  Run_subject_type (RunState_run run) <> "step" ->
  (forall st p runs,
     st = (if existsb (fun spec => String.eqb (spec_event_type spec) "task.running") specs
           then T_RUNNING else TaskState_status task) ->
     Forall (fun r => a_active r = false) runs ->
     exists st', spec_steps sid (Task_project_id (TaskState_task task)) (Build_astate (Some st) p runs) rest
                   (Build_astate (Some st') p runs)) ->
  ends_run sid task run (specs ++ rest).
Proof.
  intros H Ht Hk Hrest s r Hi Hr Hm Est. destruct (H s r Hi Hr Hm Est) as [Hs Hact].
  assert (a_kind r = "task") as Hkind.
  { destruct Hm as (_ & _ & _ & E & _). rewrite E in Hk. destruct (inv_task_subject _ _ Hi _ Hr) as [[? _]|?]; done. }
  edestruct Hrest as [st' Hst']; [reflexivity|by apply (quiet_after sid s r target)|].
  eexists. split; [eapply spec_steps_app; [exact Hs|exact Hst']|]. apply set_status_ids.
Qed.

Lemma safe_terminal_specs {B} task run target output meta allow (k : list EventSpec -> prog B) own K Q :
  TaskState_task_id task = sid -> run_terminal target = true ->
  (forall specs, ends_run sid task run specs -> safe (k specs) own K Q) ->
  safe (terminal_specs cfg task run target output meta allow ≫= k) own K Q.
Proof.
  intros Hid Ht Hk. unfold terminal_specs. rewrite Hid.
  apply safe_assoc, (safe_terminal_prelude sid task run target output meta); [done..|].
  intros prelude Hended. set (specs := prelude ++ _) in *.
  destruct (String.eqb_spec (Run_subject_type (RunState_run run)) "step") as [E|Hne].
  { cbn. apply Hk. by eapply run_ended_ends. }
  set (st := if existsb _ specs then T_RUNNING else TaskState_status task).
  assert (ends_run sid task run (specs ++ terminal_task_events sid st target)) as Hall.
  { eapply run_ended_task_events; [done..|]. intros st1 p runs -> Hq. by apply terminal_task_steps. }
  case_bool_decide as E; [|cbn; by apply Hk].
  apply safe_assoc, safe_completion_task_spec. intros spec [->|[d ->]]; cbn; apply Hk; [done|].
  eapply run_ended_task_events; [done..|]. intros st1 p runs Est1 Hq.
  unfold status_in. case_bool_decide as Hin; [|eexists; constructor].
  unfold st in Hin. rewrite <- Est1 in Hin. exists T_WAITING.
  eapply ss_task; [apply completion_waiting| |intros ?; done|constructor].
  table Hin; subst; [left; rewrite Hin; elem|right; by rewrite Hin].
Qed.
End terminal_specs.

(** Read the task, and the task and one of its runs. *)
Tactic Notation "read_task" ident(evs) ident(task) :=
  apply safe_get_task; intros evs task ?K ?Hle ?HK ?Hsnap;
  match goal with H : ?K _ = evs |- _ => pose proof (eq_ind_r (fun x => evs `prefix_of` x) (reflexivity evs) H) end.
Tactic Notation "read_task_run" ident(evs) ident(task) ident(run) :=
  read_task evs task; apply (safe_get_run _ _ _ _ _ _ evs); [assumption|];
  intros run ?K ?Hle ?Hpre ?Hrun.

(** ** kernel/lifecycle.py *)

Section reconciler.
Context (cfg : KernelConfig).

Lemma follows_ends own sid evs0 task run rid specs :
  task_snapshot sid evs0 task -> reduce_run evs0 rid = Ok run -> ends_run sid task run specs ->
  follows own sid evs0 (Task_project_id (TaskState_task task)) specs.
Proof.
  intros Hsnap Hrun Hends. apply follows_same. intros s Hs.
  destruct (snapshot_run s rid run Hs Hrun) as (r & Hr & _ & Hm).
  apply (Hends s r); [apply (refines_sim _ _ _ Hs)|done|done|].
  by destruct (snapshot_state Hsnap s Hs).
Qed.

Lemma safe_running_specs {B} sid task run snapshot (k : list EventSpec -> prog B) own K Q :
  TaskState_task_id task = sid ->
  (forall specs, ends_run sid task run specs -> safe (k specs) own K Q) ->
  safe (running_specs task run snapshot ≫= k) own K Q.
Proof.
  intros Hid Hk. unfold running_specs. rewrite Hid.
  case_bool_decide; [cbn; apply Hk; intros s r _ _ _ _; eexists; split; [constructor|done]|].
  destruct (bool_decide (RunState_status run = R_STARTING)) eqn:E; [|done]. bool_props. cbn.
  apply Hk. intros [st p runs] r Hi Hr Hm Est. cbn in Hr, Est. subst st.
  pose proof Hm as (_ & Eid & _ & _ & _ & _ & Es). unfold RunState_status in E. rewrite E in Es.
  unfold RunState_run_id. rewrite Eid.
  case_bool_decide as Est.
  - eexists. split; [eapply ss_run; [mr|done|rewrite <- Es; elem|]|].
    + eapply ss_task; [mt|left; rewrite Est; elem|done|constructor].
    + apply set_status_ids.
  - eexists. split; [eapply ss_run; [mr|done|rewrite <- Es; elem|constructor]|]. apply set_status_ids.
Qed.

(** The events after a backend accepted a dispatched run. *)
Lemma dispatch_ends sid task run handle rid :
  RunState_status run = R_STARTING -> RunState_run_id run = rid ->
  ends_run sid task run
    (Build_EventSpec "run.running" "run" rid
       (match ExecutionHandle_backend_ref handle with Some b => [("backend_ref", VStr b)] | None => [] end)
       (ExecutionHandle_adapter_metadata handle) ::
     (if RunState_recovery_required run then [run_spec "run.recovery_cleared" rid []] else []) ++
     (if bool_decide (TaskState_status task = T_READY) then [task_spec "task.running" sid []] else [])).
Proof.
  intros E <- [st p runs] r Hi Hr Hm Est. cbn in Hr, Est. subst st.
  pose proof Hm as (_ & Eid & _ & _ & _ & _ & Es). unfold RunState_status in E. rewrite E in Es.
  unfold RunState_run_id. rewrite Eid.
  assert (forall st, TaskState_status task = st -> exists st', spec_steps sid (Task_project_id (TaskState_task task))
     (Build_astate (Some (TaskState_status task)) p (set_status (a_id r) R_RUNNING runs))
     ((if RunState_recovery_required run then [run_spec "run.recovery_cleared" (a_id r) []] else []) ++
      (if bool_decide (TaskState_status task = T_READY) then [task_spec "task.running" sid []] else []))
     (Build_astate (Some st') p (set_status (a_id r) R_RUNNING runs))) as H.
  { intros st Hst.
    assert (exists st', spec_steps sid (Task_project_id (TaskState_task task))
       (Build_astate (Some (TaskState_status task)) p (set_status (a_id r) R_RUNNING runs))
       (if bool_decide (TaskState_status task = T_READY) then [task_spec "task.running" sid []] else [])
       (Build_astate (Some st') p (set_status (a_id r) R_RUNNING runs))) as [st' H].
    { case_bool_decide as Hready; [|eexists; constructor]. eexists.
      eapply ss_task; [mt|left; rewrite Hready; elem|done|constructor]. }
    exists st'. destruct (RunState_recovery_required run); [|done]. cbn [app].
    apply ss_note; [|done|done]. intros pr e Hsh. eapply note_run_marker; [exact Hsh|]. right. by left. }
  destruct (H _ eq_refl) as [st' Hst']. eexists. split.
  - eapply ss_run; [|exact Hr|rewrite <- Es; elem|exact Hst'].
    apply moves_run_spec; [done|]. destruct (ExecutionHandle_backend_ref handle); [left; by eexists|by right].
  - apply set_status_ids.
Qed.

Lemma secure_dispatch_started_run task_id rid cause actor source :
  secure (dispatch_started_run cfg task_id rid cause actor source).
Proof.
  intros own K. unfold dispatch_started_run. apply safe_get_task. intros evs0 task K1 _ E1 Hsnap.
  apply (safe_get_run _ _ _ _ _ _ evs0); [by rewrite E1|]. intros run K2 _ H2 _.
  destruct (negb _); [done|].
  eapply safe_append_system_events; [done..| |].
  { intros _. apply (follows_notes Hsnap). constructor; [|done]. intros p e Hsh.
    eapply note_run_marker; [exact Hsh|]. by left. }
  intros es own3 K3 _ Hin Hes. inversion Hes as [|? e ? ? He Hnil]; subst. inversion Hnil; subst. clear Hes Hnil.
  apply safe_get_task. intros evs1 task1 K4 Hle4 E4 Hsnap1.
  apply (safe_get_run _ _ _ _ _ _ evs1); [by rewrite E4|]. intros run1 K5 Hle5 H5 _.
  apply safe_context. intros ctx Hctx. apply safe_lift. intros request Hreq.
  unfold ExecutionRequest_post_init in Hreq. res_inv.
  apply safe_call.
  { exists e. cbn. rewrite Hctx, (snapshot_id Hsnap1). split_and!; [|apply He..].
    eapply elem_of_prefix; [|apply Hle5]. eapply elem_of_prefix; [|apply Hle4]. apply Hin. by left. }
  intros handle own6 K6 [-> ->]. apply safe_guard. intros _.
  apply safe_get_task. intros evs2 task2 K7 _ E7 Hsnap2.
  apply (safe_get_run _ _ _ _ _ _ evs2); [by rewrite E7|]. intros run2 K8 Hle8 H8 Hrun2.
  destruct (bool_decide (RunState_status run2 = R_STARTING)) eqn:Est; [|done]. bool_props. cbn [negb].
  eapply safe_last, safe_append_system_events; [done..| |done].
  intros E. eapply follows_ends; [done|by apply Hrun2|]. apply dispatch_ends; [done|].
  eapply snapshot_run_id; [done|by apply Hrun2].
Qed.

Lemma secure_mark_recovery_required task_id rid reason cause :
  secure (mark_recovery_required cfg task_id rid reason cause).
Proof.
  intros own K. unfold mark_recovery_required. read_task_run evs0 task run.
  destruct (RunState_recovery_required run); [done|].
  eapply safe_last, safe_append_system_events; [done..| |done].
  intros _. apply (follows_notes Hsnap). constructor; [|done]. intros p e Hsh.
  eapply note_run_marker; [exact Hsh|]. right. right. split; [done|by eexists].
Qed.

Lemma secure_clear_recovery_if_needed task_id rid cause source :
  secure (clear_recovery_if_needed cfg task_id rid cause source).
Proof.
  intros own K. unfold clear_recovery_if_needed. read_task_run evs0 task run.
  destruct (negb (RunState_recovery_required run)); [done|].
  eapply safe_last, safe_append_system_events; [done..| |done].
  intros _. apply (follows_notes Hsnap). constructor; [|done]. intros p e Hsh.
  eapply note_run_marker; [exact Hsh|]. right. by left.
Qed.

(** A terminal transition of a run read after its task. *)
Lemma safe_apply_terminal_command sid evs0 task run rid target output key operation actor source meta allow own K :
  task_snapshot sid evs0 task -> evs0 `prefix_of` K sid ->
  (K sid = evs0 -> reduce_run evs0 rid = Ok run) -> run_terminal target = true ->
  safe (apply_terminal_command cfg task run target output key operation actor source meta allow)
    own K (fun _ _ _ => True).
Proof.
  intros Hsnap H0 Hrun Ht. unfold apply_terminal_command.
  apply (safe_terminal_specs cfg sid); [by apply (snapshot_id Hsnap)|done|]. intros specs Hends.
  eapply safe_commit_task_command; [done..| |done].
  intros E. eapply follows_ends; [done|by apply Hrun|done].
Qed.

Lemma safe_apply_terminal_system sid evs0 task run rid target output cause source meta own K :
  task_snapshot sid evs0 task -> evs0 `prefix_of` K sid ->
  (K sid = evs0 -> reduce_run evs0 rid = Ok run) -> run_terminal target = true ->
  safe (apply_terminal_system cfg task run target output cause source meta) own K (fun _ _ _ => True).
Proof.
  intros Hsnap H0 Hrun Ht. unfold apply_terminal_system.
  destruct (run_terminal (RunState_status run)); [by apply secure_guard|].
  apply (safe_terminal_specs cfg sid); [by apply (snapshot_id Hsnap)|done|]. intros specs Hends.
  eapply safe_last, safe_append_system_events; [done..| |done].
  intros E. eapply follows_ends; [done|by apply Hrun|done].
Qed.

Lemma execution_target status target : TERMINAL_EXECUTION_TO_RUN status = Ok target -> run_terminal target = true.
Proof. destruct status; intros [= <-]; reflexivity. Qed.

Lemma secure_apply_snapshot_command task_id rid snapshot key operation actor source :
  secure (apply_snapshot_command cfg task_id rid snapshot key operation actor source).
Proof.
  intros own K. unfold apply_snapshot_command, wrong_run. apply safe_guard. intros _.
  read_task_run evs0 task run.
  case_bool_decide.
  { eapply safe_commit_task_command; [done..| |done]. intros _. by apply (follows_plain Hsnap). }
  case_bool_decide.
  { apply (safe_running_specs task_id); [by apply (snapshot_id Hsnap)|]. intros specs Hends.
    destruct specs as [|spec specs]; (eapply safe_commit_task_command; [done..| |done]).
    - intros _. by apply (follows_plain Hsnap).
    - intros E. eapply follows_ends; [done|by apply Hrun|done]. }
  apply safe_lift. intros target Htarget. eapply safe_apply_terminal_command; [done..|].
  by eapply execution_target.
Qed.

Lemma secure_apply_snapshot_system task_id rid snapshot cause source :
  secure (apply_snapshot_system cfg task_id rid snapshot cause source).
Proof.
  intros own K. unfold apply_snapshot_system, wrong_run. apply safe_guard. intros _.
  read_task_run evs0 task run.
  case_bool_decide; [done|]. case_bool_decide.
  { apply (safe_running_specs task_id); [by apply (snapshot_id Hsnap)|]. intros specs Hends.
    destruct specs as [|spec specs]; [apply secure_clear_recovery_if_needed|].
    eapply safe_append_system_events; [done..| |].
    - intros E. eapply follows_ends; [done|by apply Hrun|done].
    - intros es own' K' _ _ _. apply secure_clear_recovery_if_needed. }
  apply safe_lift. intros target Htarget. eapply safe_apply_terminal_system; [done..|].
  by eapply execution_target.
Qed.

Lemma secure_backend_snapshot rid ctx : secure (backend_snapshot rid ctx).
Proof.
  apply secure_seq; [apply secure_attempt; by apply secure_call|].
  intros [snapshot|e]; [done|]. by destruct (has_code _ _).
Qed.

Lemma secure_reconcile_started_run task_id rid cause : secure (reconcile_started_run cfg task_id rid cause).
Proof.
  intros own K. unfold reconcile_started_run. read_task_run evs0 task run.
  destruct (negb _); [done|]. apply safe_context. intros ctx _.
  apply secure_bind; [apply secure_backend_snapshot|]. intros [snapshot|] own' K'.
  - apply secure_apply_snapshot_system.
  - case_bool_decide; [apply secure_dispatch_started_run|apply secure_mark_recovery_required].
Qed.

Lemma secure_finish_cancel task_id rid cause : secure (finish_cancel cfg task_id rid cause).
Proof.
  intros own K. unfold finish_cancel. read_task_run evs0 task run.
  destruct (run_terminal _); [done|]. apply safe_context. intros ctx _.
  apply safe_call; [done|]. intros snapshot own' K' _. apply secure_apply_snapshot_system.
Qed.
End reconciler.
