(* ===== verification/CommandSafety.v ===== *)
(** * Every command of the kernel is secure

    Planning, run commands, task commands, recovery, task mutations and observed attachments, each
    proved from the rules of Interference.v and the batches of Refinement.v. *)

From S2P Require Import Prelude PyValue Errors Freeze Ident Lifecycle Domain Contracts EventStore.
From S2P Require Import Projection Effects CommitSupport KernelLifecycle Planning RunCommands.
From S2P Require Import TaskCommands Recovery TaskMutations Machine Stream.
From S2P Require Import Interference Refinement.

(** A loop whose body neither reads nor commits, with a fact about every result. *)
Lemma safe_for_each {A B C} (f : A -> prog B) (P : B -> Prop) l (k : list B -> prog C) own K Q :
  (forall a own, safe (f a) own K (fun b _ K' => P b /\ K' = K)) ->
  (forall own bs, Forall P bs -> safe (k bs) own K Q) ->
  safe (for_each f l ≫= k) own K Q.
Proof.
  intros Hf. revert k own. induction l as [|a l IH]; intros k own Hk; cbn [for_each].
  - cbn. by apply Hk.
  - apply safe_assoc, safe_bind. eapply safe_mono; [apply Hf|]. intros b own' K' [Hb ->].
    apply safe_assoc, IH. intros own2 bs Hbs. cbn. apply Hk. by constructor.
Qed.

Lemma secure_get_task' sid : secure (_ ← get_task sid; Ret tt).
Proof. apply secure_seq; [apply secure_get_task|]. done. Qed.

(** Finding no active run means that the machine is quiet. *)
Lemma find_none_quiet sid evs0 task s :
  task_snapshot sid evs0 task -> refines sid evs0 s ->
  (forall rid, rid ∈ rev (TaskState_run_ids task) ->
     exists run, reduce_run evs0 rid = Ok run /\ run_is_active run = false) -> quiet s.
Proof.
  intros Hsnap Hs Hall. eapply snapshot_quiet; [done|done|]. intros rid Hr. apply Hall.
  apply list_elem_of_In, in_rev. rewrite rev_involutive. by apply list_elem_of_In.
Qed.

Section planning.
Context (cfg : KernelConfig).

Lemma secure_plan_task key task_id actor source : secure (plan_task cfg key task_id actor source).
Proof.
  intros own K. unfold plan_task. read_task evs0 task. apply safe_task_command. intros [r|].
  { apply secure_get_task. }
  apply safe_guard. intros _.
  unfold latest_active_run. rewrite (snapshot_id Hsnap).
  apply (safe_find_run _ _ _ _ _ _ _ evs0); [done|]. intros found K2 _ H2 _.
  apply secure_bind_pure. destruct found; [done|].
  apply safe_context. intros ctx _. apply safe_lift. intros request _.
  apply safe_call; [done|]. intros proposal own3 K3 [-> ->].
  apply safe_lift. intros prov _. unfold canonical_plan. apply safe_assoc, safe_new_id. intros u Hu.
  apply safe_assoc, safe_now. intros now. apply safe_lift. intros plan Hplan.
  unfold Plan_post_init in Hplan. res_inv. unfold draw_step_ids.
  apply (safe_for_each _ (fun _ => True)).
  { intros step own4. apply safe_new_id. intros u' _. done. }
  intros own4 step_ids _.
  apply (safe_for_each _ (fun st => valid_step (Step_id st))).
  { intros step own5. unfold canonical_step. apply safe_lift. intros id _. apply safe_lift. intros deps _.
    apply safe_now. intros n1. apply safe_now. intros n2.
    match goal with |- context [Step_post_init ?x] => destruct (Step_post_init x) eqn:E end; cbn; [|done].
    split; [|done]. unfold Step_post_init in E. res_inv. cbn in *. unfold valid_step.
    match goal with Hx : validate_id _ "step" = Ok ?v |- _ => by rewrite (validate_id_ok_eq _ _ _ Hx) in Hx end. }
  intros own5 steps Hsteps.
  eapply safe_commit_task_command; [done..| |].
  - intros _. apply (follows_notes Hsnap). constructor; [|done]. intros p e Hsh.
    eapply (note_plan _ _ _ _ (id_of_uuid "plan" u) (map Step_id steps)); [exact Hsh|reflexivity|reflexivity|reflexivity|reflexivity|done| |].
    + cbn. by rewrite map_map.
    + by apply Forall_map.
  - intros r own6 K6 _. apply secure_get_task.
Qed.
End planning.

(** ** Creating runs *)

Section creation.
Context (sid : string) (evs0 : list Event) (task : TaskState) (Hsnap : task_snapshot sid evs0 task).

Lemma snapshot_runs s all :
  refines sid evs0 s ->
  Forall2 (fun rid run => reduce_run evs0 rid = Ok run) (TaskState_run_ids task) all ->
  Forall2 (fun r run => run_matches sid r (RunState_run run)) (a_runs s) all.
Proof.
  intros Hs Hall. destruct (snapshot_state Hsnap s Hs) as (_ & _ & Hids & _). rewrite Hids in Hall.
  apply Forall2_fmap_l in Hall.
  apply Forall2_same_length_lookup_2; [by eapply Forall2_length|]. intros i r run Hi Hj.
  pose proof (Forall2_lookup_lr _ _ _ _ _ _ Hall Hi Hj) as Hrun. cbn in Hrun.
  apply list_elem_of_lookup_2 in Hi as Hr.
  destruct (snapshot_run s _ run Hs Hrun) as (r' & Hr' & E & Hm).
  by assert (r' = r) as -> by (eapply NoDup_id_inj; [apply (refines_sim _ _ _ Hs)|done..]).
Qed.

Lemma attempts_read s all kind subject :
  Forall2 (fun r run => run_matches sid r (RunState_run run)) (a_runs s) all ->
  foldl (fun latest run => Z.max latest (RunState_attempt run)) 0%Z
    (List.filter (run_for_subject kind subject) all) = latest (attempts kind subject (a_runs s)).
Proof.
  intros Hall. unfold latest, attempts. generalize 0%Z as n.
  induction Hall as [|r run runs all Hm Hall IH]; intros n; [done|]. cbn.
  destruct Hm as (_ & _ & _ & E1 & E2 & E3 & _).
  unfold run_for_subject, same_subject. rewrite E1, E2.
  destruct (_ && _); cbn; rewrite IH; [|done]. unfold RunState_attempt. by rewrite E3.
Qed.

(** A specification that creates a run, from a state where its guards hold. *)
Lemma ss_run_new s st spec rid kind subject n :
  spec_event_type spec = "run.created" -> spec_subject_type spec = "run" -> spec_subject_id spec = rid ->
  run_payload sid kind subject n (spec_payload spec) -> sid <> "" ->
  n = (latest (attempts kind subject (a_runs s)) + 1)%Z ->
  validate_subject_id kind subject = Ok subject ->
  a_task s = Some st -> st ∈ allowed_task_statuses kind ->
  kind = "task" /\ subject = sid \/ kind = "step" ->
  rid ∉ map a_id (a_runs s) ->
  (forall r, r ∈ a_runs s -> a_active r = true -> a_kind r = kind /\ a_subject r <> subject) ->
  spec_steps sid (Task_project_id (TaskState_task task)) s [spec]
    (Build_astate (a_task s) (a_project s) (a_runs s ++ [Build_arun rid kind subject n R_QUEUED])).
Proof.
  intros. eapply spec_steps_cons; [|constructor]. intros evs e Hsim Hsh. exists (LRunNew rid kind subject n).
  by eapply (step_run_new Hsim Hsh).
Qed.

Lemma created_payload s kind subject n :
  refines sid evs0 s -> run_payload sid kind subject n (run_created_payload task kind subject n).
Proof.
  intros Hs. destruct (snapshot_state Hsnap s Hs) as (_ & _ & _ & (_ & _ & Ho1 & Ho2) & _).
  unfold run_created_payload. rewrite (snapshot_id Hsnap). split; cbn; eauto.
Qed.

Lemma snapshot_nonempty : sid <> "".
Proof.
  destruct (snap_legal _ _ _ Hsnap) as [s Hs].
  destruct (snapshot_state Hsnap s Hs) as (_ & _ & _ & (Hpi & Hid & _) & _).
  apply Task_post_init_ok in Hpi as (Hv & _). rewrite Hid in Hv. by eapply validate_id_nonempty.
Qed.

Lemma snapshot_task_subject : validate_subject_id "task" sid = Ok sid.
Proof.
  destruct (snap_legal _ _ _ Hsnap) as [s Hs].
  destruct (snapshot_state Hsnap s Hs) as (_ & _ & _ & (Hpi & Hid & _) & _).
  apply Task_post_init_ok in Hpi as (Hv & _). by rewrite Hid in Hv.
Qed.

Lemma new_from_snoc own s r u :
  a_id r = id_of_uuid "run" u -> u ∈ own ->
  new_from own s (Build_astate (a_task s) (a_project s) (a_runs s ++ [r])).
Proof.
  intros E Hu x Hx. cbn in Hx. rewrite map_app in Hx. cbn in Hx.
  apply elem_of_app in Hx as [Hx|Hx%list_elem_of_singleton]; [by left|]. right. exists u. split; congruence.
Qed.
End creation.

(** A subject that is accepted as a member of the plan is a step. *)
Lemma step_subject_kind kind subject :
  validate_subject_id kind subject = Ok subject -> valid_step subject -> kind = "step".
Proof.
  unfold validate_subject_id, valid_step. intros Hk Hs.
  destruct (dict_get kind CANONICAL_SUBJECT_PREFIXES) as [prefix|] eqn:E; [|done].
  assert (prefix = "step") as -> by by eapply canonical_prefix_unique.
  apply dict_get_in in E. unfold CANONICAL_SUBJECT_PREFIXES in E.
  repeat (apply elem_of_cons in E as [E|E]; [by injection E|]). by apply elem_of_nil in E.
Qed.

Lemma safe_validate_run_subject {B} sid evs0 task kind subject (k : unit -> prog B) own K Q :
  task_snapshot sid evs0 task -> validate_subject_id kind subject = Ok subject ->
  (kind = "task" /\ subject = sid \/ kind = "step" -> safe (k tt) own K Q) ->
  safe (validate_run_subject task kind subject ≫= k) own K Q.
Proof.
  intros Hsnap Hv Hk. unfold validate_run_subject. rewrite (snapshot_id Hsnap).
  destruct (String.eqb_spec kind "task") as [->|_].
  - apply safe_guard. intros E%String.eqb_eq. auto.
  - destruct (TaskState_plan_ref task); [|done]. apply safe_guard. intros Hin%in_strs_true. apply Hk. right.
    eapply step_subject_kind; [done|].
    pose proof (reduce_task_steps _ _ _ (snap_reduce _ _ _ Hsnap)) as Hall.
    rewrite Forall_forall in Hall. by apply Hall.
Qed.

Lemma validate_subject_ok kind v x : validate_subject_id kind v = Ok x -> validate_subject_id kind v = Ok v.
Proof.
  intros H. rewrite H. f_equal. unfold validate_subject_id in H.
  destruct (dict_get kind _); [by eapply validate_id_ok_eq|done].
Qed.

(** ** kernel/run_commands.py *)

Section run_commands.
Context (cfg : KernelConfig).

(** The guards of [create_run], translated to the machine. *)
Lemma create_run_guards sid evs0 task s kind subject active :
  task_snapshot sid evs0 task -> refines sid evs0 s ->
  (exists all, Forall2 (fun rid run => reduce_run evs0 rid = Ok run) (TaskState_run_ids task) all /\
     active = List.filter run_is_active all) ->
  negb (negb (bool_decide (map (fun run => Run_subject_type (RunState_run run)) active = [])) &&
        negb (in_strs kind (map (fun run => Run_subject_type (RunState_run run)) active))) = true ->
  (forall rid, rid ∈ rev (TaskState_run_ids task) -> exists run, reduce_run evs0 rid = Ok run /\
     run_for_subject kind subject run && run_is_active run = false) ->
  forall r, r ∈ a_runs s -> a_active r = true -> a_kind r = kind /\ a_subject r <> subject.
Proof.
  intros Hsnap Hs (all & Hall & ->) Hmodes Hnone r Hr Hact.
  pose proof (snapshot_runs _ _ _ Hsnap s all Hs Hall) as Hmatch.
  assert (forall r, r ∈ a_runs s -> a_active r = true -> exists run, run ∈ List.filter run_is_active all /\
            run_matches sid r (RunState_run run)) as Hin.
  { intros x Hx Hxa. apply list_elem_of_lookup_1 in Hx as [i Hi].
    destruct (Forall2_lookup_l _ _ _ _ _ Hmatch Hi) as (run & Hj & Hm). exists run. split; [|done].
    apply list_elem_of_In, filter_In. split; [apply list_elem_of_In; by eapply list_elem_of_lookup_2|].
    destruct Hm as (_ & _ & _ & _ & _ & _ & E). unfold run_is_active, RunState_status. rewrite E. exact Hxa. }
  assert (a_kind r = kind) as Hkind.
  { destruct (Hin r Hr Hact) as (run & Hrun & Hm).
    apply negb_true_iff, andb_false_iff in Hmodes as [H|H]; bool_props.
    - apply list_elem_of_In in Hrun. destruct (List.filter run_is_active all); [by destruct Hrun|done].
    - apply in_strs_true, list_elem_of_fmap in H as (run' & -> & Hrun').
      apply list_elem_of_In, filter_In in Hrun' as [Hrun'%list_elem_of_In Hact'].
      apply list_elem_of_lookup_1 in Hrun' as [j Hj].
      destruct (Forall2_lookup_r _ _ _ _ _ Hmatch Hj) as (r' & Hi & Hm').
      apply list_elem_of_lookup_2 in Hi.
      destruct Hm' as (_ & _ & _ & -> & _ & _ & E).
      refine (proj1 (inv_modes _ _ (sim_inv _ _ _ (refines_sim _ _ _ Hs)) r r' Hr Hi Hact _)).
      unfold a_active. rewrite <- E. exact Hact'. }
  split; [done|]. intros Hsub. destruct (Hnone (a_id r)) as (run & Hrun & Hfalse).
  { apply list_elem_of_In, in_rev. rewrite rev_involutive. apply list_elem_of_In.
    destruct (snapshot_state Hsnap s Hs) as (_ & _ & -> & _). apply list_elem_of_fmap. by exists r. }
  destruct (snapshot_run s _ run Hs Hrun) as (r' & Hr' & E & Hm).
  assert (r' = r) as -> by (eapply NoDup_id_inj; [apply (refines_sim _ _ _ Hs)|done..]).
  destruct Hm as (_ & _ & _ & E1 & E2 & _ & E3).
  unfold run_for_subject, run_is_active, RunState_status in Hfalse.
  rewrite E1, E2, E3, Hkind, Hsub, !String.eqb_refl in Hfalse. unfold a_active, run_active in Hact. by rewrite Hact in Hfalse.
Qed.

Lemma safe_next_attempt {B} sid evs0 task kind subject (k : Z -> prog B) own K Q :
  task_snapshot sid evs0 task -> evs0 `prefix_of` K sid ->
  (forall n K1, kle K K1 -> evs0 `prefix_of` K1 sid ->
     (K1 sid = evs0 -> forall s, refines sid evs0 s -> n = (latest (attempts kind subject (a_runs s)) + 1)%Z) ->
     safe (k n) own K1 Q) ->
  safe (next_attempt task kind subject ≫= k) own K Q.
Proof.
  intros Hsnap H0 Hk. unfold next_attempt. rewrite (snapshot_id Hsnap).
  apply safe_assoc, (safe_collect_runs _ _ _ _ _ _ _ evs0); [done|]. intros runs K1 Hle H1 Hruns.
  cbn. apply Hk; [done..|]. intros E s Hs. destruct (Hruns E) as (all & Hall & ->). f_equal.
  eapply attempts_read, snapshot_runs; done.
Qed.

Lemma secure_create_run key task_id kind subject_id actor source :
  secure (create_run cfg key task_id kind subject_id actor source).
Proof.
  intros own K. unfold create_run. read_task evs0 task. apply safe_task_command. intros [r|].
  { apply secure_get_run. }
  cbv zeta. set (subject := or_else subject_id task_id).
  apply safe_lift. intros v Hv%validate_subject_ok.
  eapply safe_validate_run_subject; [done..|]. intros Hkind.
  apply safe_guard. intros Hstatus. unfold status_in in Hstatus. bool_props.
  unfold active_runs, active_run_for_subject. rewrite (snapshot_id Hsnap).
  apply (safe_collect_runs _ _ _ _ _ _ _ evs0); [done|]. intros active K1 Hle1 H1 Hactive.
  apply safe_guard. intros Hmodes.
  apply (safe_find_run _ _ _ _ _ _ _ evs0); [done|]. intros found K2 Hle2 H2 Hfound.
  apply secure_bind_pure. destruct found; [done|].
  apply safe_new_id. intros u Hu.
  eapply safe_next_attempt; [done..|]. intros n K3 Hle3 H3 Hn.
  apply safe_now. intros n1. apply safe_now. intros n2. apply safe_lift. intros _ _.
  eapply safe_commit_task_command; [done..| |].
  - intros E s Hs Hfresh. assert (K2 task_id = evs0) as E2 by by eapply unchanged.
    assert (K1 task_id = evs0) as E1 by by eapply unchanged.
    destruct (snapshot_state Hsnap s Hs) as (Est & _).
    eexists. split.
    + eapply (ss_run_new task_id task s _ _ _ kind subject n); try reflexivity.
      * exact (created_payload task_id evs0 task Hsnap s kind subject n Hs).
      * by eapply snapshot_nonempty.
      * by apply Hn.
      * done.
      * exact Est.
      * done.
      * exact Hkind.
      * apply Hfresh. by left.
      * eapply create_run_guards; [done|done|by apply Hactive|done|]. intros rid Hrid. by apply Hfound.
    + eapply new_from_snoc; [reflexivity|by left].
  - intros r own4 K4 _. apply secure_get_run.
Qed.

Lemma secure_retry_task key task_id actor source : secure (retry_task cfg key task_id actor source).
Proof.
  intros own K. unfold retry_task. read_task evs0 task. apply safe_task_command. intros [r|].
  { apply secure_get_run. }
  apply safe_guard. intros Hstatus. bool_props.
  unfold latest_active_run. rewrite (snapshot_id Hsnap).
  apply (safe_find_run _ _ _ _ _ _ _ evs0); [done|]. intros found K2 Hle2 H2 Hfound.
  apply secure_bind_pure. destruct found; [done|].
  apply safe_new_id. intros u Hu. eapply safe_next_attempt; [done..|]. intros n K3 Hle3 H3 Hn.
  eapply safe_commit_task_command; [done..| |intros r own4 K4 _; apply secure_get_run].
  intros E s Hs Hfresh. assert (K2 task_id = evs0) as E2 by by eapply unchanged.
  destruct (snapshot_state Hsnap s Hs) as (Est & _).
  assert (quiet s) as Hq.
  { eapply find_none_quiet; [done..|]. intros rid Hr. by apply Hfound. }
  specialize (Hn E s Hs). pose proof (created_payload _ _ _ Hsnap s "task" task_id n Hs) as Hp.
  destruct s as [st p runs]. cbn in Est, Hfresh, Hn. rewrite Hstatus in Est. subst st.
  eexists. split.
  - eapply ss_task; [mt|left; elem|done|].
    eapply (ss_run_new task_id task (Build_astate (Some T_READY) p runs) _ _ _ "task" task_id n); try reflexivity.
    + exact Hp.
    + by eapply snapshot_nonempty.
    + done.
    + by eapply snapshot_task_subject.
    + elem.
    + by left.
    + apply Hfresh. by left.
    + intros r Hr Hact. unfold quiet in Hq. rewrite Forall_forall in Hq. rewrite (Hq r Hr) in Hact. done.
  - apply (new_from_snoc _ (Build_astate (Some T_FAILED) p runs) _ u); [reflexivity|by left].
Qed.

Lemma secure_start_run key task_id rid actor source : secure (start_run cfg key task_id rid actor source).
Proof.
  intros own K. unfold start_run. read_task_run evs0 task run. apply safe_task_command. intros [r|].
  { apply safe_guard. intros _. destruct (status_in _ _).
    - apply secure_bind; [apply secure_reconcile_started_run|]. intros ? ? ?. apply secure_get_run.
    - apply secure_get_run. }
  apply safe_guard. intros _. unfold active_runs. rewrite (snapshot_id Hsnap).
  apply (safe_collect_runs _ _ _ _ _ _ _ evs0); [done|]. intros active K2 Hle2 H2 _.
  apply safe_guard. intros _. apply safe_guard. intros Hq. bool_props.
  eapply safe_commit_task_command; [done..| |].
  - intros E. assert (K1 task_id = evs0) as E1 by by eapply unchanged. specialize (Hrun E1).
    apply follows_same. intros s Hs. destruct (snapshot_state Hsnap s Hs) as (Est & _).
    destruct (snapshot_run s rid run Hs Hrun) as (r & Hr & <- & Hm).
    destruct Hm as (_ & _ & _ & _ & _ & _ & Ers). unfold RunState_status in Hq. rewrite Hq in Ers.
    destruct s as [st p runs]. cbn in Est, Hr. subst st. eexists. split.
    + eapply ss_run; [mr|exact Hr|rewrite <- Ers; elem|constructor].
    + apply set_status_ids.
  - intros c own3 K3 _. apply secure_bind; [apply secure_dispatch_started_run|].
    intros ? ? ?. apply secure_get_run.
Qed.

Lemma secure_start_task key task_id actor source : secure (start_task cfg key task_id actor source).
Proof.
  intros own K. unfold start_task. read_task evs0 task. apply safe_existing_command. intros [r|].
  { apply secure_start_run. }
  apply safe_guard. intros _. apply secure_bind.
  - destruct (TaskState_plan_ref task); [done|]. apply secure_seq; [apply secure_plan_task|done].
  - intros ? ? ?. apply secure_bind; [apply secure_create_run|]. intros ? ? ?. apply secure_start_run.
Qed.

Lemma secure_refresh_run key task_id rid actor source : secure (refresh_run cfg key task_id rid actor source).
Proof.
  intros own K. unfold refresh_run. read_task_run evs0 task run. apply safe_task_command. intros [r|].
  { apply secure_get_run. }
  destruct (run_terminal _).
  { eapply safe_commit_task_command; [done..| |intros; apply secure_get_run].
    intros _. by apply (follows_plain Hsnap). }
  apply safe_context. intros ctx _. apply secure_bind; [apply secure_backend_snapshot|].
  intros [snapshot|] own2 K2.
  - apply secure_bind; [apply secure_apply_snapshot_command|]. intros; apply secure_get_run.
  - apply secure_bind; [apply secure_mark_recovery_required|]. intros _ own3 K3.
    read_task evs1 task1. eapply safe_commit_task_command; [done..| |intros; apply secure_get_run].
    intros _. by apply (follows_plain Hsnap0).
Qed.

Lemma secure_record_run_outcome_once key task_id rid status output actor source meta :
  run_terminal status = true ->
  secure (record_run_outcome_once cfg key task_id rid status output actor source meta).
Proof.
  intros Hst own K. unfold record_run_outcome_once. read_task_run evs0 task run. apply safe_task_command. intros [r|].
  { apply secure_get_run. }
  destruct (run_terminal (RunState_status run)).
  - apply safe_guard. intros _. eapply safe_commit_task_command; [done..| |intros; apply secure_get_run].
    intros _. by apply (follows_plain Hsnap).
  - apply safe_guard. intros _. apply safe_bind.
    eapply safe_mono; [by eapply safe_apply_terminal_command|]. intros; apply secure_get_run.
Qed.

Lemma secure_retry_stale {A} n last (once : prog A) : secure once -> secure (retry_stale n last once).
Proof.
  intros Hp. revert last. induction n as [|n IH]; intros last; cbn [retry_stale]; [done|].
  apply secure_catch; [done|]. intros e. by destruct (is_stale_revision_conflict e).
Qed.

Lemma secure_record_run_outcome key task_id rid status output actor source meta :
  secure (record_run_outcome cfg key task_id rid status output actor source meta).
Proof.
  intros own K. unfold record_run_outcome. apply safe_guard. intros Hst.
  by apply secure_retry_stale, secure_record_run_outcome_once.
Qed.

Lemma secure_cancel_run key task_id rid actor source : secure (cancel_run cfg key task_id rid actor source).
Proof.
  intros own K. unfold cancel_run. read_task_run evs0 task run. apply safe_task_command. intros [r|].
  { destruct (negb _); [|apply secure_get_run].
    apply secure_bind; [apply secure_finish_cancel|]. intros; apply secure_get_run. }
  destruct (run_terminal (RunState_status run)).
  { eapply safe_commit_task_command; [done..| |intros; apply secure_get_run].
    intros _. by apply (follows_plain Hsnap). }
  case_bool_decide.
  { apply safe_bind. eapply safe_mono; [by eapply safe_apply_terminal_command|]. intros; apply secure_get_run. }
  apply safe_guard. intros _. eapply safe_commit_task_command; [done..| |].
  - intros _. by apply (follows_plain Hsnap).
  - intros c own2 K2 _. apply secure_bind; [apply secure_finish_cancel|]. intros; apply secure_get_run.
Qed.

Lemma secure_invalidate task_id : secure (invalidate_completion_subject cfg task_id).
Proof.
  unfold invalidate_completion_subject. destruct (has_async_authority cfg); [by apply secure_call|].
  destruct (_ && _); [by apply secure_call|done].
Qed.

(** Both attachment commands, by their event type and payload key. *)
Lemma safe_attach sid evs0 task key operation etype output_key output_id run_id actor source own K
    (etype_ok : etype = "artifact.attached" /\ output_key = "artifact_id" \/
                etype = "result.attached" /\ output_key = "result_id") :
  task_snapshot sid evs0 task -> evs0 `prefix_of` K sid -> output_id <> "" ->
  safe (subject ← attachment_subject sid run_id;
        _ ← invalidate_completion_subject cfg sid;
        _ ← commit_task_command cfg task key operation
              [Build_EventSpec etype subject.1 subject.2
                 [("task_id", VStr sid); (output_key, VStr output_id)] []] subject.2 actor source;
        get_task sid) own K (fun _ _ _ => True).
Proof.
  intros Hsnap H0 Hne.
  assert (forall subject own K, evs0 `prefix_of` K sid ->
    safe (_ ← invalidate_completion_subject cfg sid;
          _ ← commit_task_command cfg task key operation
                [Build_EventSpec etype subject.1 subject.2
                   [("task_id", VStr sid); (output_key, VStr output_id)] []] subject.2 actor source;
          get_task sid) own K (fun _ _ _ => True)) as H.
  { intros subject own1 K1 H1. apply safe_bind.
    assert (safe (invalidate_completion_subject cfg sid) own1 K1 (fun _ _ K' => K' = K1)) as Hinv.
    { unfold invalidate_completion_subject. destruct (has_async_authority cfg).
      - apply safe_last, safe_call; [done|]. by intros ? ? ? [-> ->].
      - destruct (_ && _); [|done]. apply safe_last, safe_call; [done|]. by intros ? ? ? [-> ->]. }
    eapply safe_mono; [exact Hinv|]. intros _ own2 K2 ->.
    eapply safe_commit_task_command; [done..| |intros; apply secure_get_task].
    intros _. apply (follows_notes Hsnap). constructor; [|done]. intros p e Hsh.
    eapply note_attachment; [exact Hsh|]. destruct etype_ok as [[-> ->]|[-> ->]]; [left|right];
      (split; [reflexivity|]; exists output_id; split; [reflexivity|exact Hne]). }
  unfold attachment_subject. destruct run_id as [rid|]; [|exact (H ("task", sid) own K H0)].
  apply safe_assoc, (safe_get_run _ _ _ _ _ _ evs0); [done|]. intros run K1 Hle1 H1 _.
  exact (H ("run", rid) own K1 H1).
Qed.

Lemma secure_attach_artifact key task_id artifact_id run_id actor source :
  secure (attach_artifact cfg key task_id artifact_id run_id actor source).
Proof.
  intros own K. unfold attach_artifact. apply safe_lift. intros v Hv. read_task evs0 task.
  apply safe_task_command. intros [r|]; [apply secure_get_task|].
  apply (safe_attach task_id evs0 task); [by left|done..|by eapply validate_id_nonempty].
Qed.

Lemma secure_attach_result key task_id result_id run_id actor source :
  secure (attach_result cfg key task_id result_id run_id actor source).
Proof.
  intros own K. unfold attach_result. apply safe_lift. intros v Hv. read_task evs0 task.
  apply safe_task_command. intros [r|]; [apply secure_get_task|].
  apply (safe_attach task_id evs0 task); [by right|done..|by eapply validate_id_nonempty].
Qed.
End run_commands.
