(* ===== verification/TaskSafety.v ===== *)
(** * Task commands, recovery, mutations and observed attachments are secure *)

From S2P Require Import Prelude PyValue Errors Freeze Ident Lifecycle Domain Contracts EventStore.
From S2P Require Import Projection Effects CommitSupport KernelLifecycle Planning RunCommands.
From S2P Require Import TaskCommands Recovery TaskMutations Machine Stream.
From S2P Require Import Interference Refinement CommandSafety.

(** ** kernel/task_commands.py *)

Section task_commands.
Context (cfg : KernelConfig).

Lemma blank_empty s : blank s = false -> s <> "".
Proof. by intros H ->. Qed.

Lemma secure_create_task key title objective owner_type owner_id project task_id actor source :
  secure (create_task cfg key title objective owner_type owner_id project task_id actor source).
Proof.
  intros own K. unfold create_task, require_key. apply safe_guard. intros _. apply safe_existing_command.
  intros [r|]; [apply secure_get_task|].
  apply safe_guard. intros Hblank. bool_props. apply safe_guard. intros Howner.
  assert (owner_type <> "") as Hot by by intros ->.
  assert (forall sid own K, safe
    (_ ← lift (validate_id sid "task");
    created_at ← utc_now;
    updated_at ← utc_now;
    _ ← lift (Task_post_init
          (Build_Task title (Build_OwnerRef owner_type owner_id) sid T_DRAFT None project
             objective (Some sid) (Some key) created_at updated_at
             SCHEMA_VERSION None [] []));
    e ← event sid "task.created" "task" sid key owner_type
          owner_id project (or_else actor (owner_type +:+ ":" +:+ owner_id)) source 1
          [("title", VStr title); ("objective", VStr objective); ("owner_type", VStr owner_type);
           ("owner_id", VStr owner_id)] [];
    let cmd := command TASK_CREATE_SCOPE key "create_task" sid sid e in
    result ← call (OpCommit sid 0 [e] (Some cmd));
    if CommitResult_applied result then
      _ ← mirror cfg [e];
      get_task sid
    else
      duplicate ← require_same_command (CommitResult_command result) "create_task" key;
      get_task (CommandRecord_result_id duplicate)) own K (fun _ _ _ => True)) as Hcreate.
  { clear own K. intros sid own K. apply safe_lift. intros v Hv. apply safe_now. intros n1. apply safe_now. intros n2.
    apply safe_lift. intros _ _. apply safe_event. intros e u He. cbv zeta. apply safe_call.
    - cbn. intros st Hst Hlen _ s Hs Hfresh. assert (st = []) as -> by (destruct st; [done|discriminate Hlen]).
      apply refines_empty in Hs as E. subst s.
      destruct (step_create (refines_sim _ _ _ Hs) He owner_type owner_id title objective) as [Hstep Hsim];
        try done; try (by apply blank_empty).
      eexists. split; [by econstructor|]. intros x Hx. by left.
    - intros r own' K' Hr. destruct (CommitResult_applied r) eqn:E.
      + cbn in Hr. rewrite E in Hr. destruct Hr as (st & _ & _ & -> & ->).
        apply safe_mirror; [|apply secure_get_task]. intros x ->%list_elem_of_singleton.
        rewrite (sh_correlation _ _ _ _ He), klearn_same. apply elem_of_app. right. by left.
      + destruct (CommitResult_command r) as [c|]; cbn [require_same_command]; [|done].
        destruct (String.eqb _ _); [|done]. apply secure_get_task. }
  unfold or_new_id. destruct task_id as [sid|].
  - destruct (String.eqb sid ""); [|exact (Hcreate sid own K)]. apply safe_new_id. intros u _. apply Hcreate.
  - apply safe_new_id. intros u _. apply Hcreate.
Qed.

Lemma safe_task_batch sid evs0 task key operation specs actor source own K :
  task_snapshot sid evs0 task -> evs0 `prefix_of` K sid ->
  (K sid = evs0 -> follows own sid evs0 (Task_project_id (TaskState_task task)) specs) ->
  safe (task_batch cfg task key operation specs sid actor source) own K (fun _ _ _ => True).
Proof.
  intros Hsnap H0 Hf. eapply safe_commit_task_command; [done..|]. intros; apply secure_get_task.
Qed.

Lemma secure_update_task key task_id title objective metadata actor source :
  secure (update_task cfg key task_id title objective metadata actor source).
Proof.
  intros own K. unfold update_task. read_task evs0 task. apply safe_task_command. intros [r|]; [apply secure_get_task|].
  do 4 (apply safe_guard; intros _). cbv zeta.
  eapply safe_task_batch; [done..|]. intros _. apply (follows_notes Hsnap). constructor; [|done].
  intros p e Hsh. eapply note_updated; [exact Hsh|reflexivity..| | |];
    destruct title, objective, metadata; cbn; eauto.
Qed.

(** The commands that make one task transition guarded by a status. *)
Lemma task_transition_batch sid evs0 task own spec t :
  task_snapshot sid evs0 task -> moves_task sid t spec -> settled t = false ->
  t ∈ TASK_TRANSITIONS (TaskState_status task) ->
  follows own sid evs0 (Task_project_id (TaskState_task task)) [spec].
Proof.
  intros Hsnap Hm Hset Ht. apply (follows_task Hsnap _ _ t); [done|by left|congruence].
Qed.

Lemma secure_ready_task key task_id actor source : secure (ready_task cfg key task_id actor source).
Proof.
  intros own K. unfold ready_task. read_task evs0 task. apply safe_task_command. intros [r|]; [apply secure_get_task|].
  apply safe_guard. intros Hst. unfold status_in in Hst. bool_props.
  eapply safe_task_batch; [done..|]. intros _. eapply task_transition_batch; [done|mt|done|].
  table Hst; rewrite Hst; elem.
Qed.

Lemma secure_wait_task key task_id reason blocked actor source :
  secure (wait_task cfg key task_id reason blocked actor source).
Proof.
  intros own K. unfold wait_task. read_task evs0 task. apply safe_task_command. intros [r|]; [apply secure_get_task|].
  apply safe_guard. intros Hst. bool_props. apply safe_guard. intros _.
  eapply safe_task_batch; [done..|]. intros _. eapply task_transition_batch; [done|mt|done|].
  rewrite Hst; elem.
Qed.

Lemma secure_resume_task key task_id actor source : secure (resume_task cfg key task_id actor source).
Proof.
  intros own K. unfold resume_task. read_task evs0 task. apply safe_task_command. intros [r|]; [apply secure_get_task|].
  apply safe_guard. intros Hst. bool_props.
  eapply safe_task_batch; [done..|]. intros _. eapply task_transition_batch; [done|mt|done|].
  rewrite Hst; elem.
Qed.

Lemma secure_complete_task key task_id actor source : secure (complete_task cfg key task_id actor source).
Proof.
  intros own K. unfold complete_task. read_task evs0 task. apply safe_task_command. intros [r|]; [apply secure_get_task|].
  apply safe_guard. intros Hst.
  unfold latest_active_run. rewrite (snapshot_id Hsnap).
  apply (safe_find_run _ _ _ _ _ _ _ evs0); [done|]. intros found K2 Hle2 H2 Hfound.
  unfold no_active_run. apply secure_bind_pure. destruct found; [done|].
  apply safe_completion_task_spec. intros spec Hspec. cbv zeta.
  eapply safe_task_batch; [done..|]. intros E. apply follows_same. intros s Hs.
  destruct (snapshot_state Hsnap s Hs) as (Est & _).
  assert (quiet s) as Hq. { eapply find_none_quiet; [done..|]. by apply Hfound. }
  unfold quiet in Hq. destruct s as [st p runs]. cbn in Est, Hq. subst st.
  assert (TaskState_status task = T_RUNNING \/ TaskState_status task = T_WAITING) as [Es|Es].
  { apply orb_true_iff in Hst as [Hst|Hst]; [left|right]; [by bool_props|].
    unfold verification_wait in Hst. by bool_props. }
  all: rewrite Es; eval_decides; cbn [andb];
    destruct Hspec as [->|[d ->]]; cbn [String.eqb Ascii.eqb Bool.eqb spec_event_type task_spec app].
  - exists (Build_astate (Some T_SUCCEEDED) p runs). split; [|done].
    eapply ss_task; [mt|left; elem|done|constructor].
  - exists (Build_astate (Some T_WAITING) p runs). split; [|done].
    eapply ss_task; [apply completion_waiting|left; elem|done|constructor].
  - exists (Build_astate (Some T_SUCCEEDED) p runs). split; [|done].
    eapply ss_task; [mt|left; elem|done|]. eapply ss_task; [mt|left; elem|done|constructor].
  - exists (Build_astate (Some T_WAITING) p runs). split; [|done].
    eapply ss_task; [apply completion_waiting|by right|done|constructor].
Qed.

Lemma secure_fail_task key task_id reason actor source : secure (fail_task cfg key task_id reason actor source).
Proof.
  intros own K. unfold fail_task. read_task evs0 task. apply safe_task_command. intros [r|]; [apply secure_get_task|].
  apply safe_guard. intros Hst. unfold status_in in Hst. bool_props.
  unfold latest_active_run. rewrite (snapshot_id Hsnap).
  apply (safe_find_run _ _ _ _ _ _ _ evs0); [done|]. intros found K2 Hle2 H2 Hfound.
  unfold no_active_run. apply secure_bind_pure. destruct found; [done|].
  eapply safe_task_batch; [done..|]. intros E. apply (follows_task Hsnap _ _ T_FAILED).
  - apply moves_task_spec; [done|]. destruct reason; [left; by eexists|by right].
  - left. table Hst; rewrite Hst; elem.
  - intros _ s Hs. eapply find_none_quiet; [done..|]. by apply Hfound.
Qed.

Lemma secure_cancel_task key task_id actor source : secure (cancel_task cfg key task_id actor source).
Proof.
  intros own K. unfold cancel_task. read_task evs0 task. apply safe_task_command. intros [r|]; [apply secure_get_task|].
  do 3 (apply safe_guard; intros _). unfold active_runs. rewrite (snapshot_id Hsnap).
  apply (safe_collect_runs _ _ _ _ _ _ _ evs0); [done|]. intros active K2 _ _ _. cbv zeta.
  apply secure_bind; [apply secure_for_each; intros run; apply secure_cancel_run|]. intros _ own3 K3.
  clear dependent evs0. read_task evs1 refreshed. rewrite (snapshot_id Hsnap).
  apply (safe_collect_runs _ _ _ _ _ _ _ evs1); [done|]. intros remaining K5 Hle5 H5 Hruns.
  apply safe_guard. intros Hnone. destruct remaining as [|]; [|done].
  destruct (status_in _ _) eqn:Hst.
  { eapply safe_task_batch; [done..|]. intros _. by apply (follows_plain Hsnap). }
  unfold status_in in Hst. bool_props. cbv zeta. case_bool_decide as Hc.
  { eapply safe_task_batch; [done..|]. intros _. by apply (follows_plain Hsnap). }
  eapply safe_task_batch; [done..|]. intros E. apply (follows_task Hsnap _ _ T_CANCELLED); [mt| |].
  - left. destruct (TaskState_status refreshed); try elem; exfalso; try done; apply Hst; elem.
  - intros _ s Hs. destruct (Hruns E) as (all & Hall & Hempty).
    eapply snapshot_quiet; [done..|]. intros rid Hr. apply list_elem_of_lookup_1 in Hr as [i Hi].
    destruct (Forall2_lookup_l _ _ _ _ _ Hall Hi) as (run & Hj & Hrun). exists run. split; [done|].
    destruct (run_is_active run) eqn:Ha; [|done]. exfalso.
    assert (In run (List.filter run_is_active all)) as Hin.
    { apply filter_In. split; [|done]. apply list_elem_of_In. by eapply list_elem_of_lookup_2. }
    by rewrite <- Hempty in Hin.
Qed.
End task_commands.

(** ** kernel/recovery.py *)

Section recovery.
Context (cfg : KernelConfig).

Lemma secure_recover_run sid evs0 task task_id rid run own K :
  task_snapshot sid evs0 task -> safe (recover_run cfg task task_id rid run) own K (fun _ _ _ => True).
Proof.
  intros Hsnap. unfold recover_run.
  destruct (RunState_status run); try done; apply safe_context; intros ctx _;
    (apply secure_bind; [apply secure_backend_snapshot|]); intros [snapshot|] own2 K2.
  - apply secure_bind; [apply secure_apply_snapshot_system|done].
  - apply secure_bind; [apply secure_dispatch_started_run|done].
  - apply secure_bind; [apply secure_apply_snapshot_system|done].
  - apply secure_bind; [apply secure_mark_recovery_required|done].
Qed.

Lemma secure_recover_task task_id : secure (recover_task cfg task_id).
Proof.
  intros own K. unfold recover_task. read_task evs0 task.
  apply secure_bind; [|done]. apply secure_for_each. intros rid own2 K2. unfold recover_entry.
  apply secure_bind; [apply secure_get_run|]. intros run own3 K3. apply safe_bind.
  eapply safe_mono; [by eapply secure_recover_run|]. intros d own4 K4 _.
  apply secure_bind; [apply secure_get_run|done].
Qed.

Lemma secure_recover_all : secure (recover_all cfg).
Proof.
  intros own K. unfold recover_all. apply safe_call; [done|]. intros ids own2 K2 _.
  apply secure_for_each. apply secure_recover_task.
Qed.
End recovery.

(** ** kernel/task_mutations.py *)

Lemma secure_command_event record etype : secure (command_event record etype).
Proof.
  intros own K. unfold command_event. apply secure_bind; [apply secure_history|]. intros evs own2 K2. cbv zeta.
  destruct (List.find _ evs); [|done]. by apply safe_guard.
Qed.

Lemma secure_replayed_planning_metadata task_id key metadata : secure (replayed_planning_metadata task_id key metadata).
Proof.
  intros own K. unfold replayed_planning_metadata. apply safe_task_command. intros [r|]; [|done].
  apply secure_bind; [apply secure_command_event|]. intros e own2 K2. cbv zeta. apply safe_guard. intros _.
  apply secure_bind; [apply secure_get_task|done].
Qed.

Lemma secure_replayed_project_reassignment task_id destination key :
  secure (replayed_project_reassignment task_id destination key).
Proof.
  intros own K. unfold replayed_project_reassignment. apply safe_lift. intros _ _. apply safe_lift. intros _ _.
  apply safe_task_command. intros [r|]; [|done].
  apply secure_bind; [apply secure_command_event|]. intros e own2 K2. apply safe_guard. intros _.
  apply secure_bind; [apply secure_get_task|done].
Qed.

Lemma secure_bulk_reserved digest key : secure (bulk_project_reassignment_reserved digest key).
Proof.
  intros own K. unfold bulk_project_reassignment_reserved. apply safe_guard. intros _.
  apply safe_existing_command. intros [r|]; [|done]. apply safe_guard. intros _.
  apply secure_bind; [apply secure_command_event|]. intros e own2 K2. by apply safe_guard.
Qed.

Section mutations.
Context (cfg : KernelConfig).

Lemma secure_update_planning_metadata task_id metadata key actor source :
  secure (update_planning_metadata cfg task_id metadata key actor source).
Proof.
  intros own K. unfold update_planning_metadata. apply safe_lift. intros _ _. apply safe_lift. intros _ _. cbv zeta.
  apply secure_bind; [apply secure_replayed_planning_metadata|]. intros [t|] own2 K2; [done|].
  read_task evs0 task. eapply safe_commit_task_command; [done..| |].
  - intros _. apply (follows_notes Hsnap). constructor; [|done]. intros p e Hsh.
    eapply note_updated; [exact Hsh|reflexivity..|by left|by left|right; by eexists _, _].
  - intros r own4 K4 _. apply secure_bind; [apply secure_replayed_planning_metadata|]. by intros [t|] own5 K5.
Qed.

Lemma secure_reassign_project task_id src dst revision key actor source :
  secure (reassign_project cfg task_id src dst revision key actor source).
Proof.
  intros own K. unfold reassign_project. unfold replayed_project_reassignment at 1.
  apply safe_assoc, safe_lift. intros _ _. apply safe_assoc, safe_lift. intros [] Hdst.
  apply safe_assoc, safe_task_command. intros r.
  assert (forall own K, safe (match r with
    | None => Ret None
    | Some record => e ← command_event record MOVE_EVENT;
        _ ← guard (scalar_eqb (get "destination_project_id" (Event_payload e)) (optional_value dst))
              (conflict "Idempotency-Key is already bound to a different Task Project destination");
        task ← get_task task_id; Ret (Some task)
    end) own K (fun _ _ _ => True)) as Hreplay.
  { intros own1 K1. destruct r as [record|]; [|done].
    apply secure_bind; [apply secure_command_event|]. intros e own2 K2. apply safe_guard. intros _.
    apply secure_bind; [apply secure_get_task|done]. }
  apply safe_bind. eapply safe_mono; [apply Hreplay|]. intros [t|] own2 K2 _; [done|].
  apply safe_lift. intros [] _. read_task evs0 task. apply safe_guard. intros _. apply safe_guard. intros Hproj.
  bool_props. eapply safe_commit_task_command; [done..| |].
  - intros _. apply follows_same. intros s Hs. destruct (snapshot_state Hsnap s Hs) as (Est & Hp & _).
    exists (Build_astate (a_task s) dst (a_runs s)). split; [|reflexivity].
    eapply spec_steps_cons; [|constructor]. intros evs e Hsim Hsh.
    eexists. apply (step_move Hsim Hsh dst); try reflexivity.
    + cbn. by rewrite Hproj.
    + exact Hdst.
    + by rewrite Est.
    + exact Hp.
  - intros c own4 K4 _. apply secure_bind; [apply secure_replayed_project_reassignment|].
    intros [moved|] own5 K5; [|done]. by apply safe_guard.
Qed.

Lemma secure_reserve_bulk anchor digest moves key actor source :
  secure (reserve_bulk_project_reassignment cfg anchor digest moves key actor source).
Proof.
  intros own K. unfold reserve_bulk_project_reassignment. apply safe_lift. intros _ _.
  apply safe_lift. intros normalized _. apply safe_guard. intros _.
  apply secure_bind; [apply secure_bulk_reserved|]. intros [] own2 K2; [done|].
  read_task evs0 task. apply safe_build_events. intros own3 es Hsub Hes.
  apply secure_bind_pure. destruct es as [|e es]; cbn [first_event]; [done|]. cbv zeta.
  eapply safe_commit; [symmetry; exact (snapshot_id Hsnap)|exact Hsnap|assumption| |exact Hsub|exact Hes| |].
  - intros _. by apply (follows_plain Hsnap).
  - intros r K' E Hle' Hin. rewrite E. apply safe_last, safe_mirror; [|done].
    intros x Hx. rewrite (shaped_correlations _ _ _ _ Hes x Hx), (snapshot_id Hsnap). by apply Hin.
  - intros r E _. rewrite E. apply secure_bind; [apply secure_bulk_reserved|].
    intros b own5 K5. apply secure_guard.
Qed.
End mutations.

(** ** kernel/output_observer.py *)

Section observer.
Context (cfg : KernelConfig) (observing : bool).

Lemma match_attachment_elem evs task_id key etype payload_key output_id run_id e :
  match_attachment evs task_id key etype payload_key output_id run_id = Ok e -> e ∈ evs.
Proof.
  unfold match_attachment. intros H.
  destruct (List.filter _ evs) as [|x [|]] eqn:E; try done. res_inv.
  apply list_elem_of_In. assert (In e (List.filter (fun e => String.eqb (Event_event_type e) etype &&
    bool_decide (Event_causation_id e = Some key)) evs)) as Hin by (rewrite E; by left).
  exact (proj1 (proj1 (filter_In _ _ _) Hin)).
Qed.

(** The observer sees an event of the stream. *)
Lemma safe_observe {B} task_id key etype payload_key output_id run_id (k : unit -> prog B) own K Q :
  (forall own K, safe (k tt) own K Q) ->
  safe (e ← canonical_attachment_event task_id key etype payload_key output_id run_id;
        _ ← call (OpObserve e); k tt) own K Q.
Proof.
  intros Hk. unfold canonical_attachment_event. apply safe_assoc, safe_history.
  intros evs [s Hs] _. apply safe_lift. intros e He%match_attachment_elem.
  apply safe_call; [|intros; apply Hk].
  cbn. pose proof (refines_correlation _ _ _ Hs) as Hc. rewrite Forall_forall in Hc.
  by rewrite (Hc e He), klearn_same.
Qed.

Lemma secure_observed_attach_result key task_id result_id run_id actor source :
  secure (observed_attach_result cfg observing key task_id result_id run_id actor source).
Proof.
  intros own K. unfold observed_attach_result.
  apply secure_bind; [apply secure_attach_result|]. intros task own2 K2.
  destruct (negb observing); [done|]. apply (safe_observe _ _ _ _ _ _ (fun _ => get_task task_id)).
  apply secure_get_task.
Qed.

Lemma secure_observed_attach_artifact key task_id artifact_id run_id actor source :
  secure (observed_attach_artifact cfg observing key task_id artifact_id run_id actor source).
Proof.
  intros own K. unfold observed_attach_artifact.
  apply secure_bind; [apply secure_attach_artifact|]. intros task own2 K2.
  destruct (negb observing); [done|]. apply (safe_observe _ _ _ _ _ _ (fun _ => get_task task_id)).
  apply secure_get_task.
Qed.
End observer.
