(* ===== verification/Interleaving.v ===== *)
(** * Any number of secure coroutines over one repository

    The invariant of [pool_reach]: every stream is a legal trace, each coroutine still keeps its
    obligations, what it has read is a prefix of the streams, and the UUIDs it has drawn are its
    own. *)

From S2P Require Import Prelude PyValue Errors Freeze Ident Lifecycle Domain Contracts EventStore.
From S2P Require Import Projection Effects CommitSupport KernelLifecycle RunCommands Machine Stream.
From S2P Require Import Interference.

Lemma refines_ids sid evs s s' : refines sid evs s -> refines sid evs s' -> map a_id (a_runs s) = map a_id (a_runs s').
Proof.
  intros Hs%refines_sim Hs'%refines_sim.
  pose proof (sim_task _ _ _ Hs) as H. pose proof (sim_task _ _ _ Hs') as H'.
  pose proof (inv_settled _ _ (sim_inv _ _ _ Hs)) as I. pose proof (inv_settled _ _ (sim_inv _ _ _ Hs')) as I'.
  destruct (a_task s) as [st|], (a_task s') as [st'|].
  - destruct H as (a & t & Ha & _ & _ & _ & _ & <-), H' as (a' & t' & Ha' & _ & _ & _ & _ & <-). congruence.
  - destruct H as (a & t & Ha & Hat & _). subst evs. by injection Ha as <-.
  - destruct H' as (a & t & Ha & Hat & _). subst evs. by injection Ha as <-.
  - by subst.
Qed.

Section pool.
Context {R : Type} `{EventRepositoryLaws R} (E : env) (bound : nat) (HE : uuid_source_ok E bound).
Implicit Types w : world R.

Definition drawn (w : world R) (u : string) : Prop := exists n, n < clock w /\ u = env_uuid E n.

(** The operations that left the platform were justified by what is stored. *)
Definition justified (w : world R) (o : op) : Prop :=
  match o with
  | OpStart request => dispatched (hist w) request
  | OpPublish e | OpObserve e => e ∈ hist w (Event_correlation_id e)
  | _ => True
  end.

Record world_ok (w : world R) : Prop := {
  ok_legal sid : legal sid (hist w sid);
  ok_runs sid s x : refines sid (hist w sid) s -> x ∈ map a_id (a_runs s) ->
    exists u, drawn w u /\ x = id_of_uuid "run" u;
  ok_calls o : o ∈ calls w -> justified w o
}.

Record thread_ok (w : world R) (p : prog unit) (own : list string) (K : knowledge) : Prop := {
  th_safe : safe p own K (fun _ _ _ => True);
  th_knows sid : K sid `prefix_of` hist w sid;
  th_own u : u ∈ own -> drawn w u;
  th_fresh sid s : refines sid (hist w sid) s -> fresh_for own s
}.

Record pool_ok (c : list (prog unit) * world R) (owns : nat -> list string) (Ks : nat -> knowledge) : Prop := {
  pool_world : world_ok c.2;
  pool_drawn i u : u ∈ owns i -> drawn c.2 u;
  pool_thread i p : c.1 !! i = Some p -> thread_ok c.2 p (owns i) (Ks i);
  pool_disjoint i j u : i <> j -> u ∈ owns i -> u ∉ owns j
}.

(** One operation, as the coroutine that performs it and as everybody else sees it. *)
Record op_effect (w : world R) (own : list string) (K : knowledge) (o : op)
    (r : res (reply o)) (w' : world R) (own' : list string) (K' : knowledge) : Prop := {
  eff_world : world_ok w';
  eff_post : op_post own K o own' K' r;
  eff_knows sid : K' sid `prefix_of` hist w' sid;
  eff_own u : u ∈ own' -> drawn w' u /\ (u ∈ own \/ ~ drawn w u);
  eff_fresh sid s : refines sid (hist w' sid) s -> fresh_for own' s;
  eff_grows sid : hist w sid `prefix_of` hist w' sid;
  eff_clock : clock w <= clock w';
  eff_runs sid s s' x : refines sid (hist w sid) s -> refines sid (hist w' sid) s' ->
    x ∈ map a_id (a_runs s') -> x ∈ map a_id (a_runs s) \/ exists u, u ∈ own /\ x = id_of_uuid "run" u
}.

Lemma drawn_mono w w' u : clock w <= clock w' -> drawn w u -> drawn w' u.
Proof. intros Hc (n & ? & ->). exists n. split; [lia|done]. Qed.

Lemma justified_mono w w' o : (forall sid, hist w sid `prefix_of` hist w' sid) -> justified w o -> justified w' o.
Proof.
  intros Hp. destruct o; cbn; try done; try (intros; by eapply elem_of_prefix).
  intros (e & He & ?). exists e. split; [by eapply elem_of_prefix|done].
Qed.

(** The other coroutines are not disturbed. *)
Lemma thread_frame w own K o r w' own' K' p own2 K2 :
  op_effect w own K o r w' own' K' -> thread_ok w p own2 K2 -> world_ok w -> (forall u, u ∈ own -> u ∉ own2) ->
  thread_ok w' p own2 K2.
Proof.
  intros Heff [Hs Hk Ho Hf] Hw Hd. split; [done| | |].
  - intros sid. etransitivity; [apply Hk|apply Heff].
  - intros u Hu. eapply drawn_mono; [apply Heff|]. by apply Ho.
  - intros sid s' Hs' u Hu Hx. destruct (ok_legal _ Hw sid) as [s Hs0].
    destruct (eff_runs _ _ _ _ _ _ _ _ Heff sid s s' _ Hs0 Hs' Hx) as [Hin|(v & Hv & Eq)].
    + by apply (Hf sid s Hs0 u Hu).
    + apply id_of_uuid_inj in Eq. subst v. by apply (Hd u).
Qed.

(** Operations that leave the repository alone. *)
Lemma quiet_effect w own K o r own' K' logged :
  world_ok w -> clock w < bound -> (forall sid, K' sid `prefix_of` hist w sid) -> op_post own K o own' K' r ->
  (forall x, x ∈ logged -> justified w x) ->
  (forall u, u ∈ own' -> (drawn w u /\ u ∈ own) \/ u = env_uuid E (clock w)) ->
  (forall sid s, refines sid (hist w sid) s -> fresh_for own s) ->
  op_effect w own K o r (Build_world (repo w) (S (clock w)) (logged ++ calls w)) own' K'.
Proof.
  intros Hw Hbound HK Hpost Hlog Hown Hfresh.
  assert (forall u, drawn w u -> drawn (Build_world (repo w) (S (clock w)) (logged ++ calls w)) u) as Hdrawn.
  { intros u. apply drawn_mono. cbn. lia. }
  split; try done.
  - split; [apply Hw| |].
    + intros sid s x Hs Hx. destruct (ok_runs _ Hw sid s x Hs Hx) as (u & Hu & ->). exists u. auto.
    + intros x [Hx|Hx]%elem_of_app; [by apply Hlog|by apply (ok_calls _ Hw)].
  - intros u Hu. destruct (Hown u Hu) as [[Hd Hin]| ->]; [split; [by apply Hdrawn|by left]|].
    split; [exists (clock w); split; [cbn; lia|done]|]. right. intros (n & Hn & Eq).
    apply (uuid_distinct _ _ HE) in Eq; lia.
  - intros sid s Hs u Hu. destruct (Hown u Hu) as [[_ Hin]| ->]; [by apply (Hfresh sid s Hs)|].
    intros Hx. destruct (ok_runs _ Hw sid s _ Hs Hx) as (v & (n & Hn & ->) & Eq).
    apply id_of_uuid_inj, (uuid_distinct _ _ HE) in Eq; lia.
  - cbn. lia.
  - intros sid s s' x Hs Hs' Hx. left. by rewrite (refines_ids sid _ _ _ Hs Hs').
Qed.

(** Commits: a rejected or replayed one changes no stream; an applied one appends. *)
Lemma commit_quiet w own K s rev evs cmd r repo' :
  world_ok w -> (forall sid, K sid `prefix_of` hist w sid) -> (forall u, u ∈ own -> drawn w u) ->
  (forall sid st, refines sid (hist w sid) st -> fresh_for own st) ->
  (forall sid, read_events repo' sid = read_events (repo w) sid) ->
  op_post own K (OpCommit s rev evs cmd) own K r ->
  op_effect w own K (OpCommit s rev evs cmd) r (Build_world repo' (S (clock w)) (calls w)) own K.
Proof.
  intros Hw HK Hown Hfresh Hsame Hpost.
  assert (forall sid, hist (Build_world repo' (S (clock w)) (calls w)) sid = hist w sid) as Hh by exact Hsame.
  assert (forall u, drawn w u -> drawn (Build_world repo' (S (clock w)) (calls w)) u) as Hdrawn.
  { intros u. apply drawn_mono. cbn. lia. }
  split; try done.
  - split.
    + intros sid. rewrite Hh. apply Hw.
    + intros sid st x. rewrite Hh. intros Hs Hx. destruct (ok_runs _ Hw sid st x Hs Hx) as (u & Hu & ->). eauto.
    + intros o Ho. eapply justified_mono; [|by apply (ok_calls _ Hw)]. intros sid. by rewrite Hh.
  - intros sid. by rewrite Hh.
  - intros u Hu. split; [by apply Hdrawn, Hown|by left].
  - intros sid st. rewrite Hh. apply Hfresh.
  - intros sid. by rewrite Hh.
  - cbn. lia.
  - intros sid s1 s2 x Hs. rewrite Hh. intros Hs2 Hx. left. by rewrite (refines_ids sid _ _ _ Hs Hs2).
Qed.

Lemma commit_append w own K s rev evs cmd res repo' :
  world_ok w -> (forall sid, K sid `prefix_of` hist w sid) -> (forall u, u ∈ own -> drawn w u) ->
  (forall sid st, refines sid (hist w sid) st -> fresh_for own st) ->
  op_pre own K (OpCommit s rev evs cmd) ->
  commit (repo w) s rev evs cmd = (Ok res, repo') -> CommitResult_applied res = true ->
  op_effect w own K (OpCommit s rev evs cmd) (Ok res) (Build_world repo' (S (clock w)) (calls w)) []
    (klearn s (hist w s ++ evs) K).
Proof.
  intros Hw HK Hown Hfresh Hpre Hc Happ.
  destruct (commit_applied _ _ _ _ _ _ _ Hc Happ) as (Hrev & _ & Hread & _).
  assert (forall sid, hist (Build_world repo' (S (clock w)) (calls w)) sid =
            if String.eqb sid s then hist w s ++ evs else hist w sid) as Hh by exact Hread.
  destruct (ok_legal _ Hw s) as [s0 Hs0].
  destruct (Hpre (hist w s) (HK s) Hrev (ok_legal _ Hw s) s0 Hs0 (Hfresh s s0 Hs0)) as (s1 & Hs1 & Hnew).
  assert (forall sid, hist w sid `prefix_of` hist (Build_world repo' (S (clock w)) (calls w)) sid) as Hgrow.
  { intros sid. rewrite Hh. destruct (String.eqb_spec sid s) as [->|]; [by apply prefix_app_r|done]. }
  assert (forall sid a b x, refines sid (hist w sid) a -> refines sid (hist (Build_world repo' (S (clock w)) (calls w)) sid) b ->
    x ∈ map a_id (a_runs b) -> x ∈ map a_id (a_runs a) \/ exists u, u ∈ own /\ x = id_of_uuid "run" u) as Hruns.
  { intros sid a b x Ha Hb Hx. rewrite Hh in Hb. destruct (String.eqb_spec sid s) as [->|].
    - rewrite (refines_ids _ _ _ _ Hb Hs1) in Hx. rewrite (refines_ids _ _ _ _ Ha Hs0). by apply Hnew.
    - left. by rewrite (refines_ids _ _ _ _ Ha Hb). }
  split; try done.
  - split.
    + intros sid. rewrite Hh. destruct (String.eqb_spec sid s) as [->|]; [by exists s1|apply Hw].
    + intros sid b x Hb Hx. destruct (ok_legal _ Hw sid) as [a Ha].
      destruct (Hruns sid a b x Ha Hb Hx) as [Hin|(u & Hu & ->)].
      * destruct (ok_runs _ Hw sid a x Ha Hin) as (u & Hu & ->). exists u. split; [|done].
        eapply drawn_mono; [|done]. cbn. lia.
      * exists u. split; [|done]. eapply drawn_mono; [|by apply Hown]. cbn. lia.
    + intros o Ho. eapply justified_mono; [exact Hgrow|]. by apply (ok_calls _ Hw).
  - cbn. rewrite Happ. by exists (hist w s).
  - intros sid. rewrite Hh. unfold klearn. destruct (String.eqb sid s); [done|apply HK].
  - intros u Hu. by apply not_elem_of_nil in Hu.
  - intros sid st _ u Hu. by apply not_elem_of_nil in Hu.
  - cbn. lia.
Qed.

Lemma do_op_clock o w : clock (do_op E o w).2 = S (clock w).
Proof. destruct o; try done. cbn. by destruct (commit _ _ _ _ _). Qed.

Lemma do_op_effect w p own K o k :
  world_ok w -> clock w < bound -> thread_ok w p own K -> p = Vis o k ->
  exists own' K', op_effect w own K o (do_op E o w).1 (do_op E o w).2 own' K'.
Proof.
  intros Hw Hbound [Hs HK Hown Hfresh] ->. destruct Hs as [Hpre _].
  assert (forall r logged, op_post own K o own K r -> (forall x, x ∈ logged -> justified w x) ->
    exists own' K', op_effect w own K o r (Build_world (repo w) (S (clock w)) (logged ++ calls w)) own' K') as Hq.
  { intros r logged Hpost Hlog. exists own, K. apply quiet_effect; try done. intros u Hu. left. auto. }
  assert (forall r, op_post own K o own K r -> exists own' K',
    op_effect w own K o r (Build_world (repo w) (S (clock w)) (calls w)) own' K') as Hq0.
  { intros r Hpost. apply (Hq r []); [done|]. intros x Hx. by apply not_elem_of_nil in Hx. }
  assert (justified w o -> forall r, op_post own K o own K r -> exists own' K',
    op_effect w own K o r (Build_world (repo w) (S (clock w)) (o :: calls w)) own' K') as Hq1.
  { intros Hj r Hpost. apply (Hq r [o]); [done|]. by intros x ->%list_elem_of_singleton. }
  destruct o; cbn [do_op fst snd]; try (by apply Hq0); try (by apply Hq1).
  - exists (env_uuid E (clock w) :: own), K. apply (quiet_effect _ _ _ OpUuid _ _ _ []); try done.
    + eexists. split_and!; [reflexivity|apply (uuid_canonical _ _ HE)|done..].
    + intros x Hx. by apply not_elem_of_nil in Hx.
    + intros u [->|Hu]%elem_of_cons; [by right|left; auto].
  - exists own, (klearn stream_id (hist w stream_id) K). apply (quiet_effect _ _ _ (OpRead _) _ _ _ []); try done.
    + intros sid. unfold klearn. destruct (String.eqb_spec sid stream_id) as [->|]; [done|apply HK].
    + eexists. split_and!; [reflexivity|apply HK|apply Hw|done..].
    + intros x Hx. by apply not_elem_of_nil in Hx.
    + intros u Hu. left. auto.
  - destruct (commit (repo w) stream_id expected_revision events command) as [r repo'] eqn:Ec. cbn [fst snd].
    destruct r as [res|e].
    + destruct (CommitResult_applied res) eqn:Ea.
      * exists [], (klearn stream_id (hist w stream_id ++ events) K). by eapply commit_append.
      * destruct (commit_duplicate _ _ _ _ _ _ _ Ec Ea) as (-> & c & c' & -> & _).
        exists own, K. apply commit_quiet; try done. cbn. by rewrite Ea.
    + destruct (commit_rejected _ _ _ _ _ _ _ Ec) as [Hsame _]. exists own, K. by apply commit_quiet.
  - apply Hq1; [|done]. destruct Hpre as (e & He & Hrest). exists e. split; [|done].
    eapply elem_of_prefix; [exact He|apply HK].
  - apply Hq1; [|done]. cbn in *. eapply elem_of_prefix; [exact Hpre|apply HK].
  - apply Hq1; [|done]. cbn in *. eapply elem_of_prefix; [exact Hpre|apply HK].
Qed.

Lemma pool_step_ok c c' owns Ks :
  pool_ok c owns Ks -> pool_step E c c' -> clock c'.2 <= bound -> exists owns' Ks', pool_ok c' owns' Ks'.
Proof.
  intros [Hw Hdr Ht Hd] Hstep Hbound. destruct Hstep as [i pool o k w Hi]. cbn [fst snd] in *.
  rewrite do_op_clock in Hbound.
  pose proof (Ht i _ Hi) as Hthread.
  destruct (do_op_effect w _ _ _ o k Hw Hbound Hthread eq_refl) as (own' & K' & Heff).
  exists (fun j => if decide (j = i) then own' else owns j), (fun j => if decide (j = i) then K' else Ks j).
  split; cbn [fst snd].
  - apply Heff.
  - intros j u. destruct (decide (j = i)) as [->|]; intros Hu; [by apply Heff|].
    eapply drawn_mono; [apply Heff|by eapply Hdr].
  - intros j p. destruct (decide (j = i)) as [->|Hne].
    + rewrite list_lookup_insert_eq by (by eapply lookup_lt_Some). intros [= <-].
      split; [|apply Heff| |apply Heff].
      * destruct Hthread as [[_ Hs] _ _ _]. apply Hs, Heff.
      * intros u Hu. by apply Heff.
    + rewrite list_lookup_insert_ne by done. intros Hj.
      eapply thread_frame; [exact Heff|by apply Ht|done|]. intros u Hu. by apply (Hd i j).
  - assert (forall j u, j <> i -> u ∈ own' -> u ∈ owns j -> False) as Hone.
    { intros j u Hne Hu Hu2. destruct (eff_own _ _ _ _ _ _ _ _ Heff u Hu) as [_ [Hin|Hnd]].
      - by apply (Hd i j u).
      - by apply Hnd, (Hdr j). }
    intros j1 j2 u Hne. destruct (decide (j1 = i)) as [->|H1], (decide (j2 = i)) as [->|H2]; [done|eauto|eauto|by apply Hd].
Qed.

(** Whatever has been reached from an empty repository by secure coroutines. *)
Lemma pool_reach_ok pool r0 n0 c :
  (forall sid, read_events r0 sid = []) -> Forall secure pool ->
  pool_reach E (pool, Build_world r0 n0 []) c -> clock c.2 <= bound -> exists owns Ks, pool_ok c owns Ks.
Proof.
  intros Hempty Hsec. induction 1 as [|c c' _ IH Hstep]; intros Hbound.
  2: { destruct IH as (owns & Ks & IH); [destruct Hstep; cbn in *; rewrite do_op_clock in Hbound; lia|].
       by eapply pool_step_ok. }
  assert (forall sid, hist (Build_world r0 n0 []) sid = []) as Hh by exact Hempty.
  assert (forall sid s, refines sid [] s -> a_runs s = []) as Hruns.
  { intros sid s Hs. by rewrite (refines_empty _ _ Hs). }
  exists (fun _ => []), (fun _ _ => []). split; cbn [fst snd].
  - split.
    + intros sid. rewrite Hh. exists a_init. constructor.
    + intros sid s x. rewrite Hh. intros Hs. rewrite (Hruns _ _ Hs). intros Hx. by apply not_elem_of_nil in Hx.
    + intros o Ho. by apply not_elem_of_nil in Ho.
  - intros i u Hu. by apply not_elem_of_nil in Hu.
  - intros i p Hp. rewrite Forall_lookup in Hsec. split.
    + apply (Hsec i p Hp).
    + intros sid. apply prefix_nil.
    + intros u Hu. by apply not_elem_of_nil in Hu.
    + intros sid s _ u Hu. by apply not_elem_of_nil in Hu.
  - intros i j u _ Hu. by apply not_elem_of_nil in Hu.
Qed.
End pool.
