(* ===== verification/KernelTheorems.v ===== *)
(** * What holds of the kernel in every interleaving *)

From S2P Require Import Prelude PyValue Errors Freeze Ident Lifecycle Domain Contracts EventStore.
From S2P Require Import Projection Effects CommitSupport KernelLifecycle Planning RunCommands.
From S2P Require Import TaskCommands Recovery TaskMutations Kernel Machine Stream.
From S2P Require Import Interference Refinement CommandSafety TaskSafety Interleaving.

Create HintDb secure.
#[export] Hint Resolve secure_get_task secure_get_run secure_history secure_create_task secure_update_task
  secure_ready_task secure_wait_task secure_resume_task secure_complete_task secure_fail_task
  secure_cancel_task secure_plan_task secure_create_run secure_retry_task secure_start_run
  secure_start_task secure_refresh_run secure_record_run_outcome secure_cancel_run
  secure_observed_attach_artifact secure_observed_attach_result secure_recover_task secure_recover_all
  secure_update_planning_metadata secure_replayed_project_reassignment secure_reassign_project
  secure_bulk_reserved secure_reserve_bulk : secure.

Lemma secure_ignore {A} (p : prog A) : secure p -> secure (ignore p).
Proof. intros Hp. by apply secure_seq. Qed.

Lemma secure_kernel_program cfg observing c : secure (kernel_program cfg observing c).
Proof. destruct c as [[]|[]|[]]; apply secure_ignore; auto with secure. Qed.

Section interleavings.
Context {R : Type} `{EventRepositoryLaws R}.
Context (E : env) (cfg : KernelConfig) (observing : bool).

(** A world that some interleaving of public kernel calls has produced, starting from a repository
    without events, as long as the UUIDs drawn so far are distinct. *)
Definition kernel_run (cs : list kernel_call) (w : world R) : Prop :=
  exists bound r0 n0 pool, uuid_source_ok E bound /\ clock w <= bound /\
    (forall sid, read_events r0 sid = []) /\
    pool_reach E (map (kernel_program cfg observing) cs, Build_world r0 n0 []) (pool, w).

Lemma kernel_run_ok cs w : kernel_run cs w -> world_ok E w.
Proof.
  intros (bound & r0 & n0 & pool & HE & Hc & Hempty & Hreach).
  assert (Forall secure (map (kernel_program cfg observing) cs)) as Hsec.
  { apply Forall_map, Forall_forall. intros c _. apply secure_kernel_program. }
  destruct (pool_reach_ok E bound HE _ _ _ _ Hempty Hsec Hreach Hc) as (owns & Ks & Hok). apply Hok.
Qed.

Lemma kernel_run_refines cs w sid : kernel_run cs w -> exists s, refines sid (hist w sid) s.
Proof. intros Hw%kernel_run_ok. apply (ok_legal _ _ Hw). Qed.
End interleavings.

(** ** From machine states to what readers see *)

Section views.
Context {sid : string} {evs : list Event} {s : astate} (Hs : refines sid evs s).

Lemma view_task : evs <> [] -> exists task, reduce_task evs sid = Ok task.
Proof.
  intros Hne. pose proof (sim_task _ _ _ (refines_sim _ _ _ Hs)) as Ht. destruct (a_task s) as [st|]; [|done].
  destruct Ht as (a & t & Ha & Hat & _). unfold reduce_task. rewrite Ha. cbn. rewrite Hat. eauto.
Qed.

Lemma view_snapshot task : reduce_task evs sid = Ok task -> task_snapshot sid evs task.
Proof. intros Ht. split; [by exists s|done]. Qed.

Lemma view_run r : r ∈ a_runs s ->
  exists run, reduce_run evs (a_id r) = Ok run /\ run_matches sid r (RunState_run run).
Proof.
  intros Hr. destruct (sim_run _ _ _ (refines_sim _ _ _ Hs) r Hr) as (a & run & Ha & Hrun & Hm).
  unfold reduce_run. rewrite Ha. cbn. rewrite Hrun. eauto.
Qed.

Lemma view_listed task rid : reduce_task evs sid = Ok task -> rid ∈ TaskState_run_ids task ->
  exists r, r ∈ a_runs s /\ a_id r = rid.
Proof.
  intros Ht Hr. destruct (snapshot_state (view_snapshot task Ht) s Hs) as (_ & _ & E & _).
  rewrite E in Hr. apply list_elem_of_fmap in Hr as (r & -> & Hr). eauto.
Qed.
End views.

Section properties.
Context {R : Type} `{EventRepositoryLaws R}.
Context (E : env) (cfg : KernelConfig) (observing : bool) (cs : list kernel_call) (w : world R).

(** C1. Refinement. However the public calls of the kernel interleave at their awaits, with
    whatever clock, planner, backend, authority, sink and observer, and with every crash point
    in between, each task's stream is a trace of the lifecycle machine of Machine.v: every event
    makes one allowed step, and after every event the projections read the machine's state. *)
Theorem kernel_refines_machine :
  kernel_run E cfg observing cs w -> forall sid, exists s, refines sid (hist w sid) s.
Proof. intros Hw sid. by eapply kernel_run_refines. Qed.

(** C23. No command can poison a stream: every prefix of every non-empty stream projects to a
    task, whose revision is the number of events, and every run that the task lists projects to a
    run of that task. *)
Theorem streams_stay_readable :
  kernel_run E cfg observing cs w ->
  forall sid evs, evs `prefix_of` hist w sid -> evs <> [] ->
  exists task, reduce_task evs sid = Ok task /\ TaskState_task_id task = sid /\
    TaskState_revision task = Z.of_nat (length evs) /\
    forall rid, rid ∈ TaskState_run_ids task ->
      exists run, reduce_run evs rid = Ok run /\ RunState_run_id run = rid /\
        Run_correlation_id (RunState_run run) = sid.
Proof.
  intros Hw sid evs [rest Hrest] Hne. destruct (kernel_run_refines E cfg observing cs w sid Hw) as [s Hs].
  rewrite Hrest in Hs. destruct (refines_prefix _ _ _ _ Hs) as (s1 & ls & Hs1 & _).
  destruct (view_task Hs1 Hne) as [task Ht]. pose proof (view_snapshot Hs1 task Ht) as Hsnap.
  exists task. split_and!; [done|by apply snapshot_id in Hsnap|by apply snapshot_revision in Hsnap|].
  intros rid Hr. destruct (view_listed Hs1 task rid Ht Hr) as (r & Hin & <-).
  destruct (view_run Hs1 r Hin) as (run & Hrun & Hm). exists run. split_and!; [done|apply Hm..].
Qed.

(** C8. Exclusion. At any moment a subject has at most one run that has not ended, task-level and
    step-level runs are never in flight together, and a task-level run in flight is alone. *)
Theorem one_active_run_per_subject sid task rid1 rid2 run1 run2 :
  kernel_run E cfg observing cs w ->
  reduce_task (hist w sid) sid = Ok task ->
  rid1 ∈ TaskState_run_ids task -> rid2 ∈ TaskState_run_ids task ->
  reduce_run (hist w sid) rid1 = Ok run1 -> reduce_run (hist w sid) rid2 = Ok run2 ->
  run_is_active run1 = true -> run_is_active run2 = true ->
  Run_subject_type (RunState_run run1) = Run_subject_type (RunState_run run2) /\
  (Run_subject_id (RunState_run run1) = Run_subject_id (RunState_run run2) -> rid1 = rid2) /\
  (Run_subject_type (RunState_run run1) = "task" -> rid1 = rid2).
Proof.
  intros Hw Ht Hr1 Hr2 Hrun1 Hrun2 Ha1 Ha2.
  destruct (kernel_run_refines E cfg observing cs w sid Hw) as [s Hs].
  destruct (snapshot_run s rid1 run1 Hs Hrun1) as (x & Hx & <- & Hmx).
  destruct (snapshot_run s rid2 run2 Hs Hrun2) as (y & Hy & <- & Hmy).
  destruct Hmx as (_ & _ & _ & -> & -> & _ & Ex), Hmy as (_ & _ & _ & -> & -> & _ & Ey).
  unfold run_is_active, RunState_status in *. rewrite Ex in Ha1. rewrite Ey in Ha2.
  pose proof (sim_inv _ _ _ (refines_sim _ _ _ Hs)) as Hi.
  destruct (inv_modes _ _ Hi x y Hx Hy Ha1 Ha2) as [Hk Hsub].
  split_and!; [done|intros Eq; by rewrite (Hsub Eq)|]. intros Etask.
  by rewrite (task_run_alone sid s x y Hi Hx Hy Ha1 Ha2 Etask).
Qed.

(** C34. A task that is a draft, has succeeded, failed or was cancelled has no run in flight. *)
Theorem settled_task_has_no_active_run sid task rid run :
  kernel_run E cfg observing cs w ->
  reduce_task (hist w sid) sid = Ok task ->
  TaskState_status task ∈ [T_DRAFT; T_SUCCEEDED; T_FAILED; T_CANCELLED] ->
  reduce_run (hist w sid) rid = Ok run -> run_terminal (RunState_status run) = true.
Proof.
  intros Hw Ht Hst Hrun. destruct (kernel_run_refines E cfg observing cs w sid Hw) as [s Hs].
  destruct (snapshot_state (view_snapshot Hs task Ht) s Hs) as (Est & _).
  pose proof (inv_settled _ _ (sim_inv _ _ _ (refines_sim _ _ _ Hs))) as Hq. rewrite Est in Hq.
  specialize (Hq (bool_decide_eq_true_2 _ Hst)). unfold quiet in Hq. rewrite Forall_forall in Hq.
  destruct (snapshot_run s rid run Hs Hrun) as (x & Hx & _ & Hm). destruct Hm as (_ & _ & _ & _ & _ & _ & Ex).
  specialize (Hq x Hx). unfold a_active, run_active in Hq. unfold RunState_status. rewrite Ex. by bool_props.
Qed.

(** The attempts of a subject are numbered 1, 2, 3, ... in the order its runs were created. *)
Theorem attempts_are_consecutive sid task runs kind subject :
  kernel_run E cfg observing cs w ->
  reduce_task (hist w sid) sid = Ok task ->
  Forall2 (fun rid run => reduce_run (hist w sid) rid = Ok run) (TaskState_run_ids task) runs ->
  map RunState_attempt (List.filter (run_for_subject kind subject) runs) =
  map Z.of_nat (seq 1 (length (List.filter (run_for_subject kind subject) runs))).
Proof.
  intros Hw Ht Hruns. destruct (kernel_run_refines E cfg observing cs w sid Hw) as [s Hs].
  pose proof (view_snapshot Hs task Ht) as Hsnap.
  pose proof (snapshot_runs _ _ _ Hsnap s runs Hs Hruns) as Hm.
  assert (map RunState_attempt (List.filter (run_for_subject kind subject) runs) =
          attempts kind subject (a_runs s)) as Eq.
  { clear Hruns. unfold attempts. induction Hm as [|r run rs runs Hr Hm IH]; [done|]. cbn.
    destruct Hr as (_ & _ & _ & E1 & E2 & E3 & _). unfold run_for_subject, same_subject in *.
    rewrite E1, E2. destruct (_ && _); cbn; [|done]. rewrite IH. f_equal. unfold RunState_attempt. by rewrite E3. }
  rewrite <- (length_map RunState_attempt), Eq.
  apply (inv_attempts sid s (sim_inv _ _ _ (refines_sim _ _ _ Hs))).
Qed.

(** C15. Finality. Along a stream, a run keeps its subject and attempt for ever, and once it has
    ended it keeps its status: nothing that happens later, late backend reports included, revives
    or rewrites it. A task that has succeeded or was cancelled keeps its status as well. *)
Theorem finished_is_final sid evs :
  kernel_run E cfg observing cs w -> evs `prefix_of` hist w sid ->
  (forall rid run, reduce_run evs rid = Ok run ->
     exists run', reduce_run (hist w sid) rid = Ok run' /\
       Run_subject_type (RunState_run run') = Run_subject_type (RunState_run run) /\
       Run_subject_id (RunState_run run') = Run_subject_id (RunState_run run) /\
       RunState_attempt run' = RunState_attempt run /\
       (run_terminal (RunState_status run) = true -> RunState_status run' = RunState_status run)) /\
  (forall task, reduce_task evs sid = Ok task -> TaskState_status task ∈ [T_SUCCEEDED; T_CANCELLED] ->
     exists task', reduce_task (hist w sid) sid = Ok task' /\ TaskState_status task' = TaskState_status task).
Proof.
  intros Hw [rest Hrest]. destruct (kernel_run_refines E cfg observing cs w sid Hw) as [s Hs].
  pose proof Hs as Hs0. rewrite Hrest in Hs0. destruct (refines_prefix _ _ _ _ Hs0) as (s1 & ls & Hs1 & Hreach).
  split.
  - intros rid run Hrun. destruct (snapshot_run s1 rid run Hs1 Hrun) as (r & Hr & <- & Hm).
    destruct (areach_runs _ _ _ _ r (sim_inv _ _ _ (refines_sim _ _ _ Hs1)) Hreach Hr) as (r' & Hr' & E1 & E2 & E3 & E4 & E5).
    destruct (view_run Hs r' Hr') as (run' & Hrun' & Hm'). rewrite E1 in Hrun'. exists run'.
    destruct Hm as (_ & _ & _ & F1 & F2 & F3 & F4), Hm' as (_ & _ & _ & G1 & G2 & G3 & G4).
    unfold RunState_attempt, RunState_status. rewrite F1, F2, F3, F4, G1, G2, G3, G4.
    split_and!; try done. intros Ht. rewrite E5; [done|]. unfold a_active, run_active. by rewrite Ht.
  - intros task Ht Hfin. destruct (snapshot_state (view_snapshot Hs1 task Ht) s1 Hs1) as (Est & _).
    pose proof (areach_task_final _ _ _ _ _ Hreach Est Hfin) as Est'.
    assert (hist w sid <> []) as Hne.
    { intros E0. pose proof (sim_task _ _ _ (refines_sim _ _ _ Hs)) as Hsim. rewrite Est', E0 in Hsim.
      destruct Hsim as (a & t & [= <-] & Hat & _). done. }
    destruct (view_task Hs Hne) as [task' Ht']. exists task'. split; [done|].
    destruct (snapshot_state (view_snapshot Hs task' Ht') s Hs) as (Est2 & _). congruence.
Qed.

(** C32. A backend is asked to start a run only after an attempt to dispatch that very run is
    durable in its task's stream. *)
Theorem dispatch_is_recorded_first request :
  kernel_run E cfg observing cs w -> OpStart request ∈ calls w ->
  exists e, e ∈ hist w (OperationContext_correlation_id (ExecutionRequest_context request)) /\
    Event_event_type e = "run.dispatch_attempted" /\ Event_subject_id e = ExecutionRequest_run_id request.
Proof. intros Hw%kernel_run_ok Hc. exact (ok_calls _ _ Hw _ Hc). Qed.

(** C35. The event sink and the output observer only ever see events that are already durable in
    the stream they name. *)
Theorem published_events_are_durable e :
  kernel_run E cfg observing cs w -> OpPublish e ∈ calls w \/ OpObserve e ∈ calls w ->
  e ∈ hist w (Event_correlation_id e).
Proof. intros Hw%kernel_run_ok [Hc|Hc]; exact (ok_calls _ _ Hw _ Hc). Qed.
End properties.
