(* ===== verification/Gating.v ===== *)
(** * No task succeeds without the completion authority

    A syntactic discipline on coroutines that interleaving preserves: a coroutine may only append a
    [task.succeeded] event for a task after the authority has accepted that task in the same
    coroutine. Every public kernel call follows it when the kernel was built with an authority. *)

From S2P Require Import Prelude PyValue Errors Freeze Ident Lifecycle Domain Contracts EventStore.
From S2P Require Import Projection Effects CommitSupport KernelLifecycle Planning RunCommands.
From S2P Require Import TaskCommands Recovery TaskMutations Kernel.

Definition accepted (d : CompletionGateDecision) : bool :=
  bool_decide (CompletionGateDecision_state d = C_ACCEPTED).

(** The task that a reply accepts. *)
Definition accepts (o : op) : res (reply o) -> list string :=
  match o return res (reply o) -> list string with
  | OpAssess t => fun r => match r with Ok d => if accepted d then [t] else [] | Err _ => [] end
  | _ => fun _ => []
  end.

Definition succeeds (e : Event) : Prop := Event_event_type e = "task.succeeded".

Definition gate_pre (acc : list string) (o : op) : Prop :=
  match o with
  | OpCommit _ _ evs _ => forall e, e ∈ evs -> succeeds e -> Event_subject_id e ∈ acc
  | _ => True
  end.

(** [acc] are the tasks that the authority has accepted during this coroutine. *)
Fixpoint gated {A} (p : prog A) (acc : list string) (Q : A -> list string -> Prop) : Prop :=
  match p with
  | Ret a => Q a acc
  | Raise _ => True
  | Vis o k => gate_pre acc o /\ forall r, gated (k r) (accepts o r ++ acc) Q
  end.

(** Gated from any state, promising nothing. *)
Definition tame {A} (p : prog A) : Prop := forall acc, gated p acc (fun _ _ => True).

Section rules.
Context {A B : Type}.
Implicit Types acc : list string.

Lemma gated_mono (p : prog A) acc (Q Q' : A -> list string -> Prop) :
  gated p acc Q -> (forall a acc, Q a acc -> Q' a acc) -> gated p acc Q'.
Proof. revert acc. induction p as [a|e|o k IH]; cbn; intros acc; [auto|done|]. naive_solver. Qed.

Lemma gated_bind (p : prog A) (f : A -> prog B) acc Q :
  gated p acc (fun a acc => gated (f a) acc Q) -> gated (p ≫= f) acc Q.
Proof. revert acc. induction p as [a|e|o k IH]; cbn; intros acc; [done|done|]. naive_solver. Qed.

Lemma gated_after (p : prog A) (f : A -> prog B) acc Q :
  tame p -> (forall a acc, gated (f a) acc Q) -> gated (p ≫= f) acc Q.
Proof. intros Hp Hf. apply gated_bind. eapply gated_mono; [apply Hp|]. auto. Qed.

Lemma tame_bind (p : prog A) (f : A -> prog B) : tame p -> (forall a, tame (f a)) -> tame (p ≫= f).
Proof. intros Hp Hf acc. apply gated_after; [done|]. intros a acc'. apply Hf. Qed.

Lemma tame_ret (a : A) : tame (Ret a).
Proof. done. Qed.
Lemma tame_raise e : tame (Raise e : prog A).
Proof. done. Qed.
Lemma tame_lift (r : res A) : tame (lift r).
Proof. by destruct r. Qed.
Lemma tame_guard b e : tame (guard b e).
Proof. by destruct b. Qed.

Lemma tame_catch (p : prog A) h : tame p -> (forall e, tame (h e)) -> tame (catch p h).
Proof.
  intros Hp Hh acc. specialize (Hp acc). revert acc Hp.
  induction p as [a|e|o k IH]; cbn; intros acc; [done|intros _; apply Hh|]. naive_solver.
Qed.

Lemma tame_attempt (p : prog A) : tame p -> tame (attempt p).
Proof.
  intros Hp acc. specialize (Hp acc). revert acc Hp.
  induction p as [a|e|o k IH]; cbn; intros acc; [done|done|]. naive_solver.
Qed.
End rules.

Lemma tame_for_each {A B} (f : A -> prog B) l : (forall a, tame (f a)) -> tame (for_each f l).
Proof.
  intros Hf. induction l as [|a l IH]; [apply tame_ret|]. cbn [for_each].
  apply tame_bind; [done|intros b]. apply tame_bind; [done|intros bs]. apply tame_ret.
Qed.

(** Any single operation but a commit. *)
Lemma tame_call o : match o with OpCommit _ _ _ _ => False | _ => True end -> tame (call o).
Proof. intros Ho acc. cbn. split; [by destruct o|]. by intros [r|e]. Qed.

(** Computations that accept nothing and commit nothing. *)
Definition quiet_op (o : op) : Prop :=
  match o with OpCommit _ _ _ _ | OpAssess _ => False | _ => True end.
Lemma gated_call_quiet o acc Q :
  quiet_op o -> (forall r, Q r acc) -> gated (call o) acc Q.
Proof. intros Ho Hq. cbn. split; [by destruct o|]. destruct o; try done; intros [r|e]; cbn; auto. Qed.

Create HintDb tame discriminated.
#[export] Hint Constants Opaque : tame.
#[export] Hint Resolve tame_ret tame_raise tame_lift tame_guard : tame.
#[export] Hint Extern 1 (tame (call _)) => (apply tame_call; exact I) : tame.

(** Walk through a program: statements that are tame, and branches. *)
Ltac tame_step :=
  first
    [ solve [eauto with tame]
    | apply tame_bind; [|intros ?]
    | apply tame_for_each; intros ?
    | apply tame_catch; [|intros ?]
    | apply tame_attempt
    | progress cbv zeta
    | match goal with
      | |- tame (match ?x with _ => _ end) => destruct x
      | |- tame (if ?b then _ else _) => destruct b
      end ].
Ltac tame := repeat tame_step.

(** ** Shared mechanics *)

Lemma tame_new_id prefix : tame (new_id prefix).
Proof. unfold new_id. tame. Qed.
Lemma tame_utc_now : tame utc_now.
Proof. unfold utc_now. tame. Qed.
#[export] Hint Resolve tame_new_id tame_utc_now : tame.

Lemma tame_require_key key : tame (require_key key).
Proof. unfold require_key. tame. Qed.
Lemma tame_require_same r o k : tame (require_same_command r o k).
Proof. unfold require_same_command. tame. Qed.
#[export] Hint Resolve tame_require_key tame_require_same : tame.
Lemma tame_existing s k o : tame (existing_command s k o).
Proof. unfold existing_command. tame. Qed.
#[export] Hint Resolve tame_existing : tame.
Lemma tame_task_command t k o : tame (task_command t k o).
Proof. unfold task_command. tame. Qed.
Lemma tame_context t c : tame (context t c).
Proof. unfold context. tame. Qed.
Lemma tame_mirror cfg evs : tame (mirror cfg evs).
Proof. unfold mirror. tame. Qed.
Lemma tame_first_event evs : tame (first_event evs).
Proof. unfold first_event. tame. Qed.
Lemma tame_get_task t : tame (get_task t).
Proof. unfold get_task. tame. Qed.
Lemma tame_get_run t r : tame (get_run t r).
Proof. unfold get_run. tame. Qed.
Lemma tame_history t : tame (history t).
Proof. unfold history. tame. Qed.
Lemma tame_validate_run_subject t s i : tame (validate_run_subject t s i).
Proof. unfold validate_run_subject. tame. Qed.
#[export] Hint Resolve tame_task_command tame_context tame_mirror tame_first_event tame_get_task tame_get_run
  tame_history tame_validate_run_subject : tame.
Lemma tame_collect_runs t keep l : tame (collect_runs t keep l).
Proof. induction l; cbn [collect_runs]; tame. Qed.
Lemma tame_find_run t want l : tame (find_run t want l).
Proof. induction l; cbn [find_run]; tame. Qed.
#[export] Hint Resolve tame_collect_runs tame_find_run : tame.
Lemma tame_active_runs t : tame (active_runs t).
Proof. apply tame_collect_runs. Qed.
Lemma tame_active_run_for t s i : tame (active_run_for_subject t s i).
Proof. apply tame_find_run. Qed.
Lemma tame_next_attempt t s i : tame (next_attempt t s i).
Proof. unfold next_attempt. tame. Qed.
Lemma tame_latest_active t : tame (latest_active_run t).
Proof. apply tame_find_run. Qed.
#[export] Hint Resolve tame_active_runs tame_active_run_for tame_next_attempt tame_latest_active : tame.

(** ** Building and committing events *)

(** What the gate looks at in an event. *)
Definition event_of (etype subject : string) (e : Event) : Prop :=
  Event_event_type e = etype /\ Event_subject_id e = subject.

Lemma gated_event sid etype stype subj cause ot oi project actor source rev payload meta acc :
  gated (event sid etype stype subj cause ot oi project actor source rev payload meta) acc
    (fun e acc' => acc' = acc /\ event_of etype subj e).
Proof.
  unfold event. destruct (enrich _ _ _ _ _) as [d|]; [|done]. destruct (Provenance_post_init _) as [pr|]; [|done].
  cbn. split; [done|]. intros [u|]; [|done]. cbn. split; [done|]. intros [now|]; [|done]. cbn.
  destruct (Event_post_init _) as [e|] eqn:He; [|done]. cbn. split; [done|].
  unfold Event_post_init in He. res_inv. done.
Qed.

Lemma gated_build_events task cause actor source specs acc :
  gated (build_events task cause actor source specs) acc
    (fun es acc' => acc' = acc /\ Forall2 (fun spec => event_of (spec_event_type spec) (spec_subject_id spec)) specs es).
Proof.
  unfold build_events. generalize 1%Z as n. induction specs as [|spec specs IH]; intros n; [cbn; auto|].
  cbn [build_events_from]. unfold build_event at 1. apply gated_bind. eapply gated_mono; [simple apply gated_event|]. intros e acc' [-> He].
  apply gated_bind. eapply gated_mono; [apply IH|]. intros es acc' [-> Hes]. cbn. auto.
Qed.

(** The specifications of a batch only make tasks succeed that the authority accepted. *)
Definition specs_gated (acc : list string) (specs : list EventSpec) : Prop :=
  forall spec, spec ∈ specs -> spec_event_type spec = "task.succeeded" -> spec_subject_id spec ∈ acc.

Lemma built_gated acc specs es :
  specs_gated acc specs -> Forall2 (fun spec => event_of (spec_event_type spec) (spec_subject_id spec)) specs es ->
  forall e, e ∈ es -> succeeds e -> Event_subject_id e ∈ acc.
Proof.
  intros Hs Hes e He Hsucc. apply list_elem_of_lookup_1 in He as [i Hi].
  destruct (Forall2_lookup_r _ _ _ _ _ Hes Hi) as (spec & Hspec & Et & Esub). rewrite Esub.
  apply Hs; [by eapply list_elem_of_lookup_2|]. by rewrite <- Et.
Qed.

(** A commit, after which nothing more is promised. *)
Lemma gated_commit {B} sid rev evs cmd acc (k : CommitResult -> prog B) :
  (forall e, e ∈ evs -> succeeds e -> Event_subject_id e ∈ acc) -> (forall r, tame (k r)) ->
  gated (call (OpCommit sid rev evs cmd) ≫= k) acc (fun _ _ => True).
Proof. intros He Hk. cbn. split; [done|]. intros [r|e]; cbn; [apply Hk|done]. Qed.

Lemma gated_commit_task_command cfg task key operation specs result_id actor source acc :
  specs_gated acc specs ->
  gated (commit_task_command cfg task key operation specs result_id actor source) acc (fun _ _ => True).
Proof.
  intros Hs. unfold commit_task_command, require_key, existing_command.
  destruct (negb (blank key)); [|done]. cbn [mbind prog_bind guard].
  apply gated_bind, gated_bind, gated_call_quiet; [done|]. intros r.
  assert (gated (events ← build_events task key actor source specs;
     first ← first_event events;
     result ← call (OpCommit (TaskState_task_id task) (TaskState_revision task) events
       (Some (command (TaskState_task_id task) key operation (TaskState_task_id task) result_id first)));
     if CommitResult_applied result
     then _ ← mirror cfg events; Ret (command (TaskState_task_id task) key operation (TaskState_task_id task) result_id first)
     else require_same_command (CommitResult_command result) operation key) acc (fun _ _ => True)) as Hrest.
  { apply gated_bind. eapply gated_mono; [apply gated_build_events|]. intros es acc' [-> Hes].
    destruct es as [|e es]; [done|]. cbn [first_event mbind prog_bind].
    apply gated_commit; [by eapply built_gated|]. intros res. tame. }
  destruct r as [r|]; [|exact Hrest]. apply gated_bind. unfold require_same_command.
  by destruct (String.eqb _ _).
Qed.

Lemma gated_append_system_events cfg task cause actor source specs acc :
  specs_gated acc specs ->
  gated (append_system_events cfg task cause actor source specs) acc (fun _ _ => True).
Proof.
  intros Hs. unfold append_system_events. apply gated_bind. eapply gated_mono; [apply gated_build_events|].
  intros es acc' [-> Hes]. apply gated_commit; [by eapply built_gated|]. intros r. tame.
Qed.

(** Batches in which nothing succeeds. *)
Definition no_success (specs : list EventSpec) : Prop := Forall (fun spec => spec_event_type spec <> "task.succeeded") specs.

Lemma no_success_gated specs acc : no_success specs -> specs_gated acc specs.
Proof. intros Hn spec Hin Ht. exfalso. exact (proj1 (Forall_forall _ _) Hn spec Hin Ht). Qed.

Lemma tame_commit_task_command cfg task key operation specs result_id actor source :
  no_success specs -> tame (commit_task_command cfg task key operation specs result_id actor source).
Proof. intros Hn acc. by apply gated_commit_task_command, no_success_gated. Qed.

Lemma tame_append_system_events cfg task cause actor source specs :
  no_success specs -> tame (append_system_events cfg task cause actor source specs).
Proof. intros Hn acc. by apply gated_append_system_events, no_success_gated. Qed.

Ltac no_success_tac :=
  unfold no_success; repeat first
    [ apply Forall_app; split | apply Forall_cons; split | apply Forall_nil
    | match goal with |- context [if ?b then _ else _] => destruct b end
    | discriminate | done ].
#[export] Hint Extern 1 (no_success _) => no_success_tac : tame.
#[export] Hint Resolve tame_commit_task_command tame_append_system_events : tame.

(** ** The kernel with an authority *)

Section authority.
Context (cfg : KernelConfig) (Hauth : has_completion_authority cfg = true).

(** The decisive step: a [task.succeeded] specification comes out only after an acceptance. *)
Lemma gated_completion_task_spec task_id acc :
  gated (completion_task_spec cfg task_id) acc (fun spec acc' =>
    (spec_event_type spec = "task.succeeded" \/ spec_event_type spec = "task.waiting") /\
    spec_subject_id spec = task_id /\ (spec_event_type spec = "task.succeeded" -> task_id ∈ acc')).
Proof.
  unfold completion_task_spec. rewrite Hauth. cbn. split; [done|]. intros [d|e]; [|done]. cbn.
  unfold accepted. destruct (bool_decide _); cbn; [|split_and!; [by right|done|done]]. split_and!; [by left|done|]. intros _. by left.
Qed.

Lemma tame_mark_recovery t r why c : tame (mark_recovery_required cfg t r why c).
Proof. unfold mark_recovery_required. tame. Qed.
Lemma tame_clear_recovery t r c s : tame (clear_recovery_if_needed cfg t r c s).
Proof. unfold clear_recovery_if_needed. tame. Qed.
Lemma tame_wrong_run snap r : tame (wrong_run snap r).
Proof. unfold wrong_run. tame. Qed.
#[local] Hint Resolve tame_mark_recovery tame_clear_recovery tame_wrong_run : tame.

Lemma tame_dispatch t r c a s : tame (dispatch_started_run cfg t r c a s).
Proof.
  unfold dispatch_started_run. tame; apply tame_append_system_events; unfold no_success;
    repeat first [apply Forall_app; split|constructor|discriminate|
      match goal with |- context [if ?b then _ else _] => destruct b end].
Qed.
Lemma tame_backend_snapshot r ctx : tame (backend_snapshot r ctx).
Proof. unfold backend_snapshot. tame. Qed.
#[local] Hint Resolve tame_dispatch tame_backend_snapshot : tame.

Lemma running_specs_no_success task run snap acc :
  gated (running_specs task run snap) acc (fun specs acc' => acc' = acc /\ no_success specs).
Proof.
  unfold running_specs. destruct (bool_decide _); [by split; [|constructor]|]. destruct (negb _); [done|].
  split; [done|]. constructor; [discriminate|]. destruct (bool_decide _); repeat constructor; discriminate.
Qed.

Lemma terminal_prelude_no_success task run target queued acc :
  gated (terminal_prelude task run target queued) acc (fun specs acc' => acc' = acc /\ no_success specs).
Proof.
  assert (forall b (l : list EventSpec), no_success l -> no_success (if (b : bool) then l else [])) as Hif
    by (intros [] l Hl; [done|constructor]).
  unfold terminal_prelude. destruct (RunState_status run); try done.
  - destruct (_ || _); [done|]. by split; [|constructor].
  - destruct (status_in target [R_SUCCEEDED; R_TIMED_OUT]).
    + split; [done|]. constructor; [discriminate|]. apply Hif. repeat constructor. discriminate.
    + destruct (status_in target _); [by split; [|constructor]|done].
  - by split; [|constructor].
Qed.

(** Without success of the run, no success of the task. *)
Lemma terminal_task_no_success t status target :
  target <> R_SUCCEEDED -> no_success (terminal_task_events t status target).
Proof.
  intros Hne. unfold terminal_task_events. destruct (_ && _); [repeat constructor; discriminate|].
  destruct target; try done; cbn [task_event_for_terminal]; rewrite ?andb_false_r; try constructor;
    destruct status; cbn; repeat constructor; discriminate.
Qed.

(** With it, the task that succeeds is the run's. *)
Lemma terminal_task_subject t status target spec :
  spec ∈ terminal_task_events t status target -> spec_subject_id spec = t.
Proof.
  unfold terminal_task_events, task_spec.
  destruct (_ && _); [by intros ->%list_elem_of_singleton|].
  destruct (task_event_for_terminal target); [|by intros ?%elem_of_nil].
  destruct (_ && _), (_ && _); rewrite ?elem_of_app; intros H;
    repeat match goal with
    | H : _ \/ _ |- _ => destruct H
    | H : _ ∈ (if ?b then _ else _) |- _ => destruct b
    | H : _ ∈ [_] |- _ => apply list_elem_of_singleton in H as ->
    | H : _ ∈ [] |- _ => by apply elem_of_nil in H
    end; done.
Qed.

Lemma run_event_not_success target rid out meta : 
  spec_event_type (Build_EventSpec ("run." +:+ enum_value (target : RunStatus)) "run" rid out meta) <> "task.succeeded".
Proof. by destruct target. Qed.

Lemma specs_gated_app acc specs specs' : specs_gated acc specs -> specs_gated acc specs' -> specs_gated acc (specs ++ specs').
Proof. intros H H' spec [Hin|Hin]%elem_of_app; auto. Qed.

Lemma gated_terminal_specs task run target out meta queued acc :
  gated (terminal_specs cfg task run target out meta queued) acc (fun specs acc' => specs_gated acc' specs).
Proof.
  unfold terminal_specs. apply gated_bind. eapply gated_mono; [apply terminal_prelude_no_success|].
  intros prelude acc' [-> Hp]. cbv zeta.
  set (run_event := Build_EventSpec ("run." +:+ enum_value target) "run" (RunState_run_id run) [("output", VMap MDict out)] meta).
  assert (no_success (prelude ++ [run_event])) as Hno.
  { apply Forall_app. split; [done|]. constructor; [apply run_event_not_success|constructor]. }
  assert (forall acc', specs_gated acc' (prelude ++ [run_event])) as Hall by (intros; by apply no_success_gated).
  destruct (String.eqb (Run_subject_type (RunState_run run)) "step"); [apply Hall|].
  destruct (bool_decide_reflect (target = R_SUCCEEDED)) as [_|Hne].
  2: { apply specs_gated_app; [done|]. by apply no_success_gated, terminal_task_no_success. }
  apply gated_bind. eapply gated_mono; [apply gated_completion_task_spec|].
  intros spec acc'' (Htype & Hsub & Hacc). cbv beta.
  destruct (String.eqb_spec (spec_event_type spec) "task.waiting") as [Hw|Hw].
  - apply specs_gated_app; [done|]. destruct (status_in _ _); [|by intros x ?%elem_of_nil].
    intros x ->%list_elem_of_singleton Hx. exfalso. rewrite Hw in Hx. discriminate Hx.
  - apply specs_gated_app; [done|]. intros x Hx _. apply terminal_task_subject in Hx as ->.
    apply Hacc. by destruct Htype.
Qed.

Lemma tame_terminal_then task run target out meta queued (k : list EventSpec -> prog unit) :
  (forall specs acc, specs_gated acc specs -> gated (k specs) acc (fun _ _ => True)) ->
  tame (terminal_specs cfg task run target out meta queued ≫= k).
Proof.
  intros Hk acc. apply gated_bind. eapply gated_mono; [apply gated_terminal_specs|]. intros specs acc' Hs. by apply Hk.
Qed.

Lemma tame_apply_terminal_command task run target out key operation actor source meta queued :
  tame (apply_terminal_command cfg task run target out key operation actor source meta queued).
Proof.
  apply tame_terminal_then. intros specs acc Hs. apply gated_bind.
  eapply gated_mono; [by apply gated_commit_task_command|done].
Qed.

Lemma tame_apply_terminal_system task run target out cause source meta :
  tame (apply_terminal_system cfg task run target out cause source meta).
Proof.
  unfold apply_terminal_system. destruct (run_terminal _); [apply tame_guard|].
  apply tame_terminal_then. intros specs acc Hs. by apply gated_append_system_events.
Qed.
#[local] Hint Resolve tame_apply_terminal_command tame_apply_terminal_system : tame.

(** Running specifications in front of a commit. *)
Lemma tame_running_then {A} task run snap (k : list EventSpec -> prog A) :
  (forall specs, no_success specs -> tame (k specs)) -> tame (running_specs task run snap ≫= k).
Proof.
  intros Hk acc. apply gated_bind. eapply gated_mono; [apply running_specs_no_success|].
  intros specs acc' [-> Hs]. by apply Hk.
Qed.

Lemma tame_apply_snapshot_command t r snap key operation actor source :
  tame (apply_snapshot_command cfg t r snap key operation actor source).
Proof.
  unfold apply_snapshot_command.
  do 3 (apply tame_bind; [eauto with tame|intros ?]).
  destruct (bool_decide _); [tame|]. destruct (bool_decide _); [|tame]. apply tame_running_then. intros specs Hs.
  apply tame_bind; [|intros ?; apply tame_ret]. apply tame_commit_task_command.
  destruct specs; [repeat constructor; discriminate|done].
Qed.

Lemma tame_apply_snapshot_system t r snap cause source : tame (apply_snapshot_system cfg t r snap cause source).
Proof.
  unfold apply_snapshot_system.
  do 3 (apply tame_bind; [eauto with tame|intros ?]).
  destruct (bool_decide _); [tame|]. destruct (bool_decide _); [|tame]. apply tame_running_then. intros specs Hs.
  apply tame_bind; [|intros ?; apply tame_clear_recovery]. destruct specs; [apply tame_ret|by apply tame_append_system_events].
Qed.
#[local] Hint Resolve tame_apply_snapshot_command tame_apply_snapshot_system : tame.

Lemma tame_reconcile t r c : tame (reconcile_started_run cfg t r c).
Proof. unfold reconcile_started_run. tame. Qed.
Lemma tame_finish_cancel t r c : tame (finish_cancel cfg t r c).
Proof. unfold finish_cancel. tame. Qed.
#[local] Hint Resolve tame_reconcile tame_finish_cancel : tame.

(** ** Every public call *)

Lemma tame_plan_task key t a s : tame (plan_task cfg key t a s).
Proof. unfold plan_task, canonical_plan, draw_step_ids, canonical_step. tame. Qed.
Lemma tame_create_run key t st si a s : tame (create_run cfg key t st si a s).
Proof. unfold create_run. tame. Qed.
Lemma tame_retry_task key t a s : tame (retry_task cfg key t a s).
Proof. unfold retry_task. tame. Qed.
Lemma tame_start_run key t r a s : tame (start_run cfg key t r a s).
Proof. unfold start_run. tame. Qed.
#[local] Hint Resolve tame_plan_task tame_create_run tame_retry_task tame_start_run : tame.
Lemma tame_start_task key t a s : tame (start_task cfg key t a s).
Proof. unfold start_task. tame. Qed.
Lemma tame_refresh_run key t r a s : tame (refresh_run cfg key t r a s).
Proof. unfold refresh_run. tame. Qed.
Lemma tame_retry_stale {A} n last (once : prog A) : tame once -> tame (retry_stale n last once).
Proof. intros Ho. revert last. induction n as [|n IH]; intros last; cbn [retry_stale]; [apply tame_raise|]. tame. Qed.
Lemma tame_record_once key t r st out a s m : tame (record_run_outcome_once cfg key t r st out a s m).
Proof. unfold record_run_outcome_once. tame. Qed.
Lemma tame_record key t r st out a s m : tame (record_run_outcome cfg key t r st out a s m).
Proof. unfold record_run_outcome. apply tame_bind; [apply tame_guard|intros ?]. apply tame_retry_stale, tame_record_once. Qed.
Lemma tame_cancel_run key t r a s : tame (cancel_run cfg key t r a s).
Proof. unfold cancel_run. tame. Qed.
#[local] Hint Resolve tame_start_task tame_refresh_run tame_record tame_cancel_run : tame.

Lemma tame_invalidate t : tame (invalidate_completion_subject cfg t).
Proof. unfold invalidate_completion_subject. tame. Qed.
Lemma tame_attachment_subject t r : tame (attachment_subject t r).
Proof. unfold attachment_subject. tame. Qed.
#[local] Hint Resolve tame_invalidate tame_attachment_subject : tame.
Lemma tame_attach_artifact key t i r a s : tame (attach_artifact cfg key t i r a s).
Proof. unfold attach_artifact. tame. Qed.
Lemma tame_attach_result key t i r a s : tame (attach_result cfg key t i r a s).
Proof. unfold attach_result. tame. Qed.
#[local] Hint Resolve tame_attach_artifact tame_attach_result : tame.
Lemma tame_canonical_attachment t k et f v r : tame (canonical_attachment_event t k et f v r).
Proof. unfold canonical_attachment_event. tame. Qed.
#[local] Hint Resolve tame_canonical_attachment : tame.
Lemma tame_observed_artifact observing key t i r a s : tame (observed_attach_artifact cfg observing key t i r a s).
Proof. unfold observed_attach_artifact. tame. Qed.
Lemma tame_observed_result observing key t i r a s : tame (observed_attach_result cfg observing key t i r a s).
Proof. unfold observed_attach_result. tame. Qed.

Lemma tame_task_batch task key op specs t a s : no_success specs -> tame (task_batch cfg task key op specs t a s).
Proof. intros Hn. unfold task_batch. tame. Qed.
#[local] Hint Resolve tame_task_batch : tame.

Lemma tame_create_task key title objective ot oi project t a s :
  tame (create_task cfg key title objective ot oi project t a s).
Proof.
  unfold create_task. apply tame_bind; [eauto with tame|intros ?]. apply tame_bind; [eauto with tame|intros existing].
  destruct existing; [tame|]. do 3 (apply tame_bind; [unfold or_new_id; tame|intros ?]).
  do 4 (apply tame_bind; [tame|intros ?]). intros acc. apply gated_bind.
  eapply gated_mono; [simple apply gated_event|]. intros e acc' [-> [Et _]]. cbv zeta.
  apply gated_commit.
  - intros x ->%list_elem_of_singleton Hx. unfold succeeds in Hx. rewrite Et in Hx. discriminate Hx.
  - intros r. tame.
Qed.
Lemma tame_update_task key t ti ob me a s : tame (update_task cfg key t ti ob me a s).
Proof. unfold update_task. tame. Qed.
Lemma tame_ready_task key t a s : tame (ready_task cfg key t a s).
Proof. unfold ready_task. tame. Qed.
Lemma tame_wait_task key t r b a s : tame (wait_task cfg key t r b a s).
Proof. unfold wait_task. tame. Qed.
Lemma tame_resume_task key t a s : tame (resume_task cfg key t a s).
Proof. unfold resume_task. tame. Qed.
Lemma tame_no_active_run t v r : tame (no_active_run t v r).
Proof. unfold no_active_run. tame. Qed.
#[local] Hint Resolve tame_no_active_run : tame.
Lemma tame_fail_task key t r a s : tame (fail_task cfg key t r a s).
Proof. unfold fail_task. tame. Qed.
Lemma tame_cancel_task key t a s : tame (cancel_task cfg key t a s).
Proof. unfold cancel_task. tame. Qed.

Lemma tame_complete_task key t a s : tame (complete_task cfg key t a s).
Proof.
  unfold complete_task. do 2 (apply tame_bind; [eauto with tame|intros ?]). destruct a1; [tame|].
  do 3 (apply tame_bind; [eauto with tame|intros ?]). intros acc. apply gated_bind.
  eapply gated_mono; [simple apply gated_completion_task_spec|]. intros spec acc' (_ & Hsub & Hacc). cbv zeta.
  unfold task_batch. apply gated_bind. eapply gated_mono; [apply gated_commit_task_command|intros; apply tame_get_task].
  apply specs_gated_app.
  - apply no_success_gated. destruct (_ && _); [repeat constructor; discriminate|constructor].
  - intros x ->%list_elem_of_singleton Hx. rewrite Hsub. auto.
Qed.

Lemma tame_recover_run task t r run : tame (recover_run cfg task t r run).
Proof. unfold recover_run. tame. Qed.
#[local] Hint Resolve tame_recover_run : tame.
Lemma tame_recover_entry task t r : tame (recover_entry cfg task t r).
Proof. unfold recover_entry. tame. Qed.
#[local] Hint Resolve tame_recover_entry : tame.
Lemma tame_recover_task t : tame (recover_task cfg t).
Proof. unfold recover_task. tame. Qed.
#[local] Hint Resolve tame_recover_task : tame.
Lemma tame_recover_all : tame (recover_all cfg).
Proof. unfold recover_all. tame. Qed.

Lemma tame_command_event r et : tame (command_event r et).
Proof. unfold command_event. tame. Qed.
#[local] Hint Resolve tame_command_event : tame.
Lemma tame_replayed_metadata t k md : tame (replayed_planning_metadata t k md).
Proof. unfold replayed_planning_metadata. tame. Qed.
Lemma tame_replayed_reassignment t d k : tame (replayed_project_reassignment t d k).
Proof. unfold replayed_project_reassignment. tame. Qed.
Lemma tame_bulk_reserved d k : tame (bulk_project_reassignment_reserved d k).
Proof. unfold bulk_project_reassignment_reserved. tame. Qed.
#[local] Hint Resolve tame_replayed_metadata tame_replayed_reassignment tame_bulk_reserved : tame.
Lemma tame_update_planning t md k a s : tame (update_planning_metadata cfg t md k a s).
Proof. unfold update_planning_metadata. tame. Qed.
Lemma tame_reassign t src dst rev k a s : tame (reassign_project cfg t src dst rev k a s).
Proof. unfold reassign_project. tame. Qed.
Lemma tame_reserve_bulk t d moves k a s : tame (reserve_bulk_project_reassignment cfg t d moves k a s).
Proof.
  unfold reserve_bulk_project_reassignment. do 4 (apply tame_bind; [eauto with tame|intros ?]).
  destruct a3; [tame|]. apply tame_bind; [eauto with tame|intros ?]. intros acc. apply gated_bind.
  eapply gated_mono; [simple apply gated_build_events|]. intros es acc' [-> Hes].
  destruct es as [|e es]; [done|]. cbn [first_event mbind prog_bind]. cbv zeta. apply gated_commit.
  - eapply built_gated; [|exact Hes]. apply no_success_gated. repeat constructor. discriminate.
  - intros r. tame.
Qed.

Lemma tame_ignore {A} (p : prog A) : tame p -> tame (ignore p).
Proof. intros Hp. apply tame_bind; [done|intros ?; apply tame_ret]. Qed.

#[local] Hint Resolve tame_create_task tame_update_task tame_ready_task tame_wait_task tame_resume_task
  tame_complete_task tame_fail_task tame_cancel_task tame_observed_artifact tame_observed_result
  tame_recover_all tame_update_planning tame_reassign tame_reserve_bulk : tame.

Lemma tame_kernel_program observing c : tame (kernel_program cfg observing c).
Proof.
  destruct c as [c|c|c]; destruct c; cbn [kernel_program task_program run_program service_program];
    apply tame_ignore; auto with tame.
Qed.
End authority.
