(* ===== verification/KernelGate.v ===== *)
(** * The kernel behind the completion gate

    However kernel calls interleave, a task only succeeds after its authority accepted it; and when
    that authority is the one of verification/gate.py, behind every success stands the verified
    evidence that the task's policy asks for. *)

From S2P Require Import Prelude PyValue Errors StateMonad Freeze Ident Lifecycle Domain Contracts.
From S2P Require Import PyTime VerificationModels VerificationService VerificationInvariant.
From S2P Require Import VerificationTheorems CompletionGate GateTheorems.
From S2P Require Import EventStore Projection Effects CommitSupport KernelLifecycle Planning RunCommands.
From S2P Require Import TaskCommands Recovery TaskMutations Kernel Machine Stream.
From S2P Require Import Interference Refinement CommandSafety TaskSafety Interleaving KernelTheorems Gating.

(** ** Interleavings keep the discipline *)

Section pool.
Context {R : Type} `{EventRepositoryLaws R} (E : env).
Implicit Types w : world R.

(** The authority accepted the task before moment [n]. *)
Definition approved (n : nat) (task_id : string) : Prop :=
  exists k d, k < n /\ env_assess E k task_id = Ok d /\ CompletionGateDecision_state d = C_ACCEPTED.

Lemma approved_mono n m t : n <= m -> approved n t -> approved m t.
Proof. intros Hn (k & d & Hk & H1 & H2). exists k, d. split; [lia|done]. Qed.

Record gate_ok (c : list (prog unit) * world R) : Prop := {
  gate_threads i p : c.1 !! i = Some p -> exists acc, gated p acc (fun _ _ => True) /\
    forall t, t ∈ acc -> approved (clock c.2) t;
  gate_events sid e : e ∈ hist c.2 sid -> succeeds e -> approved (clock c.2) (Event_subject_id e)
}.

Lemma assessed_approved o w t : t ∈ accepts o (do_op E o w).1 -> approved (S (clock w)) t.
Proof.
  destruct o; cbn [accepts]; try by intros ?%elem_of_nil. cbn [do_op fst].
  destruct (env_assess E (clock w) task_id) as [d|] eqn:Hd; cbn [mbind result_bind]; [|by intros ?%elem_of_nil].
  destruct (CompletionGateDecision_post_init d) as [d'|] eqn:Hpi; [|by intros ?%elem_of_nil].
  apply decision_state in Hpi as ->. unfold accepted. case_bool_decide; [|by intros ?%elem_of_nil].
  intros ->%list_elem_of_singleton. exists (clock w), d. split; [lia|done].
Qed.

(** What an operation adds to the streams, it was allowed to commit. *)
Lemma do_op_events o w sid e :
  e ∈ hist (do_op E o w).2 sid -> e ∈ hist w sid \/
  match o with OpCommit _ _ evs _ => e ∈ evs | _ => False end.
Proof.
  destruct o; cbn [do_op snd]; try (by left).
  destruct (commit (repo w) stream_id expected_revision events command) as [r repo'] eqn:Ec. cbn [snd].
  unfold hist. cbn [repo]. destruct r as [res|x].
  - destruct (CommitResult_applied res) eqn:Ea.
    + destruct (commit_applied _ _ _ _ _ _ _ Ec Ea) as (_ & _ & Hread & _). rewrite Hread.
      destruct (String.eqb_spec sid stream_id) as [->|]; [|by left]. rewrite elem_of_app. intros [?|?]; auto.
    + destruct (commit_duplicate _ _ _ _ _ _ _ Ec Ea) as (-> & _). by left.
  - destruct (commit_rejected _ _ _ _ _ _ _ Ec) as [Hsame _]. rewrite Hsame. by left.
Qed.

Lemma gate_ok_step c c' : gate_ok c -> pool_step E c c' -> gate_ok c'.
Proof.
  intros [Ht He] Hstep. destruct Hstep as [i pool o k w Hi]. cbn [fst snd] in *.
  destruct (Ht i _ Hi) as (acc & [Hpre Hk] & Hacc).
  assert (clock (do_op E o w).2 = S (clock w)) as Hclock by apply do_op_clock.
  split; cbn [fst snd]; rewrite Hclock.
  - intros j p. destruct (decide (j = i)) as [->|Hne].
    + rewrite list_lookup_insert_eq by (by eapply lookup_lt_Some). intros [= <-].
      exists (accepts o (do_op E o w).1 ++ acc). split; [apply Hk|].
      intros t [Hin|Hin]%elem_of_app; [exact (assessed_approved o w t Hin)|].
      eapply approved_mono; [|by apply Hacc]. lia.
    + rewrite list_lookup_insert_ne by done. intros Hj. destruct (Ht j p Hj) as (acc' & Hg & Hacc').
      exists acc'. split; [done|]. intros t Hin. eapply approved_mono; [|by apply Hacc']. lia.
  - intros sid e Hin Hs. apply (approved_mono (clock w)); [lia|].
    destruct (do_op_events o w sid e Hin) as [Hold|Hnew]; [by eapply He|].
    destruct o; try done. apply Hacc, Hpre; done.
Qed.

Lemma gate_ok_reach c0 c : gate_ok c0 -> pool_reach E c0 c -> gate_ok c.
Proof. intros Hok. induction 1; [done|by eapply gate_ok_step]. Qed.
End pool.

(** ** A task that reads as succeeded has a success in its stream *)

Lemma Task_post_init_status t t' : Task_post_init t = Ok t' -> Task_status t' = Task_status t.
Proof. unfold Task_post_init. intros H. by res_inv. Qed.

Lemma transition_status task target e t : transition_task task target e = Ok t -> Task_status t = target.
Proof.
  unfold transition_task. case_bool_decide; [by intros [= <-]|]. intros H1. res_inv.
  apply Task_post_init_status in H1. rewrite H1. by destruct task.
Qed.

Lemma step_success sid a e a' t :
  reduce_task_step sid a e = Ok a' -> ta_task a' = Some t -> Task_status t = T_SUCCEEDED ->
  (exists t0, ta_task a = Some t0 /\ Task_status t0 = T_SUCCEEDED) \/ (succeeds e /\ Event_subject_id e = sid).
Proof.
  unfold reduce_task_step. intros H Ht Hs. destruct (negb _); [done|]. cbv zeta in H.
  destruct (String.eqb (Event_event_type e) "task.created" && String.eqb (Event_subject_id e) sid).
  { unfold task_created in H. destruct (ta_task a); [done|]. res_inv. cbn in Ht. injection Ht as <-.
    match goal with H : Task_post_init _ = _ |- _ => apply Task_post_init_status in H; cbn in H end. congruence. }
  destruct (ta_task a) as [t0|] eqn:Ha; [|left; injection H as <-; by rewrite Ha in Ht].
  destruct (_ && _).
  { left. exists t0. split; [done|]. unfold task_updated in H. do 2 (case_match; try done). res_inv. cbn in Ht.
    injection Ht as <-. match goal with H : Task_post_init _ = _ |- _ => apply Task_post_init_status in H end.
    destruct t0. cbn in *. congruence. }
  destruct (_ && _).
  { left. exists t0. split; [done|]. unfold task_project_reassigned in H. res_inv. cbn in Ht. injection Ht as <-.
    match goal with H : Task_post_init _ = _ |- _ => apply Task_post_init_status in H end.
    destruct t0. cbn in *. congruence. }
  assert (ta_task a' = ta_task a -> exists t1, Some t0 = Some t1 /\ Task_status t1 = T_SUCCEEDED) as Hkeep.
  { intros E. exists t0. split; [done|]. congruence. }
  assert (forall r : res TaskAcc, r = Ok a' -> r = plan_created e a \/ r = task_attachments sid e a ->
    exists t1, Some t0 = Some t1 /\ Task_status t1 = T_SUCCEEDED) as Hrest.
  { intros r Hr [->| ->]; apply Hkeep; [unfold plan_created in Hr|unfold task_attachments in Hr];
      repeat first [progress res_inv|match goal with H : match ?x with _ => _ end = Ok _ |- _ => destruct x end]; done. }
  destruct (dict_get (Event_event_type e) TASK_EVENT_STATUS) as [target|] eqn:Htab;
    [destruct (String.eqb_spec (Event_subject_id e) sid) as [Hsub|]|].
  2,3: left; eapply (Hrest _ H); destruct (_ && _); auto.
  unfold task_transitioned in H. res_inv.
  assert (ta_task a' = Some x) as Ex by (destruct (bool_decide _); res_inv; done).
  rewrite Ex in Ht. injection Ht as ->.
  match goal with H : transition_task _ _ _ = _ |- _ => apply transition_status in H end.
  right. split; [|done]. assert (target = T_SUCCEEDED) as -> by congruence.
  unfold succeeds, TASK_EVENT_STATUS in *. cbn in Htab.
  repeat match goal with H : (if String.eqb ?x ?y then _ else _) = Some _ |- _ =>
    destruct (String.eqb_spec x y); [done || congruence|] end; done.
Qed.

Lemma succeeded_event sid evs a t :
  reduce_task_acc sid evs = Ok a -> ta_task a = Some t -> Task_status t = T_SUCCEEDED ->
  exists e, e ∈ evs /\ succeeds e /\ Event_subject_id e = sid.
Proof.
  revert a t. induction evs as [|e evs IH] using rev_ind; intros a t.
  { by intros [= <-]. }
  unfold reduce_task_acc. rewrite fold_res_snoc. destruct (fold_res _ _ evs) as [a0|] eqn:Ha0; [|done].
  intros Hstep Ht Hs. destruct (step_success _ _ _ _ _ Hstep Ht Hs) as [(t0 & Ht0 & Hs0)|[He Hsub]].
  - destruct (IH a0 t0 Ha0 Ht0 Hs0) as (x & Hx & ?). exists x. split; [|done]. apply elem_of_app. by left.
  - exists e. split; [|done]. apply elem_of_app. right. by left.
Qed.

(** ** The guarantees *)

Section kernel.
Context {R : Type} `{EventRepositoryLaws R}.
Context (E : env) (cfg : KernelConfig) (observing : bool) (cs : list kernel_call) (w : world R).

Lemma kernel_run_gate_ok : has_completion_authority cfg = true -> kernel_run E cfg observing cs w ->
  exists pool, gate_ok E (pool, w).
Proof.
  intros Hauth (bound & r0 & n0 & pool & _ & _ & Hempty & Hreach). exists pool.
  eapply gate_ok_reach; [|exact Hreach]. split; cbn [fst snd].
  - intros i p Hp. exists []. split; [|by intros t ?%elem_of_nil].
    apply list_elem_of_lookup_2, list_elem_of_fmap in Hp as (c & -> & _). by apply tame_kernel_program.
  - intros sid e He. unfold hist in He. cbn in He. rewrite Hempty in He. by apply elem_of_nil in He.
Qed.

(** C19. No success without acceptance. When the kernel was built with a completion authority, then
    however its public calls interleave, and whatever the backend reports, a task reads as succeeded
    only if the authority was asked about this task before and accepted it. *)
Theorem success_needs_acceptance task_id task :
  has_completion_authority cfg = true -> kernel_run E cfg observing cs w ->
  reduce_task (hist w task_id) task_id = Ok task -> TaskState_status task = T_SUCCEEDED ->
  exists n d, n < clock w /\ env_assess E n task_id = Ok d /\ CompletionGateDecision_state d = C_ACCEPTED.
Proof.
  intros Hauth Hrun Ht Hs. destruct (kernel_run_gate_ok Hauth Hrun) as [pool Hok].
  unfold reduce_task in Ht. res_inv. destruct (ta_task x) as [t|] eqn:Hx; [|done]. injection Ht as <-.
  destruct (succeeded_event task_id _ x t ltac:(eassumption) Hx Hs) as (e & He & Hsucc & Hsub).
  pose proof (gate_events _ _ Hok task_id e He Hsucc) as Happ. by rewrite Hsub in Happ.
Qed.
End kernel.

(** The authority of verification/gate.py behind the kernel: at every moment in a state that calls of the authority and
    of its service reach, and moved from one moment to the next by such calls only. *)
Record gate_env (E : env) (bound : nat) (authority : nat -> VerificationCompletionAuthority) : Prop := {
  gate_states n : gate_reachable (env_now E) (env_uuid E) bound (authority n);
  gate_moves n : gate_reach (env_now E) (env_uuid E) (authority n) (authority (S n));
  gate_answers n task_id : env_assess E n task_id = (assess_task_completion (env_now E) task_id (authority n)).1
}.

Section behind.
Context (E : env) (bound : nat) (authority : nat -> VerificationCompletionAuthority).
Context (distinct : forall n m, n < bound -> m < bound -> env_uuid E n = env_uuid E m -> n = m).
Context (Hgate : gate_env E bound authority).

Lemma gate_moves_between m n : m <= n -> gate_reach (env_now E) (env_uuid E) (authority m) (authority n).
Proof.
  induction 1 as [|n Hmn IH]; [constructor|]. eapply gate_reach_trans; [exact IH|]. exact (gate_moves _ _ _ Hgate n).
Qed.

(** A task without a requirement never had one. *)
Lemma no_requirement_before n task_id :
  authority_requirements (authority n) !! task_id = None ->
  forall m, m <= n -> authority_requirements (authority m) !! task_id = None.
Proof.
  intros Hnone m Hmn. destruct (authority_requirements (authority m) !! task_id) as [r|] eqn:Hr; [|done].
  destruct (task_policy_is_permanent (env_now E) (env_uuid E) bound distinct _ _ task_id r
    (gate_states _ _ _ Hgate m) (gate_moves_between m n Hmn) Hr) as (r' & Hr' & _). congruence.
Qed.
End behind.

(** C3. Completed work is verified where verification is required. Let the authority of verification/gate.py stand
    behind the kernel, in states in which no two requests share a recorded result (which only a reused result
    identifier brings about). However the kernel's calls interleave, each task that reads as succeeded was accepted by
    the authority at a moment when one of three things held: no verification requirement had been set for the task at
    any moment up to then; the registered policy of its requirement had no stages; or the subject bound to the task
    had the proper, unexpired and independent evidence that every stage of this policy asks for, and nothing against
    it. *)
Theorem completed_work_is_verified {R} `{EventRepositoryLaws R} E cfg observing cs (w : world R) bound authority
    task_id task :
  (forall n m, n < bound -> m < bound -> env_uuid E n = env_uuid E m -> n = m) ->
  gate_env E bound authority -> (forall n, n < clock w -> results_unshared (authority_verification (authority n))) ->
  has_completion_authority cfg = true -> kernel_run E cfg observing cs w ->
  reduce_task (hist w task_id) task_id = Ok task -> TaskState_status task = T_SUCCEEDED ->
  exists n d, n < clock w /\ env_assess E n task_id = Ok d /\ CompletionGateDecision_state d = C_ACCEPTED /\
    match authority_requirements (authority n) !! task_id with
    | None => forall m, m <= n -> authority_requirements (authority m) !! task_id = None
    | Some r => exists policy, svc_policies (authority_verification (authority n))
                                 !! (requirement_policy_id r, requirement_policy_version r) = Some policy /\
        (policy_stages policy = [] \/
         exists subject, requirement_subject r = Some subject /\
           verified (authority_verification (authority n)) task_id subject policy
             (Aware (env_now E (svc_draws (authority_verification (authority n))))))
    end.
Proof.
  intros Hd Hgate Hun Hauth Hrun Ht Hs. destruct (kernel_run_gate_ok E cfg observing cs w Hauth Hrun) as [pool Hok].
  unfold reduce_task in Ht. res_inv. destruct (ta_task x) as [t|] eqn:Hx; [|done]. injection Ht as <-.
  destruct (succeeded_event task_id _ x t ltac:(eassumption) Hx Hs) as (e & He & Hsucc & Hsub).
  pose proof (gate_events _ _ Hok task_id e He Hsucc) as Happ. rewrite Hsub in Happ.
  destruct Happ as (n & d & Hn & Hassess & Hacc). exists n, d. split_and!; [exact Hn|exact Hassess|exact Hacc|].
  rewrite (gate_answers _ _ _ Hgate) in Hassess.
  destruct (assess_task_completion (env_now E) task_id (authority n)) as [r a'] eqn:Hrun'. cbn in Hassess. subst r.
  pose proof (gate_accepts (env_now E) (env_uuid E) bound Hd (authority n) task_id d a' (gate_states _ _ _ Hgate n)
    (Hun n Hn) Hrun' Hacc) as Hbasis. unfold acceptance_basis in Hbasis.
  destruct (authority_requirements (authority n) !! task_id) as [r|] eqn:Hr;
    [|exact (no_requirement_before E bound authority Hd Hgate n task_id Hr)].
  destruct Hbasis as (policy & Hp & [Hnil|(subject & Hsubj & _ & Hver)]); exists policy; (split; [exact Hp|]);
    [by left|right]. exists subject. split; [exact Hsubj|exact Hver].
Qed.
