(* ===== verification/Samples.v ===== *)
(** * A concrete environment and concrete executions

    A deterministic clock, UUID source, planner and backend over the in-memory repository, and the
    worlds that sequences of kernel calls reach in it. The witnesses of the kernel's theorems
    evaluate these worlds. *)

From S2P Require Import Prelude PyValue Errors Freeze Ident Lifecycle Domain Contracts EventStore.
From S2P Require Import Projection Effects CommitSupport KernelLifecycle Planning RunCommands.
From S2P Require Import TaskCommands Recovery TaskMutations Kernel Machine Stream.
From S2P Require Import Interference Refinement CommandSafety TaskSafety Interleaving.
From S2P Require Import KernelTheorems.

(** ** The environment *)

(** UUIDs that count the operations of the world. *)
Definition sample_uuid (n : nat) : string := string_of_list_ascii (dashed (rev (hex_pad 32 (N.of_nat n)))).

Definition sample_plan (n : nat) (request : PlanRequest) : res PlanResponse :=
  Ok (Build_PlanResponse "two steps"
        [Build_PlanStepProposal "collect" "Collect" "collect the inputs" [] [];
         Build_PlanStepProposal "write" "Write" "write the report" ["collect"] []] []).

Definition sample_snapshot (status : ExecutionStatus) (run_id : string) : res ExecutionSnapshot :=
  Ok (Build_ExecutionSnapshot run_id status [] []).

(** A backend that accepts every run and then reports [status]. *)
Definition sample_env (status : ExecutionStatus) : env :=
  Build_env (fun n => Z.of_nat n) sample_uuid sample_plan
    (fun n request => Ok (Build_ExecutionHandle (ExecutionRequest_run_id request) (Some "job-1") []))
    (fun n run_id ctx => sample_snapshot status run_id)
    (fun n run_id ctx => sample_snapshot R_CANCELLED run_id)
    (fun n task_id => Ok (Build_CompletionGateDecision task_id C_ACCEPTED "accepted" None None None [] 0))
    (fun n task_id => Ok tt) (fun n e => Ok tt) (fun n e => Ok tt).

Definition sample_cfg : KernelConfig := Build_KernelConfig true false false false.

Definition sample_bound : nat := 400.

Lemma sample_uuids status : uuid_source_ok (sample_env status) sample_bound.
Proof.
  split.
  - intros n. exists (rev (hex_pad 32 (N.of_nat n))). cbn [env_uuid sample_env]. unfold sample_uuid.
    rewrite chars_of_list, length_rev. destruct (hex_pad_hex 32 (N.of_nat n)) as [Hh Hl].
    split_and!; [done..|]. rewrite forallb_forall in *. intros c Hc%in_rev. auto.
  - assert (NoDup (map sample_uuid (seq 0 sample_bound))) as Hnd.
    { apply (bool_decide_eq_true_1 _). by vm_compute. }
    intros n m Hn Hm Heq. cbn in Heq.
    apply (NoDup_lookup _ n m (sample_uuid n) Hnd); rewrite list_lookup_fmap, lookup_seq_lt by done; cbn; congruence.
Qed.

(** ** Running calls one after another *)

Section sequential.
Context {R : Type} `{EventRepository R}.
Context (E : env).

Fixpoint exec_all (ps : list (prog unit)) (w : world R) : world R :=
  match ps with
  | [] => w
  | p :: ps' => exec_all ps' (exec E p w).2
  end.

Lemma exec_all_reach ps pre w :
  exists pool, pool_reach E (pre ++ ps, w) (pool, exec_all ps w).
Proof.
  revert pre w. induction ps as [|p ps IH]; intros pre w; cbn [exec_all].
  { eexists. constructor. }
  destruct (pool_reach_exec E (length pre) (pre ++ p :: ps) p w) as (pool & Hlen & Hrest & Hr).
  { by rewrite lookup_app_r, Nat.sub_diag by lia. }
  rewrite length_app in Hlen. cbn in Hlen.
  assert (exists p', pool = (pre ++ [p']) ++ ps) as [p' ->].
  { destruct (lookup_lt_is_Some_2 pool (length pre)) as [p' Hp']; [lia|]. exists p'.
    apply list_eq. intros j. destruct (decide (j = length pre)) as [->|Hj].
    - rewrite Hp', lookup_app_l by (rewrite length_app; cbn; lia).
      by rewrite lookup_app_r, Nat.sub_diag by lia.
    - rewrite Hrest by done. destruct (decide (j < length pre)).
      + by rewrite <- app_assoc, !lookup_app_l by lia.
      + rewrite <- app_assoc, !lookup_app_r by lia.
        destruct (j - length pre) as [|k] eqn:Ek; [lia|done]. }
  destruct (IH (pre ++ [p']) (exec E p w).2) as [pool' Hr'].
  exists pool'. by eapply pool_reach_trans.
Qed.
End sequential.

(** The world after running the calls in order from an empty in-memory repository. *)
Definition sample_world (status : ExecutionStatus) (cs : list kernel_call) : world InMemoryKernelRepository :=
  exec_all (sample_env status) (map (kernel_program sample_cfg true) cs) (Build_world mem_empty 0 []).

Lemma sample_run status cs :
  clock (sample_world status cs) <= sample_bound ->
  kernel_run (sample_env status) sample_cfg true cs (sample_world status cs).
Proof.
  intros Hc. destruct (exec_all_reach (sample_env status) (map (kernel_program sample_cfg true) cs) []
    (Build_world mem_empty 0 [])) as [pool Hr].
  exists sample_bound, mem_empty, 0, pool. split_and!; [apply sample_uuids|done|done|exact Hr].
Qed.

(** ** Sample calls *)

Definition sample_task : string := "task_00000000-0000-0000-0000-000000000001".

Definition create_and_ready : list kernel_call :=
  [TaskCall (CreateTask "k1" "Report" "write the report" "user" "u1" None (Some sample_task) None "test");
   TaskCall (ReadyTask "k2" sample_task None "test")].

Definition start_and_finish : list kernel_call :=
  create_and_ready ++
  [RunCall (StartTask "k3" sample_task None "test")].

Definition sample_runs (w : world InMemoryKernelRepository) : list string :=
  match reduce_task (hist w sample_task) sample_task with
  | Ok task => TaskState_run_ids task
  | Err _ => []
  end.

Lemma is_ok_inv {A} (r : res A) : is_ok r = true -> exists a, r = Ok a.
Proof. destruct r; [eauto|done]. Qed.

(** A result that passes a boolean test. *)
Definition ok_and {A} (r : res A) (p : A -> bool) : bool := match r with Ok a => p a | Err _ => false end.

Lemma ok_and_inv {A} (r : res A) p : ok_and r p = true -> exists a, r = Ok a /\ p a = true.
Proof. destruct r; [eauto|done]. Qed.
