(* ===== verification/VerificationSamples.v ===== *)
(** * A concrete verification service and its theorems there

    A clock, a UUID source, a policy with a human review, and the states that calls reach; each
    witness applies a theorem to one of them. *)

From Stdlib Require Import SpecFloat.
From stdpp Require Import sorting.
From S2P Require Import Prelude PyValue Errors StateMonad Freeze Ident Lifecycle Domain Contracts.
From S2P Require Import PyTime VerificationModels VerificationService VerificationInvariant.
From S2P Require Import VerificationTheorems VerificationRecords CompletionGate GateTheorems.
From S2P Require Import EventStore Effects Samples.

Definition sample_clock (n : nat) : Z := (Z.of_nat n * 1000000)%Z.

Lemma sample_uuid_distinct n m :
  n < sample_bound -> m < sample_bound -> sample_uuid n = sample_uuid m -> n = m.
Proof. exact (uuid_distinct _ _ (sample_uuids R_RUNNING) n m). Qed.

(** ** Sequences of calls *)

Fixpoint run_calls (cs : list svc_call) (s : VerificationService) : VerificationService :=
  match cs with
  | [] => s
  | c :: cs' => run_calls cs' (run_call sample_clock sample_uuid c s).2
  end.

Lemma run_calls_reach cs s : svc_reach sample_clock sample_uuid s (run_calls cs s).
Proof.
  revert s. induction cs as [|c cs IH]; intros s; cbn [run_calls]; [constructor|].
  eapply svc_reach_trans; [|by apply IH]. apply (svc_reach_call _ _ s s c). constructor.
Qed.

Lemma run_calls_app cs cs' s : run_calls (cs ++ cs') s = run_calls cs' (run_calls cs s).
Proof. revert s. induction cs as [|c cs IH]; intros s; [done|]. apply IH. Qed.

(** The state after the calls, and that it is reachable. *)
Definition after_calls (cs : list svc_call) : VerificationService := run_calls cs (new_service false false).

Lemma after_calls_reachable cs : bool_decide (svc_draws (after_calls cs) <= sample_bound) = true ->
  reachable sample_clock sample_uuid sample_bound (after_calls cs).
Proof. intros Hb%bool_decide_eq_true. split; [done|]. exists false, false. apply run_calls_reach. Qed.

(** No two requests share a result, as a check. *)
Definition unsharedb (s : VerificationService) : bool :=
  let bound := map_to_list (svc_result_by_verification s) in
  forallb (fun x => forallb (fun y => negb (String.eqb x.2 y.2) || String.eqb x.1 y.1) bound) bound.

Lemma unsharedb_ok s : unsharedb s = true -> results_unshared s.
Proof.
  unfold unsharedb. intros H v1 v2 i H1%elem_of_map_to_list%list_elem_of_In H2%elem_of_map_to_list%list_elem_of_In.
  rewrite forallb_forall in H. specialize (H _ H1). rewrite forallb_forall in H. specialize (H _ H2). cbn in H.
  rewrite String.eqb_refl in H. by apply String.eqb_eq in H.
Qed.

(** ** A policy, a subject and a review *)

Definition sample_policy_id : string := "verification_policy_00000000-0000-0000-0000-0000000000aa".
Definition sample_stage : VerificationStage :=
  Build_VerificationStage "review" V_HUMAN 1 [O_PASS] None true.
Definition sample_rules : ReviewerIndependence := Build_ReviewerIndependence false false false true true true [] true.
Definition sample_policy : VerificationPolicy :=
  Build_VerificationPolicy "report review" [sample_stage] sample_policy_id 1 (Build_VerificationScope [] [] [] [])
    sample_rules RISK_STANDARD 1 None None FP_FAIL FP_ESCALATE None (Aware 0) None [].
Definition sample_result_id : string := "result_00000000-0000-0000-0000-0000000000bb".
Definition sample_subject (revision : string) : VerificationSubject :=
  Build_VerificationSubject "result" sample_result_id revision "sha256:1".
Definition sample_producer : ProducerIdentity := Build_ProducerIdentity "user:author" None None None None.
Definition sample_context : RequestContext :=
  Build_RequestContext "corr" None (Some sample_result_id) [] None [] (Some sample_producer) None.

Definition request_call (revision : string) : svc_call :=
  CallRequest sample_task sample_policy_id 1 "review" (sample_subject revision) sample_context 0 None false.
Definition opened : list svc_call := [CallRegister sample_policy; request_call "1"].
Definition stored_ids (s : VerificationService) : list string := dict_keys (svc_requests s).
Definition first_id : string := Eval vm_compute in hd "" (stored_ids (after_calls opened)).
Definition reviewed (outcome : VerificationOutcome) : list svc_call :=
  opened ++ [CallHuman first_id "user:reviewer" outcome None []].

Example accepted_example :
  match assess_completion (after_calls (reviewed O_PASS)) sample_task (sample_subject "1") (Some sample_policy_id) (Some 1%Z) (Aware 0) with
  | Ok a => assessment_state a = C_ACCEPTED | Err _ => False end.
Proof. vm_compute. reflexivity. Qed.

(** ** The states of the witnesses *)

Definition s_opened := after_calls opened.
Definition s_passed := after_calls (reviewed O_PASS).
Definition to_change : list svc_call := reviewed O_NEEDS_CHANGES.
Definition s_changes := after_calls to_change.
Definition reopened : list svc_call := to_change ++ [CallReverify first_id (sample_subject "2") sample_context None false false].
Definition second_id : string := Eval vm_compute in nth 1 (stored_ids (after_calls reopened)) "".
Definition at_limit : list svc_call := reopened ++ [CallHuman second_id "user:reviewer" O_NEEDS_CHANGES None []].
Definition s_limit := after_calls at_limit.

Lemma s_opened_reachable : reachable sample_clock sample_uuid sample_bound s_opened.
Proof. apply after_calls_reachable. vm_compute. reflexivity. Qed.
Lemma s_passed_reachable : reachable sample_clock sample_uuid sample_bound s_passed.
Proof. apply after_calls_reachable. vm_compute. reflexivity. Qed.
Lemma s_changes_reachable : reachable sample_clock sample_uuid sample_bound s_changes.
Proof. apply after_calls_reachable. vm_compute. reflexivity. Qed.
Lemma s_limit_reachable : reachable sample_clock sample_uuid sample_bound s_limit.
Proof. apply after_calls_reachable. vm_compute. reflexivity. Qed.

Lemma s_opened_to_passed : svc_reach sample_clock sample_uuid s_opened s_passed.
Proof.
  pose proof (run_calls_reach [CallHuman first_id "user:reviewer" O_PASS None []] s_opened) as H.
  unfold s_opened, after_calls in H. rewrite <- run_calls_app in H. exact H.
Qed.

Lemma s_passed_unshared : results_unshared s_passed.
Proof. apply unsharedb_ok. vm_compute. reflexivity. Qed.

Lemma s_passed_draws : svc_draws s_passed <= sample_bound.
Proof. apply (bool_decide_eq_true_1 _). vm_compute. reflexivity. Qed.

(** A computation that ends with a result. *)
Lemma st_ok_inv {S A} (m : st S A) s : is_ok (m s).1 = true -> exists a s', m s = (Ok a, s').
Proof. destruct (m s) as [[a|e] s']; [eauto|done]. Qed.

Lemma some_and_inv {A} (o : option A) (p : A -> bool) :
  match o with Some a => p a | None => false end = true -> exists a, o = Some a /\ p a = true.
Proof. destruct o; [eauto|done]. Qed.

Definition sample_now : datetime := Aware 5000000.
Definition assess_sample (s : VerificationService) (subject : VerificationSubject) : res CompletionAssessment :=
  assess_completion s sample_task subject (Some sample_policy_id) (Some 1%Z) sample_now.

Lemma s_passed_accepts : exists a, assess_sample s_passed (sample_subject "1") = Ok a /\ assessment_state a = C_ACCEPTED.
Proof.
  destruct (ok_and_inv (assess_sample s_passed (sample_subject "1"))
    (fun a => bool_decide (assessment_state a = C_ACCEPTED))) as (a & Ha & Hb); [vm_compute; reflexivity|].
  apply bool_decide_eq_true_1 in Hb. eauto.
Qed.

Lemma accepted_means_verified_witness :
  exists policy, svc_policies s_passed !! (sample_policy_id, 1%Z) = Some policy /\
    verified s_passed sample_task (sample_subject "1") policy sample_now.
Proof.
  destruct s_passed_accepts as (a & Ha & Hacc).
  exact (accepted_means_verified sample_clock sample_uuid sample_bound sample_uuid_distinct s_passed sample_task
    (sample_subject "1") sample_policy_id 1 sample_now a s_passed_reachable s_passed_unshared Ha Hacc).
Defined.

(** Two stages, the second without a review. *)
Definition second_stage : VerificationStage := Build_VerificationStage "second" V_HUMAN 1 [O_PASS] None false.
Definition two_stages : VerificationPolicy := with_stages [sample_stage; second_stage] sample_policy.

Lemma evidence_is_final_witness : extends s_opened s_passed.
Proof.
  exact (evidence_is_final sample_clock sample_uuid sample_bound s_opened s_passed sample_uuid_distinct
    s_opened_reachable s_opened_to_passed s_passed_draws).
Defined.

Lemma s_limit_unshared : results_unshared s_limit.
Proof. apply unsharedb_ok. vm_compute. reflexivity. Qed.

Lemma s_limit_completed : exists r, dict_get second_id (svc_requests s_limit) = Some r /\ request_status r = Q_COMPLETED.
Proof.
  destruct (some_and_inv (dict_get second_id (svc_requests s_limit)) (fun r => bool_decide (request_status r = Q_COMPLETED)))
    as (r & Hr & Hc); [vm_compute; reflexivity|]. apply bool_decide_eq_true_1 in Hc. eauto.
Qed.

Lemma verification_service_invariant_witness : svc_ok sample_uuid s_limit /\
  exists result_id, svc_result_by_verification s_limit !! second_id = Some result_id /\
    evidence_ok s_limit second_id result_id.
Proof.
  destruct (verification_service_invariant sample_clock sample_uuid sample_bound sample_uuid_distinct s_limit
    s_limit_reachable) as [Hok Hev].
  destruct s_limit_completed as (r & Hr & Hc). split; [exact Hok|].
  exact (Hev s_limit_unshared second_id r Hr Hc).
Defined.

Lemma history_complete_witness : exists items, task_history s_limit sample_task = Ok items /\ Sorted history_le items.
Proof.
  destruct (history_complete sample_clock sample_uuid sample_bound sample_uuid_distinct s_limit sample_task s_limit_reachable)
    as (items & Hi & Hs & _).
  exists items. split; [exact Hi|exact Hs].
Defined.

(** A result submitted directly, for the opened request. *)
Definition sample_reviewer : VerifierIdentity := Build_VerifierIdentity "user:reviewer" V_HUMAN None None None None true.
Definition sample_result (verification_id subject_revision result_id : string) (outcome : VerificationOutcome) : VerificationResult :=
  Build_VerificationResult verification_id sample_reviewer outcome (sample_subject subject_revision) result_id
    [] [] [] ["human_review"] [] (Aware 1) (Aware 2) [].
Definition direct_id : string := "verification_result_00000000-0000-0000-0000-0000000000cc".
Definition direct_result := sample_result first_id "1" direct_id O_PASS.

Lemma submitted_result_is_recorded_witness : exists s',
  submit_result sample_clock sample_uuid direct_result false s_opened = (Ok direct_result, s') /\
  result_for s' first_id = Ok (Some direct_result).
Proof.
  destruct (st_ok_inv (submit_result sample_clock sample_uuid direct_result false) s_opened) as (r & s' & H);
    [vm_compute; reflexivity|].
  destruct (submitted_result_is_recorded sample_clock sample_uuid sample_bound sample_uuid_distinct direct_result false
    s_opened r s' s_opened_reachable H) as (E & Hfor & _).
  exists s'. split; [rewrite <- E at 2; exact H|exact Hfor].
Defined.

Definition reopen : st VerificationService VerificationRequest :=
  request_reverification_after_repair sample_clock sample_uuid first_id (sample_subject "2") sample_context None false false.

Lemma reverification_is_next_attempt_witness : exists r s' previous, reopen s_changes = (Ok r, s') /\
  dict_get first_id (svc_requests s_changes) = Some previous /\
  request_repair_attempt r = (request_repair_attempt previous + 1)%Z.
Proof.
  destruct (st_ok_inv reopen s_changes) as (r & s' & H); [vm_compute; reflexivity|].
  destruct (reverification_is_next_attempt sample_clock sample_uuid sample_bound sample_uuid_distinct first_id
    (sample_subject "2") sample_context None false false s_changes r s' s_changes_reachable H)
    as (previous & result & policy & Hp & _ & _ & _ & _ & _ & _ & _ & _ & _ & Hatt & _).
  exists r, s', previous. split; [exact H|]. split; [exact Hp|exact Hatt].
Defined.

Lemma s_limit_facts : exists r result p, dict_get second_id (svc_requests s_limit) = Some r /\
  result_for s_limit second_id = Ok (Some result) /\ result_outcome result = O_NEEDS_CHANGES /\
  svc_policies s_limit !! (request_policy_id r, request_policy_version r) = Some p /\
  request_repair_attempt r = policy_max_repair_attempts p.
Proof.
  destruct (some_and_inv (dict_get second_id (svc_requests s_limit)) (fun r =>
    match svc_policies s_limit !! (request_policy_id r, request_policy_version r) with
    | Some p => (request_repair_attempt r =? policy_max_repair_attempts p)%Z | None => false end))
    as (r & Hr & Hp); [vm_compute; reflexivity|].
  cbv beta in Hp. destruct (svc_policies s_limit !! _) as [p|] eqn:Hpol in Hp; [|discriminate Hp].
  destruct (ok_and_inv (result_for s_limit second_id) (fun o => match o with
    | Some x => bool_decide (result_outcome x = O_NEEDS_CHANGES) | None => false end)) as (o & Ho & Hx);
    [vm_compute; reflexivity|].
  cbv beta in Hx. destruct o as [x|]; [|discriminate Hx]. apply bool_decide_eq_true_1 in Hx. apply Z.eqb_eq in Hp.
  exists r, x, p. repeat (split; [assumption|]). exact Hp.
Qed.

(** ** The completion gate *)

Definition registered := after_calls [CallRegister sample_policy].
Definition g_empty := Build_VerificationCompletionAuthority registered ∅.
Definition g_requested := (run_gate sample_clock sample_uuid
  (GateRequest sample_task sample_policy_id 1 "review" (sample_subject "1") sample_context 0 None false) g_empty).2.
Definition gate_id : string := Eval vm_compute in hd "" (stored_ids (authority_verification g_requested)).
Definition gate_review : list svc_call := [CallHuman gate_id "user:reviewer" O_PASS None []].
Definition s_gate : VerificationService := run_calls gate_review (authority_verification g_requested).
Definition g_passed := Build_VerificationCompletionAuthority s_gate (authority_requirements g_requested).

Lemma g_passed_reach : gate_reach sample_clock sample_uuid (new_authority (new_service false false)) g_passed.
Proof.
  refine (gate_reach_service _ _ _ g_requested s_gate _ (run_calls_reach gate_review _)).
  refine (gate_reach_call _ _ _ g_empty _ _).
  exact (gate_reach_service _ _ _ (new_authority (new_service false false)) registered (gate_reach_refl _ _ _)
    (run_calls_reach [CallRegister sample_policy] _)).
Qed.

Lemma g_passed_unshared : results_unshared (authority_verification g_passed).
Proof. apply unsharedb_ok. vm_compute. reflexivity. Qed.

Lemma g_passed_reachable : gate_reachable sample_clock sample_uuid sample_bound g_passed.
Proof.
  split; [apply (bool_decide_eq_true_1 _); vm_compute; reflexivity|]. exists false, false. exact g_passed_reach.
Qed.

Lemma gate_accepts_only_verified_witness : exists d a',
  assess_task_completion sample_clock sample_task g_passed = (Ok d, a') /\
  CompletionGateDecision_state d = C_ACCEPTED /\ acceptance_basis sample_clock g_passed sample_task d.
Proof.
  destruct (ok_and_inv (assess_task_completion sample_clock sample_task g_passed).1
    (fun d => bool_decide (CompletionGateDecision_state d = C_ACCEPTED))) as (d & Hd & Hb); [vm_compute; reflexivity|].
  apply bool_decide_eq_true_1 in Hb.
  exists d, (assess_task_completion sample_clock sample_task g_passed).2.
  assert (assess_task_completion sample_clock sample_task g_passed =
    (Ok d, (assess_task_completion sample_clock sample_task g_passed).2)) as H by (rewrite <- Hd; apply surjective_pairing).
  split; [exact H|]. split; [exact Hb|].
  exact (gate_accepts_only_verified sample_clock sample_uuid sample_bound sample_uuid_distinct g_passed sample_task d _
    g_passed_reachable g_passed_unshared H Hb).
Defined.

(** After a change of the output. *)
Definition g_invalid := (run_gate sample_clock sample_uuid (GateInvalidate sample_task None) g_passed).2.

Lemma g_passed_requirement : exists r policy, authority_requirements g_passed !! sample_task = Some r /\
  svc_policies (authority_verification g_passed) !! (requirement_policy_id r, requirement_policy_version r) = Some policy /\
  policy_stages policy <> [] /\ (requirement_policy_id r, requirement_policy_version r) = (sample_policy_id, 1%Z).
Proof.
  destruct (some_and_inv (authority_requirements g_passed !! sample_task) (fun r =>
    match svc_policies (authority_verification g_passed) !! (requirement_policy_id r, requirement_policy_version r) with
    | Some p => negb (bool_decide (policy_stages p = [])) | None => false end &&
    bool_decide ((requirement_policy_id r, requirement_policy_version r) = (sample_policy_id, 1%Z)))) as (r & Hr & Hp); [vm_compute; reflexivity|].
  cbv beta in Hp. apply andb_true_iff in Hp as [Hp Hkey%bool_decide_eq_true_1].
  destruct (svc_policies (authority_verification g_passed) !! _) as [p|] eqn:Hpol in Hp; [|discriminate Hp].
  apply negb_true_iff, bool_decide_eq_false_1 in Hp. exists r, p. split; [exact Hr|]. split; [exact Hpol|split; [exact Hp|exact Hkey]].
Qed.

Lemma changed_output_waits_witness : exists x a' d,
  invalidate_task_subject sample_clock sample_task None g_passed = (Ok x, a') /\
  assess_task_completion sample_clock sample_task a' = (Ok d, a') /\ CompletionGateDecision_state d = C_WAITING.
Proof.
  destruct g_passed_requirement as (r & policy & Hr & Hp & Hst & _).
  destruct (st_ok_inv (invalidate_task_subject sample_clock sample_task None) g_passed) as (x & a' & H); [vm_compute; reflexivity|].
  destruct (changed_output_waits sample_clock sample_uuid sample_bound sample_uuid_distinct g_passed sample_task None
    r policy x a' g_passed_reachable Hr Hp Hst H) as (d & Hd & Hw).
  exists x, a', d. split; [exact H|]. split; [exact Hd|exact Hw].
Defined.

(** ** What the model showed about the code *)

(** [submit_result] does not check that a result identifier is new. A second result under the
    identifier of an earlier one replaces it: here the FAIL of the first request turns into the PASS
    that another reviewer gave to another request. *)
Definition failed_then_open : list svc_call :=
  opened ++ [request_call "2"; CallSubmit (sample_result first_id "1" direct_id O_FAIL) false].
Definition s_failed := after_calls failed_then_open.
Definition other_id : string := Eval vm_compute in nth 1 (stored_ids s_failed) "".
Definition recorded_outcome (s : VerificationService) (v : string) : option VerificationOutcome :=
  match result_for s v with Ok (Some r) => Some (result_outcome r) | _ => None end.
Definition s_reused := after_calls
  (failed_then_open ++ [CallSubmit (sample_result other_id "2" direct_id O_PASS) false]).

Lemma reused_result_id_overwrites :
  recorded_outcome s_failed first_id = Some O_FAIL /\ recorded_outcome s_reused first_id = Some O_PASS.
Proof. vm_compute. done. Qed.

(** The state after it is reachable, and the two requests share the result. *)
Lemma reused_result_is_shared :
  reachable sample_clock sample_uuid sample_bound s_reused /\ shared_result s_reused direct_id.
Proof.
  split; [apply after_calls_reachable; vm_compute; reflexivity|].
  exists first_id, other_id. split; [done|]. vm_compute. done.
Qed.

(** A request with a blank causation identifier is stored before the audit event that rejects it: the
    call fails, and the request stays, without an audit event. *)
Lemma rejected_request_is_stored :
  let '(r, s') := request_verification sample_clock sample_uuid sample_task sample_policy_id 1 "review" (sample_subject "2")
    (Build_RequestContext "corr" None (Some sample_result_id) [] None [] None (Some " ")) 0 None false s_opened in
  is_ok r = false /\ length (svc_requests s') = 2 /\ length (svc_audit_events s') = length (svc_audit_events s_opened).
Proof. vm_compute. done. Qed.
