(* ===== verification/KernelWitnesses.v ===== *)
(** * The kernel's theorems at concrete executions

    Each lemma applies one theorem of KernelTheorems.v to a world of Samples.v and evaluates its
    hypotheses there. At the end the kernel runs behind a concrete completion gate: a task is created, run and
    completed while the authority of VerificationSamples.v, in its state with a passed review, answers the kernel,
    and the theorems of KernelGate.v are applied to this execution. *)

From S2P Require Import Prelude PyValue Errors StateMonad Freeze Ident Lifecycle Domain Contracts.
From S2P Require Import PyTime VerificationModels VerificationService VerificationInvariant.
From S2P Require Import VerificationTheorems CompletionGate GateTheorems.
From S2P Require Import EventStore Projection Effects CommitSupport KernelLifecycle Planning RunCommands.
From S2P Require Import TaskCommands Recovery TaskMutations Kernel Machine Stream.
From S2P Require Import Interference Refinement CommandSafety TaskSafety Interleaving KernelTheorems Gating.
From S2P Require Import KernelGate Samples VerificationSamples.

(** A task whose run is in flight, and one whose run has ended and was completed. *)
Definition w_running := sample_world R_RUNNING start_and_finish.
Definition sample_run_id : string := "run_52000000-0000-0000-0000-000000000000".
Definition outcome_calls : list kernel_call :=
  start_and_finish ++
  [RunCall (RecordRunOutcome "k4" sample_task sample_run_id R_SUCCEEDED (Some [("report", VStr "done")]) None "test" []);
   TaskCall (CompleteTask "k5" sample_task None "test")].
Definition w_done := sample_world R_RUNNING outcome_calls.

Lemma w_running_run : kernel_run (sample_env R_RUNNING) sample_cfg true start_and_finish w_running.
Proof. apply sample_run. apply (bool_decide_eq_true_1 _). by vm_compute. Qed.

Lemma w_done_run : kernel_run (sample_env R_RUNNING) sample_cfg true outcome_calls w_done.
Proof. apply sample_run. apply (bool_decide_eq_true_1 _). by vm_compute. Qed.

Lemma w_running_task : exists task, reduce_task (hist w_running sample_task) sample_task = Ok task /\
  TaskState_run_ids task = [sample_run_id] /\ TaskState_status task = T_RUNNING.
Proof.
  destruct (ok_and_inv (reduce_task (hist w_running sample_task) sample_task)
    (fun task => bool_decide (TaskState_run_ids task = [sample_run_id] /\ TaskState_status task = T_RUNNING)))
    as (task & Ht & Hb); [by vm_compute|]. apply bool_decide_eq_true_1 in Hb. eauto.
Qed.

Lemma w_running_in_flight : exists run, reduce_run (hist w_running sample_task) sample_run_id = Ok run /\
  run_is_active run = true.
Proof. apply ok_and_inv. by vm_compute. Qed.

Lemma w_done_task : exists task, reduce_task (hist w_done sample_task) sample_task = Ok task /\
  TaskState_run_ids task = [sample_run_id] /\ TaskState_status task = T_SUCCEEDED.
Proof.
  destruct (ok_and_inv (reduce_task (hist w_done sample_task) sample_task)
    (fun task => bool_decide (TaskState_run_ids task = [sample_run_id] /\ TaskState_status task = T_SUCCEEDED)))
    as (task & Ht & Hb); [by vm_compute|]. apply bool_decide_eq_true_1 in Hb. eauto.
Qed.

Lemma w_done_ended : exists run, reduce_run (hist w_done sample_task) sample_run_id = Ok run /\
  RunState_status run = R_SUCCEEDED.
Proof.
  destruct (ok_and_inv (reduce_run (hist w_done sample_task) sample_run_id)
    (fun run => bool_decide (RunState_status run = R_SUCCEEDED))) as (run & Hr & Hb); [by vm_compute|].
  apply bool_decide_eq_true_1 in Hb. eauto.
Qed.

(** The stream before the outcome was recorded is a prefix of the final one. *)
Lemma w_running_prefix : hist w_running sample_task `prefix_of` hist w_done sample_task.
Proof.
  assert (firstn (length (hist w_running sample_task)) (hist w_done sample_task) = hist w_running sample_task) as E.
  { vm_compute. reflexivity. }
  rewrite <- E. apply prefix_take.
Qed.

Lemma only_run task rid : TaskState_run_ids task = [rid] -> rid ∈ TaskState_run_ids task.
Proof. intros ->. by left. Qed.

Lemma kernel_refines_machine_witness : exists s, refines sample_task (hist w_done sample_task) s.
Proof. exact (kernel_refines_machine _ _ _ _ _ w_done_run sample_task). Defined.

Lemma streams_stay_readable_witness :
  exists task, reduce_task (hist w_running sample_task) sample_task = Ok task /\
    TaskState_revision task = Z.of_nat (length (hist w_running sample_task)).
Proof.
  destruct (streams_stay_readable _ _ _ _ _ w_done_run sample_task (hist w_running sample_task))
    as (task & Ht & _ & Hr & _); [exact w_running_prefix|by vm_compute|].
  exists task. split; [exact Ht|exact Hr].
Defined.

Lemma one_active_run_per_subject_witness : exists run,
  reduce_run (hist w_running sample_task) sample_run_id = Ok run /\ run_is_active run = true /\
  (Run_subject_type (RunState_run run) = "task" -> sample_run_id = sample_run_id).
Proof.
  destruct w_running_task as (task & Ht & Hids & _), w_running_in_flight as (run & Hr & Ha).
  exists run. split; [exact Hr|split; [exact Ha|]].
  pose proof (only_run _ _ Hids) as Hin.
  exact (proj2 (proj2 (one_active_run_per_subject _ _ _ _ _ sample_task task sample_run_id sample_run_id run run
    w_running_run Ht Hin Hin Hr Hr Ha Ha))).
Defined.

Lemma settled_task_has_no_active_run_witness : exists run,
  reduce_run (hist w_done sample_task) sample_run_id = Ok run /\ run_terminal (RunState_status run) = true.
Proof.
  destruct w_done_task as (task & Ht & _ & Hst), w_done_ended as (run & Hr & _).
  exists run. split; [exact Hr|].
  refine (settled_task_has_no_active_run _ _ _ _ _ sample_task task sample_run_id run w_done_run Ht _ Hr).
  rewrite Hst. right. left.
Defined.

Lemma finished_is_final_witness : exists run run',
  reduce_run (hist w_running sample_task) sample_run_id = Ok run /\
  reduce_run (hist w_done sample_task) sample_run_id = Ok run' /\ RunState_attempt run' = RunState_attempt run.
Proof.
  destruct w_running_in_flight as (run & Hr & _).
  destruct (finished_is_final _ _ _ _ _ sample_task (hist w_running sample_task) w_done_run w_running_prefix)
    as [Hruns _].
  destruct (Hruns sample_run_id run Hr) as (run' & Hr' & _ & _ & Ha & _). exists run, run'.
  split; [exact Hr|split; [exact Hr'|exact Ha]].
Defined.

(** The first call of a kind in a log of calls, with what it carries. *)
Lemma omap_head {A B C} (f : A -> option B) (g : B -> C) (l : list A) c cs :
  map g (omap f l) = c :: cs -> exists a b, a ∈ l /\ f a = Some b /\ g b = c.
Proof.
  destruct (omap f l) as [|b bs] eqn:E; cbn; [done|]. intros [= Hc _].
  assert (b ∈ omap f l) as Hin by (rewrite E; left).
  apply list_elem_of_omap in Hin as (a & Ha & Hf). eauto.
Qed.

Definition sample_start (o : op) : option ExecutionRequest :=
  match o with OpStart request => Some request | _ => None end.

Lemma w_running_started : exists request, OpStart request ∈ calls w_running /\
  ExecutionRequest_run_id request = sample_run_id.
Proof.
  assert (map ExecutionRequest_run_id (omap sample_start (calls w_running)) = [sample_run_id]) as E
    by (vm_compute; reflexivity).
  apply omap_head in E as (o & request & Hin & Ho & Hid). destruct o; try discriminate Ho.
  injection Ho as ->. eauto.
Qed.

Lemma dispatch_is_recorded_first_witness : exists request e,
  OpStart request ∈ calls w_running /\ Event_event_type e = "run.dispatch_attempted" /\
  Event_subject_id e = sample_run_id.
Proof.
  destruct w_running_started as (request & Hin & Hid).
  destruct (dispatch_is_recorded_first _ _ _ _ _ request w_running_run Hin) as (e & _ & Ht & Hs).
  exists request, e. split; [exact Hin|split; [exact Ht|exact (eq_trans Hs Hid)]].
Defined.

Definition sample_published (o : op) : option Event := match o with OpPublish e => Some e | _ => None end.

Lemma w_running_published : exists e, OpPublish e ∈ calls w_running /\ Event_event_type e = "task.running".
Proof.
  assert (exists l, map Event_event_type (omap sample_published (calls w_running)) = "task.running" :: l) as [l E]
    by (vm_compute; eexists; reflexivity).
  apply omap_head in E as (o & e & Hin & Ho & Ht). destruct o; try discriminate Ho.
  injection Ho as ->. eauto.
Qed.

Lemma published_events_are_durable_witness : exists e,
  Event_event_type e = "task.running" /\ e ∈ hist w_running (Event_correlation_id e).
Proof.
  destruct w_running_published as (e & Hin & Ht). exists e. split; [exact Ht|].
  exact (published_events_are_durable _ _ _ _ _ e w_running_run (or_introl Hin)).
Defined.

(** ** Behind a concrete completion gate *)

Definition gated_env : env :=
  Build_env sample_clock sample_uuid sample_plan
    (fun n request => Ok (Build_ExecutionHandle (ExecutionRequest_run_id request) (Some "job-1") []))
    (fun n run_id ctx => sample_snapshot R_RUNNING run_id)
    (fun n run_id ctx => sample_snapshot R_CANCELLED run_id)
    (fun n task_id => (assess_task_completion sample_clock task_id g_passed).1)
    (fun n task_id => Ok tt) (fun n e => Ok tt) (fun n e => Ok tt).

Definition gated_cfg : KernelConfig := Build_KernelConfig false true true false.

Definition gated_calls : list kernel_call :=
  start_and_finish ++
  [RunCall (RecordRunOutcome "k4" sample_task "run_22000000-0000-0000-0000-000000000000" R_SUCCEEDED
     (Some [("report", VStr "done")]) None "test" [])].

Definition w_gated : world InMemoryKernelRepository :=
  exec_all gated_env (map (kernel_program gated_cfg false) gated_calls) (Build_world mem_empty 0 []).

Lemma gated_uuids : uuid_source_ok gated_env sample_bound.
Proof. destruct (sample_uuids R_RUNNING) as [Hc Hd]. exact (Build_uuid_source_ok gated_env sample_bound Hc Hd). Qed.

Lemma w_gated_run : kernel_run gated_env gated_cfg false gated_calls w_gated.
Proof.
  destruct (exec_all_reach gated_env (map (kernel_program gated_cfg false) gated_calls) []
    (Build_world mem_empty 0 [])) as [pool Hr].
  exists sample_bound, mem_empty, 0, pool. split_and!; [exact gated_uuids| |done|exact Hr].
  apply (bool_decide_eq_true_1 _). vm_compute. reflexivity.
Qed.

Lemma w_gated_result : exists task, reduce_task (hist w_gated sample_task) sample_task = Ok task /\
  TaskState_status task = T_SUCCEEDED.
Proof.
  destruct (ok_and_inv (reduce_task (hist w_gated sample_task) sample_task)
    (fun task => bool_decide (TaskState_status task = T_SUCCEEDED))) as (task & Ht & Hb); [vm_compute; reflexivity|].
  apply bool_decide_eq_true_1 in Hb. exists task. split; [exact Ht|exact Hb].
Qed.

Lemma success_needs_acceptance_witness : exists n d, n < clock w_gated /\
  env_assess gated_env n sample_task = Ok d /\ CompletionGateDecision_state d = C_ACCEPTED.
Proof.
  destruct w_gated_result as (task & Ht & Hs).
  exact (success_needs_acceptance gated_env gated_cfg false gated_calls w_gated sample_task task eq_refl w_gated_run Ht Hs).
Defined.

Lemma gated_env_ok : gate_env gated_env sample_bound (fun _ => g_passed).
Proof. split; [intros n; exact g_passed_reachable|intros n; apply gate_reach_refl|reflexivity]. Qed.

(** The task was bound to a policy with a stage, so its evidence is what the theorem is about. *)
Lemma completed_work_is_verified_witness : exists policy subject, policy_stages policy <> [] /\
  svc_policies (authority_verification g_passed) !! (sample_policy_id, 1%Z) = Some policy /\
  verified (authority_verification g_passed) sample_task subject policy
    (Aware (sample_clock (svc_draws (authority_verification g_passed)))).
Proof.
  destruct w_gated_result as (task & Ht & Hs).
  destruct (completed_work_is_verified gated_env gated_cfg false gated_calls w_gated sample_bound (fun _ => g_passed)
    sample_task task sample_uuid_distinct gated_env_ok (fun _ _ => g_passed_unshared) eq_refl w_gated_run Ht Hs)
    as (n & d & _ & _ & _ & Hbasis).
  destruct g_passed_requirement as (r & policy & Hr & Hp & Hst & Hkey). rewrite Hr in Hbasis.
  destruct Hbasis as (policy' & Hp' & Hbasis). rewrite Hp in Hp'. injection Hp' as <-.
  destruct Hbasis as [Hnil|(subject & _ & Hver)]; [destruct (Hst Hnil)|].
  rewrite Hkey in Hp. exists policy, subject. split; [exact Hst|]. split; [exact Hp|exact Hver].
Defined.
