(* ===== verification/TransportSamples.v ===== *)
(** * A transport at work

    Concrete runs of the transport and of idempotent consumers, at which the theorems are instantiated,
    and what the model showed about retry delays. *)

From Stdlib Require Import SpecFloat.
From S2P Require Import Prelude PyValue Errors StateMonad Contracts PyTime TransportModels Transport TransportInvariant.
From S2P Require Import TransportSteps TransportSafety TransportHistory TransportTheorems.
From S2P Require Import TransportLiveness Idempotency.

(** [x ** n] where the exact power is a binary64 number or too large for one. *)
Definition exact_pow (x : spec_float) (n : Z) : res spec_float :=
  match x with
  | S754_finite s m e =>
      match binary64 (signed s m ^ n) (e * n) with
      | S754_infinity _ => Err (OverflowError "(34, 'Numerical result out of range')")
      | r => Ok r
      end
  | S754_zero _ => Ok (if (n =? 0)%Z then float_one else float_zero)
  | _ => Ok x
  end.

Definition sample_envelope (n : Z) : TransportEnvelope :=
  Build_TransportEnvelope "job.created" M_COMMAND "1.0" "samples" "corr" (Some (VInt n)) None
    ("message_" +:+ pretty n) ENVELOPE_VERSION (Aware n) None None None None None empty_trace [].

Definition sample_sub : Subscription := Build_Subscription "jobs" "worker-1" "workers" default_retry_policy.
Definition sample_env (n : Z) : Ambient := Build_Ambient (binary64 n 0) n (pretty n).

(** A run names the delivery it settles by its number. *)
Inductive cmd := CPublish (n : Z) | CSubscribe (sub : Subscription) | CResume (i : nat) (n : Z) | CLeave (i : nat)
  | CAck (k : nat) | CNack (k : nat) (retry : bool) (n : Z) | CShut (graceful : bool).

Definition cmd_action (c : cmd) (w : world) : option action :=
  match c with
  | CPublish n => Some (Publish "jobs" (sample_envelope n) None (sample_env n))
  | CSubscribe sub => Some (Subscribe sub)
  | CResume i n =>
      if bool_decide ("delivery_" +:+ ambient_uuid (sample_env n) ∉ issued_ids w) then Some (Resume i (sample_env n)) else None
  | CLeave i => Some (Leave i)
  | CAck k => Ack <$> w_issued w !! k
  | CNack k retry n => (fun d => Nack d retry None (sample_env n)) <$> w_issued w !! k
  | CShut graceful => Some (Shut graceful)
  end.

Lemma cmd_allowed c w a : cmd_action c w = Some a -> allowed a w.
Proof.
  destruct c; cbn; try (by intros [= <-]).
  - case_bool_decide; [by intros [= <-]|done].
  - intros (d & H & ->)%fmap_Some. cbn. by eapply list_elem_of_lookup_2.
  - intros (d & H & ->)%fmap_Some. cbn. by eapply list_elem_of_lookup_2.
Qed.

Fixpoint play (l : list cmd) (w : world) : option world :=
  match l with
  | [] => Some w
  | c :: l => a ← cmd_action c w; play l (act exact_pow a w)
  end.

Definition played (l : list cmd) (w : world) : world := default w (play l w).

Lemma play_later l w w' : play l w = Some w' -> later exact_pow w w'.
Proof.
  assert (forall w0, later exact_pow w w0 -> play l w0 = Some w' -> later exact_pow w w') as H; [|apply H; constructor].
  induction l as [|c l IH]; cbn; intros w0 Hw0; [by intros [= <-]|].
  destruct (cmd_action c w0) as [a|] eqn:Ha; cbn; [|done]. apply IH. apply later_act; [done|by eapply cmd_allowed].
Qed.

Lemma played_later l w : bool_decide (is_Some (play l w)) = true -> later exact_pow w (played l w).
Proof. intros [w' H]%bool_decide_eq_true_1. unfold played. rewrite H. by eapply play_later. Qed.

Definition sample_transport : Transport := Build_Transport 4 ∅ true false false true.
Definition w_start : world := initial sample_transport.
Lemma w_start_reach : reach exact_pow 4 w_start.
Proof. by apply reach_init. Qed.

(** Two messages, a consumer that has just acked the first. *)
Definition w_one : world := played [CPublish 1; CPublish 2; CSubscribe sample_sub; CResume 0 10; CAck 0] w_start.
Lemma w_one_reach : reach exact_pow 4 w_one.
Proof. eapply later_reach; [exact w_start_reach|apply played_later; vm_compute; reflexivity]. Qed.

(** It rejects the second once, leaves while it holds it again, and another consumer buries it, while a
    third message arrives. *)
Definition sample_sub2 : Subscription := Build_Subscription "jobs" "worker-2" "workers" default_retry_policy.
Definition w_two : world :=
  played [CResume 0 11; CNack 1 true 12; CPublish 3; CResume 0 13; CLeave 0; CSubscribe sample_sub2; CResume 1 14; CNack 3 false 15] w_one.
Lemma w_two_later : later exact_pow w_one w_two.
Proof. apply played_later. vm_compute. reflexivity. Qed.

Definition sample_topic (w : world) : TopicState := topic_of "jobs" (w_transport w).
Definition sample_group (w : world) : GroupState := group_of "workers" (sample_topic w).

Lemma no_message_is_lost_witness : exists s' g' published settled,
  transport_topics (w_transport w_two) !! "jobs" = Some s' /\ topic_groups s' !! "workers" = Some g' /\
  log_of w_two "jobs" = log_of w_one "jobs" ++ published /\
  settled_of w_two "jobs" "workers" = settled_of w_one "jobs" "workers" ++ settled /\
  undelivered (sample_topic w_one) (sample_group w_one) ++ published = map delivery_envelope settled ++ undelivered s' g'.
Proof.
  refine (no_message_is_lost exact_pow 4 w_one w_two "jobs" "workers" (sample_topic w_one) (sample_group w_one)
    w_one_reach w_two_later _ _ _); vm_compute; reflexivity.
Defined.

Lemma retention_is_exact_witness :
  (Z.of_nat (length (topic_messages (sample_topic w_two))) <= 4)%Z /\
  minimum_cursor (topic_groups (sample_topic w_two)) = Some (topic_base_sequence (sample_topic w_two)).
Proof.
  destruct (retention_is_exact exact_pow 4 w_two "jobs" (sample_topic w_two)
    (later_reach _ _ _ _ w_one_reach w_two_later) ltac:(vm_compute; reflexivity)) as (H1 & _ & _ & H2 & _).
  split; [exact H1|]. apply H2. vm_compute. discriminate.
Defined.

Lemma all_empty_spec tr : all_empty tr = true ->
  forall topic s, transport_topics tr !! topic = Some s -> topic_messages s = [].
Proof. intros H%bool_decide_eq_true_1. exact H. Qed.

(** A graceful close waits for the message in flight. *)
Definition w_draining : world := played [CResume 0 11; CShut true] w_one.
Definition w_drained : world := played [CAck 1] w_draining.

Lemma w_one_ready : ready exact_pow 4 w_one 0 sample_sub (sample_topic w_one) (sample_group w_one).
Proof. split; [exact w_one_reach|vm_compute; reflexivity..]. Qed.

Lemma fresh_check env w : bool_decide ("delivery_" +:+ ambient_uuid env ∉ issued_ids w) = true -> fresh env w.
Proof. apply bool_decide_eq_true_1. Qed.

Lemma running_consumer_drains_witness : exists tr' s' g',
  drain sample_sub [sample_env 11] (w_transport w_one) = Some ([sample_envelope 2], tr') /\
  transport_topics tr' !! "jobs" = Some s' /\ topic_groups s' !! "workers" = Some g' /\ undelivered s' g' = [] /\
  group_inflight g' = None.
Proof.
  change [sample_envelope 2] with (undelivered (sample_topic w_one) (sample_group w_one)).
  refine (running_consumer_drains exact_pow 4 w_one 0 sample_sub (sample_topic w_one) (sample_group w_one) [sample_env 11]
    w_one_ready _ _ _ _).
  - vm_compute. reflexivity.
  - intros env [= <-]. vm_compute. reflexivity.
  - apply NoDup_singleton.
  - intros env ->%list_elem_of_singleton. apply fresh_check. vm_compute. reflexivity.
Defined.

Definition sample_rounds : list (Ambient * Ambient) :=
  [(sample_env 11, sample_env 12); (sample_env 13, sample_env 14); (sample_env 15, sample_env 16)].

Lemma poison_message_is_buried_witness : exists tr' s' letter,
  reject exact_pow sample_sub sample_rounds (w_transport w_one) = Some tr' /\
  transport_topics tr' !! "jobs" = Some s' /\ topic_dead_letters s' !! "workers" = Some [letter] /\
  letter_envelope letter = sample_envelope 2 /\ letter_attempts letter = 3%Z.
Proof.
  destruct (poison_message_is_buried exact_pow 4 w_one 0 sample_sub (sample_topic w_one) (sample_group w_one)
    (sample_envelope 2) [] sample_rounds w_one_ready) as (tr' & s' & g' & letter & H1 & H2 & _ & _ & H3 & H4 & H5 & _).
  - vm_compute. reflexivity.
  - vm_compute. discriminate.
  - vm_compute. reflexivity.
  - vm_compute. repeat split.
  - apply (bool_decide_eq_true_1 _). vm_compute. reflexivity.
  - intros r Hr. apply fresh_check. revert r Hr. apply Forall_forall. vm_compute. repeat constructor.
  - exists tr', s', letter. split; [exact H1|]. split; [exact H2|]. split; [exact H3|]. split; [exact H4|exact H5].
Defined.

(** ** Two coroutines with deliveries of one message *)

#[local] Instance sample_messages : MessageTransport Transport := InProcessMessageTransport exact_pow.

Inductive pool_cmd := PHandle (d : MessageDelivery) | PAcquire (i : nat) | PFinish (i : nat) (outcome : handler_outcome).

Definition pool_next (c : pool_cmd) (p : pool Transport) : option (pool Transport) :=
  match c with
  | PHandle d => Some (Pool (pool_store p) (pool_transport p) (pool_tasks p ++ [(d, Starting)]) (pool_completions p))
  | PAcquire i =>
      match pool_tasks p !! i with
      | Some (d, ph) =>
          if may_acquire (pool_store p) ph then
            let '(r, s', tr') := handle_acquire d (sample_env 0) (pool_store p) (pool_transport p) in
            Some (Pool s' tr' (set_task i d (progress_phase r) (pool_tasks p)) (pool_completions p))
          else None
      | None => None
      end
  | PFinish i outcome =>
      match pool_tasks p !! i with
      | Some (d, Handling) =>
          let '(r, s', tr') := handle_finish d outcome (sample_env 0) (pool_store p) (pool_transport p) in
          Some (Pool s' tr' (set_task i d (Finished r) (pool_tasks p))
            (if bool_decide (outcome = HandlerReturned) then delivery_key d :: pool_completions p else pool_completions p))
      | _ => None
      end
  end.

Fixpoint pool_play (l : list pool_cmd) (p : pool Transport) : option (pool Transport) :=
  match l with [] => Some p | c :: l => p' ← pool_next c p; pool_play l p' end.

Lemma pool_next_step c p p' : pool_next c p = Some p' -> pool_step p p'.
Proof.
  destruct c as [d|i|i outcome]; cbn [pool_next].
  - intros [= <-]. apply step_handle.
  - destruct (pool_tasks p !! i) as [[d ph]|] eqn:Hi; [|done]. destruct (may_acquire _ ph) eqn:Hm; [|done].
    destruct (handle_acquire _ _ _ _) as [[r s'] tr'] eqn:H. intros [= <-]. by eapply step_acquire.
  - destruct (pool_tasks p !! i) as [[d []]|] eqn:Hi; try done.
    destruct (handle_finish _ _ _ _ _) as [[r s'] tr'] eqn:H. intros [= <-]. by eapply step_finish.
Qed.

Lemma pool_play_steps l p p' : pool_play l p = Some p' -> rtc pool_step p p'.
Proof.
  revert p. induction l as [|c l IH]; cbn; intros p; [intros [= ->]; constructor|].
  destruct (pool_next c p) as [p1|] eqn:H; cbn; [|done]. intros Hl. econstructor; [by eapply pool_next_step|auto].
Qed.

Definition sample_delivery (attempt : Z) : MessageDelivery :=
  delivery_for sample_sub (sample_envelope 1) attempt (sample_env attempt).

(** The second coroutine waits for the first, whose handler is cancelled; then it handles the message, and
    a third delivery is a duplicate. *)
Definition sample_pool : pool Transport :=
  default (new_pool sample_transport) (pool_play
    [PHandle (sample_delivery 1); PHandle (sample_delivery 2); PAcquire 0; PAcquire 1; PFinish 0 HandlerCancelled;
     PAcquire 1; PFinish 1 HandlerReturned; PHandle (sample_delivery 3); PAcquire 2] (new_pool sample_transport)).

Lemma handler_completes_once_witness :
  pool_completions sample_pool = ["message_1"] /\ NoDup (pool_completions sample_pool) /\
  handlers "message_1" (pool_tasks sample_pool) = 0.
Proof.
  assert (pool_completions sample_pool = ["message_1"]) as Hc by (vm_compute; reflexivity).
  assert (rtc pool_step (new_pool sample_transport) sample_pool) as Hr.
  { refine (pool_play_steps [PHandle (sample_delivery 1); PHandle (sample_delivery 2); PAcquire 0; PAcquire 1;
      PFinish 0 HandlerCancelled; PAcquire 1; PFinish 1 HandlerReturned; PHandle (sample_delivery 3); PAcquire 2] _ _ _).
    vm_compute. reflexivity. }
  destruct (handler_completes_once sample_transport sample_pool "message_1" Hr) as (H1 & _ & H2 & _).
  split; [exact Hc|]. split; [exact H1|]. apply H2. rewrite Hc. left.
Defined.

(** ** What the model showed about the code *)

(** [delay_for_retry] computes the power before it takes the minimum with [max_backoff_seconds]: with a
    multiplier of [2 ** 600] the delay after the third attempt is not 30 seconds but an [OverflowError],
    which [nack] lets escape after it has taken the message out of flight. *)
Definition steep_policy : RetryPolicy := Build_RetryPolicy 5 float_zero (binary64 1 600) (binary64 30 0).
Definition steep_sub : Subscription := Build_Subscription "jobs" "worker-1" "workers" steep_policy.
Definition w_steep : world :=
  played [CPublish 1; CSubscribe steep_sub; CResume 0 10; CNack 0 true 11; CResume 0 12; CNack 1 true 13; CResume 0 14] w_start.

Definition steep_outcome : option (res unit * option (option Inflight)) :=
  match w_issued w_steep !! 2 with
  | Some d =>
      let '(r, tr') := nack exact_pow d true None (sample_env 15) (w_transport w_steep) in
      Some (r, group_inflight <$> group_at tr' "jobs" "workers")
  | None => None
  end.

Lemma backoff_overflow_escapes :
  RetryPolicy_post_init steep_policy = Ok steep_policy /\
  steep_outcome = Some (Err (OverflowError "(34, 'Numerical result out of range')"), Some None).
Proof. split; vm_compute; reflexivity. Qed.
