(* ===== verification/CoordinationSamples.v ===== *)
(** * A coordinator at work

    A concrete kernel and concrete calls of the coordinator, alone and interleaved, at which the theorems
    are instantiated, and what the model showed about retries and waits. *)

From Stdlib Require Import SpecFloat.
From S2P Require Import Prelude PyValue Errors StateMonad Ident Lifecycle Domain PyTime TransportModels.
From S2P Require Import CoordinationModels PlanGraph CoordinationStore Projection Recovery.
From S2P Require Import CoordinationSteps Coordinator CoordinationCells CoordinationTheorems CoordinationRounds.

(** ** A kernel that creates the runs it is asked for *)

Definition coord_uuid (n : nat) : string := string_of_list_ascii (dashed (rev (hex_pad 32 (N.of_nat n)))).
Definition coord_id (prefix : string) (n : nat) : string := id_of_uuid prefix (coord_uuid n).

Definition sample_owner : OwnerRef := Build_OwnerRef "user" "alice".
Definition sample_task_id : string := coord_id "task" 1.
Definition sample_plan_id : string := coord_id "plan" 2.
Definition sample_step_id (n : nat) : string := coord_id "step" n.
Definition sample_run_id (n : nat) : string := coord_id "run" n.

(** The commands that created a run: key and subject, earliest first. *)
Fixpoint created_runs (h : list kernel_op) : list (string * string) :=
  match h with
  | [] => []
  | CreateRun key _ subject :: h' =>
      let l := created_runs h' in if in_strs key (map fst l) then l else l ++ [(key, subject)]
  | _ :: h' => created_runs h'
  end.

Fixpoint index_of (key : string) (l : list (string * string)) (n : nat) : option nat :=
  match l with
  | [] => None
  | (k, _) :: l' => if String.eqb k key then Some n else index_of key l' (S n)
  end.

Definition sample_run (l : list (string * string)) (n : nat) (status : RunStatus) : RunState :=
  let subject := default "" (snd <$> l !! n) in
  let attempt := Z.of_nat (length (List.filter (fun p => String.eqb (snd p) subject) (take (S n) l))) in
  Build_RunState (Build_Run "step" subject sample_owner "corr" (sample_run_id n) attempt status None None None None 0 0 None None
    "1.0" None [] []) 1 None [] [] [] 0 false None.

Definition sample_task (status : TaskStatus) (steps : list string) : TaskState :=
  Build_TaskState (Build_Task "t" sample_owner sample_task_id status None None "" (Some "corr") None 0 0 "1.0" None [] [])
    1 (Some sample_plan_id) steps [] [] [] None false.

Definition run_index (l : list (string * string)) (run_id : string) : option nat :=
  List.find (fun n => String.eqb (sample_run_id n) run_id) (seq 0 (length l)).

(** [outcome n] is what the [n]-th run has come to, at a moment. *)
Definition sample_kernel (steps : list string) (outcome : nat -> nat -> RunStatus) (moment : nat) (h : list kernel_op) (o : kernel_op) :
  res (kernel_reply o) :=
  let l := created_runs h in
  let found run_id := match run_index l run_id with
                      | Some n => Ok (sample_run l n (outcome moment n))
                      | None => Err (contract_error NOT_FOUND ("run " +:+ run_id +:+ " not found"))
                      end in
  match o return res (kernel_reply o) with
  | GetTask _ => Ok (sample_task T_RUNNING steps)
  | CompleteTask _ _ => Ok (sample_task T_SUCCEEDED steps)
  | FailTask _ _ _ => Ok (sample_task T_FAILED steps)
  | CancelTask _ _ => Ok (sample_task T_CANCELLED steps)
  | GetRun _ run_id | StartRun _ _ run_id | CancelRun _ _ run_id => found run_id
  | CreateRun key _ subject =>
      let l' := created_runs (o :: h) in
      Ok (sample_run l' (default 0 (index_of key l' 0)) R_QUEUED)
  | RecoverTask t => Ok (Build_RecoveryReport t [])
  end.

Definition coord_env (steps : list string) (outcome : nat -> nat -> RunStatus) : coordination_env :=
  Build_coordination_env (fun n => Z.of_nat n) coord_uuid (fun _ => []) (sample_kernel steps outcome).

Definition sample_coordinator (name : string) : CoordinatorConfig :=
  Build_CoordinatorConfig name 30000000 (fun x n => if (n =? 0)%Z then Ok float_one else Ok x).

Definition sample_coord_plan : Plan :=
  Build_Plan sample_task_id sample_owner sample_plan_id 1 true None 0 "1.0" None [].
Definition sample_step (n : nat) (depends_on : list nat) : Step :=
  Build_Step sample_plan_id "step" sample_owner (sample_step_id n) S_PENDING None (map sample_step_id depends_on) None 0 0 "1.0" None [].

Definition empty_world : cworld := Build_cworld new_coordinator_store 0 [].

(** ** Two steps in a row *)

Definition chain : list Step := [sample_step 10 []; sample_step 11 [10]].
Definition chain_env := coord_env (map Step_id chain).

Definition statuses (w : cworld) : list (StepStatus * CoordinationPhase) :=
  match store_plans (w_store w) !! sample_plan_id with
  | Some st => map (fun s => (Step_status s, default PH_INCONSISTENT (record_phase <$> store_records (w_store w) !! Step_id s))) (state_steps st)
  | None => []
  end.

(** Every run of the kernel succeeds; the calls of three coordinators. *)
Definition all_succeed : coordination_env := chain_env (fun _ _ => R_SUCCEEDED).
Definition chain_calls : list (CoordinatorConfig * coordinator_call) :=
  [(sample_coordinator "first", CallRegisterPlan sample_coord_plan chain [] FAIL_FAST);
   (sample_coordinator "second", CallObserveRun sample_task_id (sample_run_id 0) None None None);
   (sample_coordinator "third", CallObserveRun sample_task_id (sample_run_id 1) None None None)].
Definition sample_fuel : nat := 10.

(** The plan is registered; then the first run is observed, up to the start of the second step; then the
    second run is observed, up to the end of the task. *)
Definition until_second_run : list nat := repeat 0 38 ++ repeat 1 24.
Definition until_completion : list nat := repeat 0 38 ++ repeat 1 37 ++ repeat 2 16.
Definition to_the_end : list nat := until_completion ++ repeat 2 5.

Definition chain_plan_of (step_id : string) : string := sample_plan_id.

Lemma new_store_ok plan_of : store_ok plan_of new_coordinator_store.
Proof. by split. Qed.

Lemma chain_calls_scoped : forall p, p ∈ chain_calls -> well_scoped chain_plan_of p.2.
Proof. intros p Hp. unfold chain_calls in Hp. rewrite !elem_of_cons in Hp. destruct Hp as [->|[->|[->|[]%elem_of_nil]]]; done. Qed.

Example chain_runs : statuses (deployed all_succeed sample_fuel chain_calls empty_world to_the_end).2 =
  [(S_SUCCEEDED, PH_TERMINAL); (S_SUCCEEDED, PH_TERMINAL)].
Proof. vm_compute. reflexivity. Qed.

(** ** Witnesses *)

Lemma validate_graph_exact_witness :
  (validate_graph (map Step_id chain) sample_coord_plan chain = Ok tt <-> graph_ok sample_coord_plan chain) /\
  forall e, validate_graph (map Step_id chain) sample_coord_plan chain = Err e ->
    exists m details, e = ContractError INVALID_REQUEST m false details.
Proof. apply validate_graph_exact. vm_compute. reflexivity. Defined.

Lemma dependencies_run_first_witness :
  exists step record, cell_at (w_store (deployed all_succeed sample_fuel chain_calls empty_world until_second_run).2) (sample_step_id 11)
      = Some (step, record) /\ record_task_id record = sample_task_id /\
    forall d, d ∈ Step_depends_on step -> succeeded (w_store (deployed all_succeed sample_fuel chain_calls empty_world until_second_run).2) d.
Proof.
  refine (dependencies_run_first all_succeed chain_plan_of sample_fuel chain_calls empty_world until_second_run 1
    ("coord:" +:+ sample_plan_id +:+ ":" +:+ sample_step_id 11 +:+ ":attempt:1") _ _ (new_store_ok _) chain_calls_scoped _).
  vm_compute. reflexivity.
Defined.

Lemma task_completes_with_its_steps_witness :
  exists plan_id P, store_plans (w_store (deployed all_succeed sample_fuel chain_calls empty_world until_completion).2) !! plan_id = Some P /\
    Plan_task_id (state_plan P) = sample_task_id /\ state_steps P <> [] /\
    forall x, x ∈ state_steps P -> Step_status x = S_SUCCEEDED \/ Step_status x = S_SKIPPED.
Proof.
  refine (task_completes_with_its_steps all_succeed chain_plan_of sample_fuel chain_calls empty_world until_completion 2
    (aggregate_key sample_plan_id "succeeded") _ (new_store_ok _) chain_calls_scoped _).
  vm_compute. reflexivity.
Defined.

Lemma coordinators_refine_machine_witness :
  store_later (w_store (deployed all_succeed sample_fuel chain_calls empty_world until_completion).2)
              (w_store (deployed all_succeed sample_fuel chain_calls empty_world to_the_end).2).
Proof.
  exact (coordinators_refine_machine all_succeed chain_plan_of sample_fuel chain_calls empty_world until_completion (repeat 2 5)
    (new_store_ok _) chain_calls_scoped).
Defined.

Lemma repository_stays_consistent_witness :
  store_ok chain_plan_of (w_store (deployed all_succeed sample_fuel chain_calls empty_world until_second_run).2).
Proof.
  exact (repository_stays_consistent all_succeed chain_plan_of sample_fuel chain_calls empty_world until_second_run
    (new_store_ok _) chain_calls_scoped).
Defined.

(** The plan is registered and not advanced yet. *)
Definition until_registered : list nat := repeat 0 12.
Definition registered_world : cworld := (deployed all_succeed sample_fuel chain_calls empty_world until_registered).2.

Lemma registered_world_ok : store_ok chain_plan_of (w_store registered_world).
Proof. by destruct (deployment_runs all_succeed chain_plan_of sample_fuel chain_calls empty_world (new_store_ok _) chain_calls_scoped until_registered []). Qed.

Lemma advance_terminates_witness :
  store_weight (w_store registered_world) = 9 /\
  (forall t, exists out, loop_ends all_succeed (sample_coordinator "first") sample_plan_id t registered_world out /\
     forall rounds, store_weight (w_store registered_world) < rounds ->
       execute (perform all_succeed) (advance_loop (sample_coordinator "first") rounds sample_plan_id t) registered_world = out) /\
  exists out, forall fuel, store_weight (w_store registered_world) < fuel ->
    execute (perform all_succeed) (advance (sample_coordinator "first") fuel sample_plan_id None) registered_world = out.
Proof.
  split; [vm_compute; reflexivity|].
  exact (advance_terminates all_succeed chain_plan_of (sample_coordinator "first") sample_plan_id None registered_world registered_world_ok).
Defined.

(** The second coordinator claims the second step, renews its claim and stalls; a fourth one takes over after the claim
    has expired, renews its own claim and releases it. *)
Definition no_claim : CoordinatorClaim := Build_CoordinatorClaim "" "" "" 0 (Aware 0).
Definition granted_claim (r : res (option CoordinatorClaim)) : CoordinatorClaim :=
  match r with Ok (Some claim) => claim | _ => no_claim end.
Definition contested : string := sample_step_id 11.
Abbreviation first_grant := (acquire_claim contested "second" 30000000 (Aware 40) (coord_uuid 98) (w_store registered_world)).
Definition lost_claim : CoordinatorClaim := Eval vm_compute in granted_claim first_grant.1.
Definition while_held : list repository_call := [RepoRenew lost_claim 40000000 (Aware 1000)].
Definition renewed_claim : CoordinatorClaim := Eval vm_compute in
  granted_claim (renew_claim lost_claim 40000000 (Aware 1000) first_grant.2).1.
Abbreviation takeover :=
  (acquire_claim contested "fourth" 30000000 (Aware 60000000) (coord_uuid 99) (after_repository while_held first_grant.2)).
Definition takeover_claim : CoordinatorClaim := Eval vm_compute in granted_claim takeover.1.
Definition after_takeover : list repository_call :=
  [RepoRenew lost_claim 40000000 (Aware 1000); RepoRenew renewed_claim 40000000 (Aware 2000); RepoRenew takeover_claim 30000000 (Aware 61000000);
   RepoRelease renewed_claim].

Lemma lost_claim_granted : first_grant.1 = Ok (Some lost_claim).
Proof. vm_compute. reflexivity. Qed.
Lemma takeover_granted : takeover.1 = Ok (Some takeover_claim).
Proof. vm_compute. reflexivity. Qed.
Example takeover_fences : (claim_fence lost_claim, claim_fence renewed_claim, claim_fence takeover_claim) = (1, 1, 2)%Z.
Proof. reflexivity. Qed.

Abbreviation store_after_takeover := (after_repository after_takeover takeover.2).

Lemma lost_claim_cannot_save_witness :
  takeover.1 = Ok (Some takeover_claim) /\
  exists x r, cell_at store_after_takeover contested = Some (x, r) /\
    exists e, save_step x r (record_revision r) (Some renewed_claim) (Aware 2000) store_after_takeover = (Err e, store_after_takeover).
Proof.
  split; [exact takeover_granted|].
  destruct (cell_at store_after_takeover contested) as [[x r]|] eqn:Hc; [|vm_compute in Hc; discriminate Hc].
  exists x, r. split; [reflexivity|].
  destruct (lost_claim_cannot_save contested (w_store registered_world) "second" 30000000 (Aware 40) (coord_uuid 98) lost_claim while_held
    "fourth" 30000000 (Aware 60000000) (coord_uuid 99) takeover_claim after_takeover lost_claim_granted takeover_granted) as (_ & _ & H).
  exact (proj1 (H renewed_claim eq_refl) x r (record_revision r) (Aware 2000) (cell_at_id _ _ _ Hc)).
Defined.

(** The same step in a run: the second coordinator has claimed it and not started it yet. *)
Definition stalled_store : CoordinatorStore := w_store (deployed all_succeed sample_fuel chain_calls empty_world until_second_run).2.
Definition stalled_claim : CoordinatorClaim :=
  Build_CoordinatorClaim (sample_step_id 11) ("claim-" +:+ coord_uuid 59) "second" 2 (Aware 30000038).

Lemma stalled_store_ok : store_ok chain_plan_of stalled_store.
Proof. by destruct (deployment_runs all_succeed chain_plan_of sample_fuel chain_calls empty_world (new_store_ok _) chain_calls_scoped until_second_run []). Qed.

(** What the second coordinator saves if it does not stall. *)
Lemma save_is_all_or_nothing_witness :
  exists x r, cell_at stalled_store (sample_step_id 11) = Some (x, r) /\
  let step := Step_set_status S_RUNNING x in
  ((exists e, save_step step r 2 (Some stalled_claim) (Aware 60) stalled_store = (Err e, stalled_store)) \/
   exists c s', let saved := set_revision (2 + 1) (set_updated_at (Aware 60) r) in
     save_step step r 2 (Some stalled_claim) (Aware 60) stalled_store = (Ok saved, s') /\
     store_claims stalled_store !! Step_id step = Some stalled_claim /\ dt_leb (claim_expires_at stalled_claim) (Aware 60) = false /\
     cell_at stalled_store (Step_id step) = Some c /\ record_revision c.2 = 2%Z /\
     cell_at s' (Step_id step) = Some (step, saved) /\
     (forall sid, sid <> Step_id step -> cell_at s' sid = cell_at stalled_store sid) /\ store_claims s' = store_claims stalled_store).
Proof.
  destruct (cell_at stalled_store (sample_step_id 11)) as [[x r]|] eqn:Hc; [|vm_compute in Hc; discriminate Hc].
  exists x, r. split; [reflexivity|]. cbn zeta.
  assert (Step_id x = sample_step_id 11) as Hid by exact (cell_at_id _ _ _ Hc).
  refine (save_is_all_or_nothing chain_plan_of stalled_store (Step_set_status S_RUNNING x) r 2 stalled_claim (Aware 60) stalled_store_ok _).
  cbn [Step_id Step_set_status]. rewrite Hid, Hc. intros c [= <-].
  destruct (cell_plan chain_plan_of stalled_store _ _ _ stalled_store_ok Hc) as (P & _ & _ & _ & H). exact H.
Defined.

Example second_saves : is_ok (save_step (Step_set_status S_RUNNING (default (sample_step 11 []) (fst <$> cell_at stalled_store (sample_step_id 11))))
  (default (Build_StepCoordinationRecord "" "" 0 "" PH_BLOCKED [] [] None 0 default_step_retry_policy None RS_NONE None FAIL_FAST []
     RD_CONSISTENT None None None "" 0 (Naive 0) (Naive 0)) (snd <$> cell_at stalled_store (sample_step_id 11)))
  2 (Some stalled_claim) (Aware 60) stalled_store).1 = true.
Proof. vm_compute. reflexivity. Qed.

(** ** What the model shows *)

(** One call after another. *)
Fixpoint in_turn (E : coordination_env) (calls : list coordinator_call) (w : cworld) : cworld :=
  match calls with
  | [] => w
  | c :: calls' => in_turn E calls' (execute (perform E) (handle sample_fuel (sample_coordinator "only") c) w).2
  end.

(** The first run of the first step fails and may be tried again; the second run succeeds. *)
Definition second_try : coordination_env := chain_env (fun _ n => if Nat.eqb n 0 then R_FAILED else R_SUCCEEDED).
Definition two_attempts : StepRetryPolicy := Build_StepRetryPolicy 2 float_one (binary64 2 0) (binary64 300 0) ["failed"] 1.
Definition retried_calls : list coordinator_call :=
  [CallRegisterPlan sample_coord_plan chain [(sample_step_id 10, two_attempts)] FAIL_FAST;
   CallObserveRun sample_task_id (sample_run_id 0) None None None].

(** A dependency that failed with a retry scheduled already counts as failed: the dependent step is skipped for
    good, and after the retry succeeds the task completes without it. *)
Lemma retry_skips_dependents :
  let w := in_turn second_try retried_calls empty_world in
  let w' := in_turn second_try [CallProcessDue (Some (Aware 2000000)); CallObserveRun sample_task_id (sample_run_id 1) None None None] w in
  statuses w = [(S_FAILED, PH_RETRY_SCHEDULED); (S_SKIPPED, PH_TERMINAL)] /\
  statuses w' = [(S_SUCCEEDED, PH_TERMINAL); (S_SKIPPED, PH_TERMINAL)] /\
  hd_error (List.filter (fun o => match o with CompleteTask _ _ => true | _ => false end) (w_asked w')) =
    Some (CompleteTask (aggregate_key sample_plan_id "succeeded") sample_task_id).
Proof. vm_compute. split_and!; reflexivity. Qed.

(** A plan that is registered again after its first step advanced is rejected. *)
Lemma registration_is_not_repeatable :
  let w := in_turn all_succeed [CallRegisterPlan sample_coord_plan chain [] FAIL_FAST] empty_world in
  (execute (perform all_succeed) (register_plan (sample_coordinator "only") sample_fuel sample_coord_plan chain [] FAIL_FAST) w).1 =
    Err (contract_error CONFLICT ("plan " +:+ sample_plan_id +:+ " is already registered")).
Proof. vm_compute. reflexivity. Qed.

(** A step in retry: the run of the first attempt, reported again under another key, fails the second attempt. *)
Lemma stale_run_fails_newer_attempt :
  let w := in_turn second_try (retried_calls ++ [CallProcessDue (Some (Aware 2000000))]) empty_world in
  let w' := in_turn second_try [CallObserveRun sample_task_id (sample_run_id 0) None (Some "again") None] w in
  hd_error (statuses w) = Some (S_RUNNING, PH_ATTEMPT_ACTIVE) /\ hd_error (statuses w') = Some (S_FAILED, PH_TERMINAL).
Proof. vm_compute. split; reflexivity. Qed.

(** An event that was meant for one wait closes the approval that the step waits for by then: the third
    coordinator has read the first wait; before it claims the step, the fourth one closes that wait and
    the fifth one enters the approval. *)
Definition still_running : coordination_env := chain_env (fun _ _ => R_RUNNING).
Definition event_wait : StepWait :=
  Build_StepWait "first" W_EVENT sample_task_id sample_plan_id (sample_step_id 10) sample_owner None None None None None None
    (Some "done") (Some "c") None (Aware 0) None None None.
Definition approval_wait : StepWait :=
  Build_StepWait "second" W_APPROVAL sample_task_id sample_plan_id (sample_step_id 10) sample_owner None None
    (Some "a") (Some "s") (Some "i") (Some "act") None None None (Aware 0) None None None.
Definition wait_calls : list (CoordinatorConfig * coordinator_call) :=
  [(sample_coordinator "1", CallRegisterPlan sample_coord_plan chain [] FAIL_FAST);
   (sample_coordinator "2", CallWaitStep event_wait None);
   (sample_coordinator "3", CallResolveEvent (sample_step_id 10) "one" "done" "c" sample_owner None None);
   (sample_coordinator "4", CallResolveEvent (sample_step_id 10) "two" "done" "c" sample_owner None None);
   (sample_coordinator "5", CallWaitStep approval_wait None)].
Definition approval_pending : list nat := repeat 0 60 ++ repeat 1 20 ++ repeat 2 3 ++ repeat 3 60 ++ repeat 4 20.

Lemma event_closes_a_newer_wait :
  let w := (deployed still_running sample_fuel wait_calls empty_world approval_pending).2 in
  let w' := (deployed still_running sample_fuel wait_calls empty_world (approval_pending ++ repeat 2 60)).2 in
  let waiting w := store_records (w_store w) !! sample_step_id 10 ≫= record_wait in
  waiting w = Some approval_wait /\ hd_error (statuses w) = Some (S_WAITING, PH_WAITING) /\
  hd_error (statuses w') = Some (S_RUNNING, PH_ATTEMPT_ACTIVE) /\ (wait_wait_key <$> waiting w') = Some "first".
Proof. vm_compute. split_and!; reflexivity. Qed.
