(* ===== verification/FailoverSamples.v ===== *)
(** * Control planes at work

    Two control planes and a worker over the reference provider, at which the theorems are instantiated, and what
    the model showed about promotions that overlap. *)

From Stdlib Require Import SpecFloat.
From S2P Require Import Prelude PyValue Errors StateMonad PyTime TransportModels Leadership Failover FailoverProofs FailoverBarrier.
From S2P Require Import FailoverTheorems.

(** One second passes with each operation, and leases last for fifteen. *)
Definition second : Z := 1000000.
Definition no_news : ReconciliationResult := Build_ReconciliationResult 0 0 [].
Definition sample_ha : ha_env := Build_ha_env (fun n => Z.of_nat n * second)%Z (fun n => Z.of_nat n * second)%Z
  (fun _ _ _ _ _ => Ok no_news) (fun _ _ _ => Ok tt).

Definition plane (name : string) : FailoverConfig := Build_FailoverConfig name ACTIVE_PASSIVE true (15 * second)%Z true.
Definition token_a : FencingToken := Build_FencingToken "cp-a" 1.
Definition token_b : FencingToken := Build_FencingToken "cp-b" 2.

Definition dispatch_by (token : FencingToken) : TransportEnvelope :=
  Build_TransportEnvelope "distributed.worker.command" M_COMMAND "1.0" (source_component (token_instance_id token)) "corr"
    (Some (VMap MDict [("reply_topic", VStr "distributed.worker.replies.cp"); ("worker_id", VStr "worker-1"); ("worker_job_id", VStr "job-1");
                       ("operation", VStr "dispatch"); ("control_plane_fence", encode_fencing_token token)]))
    None "message_1" ENVELOPE_VERSION (Aware 0) None None None None None empty_trace [].

(** Two processes, of which the first has a second coroutine, and a worker. *)
Definition planes : list ha_script :=
  [Process 0 (plane "cp-a") [CallStart "startup"; CallRequireAuthority; CallRequireAuthority];
   Process 0 (plane "cp-a") [CallRenew; CallStatus];
   Process 1 (plane "cp-b") [CallStart "startup"; CallStatus; CallTryPromote "leader lost"; CallRequireAuthority];
   Worker "worker-1" [dispatch_by token_a; dispatch_by token_a; dispatch_by token_b]].

Definition fresh_world : ha_world InMemoryCoordinationProvider :=
  Build_ha_world new_coordination_provider (fun _ => new_failover_state ACTIVE_PASSIVE) 0 [].

(** The first process is promoted, authorises a dispatch, and is not heard of until its lease has expired; the
    second process takes over. *)
Definition turns : list nat := repeat 0 8 ++ repeat 2 3 ++ repeat 3 2 ++ repeat 2 11 ++ repeat 3 4 ++ repeat 0 3 ++ repeat 1 4.

Definition sample_run : ha_world InMemoryCoordinationProvider := deployment sample_ha turns planes fresh_world.

Example sample_history : ha_log sample_run =
  [Handled "dispatch" (Some token_b); Validated token_b; Granted 1 true token_b; Validated token_b; Reconciled 1 token_b;
   Handled "dispatch" (Some token_a); Validated token_a; Granted 0 true token_a; Validated token_a; Reconciled 0 token_a].
Proof. by vm_compute. Qed.

Example sample_roles : map (fun i => svc_role (ha_services sample_run i)) [0; 1] = [CP_FENCED; CP_ACTIVE].
Proof. by vm_compute. Qed.

Lemma authority_is_fenced_witness :
  ha_log fresh_world = [] /\ Granted 1 true token_b ∈ ha_log sample_run /\
  (forall later between earlier t1 t2, ha_log sample_run = later ++ Validated t2 :: between ++ Validated t1 :: earlier ->
     (token_epoch t1 <= token_epoch t2)%Z /\ (token_epoch t1 = token_epoch t2 -> t1 = t2)) /\
  (forall later earlier i public t, ha_log sample_run = later ++ Granted i public t :: earlier -> Validated t ∈ earlier).
Proof.
  split; [done|]. split.
  - rewrite sample_history. by do 2 right; left.
  - destruct (authority_is_fenced sample_ha turns planes fresh_world eq_refl) as (Hord & Hgrant & _). split; [exact Hord|exact Hgrant].
Defined.

Lemma planes_one_promoter : one_promoter planes.
Proof.
  intros j1 j2 s1 s2 H1 H2. repeat (destruct j1 as [|j1]; [|]; cbn in H1; try done); repeat (destruct j2 as [|j2]; [|]; cbn in H2; try done);
    injection H1 as <-; injection H2 as <-; cbn; done.
Qed.
Lemma planes_reconciling : Forall reconciling_config planes.
Proof. by repeat constructor. Qed.

Lemma promotion_precedes_authority_witness :
  one_promoter planes /\ Forall reconciling_config planes /\ Granted 1 true token_b ∈ ha_log sample_run /\
  forall later earlier, ha_log sample_run = later ++ Granted 1 true token_b :: earlier -> Reconciled 1 token_b ∈ earlier.
Proof.
  split; [exact planes_one_promoter|]. split; [exact planes_reconciling|]. split.
  - rewrite sample_history. by do 2 right; left.
  - intros later earlier.
    exact (promotion_precedes_authority sample_ha turns planes fresh_world eq_refl (fun _ => eq_refl) planes_one_promoter planes_reconciling
             later earlier 1 token_b).
Defined.

(** ** One process *)

(** The provider becomes unreachable. *)
Definition outage : ha_world InMemoryCoordinationProvider := (perform_ha sample_ha (Set_available false) sample_run).2.

Lemma authority_fails_closed_witness :
  let '(r, w') := execute (perform_ha sample_ha) (require_authority 1 (plane "cp-b")) outage in
  svc_role (ha_services outage 1) = CP_ACTIVE /\
  exists e, r = Err e /\ refused e = true /\ svc_role (ha_services w' 1) = CP_FENCED /\ svc_lease (ha_services w' 1) = None.
Proof.
  pose proof (authority_fails_closed sample_ha 1 (plane "cp-b") outage ltac:(discriminate) eq_refl eq_refl) as H.
  assert (match (execute (perform_ha sample_ha) (require_authority 1 (plane "cp-b")) outage).1 with Ok _ => false | Err e => refused e end = true) as Hr
    by (vm_compute; reflexivity).
  assert (svc_role (ha_services outage 1) = CP_ACTIVE) as Hrole by (vm_compute; reflexivity).
  assert (svc_lease (ha_services outage 1) <> None) as Hlease by (vm_compute; discriminate).
  destruct (execute _ _ _) as [[g|e] w']; [discriminate Hr|]. split; [exact Hrole|]. exists e.
  destruct H as [_ [[[Hno|Hno] _]|(lease & _ & _ & _ & Hf)]]; [by destruct Hno|by destruct Hlease|].
  destruct (Hf Hr) as (H1 & H2 & _). split_and!; [reflexivity|exact Hr|exact H1|exact H2].
Defined.

(** The first process leads until second 16. *)
Definition led_world (moment : nat) : ha_world InMemoryCoordinationProvider :=
  let w := deployment sample_ha (repeat 0 8) planes fresh_world in Build_ha_world (ha_provider w) (ha_services w) moment (ha_log w).

Lemma sample_led moment : led_by "cp-a" 1 (Aware (16 * second)) (ha_provider (led_world moment)).
Proof. by repeat split; vm_compute. Qed.

Lemma standby_takes_over_witness :
  (exists w', execute (perform_ha sample_ha) (try_promote 1 (plane "cp-b") "leader lost") (led_world 8) = (Ok false, w') /\
     svc_role (ha_services w' 1) = CP_STANDBY) /\
  (exists w', execute (perform_ha sample_ha) (try_promote 1 (plane "cp-b") "leader lost") (led_world 15) = (Ok true, w') /\
     leads (leadership_of (ha_provider w')) token_b).
Proof.
  split.
  - destruct (standby_takes_over sample_ha 1 (plane "cp-b") "leader lost" "cp-a" ltac:(discriminate) eq_refl eq_refl eq_refl eq_refl eq_refl
      ltac:(discriminate) 1 (Aware (16 * second)) no_news (led_world 8) (sample_led 8) eq_refl) as [(w' & Hrun & _ & Hr & _) _]; [by vm_compute..|].
    exists w'. split; [exact Hrun|exact Hr].
  - destruct (standby_takes_over sample_ha 1 (plane "cp-b") "leader lost" "cp-a" ltac:(discriminate) eq_refl eq_refl eq_refl eq_refl eq_refl
      ltac:(discriminate) 1 (Aware (16 * second)) no_news (led_world 15) (sample_led 15) eq_refl) as [_ (w' & lease & Hrun & _ & _ & _ & Hl & _)];
      [by vm_compute..|done|]. exists w'. split; [exact Hrun|exact Hl].
Defined.

Lemma fenced_command_outcome_witness :
  ha_log (execute (perform_ha sample_ha) (fenced_handle "worker-1" (dispatch_by token_a)) (led_world 8)).2 =
  [Handled "dispatch" (Some token_a); Validated token_a] ++ ha_log (led_world 8).
Proof.
  erewrite (fenced_command_outcome sample_ha "worker-1" (dispatch_by token_a) MDict _ _ _ "dispatch" token_a (led_world 8)); first [by left|by vm_compute].
Defined.

(** ** Promotions that overlap

    The hypothesis of [promotion_precedes_authority] that one coroutine promotes the process is needed: the completion
    of a promotion does not look at which lease the process holds by then. *)

(** Two promotions of one process: the lease of the first expires during its reconciliation, the second is elected
    with the next epoch, and the completion of the first makes the process active with the lease of the second,
    which has not been reconciled. *)
Definition twice_promoted : list ha_script :=
  [Process 0 (plane "cp-a") [CallTryPromote "startup"]; Process 0 (plane "cp-a") [CallTryPromote "retry"];
   Process 0 (plane "cp-a") [CallRequireAuthority]; Process 1 (plane "cp-b") (repeat CallStatus 5)].

Example overlapping_promotions_skip_reconciliation :
  let token2 := Build_FencingToken "cp-a" 2 in
  ha_log (deployment sample_ha (repeat 0 3 ++ repeat 3 13 ++ repeat 1 3 ++ repeat 0 2 ++ repeat 2 3) twice_promoted fresh_world) =
  [Granted 0 true token2; Validated token2; Reconciled 0 token_a].
Proof. by vm_compute. Qed.

(** A status request that meets an outage during a promotion drops the lease and fences the process; the promotion
    then completes all the same: the process counts as active, without a lease that it could renew. *)
Definition status_during_promotion : list ha_script :=
  [Process 0 (plane "cp-a") [CallTryPromote "startup"]; Process 0 (plane "cp-a") [CallStatus]; Outages [false; true]].

Example promoted_without_a_lease :
  let s := ha_services (deployment sample_ha (repeat 0 3 ++ [2] ++ repeat 1 3 ++ [2] ++ repeat 0 2) status_during_promotion fresh_world) 0 in
  svc_role s = CP_ACTIVE /\ svc_lease s = None /\ svc_promotion_count s = 1%Z.
Proof. by vm_compute. Qed.
