(* ===== verification/AuthorizationSamples.v ===== *)
(** * Authorization at work

    An agent whose policy gates execution, and a human whose policy grants approving, over the local provider: the
    worlds at which the theorems are instantiated, and runs that show that their conclusions are not empty. *)

From S2P Require Import Prelude PyValue Errors StateMonad Ident Lifecycle Domain Contracts PyTime Authorization Approvals ApprovalHistory.
From S2P Require Import AuthorizationGate AuthorizationProofs AuthorizationTheorems Samples VerificationSamples.

(** ** Principals and policies *)

Definition builder : ActorIdentity := Build_ActorIdentity "agent:builder" ACTOR_AGENT None [].
Definition alice : ActorIdentity := Build_ActorIdentity "user:alice" ACTOR_HUMAN None [].
Definition root : ActorIdentity := Build_ActorIdentity "user:root" ACTOR_HUMAN None [].

(** The root administers everything, but its deletions are gated. *)
Definition builder_policy : LocalPrincipalPolicy := Build_LocalPrincipalPolicy "agent:builder" [ACTOR_AGENT] [ACT_READ] [ACT_EXECUTE] [] [] [] [] [] false.
Definition alice_policy : LocalPrincipalPolicy := Build_LocalPrincipalPolicy "user:alice" [ACTOR_HUMAN] [ACT_APPROVE] [] [RT_TOOL] [] [] [] [] false.
Definition root_policy : LocalPrincipalPolicy := Build_LocalPrincipalPolicy "user:root" [ACTOR_HUMAN] [] [ACT_DELETE] [] [] [] [] [] true.

Definition sample_policies : local_policies :=
  match foldr (fun p acc => policies ← acc; register_local_policy policies p) (Ok ∅) [builder_policy; alice_policy; root_policy] with
  | Ok policies => policies
  | Err _ => ∅
  end.

Definition sample_operation : OperationContext :=
  Build_OperationContext "corr-1" None None None None (Build_OperationControl None None RETRY_NEVER).

Definition sample_action (actor : ActorIdentity) (action : AuthorizationAction) (resource : string) : ProposedAction :=
  Build_ProposedAction (Build_AuthorizationContext actor action RT_TOOL resource sample_operation None None None None None None None None [] None [])
    (VStr "v1") None.

Definition deploy : ProposedAction := sample_action builder ACT_EXECUTE "tool-deploy".
Definition other_deploy : ProposedAction := sample_action builder ACT_EXECUTE "tool-undeploy".
Definition removal : ProposedAction := sample_action root ACT_DELETE "tool-deploy".

(** A digest for the samples: the strings of the payload. *)
Definition sample_sha256_json (payload : dict) : res string :=
  Ok ("sha256" +:+ String.concat "" (map (fun p => match p.2 with VStr s => ":" +:+ s | _ => ":" end) payload)).

(** One minute passes with each reading of a clock. *)
Definition minute : Z := 60000000.
Definition sample_az : az_env := Build_az_env
  (fun _ request => d ← local_authorize sample_policies request; Ok (Decision d)) (fun _ _ => Ok tt)
  (fun n => Z.of_nat n * minute)%Z (fun n => Z.of_nat n * minute)%Z sample_uuid sample_sha256_json.

Definition new_approvals : ApprovalService := Build_ApprovalService (15 * minute) [] 0.

(** ** A run *)

Definition deploy_approval : string := id_of_uuid "approval" (sample_uuid 1).

Definition sample_gate : GateConfig := Build_GateConfig true 1.
Definition sample_callers : list (list az_call) :=
  [[CallEnforce deploy None RISK_HIGH; CallEnforce deploy (Some deploy_approval) RISK_HIGH; CallDecide other_deploy (Some deploy_approval) RISK_HIGH];
   [CallDecideApproval deploy_approval builder true sample_operation None; CallDecideApproval deploy_approval alice true sample_operation (Some "go ahead")];
   [CallDecide removal None RISK_STANDARD]].

Definition sample_turns : list nat := repeat 0 7 ++ repeat 1 12 ++ repeat 0 20 ++ repeat 2 8.
Abbreviation sample_end := (authorizing sample_az sample_gate sample_turns sample_callers new_approvals).

(** What an event says. *)
Definition brief (e : az_event) : string :=
  match e with
  | Answered request (Decision d) =>
      request_principal_ref request +:+ " asked to " +:+ request_action_name request +:+ ": " +:+ AuthorizationOutcome_value (decision_outcome d)
  | Answered request _ => request_principal_ref request
  | Covered _ r _ _ => "covered by " +:+ record_approval_id r
  | Settled r who => who +:+ " settled " +:+ enum_value (record_status r)
  | Concluded a d => actor_id (ctx_actor (proposed_context a)) +:+ " got " +:+ AuthorizationOutcome_value (decision_outcome d)
  end.

(** The agent cannot approve its own deployment; once a human did, the deployment goes through, another one does not,
    and not even the administrator deletes without an approval. *)
Example sample_story : rev (map brief (az_log sample_end)) =
  ["agent:builder asked to execute: require_approval"; "agent:builder asked to approve: deny"; "user:alice asked to approve: allow";
   "user:alice settled approved"; "agent:builder asked to execute: require_approval"; "covered by " +:+ deploy_approval;
   "agent:builder got allow"; "agent:builder asked to execute: require_approval"; "agent:builder got require_approval";
   "user:root asked to delete: require_approval"; "user:root got require_approval"].
Proof. by vm_compute. Qed.

Example sample_statuses : map (fun x => record_status x.2) (approval_records (az_approvals sample_end)) = [A_APPROVED; A_PENDING; A_PENDING].
Proof. by vm_compute. Qed.

Lemma sample_distinct n m : n < 400 -> m < 400 -> az_uuid sample_az n = az_uuid sample_az m -> n = m.
Proof. exact (sample_uuid_distinct n m). Qed.
Lemma sample_draws : approval_draws (az_approvals sample_end) <= 400.
Proof. apply (bool_decide_eq_true_1 _). by vm_compute. Qed.

(** ** Instances *)

Definition permitted (e : option az_event) : AuthorizationDecision :=
  match e with Some (Concluded _ d) => d | _ => Build_AuthorizationDecision false None [] DENY None [] [] end.
Definition settled_record (e : option az_event) : ApprovalRecord :=
  match e with
  | Some (Settled r _) => r
  | _ => Build_ApprovalRecord (Build_Approval "" "" (Build_OwnerRef "" "") "" A_PENDING "" None None 0 0 "" None []) "" "" "" "" "" RISK_HIGH "" (Aware 0)
           None None None None None None
  end.

Definition sample_log : list az_event := az_log sample_end.
Definition permission : AuthorizationDecision := permitted (sample_log !! 4).
Definition settlement : ApprovalRecord := settled_record (sample_log !! 7).

Lemma sample_permission : az_log sample_end = take 4 sample_log ++ Concluded deploy permission :: drop 5 sample_log.
Proof. vm_compute. reflexivity. Qed.
Lemma permission_allows : decision_outcome permission = ALLOW.
Proof. vm_compute. reflexivity. Qed.
Lemma sample_settlement : az_log sample_end = take 7 sample_log ++ Settled settlement "user:alice" :: drop 8 sample_log.
Proof. vm_compute. reflexivity. Qed.
Lemma settlement_approves : record_status settlement = A_APPROVED.
Proof. vm_compute. reflexivity. Qed.
Lemma sample_init : ApprovalService_init (15 * minute) = Ok new_approvals.
Proof. reflexivity. Qed.

Lemma allowed_actions_are_authorized_witness :
  ApprovalService_init (15 * minute) = Ok new_approvals /\ approval_draws (az_approvals sample_end) <= 400 /\
  az_log sample_end = take 4 sample_log ++ Concluded deploy permission :: drop 5 sample_log /\ decision_outcome permission = ALLOW /\
  authorized sample_az (approval_records (az_approvals sample_end)) (drop 5 sample_log) deploy permission.
Proof.
  split_and!; [exact sample_init|exact sample_draws|exact sample_permission|exact permission_allows|].
  exact (allowed_actions_are_authorized sample_az sample_gate 400 sample_distinct sample_turns sample_callers (15 * minute) new_approvals
    (take 4 sample_log) (drop 5 sample_log) deploy permission sample_init sample_draws sample_permission permission_allows).
Defined.

Lemma approvals_are_settled_by_the_entitled_witness :
  ApprovalService_init (15 * minute) = Ok new_approvals /\ approval_draws (az_approvals sample_end) <= 400 /\
  az_log sample_end = take 7 sample_log ++ Settled settlement "user:alice" :: drop 8 sample_log /\
  may_settle sample_az (drop 8 sample_log) settlement "user:alice" "approve".
Proof.
  split_and!; [exact sample_init|exact sample_draws|exact sample_settlement|].
  pose proof (approvals_are_settled_by_the_entitled sample_az sample_gate 400 sample_distinct sample_turns sample_callers (15 * minute) new_approvals
    (take 7 sample_log) (drop 8 sample_log) settlement "user:alice" sample_init sample_draws sample_settlement) as H.
  rewrite settlement_approves in H. exact H.
Defined.

Lemma approvals_settle_once_witness :
  let before := authorizing sample_az sample_gate (take 19 sample_turns) sample_callers new_approvals in
  let after := authorizing sample_az sample_gate (take 19 sample_turns ++ drop 19 sample_turns) sample_callers new_approvals in
  approval_draws (az_approvals after) <= 400 /\
  exists r r', dict_get deploy_approval (approval_records (az_approvals before)) = Some r /\
    dict_get deploy_approval (approval_records (az_approvals after)) = Some r' /\ record_status r = A_APPROVED /\ r' = r.
Proof.
  intros before after. split; [exact sample_draws|].
  destruct (approvals_settle_once sample_az sample_gate 400 sample_distinct (take 19 sample_turns) (drop 19 sample_turns) sample_callers
    (15 * minute) new_approvals eq_refl sample_draws) as [Hkept _].
  assert (exists r, dict_get deploy_approval (approval_records (az_approvals before)) = Some r /\ record_status r = A_APPROVED) as (r & Hr & Hst)
    by (vm_compute; by eexists).
  destruct (Hkept deploy_approval r Hr) as (r' & Hr' & _ & [->|[Hp _]]); [|by rewrite Hst in Hp]. exists r, r. by split_and!.
Defined.

Lemma builder_registered : sample_policies !! "agent:builder" = Some builder_policy.
Proof. vm_compute. reflexivity. Qed.
Lemma deploy_gated : ACT_EXECUTE ∈ policy_approval_actions builder_policy.
Proof. by left. Qed.

Lemma gated_actions_need_an_approver_witness :
  az_log sample_end = take 4 sample_log ++ Concluded deploy permission :: drop 5 sample_log /\ decision_outcome permission = ALLOW /\
  exists r approver_ref granted,
    covered_by_approval sample_az (approval_records (az_approvals sample_end)) (drop 5 sample_log) deploy r approver_ref granted /\
    approver_granted sample_az sample_policies granted r approver_ref.
Proof.
  split_and!; [exact sample_permission|exact permission_allows|].
  exact (gated_actions_need_an_approver sample_az sample_gate sample_policies (fun n request => eq_refl) 400 sample_turns sample_callers
    (15 * minute)%Z new_approvals (take 4 sample_log) (drop 5 sample_log) deploy permission builder_policy sample_distinct sample_init sample_draws
    builder_registered deploy_gated sample_permission permission_allows).
Defined.

(** The world after the approval. *)
Abbreviation approved_world := (authorizing sample_az sample_gate (take 19 sample_turns) sample_callers new_approvals).

Definition value_of {A} (dflt : A) (r : res A) : A := match r with Ok a => a | Err _ => dflt end.
Definition approved_record : ApprovalRecord :=
  default settlement (dict_get deploy_approval (approval_records (az_approvals approved_world))).
Definition deploy_request : AuthorizationRequest :=
  value_of (Build_AuthorizationRequest "" "" "" sample_operation "" "" None None None None None None None None [] None [] None None None)
    (request_for sample_sha256_json deploy (Some deploy_approval)).
Definition deploy_decision : AuthorizationDecision := value_of permission (local_authorize sample_policies deploy_request).

Lemma approved_stored : dict_get deploy_approval (approval_records (az_approvals approved_world)) = Some approved_record.
Proof. vm_compute. reflexivity. Qed.
Lemma approved_key : record_approval_id approved_record = deploy_approval.
Proof. vm_compute. reflexivity. Qed.
Lemma approved_status : record_status approved_record = A_APPROVED.
Proof. vm_compute. reflexivity. Qed.
Lemma approved_digest : action_digest (az_sha256_json sample_az) deploy = Ok (record_digest approved_record).
Proof. vm_compute. reflexivity. Qed.
Lemma approved_in_time : (az_utcnow sample_az (approval_draws (az_approvals approved_world)) < instant (record_expires_at approved_record))%Z.
Proof. vm_compute. reflexivity. Qed.
Lemma deploy_requested : request_for (az_sha256_json sample_az) deploy (Some deploy_approval) = Ok deploy_request.
Proof. vm_compute. reflexivity. Qed.
Lemma deploy_decided n : az_provider sample_az n deploy_request = Ok (Decision deploy_decision).
Proof. cbn [az_provider sample_az]. vm_compute. reflexivity. Qed.
Lemma deploy_needs_approval : decision_outcome deploy_decision = REQUIRE_APPROVAL /\ blank_when_given (decision_policy_id deploy_decision) = false.
Proof. split; vm_compute; reflexivity. Qed.
Lemma deploy_approval_valid : validate_id deploy_approval "approval" = Ok deploy_approval.
Proof. vm_compute. reflexivity. Qed.

Lemma approved_action_proceeds_witness :
  exists d w', execute (perform_az sample_az) (enforce (az_sha256_json sample_az) sample_gate deploy (Some deploy_approval) RISK_HIGH) approved_world = (Ok d, w') /\
    decision_outcome d = ALLOW /\ exists record, az_audit w' = az_audit approved_world ++ [record] /\ audit_outcome record = ALLOW.
Proof.
  destruct (approved_action_proceeds sample_az sample_gate (fun _ _ _ => eq_refl) approved_world deploy deploy_approval approved_record RISK_HIGH
    deploy_request (Decision deploy_decision) deploy_decision deploy_approval_valid approved_stored approved_key approved_status approved_digest
    approved_in_time deploy_requested (deploy_decided _) eq_refl (proj1 deploy_needs_approval) (proj2 deploy_needs_approval))
    as (d & w' & Hrun & Hallow & _ & _ & _ & _ & record & Haudit & Houtcome & _).
  exists d, w'. split; [exact Hrun|]. split; [exact Hallow|]. exists record. split; [exact Haudit|exact Houtcome].
Defined.
